(* ===== verification/_CoqProject ===== *)
-Q . S2P
Prelude.v
Bits.v
HashTable.v
Collection.v
LinkedList.v
BlockLists.v
ListRefinement.v
MemBlock.v
MemPoolInv.v
MemClaims.v
RlcUmEntity.v
RlcUmDar.v
RlcUmWindow.v
RlcUmReasm.v
RlcUmRxInv.v
RlcUmSegment.v
RlcUmTx.v
RlcUmTop.v
RlcUmPdu.v
RlcUmWellFormed.v
RlcUmSem.v
RlcUmLink.v
RlcUmSystem.v
RlcUmClaims.v
Snow3g.v
Osa.v
Pdcp.v
PdcpLayer.v
PdcpConfig.v
PdcpSecurity.v
PdcpLink.v
PdcpSystem.v
PdcpClaims.v
PdcpErrors.v
Crc.v
CrcProofs.v
CrcClaims.v
Segmentation.v
SegmentationClaims.v
RlcAmStatus.v
RlcAmCodec.v
RlcAmEntity.v
RlcAmReport.v
RlcAmReportProofs.v
RlcAmExchange.v
RlcAmClaims.v
RlcAmRx.v
RlcAmRxProofs.v
RlcAmRxClaims.v
RlcAmTx.v
RlcAmSegment.v
RlcAmRetransmit.v
RlcAmQueue.v
RlcAmSegProofs.v
RlcAmDecode.v
RlcAmAck.v
RlcAmStream.v
RlcAmLink.v
RlcAmSystem.v
RlcAmTxClaims.v
RlcTm.v
RlcLayer.v
RlcLayerProofs.v
RlcLayerType.v
RlcBearer.v
RlcLayerClaims.v
PdcpRlc.v
PdcpRlcClaims.v
MacHeader.v
MacHeaderProofs.v
MacUe.v
MacBsr.v
MacDlsch.v
MacUeList.v
MacUeListProofs.v
MacUeListSpec.v
MacRxSdu.v
MacUlsch.v
MacClaims.v
