(* ===== verification/Prelude.v ===== *)
(** * OpenAirInterface LTE layer 2: verification library

    The repository is an LTE eNB and UE. This library models parts of its
    layer 2, of the utilities layer 2 stands on and of the coding of the
    physical layer, as executable definitions translated from the C sources
    (paths below are relative to src/), and proves what makes them correct.

    ** The parts and how they interact

    A packet goes from the IP driver, the GTP tunnel or the RRC to PDCP
    (openair2/LAYER2/PDCP_v10.1.0), which numbers, ciphers and integrity
    protects it and hands the PDU to RLC; an RLC UM entity
    (openair2/LAYER2/RLC/UM_v9.3.0) segments and concatenates it into PDUs of
    the sizes the MAC scheduler grants; the peer's RLC UM reorders and
    reassembles, and the peer's PDCP deciphers and delivers. An RLC AM entity
    (openair2/LAYER2/RLC/AM_v9.3.0) also tells its peer in STATUS PDUs what it
    has received, and the peer acknowledges or retransmits accordingly; RLC TM
    (openair2/LAYER2/RLC/TM_v9.3.0) passes SDUs on as they are. The RLC
    dispatcher (rlc.c, rlc_mac.c, rlc_rrc.c of openair2/LAYER2/RLC) routes each
    call of PDCP, MAC and RRC to the entity of its bearer. PDCP calls the
    stream ciphers of openair2/UTIL/OSA. Both layers keep their entities
    behind the chained hash table of common/utils/collection/hashtable, and
    their packets in the memory blocks of openair2/UTIL/MEM, which they pass
    on in the linked lists of openair2/UTIL/LISTS. MAC (openair2/LAYER2/MAC)
    asks RLC for PDUs, puts them behind a header with its control elements
    into a transport block, and takes received blocks apart; the eNB keeps its
    UEs in arrays linked by index. Below MAC, a transport block gets a CRC and
    is cut into code blocks (openair1/PHY/CODING).

    ** Conventions (this file)

    A C integer is a [Z], casts are [u8] ... [s32]; a function that can stop
    the program or touch memory outside an object returns [res]
    ([Fault AssertFatal], [Fault OutOfBounds], ...); fuelled loops have a
    [Fault OutOfFuel] of their own, and the theorems that say a handler
    returns exclude it. A struct is a record updated with
    [r <| field := v |>]. Results of the environment (allocation, [trylock],
    the status RLC returns) are arguments. Traces, time measurements and
    statistics that nothing reads are left out.

    ** Files

    - [Bits]: values and messages as lists of bits, for the CRCs and the
      fields of STATUS PDUs.
    - [HashTable]: hashtable.c. [hashtable_refines_map] says the operations
      implement a finite map for any hash function.
    - [Collection]: the interface ([CollectionOps], [CollectionLaws]) by which
      a layer uses a keyed set of entities, and its implementation by the hash
      table with a heap of objects ([objects_collection]).
    - [LinkedList] (model and list.c), [BlockLists] (list2.c): linked lists of
      blocks in a store with pointers; [ListRefinement]: their interface
      ([BlockListOps], [BlockListLaws]) and the refinement of sequences.
    - [MemBlock] (mem_block.c), [MemPoolInv] (invariant), [MemClaims]: the
      pools of memory blocks, a client of the lists.
    - [RlcUmEntity] (entity, FSM, configuration), [RlcUmDar] (reception:
      rlc_um_dar.c, rlc_um_reassembly.c, rlc_um_receiver.c), [RlcUmSegment]
      (rlc_um_segment.c), [RlcUmTop] (rlc_um.c): the model of RLC UM.
      [RlcUmWindow], [RlcUmReasm], [RlcUmRxInv] prove the receiver's
      arithmetic, reassembly and invariant; [RlcUmTx] the transmitter's;
      [RlcUmPdu] and [RlcUmSem] relate the bytes of a PDU to what it carries;
      [RlcUmWellFormed] is the format of a PDU without the code, and what the
      code does with PDUs that are or are not of it;
      [RlcUmLink] and [RlcUmSystem] put two entities and a channel together;
      [RlcUmClaims] states the properties of one entity.
    - [RlcAmStatus] (bit fields, encoder and decoder of rlc_am_status_report.c)
      and [RlcAmReport] (rlc_am_windows.c, rlc_am_send_status_pdu,
      rlc_am_receive_process_control_pdu): status reports of RLC AM.
      [RlcAmCodec] proves the bit fields and the codec, [RlcAmReportProofs]
      what a report says, [RlcAmExchange] what the peer does with it;
      [RlcAmClaims] states the properties.
    - [RlcAmEntity] (the structures, rlc_am_init.c and the timers), [RlcAmRx]
      (rlc_am_receiver.c, rlc_am_rx_list.c, rlc_am_reassembly.c), [RlcAmTx]
      (rlc_am_in_sdu.c, rlc_am_segments_holes.c, acknowledgement in
      rlc_am_retransmit.c), [RlcAmSegment] (rlc_am_segment.c, polling, copies),
      [RlcAmRetransmit] (segments of PDUs, rlc_am.c): the rest of RLC AM.
      [RlcAmRxProofs] and [RlcAmRxClaims] prove the receiver; [RlcAmQueue]
      relates the ring of SDUs to the queue of RLC UM, whose lemmas on
      segmentation are used again by [RlcAmSegProofs]; [RlcAmDecode] reads a
      PDU back, [RlcAmAck] proves acknowledgement; [RlcAmStream], [RlcAmLink]
      and [RlcAmSystem] put two entities and a lossy channel together;
      [RlcAmTxClaims] states what goes wrong in the transmitter.
    - [RlcTm] (TM_v9.3.0), [RlcLayer] (rlc.c, rlc_mac.c, rlc_rrc.c,
      rlc_mpls.c): the RLC layer over [CollectionOps], with the union of the
      three kinds of entity. [RlcLayerProofs]: the keys, the frame ([only]) and
      the calls as one type ([call], [run_call]); [RlcLayerType]: the member of
      the union; [RlcBearer]: two layers with a UM bearer between them, which
      simulate [RlcUmSystem.link]; [RlcLayerClaims] states the properties.
    - [Snow3g] (osa_snow3g.c, osa_rijndael.c) and [Osa] (osa_stream_eea.c,
      osa_stream_eia.c): ciphering and integrity. AES of nettle and openssl
      is the class [AesLib], whose laws are the documented behaviour of CTR
      and CMAC.
    - [Pdcp] (pdcp_t, pdcp_sequence_manager.c, pdcp_primitives.c,
      pdcp_security.c), [PdcpLayer] (data path of pdcp.c), [PdcpConfig]
      (configuration in pdcp.c): the model of PDCP over [CollectionOps] and
      [AesLib]. [PdcpSecurity], [PdcpLink], [PdcpSystem] prove that two
      synchronised ends transfer SDUs; [PdcpClaims] and [PdcpErrors] state the
      properties. [PdcpRlc] puts the PDCP layers over the RLC layers of
      [RlcBearer], calling each with what the other has made, and
      [PdcpRlcClaims] states the property of the whole.
    - [MacHeader] (generate_dlsch_header, generate_ulsch_header and the
      parsers), [MacUe] (blocks, buffer status and power headroom in
      ue_procedures.c), [MacRxSdu] (rx_sdu in eNB_scheduler_ulsch.c): MAC over
      the RLC layer. [MacHeaderProofs] relates the bytes of a header to its
      subheaders; [MacDlsch] and [MacUlsch] say what the receiver does with a
      block; [MacClaims] states the properties, [MacBsr] that of the levels of
      buffer status. [MacUeList] (eNB_scheduler_primitives.c): the list of UEs;
      [MacUeListProofs] proves the chains, [MacUeListSpec] the refinement.
    - [Crc] (crc_byte.c), [CrcProofs], [CrcClaims]; [Segmentation]
      (lte_segmentation.c), [SegmentationClaims]: CRCs and code blocks.

    ** What the theorems show

    - PDCP over RLC: with a UM data bearer configured in the four layers of an
      eNB and a UE, over a channel that loses and reorders nothing, for every
      interleaving of the calls on the bearer and of other calls of RLC, SDUs
      come out of PDCP as they went in, in order and, once nothing is under
      way, all of them ([stack_in_order]). As for RLC UM below, the grants are
      those of [RlcUmSystem.grant_ok]: a PDU filled exactly, with fewer than 24
      length indicators.
    - Hash table: refinement of a map; as lemmas, release of every datum once
      and the defects of [hashtable_resize].
    - Lists and pools: any history of operations on lists that share blocks is
      simulated by sequences; allocation gives large enough blocks that
      overlap no block in use, no block is lost or duplicated, [list_free]
      ends; and the defects of moved blocks and of the largest size.
    - RLC UM: over a lossless channel, for every interleaving of the handlers,
      SDUs come out in order and unchanged, no handler faults, and everything
      submitted can be delivered, for the grants and SDUs of [grant_ok] and
      [sdu_accepted] ([um10_trailing_bytes_delivered] shows what a grant that
      is not filled exactly does with 10-bit SNs); under any well-formed PDUs
      an entity keeps its invariant, while the malformed ones of
      [RlcUmWellFormed] are not caught ([um_entity_safe]); the PDU made for a
      grant; what the receiver reads in a transmitter's PDU; the reordering
      window against its specification; as a lemma, the FSM against its
      transition relation.
    - RLC AM: a STATUS PDU is read as it was written; a report fits its grant
      and below ACK_SN asks for exactly the bytes not received; the peer never
      acknowledges a PDU that is not completely received. Over a channel that
      loses, repeats and reorders blocks, for every interleaving of
      submissions, new PDUs, copies, arrivals and acknowledgements, SDUs come
      out in order, once and unchanged, and no handler faults
      ([am_link_reliable], [am_link_no_fault]). The steps exclude, by boolean
      conditions of the model, what the theorems of [RlcAmRxClaims] and
      [RlcAmTxClaims] show to go wrong: a grant that is not filled exactly, or
      an SDU in 32 PDUs, which fails an assertion ([am_grant_ok]), a slot of an unacknowledged SDU ([room]), a PDU that the
      wrapped walk puts in the wrong place ([misplaced]). Retransmissions are
      whole PDUs there; segments of PDUs and the holes of a negative
      acknowledgement are modelled and evaluated, with no theorem yet.
    - The RLC layer: a call changes no bearer it does not name
      ([rlc_layer_isolated]); an object stays the member of the union it was
      made for, MBMS channels are UM, and a request to add a bearer with another
      mode is caught, one to modify it is not ([rlc_union_typed]); a UM bearer delivers from layer to layer
      ([rlc_bearer_in_order]); what the removal of a UE releases; TM sends an
      eighth of an SDU, because it counts bits and is given bytes.
    - Security: each cipher undoes itself and is local to the message, codes
      depend on the message only, the repository's test vectors.
    - PDCP: bearers of two layers deliver in order across number wraps;
      configuration establishes synchronisation; an SRB's PDU is delivered
      whatever its integrity check says; removal of a UE; and closed executions
      of other defects.
    - MAC: transport blocks are taken apart as they were put together, in both
      directions, except with a long buffer status report (proved to shift the
      data by a byte); the level of a report is the right one; the list of UEs
      refines two sequences and a free list.
    - Coding: table-driven CRCs equal the bit-serial register and detect
      bursts; code blocks have the sizes of 36.212, hold exactly the input and
      pass their CRC, except where the average size is rounded down (proved to
      wrap).

    ** Bounds and fuel

    Loops that run over a buffer are structural or have fuel equal to the
    number of elements they can visit (the reception buffer of 1024 slots, the
    queue of 128 SDUs, the bytes of a PDU, the blocks of the store); the
    safety and refinement theorems prove that fuel enough. SDU sizes are at
    most 2047 bytes for RLC (the 11-bit length indicator) and 1500 for PDCP
    ([MAX_IP_PACKET_SIZE]); a status report is for a grant of at most 1536
    bytes, which bounds its entries by the 1023 of the array; a transport block
    has at most 97920 bits (16 code blocks).

    ** Not modelled

    The schedulers and the random access of MAC (scheduling over large shared
    state; the grants they make are inputs here); the physical layer's signal
    processing and decoders (openair1, SIMD code); RRC with its ASN.1 codecs generated at build time;
    NAS (openair3/NAS), S1AP, X2AP, GTPV1-U and SCTP tasks and ITTI; the
    emulation and traffic generator, the network drivers and the programs
    under targets/, which are input and output. *)

From Stdlib Require Export ZArith Lia.
From stdpp Require Export base list gmap numbers option strings.

#[global] Set Default Proof Using "Type".
Open Scope Z_scope.

(** ** Machine integers

    A C integer is a [Z]; the casts the source performs (explicitly or by
    assignment to a narrower field) are written out with these functions.
    C's [/] and [%] on signed operands truncate: they are [Z.quot] and
    [Z.rem]. *)

Definition u8 (x : Z) : Z := x mod 2 ^ 8.
Definition u16 (x : Z) : Z := x mod 2 ^ 16.
Definition u32 (x : Z) : Z := x mod 2 ^ 32.
Definition u64 (x : Z) : Z := x mod 2 ^ 64.
Definition s16 (x : Z) : Z := (x + 2 ^ 15) mod 2 ^ 16 - 2 ^ 15.
Definition s32 (x : Z) : Z := (x + 2 ^ 31) mod 2 ^ 32 - 2 ^ 31.

(** ** Faults and the result monad

    [Fault] is an execution that leaves the defined behaviour of the program:
    an [AssertFatal] of the source, an access outside an object, a division
    by zero, or a fuelled loop that was given too little fuel (a separate
    constructor, so that theorems can exclude it). *)

Inductive fault : Type :=
| AssertFatal
| OutOfBounds
| DivByZero
| OutOfFuel.

Inductive res (A : Type) : Type :=
| Ok (a : A)
| Fault (f : fault).
Arguments Ok {_} _.
Arguments Fault {_} _.

#[global] Instance fault_eq_dec : EqDecision fault.
Proof. solve_decision. Defined.

#[global] Instance res_ret : MRet res := fun A a => Ok a.
#[global] Instance res_bind : MBind res := fun A B f m =>
  match m with Ok a => f a | Fault e => Fault e end.
#[global] Instance res_fmap : FMap res := fun A B f m =>
  match m with Ok a => Ok (f a) | Fault e => Fault e end.

Definition of_option {A} (e : fault) (o : option A) : res A :=
  match o with Some a => Ok a | None => Fault e end.

Definition assert_fatal (b : bool) : res unit :=
  if b then Ok tt else Fault AssertFatal.

Lemma bind_Ok {A B} (f : A -> res B) (m : res A) (b : B) :
  m ≫= f = Ok b <-> exists a, m = Ok a /\ f a = Ok b.
Proof. destruct m; naive_solver. Qed.

Lemma res_bind_Ok {A B} (f : A -> res B) (a : A) : Ok a ≫= f = f a.
Proof. done. Qed.

(** One step of a computation whose first part has returned. The equation is
    rewritten with, not left to conversion, which would compare the two
    computations from the inside. *)
Ltac step_ok := rewrite res_bind_Ok; cbv beta iota.

Lemma of_option_Ok {A} e (o : option A) a : of_option e o = Ok a <-> o = Some a.
Proof. destruct o; naive_solver. Qed.

(** ** Record update

    A record declares its eta-expansion as an instance of [Settable]; the
    updater of a field is then found by abstracting the field's projection
    in that expansion. *)

Class Settable (R : Type) := eta_of : R -> R.
Class Updatable {R T : Type} (proj : R -> T) := upd : (T -> T) -> R -> R.
Arguments upd {R T} proj {_} _ _.

Ltac build_updater :=
  match goal with
  | |- @Updatable ?R ?T ?proj =>
      let inst := constr:(_ : Settable R) in
      let body := eval hnf in inst in
      let u := constr:(fun (f : T -> T) (r : R) =>
        ltac:(let e := eval cbv beta in (body r) in
              let e' := eval pattern (proj r) in e in
              match e' with
              | ?ctx _ => let t := eval cbv beta in (ctx (f (proj r))) in exact t
              end)) in
      exact u
  end.
#[export] Hint Extern 1 (@Updatable _ _ _) => build_updater : typeclass_instances.

Declare Scope record_scope.
Delimit Scope record_scope with rec.
Open Scope record_scope.
Notation "r <| f := v |>" := (upd f (fun _ => v) r)
  (at level 1, f at level 9, left associativity) : record_scope.
Notation "r <| f ::= g |>" := (upd f g r)
  (at level 1, f at level 9, left associativity) : record_scope.

(** [rsimpl] computes projections of updated records. *)
Ltac rsimpl_in_goal :=
  repeat match goal with
  | |- context [?p (@upd ?R ?T ?q ?i ?f ?r)] =>
      first [ change (p (@upd R T q i f r)) with (f (p r)); cbv beta
            | change (p (@upd R T q i f r)) with (p r) ]
  end.

Ltac rsimpl_in H :=
  repeat match type of H with
  | context [?p (@upd ?R ?T ?q ?i ?f ?r)] =>
      first [ change (p (@upd R T q i f r)) with (f (p r)) in H; cbv beta in H
            | change (p (@upd R T q i f r)) with (p r) in H ]
  end.

Ltac rsimpl :=
  rsimpl_in_goal;
  repeat match goal with
  | H : context [?p (@upd ?R ?T ?q ?i ?f ?r)] |- _ => progress rsimpl_in H
  end.

(** For large records: a projection is recognised by its occurrence in the
    eta-expansion of the record, and its equation is proved for a variable
    record, so that no two deeply updated records are compared by
    conversion. *)
Ltac projection_eq p R T q i f r k :=
  let inst := constr:(_ : Settable R) in
  let body := eval hnf in inst in
  let e := eval cbv beta in (body r) in
  match e with context [p r] => idtac end;
  tryif constr_eq p q then
    (let E := constr:((fun (f' : T -> T) (r' : R) => eq_refl) : forall (f' : T -> T) (r' : R), p (@upd R T q i f' r') = f' (p r')) in
     k (E f r))
  else
    (let E := constr:((fun (f' : T -> T) (r' : R) => eq_refl) : forall (f' : T -> T) (r' : R), p (@upd R T q i f' r') = p r') in
     k (E f r)).

Ltac rproj_in_goal :=
  repeat match goal with
  | |- context [?p (@upd ?R ?T ?q ?i ?f ?r)] => projection_eq p R T q i f r ltac:(fun E => rewrite E); cbv beta
  end.

Ltac rproj_in H :=
  repeat match type of H with
  | context [?p (@upd ?R ?T ?q ?i ?f ?r)] => projection_eq p R T q i f r ltac:(fun E => rewrite E in H); cbv beta in H
  end.

Ltac rproj :=
  rproj_in_goal;
  repeat match goal with
  | H : context [?p (@upd ?R ?T ?q ?i ?f ?r)] |- _ => progress rproj_in H
  end.

(** ** Hint databases *)

Create HintDb cint.
Create HintDb l2.

Lemma u8_range x : 0 <= u8 x < 2 ^ 8.
Proof. apply Z.mod_pos_bound; lia. Qed.
Lemma u16_range x : 0 <= u16 x < 2 ^ 16.
Proof. apply Z.mod_pos_bound; lia. Qed.
Lemma u32_range x : 0 <= u32 x < 2 ^ 32.
Proof. apply Z.mod_pos_bound; lia. Qed.
Lemma u64_range x : 0 <= u64 x < 2 ^ 64.
Proof. apply Z.mod_pos_bound; lia. Qed.
Lemma u8_small x : 0 <= x < 2 ^ 8 -> u8 x = x.
Proof. apply Z.mod_small. Qed.
Lemma u16_small x : 0 <= x < 2 ^ 16 -> u16 x = x.
Proof. apply Z.mod_small. Qed.
Lemma u32_small x : 0 <= x < 2 ^ 32 -> u32 x = x.
Proof. apply Z.mod_small. Qed.
Lemma u64_small x : 0 <= x < 2 ^ 64 -> u64 x = x.
Proof. apply Z.mod_small. Qed.
Lemma s16_small x : - 2 ^ 15 <= x < 2 ^ 15 -> s16 x = x.
Proof. intros; unfold s16; rewrite Z.mod_small; lia. Qed.
Lemma s32_small x : - 2 ^ 31 <= x < 2 ^ 31 -> s32 x = x.
Proof. intros; unfold s32; rewrite Z.mod_small; lia. Qed.
#[export] Hint Resolve u8_range u16_range u32_range u64_range : cint.
#[export] Hint Resolve u8_small u16_small u32_small u64_small s16_small s32_small : cint.

(** ** Bit fields *)

Lemma bitfield (b s k : Z) : 0 <= s -> 0 <= k ->
  Z.shiftr (Z.land b (Z.shiftl (Z.ones k) s)) s = (b / 2 ^ s) mod 2 ^ k.
Proof.
  intros. rewrite Z.shiftr_land, Z.shiftr_shiftl_l, Z.sub_diag by lia.
  by rewrite Z.shiftl_0_r, Z.land_ones, Z.shiftr_div_pow2 by lia.
Qed.

(** [bitf b s k] rewrites the [k]-bit field of [b] at bit [s], written as a
    masked shift, into arithmetic. *)
Ltac bitf b s k :=
  let m := eval vm_compute in (Z.shiftl (Z.ones k) s) in
  replace (Z.shiftr (Z.land b m) s) with ((b / 2 ^ s) mod 2 ^ k)
    by (symmetry; exact (bitfield b s k ltac:(lia) ltac:(lia))).

(** Disjoint fields are joined by [lor] as by addition. *)
Lemma lor_disjoint (x y k : Z) : 0 <= k -> 0 <= y < 2 ^ k -> x mod 2 ^ k = 0 ->
  Z.lor x y = x + y.
Proof.
  intros Hk Hy Hx. symmetry. apply Z.add_nocarry_lor. apply Z.bits_inj'. intros n Hn.
  rewrite Z.land_spec, Z.bits_0. destruct (Z.lt_ge_cases n k) as [Hlt|Hge].
  - rewrite <- (Z.mod_pow2_bits_low x k n), Hx, Z.bits_0 by lia. done.
  - rewrite <- (Z.mod_small y (2 ^ k)), (Z.mod_pow2_bits_high y k n) by lia. by rewrite andb_false_r.
Qed.

(** Linear arithmetic with [/] and [mod] by constants, some of them written as
    powers of two. *)
Ltac norm_pow :=
  repeat match goal with
  | |- context [2 ^ (Zpos ?p)] =>
      let v := eval vm_compute in (2 ^ (Zpos p)) in change (2 ^ (Zpos p)) with v
  end.
Ltac div_lia := norm_pow; Z.to_euclidean_division_equations; lia.
