(* ===== verification/Bits.v ===== *)
(** * Bytes as strings of bits

    Values and messages as lists of bits, the most significant bit first. *)

From S2P Require Import Prelude.

Module Bits.

(** The [k] low bits of a value; the bits of a message. *)
Fixpoint bits_of (k : nat) (v : Z) : list bool :=
  match k with O => [] | S k' => Z.testbit v (Z.of_nat k') :: bits_of k' v end.
Definition message_bits (bytes : list Z) : list bool := bytes ≫= bits_of 8.

Lemma length_bits_of k v : length (bits_of k v) = k.
Proof. induction k as [|k IH]; [done|]. cbn [bits_of length]. by rewrite IH. Qed.

Lemma lookup_bits_of k v i : (i < k)%nat -> bits_of k v !! i = Some (Z.testbit v (Z.of_nat (k - 1 - i))).
Proof.
  revert i. induction k as [|k IH]; intros i Hi; [lia|]. cbn [bits_of]. destruct i as [|i].
  - cbn. do 3 f_equal. lia.
  - rewrite lookup_cons, IH by lia. do 3 f_equal. lia.
Qed.

Lemma bits_of_ext k v w : (forall i, 0 <= i < Z.of_nat k -> Z.testbit v i = Z.testbit w i) -> bits_of k v = bits_of k w.
Proof.
  intros H. induction k as [|k IH]; [done|]. cbn [bits_of]. rewrite H by lia. f_equal. apply IH. intros. apply H. lia.
Qed.

Lemma bits_of_mod k v n : Z.of_nat k <= n -> bits_of k (v mod 2 ^ n) = bits_of k v.
Proof. intros Hn. apply bits_of_ext. intros i Hi. apply Z.mod_pow2_bits_low. lia. Qed.

Lemma bits_of_inj k v w : 0 <= v < 2 ^ Z.of_nat k -> 0 <= w < 2 ^ Z.of_nat k -> bits_of k v = bits_of k w -> v = w.
Proof.
  intros Hv Hw E. apply Z.bits_inj'. intros i Hi. destruct (Z.lt_ge_cases i (Z.of_nat k)) as [H|H].
  - apply (f_equal (lookup (k - 1 - Z.to_nat i)%nat)) in E. rewrite !lookup_bits_of in E by lia.
    replace (Z.of_nat (k - 1 - (k - 1 - Z.to_nat i))) with i in E by lia. by injection E.
  - rewrite <- (Z.mod_small v _ Hv), <- (Z.mod_small w _ Hw). by rewrite !Z.mod_pow2_bits_high by lia.
Qed.

Lemma bits_of_split a b v : bits_of (a + b) v = bits_of a (Z.shiftr v (Z.of_nat b)) ++ bits_of b v.
Proof.
  induction a as [|a IH]; [done|]. cbn [Nat.add bits_of app]. rewrite IH, Z.shiftr_spec by lia. f_equal. f_equal. lia.
Qed.

Lemma bits_of_high b r : (r <= 8)%nat -> bits_of r (Z.shiftr b (8 - Z.of_nat r)) = take r (bits_of 8 b).
Proof.
  intros Hr. replace 8%nat with (r + (8 - r))%nat at 1 by lia. rewrite bits_of_split, take_app_length' by (by rewrite length_bits_of).
  f_equal. f_equal. lia.
Qed.

Lemma message_bits_length bytes : length (message_bits bytes) = (8 * length bytes)%nat.
Proof. induction bytes as [|b r IH]; [done|]. unfold message_bits in *. rewrite bind_cons, length_app, IH. cbn. lia. Qed.

Lemma message_bits_app l1 l2 : message_bits (l1 ++ l2) = message_bits l1 ++ message_bits l2.
Proof. apply bind_app. Qed.

Lemma message_bits_cons b l : message_bits (b :: l) = bits_of 8 b ++ message_bits l.
Proof. apply bind_cons. Qed.

End Bits.
