(* ===== verification/HashTable.v ===== *)
(** * The chained hash table (common/utils/collection/hashtable/hashtable.c)

    A bucket (the linked list hanging off [nodes[i]]) is a Rocq list of
    nodes; a data pointer is an integer with [0] for [NULL]. Every operation
    takes the table pointer as an [option] ([None] is [NULL]) and returns,
    besides the C return code and the new table, the sequence of pointers
    handed to [freefunc] during the call. Memory exhaustion is an argument:
    [mallocP] says whether the call's [malloc]/[calloc] succeeds. *)

From S2P Require Import Prelude.

Module HashTable.

Inductive hashtable_rc_t : Type :=
| HASH_TABLE_OK
| HASH_TABLE_INSERT_OVERWRITTEN_DATA
| HASH_TABLE_KEY_NOT_EXISTS
| HASH_TABLE_KEY_ALREADY_EXISTS
| HASH_TABLE_BAD_PARAMETER_HASHTABLE
| HASH_TABLE_SYSTEM_ERROR
| HASH_TABLE_MINUS_ONE. (* the [return -1] of a failed allocation *)

Record hash_node_t : Type := mk_node { key : Z; data : Z }.

Record hash_table_t : Type := mk_table {
  size : Z;
  num_elements : Z;
  nodes : list (list hash_node_t);
  hashfunc : Z -> Z
}.
#[export] Instance hash_table_eta : Settable hash_table_t :=
  fun t => mk_table (size t) (num_elements t) (nodes t) (hashfunc t).

Definition hashtable_rc_code2string (rcP : hashtable_rc_t) : string :=
  match rcP with
  | HASH_TABLE_OK => "HASH_TABLE_OK"
  | HASH_TABLE_INSERT_OVERWRITTEN_DATA => "HASH_TABLE_INSERT_OVERWRITTEN_DATA"
  | HASH_TABLE_KEY_NOT_EXISTS => "HASH_TABLE_KEY_NOT_EXISTS"
  | HASH_TABLE_KEY_ALREADY_EXISTS => "HASH_TABLE_KEY_ALREADY_EXISTS"
  | HASH_TABLE_BAD_PARAMETER_HASHTABLE => "HASH_TABLE_BAD_PARAMETER_HASHTABLE"
  | _ => "UNKNOWN hashtable_rc_t"
  end.

Definition def_hashfunc (keyP : Z) : Z := u64 keyP.

(** [garbage] is the content of the freshly allocated (not cleared) block:
    the code never assigns [num_elements]. *)
Definition hashtable_create (sizeP : Z) (hashfuncP : option (Z -> Z))
    (malloc_ok calloc_ok : bool) (garbage : Z) : option hash_table_t :=
  if negb malloc_ok then None
  else if negb calloc_ok then None
  else Some (mk_table sizeP (u64 garbage) (replicate (Z.to_nat sizeP) [])
               (match hashfuncP with Some f => f | None => def_hashfunc end)).

(** The pointers a node passes to [freefunc]: its data when not [NULL]. *)
Definition free_data (n : hash_node_t) : list Z :=
  if data n =? 0 then [] else [data n].

Fixpoint free_bucket (b : list hash_node_t) : list Z :=
  match b with
  | [] => []
  | oldnode :: node => free_data oldnode ++ free_bucket node
  end.

Fixpoint free_buckets (bs : list (list hash_node_t)) : list Z :=
  match bs with
  | [] => []
  | b :: bs => free_bucket b ++ free_buckets bs
  end.

Definition hashtable_destroy (hashtblP : option hash_table_t) : hashtable_rc_t * list Z :=
  match hashtblP with
  | None => (HASH_TABLE_BAD_PARAMETER_HASHTABLE, [])
  | Some t => (HASH_TABLE_OK, free_buckets (take (Z.to_nat (size t)) (nodes t)))
  end.

(** [hashfunc(key) % size] and the access [nodes[hash]]. *)
Definition hash_of (t : hash_table_t) (keyP : Z) : nat :=
  Z.to_nat (u64 (hashfunc t keyP) mod size t).

Definition bucket_of (t : hash_table_t) (keyP : Z) : res (list hash_node_t) :=
  if size t =? 0 then Fault DivByZero
  else of_option OutOfBounds (nodes t !! hash_of t keyP).

(** The walk [while(node) { if(node->key == keyP) ...; node=node->next; }]. *)
Fixpoint find_node (keyP : Z) (node : list hash_node_t) : option hash_node_t :=
  match node with
  | [] => None
  | n :: next => if key n =? keyP then Some n else find_node keyP next
  end.

Definition hashtable_is_key_exists (hashtblP : option hash_table_t) (keyP : Z) :
    res hashtable_rc_t :=
  match hashtblP with
  | None => Ok HASH_TABLE_BAD_PARAMETER_HASHTABLE
  | Some t =>
      b ← bucket_of t keyP;
      Ok (match find_node keyP b with
          | Some _ => HASH_TABLE_OK
          | None => HASH_TABLE_KEY_NOT_EXISTS
          end)
  end.

(** [*dataP] is the second component. *)
Definition hashtable_get (hashtblP : option hash_table_t) (keyP : Z) :
    res (hashtable_rc_t * Z) :=
  match hashtblP with
  | None => Ok (HASH_TABLE_BAD_PARAMETER_HASHTABLE, 0)
  | Some t =>
      b ← bucket_of t keyP;
      Ok (match find_node keyP b with
          | Some n => (HASH_TABLE_OK, data n)
          | None => (HASH_TABLE_KEY_NOT_EXISTS, 0)
          end)
  end.

(** Overwrites the data of the first node that has the key. *)
Fixpoint overwrite_node (keyP dataP : Z) (node : list hash_node_t) : list hash_node_t :=
  match node with
  | [] => []
  | n :: next =>
      if key n =? keyP then mk_node (key n) dataP :: next
      else n :: overwrite_node keyP dataP next
  end.

Definition hashtable_insert (mallocP : bool) (hashtblP : option hash_table_t)
    (keyP dataP : Z) : res (hashtable_rc_t * option hash_table_t * list Z) :=
  match hashtblP with
  | None => Ok (HASH_TABLE_BAD_PARAMETER_HASHTABLE, None, [])
  | Some t =>
      b ← bucket_of t keyP;
      Ok (match find_node keyP b with
          | Some n =>
              (HASH_TABLE_INSERT_OVERWRITTEN_DATA,
               Some (t <| nodes ::= <[hash_of t keyP := overwrite_node keyP dataP b]> |>),
               free_data n)
          | None =>
              if negb mallocP then (HASH_TABLE_MINUS_ONE, Some t, [])
              else (HASH_TABLE_OK,
                    Some (t <| nodes ::= <[hash_of t keyP := mk_node keyP dataP :: b]> |>
                            <| num_elements ::= fun n => u64 (n + 1) |>),
                    [])
          end)
  end.

(** Unlinks the first node that has the key. *)
Fixpoint unlink_node (keyP : Z) (node : list hash_node_t) : list hash_node_t :=
  match node with
  | [] => []
  | n :: next => if key n =? keyP then next else n :: unlink_node keyP next
  end.

Definition hashtable_remove (hashtblP : option hash_table_t) (keyP : Z) :
    res (hashtable_rc_t * option hash_table_t * list Z) :=
  match hashtblP with
  | None => Ok (HASH_TABLE_BAD_PARAMETER_HASHTABLE, None, [])
  | Some t =>
      b ← bucket_of t keyP;
      Ok (match find_node keyP b with
          | Some n =>
              (HASH_TABLE_OK,
               Some (t <| nodes ::= <[hash_of t keyP := unlink_node keyP b]> |>
                       <| num_elements ::= fun n => u64 (n - 1) |>),
               free_data n)
          | None => (HASH_TABLE_KEY_NOT_EXISTS, Some t, [])
          end)
  end.

(** The callback's calls, in order. [visited] is the C local [num_elements],
    an [unsigned int]; the outer loop stops when it reaches the table's
    element count or when the buckets are exhausted. *)
Fixpoint apply_on_buckets (limit visited : Z) (bs : list (list hash_node_t)) :
    list (Z * Z) :=
  match bs with
  | [] => []
  | b :: bs =>
      if visited <? limit then
        map (fun n => (key n, data n)) b
          ++ apply_on_buckets limit (u32 (visited + Z.of_nat (length b))) bs
      else []
  end.

Definition hashtable_apply_funct_on_elements (hashtblP : option hash_table_t) :
    hashtable_rc_t * list (Z * Z) :=
  match hashtblP with
  | None => (HASH_TABLE_BAD_PARAMETER_HASHTABLE, [])
  | Some t =>
      (HASH_TABLE_OK,
       apply_on_buckets (num_elements t) 0 (take (Z.to_nat (size t)) (nodes t)))
  end.

(** One iteration of the resize loops: the node's key and data are inserted
    in [newtbl], then the key is removed from the old table, whose [freefunc]
    receives the data. *)
Definition resize_node (mallocs : Z -> bool) (st : hash_table_t * hash_table_t * list Z) (n : hash_node_t) :
    res (hash_table_t * hash_table_t * list Z) :=
  let '(old, newtbl, freed) := st in
  r1 ← hashtable_insert (mallocs (key n)) (Some newtbl) (key n) (data n);
  r2 ← hashtable_remove (Some old) (key n);
  match r1, r2 with
  | (_, Some newtbl', f1), (_, Some old', f2) => Ok (old', newtbl', freed ++ f1 ++ f2)
  | _, _ => Fault OutOfBounds
  end.

Fixpoint resize_nodes (mallocs : Z -> bool) (st : hash_table_t * hash_table_t * list Z) (ns : list hash_node_t) :
    res (hash_table_t * hash_table_t * list Z) :=
  match ns with
  | [] => Ok st
  | n :: next => st' ← resize_node mallocs st n; resize_nodes mallocs st' next
  end.

(** [mallocs k] says whether the allocation of the new node of key [k]
    succeeds: the code ignores the return code of its inserts. The
    uninitialised [newtbl.num_elements] is never read back: [garbage] stands
    for it. *)
Definition hashtable_resize (calloc_ok : bool) (mallocs : Z -> bool) (garbage : Z)
    (hashtblP : option hash_table_t) (sizeP : Z) :
    res (hashtable_rc_t * option hash_table_t * list Z) :=
  match hashtblP with
  | None => Ok (HASH_TABLE_BAD_PARAMETER_HASHTABLE, None, [])
  | Some t =>
      if negb calloc_ok then Ok (HASH_TABLE_MINUS_ONE, Some t, [])
      else
        let newtbl := mk_table sizeP (u64 garbage) (replicate (Z.to_nat sizeP) []) (hashfunc t) in
        st ← resize_nodes mallocs (t, newtbl, []) (concat (take (Z.to_nat (size t)) (nodes t)));
        let '(old, newtbl', freed) := st in
        Ok (HASH_TABLE_OK,
            Some (old <| size := size newtbl' |> <| nodes := nodes newtbl' |>), freed)
  end.

(** ** The abstract map *)

Definition entry (n : hash_node_t) : Z * Z := (key n, data n).

Definition abs (t : hash_table_t) : gmap Z Z :=
  list_to_map (entry <$> concat (nodes t)).

Record wf (t : hash_table_t) : Prop := {
  wf_size : 0 < size t;
  wf_length : length (nodes t) = Z.to_nat (size t);
  wf_bucket : forall i b, nodes t !! i = Some b -> Forall (fun n => hash_of t (key n) = i) b;
  wf_nodup : forall i b, nodes t !! i = Some b -> NoDup (key <$> b)
}.

(** The element counter agrees with the content (it does when the block the
    table was allocated in happened to be zero). *)
Definition counted (t : hash_table_t) : Prop :=
  num_elements t = Z.of_nat (length (concat (nodes t))).

Lemma hash_of_lt t k : 0 < size t -> (hash_of t k < Z.to_nat (size t))%nat.
Proof.
  intros H. unfold hash_of. pose proof (Z.mod_pos_bound (u64 (hashfunc t k)) _ H). lia.
Qed.

Lemma bucket_of_wf t k :
  wf t -> exists b, nodes t !! hash_of t k = Some b /\ bucket_of t k = Ok b.
Proof.
  intros W. unfold bucket_of.
  destruct (lookup_lt_is_Some_2 (nodes t) (hash_of t k)) as [b Hb].
  { rewrite (wf_length _ W). apply hash_of_lt, W. }
  exists b. pose proof (wf_size _ W).
  rewrite (proj2 (Z.eqb_neq _ _)) by lia. by rewrite Hb.
Qed.

Lemma find_node_Some k b n : find_node k b = Some n -> key n = k /\ n ∈ b.
Proof.
  induction b as [|m b IH]; simpl; [done|].
  case (Z.eqb_spec (key m) k) as [<-|]; intros; simplify_eq; [set_solver|].
  destruct IH; set_solver.
Qed.

Lemma find_node_None k b : find_node k b = None <-> k ∉ (key <$> b).
Proof.
  induction b as [|m b IH]; simpl; [set_solver|].
  case (Z.eqb_spec (key m) k) as [->|]; [set_solver|]. rewrite IH. set_solver.
Qed.

Lemma find_node_elem b n : NoDup (key <$> b) -> n ∈ b -> find_node (key n) b = Some n.
Proof.
  induction b as [|m b IH]; simpl; [set_solver|].
  rewrite NoDup_cons. intros [Hm Hnd] [->|Hn]%elem_of_cons; [by rewrite Z.eqb_refl|].
  case (Z.eqb_spec (key m) (key n)) as [E|]; [|auto].
  destruct Hm. rewrite E. by apply list_elem_of_fmap_2.
Qed.

Lemma wf_elem t n : wf t -> n ∈ concat (nodes t) <->
  exists b, nodes t !! hash_of t (key n) = Some b /\ n ∈ b.
Proof.
  intros W. rewrite list_elem_of_In, in_concat. setoid_rewrite <- list_elem_of_In. split.
  - intros (b & [i Hi]%list_elem_of_lookup & Hn).
    pose proof (wf_bucket _ W _ _ Hi) as HF. rewrite Forall_forall in HF.
    rewrite (HF _ Hn). eauto.
  - intros (b & Hb & Hn). exists b. eauto using list_elem_of_lookup_2.
Qed.

Lemma NoDup_keys_concat {A} (f : A -> nat) (g : A -> Z) (bs : list (list A)) (i0 : nat) :
  (forall x y, g x = g y -> f x = f y) ->
  (forall i b, bs !! i = Some b -> Forall (fun n => f n = i0 + i)%nat b) ->
  (forall i b, bs !! i = Some b -> NoDup (g <$> b)) ->
  NoDup (g <$> concat bs).
Proof.
  intros Hfg. revert i0. induction bs as [|b bs IH]; intros i0 HF HN; simpl; [constructor|].
  rewrite fmap_app, NoDup_app. split_and!.
  - by apply (HN 0%nat).
  - intros k (x & -> & Hx)%list_elem_of_fmap (y & E & Hy)%list_elem_of_fmap.
    pose proof (HF 0%nat b eq_refl) as H0. rewrite Forall_forall in H0.
    apply list_elem_of_In, in_concat in Hy as (b' & [j Hj]%list_elem_of_In%list_elem_of_lookup & Hy%list_elem_of_In).
    pose proof (HF (S j) b' Hj) as H1. rewrite Forall_forall in H1.
    specialize (H0 _ Hx). specialize (H1 _ Hy). apply Hfg in E. lia.
  - apply (IH (S i0)).
    + intros i b' Hi. eapply Forall_impl; [apply (HF (S i)), Hi|]. simpl. lia.
    + intros i b' Hi. by apply (HN (S i)).
Qed.

Lemma wf_nodup_all t : wf t -> NoDup (key <$> concat (nodes t)).
Proof.
  intros W. apply (NoDup_keys_concat (fun n => hash_of t (key n)) key _ 0).
  - by intros x y ->.
  - intros i b Hi. by apply (wf_bucket _ W).
  - apply (wf_nodup _ W).
Qed.

Lemma fst_entry l : (entry <$> l).*1 = key <$> l.
Proof. rewrite <- list_fmap_compose. done. Qed.

(** The map's content at a key is what the chain of its bucket holds. *)
Lemma abs_lookup t k b :
  wf t -> nodes t !! hash_of t k = Some b -> abs t !! k = data <$> find_node k b.
Proof.
  intros W Hb. unfold abs. destruct (find_node k b) as [n|] eqn:E; simpl.
  - apply find_node_Some in E as [<- Hn]. apply elem_of_list_to_map_1.
    + rewrite fst_entry. by apply wf_nodup_all.
    + apply list_elem_of_fmap. exists n. split; [done|]. apply wf_elem; eauto.
  - apply not_elem_of_list_to_map_1. rewrite fst_entry.
    intros (n & -> & Hn)%list_elem_of_fmap. apply wf_elem in Hn as (b' & Hb' & Hn); [|done].
    simplify_eq. apply find_node_None in E. apply E. by apply list_elem_of_fmap_2.
Qed.

(** Replacing one bucket by one whose keys still hash there keeps [wf]. *)
Lemma wf_replace t k b' c :
  wf t ->
  Forall (fun n => hash_of t (key n) = hash_of t k) b' -> NoDup (key <$> b') ->
  wf (t <| nodes ::= <[hash_of t k := b']> |> <| num_elements := c |>).
Proof.
  intros W HF HN. split; rsimpl.
  - apply W.
  - rewrite length_insert. apply W.
  - intros i b. rewrite list_lookup_insert_Some. intros [(<- & <- & _)|[_ Hi]]; [done|].
    by apply (wf_bucket _ W).
  - intros i b. rewrite list_lookup_insert_Some. intros [(<- & <- & _)|[_ Hi]]; [done|].
    by apply (wf_nodup _ W i).
Qed.

Lemma abs_replace t k b b' c k' :
  wf t -> nodes t !! hash_of t k = Some b ->
  Forall (fun n => hash_of t (key n) = hash_of t k) b' -> NoDup (key <$> b') ->
  abs (t <| nodes ::= <[hash_of t k := b']> |> <| num_elements := c |>) !! k' =
  if decide (hash_of t k' = hash_of t k) then data <$> find_node k' b' else abs t !! k'.
Proof.
  intros W Hb HF HN.
  set (t' := t <| nodes ::= _ |> <| num_elements := c |>).
  assert (W' : wf t') by by apply wf_replace.
  destruct (bucket_of_wf t k' W) as (b0 & Hb0 & _).
  assert (Hl : nodes t' !! hash_of t' k' =
    if decide (hash_of t k' = hash_of t k) then Some b' else Some b0).
  { change (hash_of t' k') with (hash_of t k'). unfold t'. rsimpl.
    destruct (decide _) as [E|].
    - rewrite E. apply list_lookup_insert_eq. by eapply lookup_lt_Some.
    - by rewrite list_lookup_insert_ne by done. }
  destruct (decide _); rewrite (abs_lookup _ _ _ W' Hl); [done|].
  by rewrite (abs_lookup _ _ _ W Hb0).
Qed.

Lemma overwrite_keys k d b : key <$> overwrite_node k d b = key <$> b.
Proof. induction b as [|n b IH]; simpl; [done|]. case_match; [done|]. csimpl. by rewrite IH. Qed.

Lemma unlink_keys k b : NoDup (key <$> b) ->
  NoDup (key <$> unlink_node k b) /\
  (forall n, n ∈ unlink_node k b -> n ∈ b) /\
  find_node k (unlink_node k b) = None /\
  (forall k', k' <> k -> find_node k' (unlink_node k b) = find_node k' b).
Proof.
  induction b as [|n b IH]; simpl; [done|].
  rewrite NoDup_cons. intros [Hn HN]. destruct (IH HN) as (I1 & I2 & I3 & I4).
  case (Z.eqb_spec (key n) k) as [<-|Hk].
  - split_and!; [done|by constructor|by apply find_node_None|].
    intros k' Hk'. by rewrite (proj2 (Z.eqb_neq _ _)) by congruence.
  - csimpl. rewrite NoDup_cons, (proj2 (Z.eqb_neq _ _)) by done. split_and!; try done.
    + intros [m [E Hm]]%list_elem_of_fmap. apply Hn. rewrite E.
      apply list_elem_of_fmap_2. by apply I2.
    + intros m. rewrite !elem_of_cons. naive_solver.
    + intros k' Hk'. by rewrite I4.
Qed.

Lemma find_overwrite k d b k' : k ∈ (key <$> b) ->
  data <$> find_node k' (overwrite_node k d b) =
  if decide (k' = k) then Some d else data <$> find_node k' b.
Proof.
  induction b as [|n b IH]; simpl; [set_solver|]. intros Hin.
  case (Z.eqb_spec (key n) k) as [<-|Hk]; simpl.
  - case (Z.eqb_spec (key n) k') as [<-|]; simpl; [by rewrite decide_True|].
    by rewrite decide_False by congruence.
  - case (Z.eqb_spec (key n) k') as [<-|]; simpl; [by rewrite decide_False by congruence|].
    apply IH. set_solver.
Qed.

Lemma free_data_spec n : free_data n = filter (.≠ 0) [data n].
Proof.
  unfold free_data. case (Z.eqb_spec (data n) 0) as [->|]; [done|].
  by rewrite filter_cons_True.
Qed.

Lemma bucket_hash t i b n : wf t -> nodes t !! i = Some b -> n ∈ b -> hash_of t (key n) = i.
Proof. intros W Hb Hn. pose proof (wf_bucket _ W _ _ Hb) as HF. rewrite Forall_forall in HF; auto. Qed.

Definition same_shape (t t' : hash_table_t) : Prop :=
  size t' = size t /\ hashfunc t' = hashfunc t.

(** What an insertion promises, as a specification over the abstract map. *)
Definition insert_post (t : hash_table_t) (k d : Z)
    (out : hashtable_rc_t * option hash_table_t * list Z) : Prop :=
  exists t', out.1.2 = Some t' /\ wf t' /\ same_shape t t' /\ abs t' = <[k := d]> (abs t) /\
  match abs t !! k with
  | None => out.1.1 = HASH_TABLE_OK /\ out.2 = [] /\ num_elements t' = u64 (num_elements t + 1)
  | Some old => out.1.1 = HASH_TABLE_INSERT_OVERWRITTEN_DATA /\
      out.2 = filter (.≠ 0) [old] /\ num_elements t' = num_elements t
  end.

Definition remove_post (t : hash_table_t) (k : Z)
    (out : hashtable_rc_t * option hash_table_t * list Z) : Prop :=
  exists t', out.1.2 = Some t' /\ wf t' /\ same_shape t t' /\ abs t' = delete k (abs t) /\
  match abs t !! k with
  | None => out.1.1 = HASH_TABLE_KEY_NOT_EXISTS /\ out.2 = [] /\ t' = t
  | Some old => out.1.1 = HASH_TABLE_OK /\
      out.2 = filter (.≠ 0) [old] /\ num_elements t' = u64 (num_elements t - 1)
  end.

Lemma insert_fresh t k d b :
  wf t -> nodes t !! hash_of t k = Some b -> find_node k b = None ->
  insert_post t k d (HASH_TABLE_OK,
    Some (t <| nodes ::= <[hash_of t k := mk_node k d :: b]> |>
            <| num_elements ::= fun n => u64 (n + 1) |>), []).
Proof.
  intros W Hb Ef. rewrite find_node_None in Ef.
  assert (HF : Forall (fun n => hash_of t (key n) = hash_of t k) (mk_node k d :: b)).
  { constructor; [done|]. by apply (wf_bucket _ W). }
  assert (HN : NoDup (key <$> (mk_node k d :: b))).
  { simpl. apply NoDup_cons. split; [done|]. by apply (wf_nodup _ W _ _ Hb). }
  eexists. split; [reflexivity|]. split; [by apply wf_replace|]. split; [done|]. split.
  - apply map_eq. intros k'.
    etransitivity; [by apply (abs_replace t k b _ (u64 (num_elements t + 1)) k')|].
    destruct (decide (k' = k)) as [->|Hk'].
    + rewrite decide_True by done. simpl. by rewrite Z.eqb_refl, lookup_insert_eq.
    + rewrite lookup_insert_ne by congruence. case_decide as Hh; [|done]. simpl.
      rewrite (proj2 (Z.eqb_neq _ _)) by congruence.
      symmetry. apply abs_lookup; [done|]. by rewrite Hh.
  - rewrite (abs_lookup _ _ _ W Hb). by rewrite (proj2 (find_node_None k b)).
Qed.

Lemma insert_overwrite t k d b n :
  wf t -> nodes t !! hash_of t k = Some b -> find_node k b = Some n ->
  insert_post t k d (HASH_TABLE_INSERT_OVERWRITTEN_DATA,
    Some (t <| nodes ::= <[hash_of t k := overwrite_node k d b]> |>), free_data n).
Proof.
  intros W Hb Ef. pose proof (find_node_Some _ _ _ Ef) as [Hk Hn].
  assert (HF : Forall (fun n => hash_of t (key n) = hash_of t k) (overwrite_node k d b)).
  { apply (Forall_fmap key (fun z => hash_of t z = hash_of t k)).
    rewrite overwrite_keys. apply Forall_fmap. by apply (wf_bucket _ W). }
  assert (HN : NoDup (key <$> overwrite_node k d b)).
  { rewrite overwrite_keys. by apply (wf_nodup _ W _ _ Hb). }
  eexists. split; [reflexivity|]. split; [by apply (wf_replace t k _ (num_elements t))|]. split; [done|]. split.
  - apply map_eq. intros k'.
    etransitivity; [by apply (abs_replace t k b _ (num_elements t) k')|].
    rewrite find_overwrite by (rewrite <- Hk; by apply list_elem_of_fmap_2).
    destruct (decide (k' = k)) as [->|Hk'].
    + by rewrite decide_True, lookup_insert_eq.
    + rewrite lookup_insert_ne by congruence. case_decide as Hh; [|done].
      symmetry. apply abs_lookup; [done|]. by rewrite Hh.
  - rewrite (abs_lookup _ _ _ W Hb), Ef. simpl. by rewrite free_data_spec.
Qed.

Lemma insert_correct t k d : wf t ->
  exists out, hashtable_insert true (Some t) k d = Ok out /\ insert_post t k d out.
Proof.
  intros W. destruct (bucket_of_wf t k W) as (b & Hb & Eb). simpl. rewrite Eb. simpl.
  destruct (find_node k b) eqn:E; eauto using insert_fresh, insert_overwrite.
Qed.

Lemma remove_correct t k : wf t ->
  exists out, hashtable_remove (Some t) k = Ok out /\ remove_post t k out.
Proof.
  intros W. destruct (bucket_of_wf t k W) as (b & Hb & Eb). simpl. rewrite Eb. simpl.
  destruct (find_node k b) as [n|] eqn:E; (eexists; split; [reflexivity|]; eexists; split; [reflexivity|]).
  - destruct (unlink_keys k b) as (U1 & U2 & U3 & U4); [by apply (wf_nodup _ W _ _ Hb)|].
    assert (HF : Forall (fun n => hash_of t (key n) = hash_of t k) (unlink_node k b)).
    { apply Forall_forall. intros m Hm. eapply bucket_hash; eauto. }
    split; [by apply wf_replace|]. split; [done|]. split.
    + apply map_eq. intros k'.
      etransitivity; [by apply (abs_replace t k b _ (u64 (num_elements t - 1)) k')|].
      destruct (decide (k' = k)) as [->|Hk'].
      * rewrite decide_True by done. by rewrite U3, lookup_delete_eq.
      * rewrite lookup_delete_ne by congruence. case_decide as Hh; [|done].
        rewrite U4 by done. symmetry. apply abs_lookup; [done|]. by rewrite Hh.
    + rewrite (abs_lookup _ _ _ W Hb), E. simpl. by rewrite free_data_spec.
  - assert (Hnone : abs t !! k = None) by (rewrite (abs_lookup _ _ _ W Hb), E; done).
    split; [done|]. split; [done|]. split; [by rewrite delete_id|]. by rewrite Hnone.
Qed.

Lemma get_correct t k : wf t ->
  hashtable_get (Some t) k =
  Ok (match abs t !! k with
      | Some d => (HASH_TABLE_OK, d)
      | None => (HASH_TABLE_KEY_NOT_EXISTS, 0)
      end).
Proof.
  intros W. destruct (bucket_of_wf t k W) as (b & Hb & Eb). simpl. rewrite Eb. simpl.
  rewrite (abs_lookup _ _ _ W Hb). by destruct (find_node k b).
Qed.

Lemma create_wf n f g : 0 < n ->
  exists t, hashtable_create n f true true g = Some t /\ wf t /\ abs t = ∅.
Proof.
  intros Hn. eexists. split; [reflexivity|].
  assert (Hr : forall i b, replicate (Z.to_nat n) (@nil hash_node_t) !! i = Some b -> b = []).
  { intros i b. rewrite lookup_replicate. naive_solver. }
  split; [split; simpl|].
  - done.
  - by rewrite length_replicate.
  - by intros i b ->%Hr.
  - intros i b ->%Hr. constructor.
  - unfold abs. simpl. clear. by induction (Z.to_nat n).
Qed.

Lemma counted_size t : wf t -> length (concat (nodes t)) = base.size (abs t).
Proof.
  intros W. unfold abs. rewrite map_size_list_to_map.
  - by rewrite length_fmap.
  - rewrite fst_entry. by apply wf_nodup_all.
Qed.

Lemma free_buckets_concat bs : free_buckets bs = filter (.≠ 0) (data <$> concat bs).
Proof.
  induction bs as [|b bs IH]; simpl; [done|]. rewrite fmap_app, filter_app, <- IH. f_equal.
  clear IH. induction b as [|n b IH]; csimpl; [done|].
  by rewrite IH, free_data_spec, <- filter_app.
Qed.

Lemma take_nodes t : wf t -> take (Z.to_nat (size t)) (nodes t) = nodes t.
Proof. intros W. apply take_ge. by rewrite (wf_length _ W). Qed.

Lemma abs_to_list t : wf t -> map_to_list (abs t) ≡ₚ entry <$> concat (nodes t).
Proof. intros W. apply map_to_list_to_map. rewrite fst_entry. by apply wf_nodup_all. Qed.

Lemma apply_on_buckets_all limit visited bs :
  0 <= visited -> limit < 2 ^ 32 ->
  limit = visited + Z.of_nat (length (concat bs)) ->
  apply_on_buckets limit visited bs = entry <$> concat bs.
Proof.
  revert visited. induction bs as [|b bs IH]; intros v Hv Hl E; simpl in *; [done|].
  rewrite length_app in E. case (Z.ltb_spec v limit) as [Hlt|Hge].
  - rewrite fmap_app. f_equal. rewrite u32_small by lia. apply IH; lia.
  - assert (length b = 0%nat) as ->%nil_length_inv by lia.
    simpl. by assert (length (concat bs) = 0%nat) as ->%nil_length_inv by lia.
Qed.

#[local] Arguments hashtable_insert : simpl never.
#[local] Arguments hashtable_remove : simpl never.

Lemma u64_sub_u64 a b : u64 (u64 a - b) = u64 (a - b).
Proof. unfold u64. apply Zminus_mod_idemp_l. Qed.

(** The resize loop moves every node: the new table gains all the entries,
    and the old table's [freefunc] receives every non-[NULL] data pointer. *)
Lemma resize_nodes_correct ns old newtbl freed :
  wf old -> wf newtbl -> NoDup (key <$> ns) ->
  (forall n, n ∈ ns -> abs old !! key n = Some (data n)) ->
  (forall n, n ∈ ns -> abs newtbl !! key n = None) ->
  0 <= num_elements old < 2 ^ 64 ->
  exists old' newtbl',
    resize_nodes (fun _ => true) (old, newtbl, freed) ns
      = Ok (old', newtbl', freed ++ filter (.≠ 0) (data <$> ns)) /\
    wf newtbl' /\ same_shape old old' /\ same_shape newtbl newtbl' /\
    abs newtbl' = list_to_map (entry <$> ns) ∪ abs newtbl /\
    num_elements old' = u64 (num_elements old - Z.of_nat (length ns)).
Proof.
  revert old newtbl freed. induction ns as [|n ns IH]; intros old new freed Wo Wn HN Ho Hn Hc.
  { exists old, new. csimpl. rewrite (left_id_L ∅ (∪)), app_nil_r.
    rewrite u64_small by lia. split_and!; try done. lia. }
  csimpl in HN. apply NoDup_cons in HN as [Hkn HN].
  destruct (insert_correct new (key n) (data n) Wn) as ([[rc1 t1] f1] & E1 & (new1 & X1 & Wn1 & Sn1 & An1 & P1)).
  rewrite Hn in P1 by constructor. destruct P1 as (_ & Hf1 & _); simpl in X1, Hf1; subst f1 t1.
  destruct (remove_correct old (key n) Wo) as ([[rc2 t2] f2] & E2 & (old1 & X2 & Wo1 & So1 & Ao1 & P2)).
  rewrite Ho in P2 by constructor. destruct P2 as (_ & Hf2 & Hc1); simpl in X2, Hf2; subst f2 t2.
  assert (Hne : forall m, m ∈ ns -> key m <> key n).
  { intros m Hm E. apply Hkn. rewrite <- E. by apply list_elem_of_fmap_2. }
  destruct (IH old1 new1 (freed ++ [] ++ filter (.≠ 0) [data n])) as
    (old' & new' & E & W' & S1 & S2 & A' & N'); try done.
  { intros m Hm. rewrite Ao1, lookup_delete_ne by (symmetry; auto). apply Ho. by constructor. }
  { intros m Hm. rewrite An1, lookup_insert_ne by (symmetry; auto). apply Hn. by constructor. }
  { rewrite Hc1. auto with cint. }
  exists old', new'. cbn [resize_nodes resize_node].
  rewrite E1. cbn [mbind res_bind]. rewrite E2. cbn [mbind res_bind]. rewrite E. split_and!; try done.
  - do 2 f_equal. rewrite <- !app_assoc, app_nil_l, <- filter_app. done.
  - destruct So1, S1. split; congruence.
  - destruct Sn1, S2. split; congruence.
  - rewrite A', An1. rewrite <- insert_union_r, insert_union_l; [done|].
    apply not_elem_of_list_to_map_1. by rewrite fst_entry.
  - rewrite N', Hc1, u64_sub_u64. f_equal. cbn [length]. lia.
Qed.

Lemma resize_correct t n g : wf t -> 0 < n -> 0 <= num_elements t < 2 ^ 64 ->
  exists t' freed,
    hashtable_resize true (fun _ => true) g (Some t) n = Ok (HASH_TABLE_OK, Some t', freed) /\
    wf t' /\ size t' = n /\ abs t' = abs t /\
    freed ≡ₚ filter (.≠ 0) (map_to_list (abs t)).*2 /\
    num_elements t' = u64 (num_elements t - Z.of_nat (base.size (abs t))).
Proof.
  intros W Hn Hc. destruct (create_wf n (Some (hashfunc t)) g Hn) as (t0 & E0 & W0 & A0).
  simpl in E0. injection E0 as E0.
  destruct (resize_nodes_correct (concat (nodes t)) t t0 []) as (old' & new' & E & Wn & [So Ho] & [Sn Hh] & A & N);
    try done.
  { by apply wf_nodup_all. }
  { intros m Hm. pose proof Hm as Hm'. apply wf_elem in Hm' as (b & Hb & Hmb); [|done].
    rewrite (abs_lookup _ _ _ W Hb), find_node_elem; [done| |done]. by apply (wf_nodup _ W _ _ Hb). }
  { intros m _. by rewrite A0, lookup_empty. }
  exists (old' <| size := size new' |> <| nodes := nodes new' |>), (filter (.≠ 0) (data <$> concat (nodes t))).
  subst t0. simpl. rewrite take_nodes, E by done. simpl. split_and!; try done.
  - destruct Wn as [w1 w2 w3 w4]. split; rsimpl; try done. intros i b Hb.
    specialize (w3 i b Hb). unfold hash_of in *. rsimpl. rewrite Ho. rewrite Hh in w3. done.
  - change (abs new' = abs t). by rewrite A, A0, (right_id_L ∅ (∪)).
  - rewrite abs_to_list by done. by rewrite <- list_fmap_compose.
  - rsimpl. by rewrite N, counted_size.
Qed.

(** ** Sequences of operations against the abstract map *)

Inductive op : Type :=
| OpInsert (k d : Z)
| OpRemove (k : Z)
| OpGet (k : Z)
| OpExists (k : Z).

(** Return code, the out-parameter of [hashtable_get] and the freed pointers. *)
Definition output : Type := hashtable_rc_t * Z * list Z.

Definition exec_op (t : hash_table_t) (o : op) : res (output * hash_table_t) :=
  let lift out := match out with
                  | (rc, Some t', freed) => Ok ((rc, 0, freed), t')
                  | _ => Fault OutOfBounds
                  end in
  match o with
  | OpInsert k d => hashtable_insert true (Some t) k d ≫= lift
  | OpRemove k => hashtable_remove (Some t) k ≫= lift
  | OpGet k => '(rc, d) ← hashtable_get (Some t) k; Ok ((rc, d, []), t)
  | OpExists k => rc ← hashtable_is_key_exists (Some t) k; Ok ((rc, 0, []), t)
  end.

Fixpoint exec_ops (t : hash_table_t) (os : list op) : res (list output * hash_table_t) :=
  match os with
  | [] => Ok ([], t)
  | o :: os =>
      '(out, t') ← exec_op t o;
      '(outs, t'') ← exec_ops t' os;
      Ok (out :: outs, t'')
  end.

Definition spec_op (m : gmap Z Z) (o : op) : output * gmap Z Z :=
  match o with
  | OpInsert k d =>
      match m !! k with
      | None => ((HASH_TABLE_OK, 0, []), <[k := d]> m)
      | Some old => ((HASH_TABLE_INSERT_OVERWRITTEN_DATA, 0, filter (.≠ 0) [old]), <[k := d]> m)
      end
  | OpRemove k =>
      match m !! k with
      | None => ((HASH_TABLE_KEY_NOT_EXISTS, 0, []), m)
      | Some old => ((HASH_TABLE_OK, 0, filter (.≠ 0) [old]), delete k m)
      end
  | OpGet k =>
      match m !! k with
      | None => ((HASH_TABLE_KEY_NOT_EXISTS, 0, []), m)
      | Some d => ((HASH_TABLE_OK, d, []), m)
      end
  | OpExists k =>
      ((if m !! k is Some _ then HASH_TABLE_OK else HASH_TABLE_KEY_NOT_EXISTS, 0, []), m)
  end.

Fixpoint spec_ops (m : gmap Z Z) (os : list op) : list output * gmap Z Z :=
  match os with
  | [] => ([], m)
  | o :: os =>
      let '(out, m') := spec_op m o in
      let '(outs, m'') := spec_ops m' os in
      (out :: outs, m'')
  end.

Lemma exists_correct t k : wf t ->
  hashtable_is_key_exists (Some t) k =
  Ok (if abs t !! k is Some _ then HASH_TABLE_OK else HASH_TABLE_KEY_NOT_EXISTS).
Proof.
  intros W. destruct (bucket_of_wf t k W) as (b & Hb & Eb). simpl. rewrite Eb. simpl.
  rewrite (abs_lookup _ _ _ W Hb). by destruct (find_node k b).
Qed.

Lemma exec_op_refines t o : wf t ->
  exists t', exec_op t o = Ok ((spec_op (abs t) o).1, t') /\ wf t' /\
    same_shape t t' /\ abs t' = (spec_op (abs t) o).2.
Proof.
  intros W. destruct o as [k d|k|k|k]; cbn [exec_op spec_op].
  - destruct (insert_correct t k d W) as ([[rc t1] f] & E & t' & X & W' & S & A & P).
    rewrite E. simpl in *. subst t1. exists t'. destruct (abs t !! k); naive_solver.
  - destruct (remove_correct t k W) as ([[rc t1] f] & E & t' & X & W' & S & A & P).
    rewrite E. simpl in *. subst t1. exists t'. destruct (abs t !! k) eqn:L; [naive_solver|].
    destruct P as (-> & -> & ->). done.
  - exists t. rewrite (get_correct _ _ W). by destruct (abs t !! k).
  - exists t. rewrite (exists_correct _ _ W). by destruct (abs t !! k).
Qed.

Lemma exec_ops_refines os t : wf t ->
  exists t', exec_ops t os = Ok ((spec_ops (abs t) os).1, t') /\ wf t' /\
    same_shape t t' /\ abs t' = (spec_ops (abs t) os).2.
Proof.
  revert t. induction os as [|o os IH]; intros t W; cbn [exec_ops spec_ops].
  { exists t. done. }
  destruct (exec_op_refines t o W) as (t1 & E & W1 & S1 & A1). rewrite E. simpl.
  destruct (IH t1 W1) as (t' & E' & W' & S' & A'). rewrite E'. simpl. exists t'.
  rewrite A1 in *. destruct (spec_op (abs t) o) as [out m1]; simpl in *.
  destruct (spec_ops m1 os) as [outs m2]; simpl in *. split_and!; try done.
  destruct S1, S'. split; congruence.
Qed.

(** ** Properties *)

(** C20. A table created with [n > 0] buckets and driven by any sequence of
    insertions, removals, lookups and membership tests answers exactly as a
    finite map from keys to data pointers would: the same return codes, the
    same looked-up data, and [freefunc] called on exactly the non-[NULL]
    data an overwrite or a removal drops. It never accesses a bucket out of
    range. *)
Theorem hashtable_refines_map (n : Z) (f : option (Z -> Z)) (garbage : Z) (os : list op)
    (t : hash_table_t) :
  0 < n -> hashtable_create n f true true garbage = Some t ->
  exists t', exec_ops t os = Ok ((spec_ops ∅ os).1, t') /\ wf t' /\
    abs t' = (spec_ops ∅ os).2.
Proof.
  intros Hn Et. destruct (create_wf n f garbage Hn) as (t0 & E & W & A). simplify_eq.
  destruct (exec_ops_refines os t W) as (t' & H). rewrite A in H. naive_solver.
Qed.

Lemma hashtable_refines_map_witness :
  let os := [OpInsert 3 100; OpInsert 8 101; OpInsert 3 102; OpRemove 8; OpGet 3; OpExists 8] in
  exists t t', hashtable_create 5 None true true 0 = Some t /\
    exec_ops t os = Ok ([(HASH_TABLE_OK, 0, []); (HASH_TABLE_OK, 0, []);
      (HASH_TABLE_INSERT_OVERWRITTEN_DATA, 0, [100]); (HASH_TABLE_OK, 0, [101]);
      (HASH_TABLE_OK, 102, []); (HASH_TABLE_KEY_NOT_EXISTS, 0, [])], t').
Proof.
  intros os.
  destruct (hashtable_refines_map 5 None 0 os _ ltac:(lia) eq_refl) as (t' & E & _ & _).
  eexists _, t'. split; [reflexivity|]. etransitivity; [exact E|reflexivity].
Defined.

(** [hashtable_destroy] hands every non-[NULL] data pointer stored in
    the table to [freefunc], each entry exactly once. *)
Lemma hashtable_destroy_frees_each_once (t : hash_table_t) :
  wf t ->
  exists freed, hashtable_destroy (Some t) = (HASH_TABLE_OK, freed) /\
    freed ≡ₚ filter (.≠ 0) (map_to_list (abs t)).*2.
Proof.
  intros W. eexists. split; [reflexivity|].
  rewrite take_nodes, free_buckets_concat, abs_to_list by done.
  by rewrite <- list_fmap_compose.
Qed.

Definition sample_table : hash_table_t :=
  mk_table 2 2 [[mk_node 4 70; mk_node 6 71]; []] def_hashfunc.

Lemma sample_table_wf : wf sample_table.
Proof.
  split; try done.
  - intros [|[|i]] b Hb; simplify_eq/=; repeat constructor.
  - intros [|[|i]] b Hb; simplify_eq/=; repeat constructor; set_solver.
Qed.

Lemma hashtable_destroy_frees_each_once_witness :
  (hashtable_destroy (Some sample_table)).2 ≡ₚ filter (.≠ 0) (map_to_list (abs sample_table)).*2.
Proof.
  destruct (hashtable_destroy_frees_each_once sample_table sample_table_wf) as (fr & E & P).
  rewrite E. exact P.
Defined.

(** When the element counter is right (and below 2^32, the width of the
    loop's local counter), [hashtable_apply_funct_on_elements] calls the
    function once for each entry of the map. *)
Theorem hashtable_apply_visits_each_once (t : hash_table_t) :
  wf t -> counted t -> num_elements t < 2 ^ 32 ->
  exists visits, hashtable_apply_funct_on_elements (Some t) = (HASH_TABLE_OK, visits) /\
    visits ≡ₚ map_to_list (abs t).
Proof.
  intros W C H. eexists. split; [reflexivity|].
  rewrite take_nodes, apply_on_buckets_all, abs_to_list by (done || lia). done.
Qed.

Lemma hashtable_apply_visits_each_once_witness :
  (hashtable_apply_funct_on_elements (Some sample_table)).2 ≡ₚ map_to_list (abs sample_table).
Proof.
  destruct (hashtable_apply_visits_each_once sample_table sample_table_wf) as (vs & E & P);
    [reflexivity|reflexivity|].
  rewrite E. exact P.
Defined.

(** [hashtable_resize] keeps the content of the map, but it calls
    [freefunc] on every non-[NULL] data pointer that the resized table still
    holds, and it brings the element counter of a correctly counted table to
    0, so that a later [hashtable_apply_funct_on_elements] visits nothing. *)
Lemma hashtable_resize_frees_live_data (t : hash_table_t) (n g : Z) :
  wf t -> counted t -> num_elements t < 2 ^ 64 -> 0 < n ->
  exists t' freed,
    hashtable_resize true (fun _ => true) g (Some t) n = Ok (HASH_TABLE_OK, Some t', freed) /\
    wf t' /\ abs t' = abs t /\
    freed ≡ₚ filter (.≠ 0) (map_to_list (abs t')).*2 /\
    hashtable_apply_funct_on_elements (Some t') = (HASH_TABLE_OK, []).
Proof.
  intros W C H Hn. pose proof C as C'. unfold counted in C'.
  destruct (resize_correct t n g W Hn) as (t' & fr & E & W' & S & A & P & N); [lia|].
  exists t', fr. rewrite A. split_and!; try done.
  rewrite C', counted_size, Z.sub_diag in N by done. simpl. rewrite N.
  by destruct (take _ _).
Qed.

Lemma hashtable_resize_frees_live_data_witness :
  exists t' freed,
    hashtable_resize true (fun _ => true) 0 (Some sample_table) 3 = Ok (HASH_TABLE_OK, Some t', freed) /\
    freed ≡ₚ filter (.≠ 0) (map_to_list (abs t')).*2.
Proof.
  destruct (hashtable_resize_frees_live_data sample_table 3 0 sample_table_wf)
    as (t' & fr & E & _ & _ & P & _); [reflexivity|reflexivity|reflexivity|].
  exists t', fr. split; [exact E|exact P].
Defined.

End HashTable.
