(* ===== verification/Collection.v ===== *)
(** * Collections of entities keyed by a 64-bit value

    The layers keep their entities ([pdcp_t], [rlc_union_t]) behind pointers
    stored in the chained hash table: [hashtable_get] gives the pointer, the
    handler reads and writes the object through it, [hashtable_insert] stores
    the pointer of a new object, [hashtable_remove] releases it with the
    table's [freefunc].

    [Collection] is what a layer relies on; [objects] is its implementation
    on the hash table of [HashTable] with a heap of objects, and
    [objects_collection] discharges the interface's laws. *)

From S2P Require Import Prelude HashTable.
Import HashTable.

Module Collection.

(** [coll_remove] gives the object handed to [freefunc]. *)
Class CollectionOps (T V : Type) := {
  coll_empty : T;
  coll_get : T -> Z -> res (option V);
  coll_store : T -> Z -> V -> res T;
  coll_insert : T -> Z -> V -> res T;
  coll_remove : T -> Z -> res (option V * T)
}.

Class CollectionLaws (T V : Type) {O : CollectionOps T V} := {
  coll_ok : T -> Prop;
  coll_map : T -> gmap Z V;
  coll_empty_ok : coll_ok coll_empty /\ coll_map coll_empty = ∅;
  coll_get_ok t k : coll_ok t -> coll_get t k = Ok (coll_map t !! k);
  coll_store_ok t k v w : coll_ok t -> coll_map t !! k = Some w ->
    exists t', coll_store t k v = Ok t' /\ coll_ok t' /\ coll_map t' = <[k := v]> (coll_map t);
  coll_insert_ok t k v : coll_ok t -> coll_map t !! k = None ->
    exists t', coll_insert t k v = Ok t' /\ coll_ok t' /\ coll_map t' = <[k := v]> (coll_map t);
  coll_remove_ok t k : coll_ok t ->
    exists t', coll_remove t k = Ok (coll_map t !! k, t') /\ coll_ok t' /\ coll_map t' = delete k (coll_map t)
}.

(** ** Objects behind the hash table *)

Record objects (V : Type) : Type := mk_objects {
  table : hash_table_t;
  heap : gmap Z V;
  next_address : Z
}.
Arguments mk_objects {_} _ _ _.
Arguments table {_} _.
Arguments heap {_} _.
Arguments next_address {_} _.

Section Objects.
Context {V : Type}.

(** The pointer [hashtable_get] writes, when it returns [HASH_TABLE_OK]. *)
Definition get_pointer (t : objects V) (k : Z) : res (option Z) :=
  r ← hashtable_get (Some (table t)) k;
  match r with
  | (HASH_TABLE_OK, a) => Ok (Some a)
  | _ => Ok None
  end.

Definition objects_get (t : objects V) (k : Z) : res (option V) :=
  p ← get_pointer t k;
  match p with
  | Some a => Some <$> of_option OutOfBounds (heap t !! a)
  | None => Ok None
  end.

Definition objects_store (t : objects V) (k : Z) (v : V) : res (objects V) :=
  p ← get_pointer t k;
  match p with
  | Some a => Ok (mk_objects (table t) (<[a := v]> (heap t)) (next_address t))
  | None => Fault OutOfBounds
  end.

Definition objects_insert (t : objects V) (k : Z) (v : V) : res (objects V) :=
  let a := next_address t in
  r ← hashtable_insert true (Some (table t)) k a;
  match r with
  | (HASH_TABLE_OK, Some tbl, _) => Ok (mk_objects tbl (<[a := v]> (heap t)) (a + 1))
  | _ => Fault OutOfBounds
  end.

Definition objects_remove (t : objects V) (k : Z) : res (option V * objects V) :=
  r ← hashtable_remove (Some (table t)) k;
  match r with
  | (_, Some tbl, []) => Ok (None, mk_objects tbl (heap t) (next_address t))
  | (_, Some tbl, a :: _) =>
      v ← of_option OutOfBounds (heap t !! a);
      Ok (Some v, mk_objects tbl (delete a (heap t)) (next_address t))
  | _ => Fault OutOfBounds
  end.

(** [pdcp_layer_init] creates [(maxDRB + 2) * 16] buckets. *)
Definition objects_empty : objects V :=
  mk_objects (mk_table 208 0 (replicate 208 []) def_hashfunc) ∅ 1.

#[export] Instance objects_ops : CollectionOps (objects V) V := {|
  coll_empty := objects_empty;
  coll_get := objects_get;
  coll_store := objects_store;
  coll_insert := objects_insert;
  coll_remove := objects_remove
|}.

Record objects_ok (t : objects V) : Prop := {
  ok_table : wf (table t);
  ok_address k a : abs (table t) !! k = Some a -> 0 < a < next_address t /\ is_Some (heap t !! a);
  ok_injective k k' a : abs (table t) !! k = Some a -> abs (table t) !! k' = Some a -> k = k';
  ok_next : 0 < next_address t
}.

Definition objects_map (t : objects V) : gmap Z V := omap (fun a => heap t !! a) (abs (table t)).

Lemma objects_map_lookup t k : objects_map t !! k = abs (table t) !! k ≫= fun a => heap t !! a.
Proof. unfold objects_map. by rewrite lookup_omap. Qed.

Lemma get_pointer_ok t k : objects_ok t -> get_pointer t k = Ok (abs (table t) !! k).
Proof.
  intros [W _ _ _]. unfold get_pointer. rewrite (get_correct _ _ W). simpl. by destruct (abs (table t) !! k).
Qed.

Lemma objects_get_ok t k : objects_ok t -> objects_get t k = Ok (objects_map t !! k).
Proof.
  intros H. unfold objects_get. rewrite (get_pointer_ok _ _ H), objects_map_lookup. simpl.
  destruct (abs (table t) !! k) as [a|] eqn:E; [|done].
  destruct (ok_address _ H _ _ E) as [_ [v Hv]]. simpl. by rewrite Hv.
Qed.

Lemma objects_store_ok t k v w : objects_ok t -> objects_map t !! k = Some w ->
  exists t', objects_store t k v = Ok t' /\ objects_ok t' /\ objects_map t' = <[k := v]> (objects_map t).
Proof.
  intros H Hk. unfold objects_store. rewrite (get_pointer_ok _ _ H). rewrite objects_map_lookup in Hk. simpl.
  destruct (abs (table t) !! k) as [a|] eqn:E; [|done]. simpl in Hk.
  eexists. split; [reflexivity|]. split.
  - destruct H as [W A I N]. split; simpl; try done. intros k' a' E'. split; [by eapply A|].
    destruct (decide (a' = a)) as [->|]; [by rewrite lookup_insert_eq; eauto|].
    rewrite lookup_insert_ne by done. by eapply A.
  - apply map_eq. intros k'. rewrite objects_map_lookup. simpl. destruct (decide (k' = k)) as [->|Hn].
    + by rewrite E, lookup_insert_eq; simpl; rewrite lookup_insert_eq.
    + rewrite lookup_insert_ne, objects_map_lookup by done.
      destruct (abs (table t) !! k') as [a'|] eqn:E'; [|done]. simpl.
      rewrite lookup_insert_ne; [done|]. intros ->. by pose proof (ok_injective _ H _ _ _ E E').
Qed.

Lemma objects_insert_ok t k v : objects_ok t -> objects_map t !! k = None ->
  exists t', objects_insert t k v = Ok t' /\ objects_ok t' /\ objects_map t' = <[k := v]> (objects_map t).
Proof.
  intros H Hk. destruct H as [W A I N]. rewrite objects_map_lookup in Hk.
  assert (Ek : abs (table t) !! k = None).
  { destruct (abs (table t) !! k) as [a|] eqn:E; [|done]. destruct (A _ _ E) as [_ [x Hx]]. simpl in Hk. congruence. }
  unfold objects_insert. destruct (insert_correct (table t) k (next_address t) W) as (out & -> & P).
  destruct P as (tbl & Eo & Wt & _ & Ea & P). rewrite Ek in P. destruct P as (E1 & E2 & _).
  destruct out as [[rc otbl] fr]. simpl in *. subst.
  assert (L : forall k' a, abs (table t) !! k' = Some a -> a <> next_address t) by (intros k' a E; specialize (A _ _ E); lia).
  eexists. split; [reflexivity|]. split.
  - split; simpl; [done| | |lia]; intros k'.
    + intros a. rewrite Ea. destruct (decide (k' = k)) as [->|].
      * rewrite lookup_insert_eq. intros [= <-]. rewrite lookup_insert_eq. split; [lia|eauto].
      * rewrite lookup_insert_ne by done. intros E. rewrite lookup_insert_ne by (apply not_eq_sym; by eapply L).
        specialize (A _ _ E). split; [lia|apply A].
    + intros k'' a. rewrite Ea. rewrite !lookup_insert. do 2 case_decide; subst; try done.
      * intros [= <-] E. by apply L in E.
      * intros E [= <-]. by apply L in E.
      * intros E E'. by eapply I.
  - apply map_eq. intros k'. rewrite objects_map_lookup. simpl. rewrite Ea. destruct (decide (k' = k)) as [->|].
    + rewrite !lookup_insert_eq. simpl. by rewrite lookup_insert_eq.
    + rewrite !lookup_insert_ne, objects_map_lookup by done.
      destruct (abs (table t) !! k') as [a|] eqn:E; [|done]. simpl.
      rewrite lookup_insert_ne; [done|]. apply not_eq_sym. by eapply L.
Qed.

Lemma objects_remove_ok t k : objects_ok t ->
  exists t', objects_remove t k = Ok (objects_map t !! k, t') /\ objects_ok t' /\
    objects_map t' = delete k (objects_map t).
Proof.
  intros [W A I N]. unfold objects_remove. rewrite objects_map_lookup.
  destruct (remove_correct (table t) k W) as (out & -> & P). destruct P as (tbl & Eo & Wt & _ & Ea & P).
  destruct out as [[rc otbl] fr]. simpl in *. subst.
  destruct (abs (table t) !! k) as [a|] eqn:E.
  - destruct P as (-> & -> & _). destruct (A _ _ E) as [Ha [v Hv]].
    rewrite filter_cons_True by lia. simpl. rewrite Hv. simpl.
    eexists. split; [reflexivity|].
    assert (L : forall k' a', k' <> k -> abs (table t) !! k' = Some a' -> a' <> a).
    { intros k' a' Hn E' ->. by pose proof (I _ _ _ E E'). }
    split.
    + split; simpl; try done; intros k'.
      * intros a'. rewrite Ea. destruct (decide (k' = k)) as [->|]; [by rewrite lookup_delete_eq|].
        rewrite lookup_delete_ne by done. intros E'. split; [by eapply A|].
        rewrite lookup_delete_ne by (apply not_eq_sym; by eapply L). by eapply A.
      * intros k'' a'. rewrite Ea, !lookup_delete. do 2 case_decide; try done. apply I.
    + apply map_eq. intros k'. rewrite objects_map_lookup. simpl. rewrite Ea. destruct (decide (k' = k)) as [->|].
      * by rewrite !lookup_delete_eq.
      * rewrite !lookup_delete_ne, objects_map_lookup by done.
        destruct (abs (table t) !! k') as [a'|] eqn:E'; [|done]. simpl.
        rewrite lookup_delete_ne; [done|]. apply not_eq_sym. by eapply L.
  - destruct P as (-> & -> & ->). simpl. eexists. split; [reflexivity|]. split; [by destruct t|].
    rewrite delete_id; [by destruct t|]. rewrite objects_map_lookup. by rewrite E.
Qed.

Lemma objects_empty_ok : objects_ok objects_empty /\ objects_map objects_empty = ∅.
Proof.
  assert (H : wf (table objects_empty) /\ abs (table objects_empty) = ∅).
  { destruct (create_wf 208 None 0) as (t & Et & W & Ea); [lia|].
    assert (t = table objects_empty) as <- by (injection Et as <-; reflexivity). done. }
  destruct H as [W Ea]. split; [|by unfold objects_map; rewrite Ea; apply omap_empty].
  split; try done; intros k; rewrite Ea, lookup_empty; done.
Qed.

(** The hash table implements what the layers rely on. *)
#[export] Instance objects_collection : CollectionLaws (objects V) V := {|
  coll_ok := objects_ok;
  coll_map := objects_map;
  coll_empty_ok := objects_empty_ok;
  coll_get_ok := objects_get_ok;
  coll_store_ok := objects_store_ok;
  coll_insert_ok := objects_insert_ok;
  coll_remove_ok := objects_remove_ok
|}.
End Objects.

End Collection.
