(* ===== verification/LinkedList.v ===== *)
(** * Linked lists of memory blocks

    openair2/UTIL/LISTS/list.c (singly linked, with [next]) and list2.c
    (doubly linked). A block is an object of a store indexed by its address;
    [NULL] is 0, and reading or writing through a pointer that is not the
    address of a block is a fault. A [list_t] is a value threaded through the
    operations; the name of a list, that nothing reads, is left out.

    [list_ok] and [list2_ok] say which sequence of addresses a list holds;
    the lemmas [*_ok] give what each operation does to that sequence and to
    the blocks it touches. *)

From S2P Require Import Prelude.

Module LinkedList.

Definition NULL : Z := 0.

Record mem_block_t : Type := mk_mem_block {
  next : Z;
  previous : Z;
  pool_id : Z;
  data : Z
}.
#[export] Instance mem_block_settable : Settable mem_block_t :=
  fun b => mk_mem_block (next b) (previous b) (pool_id b) (data b).

Record list_t : Type := mk_list {
  head : Z;
  tail : Z;
  nb_elements : Z
}.
#[export] Instance list_settable : Settable list_t :=
  fun l => mk_list (head l) (tail l) (nb_elements l).
#[export] Instance list_eq_dec : EqDecision list_t.
Proof. solve_decision. Defined.
#[export] Instance mem_block_eq_dec : EqDecision mem_block_t.
Proof. solve_decision. Defined.

Notation store := (gmap Z mem_block_t).

(** ** Access through a pointer *)

Definition deref (m : store) (p : Z) : res mem_block_t := of_option OutOfBounds (m !! p).
Definition set_next (m : store) (p v : Z) : res store :=
  b ← deref m p; Ok (<[p := b <| next := v |>]> m).
Definition set_previous (m : store) (p v : Z) : res store :=
  b ← deref m p; Ok (<[p := b <| previous := v |>]> m).

(** ** list.c *)

Definition list_init : list_t := mk_list NULL NULL 0.

Definition list_get_head (listP : list_t) : Z := head listP.

Definition list_remove_head (m : store) (listP : list_t) : res (Z * store * list_t) :=
  let hd := head listP in
  if hd =? NULL then Ok (hd, m, listP)
  else
    b ← deref m hd;
    let l := listP <| head := next b |> <| nb_elements := nb_elements listP - 1 |> in
    if head l =? NULL then Ok (hd, m, l <| tail := NULL |>)
    else m' ← set_next m hd NULL; Ok (hd, m', l).

(** The [while (head)] loop of [list_remove_element]. *)
Fixpoint unlink_from (fuel : nat) (m : store) (hd elementP : Z) (listP : list_t) : res (store * list_t) :=
  match fuel with
  | O => Fault OutOfFuel
  | S fuel' =>
      if hd =? NULL then Ok (m, listP)
      else
        b ← deref m hd;
        if next b =? elementP then
          e ← deref m elementP;
          m' ← set_next m hd (next e);
          let l := listP <| nb_elements := nb_elements listP - 1 |> in
          Ok (m', if tail l =? elementP then l <| tail := hd |> else l)
        else unlink_from fuel' m (next b) elementP listP
  end.

(** A chain of blocks has at most as many members as there are blocks: the
    loop ends in one round more. *)
Definition list_remove_element (m : store) (elementP : Z) (listP : list_t) : res (Z * store * list_t) :=
  if elementP =? NULL then Ok (elementP, m, listP)
  else
    let hd := head listP in
    if hd =? elementP then
      if hd =? NULL then Ok (elementP, m, listP)
      else
        b ← deref m hd;
        let l := listP <| head := next b |> <| nb_elements := nb_elements listP - 1 |> in
        if head l =? NULL then Ok (elementP, m, l <| tail := NULL |>)
        else m' ← set_next m hd NULL; Ok (elementP, m', l)
    else
      '(m', l) ← unlink_from (S (size m)) m hd elementP listP;
      Ok (elementP, m', l).

Definition list_add_head (m : store) (elementP : Z) (listP : list_t) : res (store * list_t) :=
  if elementP =? NULL then Ok (m, listP)
  else
    let hd := head listP in
    let l := listP <| nb_elements := nb_elements listP + 1 |> in
    if hd =? NULL then Ok (m, l <| head := elementP |> <| tail := elementP |>)
    else m' ← set_next m elementP hd; Ok (m', l <| head := elementP |>).

Definition list_add_tail_eurecom (m : store) (elementP : Z) (listP : list_t) : res (store * list_t) :=
  if elementP =? NULL then Ok (m, listP)
  else
    let l := listP <| nb_elements := nb_elements listP + 1 |> in
    m1 ← set_next m elementP NULL;
    let tl := tail l in
    if tl =? NULL then Ok (m1, l <| head := elementP |> <| tail := elementP |>)
    else m2 ← set_next m1 tl elementP; Ok (m2, l <| tail := elementP |>).

(** [sublistP] is a list object other than [listP]; [None] is [NULL]. The
    result has the store, the sublist and the list. *)
Definition list_add_list (m : store) (sublistP : option list_t) (listP : list_t)
    : res (store * option list_t * list_t) :=
  match sublistP with
  | None => Ok (m, None, listP)
  | Some sub =>
      if head sub =? NULL then Ok (m, Some sub, listP)
      else
        let tl := tail listP in
        '(m', l1) ← (if tl =? NULL then Ok (m, listP <| head := head sub |>)
                     else m1 ← set_next m tl (head sub); Ok (m1, listP));
        let l2 := l1 <| tail := tail sub |> <| nb_elements := nb_elements l1 + nb_elements sub |> in
        Ok (m', Some (sub <| head := NULL |> <| tail := NULL |> <| nb_elements := 0 |>), l2)
  end.

(** ** list2.c *)

Definition list2_init : list_t := mk_list NULL NULL 0.

Definition list2_get_head (listP : list_t) : Z := head listP.
Definition list2_get_tail (listP : list_t) : Z := tail listP.

Definition list2_remove_element (m : store) (elementP : Z) (listP : list_t) : res (Z * store * list_t) :=
  if elementP =? NULL then Ok (elementP, m, listP)
  else
    '(m', l) ← (
      if elementP =? head listP then
        e ← deref m elementP;
        let l := listP <| head := next e |> in
        if head l =? NULL then Ok (m, l <| tail := NULL |>)
        else
          m1 ← set_previous m (next e) NULL;
          m2 ← set_next m1 elementP NULL;
          Ok (m2, l)
      else if elementP =? tail listP then
        e ← deref m elementP;
        let l := listP <| tail := previous e |> in
        m1 ← set_next m (tail l) NULL;
        m2 ← set_previous m1 elementP NULL;
        Ok (m2, l)
      else
        e ← deref m elementP;
        m1 ← set_next m (previous e) (next e);
        e1 ← deref m1 elementP;
        m2 ← set_previous m1 (next e1) (previous e1);
        m3 ← set_next m2 elementP NULL;
        m4 ← set_previous m3 elementP NULL;
        Ok (m4, listP));
    Ok (elementP, m', l <| nb_elements := nb_elements l - 1 |>).

Definition list2_remove_head (m : store) (listP : list_t) : res (Z * store * list_t) :=
  let hd := head listP in
  if hd =? NULL then Ok (hd, m, listP)
  else
    b ← deref m hd;
    let l := listP <| head := next b |> <| nb_elements := nb_elements listP - 1 |> in
    if head l =? NULL then Ok (hd, m, l <| tail := NULL |>)
    else
      m1 ← set_previous m (head l) NULL;
      m2 ← set_next m1 hd NULL;
      Ok (hd, m2, l).

Definition list2_remove_tail (m : store) (listP : list_t) : res (Z * store * list_t) :=
  let tl := tail listP in
  if tl =? NULL then Ok (tl, m, listP)
  else
    let l := listP <| nb_elements := nb_elements listP - 1 |> in
    '(m', l') ← (
      if head l =? tl then Ok (m, l <| head := NULL |> <| tail := NULL |>)
      else
        b ← deref m tl;
        m1 ← set_next m (previous b) NULL;
        Ok (m1, l <| tail := previous b |>));
    m2 ← set_previous m' tl NULL;
    Ok (tl, m2, l').

Definition list2_add_head (m : store) (elementP : Z) (listP : list_t) : res (store * list_t) :=
  if elementP =? NULL then Ok (m, listP)
  else
    let hd := head listP in
    let l := listP <| nb_elements := nb_elements listP + 1 |> in
    if hd =? NULL then Ok (m, l <| head := elementP |> <| tail := elementP |>)
    else
      m1 ← set_next m elementP hd;
      m2 ← set_previous m1 hd elementP;
      m3 ← set_previous m2 elementP NULL;
      Ok (m3, l <| head := elementP |>).

Definition list2_add_tail (m : store) (elementP : Z) (listP : list_t) : res (store * list_t) :=
  if elementP =? NULL then Ok (m, listP)
  else
    let l := listP <| nb_elements := nb_elements listP + 1 |> in
    m1 ← set_next m elementP NULL;
    let tl := tail l in
    if tl =? NULL then
      m2 ← set_previous m1 elementP NULL;
      Ok (m2, l <| head := elementP |> <| tail := elementP |>)
    else
      m2 ← set_next m1 tl elementP;
      m3 ← set_previous m2 elementP tl;
      Ok (m3, l <| tail := elementP |>).

Definition list2_add_list (m : store) (sublistP : option list_t) (listP : list_t)
    : res (store * option list_t * list_t) :=
  match sublistP with
  | None => Ok (m, None, listP)
  | Some sub =>
      '(m', sub', l) ← (
        if head sub =? NULL then Ok (m, sub, listP)
        else
          let tl := tail listP in
          '(m1, l1) ← (if tl =? NULL then Ok (m, listP <| head := head sub |>)
                       else m1 ← set_next m tl (head sub);
                            m2 ← set_previous m1 (head sub) tl;
                            Ok (m2, listP));
          Ok (m1, sub <| head := NULL |> <| tail := NULL |>, l1 <| tail := tail sub |>));
      Ok (m', Some sub', l <| nb_elements := nb_elements l + nb_elements sub' |>)
  end.


(** ** The sequence a list holds *)

Definition first (l : list Z) (q : Z) : Z := match l with [] => q | a :: _ => a end.
Definition final (p : Z) (l : list Z) : Z := match last l with Some a => a | None => p end.

(** The [next] links run through [l] and end in [q]; the [previous] links run
    back through [l] and end in [p]. *)
Fixpoint chain (m : store) (l : list Z) (q : Z) : Prop :=
  match l with
  | [] => True
  | a :: r => (exists b, m !! a = Some b /\ next b = first r q) /\ chain m r q
  end.
Fixpoint back (m : store) (p : Z) (l : list Z) : Prop :=
  match l with
  | [] => True
  | a :: r => (exists b, m !! a = Some b /\ previous b = p) /\ back m a r
  end.

Record list_ok (m : store) (L : list_t) (l : list Z) : Prop := {
  ok_nodup : NoDup l;
  ok_null : NULL ∉ l;
  ok_chain : chain m l NULL;
  ok_head : head L = first l NULL;
  ok_tail : tail L = final NULL l;
  ok_count : nb_elements L = Z.of_nat (length l)
}.

Record list2_ok (m : store) (L : list_t) (l : list Z) : Prop := {
  ok2_list : list_ok m L l;
  ok2_back : back m NULL l
}.

(** A block whose links are [NULL]. *)
Definition detached (m : store) (a : Z) : Prop := exists b, m !! a = Some b /\ next b = NULL.
Definition detached2 (m : store) (a : Z) : Prop :=
  exists b, m !! a = Some b /\ next b = NULL /\ previous b = NULL.

(** [m'] differs from [m] in links of blocks of [s] only. *)
Definition touched (s : list Z) (m m' : store) : Prop :=
  forall a, match m !! a, m' !! a with
  | Some b, Some b' => pool_id b' = pool_id b /\ data b' = data b /\ (a ∉ s -> b' = b)
  | None, None => True
  | _, _ => False
  end.

Lemma touched_refl s m : touched s m m.
Proof. intros a. destruct (m !! a); naive_solver. Qed.

Lemma touched_trans s m1 m2 m3 : touched s m1 m2 -> touched s m2 m3 -> touched s m1 m3.
Proof.
  intros H1 H2 a. specialize (H1 a). specialize (H2 a).
  destruct (m1 !! a), (m2 !! a), (m3 !! a); try done.
  destruct H1 as (? & ? & E1), H2 as (? & ? & E2). split_and!; [congruence..|]. intros. by rewrite E2, E1.
Qed.

Lemma touched_weaken s s' m m' : (forall a, a ∈ s -> a ∈ s') -> touched s m m' -> touched s' m m'.
Proof.
  intros Hs H a. specialize (H a). destruct (m !! a), (m' !! a); try done.
  destruct H as (? & ? & E). split_and!; try done. intros Hn. apply E. by intros ?%Hs.
Qed.

Lemma touched_lookup s m m' a : touched s m m' -> a ∉ s -> m' !! a = m !! a.
Proof. intros H Ha. specialize (H a). destruct (m !! a), (m' !! a); try done. f_equal. by apply H. Qed.

Lemma touched_is_Some s m m' a : touched s m m' -> is_Some (m !! a) -> is_Some (m' !! a).
Proof. intros H [b Hb]. specialize (H a). rewrite Hb in H. destruct (m' !! a); eauto. done. Qed.

Lemma touched_insert s m a b b' : m !! a = Some b -> a ∈ s -> pool_id b' = pool_id b -> data b' = data b ->
  touched s m (<[a := b']> m).
Proof.
  intros Hb Ha Hp Hd x. destruct (decide (x = a)) as [->|].
  - rewrite Hb, lookup_insert_eq. done.
  - rewrite lookup_insert_ne by done. destruct (m !! x); naive_solver.
Qed.

Lemma set_next_ok s m a v : is_Some (m !! a) -> a ∈ s -> exists b, m !! a = Some b /\
  set_next m a v = Ok (<[a := b <| next := v |>]> m) /\ touched s m (<[a := b <| next := v |>]> m).
Proof.
  intros [b Hb] Ha. exists b. unfold set_next, deref. rewrite Hb. split_and!; try done.
  by eapply touched_insert.
Qed.

Lemma set_previous_ok s m a v : is_Some (m !! a) -> a ∈ s -> exists b, m !! a = Some b /\
  set_previous m a v = Ok (<[a := b <| previous := v |>]> m) /\ touched s m (<[a := b <| previous := v |>]> m).
Proof.
  intros [b Hb] Ha. exists b. unfold set_previous, deref. rewrite Hb. split_and!; try done.
  by eapply touched_insert.
Qed.

Lemma first_app l1 l2 q : first (l1 ++ l2) q = first l1 (first l2 q).
Proof. by destruct l1. Qed.

Lemma final_app p l1 l2 : final p (l1 ++ l2) = final (final p l1) l2.
Proof.
  unfold final. destruct (last l2) as [b|] eqn:E.
  - by rewrite last_app, E.
  - apply last_None in E. subst. by rewrite app_nil_r.
Qed.

Lemma final_snoc p l a : final p (l ++ [a]) = a.
Proof. by rewrite final_app. Qed.

Lemma final_cons p a l : final p (a :: l) = final a l.
Proof. apply (final_app p [a] l). Qed.

Lemma final_elem p l : l <> [] -> final p l ∈ l.
Proof. destruct l as [|a l _] using rev_ind; [done|]. intros _. rewrite final_snoc. apply elem_of_app. right. by left. Qed.

Lemma final_self a l : a ∉ l -> final a l = a -> l = [].
Proof. destruct l as [|c l]; [done|]. intros H E. exfalso. apply H. rewrite <- E. by apply final_elem. Qed.

(** ** Links *)

Lemma chain_app m l1 l2 q : chain m (l1 ++ l2) q <-> chain m l1 (first l2 q) /\ chain m l2 q.
Proof. induction l1; simpl; [naive_solver|]. rewrite IHl1, first_app. naive_solver. Qed.

Lemma back_app m p l1 l2 : back m p (l1 ++ l2) <-> back m p l1 /\ back m (final p l1) l2.
Proof.
  revert p. induction l1 as [|a l1 IH]; intros p; simpl; [unfold final; simpl; naive_solver|].
  rewrite IH, final_cons. naive_solver.
Qed.

Lemma chain_frame m m' l q :
  (forall a b, a ∈ l -> m !! a = Some b -> exists b', m' !! a = Some b' /\ next b' = next b) ->
  chain m l q -> chain m' l q.
Proof.
  induction l as [|a l IH]; simpl; [done|]. intros H [(b & Hb & Hn) Hc]. split.
  - destruct (H a b) as (b' & ? & ?); [by left|done|]. exists b'. by rewrite <- Hn.
  - apply IH; [|done]. intros. apply H; [by right|done].
Qed.

Lemma back_frame m m' l p :
  (forall a b, a ∈ l -> m !! a = Some b -> exists b', m' !! a = Some b' /\ previous b' = previous b) ->
  back m p l -> back m' p l.
Proof.
  revert p. induction l as [|a l IH]; intros p; simpl; [done|]. intros H [(b & Hb & Hn) Hc]. split.
  - destruct (H a b) as (b' & ? & ?); [by left|done|]. exists b'. by rewrite <- Hn.
  - apply IH; [|done]. intros. apply H; [by right|done].
Qed.

Lemma chain_insert m l q a b : a ∉ l -> chain m l q -> chain (<[a := b]> m) l q.
Proof.
  intros Ha. apply chain_frame. intros x bx Hx Hb. exists bx. rewrite lookup_insert_ne; [done|]. by intros ->.
Qed.

Lemma back_insert m l p a b : a ∉ l -> back m p l -> back (<[a := b]> m) p l.
Proof.
  intros Ha. apply back_frame. intros x bx Hx Hb. exists bx. rewrite lookup_insert_ne; [done|]. by intros ->.
Qed.

(** Writing one link leaves the other direction alone. *)
Lemma chain_insert_previous m l q a b v : m !! a = Some b -> chain m l q -> chain (<[a := b <| previous := v |>]> m) l q.
Proof.
  intros Hb. apply chain_frame. intros x bx _ Hx. rewrite lookup_insert. case_decide; [|by eauto].
  subst. eexists. split; [done|]. rsimpl. congruence.
Qed.

Lemma back_insert_next m l p a b v : m !! a = Some b -> back m p l -> back (<[a := b <| next := v |>]> m) p l.
Proof.
  intros Hb. apply back_frame. intros x bx _ Hx. rewrite lookup_insert. case_decide; [|by eauto].
  subst. eexists. split; [done|]. rsimpl. congruence.
Qed.

Lemma chain_alloc m l q a : chain m l q -> a ∈ l -> is_Some (m !! a).
Proof. induction l as [|x l IH]; [by intros _ ?%elem_of_nil|]. intros [(b & Hb & _) Hc] [->|?]%elem_of_cons; eauto. Qed.

(** Redirecting the last link. *)
Lemma chain_set_last m l t q q' b : t ∉ l -> m !! t = Some b -> chain m (l ++ [t]) q ->
  chain (<[t := b <| next := q' |>]> m) (l ++ [t]) q'.
Proof.
  intros Ht Hb [H1 _]%chain_app. apply chain_app. split; [by apply chain_insert|]. simpl. split; [|done].
  rewrite lookup_insert_eq. eauto.
Qed.

Lemma back_set_first m l h p p' b : h ∉ l -> m !! h = Some b -> back m p (h :: l) ->
  back (<[h := b <| previous := p' |>]> m) p' (h :: l).
Proof.
  intros Hh Hb [_ H]. split; [|by apply back_insert]. rewrite lookup_insert_eq. eauto.
Qed.

(** ** The operations of list.c *)

Ltac null_test := rewrite ?Z.eqb_refl; repeat match goal with
  | |- context [?x =? ?y] => rewrite (proj2 (Z.eqb_neq x y)) by done end.

Lemma list_ok_init m : list_ok m list_init [].
Proof. split; try done; [constructor|apply not_elem_of_nil]. Qed.

Lemma list_ok_elem m L l a : list_ok m L l -> a ∈ l -> is_Some (m !! a) /\ a <> NULL.
Proof. intros H Ha. split; [eapply chain_alloc; [apply H|done]|]. intros ->. by apply (ok_null _ _ _ H). Qed.

Lemma list_ok_frame s m m' L l : list_ok m L l -> touched s m m' -> (forall a, a ∈ l -> a ∉ s) -> list_ok m' L l.
Proof.
  intros [] Ht Hs. split; try done. eapply chain_frame; [|done]. intros a b Ha Hb.
  exists b. split; [|done]. rewrite (touched_lookup _ _ _ _ Ht); auto.
Qed.

Lemma list_remove_head_nil m L : list_ok m L [] -> list_remove_head m L = Ok (NULL, m, L).
Proof. intros []. unfold list_remove_head. by rewrite ok_head0. Qed.

Lemma cons_facts m L a l : list_ok m L (a :: l) ->
  head L = a /\ a <> NULL /\ (exists b, m !! a = Some b /\ next b = first l NULL) /\
  a ∉ l /\ NULL ∉ l /\ NoDup l /\ chain m l NULL /\ nb_elements L - 1 = Z.of_nat (length l).
Proof.
  intros [N Z C H T K]. apply NoDup_cons in N as []. apply not_elem_of_cons in Z as [Z1 Z2]. destruct C as [C1 C2].
  simpl in K. split_and!; try done. lia.
Qed.

Lemma list_remove_head_cons m L a l : list_ok m L (a :: l) ->
  exists m' L', list_remove_head m L = Ok (a, m', L') /\ list_ok m' L' l /\ detached m' a /\ touched [a] m m'.
Proof.
  intros O. destruct (cons_facts _ _ _ _ O) as (Hh & Ha & (b & Hb & Hn) & Hal & Hz & Nd & Hc & Hk).
  unfold list_remove_head, deref. rewrite Hh, Hb. null_test. simpl. rewrite Hn.
  destruct l as [|c l]; simpl.
  - do 2 eexists. split; [reflexivity|]. split_and!; [by split|by exists b|apply touched_refl].
  - assert (c <> NULL) by (intros ->; apply Hz; by left). null_test.
    destruct (set_next_ok [a] m a NULL) as (b' & ? & -> & Ht); [by eauto|by left|]. simplify_eq.
    do 2 eexists. split; [reflexivity|]. split_and!; [|unfold detached; rewrite lookup_insert_eq; eauto|done].
    split; try done; [by apply chain_insert|]. rsimpl. by rewrite (ok_tail _ _ _ O), !final_cons.
Qed.
Lemma chain_size m l q : NoDup l -> chain m l q -> (length l <= size m)%nat.
Proof.
  intros N C. rewrite <- (size_list_to_set (C := gset Z) l N), <- size_dom. apply subseteq_size.
  intros a Ha%elem_of_list_to_set. apply elem_of_dom. by eapply chain_alloc.
Qed.

Lemma unlink_from_found fuel m L x a l1 l2 : NoDup (x :: l1 ++ a :: l2) -> NULL ∉ x :: l1 ++ a :: l2 ->
  chain m (x :: l1 ++ a :: l2) NULL -> (length l1 < fuel)%nat ->
  exists b, m !! final x l1 = Some b /\
    unlink_from fuel m x a L =
      Ok (<[final x l1 := b <| next := first l2 NULL |>]> m,
          let l := L <| nb_elements := nb_elements L - 1 |> in
          if tail l =? a then l <| tail := final x l1 |> else l).
Proof.
  revert fuel x. induction l1 as [|y l1 IH]; intros [|fuel] x N Z C F; try (simpl in F; lia);
    apply NoDup_cons in N as [Nx N]; apply not_elem_of_cons in Z as [Zx Z]; destruct C as [(b & Hb & Hn) C];
    simpl in Hn; assert (x <> NULL) by done; simpl; null_test; unfold deref; rewrite Hb; simpl; rewrite Hn.
  - destruct C as [(e & He & Hen) C]. rewrite Z.eqb_refl, He. simpl. rewrite Hen. unfold set_next, deref. rewrite Hb.
    exists b. by split.
  - assert (y <> a). { apply NoDup_cons in N as [N _]. intros ->. apply N, elem_of_app. right. by left. }
    null_test. rewrite final_cons. apply IH; try done. simpl in F. lia.
Qed.

Lemma unlink_from_absent fuel m L a l : chain m l NULL -> NULL ∉ l -> a <> NULL -> a ∉ l -> (length l < fuel)%nat ->
  unlink_from fuel m (first l NULL) a L = Ok (m, L).
Proof.
  revert fuel. induction l as [|x l IH]; intros [|fuel] C Z Ha Hl F; try (simpl in F; lia); [done|].
  apply not_elem_of_cons in Z as [Zx Z]. apply not_elem_of_cons in Hl as [Hx Hl]. destruct C as [(b & Hb & Hn) C].
  simpl. assert (x <> NULL) by done. null_test. unfold deref. rewrite Hb. simpl. rewrite Hn.
  assert (first l NULL <> a). { destruct l; [done|]. simpl. by apply not_elem_of_cons in Hl as []. }
  null_test. apply IH; try done. simpl in F. lia.
Qed.

Lemma list_remove_element_head m L a : head L = a -> a <> NULL -> list_remove_element m a L = list_remove_head m L.
Proof. intros <- H. unfold list_remove_element, list_remove_head. by null_test. Qed.

(** A block that is not on the list is given back, and nothing changes. *)
Lemma list_remove_element_absent m L l a : list_ok m L l -> a ∉ l -> list_remove_element m a L = Ok (a, m, L).
Proof.
  intros [N Z C H T K] Ha. unfold list_remove_element. destruct (Z.eqb_spec a NULL) as [->|Hz]; [done|].
  rewrite H. destruct (Z.eqb_spec (first l NULL) a) as [E|_].
  - destruct l; simpl in E; subst; [done|]. exfalso. apply Ha. by left.
  - rewrite (unlink_from_absent _ _ _ _ l); try done. pose proof (chain_size _ _ _ N C). lia.
Qed.

(** Whether [list_remove_element] leaves the removed block without a
    successor: it does for the first and for the last block only. *)
Definition unlinks (l : list Z) (a : Z) : bool := bool_decide (first l NULL = a \/ final NULL l = a).

Lemma middle_facts (l1 l2 : list Z) a x : NoDup (x :: l1 ++ a :: l2) ->
  final x l1 ∉ a :: l2 /\ (exists l, x :: l1 = l ++ [final x l1] /\ final x l1 ∉ l) /\ NoDup (x :: l1 ++ l2) /\ a ∉ x :: l1 ++ l2.
Proof.
  intros N. rewrite app_comm_cons in *. destruct (rev_ind (fun l => l = [] \/ exists l' b, l = l' ++ [b]) (or_introl eq_refl)
    (fun b l' _ => or_intror (ex_intro _ l' (ex_intro _ b eq_refl))) (x :: l1)) as [|(l' & b & E)]; [done|].
  assert (final x l1 = b) as -> by (by rewrite <- (final_cons NULL), E, final_snoc).
  rewrite E in N |- *. apply NoDup_app in N as (N1 & N2 & N3). apply NoDup_app in N1 as (N4 & N5 & N6).
  apply NoDup_cons in N3 as [N7 N8]. split_and!.
  - apply N2, elem_of_app. right. by left.
  - exists l'. split; [done|]. intros Hb. apply (N5 b Hb). by left.
  - apply NoDup_app. split_and!; [by apply NoDup_app|intros y Hy Hy2; apply (N2 y Hy); by right|done].
  - rewrite elem_of_app. intros [Ha|Ha]; [|done]. apply (N2 a Ha). by left.
Qed.

Lemma list_remove_element_ok m L a l1 l2 : list_ok m L (l1 ++ a :: l2) ->
  exists m' L', list_remove_element m a L = Ok (a, m', L') /\ list_ok m' L' (l1 ++ l2) /\
    (unlinks (l1 ++ a :: l2) a = true -> detached m' a) /\ touched (l1 ++ [a]) m m'.
Proof.
  intros O. destruct l1 as [|x l1].
  - destruct (list_remove_head_cons _ _ _ _ O) as (m' & L' & E & O' & D & Ht).
    exists m', L'. rewrite (list_remove_element_head _ _ a); [by split_and!|apply O|].
    by destruct (list_ok_elem _ _ _ a O); [left|].
  - destruct O as [N Z C H T K].
    assert (a <> NULL) by (intros ->; apply Z, elem_of_app; right; by left).
    destruct (middle_facts l1 l2 a x) as (F1 & (l & F2 & F3) & F4 & F5); [done|].
    destruct (unlink_from_found (S (size m)) m L x a l1 l2) as (b & Hb & E); try done.
    { pose proof (chain_size _ _ _ N C) as G. simpl in G. rewrite length_app in G. simpl in G. lia. }
    assert (Ha : exists e, m !! a = Some e /\ next e = first l2 NULL) by (by apply chain_app in C as [_ [? _]]).
    unfold list_remove_element. rewrite H. assert (first ((x :: l1) ++ a :: l2) NULL <> a).
    { simpl. intros ->. by apply F5; left. }
    null_test. simpl first. rewrite E. simpl. do 2 eexists. split; [reflexivity|]. split_and!.
    + assert (Z' : NULL ∉ x :: l1 ++ l2).
      { intros Hz. apply Z. set_solver. }
      assert (C' : chain (<[final x l1 := b <| next := first l2 NULL |>]> m) (x :: l1 ++ l2) NULL).
      { apply chain_app in C as [C1 C2]. rewrite app_comm_cons. apply chain_app. split.
        - rewrite F2 in *. by eapply chain_set_last.
        - apply chain_insert; [|by destruct C2]. intros ?. apply F1. by right. }
      rewrite final_app, !final_cons in T. rsimpl. rewrite T.
      assert (K' : nb_elements L - 1 = Z.of_nat (length (x :: l1 ++ l2))) by (simpl in *; rewrite length_app in *; simpl in *; lia).
      destruct (Z.eqb_spec (final a l2) a) as [Ea|Ea].
      * assert (l2 = []) as -> by (apply (final_self a); [|done]; by apply NoDup_app in N as (_ & _ & [Nc _]%NoDup_cons)).
        split; try done. simpl. by rewrite final_cons, app_nil_r.
      * split; try done. rsimpl. rewrite T. destruct l2 as [|c l2]; [done|]. by rewrite app_comm_cons, final_app, !final_cons.
    + intros U%bool_decide_eq_true. destruct Ha as (e & He & Hne). exists e. rewrite lookup_insert_ne by set_solver.
      split; [done|]. destruct U as [U|U]; [done|]. rewrite Hne. rewrite ?app_comm_cons, final_app, !final_cons in U.
      apply final_self in U as ->; [done|]. by apply NoDup_app in N as (_ & _ & [Nc _]%NoDup_cons).
    + eapply touched_insert; try done. rewrite app_comm_cons, F2. set_solver.
Qed.
(** A block that can be put on the list [l]. *)
Definition fresh (m : store) (l : list Z) (a : Z) : Prop := is_Some (m !! a) /\ a <> NULL /\ a ∉ l.

Lemma list_add_head_ok m L l a : list_ok m L l -> fresh m l a -> (l = [] -> detached m a) ->
  exists m' L', list_add_head m a L = Ok (m', L') /\ list_ok m' L' (a :: l) /\ touched [a] m m'.
Proof.
  intros [N Z C H T K] (Hs & Ha & Hl) D. unfold list_add_head. rewrite H. null_test.
  assert (N' : NoDup (a :: l)) by (by apply NoDup_cons). assert (Z' : NULL ∉ a :: l) by (by apply not_elem_of_cons).
  assert (K' : nb_elements L + 1 = Z.of_nat (length (a :: l))) by (simpl; lia).
  destruct l as [|c l]; simpl.
  - do 2 eexists. split; [reflexivity|]. split; [|apply touched_refl]. split; try done. by split; [apply D|].
  - assert (c <> NULL) by (intros ->; apply Z; by left). null_test.
    destruct (set_next_ok [a] m a c) as (b & Hb & -> & Ht); [done|by left|].
    do 2 eexists. split; [reflexivity|]. split; [|done]. split; try done.
    split; [rewrite lookup_insert_eq; eauto|]. by apply chain_insert.
Qed.

Lemma split_last (l : list Z) : l = [] \/ exists l' t, l = l' ++ [t].
Proof. destruct l as [|t l' _] using rev_ind; eauto. Qed.

Lemma snoc_facts m L l t : list_ok m L (l ++ [t]) ->
  tail L = t /\ t <> NULL /\ t ∉ l /\ is_Some (m !! t).
Proof.
  intros O. pose proof (list_ok_elem _ _ _ t O) as [? ?]; [set_solver|]. destruct O as [N _ _ _ T _].
  rewrite final_snoc in T. apply NoDup_app in N as (_ & N & _). split_and!; try done. intros Ht. apply (N _ Ht). by left.
Qed.

Lemma list_add_tail_ok m L l a : list_ok m L l -> fresh m l a ->
  exists m' L', list_add_tail_eurecom m a L = Ok (m', L') /\ list_ok m' L' (l ++ [a]) /\ touched (a :: l) m m'.
Proof.
  intros O (Hs & Ha & Hl). unfold list_add_tail_eurecom. null_test.
  destruct (set_next_ok (a :: l) m a NULL) as (b & Hb & -> & Ht1); [done|by left|]. simpl. set (m1 := <[a := _]> m) in *.
  assert (N' : NoDup (l ++ [a])).
  { apply NoDup_app. split_and!; [apply O|set_solver|by apply NoDup_singleton]. }
  assert (Z' : NULL ∉ l ++ [a]) by (pose proof (ok_null _ _ _ O); set_solver).
  assert (K' : nb_elements L + 1 = Z.of_nat (length (l ++ [a]))) by (rewrite length_app; simpl; pose proof (ok_count _ _ _ O); lia).
  assert (C1 : chain m1 l NULL) by (apply chain_insert; [done|apply O]).
  assert (Ca : m1 !! a = Some (b <| next := NULL |>)) by apply lookup_insert_eq.
  destruct (split_last l) as [-> |(l' & t & ->)].
  - rsimpl. rewrite (ok_tail _ _ _ O). simpl. do 2 eexists. split; [reflexivity|]. split; [|done]. split; try done. simpl. eauto.
  - destruct (snoc_facts _ _ _ _ O) as (Tt & Tn & Tl & Ts). rsimpl. rewrite Tt. null_test.
    destruct (set_next_ok (a :: l' ++ [t]) m1 t a) as (bt & Hbt & -> & Ht2); [by eapply touched_is_Some|set_solver|].
    do 2 eexists. split; [reflexivity|]. split; [|by eapply touched_trans]. split; try done.
    + apply chain_app. split; [by eapply chain_set_last|]. simpl. split; [|done].
      rewrite lookup_insert_ne by set_solver. eauto.
    + rsimpl. rewrite (ok_head _ _ _ O). by rewrite <- app_assoc, !first_app.
    + rsimpl. by rewrite final_snoc.
Qed.

Lemma list_add_list_ok m S L ls l : list_ok m S ls -> list_ok m L l -> ls ## l ->
  exists m' S' L', list_add_list m (Some S) L = Ok (m', Some S', L') /\ list_ok m' L' (l ++ ls) /\ list_ok m' S' [] /\
    touched l m m'.
Proof.
  intros OS O Hd. unfold list_add_list. destruct ls as [|c ls].
  { rewrite (ok_head _ _ _ OS). simpl. do 3 eexists. split; [reflexivity|]. rewrite app_nil_r. split_and!; try done.
    apply touched_refl. }
  destruct (cons_facts _ _ _ _ OS) as (Hh & Hc & _). rewrite Hh. null_test.
  assert (N' : NoDup (l ++ c :: ls)) by (apply NoDup_app; split_and!; [apply O|set_solver|apply OS]).
  assert (Z' : NULL ∉ l ++ c :: ls) by (pose proof (ok_null _ _ _ O); pose proof (ok_null _ _ _ OS); set_solver).
  assert (K' : nb_elements L + nb_elements S = Z.of_nat (length (l ++ c :: ls))).
  { rewrite length_app, (ok_count _ _ _ O), (ok_count _ _ _ OS). lia. }
  destruct (split_last l) as [-> |(l' & t & ->)].
  - rewrite (ok_tail _ _ _ O). simpl. do 3 eexists. split; [reflexivity|]. split_and!; [|by apply list_ok_init|apply touched_refl].
    split; try done; [apply OS|]. rsimpl. by rewrite (ok_tail _ _ _ OS).
  - destruct (snoc_facts _ _ _ _ O) as (Tt & Tn & Tl & Ts). rewrite Tt. null_test.
    destruct (set_next_ok (l' ++ [t]) m t c) as (bt & Hbt & -> & Ht2); [done|set_solver|]. simpl.
    do 3 eexists. split; [reflexivity|]. split_and!; [|by apply list_ok_init|done]. split; try done.
    + apply chain_app. split; [eapply chain_set_last; [done|done|apply O]|]. apply chain_insert; [set_solver|apply OS].
    + rsimpl. rewrite (ok_head _ _ _ O). by rewrite <- app_assoc, !first_app.
    + rsimpl. by rewrite final_app, (ok_tail _ _ _ OS), !final_cons.
Qed.
End LinkedList.
