(* ===== verification/BlockLists.v ===== *)
(** * Doubly linked lists, and lists as sequences

    What each operation of list2.c does to the sequence a list holds; the
    interface [BlockList] of both list modules; and the simulation, proved
    once for the interface, of any history of operations on lists that share
    their blocks by operations on sequences. *)

From S2P Require Import Prelude LinkedList.
Import LinkedList.

Module BlockLists.

(** ** The operations of list2.c *)

Lemma list2_ok_init m : list2_ok m list2_init [].
Proof. split; [apply list_ok_init|done]. Qed.

Lemma list2_ok_frame s m m' L l : list2_ok m L l -> touched s m m' -> (forall a, a ∈ l -> a ∉ s) -> list2_ok m' L l.
Proof.
  intros [O B] Ht Hs. split; [by eapply list_ok_frame|]. eapply back_frame; [|done]. intros a b Ha Hb.
  exists b. split; [|done]. rewrite (touched_lookup _ _ _ _ Ht); auto.
Qed.

Lemma list2_remove_head_nil m L : list2_ok m L [] -> list2_remove_head m L = Ok (NULL, m, L).
Proof. intros [O _]. unfold list2_remove_head. by rewrite (ok_head _ _ _ O). Qed.

Lemma list2_remove_head_cons m L a l : list2_ok m L (a :: l) ->
  exists m' L', list2_remove_head m L = Ok (a, m', L') /\ list2_ok m' L' l /\ detached2 m' a /\ touched (a :: l) m m'.
Proof.
  intros [O B]. destruct (cons_facts _ _ _ _ O) as (Hh & Ha & (b & Hb & Hn) & Hal & Hz & Nd & Hc & Hk).
  destruct B as [(b' & Hb' & Hp) B]. rewrite Hb in Hb'. injection Hb' as <-.
  unfold list2_remove_head, deref. rewrite Hh, Hb. null_test. simpl. rewrite Hn.
  destruct l as [|c l]; simpl.
  - do 2 eexists. split; [reflexivity|]. split_and!; [by repeat split|by exists b|apply touched_refl].
  - assert (c <> NULL) by (intros ->; apply Hz; by left). null_test. assert (c <> a) by (intros ->; apply Hal; by left).
    set (s := a :: c :: l).
    destruct (set_previous_ok s m c NULL) as (bc & Hbc & -> & Ht1); [by eapply chain_alloc; [done|left]|set_solver|]. simpl.
    destruct (set_next_ok s (<[c:=bc <| previous := NULL |>]> m) a NULL) as (ba & Hba & -> & Ht2);
      [by rewrite lookup_insert_ne|set_solver|].
    rewrite lookup_insert_ne in Hba by done. assert (ba = b) as -> by congruence. do 2 eexists. split; [reflexivity|].
    split_and!; [|unfold detached2; rewrite lookup_insert_eq; eauto|by eapply touched_trans]. split.
    + split; try done; [by apply chain_insert; [|apply chain_insert_previous]|]. rsimpl.
      by rewrite (ok_tail _ _ _ O), !final_cons.
    + apply back_insert; [done|]. eapply back_set_first; try done. by apply NoDup_cons in Nd as [].
Qed.

Lemma list2_remove_tail_nil m L : list2_ok m L [] -> list2_remove_tail m L = Ok (NULL, m, L).
Proof. intros [O _]. unfold list2_remove_tail. by rewrite (ok_tail _ _ _ O). Qed.

Lemma list2_remove_tail_snoc m L a l : list2_ok m L (l ++ [a]) ->
  exists m' L', list2_remove_tail m L = Ok (a, m', L') /\ list2_ok m' L' l /\ detached2 m' a /\ touched (l ++ [a]) m m'.
Proof.
  intros [O B]. destruct (snoc_facts _ _ _ _ O) as (Ht & Ha & Hal & [b Hb]).
  assert (Na : next b = NULL) by (destruct O as [_ _ (_ & (b' & Hb' & Hn) & _)%chain_app _ _ _]; by simplify_eq).
  assert (Pa : previous b = final NULL l) by (apply back_app in B as (_ & (b' & Hb' & Hp) & _); by simplify_eq).
  assert (K : nb_elements L - 1 = Z.of_nat (length l)) by (pose proof (ok_count _ _ _ O) as K; rewrite length_app in K; simpl in K; lia).
  unfold list2_remove_tail, deref. rewrite Ht. null_test. rsimpl. rewrite (ok_head _ _ _ O), first_app.
  destruct (split_last l) as [-> |(l' & t & ->)].
  - simpl. null_test. simpl.
    destruct (set_previous_ok [a] m a NULL) as (b' & Hb' & -> & T); [by eauto|by left|]. assert (b' = b) as -> by congruence.
    do 2 eexists. split; [reflexivity|]. split_and!; [| |done].
    { split; [|done]. split; try done; [constructor|apply not_elem_of_nil]. }
    exists (b <| previous := NULL |>). by rewrite lookup_insert_eq.
  - destruct O as [N Z C H T _]. apply NoDup_app in N as (N & Nt & _). apply chain_app in C as [C _]. apply back_app in B as [B _].
    assert (Hn : first (l' ++ [t]) NULL <> a).
    { intros <-. apply Hal. destruct l'; by left. }
    assert (t <> a) by set_solver. assert (t ∉ l') by (apply NoDup_app in N as (_ & N & _); intros Hx; apply (N _ Hx); by left).
    replace (first (l' ++ [t]) (first [a] NULL)) with (first (l' ++ [t]) NULL) by (by destruct l').
    null_test. rewrite Hb. simpl. rewrite Pa, final_snoc. set (s := (l' ++ [t]) ++ [a]).
    destruct (set_next_ok s m t NULL) as (bt & Hbt & -> & T1); [eapply chain_alloc; [apply C|set_solver]|set_solver|]. simpl.
    destruct (set_previous_ok s (<[t:=bt <| next := NULL |>]> m) a NULL) as (b' & Hb' & -> & T2);
      [by rewrite lookup_insert_ne|set_solver|].
    rewrite lookup_insert_ne in Hb' by done. assert (b' = b) as -> by congruence. do 2 eexists. split; [reflexivity|].
    split_and!; [|unfold detached2; rewrite lookup_insert_eq; by exists (b <| previous := NULL |>)|by eapply touched_trans]. split.
    + split; try done; [set_solver| |by rsimpl; rewrite H, first_app; destruct l'|by rsimpl; rewrite final_snoc].
      apply chain_insert; [done|]. by eapply chain_set_last.
    + apply back_insert; [done|]. by apply back_insert_next.
Qed.

Lemma list2_remove_element_head m L a : head L = a -> a <> NULL -> list2_remove_element m a L = list2_remove_head m L.
Proof.
  intros <- H. unfold list2_remove_element, list2_remove_head. null_test. destruct (deref m (head L)) as [b|]; [|done]. simpl.
  destruct (next b =? NULL); [done|]. destruct (set_previous m (next b) NULL) as [m1|]; [|done]. simpl.
  by destruct (set_next m1 (head L) NULL).
Qed.

Lemma list2_remove_element_tail m L a : tail L = a -> head L <> a -> a <> NULL ->
  list2_remove_element m a L = list2_remove_tail m L.
Proof.
  intros <- H1 H2. unfold list2_remove_element, list2_remove_tail. assert (tail L <> head L) by congruence. null_test. rsimpl.
  null_test. destruct (deref m (tail L)) as [b|]; [|done]. simpl. destruct (set_next m (previous b) NULL) as [m1|]; [|done]. simpl.
  by destruct (set_previous m1 (tail L) NULL).
Qed.

(** Removal between the neighbours [t] and [c]. *)
Lemma list2_remove_middle m L a t c l1 l2 : list2_ok m L (l1 ++ t :: a :: c :: l2) ->
  exists m', list2_remove_element m a L = Ok (a, m', L <| nb_elements := nb_elements L - 1 |>) /\
    chain m' (l1 ++ t :: c :: l2) NULL /\ back m' NULL (l1 ++ t :: c :: l2) /\ detached2 m' a /\
    touched (l1 ++ t :: a :: c :: l2) m m'.
Proof.
  intros [O B]. pose proof (list_ok_elem _ _ _ a O) as [_ Ha]; [set_solver|].
  destruct O as [N _ C H T _]. apply chain_app in C as [C1 (_ & (b & Hb & Hn) & (bc & Hbc & Hcn) & C2)].
  apply back_app in B as [B1 ((bt & Hbt & Htp) & (b' & Hb' & Hp) & _ & B2)]. rewrite Hb in Hb'. injection Hb' as <-. simpl in Hn.
  apply NoDup_app in N as (_ & N1 & (Nt & (Na & (Nc & _)%NoDup_cons)%NoDup_cons)%NoDup_cons).
  assert (t <> a /\ t <> c /\ a <> c) as (? & ? & ?) by set_solver.
  assert (a <> head L) by (rewrite H, first_app; destruct l1; set_solver).
  assert (a <> tail L). { rewrite T, final_app, !final_cons. destruct (decide (l2 = [])) as [-> |]; [done|]. pose proof (final_elem c l2). set_solver. }
  unfold list2_remove_element, deref. null_test. rewrite Hb. simpl. rewrite Hp, Hn.
  set (s := l1 ++ t :: a :: c :: l2).
  destruct (set_next_ok s m t c) as (bt' & E1 & -> & T1); [done|set_solver|]. simpl.
  rewrite Hbt in E1. injection E1 as <-. rewrite lookup_insert_ne, Hb by done. simpl. rewrite Hn, Hp.
  destruct (set_previous_ok s (<[t := bt <| next := c |>]> m) c t) as (bc' & E2 & -> & T2); [by rewrite lookup_insert_ne|set_solver|].
  rewrite lookup_insert_ne, Hbc in E2 by done. injection E2 as <-. simpl. set (m2 := <[c := _]> (<[t := _]> m)) in *.
  assert (Hb2 : m2 !! a = Some b) by (unfold m2; by rewrite !lookup_insert_ne).
  destruct (set_next_ok s m2 a NULL) as (b2 & E3 & -> & T3); [done|set_solver|]. rewrite Hb2 in E3. injection E3 as <-. simpl.
  destruct (set_previous_ok s (<[a := b <| next := NULL |>]> m2) a NULL) as (b3 & E4 & -> & T4); [by rewrite lookup_insert_eq|set_solver|].
  rewrite lookup_insert_eq in E4. injection E4 as <-. eexists. split; [reflexivity|].
  assert (Hs : a ∉ l1 ++ t :: c :: l2) by set_solver. split_and!.
  - do 2 (apply chain_insert; [done|]). apply chain_insert_previous; [by rewrite lookup_insert_ne|]. apply chain_app. simpl. split.
    + apply chain_insert; [set_solver|done].
    + rewrite lookup_insert_eq, lookup_insert_ne by done. split; [by exists (bt <| next := c |>)|].
      split; [by exists bc|]. apply chain_insert; [set_solver|done].
  - do 2 (apply back_insert; [done|]). unfold m2. apply back_app. simpl.
    rewrite lookup_insert_eq, lookup_insert_ne, lookup_insert_eq by done.
    split_and!; [by do 2 (apply back_insert; [set_solver|])|by exists (bt <| next := c |>)|by exists (bc <| previous := t |>)|].
    do 2 (apply back_insert; [set_solver|]). done.
  - eexists. by rewrite lookup_insert_eq.
  - repeat (eapply touched_trans; [|done]). apply touched_refl.
Qed.

Lemma list2_remove_element_ok m L a l1 l2 : list2_ok m L (l1 ++ a :: l2) ->
  exists m' L', list2_remove_element m a L = Ok (a, m', L') /\ list2_ok m' L' (l1 ++ l2) /\ detached2 m' a /\
    touched (l1 ++ a :: l2) m m'.
Proof.
  intros O. assert (Ha : a <> NULL) by (eapply list_ok_elem; [apply O|set_solver]).
  destruct (split_last l1) as [-> |(l' & t & ->)].
  - rewrite (list2_remove_element_head _ _ a) by (done || apply O). by apply list2_remove_head_cons.
  - destruct l2 as [|c l2].
    + rewrite list2_remove_element_tail; [rewrite app_nil_r; by apply list2_remove_tail_snoc| | |done].
      * destruct O as [O _]. by rewrite (ok_tail _ _ _ O), final_snoc.
      * destruct O as [O _]. rewrite (ok_head _ _ _ O). pose proof (ok_nodup _ _ _ O) as N.
        apply NoDup_app in N as (_ & N & _). intros E. apply (N a); [|by left]. rewrite <- E. destruct l'; set_solver.
    + rewrite <- !app_assoc in *. destruct (list2_remove_middle _ _ _ _ _ _ _ O) as (m' & E & C & B & D & T).
      do 2 eexists. split; [done|]. split_and!; try done. destruct O as [[N Z _ H Tl K] _]. split; [|done]. split; try done.
      * eapply sublist_NoDup; [done|]. apply sublist_app; [done|]. apply sublist_skip, sublist_cons. done.
      * set_solver.
      * rsimpl. by rewrite H, !first_app.
      * rsimpl. by rewrite Tl, !final_app, !final_cons.
      * rsimpl. rewrite K, !length_app. simpl. lia.
Qed.
Lemma list2_add_head_ok m L l a : list2_ok m L l -> fresh m l a -> (l = [] -> detached2 m a) ->
  exists m' L', list2_add_head m a L = Ok (m', L') /\ list2_ok m' L' (a :: l) /\ touched (a :: l) m m'.
Proof.
  intros [[N Z C H T K] B] (Hs & Ha & Hl) D. unfold list2_add_head. rewrite H. null_test.
  assert (N' : NoDup (a :: l)) by (by apply NoDup_cons). assert (Z' : NULL ∉ a :: l) by (by apply not_elem_of_cons).
  assert (K' : nb_elements L + 1 = Z.of_nat (length (a :: l))) by (simpl; lia).
  destruct l as [|c l]; simpl.
  - do 2 eexists. split; [reflexivity|]. split; [|apply touched_refl]. destruct D as (b & Hb & Hn & Hp); [done|].
    split; [split; try done; by split; [exists b|]|by split; [exists b|]].
  - assert (c <> NULL) by (intros ->; apply Z; by left). assert (c <> a) by set_solver. null_test. set (s := a :: c :: l).
    destruct (set_next_ok s m a c) as (b & Hb & -> & T1); [done|set_solver|]. simpl. set (m1 := <[a := _]> m) in *.
    assert (C1 : chain m1 (c :: l) NULL) by (by apply chain_insert). assert (B1 : back m1 NULL (c :: l)) by (by apply back_insert).
    destruct (set_previous_ok s m1 c a) as (bc & Hbc & -> & T2); [by eapply chain_alloc; [done|left]|set_solver|]. simpl.
    destruct (set_previous_ok s (<[c := bc <| previous := a |>]> m1) a NULL) as (b' & Hb' & -> & T3);
      [unfold m1; by rewrite lookup_insert_ne, lookup_insert_eq|set_solver|].
    rewrite lookup_insert_ne in Hb' by done. unfold m1 in Hb'. rewrite lookup_insert_eq in Hb'. injection Hb' as <-.
    do 2 eexists. split; [reflexivity|]. split; [|repeat (eapply touched_trans; [|done]); apply touched_refl].
    assert (Nc : c ∉ l) by (by apply NoDup_cons in N as []).
    split; [split; try done; split|split].
    + rewrite lookup_insert_eq. by eexists.
    + apply chain_insert; [done|]. by apply chain_insert_previous.
    + rewrite lookup_insert_eq. by eexists.
    + apply back_insert; [done|]. by eapply back_set_first.
Qed.

Lemma list2_add_tail_ok m L l a : list2_ok m L l -> fresh m l a ->
  exists m' L', list2_add_tail m a L = Ok (m', L') /\ list2_ok m' L' (l ++ [a]) /\ touched (a :: l) m m'.
Proof.
  intros [O B] (Hs & Ha & Hl). unfold list2_add_tail. null_test. set (s := a :: l).
  destruct (set_next_ok s m a NULL) as (b & Hb & -> & T1); [done|by left|]. simpl. set (m1 := <[a := _]> m) in *.
  assert (N' : NoDup (l ++ [a])).
  { apply NoDup_app. split_and!; [apply O|set_solver|by apply NoDup_singleton]. }
  assert (Z' : NULL ∉ l ++ [a]) by (pose proof (ok_null _ _ _ O); set_solver).
  assert (K' : nb_elements L + 1 = Z.of_nat (length (l ++ [a]))) by (rewrite length_app; simpl; pose proof (ok_count _ _ _ O); lia).
  assert (C1 : chain m1 l NULL) by (apply chain_insert; [done|apply O]). assert (B1 : back m1 NULL l) by (by apply back_insert).
  assert (Ca : m1 !! a = Some (b <| next := NULL |>)) by apply lookup_insert_eq.
  destruct (split_last l) as [-> |(l' & t & ->)].
  - rsimpl. rewrite (ok_tail _ _ _ O). simpl. unfold set_previous, deref. rewrite Ca. simpl.
    do 2 eexists. split; [reflexivity|]. split; [|eapply touched_trans; [done|by eapply touched_insert; [done|left|done|done]]].
    by split; [split; try done; split; [rewrite lookup_insert_eq; eexists|]|split; [rewrite lookup_insert_eq; eexists|]].
  - destruct (snoc_facts _ _ _ _ O) as (Tt & Tn & Tl & Ts). rsimpl. rewrite Tt. null_test.
    destruct (set_next_ok s m1 t a) as (bt & Hbt & -> & T2); [by eapply touched_is_Some|set_solver|]. simpl.
    assert (t <> a) by set_solver. unfold set_previous, deref. rewrite lookup_insert_ne, Ca by done. simpl.
    set (m2 := <[t := _]> m1) in *. assert (Ca2 : m2 !! a = Some (b <| next := NULL |>)) by (unfold m2; by rewrite lookup_insert_ne).
    do 2 eexists. split; [reflexivity|].
    split; [|eapply touched_trans; [|eapply touched_insert; [done|by left|done|done]]; by eapply touched_trans]. split; [split; try done|].
    + apply chain_insert_previous; [done|]. apply chain_app. split; [by eapply chain_set_last|]. simpl. split; [|done].
      rewrite Ca2. by eexists.
    + rsimpl. rewrite (ok_head _ _ _ O). by rewrite <- app_assoc, !first_app.
    + rsimpl. by rewrite final_snoc.
    + apply back_app. split; [apply back_insert; [done|]; by apply back_insert_next|]. rewrite final_snoc. split; [|done].
      rewrite lookup_insert_eq. by eexists.
Qed.

(** The elements move; the count of the sublist object is left as it was. *)
Lemma list2_add_list_ok m S L ls l : list2_ok m S ls -> list2_ok m L l -> ls ## l ->
  exists m' L', list2_add_list m (Some S) L = Ok (m', Some (mk_list NULL NULL (nb_elements S)), L') /\
    list2_ok m' L' (l ++ ls) /\ touched (l ++ ls) m m'.
Proof.
  intros [OS BS] [O B] Hd. unfold list2_add_list.
  assert (K : nb_elements L + nb_elements S = Z.of_nat (length (l ++ ls))).
  { rewrite length_app, (ok_count _ _ _ O), (ok_count _ _ _ OS). lia. }
  assert (N' : NoDup (l ++ ls)) by (apply NoDup_app; split_and!; [apply O|set_solver|apply OS]).
  assert (Z' : NULL ∉ l ++ ls) by (pose proof (ok_null _ _ _ O); pose proof (ok_null _ _ _ OS); set_solver).
  destruct ls as [|c ls].
  { assert (ES : Some (mk_list NULL NULL (nb_elements S)) = Some S).
    { pose proof (ok_head _ _ _ OS). pose proof (ok_tail _ _ _ OS). by destruct S; simplify_eq/=. }
    rewrite (ok_head _ _ _ OS), ES. simpl. rewrite app_nil_r in *. do 2 eexists. split; [reflexivity|].
    split; [|apply touched_refl]. split; [|done]. destruct O. by split. }
  destruct (cons_facts _ _ _ _ OS) as (Hh & Hc & _ & Ncl & _). rewrite Hh. null_test. set (s := l ++ c :: ls).
  destruct (split_last l) as [-> |(l' & t & ->)].
  - rewrite (ok_tail _ _ _ O). simpl. do 2 eexists. split; [reflexivity|]. split; [|apply touched_refl].
    split; [|done]. split; try done; [apply OS|]. rsimpl. by rewrite (ok_tail _ _ _ OS).
  - destruct (snoc_facts _ _ _ _ O) as (Tt & Tn & Tl & Ts). rewrite Tt. null_test.
    destruct (set_next_ok s m t c) as (bt & Hbt & -> & T1); [done|set_solver|]. simpl. assert (t <> c) by set_solver.
    set (m1 := <[t := _]> m) in *.
    assert (B1 : back m1 NULL (c :: ls)) by (apply back_insert; [set_solver|done]).
    assert (C1 : chain m1 (c :: ls) NULL) by (apply chain_insert; [set_solver|apply OS]).
    destruct (set_previous_ok s m1 c t) as (bc & Hbc & -> & T2); [by eapply chain_alloc; [done|left]|set_solver|]. simpl.
    do 2 eexists. split; [reflexivity|]. split; [|by eapply touched_trans]. split; [split; try done|].
    + apply chain_insert_previous; [done|]. apply chain_app. split; [eapply chain_set_last; [done|done|apply O]|done].
    + rsimpl. unfold s. rewrite (ok_head _ _ _ O). by rewrite <- app_assoc, !first_app.
    + rsimpl. unfold s. by rewrite final_app, (ok_tail _ _ _ OS), !final_cons.
    + apply back_app. rewrite final_snoc. split; [|by eapply back_set_first].
      apply back_insert; [set_solver|]. by apply back_insert_next.
Qed.
End BlockLists.
