(* ===== verification/ListRefinement.v ===== *)
(** * Lists of blocks as sequences

    [BlockListOps] is what list.c and list2.c offer to their clients and
    [BlockListLaws] what they promise of it, on the sequences of [LinkedList];
    [list_laws] and [list2_laws] discharge the promise. Against the interface,
    any history of operations on lists that share one store of blocks is
    simulated by operations on sequences ([history_simulates]). *)

From S2P Require Import Prelude LinkedList BlockLists.
Import LinkedList BlockLists.

Module ListRefinement.

Class BlockListOps := {
  bl_init : list_t;
  bl_remove_head : store -> list_t -> res (Z * store * list_t);
  bl_remove_element : store -> Z -> list_t -> res (Z * store * list_t);
  bl_add_head : store -> Z -> list_t -> res (store * list_t);
  bl_add_tail : store -> Z -> list_t -> res (store * list_t);
  bl_add_list : store -> option list_t -> list_t -> res (store * option list_t * list_t)
}.

(** [clean] is what a block must be to start a list with [bl_add_head];
    [cleans l a] says whether the removal of [a] from [l] leaves it so. *)
Class BlockListLaws (O : BlockListOps) := {
  holds : store -> list_t -> list Z -> Prop;
  clean : store -> Z -> Prop;
  cleans : list Z -> Z -> bool;
  holds_init m : holds m bl_init [];
  holds_frame s m m' L l : holds m L l -> touched s m m' -> (forall a, a ∈ l -> a ∉ s) -> holds m' L l;
  holds_nodup m L l : holds m L l -> NoDup l;
  clean_frame s m m' a : clean m a -> touched s m m' -> a ∉ s -> clean m' a;
  remove_head_nil m L : holds m L [] -> bl_remove_head m L = Ok (NULL, m, L);
  remove_head_cons m L a l : holds m L (a :: l) -> exists m' L',
    bl_remove_head m L = Ok (a, m', L') /\ holds m' L' l /\ clean m' a /\ touched (a :: l) m m';
  remove_element_ok m L a l1 l2 : holds m L (l1 ++ a :: l2) -> exists m' L',
    bl_remove_element m a L = Ok (a, m', L') /\ holds m' L' (l1 ++ l2) /\
    (cleans (l1 ++ a :: l2) a = true -> clean m' a) /\ touched (l1 ++ a :: l2) m m';
  add_head_ok m L l a : holds m L l -> fresh m l a -> (l = [] -> clean m a) -> exists m' L',
    bl_add_head m a L = Ok (m', L') /\ holds m' L' (a :: l) /\ touched (a :: l) m m';
  add_tail_ok m L l a : holds m L l -> fresh m l a -> exists m' L',
    bl_add_tail m a L = Ok (m', L') /\ holds m' L' (l ++ [a]) /\ touched (a :: l) m m';
  add_list_ok m S L ls l : holds m S ls -> holds m L l -> ls ## l -> exists m' S' L',
    bl_add_list m (Some S) L = Ok (m', Some S', L') /\ holds m' L' (l ++ ls) /\ touched (l ++ ls) m m'
}.

#[export] Instance list_ops : BlockListOps := {|
  bl_init := list_init;
  bl_remove_head := list_remove_head;
  bl_remove_element := list_remove_element;
  bl_add_head := list_add_head;
  bl_add_tail := list_add_tail_eurecom;
  bl_add_list := list_add_list
|}.

#[export] Instance list2_ops : BlockListOps := {|
  bl_init := list2_init;
  bl_remove_head := list2_remove_head;
  bl_remove_element := list2_remove_element;
  bl_add_head := list2_add_head;
  bl_add_tail := list2_add_tail;
  bl_add_list := list2_add_list
|}.

Lemma detached_frame s m m' a : detached m a -> touched s m m' -> a ∉ s -> detached m' a.
Proof. intros (b & Hb & Hn) T Ha. exists b. by rewrite (touched_lookup _ _ _ _ T). Qed.

Lemma detached2_frame s m m' a : detached2 m a -> touched s m m' -> a ∉ s -> detached2 m' a.
Proof. intros (b & Hb & Hn) T Ha. exists b. by rewrite (touched_lookup _ _ _ _ T). Qed.

Ltac weaken_touched :=
  match goal with H : touched ?s ?m ?m' |- touched ?s' ?m ?m' => apply (touched_weaken s); [set_solver|exact H] end.

#[export] Instance list_laws : BlockListLaws list_ops.
Proof.
  refine {| holds := list_ok; clean := detached; cleans := unlinks |}; simpl.
  - apply list_ok_init.
  - apply list_ok_frame.
  - by intros ??? [].
  - apply detached_frame.
  - apply list_remove_head_nil.
  - intros m L a l O. destruct (list_remove_head_cons _ _ _ _ O) as (m' & L' & ?). exists m', L'. destruct_and!. split_and!; try done. weaken_touched.
  - intros m L a l1 l2 O. destruct (list_remove_element_ok _ _ _ _ _ O) as (m' & L' & ?). exists m', L'. destruct_and!. split_and!; try done. weaken_touched.
  - intros m L l a O F D. destruct (list_add_head_ok _ _ _ _ O F D) as (m' & L' & ?). exists m', L'. destruct_and!. split_and!; try done. weaken_touched.
  - apply list_add_tail_ok.
  - intros m S L ls l OS O D. destruct (list_add_list_ok _ _ _ _ _ OS O D) as (m' & S' & L' & ?). exists m', S', L'. destruct_and!. split_and!; try done. weaken_touched.
Defined.

#[export] Instance list2_laws : BlockListLaws list2_ops.
Proof.
  refine {| holds := list2_ok; clean := detached2; cleans _ _ := true |}; simpl.
  - apply list2_ok_init.
  - apply list2_ok_frame.
  - by intros ??? [[] _].
  - apply detached2_frame.
  - apply list2_remove_head_nil.
  - apply list2_remove_head_cons.
  - intros m L a l1 l2 O. destruct (list2_remove_element_ok _ _ _ _ _ O) as (m' & L' & ?). exists m', L'. by destruct_and!.
  - apply list2_add_head_ok.
  - apply list2_add_tail_ok.
  - intros m S L ls l OS O D. destruct (list2_add_list_ok _ _ _ _ _ OS O D) as (m' & L' & ?). eauto.
Defined.

(** ** Histories on a store with several lists *)

Inductive list_op : Type :=
| Init (id : Z)
| AddHead (a id : Z)
| AddTail (a id : Z)
| RemoveHead (id : Z)
| RemoveElement (a id : Z)
| AddList (sub id : Z).

Record lists_state : Type := mk_lists { blocks : store; lists : gmap Z list_t }.

Section History.
Context {O : BlockListOps}.

(** One operation, with the pointer it returns ([NULL] for a [void] one). *)
Definition exec (c : lists_state) (o : list_op) : res (Z * lists_state) :=
  let obj id := of_option OutOfBounds (lists c !! id) in
  match o with
  | Init id => Ok (NULL, mk_lists (blocks c) (<[id := bl_init]> (lists c)))
  | AddHead a id =>
      L ← obj id; '(m, L') ← bl_add_head (blocks c) a L; Ok (NULL, mk_lists m (<[id := L']> (lists c)))
  | AddTail a id =>
      L ← obj id; '(m, L') ← bl_add_tail (blocks c) a L; Ok (NULL, mk_lists m (<[id := L']> (lists c)))
  | RemoveHead id =>
      L ← obj id; '(r, m, L') ← bl_remove_head (blocks c) L; Ok (r, mk_lists m (<[id := L']> (lists c)))
  | RemoveElement a id =>
      L ← obj id; '(r, m, L') ← bl_remove_element (blocks c) a L; Ok (r, mk_lists m (<[id := L']> (lists c)))
  | AddList sub id =>
      S ← obj sub; L ← obj id;
      '(m, S', L') ← bl_add_list (blocks c) (Some S) L;
      Ok (NULL, mk_lists m (<[id := L']> (<[sub := default S S']> (lists c))))
  end.

Fixpoint exec_all (c : lists_state) (os : list list_op) : res (list Z * lists_state) :=
  match os with
  | [] => Ok ([], c)
  | o :: os => '(r, c1) ← exec c o; '(rs, c2) ← exec_all c1 os; Ok (r :: rs, c2)
  end.

(** The same on sequences. [stale] are the blocks off every list whose links
    were left as they were. A step is defined when the lists exist, a block
    to add is off every list, and an empty list is not started by
    [AddHead] with a stale block. *)
Record seqs : Type := mk_seqs { universe : gset Z; seq_of : gmap Z (list Z); stale : gset Z }.

Definition off_lists (s : seqs) (a : Z) : Prop := a ∈ universe s /\ map_Forall (fun _ l => a ∉ l) (seq_of s).
#[global] Instance off_lists_dec s a : Decision (off_lists s a).
Proof. unfold off_lists. apply _. Defined.

Context {W : BlockListLaws O}.

Definition spec_step (s : seqs) (o : list_op) : option (Z * seqs) :=
  let put id l st := mk_seqs (universe s) (<[id := l]> (seq_of s)) st in
  match o with
  | Init id => guard (seq_of s !! id = None);; Some (NULL, put id [] (stale s))
  | AddHead a id =>
      l ← seq_of s !! id; guard (off_lists s a);; guard (l = [] -> a ∉ stale s);;
      Some (NULL, put id (a :: l) (stale s ∖ {[a]}))
  | AddTail a id =>
      l ← seq_of s !! id; guard (off_lists s a);; Some (NULL, put id (l ++ [a]) (stale s ∖ {[a]}))
  | RemoveHead id =>
      l ← seq_of s !! id;
      match l with [] => Some (NULL, s) | a :: r => Some (a, put id r (stale s)) end
  | RemoveElement a id =>
      l ← seq_of s !! id; guard (a ∈ l);;
      Some (a, put id (filter (fun x => x <> a) l) (if cleans l a then stale s else stale s ∪ {[a]}))
  | AddList sub id =>
      guard (sub <> id);; ls ← seq_of s !! sub; l ← seq_of s !! id;
      Some (NULL, mk_seqs (universe s) (<[id := l ++ ls]> (delete sub (seq_of s))) (stale s))
  end.

Fixpoint spec_all (s : seqs) (os : list list_op) : option (list Z * seqs) :=
  match os with
  | [] => Some ([], s)
  | o :: os => '(r, s1) ← spec_step s o; '(rs, s2) ← spec_all s1 os; Some (r :: rs, s2)
  end.

(** ** The simulation *)

Record represents (c : lists_state) (s : seqs) : Prop := {
  rep_universe : universe s = dom (blocks c);
  rep_null : NULL ∉ universe s;
  rep_holds id l : seq_of s !! id = Some l -> exists L, lists c !! id = Some L /\ holds (blocks c) L l;
  rep_member id l a : seq_of s !! id = Some l -> a ∈ l -> a ∈ universe s /\ a ∉ stale s;
  rep_disjoint id id' l l' : id <> id' -> seq_of s !! id = Some l -> seq_of s !! id' = Some l' -> l ## l';
  rep_clean a : off_lists s a -> a ∉ stale s -> clean (blocks c) a
}.

Lemma touched_dom t m m' : touched t m m' -> dom m' =@{gset Z} dom m.
Proof.
  intros T. apply set_eq. intros a. rewrite !elem_of_dom. specialize (T a). destruct (m !! a), (m' !! a); try done; by rewrite ?is_Some_alt.
Qed.

Lemma off_insert s id l l' st x : seq_of s !! id = Some l -> off_lists (mk_seqs (universe s) (<[id := l']> (seq_of s)) st) x ->
  x ∉ l' /\ (x ∉ l -> off_lists s x).
Proof.
  intros Hl [Hu Hf]. simpl in *. split; [apply (Hf id); by rewrite lookup_insert_eq|]. intros Hx. split; [done|].
  intros id' l'' H. destruct (decide (id' = id)) as [->|]; [by simplify_eq|]. apply (Hf id'). by rewrite lookup_insert_ne.
Qed.

Lemma represents_update c s id l t m' L' l' st' :
  represents c s -> seq_of s !! id = Some l -> touched t (blocks c) m' -> holds m' L' l' ->
  (forall x, x ∈ t -> x ∈ l \/ off_lists s x) ->
  (forall x, x ∈ l' -> x ∈ l \/ off_lists s x) ->
  (forall x, x ∈ st' -> x ∉ l' /\ (x ∈ stale s \/ x ∈ l)) ->
  (forall a, off_lists (mk_seqs (universe s) (<[id := l']> (seq_of s)) st') a -> a ∉ st' ->
    clean m' a \/ (off_lists s a /\ a ∉ stale s /\ a ∉ t)) ->
  represents (mk_lists m' (<[id := L']> (lists c))) (mk_seqs (universe s) (<[id := l']> (seq_of s)) st').
Proof.
  intros [U N H M D C] Hl T Hh Ht Hm Hs Hc.
  assert (Off : forall id' l'' x, id' <> id -> seq_of s !! id' = Some l'' -> x ∈ l'' -> x ∈ l \/ off_lists s x -> False).
  { intros id' l'' x Hn Hl'' Hx [Hx'|[_ Hf]]; [by eapply (D id' id l'' l)|by eapply Hf]. }
  split; simpl.
  - by rewrite U, (touched_dom _ _ _ T).
  - done.
  - intros id' l'' E. destruct (decide (id' = id)) as [->|]; rewrite ?lookup_insert_eq, ?lookup_insert_ne in * by done; [simplify_eq; eauto|].
    destruct (H _ _ E) as (L & HL & HH). exists L. split; [done|]. eapply holds_frame; [done..|]. intros a Ha Hat.
    eapply Off; [done..|]. auto.
  - intros id' l'' a E Ha. destruct (decide (id' = id)) as [->|]; rewrite ?lookup_insert_eq, ?lookup_insert_ne in * by done.
    + injection E as <-. split; [|intros Hx; by apply Hs in Hx as []]. destruct (Hm a Ha) as [Hx|[Hx _]]; [by eapply M|done].
    + split; [by eapply M|]. intros Hx. destruct (Hs a Hx) as [_ [Hx'|Hx']]; [by eapply M|by eapply (D id' id l'' l)].
  - intros i j li lj Hij Ei Ej. destruct (decide (i = id)) as [->|], (decide (j = id)) as [->|];
      rewrite ?lookup_insert_eq, ?lookup_insert_ne in * by done; simplify_eq.
    + intros x Hx Hx'. eapply Off; [done..|]. auto.
    + intros x Hx Hx'. eapply Off; [done..|]. auto.
    + by eapply (D i j).
  - intros a Ha Hn. destruct (Hc a Ha Hn) as [?|(Ho & Hst & Hat)]; [done|]. eapply clean_frame; [|done..]. by apply C.
Qed.

Lemma represents_forget c s id l : represents c s -> seq_of s !! id = Some l ->
  represents c (mk_seqs (universe s) (delete id (seq_of s)) (stale s ∪ list_to_set l)).
Proof.
  intros [U N H M D C] Hl. split; simpl; try done.
  - intros id' l' E. apply lookup_delete_Some in E as [? E]. eauto.
  - intros id' l' a E Ha. apply lookup_delete_Some in E as [Hn E]. destruct (M _ _ _ E Ha). split; [done|].
    pose proof (D id' id l' l). set_solver.
  - intros i j li lj Hij Ei Ej. apply lookup_delete_Some in Ei as [? Ei]. apply lookup_delete_Some in Ej as [? Ej]. eauto.
  - intros a [Hu Hf] Hn. simpl in *. apply C; [|set_solver]. split; [done|]. intros id' l' E.
    destruct (decide (id' = id)) as [->|]; [set_solver|]. apply (Hf id'). by rewrite lookup_delete_ne.
Qed.

Lemma filter_absent (l : list Z) a : a ∉ l -> filter (fun x => x <> a) l = l.
Proof.
  induction l as [|x l IH]; [done|]. intros [Hx Hl]%not_elem_of_cons. rewrite filter_cons_True by done. by rewrite IH.
Qed.

Lemma filter_split (l1 l2 : list Z) a : NoDup (l1 ++ a :: l2) -> filter (fun x => x <> a) (l1 ++ a :: l2) = l1 ++ l2.
Proof.
  intros (N1 & N2 & [N3 N4]%NoDup_cons)%NoDup_app. rewrite filter_app, filter_cons_False by naive_solver.
  f_equal; apply filter_absent; [|done]. intros Ha. apply (N2 a Ha). by left.
Qed.

Lemma represents_fresh c s id l a : represents c s -> seq_of s !! id = Some l -> off_lists s a -> fresh (blocks c) l a.
Proof.
  intros R Hl [Hu Hf]. split_and!.
  - apply elem_of_dom. by rewrite <- (rep_universe _ _ R).
  - intros ->. by apply (rep_null _ _ R).
  - by apply (Hf id).
Qed.

(** A step on sequences that is defined is a step of the lists. *)
Notation simulated o := (forall c s r s', represents c s -> spec_step s o = Some (r, s') ->
  exists c', exec c o = Ok (r, c') /\ represents c' s').

Lemma init_simulated id : simulated (Init id).
Proof.
  intros c s r s' R E. simpl in *. simplify_option_eq. eexists. split; [reflexivity|]. destruct R as [U N Hh M D C]. split; simpl; try done.
  - intros id' l'. rewrite !lookup_insert. case_decide; [intros [= <-]; eexists; split; [done|apply holds_init]|apply Hh].
  - intros id' l' x. rewrite lookup_insert. case_decide; [by intros [= <-] ?%elem_of_nil|apply M].
  - intros i j li lj Hij. rewrite !lookup_insert. do 2 case_decide; try (intros [= <-] || intros ? [= <-]); try set_solver.
  - intros x [Hu Hf] Hx. apply C; [|done]. split; [done|]. intros id' l' E. apply (Hf id'). simpl. rewrite lookup_insert_ne; [done|congruence].
Qed.

Lemma add_head_simulated a id : simulated (AddHead a id).
Proof.
  intros c s r s' R E. simpl in *. destruct (seq_of s !! id) as [l|] eqn:El; [|done]. simpl in E. apply bind_Some in E as (Ha & _ & (Hst & _ & [= <- <-])%bind_Some).
  destruct (rep_holds _ _ R id _ El) as (L & -> & Hh). simpl.
  destruct (add_head_ok _ _ _ a Hh) as (m' & L' & -> & Hh' & T).
  { by eapply represents_fresh. } { intros ->. apply (rep_clean _ _ R); auto. }
  eexists. split; [reflexivity|]. eapply represents_update; try done; simpl.
  - intros x [->|]%elem_of_cons; auto.
  - intros x [->|]%elem_of_cons; auto.
  - intros x. pose proof (rep_member _ _ R id _ x El). set_solver.
  - intros x Hx Hn. apply (off_insert _ _ _ _ _ _ El) in Hx as [? Hx]. right. set_solver.
Qed.

Lemma add_tail_simulated a id : simulated (AddTail a id).
Proof.
  intros c s r s' R E. simpl in *. destruct (seq_of s !! id) as [l|] eqn:El; [|done]. simplify_option_eq.
  destruct (rep_holds _ _ R id _ El) as (L & -> & Hh). simpl.
  destruct (add_tail_ok _ _ _ a Hh) as (m' & L' & -> & Hh' & T). { by eapply represents_fresh. }
  eexists. split; [reflexivity|]. eapply represents_update; try done; simpl.
  - intros x [->|]%elem_of_cons; auto.
  - intros x [| ->%list_elem_of_singleton]%elem_of_app; auto.
  - intros x. pose proof (rep_member _ _ R id _ x El). set_solver.
  - intros x Hx Hn. apply (off_insert _ _ _ _ _ _ El) in Hx as [? Hx]. right. set_solver.
Qed.

Lemma remove_head_simulated id : simulated (RemoveHead id).
Proof.
  intros c s r s' R E. simpl in *. destruct (seq_of s !! id) as [l|] eqn:El; [|done]. simpl in E.
  destruct (rep_holds _ _ R id _ El) as (L & HL & Hh). rewrite HL. simpl. destruct l as [|a l]; simplify_eq.
  - rewrite (remove_head_nil _ _ Hh). simpl. eexists. split; [reflexivity|]. by rewrite insert_id; destruct c.
  - destruct (remove_head_cons _ _ _ _ Hh) as (m' & L' & -> & Hh' & Hc & T). eexists. split; [reflexivity|].
    eapply represents_update; try done; simpl.
    + auto.
    + intros x Hx. left. by right.
    + intros x Hx. pose proof (rep_member _ _ R id _ x El). set_solver.
    + intros x Hx Hn. apply (off_insert _ _ _ _ _ _ El) in Hx as [? Hx]. destruct (decide (x = r)) as [->|]; [by left|].
      right. set_solver.
Qed.

Lemma remove_element_simulated a id : simulated (RemoveElement a id).
Proof.
  intros c s r s' R E. simpl in *. destruct (seq_of s !! id) as [l|] eqn:El; [|done]. simplify_option_eq.
  destruct (rep_holds _ _ R id _ El) as (L & HL & Hh). rewrite HL. simpl.
  apply list_elem_of_split in H as (l1 & l2 & ->). pose proof (holds_nodup _ _ _ Hh) as N. rewrite (filter_split _ _ _ N).
  destruct (remove_element_ok _ _ _ _ _ Hh) as (m' & L' & -> & Hh' & Hc & T). eexists. split; [reflexivity|].
  pose proof (rep_member _ _ R id _ r El). assert (r ∉ l1 ++ l2) by (apply NoDup_app in N as (? & ? & [? ?]%NoDup_cons); set_solver).
  eapply represents_update; try done; simpl.
  - auto.
  - intros x Hx. left. set_solver.
  - intros x Hx. pose proof (rep_member _ _ R id _ x El). destruct (cleans _ _); set_solver.
  - intros x Hx Hn. apply (off_insert _ _ _ _ _ _ El) in Hx as [? Hx]. destruct (decide (x = r)) as [->|].
    + left. apply Hc. destruct (cleans _ _); [done|]. set_solver.
    + right. assert (x ∉ l1 ++ r :: l2) by set_solver. split_and!; [auto| |done]. destruct (cleans _ _); set_solver.
Qed.

Lemma add_list_simulated sub id : simulated (AddList sub id).
Proof.
  intros c s r s' R E. simpl in *. apply bind_Some in E as (Hn & _ & E). destruct (seq_of s !! sub) as [ls|] eqn:Es; [|done]. simpl in *.
  destruct (seq_of s !! id) as [l|] eqn:El; [|done]. simplify_eq/=.
  destruct (rep_holds _ _ R _ _ Es) as (S & HS & Hhs). destruct (rep_holds _ _ R _ _ El) as (L & HL & Hh). rewrite HS, HL. simpl.
  destruct (add_list_ok _ _ _ _ _ Hhs Hh) as (m' & S' & L' & -> & Hh' & T). { by eapply (rep_disjoint _ _ R). }
  eexists. split; [reflexivity|]. simpl. pose proof (represents_forget _ _ _ _ R Es) as R1.
  assert (R2 : represents (mk_lists (blocks c) (<[sub := S']> (lists c))) (mk_seqs (universe s) (delete sub (seq_of s)) (stale s ∪ list_to_set ls))).
  { destruct R1 as [U N H M D C]. split; try done. simpl. intros i li Ei. pose proof Ei as [? _]%lookup_delete_Some. rewrite lookup_insert_ne by done. eauto. }
  assert (Off : forall x, x ∈ ls -> off_lists (mk_seqs (universe s) (delete sub (seq_of s)) (stale s ∪ list_to_set ls)) x).
  { intros x Hx. split; [apply (rep_member _ _ R _ _ x Es Hx)|]. simpl. intros i li [? Ei]%lookup_delete_Some Hx'. by eapply (rep_disjoint _ _ R sub i). }
  eapply (represents_update _ _ _ l _ _ _ _ (stale s) R2); [by simpl; rewrite lookup_delete_ne|done|done|..].
  - intros x [|]%elem_of_app; auto.
  - intros x [|]%elem_of_app; auto.
  - intros x Hx. pose proof (rep_member _ _ R _ _ x Es). pose proof (rep_member _ _ R _ _ x El). set_solver.
  - intros x Hx Hx'. right. apply (off_insert _ _ l) in Hx as [? Hx]; [|by simpl; rewrite lookup_delete_ne]. set_solver.
Qed.

Lemma history_simulates os : forall c s rs s', represents c s -> spec_all s os = Some (rs, s') ->
  exists c', exec_all c os = Ok (rs, c') /\ represents c' s'.
Proof.
  induction os as [|o os IH]; intros c s rs s' R E; simpl in *; [simplify_eq; eauto|].
  destruct (spec_step s o) as [[r s1]|] eqn:E1; [|done]. simpl in E. destruct (spec_all s1 os) as [[rs' s2]|] eqn:E2; [|done].
  simplify_eq/=. assert (exists c1, exec c o = Ok (r, c1) /\ represents c1 s1) as (c1 & -> & R1).
  { destruct o; [eapply init_simulated|eapply add_head_simulated|eapply add_tail_simulated|eapply remove_head_simulated|
      eapply remove_element_simulated|eapply add_list_simulated]; eauto. }
  simpl. destruct (IH _ _ _ _ R1 E2) as (c' & -> & R'). simpl. eauto.
Qed.

(** At the start: blocks with no links, and no list. *)
Lemma represents_initial m : m !! NULL = None -> (forall a, is_Some (m !! a) -> clean m a) ->
  represents (mk_lists m ∅) (mk_seqs (dom m) ∅ ∅).
Proof.
  intros Hz Hc. split; simpl; try (intros *; rewrite lookup_empty; done); try done.
  - by apply not_elem_of_dom.
  - intros a [Hu _] _. apply Hc. by apply elem_of_dom.
Qed.

(** Every history on fresh blocks that makes sense for sequences runs, with
    the same answers, and the lists end up holding the sequences. *)
Definition runs_as_sequences (m : store) : Prop :=
  forall os rs s', spec_all (mk_seqs (dom m) ∅ ∅) os = Some (rs, s') ->
  exists c', exec_all (mk_lists m ∅) os = Ok (rs, c') /\
    forall id l, seq_of s' !! id = Some l -> exists L, lists c' !! id = Some L /\ holds (blocks c') L l.

Lemma fresh_blocks_run m : m !! NULL = None -> (forall a, is_Some (m !! a) -> clean m a) -> runs_as_sequences m.
Proof.
  intros Hz Hc os rs s' E. destruct (history_simulates os _ _ _ _ (represents_initial m Hz Hc) E) as (c' & Ec & R).
  exists c'. split; [done|apply R].
Qed.

End History.
Arguments runs_as_sequences O {W} m.


Definition demo_store : store :=
  let b := mk_mem_block NULL NULL 0 0 in <[8 := b]> (<[16 := b]> (<[24 := b]> (<[32 := b]> ∅))).
Definition demo_history : list list_op :=
  [Init 1; AddTail 8 1; AddTail 16 1; AddTail 24 1; Init 2; AddHead 32 2; RemoveElement 16 1; AddTail 16 2;
   AddList 2 1; RemoveElement 24 1; RemoveHead 1; RemoveHead 1; RemoveHead 1; RemoveHead 1].


(** [list_remove_element] leaves the [next] pointer of a block it takes
    from the middle of a list, and [list_add_head] on an empty list does not
    clear it: a block moved that way drags the rest of its old list along, so
    that both lists give out the block 24. *)
Theorem list_moved_block_drags_tail :
  fst <$> exec_all (O := list_ops) (mk_lists demo_store ∅)
    [Init 1; AddTail 8 1; AddTail 16 1; AddTail 24 1; RemoveElement 16 1; Init 2; AddHead 16 2;
     RemoveHead 2; RemoveHead 2; RemoveHead 1; RemoveHead 1] = Ok [0; 0; 0; 0; 16; 0; 0; 16; 24; 8; 24].
Proof. vm_compute. reflexivity. Qed.

(** Appending the same, already emptied, sublist object again adds its count
    once more: [list2_add_list] clears the links of the sublist and not its
    count. *)
Lemma list2_add_list_counts_again :
  ('(_, c) ← exec_all (O := list2_ops) (mk_lists demo_store ∅)
     [Init 1; Init 2; AddTail 8 2; AddTail 16 2; AddList 2 1; AddList 2 1];
   nb_elements <$> of_option OutOfBounds (lists c !! 1)) = Ok 4.
Proof. vm_compute. reflexivity. Qed.

End ListRefinement.
