(* ===== verification/MemBlock.v ===== *)
(** * The pools of memory blocks

    openair2/UTIL/MEM/mem_block.c: [pool_buffer_init], [get_free_mem_block],
    [free_mem_block], and [list_free] and [list2_free] of UTIL/LISTS, which
    give the blocks of a list back. Pool [k] has blocks with [64 * 2^k] bytes
    for [k <= 12]; pool 13 (COPY) has blocks with no bytes of their own.

    The model keeps the layout of [mem_pool]: the byte arrays of the pools,
    then the array of [mem_block_t], at the address [mem_block_var]. The
    compile-time switches [MEM_SCALE] and [JUMBO_FRAMES] are parameters. The
    mutex is left out: each operation is one critical section. *)

From S2P Require Import Prelude LinkedList BlockLists ListRefinement.
Import LinkedList BlockLists ListRefinement.

Module MemBlock.

Definition MEM_MNGT_POOL_ID_COPY : Z := 13.
Definition MEM_MNGT_MB0_BLOCK_SIZE : Z := 64.
Definition MEM_MNGT_MB12_BLOCK_SIZE : Z := MEM_MNGT_MB0_BLOCK_SIZE * 4096.

Section Pools.
Context (JUMBO_FRAMES : bool) (MEM_SCALE mem_block_var : Z).

Definition pool_sizes : list Z :=
  [4096 * MEM_SCALE; 4096 * MEM_SCALE; 2048 * MEM_SCALE; 2048 * MEM_SCALE; 1024 * MEM_SCALE;
   1024 * MEM_SCALE; 1024 * MEM_SCALE; 64 * MEM_SCALE;
   (if JUMBO_FRAMES then 256 else 16) * MEM_SCALE; 8 * MEM_SCALE; 0 * MEM_SCALE; 0 * MEM_SCALE;
   32 * MEM_SCALE; 1024].

(** Bytes of a block of a pool: the second dimension of [mem_pool0] ...
    [mem_pool12]. *)
Definition block_size (pool : nat) : Z := MEM_MNGT_MB0_BLOCK_SIZE * 2 ^ Z.of_nat pool.

Definition nb_blocks (pool : nat) : Z := nth pool pool_sizes 0.

(** Offsets of [mem_pool<k>] and of [mem_blocks] in the struct. *)
Fixpoint pool_offset (pool : nat) : Z :=
  match pool with O => 0 | S p => pool_offset p + nb_blocks p * block_size p end.
Definition sizeof_mem_block_t : Z := 32.
Definition block_address (i : nat) : Z := mem_block_var + pool_offset 13 + sizeof_mem_block_t * Z.of_nat i.

(** [&mem_pool<pool>[index][0]], [NULL] in the COPY pool. *)
Definition data_address (pool index : nat) : Z :=
  if (pool <=? 12)%nat then mem_block_var + pool_offset pool + Z.of_nat index * block_size pool else NULL.

Record mem_pool : Type := mk_pool { mem_blocks : store; mem_lists : list list_t }.

(** ** pool_buffer_init *)

Definition set_data (m : store) (p v : Z) : res store :=
  b ← deref m p; Ok (<[p := b <| data := v |>]> m).
Definition set_pool_id (m : store) (p v : Z) : res store :=
  b ← deref m p; Ok (<[p := b <| pool_id := v |>]> m).

(** The inner loop, with [n] rounds to go. *)
Fixpoint fill_pool (pool_index mb_index index n : nat) (m : store) (l : list_t) : res (store * list_t) :=
  match n with
  | O => Ok (m, l)
  | S n' =>
      let a := block_address (mb_index + index) in
      m1 ← set_data m a (data_address pool_index index);
      m2 ← set_pool_id m1 a (Z.of_nat pool_index);
      '(m3, l') ← list_add_tail_eurecom m2 a l;
      fill_pool pool_index mb_index (S index) n' m3 l'
  end.

Fixpoint fill_pools (pool_index mb_index : nat) (sizes : list Z) (m : store) (ls : list list_t) : res mem_pool :=
  match sizes with
  | [] => Ok (mk_pool m ls)
  | n :: sizes' =>
      '(m', l) ← fill_pool pool_index mb_index 0 (Z.to_nat n) m list_init;
      fill_pools (S pool_index) (mb_index + Z.to_nat n) sizes' m' (ls ++ [l])
  end.

Definition MEM_MNGT_NB_ELEMENTS : nat := sum_list_with Z.to_nat pool_sizes.

(** [memset (memory, 0, sizeof (mem_pool))] *)
Definition zeroed_blocks : store :=
  list_to_map (map (fun i => (block_address i, mk_mem_block NULL NULL 0 NULL)) (seq 0 MEM_MNGT_NB_ELEMENTS)).

Definition pool_buffer_init : res mem_pool := fill_pools 0 0 pool_sizes zeroed_blocks [].

(** ** free_mem_block *)

Definition free_mem_block (st : mem_pool) (leP : Z) : res mem_pool :=
  if leP =? NULL then Ok st
  else
    b ← deref (mem_blocks st) leP;
    if pool_id b <=? MEM_MNGT_POOL_ID_COPY then
      l ← of_option OutOfBounds (mem_lists st !! Z.to_nat (pool_id b));
      '(m', l') ← list_add_tail_eurecom (mem_blocks st) leP l;
      Ok (mk_pool m' (<[Z.to_nat (pool_id b) := l']> (mem_lists st)))
    else Ok st.

(** ** get_free_mem_block *)

(** [while ((size))]: [sizeP] has 32 bits, so that 26 rounds are enough. *)
Fixpoint select_pool (fuel : nat) (size pool_selected : Z) : res Z :=
  match fuel with
  | O => Fault OutOfFuel
  | S fuel' =>
      if size =? 0 then Ok pool_selected else select_pool fuel' (Z.shiftr size 1) (pool_selected + 1)
  end.

(** The [do ... while (pool_selected++ < 12)] loop; the result has the pointer
    and whether [macphy_exit] was called. *)
Fixpoint take_block (fuel : nat) (st : mem_pool) (pool_selected : Z) : res (Z * bool * mem_pool) :=
  match fuel with
  | O => Fault OutOfFuel
  | S fuel' =>
      l ← of_option OutOfBounds (mem_lists st !! Z.to_nat pool_selected);
      '(le, m', l') ← list_remove_head (mem_blocks st) l;
      let st' := mk_pool m' (<[Z.to_nat pool_selected := l']> (mem_lists st)) in
      if negb (le =? NULL) then Ok (le, false, st')
      else if pool_selected <? 12 then take_block fuel' st' (pool_selected + 1)
      else Ok (NULL, true, st')
  end.

Definition get_free_mem_block (st : mem_pool) (sizeP : Z) : res (Z * bool * mem_pool) :=
  if MEM_MNGT_MB12_BLOCK_SIZE <? sizeP then Ok (NULL, true, st)
  else
    pool_selected ← select_pool 27 (Z.shiftr sizeP 6) 0;
    take_block 14 st pool_selected.

(** ** list_free, list2_free *)

Fixpoint free_loop (remove : store -> list_t -> res (Z * store * list_t)) (fuel : nat) (st : mem_pool) (listP : list_t)
    : res (mem_pool * list_t) :=
  match fuel with
  | O => Fault OutOfFuel
  | S fuel' =>
      '(le, m', l') ← remove (mem_blocks st) listP;
      if le =? NULL then Ok (mk_pool m' (mem_lists st), l')
      else st' ← free_mem_block (mk_pool m' (mem_lists st)) le; free_loop remove fuel' st' l'
  end.

(** A list has at most as many blocks as there are. *)
Definition list_free (st : mem_pool) (listP : list_t) : res (mem_pool * list_t) :=
  free_loop list_remove_head (S (size (mem_blocks st))) st listP.
Definition list2_free (st : mem_pool) (listP : list_t) : res (mem_pool * list_t) :=
  free_loop list2_remove_head (S (size (mem_blocks st))) st listP.

End Pools.
End MemBlock.
