(* ===== verification/MemPoolInv.v ===== *)
(** * The invariant of the memory pools

    [pool_ok] says which blocks are on the free list of each pool and which
    are with clients; every operation of [MemBlock] keeps it. *)

From stdpp Require Import functions.
From S2P Require Import Prelude LinkedList BlockLists ListRefinement MemBlock.
Import LinkedList BlockLists ListRefinement MemBlock.

Module MemPoolInv.

Section Invariant.
#[local] Set Default Proof Using "All".
Context (JUMBO_FRAMES : bool) (MEM_SCALE mem_block_var : Z).
Context (scale_nonneg : 0 <= MEM_SCALE) (var_pos : 0 < mem_block_var).

Notation nb_blocks := (MemBlock.nb_blocks JUMBO_FRAMES MEM_SCALE).
Notation pool_offset := (MemBlock.pool_offset JUMBO_FRAMES MEM_SCALE).
Notation block_address := (MemBlock.block_address JUMBO_FRAMES MEM_SCALE mem_block_var).
Notation data_address := (MemBlock.data_address JUMBO_FRAMES MEM_SCALE mem_block_var).

(** The number of blocks before those of a pool. *)
Fixpoint first_block (pool : nat) : nat :=
  match pool with O => O | S p => (first_block p + Z.to_nat (nb_blocks p))%nat end.

Definition is_block (k : nat) (a : Z) : Prop :=
  exists j, (j < Z.to_nat (nb_blocks k))%nat /\ a = block_address (first_block k + j).

Definition placed_as (m : store) (a : Z) (k j : nat) : Prop :=
  exists b, m !! a = Some b /\ pool_id b = Z.of_nat k /\ data b = data_address k j.

Definition placed (m : store) : Prop := forall k j, (k < 14)%nat -> (j < Z.to_nat (nb_blocks k))%nat ->
  placed_as m (block_address (first_block k + j)) k j.

(** [free k] is the free list of pool [k], [al] the blocks handed out. *)
Record pool_ok (st : mem_pool) (free : nat -> list Z) (al : gset Z) : Prop := {
  po_placed : placed (mem_blocks st);
  po_length : length (mem_lists st) = 14%nat;
  po_list k l : mem_lists st !! k = Some l -> list_ok (mem_blocks st) l (free k);
  po_member k a : (k < 14)%nat -> a ∈ free k -> is_block k a;
  po_out a : a ∈ al <-> exists k, (k < 14)%nat /\ is_block k a /\ a ∉ free k
}.

Lemma nb_blocks_nonneg k : 0 <= nb_blocks k.
Proof.
  unfold MemBlock.nb_blocks. assert (F : Forall (Z.le 0) (pool_sizes JUMBO_FRAMES MEM_SCALE)).
  { unfold pool_sizes. repeat constructor; try lia. destruct JUMBO_FRAMES; lia. }
  destruct (nth_in_or_default k (pool_sizes JUMBO_FRAMES MEM_SCALE) 0) as [H| ->]; [|done].
  rewrite Forall_forall in F. by apply F, list_elem_of_In.
Qed.

Lemma block_size_pos k : 0 < block_size k.
Proof. unfold block_size, MEM_MNGT_MB0_BLOCK_SIZE. assert (0 < 2 ^ Z.of_nat k) by (apply Z.pow_pos_nonneg; lia). lia. Qed.

Lemma pool_offset_mono k k' : (k <= k')%nat -> pool_offset k <= pool_offset k'.
Proof.
  induction 1 as [|k' _ IH]; [lia|]. cbn [MemBlock.pool_offset]. pose proof (nb_blocks_nonneg k'). pose proof (block_size_pos k').
  assert (0 <= nb_blocks k' * block_size k') by (apply Z.mul_nonneg_nonneg; lia). lia.
Qed.

Lemma block_address_pos i : 0 < block_address i.
Proof. unfold MemBlock.block_address, sizeof_mem_block_t. pose proof (pool_offset_mono 0 13 ltac:(lia)) as H. change (pool_offset 0) with 0 in H. lia. Qed.

Lemma is_block_not_null k a : is_block k a -> a <> NULL.
Proof. intros (j & _ & ->). pose proof (block_address_pos (first_block k + j)). unfold NULL. lia. Qed.

Lemma block_address_inj i j : block_address i = block_address j -> i = j.
Proof. unfold MemBlock.block_address, sizeof_mem_block_t. lia. Qed.

Lemma placed_block m k a : placed m -> (k < 14)%nat -> is_block k a ->
  exists b j, m !! a = Some b /\ pool_id b = Z.of_nat k /\ (j < Z.to_nat (nb_blocks k))%nat /\ data b = data_address k j.
Proof. intros P Hk (j & Hj & ->). destruct (P k j Hk Hj) as (b & ? & ? & ?). eauto 10. Qed.

Lemma is_block_pool m k k' a : placed m -> (k < 14)%nat -> (k' < 14)%nat -> is_block k a -> is_block k' a -> k = k'.
Proof.
  intros P Hk Hk' H H'. destruct (placed_block _ _ _ P Hk H) as (b & j & E & Hp & _).
  destruct (placed_block _ _ _ P Hk' H') as (b' & j' & E' & Hp' & _). rewrite E in E'. injection E' as <-. lia.
Qed.

Lemma placed_touched t m m' : touched t m m' -> placed m -> placed m'.
Proof.
  intros T P k j Hk Hj. destruct (P k j Hk Hj) as (b & E & Hp & Hd). specialize (T (block_address (first_block k + j))).
  rewrite E in T. destruct (m' !! _) as [b'|] eqn:E'; [|done]. exists b'. destruct T as (-> & -> & _). done.
Qed.

Lemma free_disjoint st free al k k' a : pool_ok st free al -> (k < 14)%nat -> (k' < 14)%nat -> k <> k' ->
  a ∈ free k -> a ∉ free k'.
Proof.
  intros P Hk Hk' Hn Ha Ha'. apply Hn. eapply is_block_pool; [apply P|done|done|by apply (po_member _ _ _ P)..].
Qed.

Lemma allocated_not_free st free al a k : pool_ok st free al -> a ∈ al -> (k < 14)%nat -> a ∉ free k.
Proof.
  intros P (k' & Hk' & Hb & Hf)%(po_out _ _ _ P) Hk Ha. destruct (decide (k = k')) as [->|Hn]; [done|].
  apply Hn. eapply is_block_pool; [apply P|done|done|by apply (po_member _ _ _ P)|done].
Qed.

(** Clients link the blocks they hold as they like. *)
Lemma pool_ok_client st free al t m' : pool_ok st free al -> touched t (mem_blocks st) m' -> (forall a, a ∈ t -> a ∈ al) ->
  pool_ok (mk_pool m' (mem_lists st)) free al.
Proof.
  intros P T Ht. split; simpl; [by eapply placed_touched; [|apply P]|apply P| |apply P|apply P].
  intros k l E. eapply list_ok_frame; [by apply (po_list _ _ _ P)|done|]. intros a Ha Hat.
  eapply allocated_not_free; [done|by apply Ht| |done]. apply lookup_lt_Some in E. by rewrite (po_length _ _ _ P) in E.
Qed.

Lemma pool_list st free al k : pool_ok st free al -> (k < 14)%nat -> exists l, mem_lists st !! k = Some l /\ list_ok (mem_blocks st) l (free k).
Proof.
  intros P Hk. destruct (lookup_lt_is_Some_2 (mem_lists st) k) as [l E]; [by rewrite (po_length _ _ _ P)|].
  exists l. split; [done|]. by apply (po_list _ _ _ P).
Qed.

(** One pool's free list changes, and so do only its blocks and clients'. *)
Lemma pool_ok_update st free al t m' k l l' al' : pool_ok st free al -> (k < 14)%nat ->
  touched t (mem_blocks st) m' -> (forall a, a ∈ t -> a ∈ free k \/ a ∈ al) -> list_ok m' l l' ->
  (forall a, a ∈ l' -> is_block k a) ->
  (forall a, a ∈ al' <-> (a ∈ al /\ a ∉ l') \/ (a ∈ free k /\ a ∉ l')) ->
  pool_ok (mk_pool m' (<[k := l]> (mem_lists st))) (<[k := l']> free) al'.
Proof.
  intros P Hk T Ht Hl Hm Ha. split; simpl.
  - by eapply placed_touched; [|apply P].
  - rewrite length_insert. apply P.
  - intros i li E. destruct (decide (i = k)) as [->|Hn].
    + rewrite list_lookup_insert_eq in E by (by rewrite (po_length _ _ _ P)). injection E as <-. by rewrite fn_lookup_insert.
    + rewrite list_lookup_insert_ne in E by done. rewrite fn_lookup_insert_ne by done.
      assert (i < 14)%nat by (apply lookup_lt_Some in E; by rewrite (po_length _ _ _ P) in E).
      eapply list_ok_frame; [by apply (po_list _ _ _ P)|done|]. intros a Hi [Hx|Hx]%Ht.
      * by eapply (free_disjoint _ _ _ i k).
      * by eapply allocated_not_free.
  - intros i a Hi. destruct (decide (i = k)) as [->|Hn]; [rewrite fn_lookup_insert; apply Hm|].
    rewrite fn_lookup_insert_ne by done. by apply (po_member _ _ _ P).
  - intros a. rewrite Ha. split.
    + intros [[Hal Hx]|[Hf Hx]].
      * apply (po_out _ _ _ P) in Hal as (i & Hi & Hb & Hf). exists i. split_and!; try done.
        destruct (decide (i = k)) as [->|]; [by rewrite fn_lookup_insert|by rewrite fn_lookup_insert_ne].
      * exists k. rewrite fn_lookup_insert. split_and!; try done. by apply (po_member _ _ _ P).
    + intros (i & Hi & Hb & Hf). destruct (decide (i = k)) as [->|Hn].
      * rewrite fn_lookup_insert in Hf. destruct (decide (a ∈ free k)); [by right|]. left. split; [|done]. apply (po_out _ _ _ P). eauto.
      * rewrite fn_lookup_insert_ne in Hf by done. left. split; [apply (po_out _ _ _ P); eauto|].
        intros Hx%Hm. apply Hn. by eapply is_block_pool; [apply P|..].
Qed.

(** ** free_mem_block *)

Lemma free_mem_block_ok st free al a : pool_ok st free al -> a ∈ al ->
  exists st' free', free_mem_block st a = Ok st' /\ pool_ok st' free' (al ∖ {[a]}) /\
    dom (mem_blocks st') =@{gset Z} dom (mem_blocks st) /\
    exists t, touched (a :: t) (mem_blocks st) (mem_blocks st') /\ (forall x, x ∈ t -> x ∉ al).
Proof.
  intros P Ha. pose proof Ha as (k & Hk & Hb & Hf)%(po_out _ _ _ P). unfold free_mem_block, deref.
  destruct (placed_block _ _ _ (po_placed _ _ _ P) Hk Hb) as (b & j & E & Hp & _). pose proof (is_block_not_null _ _ Hb). null_test.
  rewrite E. simpl. rewrite Hp, Nat2Z.id. unfold MEM_MNGT_POOL_ID_COPY. rewrite (proj2 (Z.leb_le (Z.of_nat k) 13)) by lia.
  destruct (pool_list _ _ _ k P Hk) as (l & -> & Hl). simpl.
  destruct (list_add_tail_ok _ _ _ a Hl) as (m' & l' & -> & Hl' & T); [by split_and!; eauto|]. simpl.
  eexists. exists (<[k := free k ++ [a]]> free). split; [reflexivity|]. split; [|split; [by eapply touched_dom|]].
  - eapply pool_ok_update; try done.
    + intros x [->|]%elem_of_cons; auto.
    + intros x [Hx| ->%list_elem_of_singleton]%elem_of_app; [by apply (po_member _ _ _ P)|done].
    + intros x. pose proof (fun Hx => allocated_not_free _ _ _ x k P Hx Hk). set_solver.
  - exists (free k). split; [done|]. intros x Hx Hx'. by eapply allocated_not_free.
Qed.

(** ** get_free_mem_block *)

Lemma select_pool_ok fuel size p : 0 <= size < 2 ^ Z.of_nat fuel ->
  exists n, select_pool (S fuel) size p = Ok (p + n) /\ 0 <= n /\ size < 2 ^ n /\ (0 < n -> 2 ^ (n - 1) <= size).
Proof.
  revert size p. induction fuel as [|fuel IH]; intros size p Hs.
  - assert (size = 0) as -> by (simpl in Hs; lia). exists 0. cbn. split; [f_equal; lia|lia].
  - cbn [select_pool]. destruct (Z.eqb_spec size 0) as [->|Hn].
    + exists 0. split; [f_equal; lia|]. change (2 ^ 0) with 1. lia.
    + assert (0 <= Z.shiftr size 1 < 2 ^ Z.of_nat fuel).
      { rewrite Z.shiftr_div_pow2 by lia. change (2 ^ 1) with 2. rewrite Nat2Z.inj_succ, Z.pow_succ_r in Hs by lia.
        split; [apply Z.div_pos; lia|apply Z.div_lt_upper_bound; lia]. }
      destruct (IH (Z.shiftr size 1) (p + 1)) as (n & E & H0 & H1 & H2); [done|]. exists (n + 1). fold select_pool in E.
      rewrite Z.shiftr_div_pow2 in * by lia. change (2 ^ 1) with 2 in *. pose proof (Z.div_mod size 2). pose proof (Z.mod_pos_bound size 2).
      split; [etransitivity; [exact E|f_equal; lia]|]. split; [lia|]. split; [rewrite Z.pow_add_r by lia; change (2 ^ 1) with 2; lia|].
      intros _. replace (n + 1 - 1) with n by lia. destruct (decide (n = 0)) as [->|]; [change (2 ^ 0) with 1; lia|].
      specialize (H2 ltac:(lia)). replace n with (n - 1 + 1) by lia. rewrite Z.pow_add_r by lia. change (2 ^ 1) with 2. lia.
Qed.

Lemma take_block_ok fuel st free al k : pool_ok st free al -> (k <= 12)%nat -> (12 - k < fuel)%nat ->
  (exists q a r st', (k <= q <= 12)%nat /\ free q = a :: r /\ (forall i, (k <= i < q)%nat -> free i = []) /\
     take_block fuel st (Z.of_nat k) = Ok (a, false, st') /\ pool_ok st' (<[q := r]> free) ({[a]} ∪ al)) \/
  ((forall i, (k <= i <= 12)%nat -> free i = []) /\ take_block fuel st (Z.of_nat k) = Ok (NULL, true, st)).
Proof.
  revert k. induction fuel as [|fuel IH]; intros k P Hk Hf; [lia|]. cbn [take_block]. rewrite Nat2Z.id.
  destruct (pool_list _ _ _ k P ltac:(lia)) as (l & El & Hl). rewrite El. simpl. destruct (free k) as [|a r] eqn:Er.
  - rewrite (list_remove_head_nil _ _ Hl). simpl. rewrite (list_insert_id _ _ _ El).
    replace (mk_pool (mem_blocks st) (mem_lists st)) with st by (by destruct st).
    destruct (decide (k = 12%nat)) as [->|Hn].
    + right. split; [|done]. intros i Hi. by replace i with 12%nat by lia.
    + rewrite (proj2 (Z.ltb_lt (Z.of_nat k) 12)) by lia. replace (Z.of_nat k + 1) with (Z.of_nat (S k)) by lia.
      destruct (IH (S k) P) as [(q & a & r & st' & Hq & Ea & Hi & E & P')|[Hi E]]; [lia|lia|left|right].
      * exists q, a, r, st'. split_and!; try done; try lia. intros i ?. destruct (decide (i = k)) as [->|]; [done|]. apply Hi. lia.
      * split; [|done]. intros i ?. destruct (decide (i = k)) as [->|]; [done|]. apply Hi. lia.
  - left. destruct (list_remove_head_cons _ _ _ _ Hl) as (m' & l' & -> & Hl' & _ & T). simpl.
    destruct (cons_facts _ _ _ _ Hl) as (_ & Ha & _ & Hr & _). null_test. simpl.
    exists k, a, r. eexists. split; [lia|]. split; [done|]. split; [intros; lia|]. split; [reflexivity|].
    eapply pool_ok_update; try done; [lia|..].
    + intros x ->%list_elem_of_singleton. left. rewrite Er. by left.
    + intros x Hx. apply (po_member _ _ _ P); [lia|]. rewrite Er. by right.
    + intros x. rewrite Er. pose proof (fun Hx => allocated_not_free _ _ _ x k P Hx ltac:(lia)) as Hx. rewrite Er in Hx. set_solver.
Qed.

(** The pool a size selects: the smallest with blocks larger than the size. *)
Lemma size_class sizeP : 0 <= sizeP < MEM_MNGT_MB12_BLOCK_SIZE ->
  exists k, (k <= 12)%nat /\ sizeP < block_size k /\ (forall i, (i < k)%nat -> block_size i <= sizeP) /\
    select_pool 27 (Z.shiftr sizeP 6) 0 = Ok (Z.of_nat k).
Proof.
  unfold MEM_MNGT_MB12_BLOCK_SIZE, block_size, MEM_MNGT_MB0_BLOCK_SIZE. intros Hs.
  rewrite Z.shiftr_div_pow2 by lia. change (2 ^ 6) with 64.
  destruct (select_pool_ok 26 (sizeP / 64) 0) as (n & -> & H0 & H1 & H2).
  { split; [apply Z.div_pos; lia|]. apply Z.div_lt_upper_bound; simpl; lia. }
  pose proof (Z.div_mod sizeP 64). pose proof (Z.mod_pos_bound sizeP 64). exists (Z.to_nat n). rewrite Z2Nat.id by lia.
  split_and!; [|lia| |f_equal; lia].
  - destruct (Z.le_gt_cases n 12); [lia|]. specialize (H2 ltac:(lia)).
    assert (2 ^ 12 <= 2 ^ (n - 1)) by (apply Z.pow_le_mono_r; lia). change (2 ^ 12) with 4096 in *. lia.
  - intros i Hi. specialize (H2 ltac:(lia)). assert (2 ^ Z.of_nat i <= 2 ^ (n - 1)) by (apply Z.pow_le_mono_r; lia). lia.
Qed.

Lemma get_free_mem_block_ok st free al sizeP : pool_ok st free al -> 0 <= sizeP < MEM_MNGT_MB12_BLOCK_SIZE ->
  (exists q a r st', (q <= 12)%nat /\ sizeP < block_size q /\ free q = a :: r /\
     (forall i, (i < q)%nat -> sizeP < block_size i -> free i = []) /\
     get_free_mem_block st sizeP = Ok (a, false, st') /\ pool_ok st' (<[q := r]> free) ({[a]} ∪ al)) \/
  ((forall i, (i <= 12)%nat -> sizeP < block_size i -> free i = []) /\ get_free_mem_block st sizeP = Ok (NULL, true, st)).
Proof.
  intros P Hs. destruct (size_class _ Hs) as (k & Hk & Hc & Hm & E). unfold get_free_mem_block.
  rewrite (proj2 (Z.ltb_ge _ _)) by lia. rewrite E. cbn [mbind res_bind].
  assert (Hge : forall i, sizeP < block_size i -> (k <= i)%nat).
  { intros i Hi. destruct (le_lt_dec k i); [done|]. specialize (Hm i). lia. }
  destruct (take_block_ok 14 _ _ _ _ P Hk) as [(q & a & r & st' & Hq & Ea & Hi & Et & P')|[Hi Et]]; [lia|left|right].
  - exists q, a, r, st'. split_and!; try done; [lia| |intros i ? ?%Hge; apply Hi; lia].
    assert (2 ^ Z.of_nat k <= 2 ^ Z.of_nat q) by (apply Z.pow_le_mono_r; lia). unfold block_size, MEM_MNGT_MB0_BLOCK_SIZE in *. lia.
  - split; [|done]. intros i ? ?%Hge. apply Hi. lia.
Qed.

(** ** Where the bytes of a block are *)

Definition area (b : mem_block_t) : Z * Z := (data b, data b + block_size (Z.to_nat (pool_id b))).
Definition disjoint (x y : Z * Z) : Prop := snd x <= fst y \/ snd y <= fst x.

Lemma data_in_pool k j : (k <= 12)%nat -> (j < Z.to_nat (nb_blocks k))%nat ->
  0 < data_address k j /\ mem_block_var + pool_offset k <= data_address k j /\
  data_address k j + block_size k <= mem_block_var + pool_offset (S k).
Proof.
  intros Hk Hj. unfold MemBlock.data_address. rewrite (proj2 (Nat.leb_le k 12)) by done. cbn [MemBlock.pool_offset].
  pose proof (pool_offset_mono 0 k ltac:(lia)) as H. change (pool_offset 0) with 0 in H. pose proof (block_size_pos k).
  assert (Z.of_nat j * block_size k + block_size k <= nb_blocks k * block_size k) by (assert (Z.of_nat j + 1 <= nb_blocks k) by lia; nia).
  assert (0 <= Z.of_nat j * block_size k) by nia. lia.
Qed.

Lemma areas_disjoint m k k' a a' b b' : placed m -> (k <= 12)%nat -> (k' <= 12)%nat -> is_block k a -> is_block k' a' -> a <> a' ->
  m !! a = Some b -> m !! a' = Some b' -> disjoint (area b) (area b').
Proof.
  intros P Hk Hk' (j & Hj & ->) (j' & Hj' & ->) Hn Eb Eb'.
  destruct (P k j ltac:(lia) Hj) as (x & Ex & Hp & Hd). destruct (P k' j' ltac:(lia) Hj') as (y & Ey & Hp' & Hd').
  rewrite Eb in Ex. injection Ex as <-. rewrite Eb' in Ey. injection Ey as <-.
  unfold disjoint, area. simpl. rewrite Hp, Hp', Hd, Hd', !Nat2Z.id.
  destruct (data_in_pool k j Hk Hj) as (_ & H1 & H2). destruct (data_in_pool k' j' Hk' Hj') as (_ & H3 & H4).
  destruct (Nat.lt_trichotomy k k') as [Hlt|[<-|Hlt]].
  - pose proof (pool_offset_mono (S k) k' ltac:(lia)). lia.
  - assert (j <> j') by congruence. unfold MemBlock.data_address. rewrite (proj2 (Nat.leb_le k 12)) by done.
    pose proof (block_size_pos k). destruct (Nat.lt_ge_cases j j').
    + assert (Z.of_nat j * block_size k + block_size k <= Z.of_nat j' * block_size k) by nia. lia.
    + assert (Z.of_nat j' * block_size k + block_size k <= Z.of_nat j * block_size k) by nia. lia.
  - pose proof (pool_offset_mono (S k') k ltac:(lia)). lia.
Qed.

(** ** list_free and list2_free *)

Lemma free_loop_ok {O : BlockListOps} {W : BlockListLaws O} fuel l : forall st free al L,
  pool_ok st free al -> holds (mem_blocks st) L l -> (forall a, a ∈ l -> a ∈ al) -> (length l < fuel)%nat ->
  exists st' free' L', free_loop bl_remove_head fuel st L = Ok (st', L') /\ holds (mem_blocks st') L' [] /\
    pool_ok st' free' (al ∖ list_to_set l).
Proof.
  revert l. induction fuel as [|fuel IH]; intros l st free al L P H Ha F; [lia|]. cbn [free_loop]. destruct l as [|a l].
  - rewrite (remove_head_nil _ _ H). simpl. replace (mk_pool (mem_blocks st) (mem_lists st)) with st by (by destruct st).
    exists st, free, L. split_and!; try done. by rewrite difference_empty_L.
  - pose proof (holds_nodup _ _ _ H) as [Na Nl]%NoDup_cons. destruct (remove_head_cons _ _ _ _ H) as (m' & L' & -> & H' & _ & T). simpl.
    assert (a <> NULL).
    { assert (a ∈ al) as (k & _ & Hb & _)%(po_out _ _ _ P) by (apply Ha; by left). by eapply is_block_not_null. }
    null_test. pose proof (pool_ok_client _ _ _ _ _ P T Ha) as P1.
    destruct (free_mem_block_ok _ _ _ a P1) as (st2 & free2 & -> & P2 & _ & t & T2 & Ht); [apply Ha; by left|]. simpl in T2 |- *.
    destruct (IH l st2 free2 (al ∖ {[a]}) L' P2) as (st3 & free3 & L3 & E & H3 & P3).
    + eapply holds_frame; [done..|]. intros x Hx [->|Hxt]%elem_of_cons; [done|]. apply (Ht x Hxt), Ha. by right.
    + set_solver.
    + simpl in F. lia.
    + exists st3, free3, L3. split_and!; try done. refine (eq_rect _ (pool_ok st3 free3) P3 _ _). set_solver.
Qed.

(** ** pool_buffer_init *)

Definition addresses (mb n : nat) : list Z := map (fun i => block_address (mb + i)) (seq 0 n).

Lemma elem_addresses mb n a : a ∈ addresses mb n <-> exists i, (i < n)%nat /\ a = block_address (mb + i).
Proof.
  unfold addresses. rewrite list_elem_of_In, in_map_iff. setoid_rewrite in_seq. split.
  - intros (i & <- & Hi). exists i. split; [lia|done].
  - intros (i & Hi & ->). exists i. split; [done|lia].
Qed.

Lemma addresses_cons mb n : (0 < n)%nat -> exists a r, addresses mb n = a :: r.
Proof. destruct n as [|n]; [lia|]. intros _. do 2 eexists. reflexivity. Qed.

Lemma addresses_snoc mb n : addresses mb (S n) = addresses mb n ++ [block_address (mb + n)].
Proof. unfold addresses. by rewrite seq_S, map_app. Qed.

Lemma list_ok_lookup m m' L l : list_ok m L l -> (forall a, a ∈ l -> m' !! a = m !! a) -> list_ok m' L l.
Proof. intros [] H. split; try done. eapply chain_frame; [|done]. intros a b Ha Hb. exists b. by rewrite H. Qed.

Definition filled (m : store) (k mb n : nat) : Prop := forall i, (i < n)%nat -> placed_as m (block_address (mb + i)) k i.

Lemma fill_pool_ok k mb n : forall index m l,
  (forall i, (i < n)%nat -> is_Some (m !! block_address (mb + (index + i)))) ->
  list_ok m l (addresses mb index) -> filled m k mb index ->
  exists m' l', fill_pool JUMBO_FRAMES MEM_SCALE mem_block_var k mb index n m l = Ok (m', l') /\
    list_ok m' l' (addresses mb (index + n)) /\ filled m' k mb (index + n) /\
    (forall a, a ∉ addresses mb (index + n) -> m' !! a = m !! a).
Proof.
  induction n as [|n IH]; intros index m l Hm Hl Hp.
  { exists m, l. rewrite Nat.add_0_r. by split_and!. }
  cbn [fill_pool]. destruct (Hm 0%nat) as [b Hb]; [lia|]. rewrite Nat.add_0_r in Hb. set (a := block_address (mb + index)) in *.
  unfold set_data, set_pool_id, deref. rewrite Hb. simpl. rewrite lookup_insert_eq. simpl. rewrite insert_insert_eq.
  set (b' := b <| data := data_address k index |> <| pool_id := Z.of_nat k |>).
  assert (Na : a ∉ addresses mb index).
  { intros (i & Hi & Ha)%elem_addresses. apply block_address_inj in Ha. lia. }
  destruct (list_add_tail_ok (<[a := b']> m) l (addresses mb index) a) as (m' & l' & -> & Hl' & T).
  { eapply list_ok_lookup; [done|]. intros x Hx. rewrite lookup_insert_ne; [done|]. by intros ->. }
  { split_and!; [by rewrite lookup_insert_eq|pose proof (block_address_pos (mb + index)); unfold NULL; lia|done]. }
  rewrite <- addresses_snoc in Hl'. simpl.
  assert (Ht : forall x, x ∉ addresses mb (S index) -> m' !! x = m !! x).
  { intros x Hx. rewrite addresses_snoc in Hx. rewrite (touched_lookup _ _ _ _ T) by set_solver. by rewrite lookup_insert_ne by set_solver. }
  destruct (IH (S index) m' l') as (m2 & l2 & -> & H1 & H2 & H3).
  - intros i Hi. destruct (Hm (S i)) as [x Hx]; [lia|]. replace (index + S i)%nat with (S index + i)%nat in Hx by lia.
    rewrite Ht; [by eauto|]. intros (j & Hj & Ha)%elem_addresses. apply block_address_inj in Ha. lia.
  - done.
  - intros i Hi. specialize (T (block_address (mb + i))). destruct (decide (i = index)) as [->|Hn].
    + fold a in T |- *. rewrite lookup_insert_eq in T. destruct (m' !! a) as [x|] eqn:Ex; [|done]. exists x.
      destruct T as (-> & -> & _). done.
    + destruct (Hp i ltac:(lia)) as (x & Ex & Hx). rewrite lookup_insert_ne, Ex in T by (intros Ha%block_address_inj; lia).
      destruct (m' !! block_address (mb + i)) as [y|] eqn:Ey; [|done]. exists y. destruct T as (-> & -> & _). done.
  - exists m2, l2. replace (index + S n)%nat with (S index + n)%nat by lia. split_and!; try done.
    intros x Hx. rewrite H3 by done. apply Ht. intros (i & Hi & Ha)%elem_addresses. apply Hx, elem_addresses. exists i. split; [lia|done].
Qed.

Notation count k := (Z.to_nat (nb_blocks k)).

Lemma first_block_mono k k' : (k <= k')%nat -> (first_block k <= first_block k')%nat.
Proof. induction 1; simpl; lia. Qed.

Lemma first_block_total : first_block 14 = MEM_MNGT_NB_ELEMENTS JUMBO_FRAMES MEM_SCALE.
Proof. unfold MEM_MNGT_NB_ELEMENTS, pool_sizes. cbn [sum_list_with first_block]. unfold MemBlock.nb_blocks. cbn [nth pool_sizes]. lia. Qed.

Lemma addresses_apart i k a : (i < k)%nat -> a ∈ addresses (first_block i) (count i) -> a ∉ addresses (first_block k) (count k).
Proof.
  intros Hi (j & Hj & ->)%elem_addresses (j' & Hj' & E)%elem_addresses. apply block_address_inj in E.
  pose proof (first_block_mono (S i) k Hi) as M. change (first_block (S i)) with (first_block i + count i)%nat in M. lia.
Qed.

Lemma fill_pools_ok sizes : forall k m ls, sizes = drop k (pool_sizes JUMBO_FRAMES MEM_SCALE) -> (k <= 14)%nat -> length ls = k ->
  (forall i l, ls !! i = Some l -> list_ok m l (addresses (first_block i) (count i))) ->
  (forall i, (i < k)%nat -> filled m i (first_block i) (count i)) ->
  (forall i, (i < first_block 14)%nat -> is_Some (m !! block_address i)) ->
  exists st, fill_pools JUMBO_FRAMES MEM_SCALE mem_block_var k (first_block k) sizes m ls = Ok st /\
    length (mem_lists st) = 14%nat /\ placed (mem_blocks st) /\
    (forall i l, mem_lists st !! i = Some l -> list_ok (mem_blocks st) l (addresses (first_block i) (count i))).
Proof.
  induction sizes as [|n sizes IH]; intros k m ls Hs Hk Hlen Hl Hf Hm.
  { assert (k = 14%nat) as ->. { apply (f_equal length) in Hs. rewrite length_drop in Hs. simpl in Hs. lia. }
    exists (mk_pool m ls). split_and!; [done|done| |done]. intros i j Hi Hj. by apply (Hf i Hi). }
  assert (Hk' : (k < 14)%nat). { apply (f_equal length) in Hs. rewrite length_drop in Hs. simpl in Hs. lia. }
  assert (n = nb_blocks k) as ->.
  { unfold MemBlock.nb_blocks. rewrite <- (Nat.add_0_r k), <- nth_skipn. change skipn with (@drop Z). by rewrite <- Hs. }
  assert (Hs' : sizes = drop (S k) (pool_sizes JUMBO_FRAMES MEM_SCALE)).
  { apply (f_equal (drop 1)) in Hs. rewrite drop_drop, Nat.add_1_r in Hs. done. }
  pose proof (first_block_mono (S k) 14 ltac:(lia)) as Mono. change (first_block (S k)) with (first_block k + count k)%nat in Mono.
  cbn [fill_pools]. destruct (fill_pool_ok k (first_block k) (count k) 0 m list_init) as (m' & l & -> & H1 & H2 & H3).
  { intros i Hi. apply Hm. lia. } { apply list_ok_init. } { intros i Hi. lia. }
  simpl in H1, H2, H3 |- *. apply (IH (S k) m' (ls ++ [l])); try done.
  - rewrite length_app. simpl. lia.
  - intros i li E. apply lookup_app_Some in E as [E|[Hi E]].
    + apply lookup_lt_Some in E as Hi. eapply list_ok_lookup; [by apply Hl|]. intros a Ha. apply H3. eapply addresses_apart; [|done]. lia.
    + apply list_lookup_singleton_Some in E as [E <-]. by replace i with k by lia.
  - intros i Hi. destruct (decide (i = k)) as [->|]; [done|]. intros j Hj. destruct (Hf i ltac:(lia) j Hj) as (b & Hb & ?).
    exists b. rewrite H3; [done|]. apply (addresses_apart i k); [lia|]. apply elem_addresses. eauto.
  - intros i Hi. destruct (decide (block_address i ∈ addresses (first_block k) (count k))) as [Ha|Ha]; [|rewrite H3 by done; by apply Hm].
    apply elem_addresses in Ha as (j & Hj & ->). destruct (H2 j Hj) as (b & -> & _). eauto.
Qed.

Lemma pool_buffer_init_ok : exists st, pool_buffer_init JUMBO_FRAMES MEM_SCALE mem_block_var = Ok st /\
  pool_ok st (fun k => addresses (first_block k) (count k)) ∅.
Proof.
  unfold pool_buffer_init. destruct (fill_pools_ok (pool_sizes JUMBO_FRAMES MEM_SCALE) 0 (zeroed_blocks JUMBO_FRAMES MEM_SCALE mem_block_var) [])
    as (st & E & Hlen & P & Hl); try done; try lia.
  - intros i Hi. rewrite first_block_total in Hi. apply elem_of_dom. unfold zeroed_blocks. rewrite dom_list_to_map.
    apply elem_of_list_to_set. rewrite list_elem_of_fmap.
    exists (block_address i, mk_mem_block NULL NULL 0 NULL). split; [reflexivity|].
    apply list_elem_of_In, in_map_iff. exists i. split; [reflexivity|]. apply in_seq. lia.
  - exists st. split; [done|]. split; try done.
    + intros k a Hk (j & Hj & ->)%elem_addresses. by exists j.
    + intros a. split; [by intros ?%not_elem_of_empty|]. intros (k & Hk & (j & Hj & ->) & Ha). exfalso. apply Ha, elem_addresses. eauto.
Qed.

End Invariant.
End MemPoolInv.
