(* ===== verification/MemClaims.v ===== *)
(** * Properties of the memory pools

    The states the program can reach by initialising the pools, taking and
    releasing blocks, and linking the blocks it holds ([reachable]), and what
    holds in all of them. *)

From stdpp Require Import functions.
From S2P Require Import Prelude LinkedList BlockLists ListRefinement MemBlock MemPoolInv.
Import LinkedList BlockLists ListRefinement MemBlock MemPoolInv.

Module MemClaims.

Section Claims.
#[local] Set Default Proof Using "All".
Context (JUMBO_FRAMES : bool) (MEM_SCALE mem_block_var : Z).

(** [al] are the blocks clients hold. A client may write the links of its
    blocks, gives back only blocks it holds, and asks for less than
    [MEM_MNGT_MB12_BLOCK_SIZE] bytes. *)
Inductive reachable : mem_pool -> gset Z -> Prop :=
| reach_init st : pool_buffer_init JUMBO_FRAMES MEM_SCALE mem_block_var = Ok st -> reachable st ∅
| reach_alloc st al sizeP a ex st' : reachable st al -> 0 <= sizeP < MEM_MNGT_MB12_BLOCK_SIZE ->
    get_free_mem_block st sizeP = Ok (a, ex, st') -> reachable st' (if decide (a = NULL) then al else {[a]} ∪ al)
| reach_free st al a st' : reachable st al -> a ∈ al -> free_mem_block st a = Ok st' -> reachable st' (al ∖ {[a]})
| reach_link st al m' : reachable st al -> touched (elements al) (mem_blocks st) m' ->
    reachable (mk_pool m' (mem_lists st)) al
| reach_list_free st al L l st' L' : reachable st al -> list_ok (mem_blocks st) L l -> list_to_set l ⊆ al ->
    list_free st L = Ok (st', L') -> reachable st' (al ∖ list_to_set l)
| reach_list2_free st al L l st' L' : reachable st al -> list2_ok (mem_blocks st) L l -> list_to_set l ⊆ al ->
    list2_free st L = Ok (st', L') -> reachable st' (al ∖ list_to_set l).

Context (scale_nonneg : 0 <= MEM_SCALE) (var_pos : 0 < mem_block_var).

Notation pool_ok := (MemPoolInv.pool_ok JUMBO_FRAMES MEM_SCALE mem_block_var).
Notation is_block := (MemPoolInv.is_block JUMBO_FRAMES MEM_SCALE mem_block_var).
Notation first_block := (MemPoolInv.first_block JUMBO_FRAMES MEM_SCALE).
Notation block_address := (MemBlock.block_address JUMBO_FRAMES MEM_SCALE mem_block_var).

Lemma list_fuel m L l : list_ok m L l -> (length l < S (size m))%nat.
Proof. intros [N _ C _ _ _]. pose proof (chain_size _ _ _ N C). lia. Qed.

Lemma list_free_ok st free al L l : pool_ok st free al -> list_ok (mem_blocks st) L l -> list_to_set l ⊆ al ->
  exists st' free' L', list_free st L = Ok (st', L') /\ list_ok (mem_blocks st') L' [] /\ pool_ok st' free' (al ∖ list_to_set l).
Proof.
  intros P H Hl. exact (free_loop_ok (O := list_ops) _ _ _ scale_nonneg var_pos _ l st free al L P H ltac:(set_solver) (list_fuel _ _ _ H)).
Qed.

Lemma list2_free_ok st free al L l : pool_ok st free al -> list2_ok (mem_blocks st) L l -> list_to_set l ⊆ al ->
  exists st' free' L', list2_free st L = Ok (st', L') /\ list2_ok (mem_blocks st') L' [] /\ pool_ok st' free' (al ∖ list_to_set l).
Proof.
  intros P H Hl. exact (free_loop_ok (O := list2_ops) _ _ _ scale_nonneg var_pos _ l st free al L P H ltac:(set_solver) (list_fuel _ _ _ (ok2_list _ _ _ H))).
Qed.

Lemma reachable_ok st al : reachable st al -> exists free, pool_ok st free al.
Proof.
  induction 1 as [st E|st al sz a ex st' _ [free P] Hs E|st al a st' _ [free P] Ha E|st al m' _ [free P] T
                 |st al L l st' L' _ [free P] H Hl E|st al L l st' L' _ [free P] H Hl E].
  - destruct (pool_buffer_init_ok JUMBO_FRAMES _ _ scale_nonneg var_pos) as (st' & E' & P). rewrite E in E'. injection E' as <-. eauto.
  - destruct (get_free_mem_block_ok _ _ _ scale_nonneg var_pos _ _ _ _ P Hs) as [(q & a' & r & st2 & Hq & _ & Er & _ & E' & P')|[_ E']];
      rewrite E in E'; injection E' as -> -> ->; [|eauto].
    assert (a' <> NULL). { eapply is_block_not_null; [done..|]. eapply (po_member _ _ _ _ _ _ P q); [lia|]. rewrite Er. by left. }
    case_decide; [done|]. eauto.
  - destruct (free_mem_block_ok _ _ _ scale_nonneg var_pos _ _ _ _ P Ha) as (st2 & free2 & E' & P' & _). rewrite E in E'. injection E' as <-. eauto.
  - exists free. eapply pool_ok_client; try done. intros a. by rewrite elem_of_elements.
  - destruct (list_free_ok _ _ _ _ _ P H Hl) as (st2 & free2 & L2 & E' & _ & P'). rewrite E in E'. injection E' as <- <-. eauto.
  - destruct (list2_free_ok _ _ _ _ _ P H Hl) as (st2 & free2 & L2 & E' & _ & P'). rewrite E in E'. injection E' as <- <-. eauto.
Qed.

(** ** Counting blocks *)

Lemma block_of_index n i : (i < first_block n)%nat -> exists k, (k < n)%nat /\ is_block k (block_address i).
Proof.
  induction n as [|n IH]; intros Hi; [simpl in Hi; lia|]. destruct (Nat.lt_ge_cases i (first_block n)) as [Hlt|Hge].
  - destruct (IH Hlt) as (k & ? & ?). exists k. split; [lia|done].
  - change (first_block (S n)) with (first_block n + Z.to_nat (nb_blocks JUMBO_FRAMES MEM_SCALE n))%nat in Hi.
    exists n. split; [lia|]. exists (i - first_block n)%nat. split; [lia|]. f_equal. lia.
Qed.

Definition all_blocks : gset Z := list_to_set (map block_address (seq 0 (first_block 14))).

Lemma elem_all_blocks a : a ∈ all_blocks <-> exists k, (k < 14)%nat /\ is_block k a.
Proof.
  unfold all_blocks. rewrite elem_of_list_to_set, list_elem_of_In, in_map_iff. setoid_rewrite in_seq. split.
  - intros (i & <- & Hi). apply block_of_index. lia.
  - intros (k & Hk & j & Hj & ->). eexists. split; [reflexivity|].
    pose proof (first_block_mono JUMBO_FRAMES MEM_SCALE mem_block_var scale_nonneg var_pos (S k) 14 Hk) as M.
    change (first_block (S k)) with (first_block k + Z.to_nat (nb_blocks JUMBO_FRAMES MEM_SCALE k))%nat in M. lia.
Qed.

Lemma size_all_blocks : size all_blocks = first_block 14.
Proof.
  unfold all_blocks. rewrite size_list_to_set; [by rewrite length_map, length_seq|].
  assert (Inj eq eq block_address) by (intros i j; by apply block_address_inj).
  apply (NoDup_fmap_2 block_address), NoDup_seq.
Qed.

(** The blocks on the free lists of the first [n] pools. *)
Fixpoint free_blocks (free : nat -> list Z) (n : nat) : gset Z :=
  match n with O => ∅ | S n' => free_blocks free n' ∪ list_to_set (free n') end.

Lemma elem_free_blocks free n a : a ∈ free_blocks free n <-> exists k, (k < n)%nat /\ a ∈ free k.
Proof.
  induction n as [|n IH]; simpl.
  - split; [by intros ?%not_elem_of_empty|]. intros (k & Hk & _). lia.
  - rewrite elem_of_union, IH, elem_of_list_to_set. split.
    + intros [(k & Hk & ?)|?]; [exists k|exists n]; (split; [lia|done]).
    + intros (k & Hk & Ha). destruct (decide (k = n)) as [->|]; [by right|]. left. exists k. split; [lia|done].
Qed.

Lemma size_free_blocks st free al n : pool_ok st free al -> (n <= 14)%nat ->
  Z.of_nat (size (free_blocks free n)) = foldr (fun l s => nb_elements l + s) 0 (take n (mem_lists st)).
Proof.
  intros P. induction n as [|n IH]; intros Hn; [done|].
  destruct (pool_list _ _ _ scale_nonneg var_pos _ _ _ n P ltac:(lia)) as (l & El & Hl).
  rewrite (take_S_r _ _ _ El), foldr_app. simpl.
  rewrite size_union, Nat2Z.inj_add, IH, size_list_to_set by (apply Hl || lia ||
    (intros a (k & Hk & Ha)%elem_free_blocks Ha'%elem_of_list_to_set;
     eapply (free_disjoint _ _ _ scale_nonneg var_pos _ _ _ k n); try done; lia)).
  rewrite (ok_count _ _ _ Hl). generalize (take n (mem_lists st)). induction l0 as [|x r IHr]; simpl; lia.
Qed.

Lemma blocks_partition st free al : pool_ok st free al ->
  all_blocks = free_blocks free 14 ∪ al /\ free_blocks free 14 ## al.
Proof.
  intros P. split.
  - apply set_eq. intros a. rewrite elem_of_union, elem_all_blocks, elem_free_blocks, (po_out _ _ _ _ _ _ P). split.
    + intros (k & Hk & Hb). destruct (decide (a ∈ free k)); [left; eauto|right; eauto].
    + intros [(k & Hk & Ha)|(k & Hk & Hb & _)]; [|eauto]. exists k. split; [done|]. by eapply po_member.
  - intros a (k & Hk & Ha)%elem_free_blocks Hal. by eapply (allocated_not_free _ _ _ scale_nonneg var_pos).
Qed.

(** C23. Whatever the program did before, [get_free_mem_block] for fewer bytes
    than the largest block returns, and either it calls [macphy_exit] and
    gives [NULL], which happens only when every pool with large enough blocks
    is empty, or it gives a block that no client holds, whose buffer is longer
    than the request, is not [NULL] and overlaps the buffer of no block that a
    client holds. *)
Theorem mem_block_granted st al sizeP : reachable st al -> 0 <= sizeP < MEM_MNGT_MB12_BLOCK_SIZE ->
  exists a ex st', get_free_mem_block st sizeP = Ok (a, ex, st') /\
  ((a = NULL /\ ex = true /\ st' = st /\
    forall k l, (k <= 12)%nat -> sizeP < block_size k -> mem_lists st !! k = Some l -> nb_elements l = 0) \/
   (ex = false /\ a ∉ al /\ exists b, mem_blocks st' !! a = Some b /\
    sizeP < block_size (Z.to_nat (pool_id b)) /\ data b <> NULL /\
    forall a' b', a' ∈ al -> mem_blocks st' !! a' = Some b' -> pool_id b' <= 12 -> disjoint (area b) (area b'))).
Proof.
  intros [free P]%reachable_ok Hs.
  destruct (get_free_mem_block_ok _ _ _ scale_nonneg var_pos _ _ _ _ P Hs) as [(q & a & r & st' & Hq & Hc & Er & _ & E & P')|[Hi E]].
  - exists a, false, st'. split; [done|]. right. assert (Ha : a ∈ free q) by (rewrite Er; by left).
    assert (Hb : is_block q a) by (apply (po_member _ _ _ _ _ _ P); [lia|done]). split; [done|].
    split; [intros Hal; eapply (allocated_not_free _ _ _ scale_nonneg var_pos _ _ _ _ q P Hal); [lia|done]|].
    pose proof (po_placed _ _ _ _ _ _ P') as Pl.
    destruct (placed_block _ _ _ scale_nonneg var_pos _ q a Pl ltac:(lia) Hb) as (b & j & Eb & Hp & Hj & Hd).
    exists b. rewrite Hp, Nat2Z.id, Hd. split_and!; try done.
    + pose proof (data_in_pool JUMBO_FRAMES _ _ scale_nonneg var_pos q j Hq Hj). unfold NULL. lia.
    + intros a' b' Ha' Eb' Hp'. pose proof Ha' as (k & Hk & Hbk & _)%(po_out _ _ _ _ _ _ P).
      destruct (placed_block _ _ _ scale_nonneg var_pos _ k a' Pl Hk Hbk) as (x & _ & Ex & Hpx & _). rewrite Eb' in Ex. injection Ex as <-.
      eapply (areas_disjoint _ _ _ scale_nonneg var_pos _ q k a a'); try done; [lia|].
      intros ->. eapply (allocated_not_free _ _ _ scale_nonneg var_pos _ _ _ _ q P Ha'); [lia|done].
  - exists NULL, true, st. split; [done|]. left. split_and!; try done. intros k l Hk Hb El.
    rewrite (ok_count _ _ _ (po_list _ _ _ _ _ _ P k l El)). by rewrite Hi.
Qed.

(** C24. No block is ever lost or duplicated: in every reachable state the
    counts of the fourteen free lists and the number of blocks with clients
    add up to [MEM_MNGT_NB_ELEMENTS], and each free list is well linked and
    has only blocks of its own pool that no client holds. *)
Theorem mem_pool_conserved st al : reachable st al ->
  foldr (fun l s => nb_elements l + s) 0 (mem_lists st) + Z.of_nat (size al) =
    Z.of_nat (MEM_MNGT_NB_ELEMENTS JUMBO_FRAMES MEM_SCALE) /\
  forall k l, mem_lists st !! k = Some l -> exists s, list_ok (mem_blocks st) l s /\
    forall a, a ∈ s -> a ∉ al /\ exists b, mem_blocks st !! a = Some b /\ pool_id b = Z.of_nat k.
Proof.
  intros [free P]%reachable_ok. split.
  - rewrite <- (first_block_total JUMBO_FRAMES MEM_SCALE mem_block_var scale_nonneg var_pos), <- size_all_blocks.
    destruct (blocks_partition _ _ _ P) as [-> D]. rewrite size_union, Nat2Z.inj_add by done.
    rewrite (size_free_blocks _ _ _ 14 P) by done. rewrite firstn_all2; [done|]. by rewrite (po_length _ _ _ _ _ _ P).
  - intros k l El. exists (free k). split; [by apply (po_list _ _ _ _ _ _ P)|]. intros a Ha.
    assert (Hk : (k < 14)%nat) by (apply lookup_lt_Some in El; by rewrite (po_length _ _ _ _ _ _ P) in El).
    split; [intros Hal; by eapply (allocated_not_free _ _ _ scale_nonneg var_pos _ _ _ _ k P Hal)|].
    destruct (placed_block _ _ _ scale_nonneg var_pos _ k a (po_placed _ _ _ _ _ _ P) Hk) as (b & _ & ? & ? & _); [|eauto].
    by apply (po_member _ _ _ _ _ _ P).
Qed.

(** C33. [list_free] and [list2_free] end: given a well linked list of blocks
    that clients hold, the loop stops after as many rounds as there are
    blocks, the list is empty, and exactly its blocks went back to the pools. *)
Theorem list_free_terminates st al L l : reachable st al -> list_to_set l ⊆ al ->
  (list_ok (mem_blocks st) L l ->
   exists st' L', list_free st L = Ok (st', L') /\ list_ok (mem_blocks st') L' [] /\ reachable st' (al ∖ list_to_set l)) /\
  (list2_ok (mem_blocks st) L l ->
   exists st' L', list2_free st L = Ok (st', L') /\ list2_ok (mem_blocks st') L' [] /\ reachable st' (al ∖ list_to_set l)).
Proof.
  intros R Hl. destruct (reachable_ok _ _ R) as [free P]. split; intros H.
  - destruct (list_free_ok _ _ _ _ _ P H Hl) as (st' & free' & L' & E & H' & _). eauto 10 using reach_list_free.
  - destruct (list2_free_ok _ _ _ _ _ P H Hl) as (st' & free' & L' & E & H' & _). eauto 10 using reach_list2_free.
Qed.

(** A request for exactly [MEM_MNGT_MB12_BLOCK_SIZE] bytes passes the
    test [sizeP > MEM_MNGT_MB12_BLOCK_SIZE] and selects pool 13, the COPY
    pool: on the initialised pools the caller gets a block whose [data] is
    [NULL]. *)
Theorem mem_block_of_largest_size_has_no_buffer st :
  pool_buffer_init JUMBO_FRAMES MEM_SCALE mem_block_var = Ok st ->
  exists a b st', get_free_mem_block st MEM_MNGT_MB12_BLOCK_SIZE = Ok (a, false, st') /\
    mem_blocks st' !! a = Some b /\ pool_id b = MEM_MNGT_POOL_ID_COPY /\ data b = NULL.
Proof.
  intros E. destruct (pool_buffer_init_ok JUMBO_FRAMES _ _ scale_nonneg var_pos) as (st0 & E' & P). rewrite E in E'. injection E' as <-.
  destruct (pool_list _ _ _ scale_nonneg var_pos _ _ _ 13 P ltac:(lia)) as (l & El & Hl).
  destruct (addresses_cons JUMBO_FRAMES MEM_SCALE mem_block_var scale_nonneg var_pos (first_block 13) (Z.to_nat (nb_blocks JUMBO_FRAMES MEM_SCALE 13)))
    as (a & r & Ea); [change (nb_blocks JUMBO_FRAMES MEM_SCALE 13) with 1024; lia|].
  cbv beta in Hl. rewrite Ea in Hl.
  destruct (list_remove_head_cons _ _ _ _ Hl) as (m' & l' & Er & _ & _ & T). destruct (cons_facts _ _ _ _ Hl) as (_ & Ha & _).
  unfold get_free_mem_block. rewrite Z.ltb_irrefl. change (select_pool 27 (Z.shiftr MEM_MNGT_MB12_BLOCK_SIZE 6) 0) with (@Ok Z 13).
  cbn [mbind res_bind take_block]. change (Z.to_nat 13) with 13%nat. rewrite El. cbn [of_option mbind res_bind]. rewrite Er.
  cbn [mbind res_bind]. null_test. cbn [negb].
  assert (Hb : is_block 13 a). { apply (po_member _ _ _ _ _ _ P); [lia|]. cbv beta. rewrite Ea. by left. }
  destruct (placed_block JUMBO_FRAMES _ _ scale_nonneg var_pos m' 13 a) as (b & j & Eb & Hp & _ & Hd);
    [by eapply placed_touched; [..|apply P]|lia|done|].
  exists a, b. eexists. split; [reflexivity|]. by split_and!.
Qed.

End Claims.

(** The pools of a build with [MEM_SCALE] 1, at the address 4096. *)
Lemma demo_init : exists st, pool_buffer_init false 1 4096 = Ok st /\ reachable false 1 4096 st ∅.
Proof.
  destruct (pool_buffer_init_ok false 1 4096 ltac:(lia) ltac:(lia)) as (st & E & _). exists st. split; [done|by apply reach_init].
Qed.

Lemma mem_block_granted_witness : exists st al, (reachable false 1 4096 st al /\ 0 <= 100 < MEM_MNGT_MB12_BLOCK_SIZE) /\
  exists a ex st', get_free_mem_block st 100 = Ok (a, ex, st').
Proof.
  destruct demo_init as (st & _ & R). exists st, ∅. assert (H : 0 <= 100 < MEM_MNGT_MB12_BLOCK_SIZE) by done. split; [done|].
  destruct (mem_block_granted false 1 4096 ltac:(lia) ltac:(lia) st ∅ 100 R H) as (a & ex & st' & E & _). eauto.
Defined.

Lemma mem_pool_conserved_witness : exists st al, reachable false 1 4096 st al /\
  foldr (fun l s => nb_elements l + s) 0 (mem_lists st) + Z.of_nat (size al) = Z.of_nat (MEM_MNGT_NB_ELEMENTS false 1).
Proof.
  destruct demo_init as (st & _ & R). exists st, ∅. split; [done|].
  apply (mem_pool_conserved false 1 4096 ltac:(lia) ltac:(lia) st ∅ R).
Defined.

(** A client that took one block and keeps it on a list of its own. *)
Lemma demo_client : exists st a L, reachable false 1 4096 st {[a]} /\ list_ok (mem_blocks st) L [a].
Proof.
  assert (H100 : 0 <= 100 < MEM_MNGT_MB12_BLOCK_SIZE) by (unfold MEM_MNGT_MB12_BLOCK_SIZE, MEM_MNGT_MB0_BLOCK_SIZE; lia).
  destruct (pool_buffer_init_ok false 1 4096 ltac:(lia) ltac:(lia)) as (st & E & P). assert (R : reachable false 1 4096 st ∅) by (by apply reach_init).
  destruct (get_free_mem_block_ok false 1 4096 ltac:(lia) ltac:(lia) _ _ _ 100 P H100) as [(q & a & r & st' & Hq & _ & Er & _ & Eg & P')|[Hi _]].
  - pose proof (reach_alloc _ _ _ _ _ 100 _ _ _ R H100 Eg) as R1.
    assert (Hb : is_block false 1 4096 q a) by (apply (po_member _ _ _ _ _ _ P); [lia|]; rewrite Er; by left).
    pose proof (is_block_not_null false 1 4096 ltac:(lia) ltac:(lia) _ _ Hb). rewrite decide_False, union_empty_r_L in R1 by done.
    destruct (placed_block false 1 4096 ltac:(lia) ltac:(lia) _ q a (po_placed _ _ _ _ _ _ P') ltac:(lia) Hb) as (b & _ & Eb & _).
    destruct (list_add_tail_ok (mem_blocks st') list_init [] a (list_ok_init _)) as (m' & L & _ & HL & T); [by split_and!; [rewrite Eb| |apply not_elem_of_nil]|].
    exists (mk_pool m' (mem_lists st')), a, L. split; [|done]. eapply reach_link; [done|]. by rewrite elements_singleton.
  - specialize (Hi 1%nat ltac:(lia) eq_refl).
    destruct (addresses_cons false 1 4096 ltac:(lia) ltac:(lia) (first_block false 1 1) (Z.to_nat (nb_blocks false 1 1))) as (a & r & Ea).
    + change (nb_blocks false 1 1) with 4096. lia.
    + cbv beta in Hi. rewrite Ea in Hi. done.
Qed.

Lemma list_free_terminates_witness : exists st a L, (reachable false 1 4096 st {[a]} /\ list_ok (mem_blocks st) L [a]) /\
  exists st' L', list_free st L = Ok (st', L') /\ list_ok (mem_blocks st') L' [].
Proof.
  destruct demo_client as (st & a & L & R & H). exists st, a, L. split; [done|].
  destruct (proj1 (list_free_terminates false 1 4096 ltac:(lia) ltac:(lia) st {[a]} L [a] R ltac:(set_solver)) H) as (st' & L' & E & H' & _). eauto.
Defined.

Lemma mem_block_of_largest_size_has_no_buffer_witness : exists st, pool_buffer_init false 1 4096 = Ok st /\
  exists a b st', get_free_mem_block st MEM_MNGT_MB12_BLOCK_SIZE = Ok (a, false, st') /\ mem_blocks st' !! a = Some b /\ data b = NULL.
Proof.
  destruct demo_init as (st & E & _). exists st. split; [done|].
  destruct (mem_block_of_largest_size_has_no_buffer false 1 4096 ltac:(lia) ltac:(lia) st E) as (a & b & st' & ? & ? & _ & ?). eauto 10.
Defined.

(** Releasing a block twice links it to itself: the next two requests get the
    same block. *)
Lemma double_free_shares_block :
  let st := mk_pool {[8 := mk_mem_block NULL NULL 0 512]} (replicate 14 list_init) in
  (st1 ← free_mem_block st 8; st2 ← free_mem_block st1 8;
   '(a, _, st3) ← get_free_mem_block st2 10; '(b, _, _) ← get_free_mem_block st3 10; Ok (a, b)) = Ok (8, 8).
Proof. vm_compute. reflexivity. Qed.
End MemClaims.
