(* ===== verification/RlcUmEntity.v ===== *)
(** * RLC UM: the entity, its state machine and its configuration

    openair2/LAYER2/RLC/UM_v9.3.0: the constants, the structures of
    rlc_um_structs.h and rlc_um_entity.h, rlc_um_fsm.c and
    rlc_um_control_primitives.c.

    A memory block is the list of its bytes. [upper_sdus] records the
    [rlc_data_ind] up-calls (the SDUs handed to PDCP, oldest first). Locks
    have no field: each handler runs between a lock and an unlock, and the
    only handler that can find the lock taken ([pthread_mutex_trylock] in the
    time-out check) takes that outcome from the context. *)

From S2P Require Import Prelude.

Module RlcUm.

Definition RLC_UM_SN_10_BITS_MODULO : Z := 1024.
Definition RLC_UM_WINDOW_SIZE_SN_10_BITS : Z := 512.
Definition RLC_UM_SN_5_BITS_MODULO : Z := 32.
Definition RLC_UM_WINDOW_SIZE_SN_5_BITS : Z := 16.
Definition RLC_UM_SEGMENT_NB_MAX_LI_PER_PDU : Z := 24.
Definition RLC_SDU_MAX_SIZE_DATA_PLANE : Z := 9000.
Definition RLC_SDU_MAX_SIZE_CONTROL_PLANE : Z := 2000.

(** Protocol states; the entity's field is an integer and the code has a
    [default] branch for values that are none of the three. *)
Definition RLC_NULL_STATE : Z := 0.
Definition RLC_DATA_TRANSFER_READY_STATE : Z := 1.
Definition RLC_LOCAL_SUSPEND_STATE : Z := 8.

Definition RLC_UM_RECEIVE_CRLC_CONFIG_REQ_ENTER_NULL_STATE_EVENT : Z := 0x00.
Definition RLC_UM_RECEIVE_CRLC_CONFIG_REQ_ENTER_DATA_TRANSFER_READY_STATE_EVENT : Z := 0x01.
Definition RLC_UM_RECEIVE_CRLC_SUSPEND_REQ_EVENT : Z := 0x10.
Definition RLC_UM_TRANSMIT_CRLC_SUSPEND_CNF_EVENT : Z := 0x11.
Definition RLC_UM_RECEIVE_CRLC_RESUME_REQ_EVENT : Z := 0x12.

(** The running context: time, and the outcome of the calls whose result
    depends on the environment (allocation of a block, [trylock]). *)
Record protocol_ctxt_t : Type := mk_ctxt {
  frame : Z;
  subframe : Z;
  enb_flag : bool;
  mem_block_ok : bool;
  trylock_ok : bool
}.

Definition PROTOCOL_CTXT_TIME_MILLI_SECONDS (c : protocol_ctxt_t) : Z :=
  u32 (frame c * 10 + subframe c).

Record rlc_um_timer_t : Type := mk_timer {
  ms_time_out : Z;
  ms_start : Z;
  ms_duration : Z;
  running : bool;
  timed_out : bool
}.
#[export] Instance rlc_um_timer_eta : Settable rlc_um_timer_t := fun t =>
  mk_timer (ms_time_out t) (ms_start t) (ms_duration t) (running t) (timed_out t).

(** A queued SDU: its bytes and the management structure in front of them. *)
Record rlc_um_tx_sdu_t : Type := mk_tx_sdu {
  sdu_bytes : list Z;
  sdu_creation_time : Z;
  sdu_remaining_size : Z;
  sdu_segmented_size : Z;
  sdu_size : Z
}.
#[export] Instance rlc_um_tx_sdu_eta : Settable rlc_um_tx_sdu_t := fun s =>
  mk_tx_sdu (sdu_bytes s) (sdu_creation_time s) (sdu_remaining_size s)
    (sdu_segmented_size s) (sdu_size s).

(** [struct mac_tb_ind] / [struct mac_tb_req]: a PDU and its size. *)
Record mac_tb : Type := mk_tb { data_ptr : list Z; tb_size : Z }.

Record rlc_um_entity_t : Type := mk_entity {
  initialized : bool;
  protocol_state : Z;
  is_data_plane : bool;
  is_mxch : Z;
  rb_id : Z;
  vt_us : Z;
  vr_ur : Z;
  vr_ux : Z;
  vr_uh : Z;
  t_reordering : rlc_um_timer_t;
  tx_sn_length : Z;
  rx_sn_length : Z;
  tx_header_min_length_in_bytes : Z;
  rx_header_min_length_in_bytes : Z;
  tx_sn_modulo : Z;
  rx_sn_modulo : Z;
  rx_um_window_size : Z;
  tx_um_window_size : Z;
  input_sdus : list rlc_um_tx_sdu_t;
  buffer_occupancy : Z;
  nb_bytes_requested_by_mac : Z;
  pdus_to_mac_layer : list mac_tb;
  output_sdu_in_construction : option (list Z);
  output_sdu_size_to_write : Z;
  dar_buffer : list (option mac_tb);
  last_reassemblied_sn : Z;
  last_reassemblied_missing_sn : Z;
  reassembly_missing_sn_detected : bool;
  first_pdu : bool;
  stat_tx_pdcp_sdu : Z;
  stat_tx_pdcp_bytes : Z;
  stat_tx_pdcp_sdu_discarded : Z;
  stat_tx_pdcp_bytes_discarded : Z;
  stat_tx_data_pdu : Z;
  stat_tx_data_bytes : Z;
  stat_rx_pdcp_sdu : Z;
  stat_rx_pdcp_bytes : Z;
  stat_rx_data_pdus_duplicate : Z;
  stat_rx_data_bytes_duplicate : Z;
  stat_rx_data_pdu : Z;
  stat_rx_data_bytes : Z;
  stat_rx_data_pdu_dropped : Z;
  stat_rx_data_bytes_dropped : Z;
  stat_rx_data_pdu_out_of_window : Z;
  stat_rx_data_bytes_out_of_window : Z;
  stat_timer_reordering_timed_out : Z;
  upper_sdus : list (list Z)
}.
#[export] Instance rlc_um_entity_eta : Settable rlc_um_entity_t := fun r => mk_entity
  (initialized r) (protocol_state r) (is_data_plane r) (is_mxch r) (rb_id r) (vt_us r)
  (vr_ur r) (vr_ux r) (vr_uh r) (t_reordering r) (tx_sn_length r) (rx_sn_length r)
  (tx_header_min_length_in_bytes r) (rx_header_min_length_in_bytes r) (tx_sn_modulo r)
  (rx_sn_modulo r) (rx_um_window_size r) (tx_um_window_size r) (input_sdus r)
  (buffer_occupancy r) (nb_bytes_requested_by_mac r) (pdus_to_mac_layer r)
  (output_sdu_in_construction r) (output_sdu_size_to_write r) (dar_buffer r)
  (last_reassemblied_sn r) (last_reassemblied_missing_sn r)
  (reassembly_missing_sn_detected r) (first_pdu r) (stat_tx_pdcp_sdu r)
  (stat_tx_pdcp_bytes r) (stat_tx_pdcp_sdu_discarded r) (stat_tx_pdcp_bytes_discarded r)
  (stat_tx_data_pdu r) (stat_tx_data_bytes r) (stat_rx_pdcp_sdu r) (stat_rx_pdcp_bytes r)
  (stat_rx_data_pdus_duplicate r) (stat_rx_data_bytes_duplicate r) (stat_rx_data_pdu r)
  (stat_rx_data_bytes r) (stat_rx_data_pdu_dropped r) (stat_rx_data_bytes_dropped r)
  (stat_rx_data_pdu_out_of_window r) (stat_rx_data_bytes_out_of_window r)
  (stat_timer_reordering_timed_out r) (upper_sdus r).

Definition zero_timer : rlc_um_timer_t := mk_timer 0 0 0 false false.

(** The entity's memory after [memset(rlc_pP, 0, sizeof)]. The record of the
    up-calls is not part of the C object and survives. *)
Definition memset_zero (r : rlc_um_entity_t) : rlc_um_entity_t :=
  mk_entity false 0 false 0 0 0 0 0 0 zero_timer 0 0 0 0 0 0 0 0 [] 0 0 [] None 0 [] 0 0
    false false 0 0 0 0 0 0 0 0 0 0 0 0 0 0 0 0 0 (upper_sdus r).

(** ** rlc_um_fsm.c *)

(** The result is the return value and whether [macphy_exit] was called. *)
Definition rlc_um_fsm_notify_event (rlc_pP : rlc_um_entity_t) (eventP : Z) :
    Z * bool * rlc_um_entity_t :=
  let st := protocol_state rlc_pP in
  if st =? RLC_NULL_STATE then
    if eventP =? RLC_UM_RECEIVE_CRLC_CONFIG_REQ_ENTER_DATA_TRANSFER_READY_STATE_EVENT then
      (1, false, rlc_pP <| protocol_state := RLC_DATA_TRANSFER_READY_STATE |>)
    else (0, true, rlc_pP)
  else if st =? RLC_DATA_TRANSFER_READY_STATE then
    if eventP =? RLC_UM_RECEIVE_CRLC_CONFIG_REQ_ENTER_NULL_STATE_EVENT then
      (1, false, rlc_pP <| protocol_state := RLC_NULL_STATE |>)
    else if (eventP =? RLC_UM_RECEIVE_CRLC_SUSPEND_REQ_EVENT)
            || (eventP =? RLC_UM_TRANSMIT_CRLC_SUSPEND_CNF_EVENT) then
      (1, false, rlc_pP <| protocol_state := RLC_LOCAL_SUSPEND_STATE |>)
    else (0, false, rlc_pP)
  else if st =? RLC_LOCAL_SUSPEND_STATE then
    if eventP =? RLC_UM_RECEIVE_CRLC_CONFIG_REQ_ENTER_NULL_STATE_EVENT then
      (1, false, rlc_pP <| protocol_state := RLC_NULL_STATE |>)
    else if eventP =? RLC_UM_RECEIVE_CRLC_RESUME_REQ_EVENT then
      (1, false, rlc_pP <| protocol_state := RLC_DATA_TRANSFER_READY_STATE |>)
    else (0, false, rlc_pP)
  else (0, false, rlc_pP).

(** ** The reordering timer (rlc_um_dar.c) *)

Definition rlc_um_stop_and_reset_timer_reordering (rlc_pP : rlc_um_entity_t) : rlc_um_entity_t :=
  rlc_pP <| t_reordering ::= fun t =>
    t <| running := false |> <| ms_time_out := 0 |> <| ms_start := 0 |> <| timed_out := false |> |>.

Definition rlc_um_start_timer_reordering (ctxt_pP : protocol_ctxt_t)
    (rlc_pP : rlc_um_entity_t) : rlc_um_entity_t :=
  let now := PROTOCOL_CTXT_TIME_MILLI_SECONDS ctxt_pP in
  rlc_pP <| t_reordering ::= fun t =>
    if 0 <? ms_duration t then
      t <| timed_out := false |> <| running := true |>
        <| ms_time_out := u32 (now + ms_duration t) |> <| ms_start := now |>
    else t <| timed_out := false |> |>.

Definition rlc_um_init_timer_reordering (rlc_pP : rlc_um_entity_t) (ms_durationP : Z) :
    rlc_um_entity_t :=
  rlc_pP <| t_reordering := mk_timer 0 0 (u32 ms_durationP) false false |>.

(** ** rlc_um_control_primitives.c *)

Definition rlc_um_init (rlc_pP : rlc_um_entity_t) : rlc_um_entity_t :=
  if initialized rlc_pP then rlc_pP
  else
    (memset_zero rlc_pP)
      <| pdus_to_mac_layer := [] |> <| input_sdus := [] |>
      <| protocol_state := RLC_NULL_STATE |>
      <| rx_sn_length := 10 |> <| rx_header_min_length_in_bytes := 2 |>
      <| tx_sn_length := 10 |> <| tx_header_min_length_in_bytes := 2 |>
      <| dar_buffer := replicate 1024 None |>
      <| first_pdu := true |> <| initialized := true |>.

Definition rlc_um_reset_state_variables (rlc_pP : rlc_um_entity_t) : rlc_um_entity_t :=
  rlc_pP <| buffer_occupancy := 0 |> <| vt_us := 0 |>
    <| vr_ur := 0 |> <| vr_ux := 0 |> <| vr_uh := 0 |>.

(** Every block the entity owns is released, then the object is cleared. *)
Definition rlc_um_cleanup (rlc_pP : rlc_um_entity_t) : rlc_um_entity_t := memset_zero rlc_pP.

Definition configure_rx (rlc_pP : rlc_um_entity_t) (rx_sn_field_lengthP : Z) :
    option rlc_um_entity_t :=
  if rx_sn_field_lengthP =? 10 then
    Some (rlc_pP <| rx_sn_length := 10 |> <| rx_sn_modulo := RLC_UM_SN_10_BITS_MODULO |>
            <| rx_um_window_size := RLC_UM_WINDOW_SIZE_SN_10_BITS |>
            <| rx_header_min_length_in_bytes := 2 |>)
  else if rx_sn_field_lengthP =? 5 then
    Some (rlc_pP <| rx_sn_length := 5 |> <| rx_sn_modulo := RLC_UM_SN_5_BITS_MODULO |>
            <| rx_um_window_size := RLC_UM_WINDOW_SIZE_SN_5_BITS |>
            <| rx_header_min_length_in_bytes := 1 |>)
  else if negb (rx_sn_field_lengthP =? 0) then None
  else Some rlc_pP.

Definition configure_tx (rlc_pP : rlc_um_entity_t) (tx_sn_field_lengthP : Z) :
    option rlc_um_entity_t :=
  if tx_sn_field_lengthP =? 10 then
    Some (rlc_pP <| tx_sn_length := 10 |> <| tx_sn_modulo := RLC_UM_SN_10_BITS_MODULO |>
            <| tx_um_window_size := RLC_UM_WINDOW_SIZE_SN_10_BITS |>
            <| tx_header_min_length_in_bytes := 2 |>)
  else if tx_sn_field_lengthP =? 5 then
    Some (rlc_pP <| tx_sn_length := 5 |> <| tx_sn_modulo := RLC_UM_SN_5_BITS_MODULO |>
            <| tx_um_window_size := RLC_UM_WINDOW_SIZE_SN_5_BITS |>
            <| tx_header_min_length_in_bytes := 1 |>)
  else if negb (tx_sn_field_lengthP =? 0) then None
  else Some rlc_pP.

(** An invalid RX length returns before anything is written; an invalid TX
    length returns after the RX fields were written. *)
Definition rlc_um_configure (rlc_pP : rlc_um_entity_t)
    (timer_reorderingP rx_sn_field_lengthP tx_sn_field_lengthP is_mXchP : Z) : rlc_um_entity_t :=
  match configure_rx rlc_pP rx_sn_field_lengthP with
  | None => rlc_pP
  | Some r1 =>
      match configure_tx r1 tx_sn_field_lengthP with
      | None => r1
      | Some r2 =>
          let r3 := if 0 <? is_mXchP
                    then r2 <| tx_um_window_size := 0 |> <| rx_um_window_size := 0 |>
                    else r2 in
          let r4 := r3 <| is_mxch := is_mXchP |>
                       <| last_reassemblied_sn := u16 (rx_sn_modulo r3 - 1) |>
                       <| last_reassemblied_missing_sn := u16 (rx_sn_modulo r3 - 1) |>
                       <| reassembly_missing_sn_detected := false |> in
          let r5 := (rlc_um_init_timer_reordering r4 timer_reorderingP) <| first_pdu := true |> in
          rlc_um_reset_state_variables r5
      end
  end.

Definition rlc_um_set_debug_infos (rlc_pP : rlc_um_entity_t) (srb_flagP : bool) (rb_idP : Z) :
    rlc_um_entity_t :=
  rlc_pP <| rb_id := rb_idP |> <| is_data_plane := negb srb_flagP |>.

(** [rlc_um_info_t] *)
Record rlc_um_info_t : Type := mk_um_info {
  timer_reordering : Z;
  sn_field_length : Z;
  is_mXch : Z
}.

(** [rlc_p] is the entity the collection holds for the bearer ([None]: not
    found, nothing happens). *)
Definition config_req_rlc_um (srb_flagP : bool) (config_um_pP : rlc_um_info_t) (rb_idP : Z)
    (rlc_p : option rlc_um_entity_t) : option rlc_um_entity_t :=
  match rlc_p with
  | None => None
  | Some r =>
      match rlc_um_fsm_notify_event (rlc_um_init r)
              RLC_UM_RECEIVE_CRLC_CONFIG_REQ_ENTER_DATA_TRANSFER_READY_STATE_EVENT with
      | (0, _, r1) => Some r1
      | (_, _, r1) =>
          Some (rlc_um_configure (rlc_um_set_debug_infos r1 srb_flagP rb_idP)
                  (timer_reordering config_um_pP) (sn_field_length config_um_pP)
                  (sn_field_length config_um_pP) (is_mXch config_um_pP))
      end
  end.

Definition t_Reordering_tab : list Z :=
  [0;5;10;15;20;25;30;35;40;45;50;55;60;65;70;75;80;85;90;95;100;110;120;130;140;150;160;
   170;180;190;200].

(** The ASN.1 enumerations: [SN_FieldLength_size5] is 0, [size10] is 1. *)
Definition sn_FieldLength_bits (v : Z) : option Z :=
  if v =? 0 then Some 5 else if v =? 1 then Some 10 else None.

(** [ul_rlc_pP]: the UL field length; [dl_rlc_pP]: the DL field length and
    the t-Reordering index (enumerations: not negative). The two early returns leave the entity in the
    READY state, unconfigured. *)
Definition config_req_rlc_um_asn1 (enb : bool) (srb_flagP : bool) (mbms_flagP : Z)
    (ul_rlc_pP : option Z) (dl_rlc_pP : option (Z * Z)) (rb_idP : Z)
    (rlc_p : option rlc_um_entity_t) : res rlc_um_entity_t :=
  match rlc_p with
  | None => Fault AssertFatal
  | Some r =>
      match rlc_um_fsm_notify_event (rlc_um_init r)
              RLC_UM_RECEIVE_CRLC_CONFIG_REQ_ENTER_DATA_TRANSFER_READY_STATE_EVENT with
      | (0, _, r1) => Ok r1
      | (_, _, r1) =>
          let r2 := rlc_um_set_debug_infos r1 srb_flagP rb_idP in
          let ul := match ul_rlc_pP with None => Some 0 | Some v => sn_FieldLength_bits v end in
          match ul with
          | None => Ok r2
          | Some ul_sn =>
              let dl := match dl_rlc_pP with
                        | None => Some (0, 0)
                        | Some (v, t) =>
                            match sn_FieldLength_bits v, t_Reordering_tab !! Z.to_nat t with
                            | Some b, Some ms => Some (b, ms)
                            | _, _ => None
                            end
                        end in
              match dl with
              | None => Ok r2
              | Some (dl_sn, t_ms) =>
                  Ok (if enb then rlc_um_configure r2 t_ms ul_sn dl_sn mbms_flagP
                      else rlc_um_configure r2 t_ms dl_sn ul_sn mbms_flagP)
              end
          end
      end
  end.

End RlcUm.
