(* ===== verification/RlcUmDar.v ===== *)
(** * RLC UM receiver: windows, reordering buffer and reassembly

    openair2/LAYER2/RLC/UM_v9.3.0/rlc_um_dar.c, rlc_um_reassembly.c and
    rlc_um_receiver.c, as functions on [rlc_um_entity_t]. A pointer into a
    PDU is the suffix of its bytes; a read past the end is
    [Fault OutOfBounds]. The loops of the source run with fuel
    [rx_sn_modulo]: each iteration moves a sequence number forward by one
    modulo [rx_sn_modulo], and the theorems of RlcUmRxInv show that this
    fuel is never exhausted. *)

From S2P Require Import Prelude RlcUmEntity.

Module RlcUmDar.
Import RlcUm.

(** Framing information and extension bit values. *)
Definition RLC_FI_FIRST_LAST : Z := 0.      (* 1st byte is 1st of SDU, last is last *)
Definition RLC_FI_FIRST_NOT_LAST : Z := 1.
Definition RLC_FI_NOT_FIRST_LAST : Z := 2.
Definition RLC_FI_NOT_FIRST_NOT_LAST : Z := 3.
Definition RLC_E_FIXED_PART_DATA_FIELD_FOLLOW : Z := 0.

Definition byte_at (l : list Z) (i : nat) : res Z := of_option OutOfBounds (l !! i).

(** ** Window tests *)

Definition rlc_um_in_window (rlc_pP : rlc_um_entity_t) (lower_boundP snP higher_boundP : Z) : Z :=
  let modulus := s16 (vr_uh rlc_pP - rx_um_window_size rlc_pP) in
  let lower := s16 (Z.rem (s16 lower_boundP - modulus) (rx_sn_modulo rlc_pP)) in
  let higher := s16 (Z.rem (s16 higher_boundP - modulus) (rx_sn_modulo rlc_pP)) in
  let sn := s16 (Z.rem (s16 snP - modulus) (rx_sn_modulo rlc_pP)) in
  if sn <? lower then -2
  else if higher <? sn then -1
  else if lower =? sn then (if higher =? sn then 3 else 1)
  else if higher =? sn then 2
  else 0.

Definition rlc_um_in_reordering_window (rlc_pP : rlc_um_entity_t) (snP : Z) : Z :=
  let modulus := s16 (vr_uh rlc_pP - rx_um_window_size rlc_pP) in
  let sn_mod := s16 (Z.rem (s16 snP - modulus) (rx_sn_modulo rlc_pP)) in
  if (0 <=? sn_mod) && (sn_mod <? rx_um_window_size rlc_pP) then 0 else -1.

(** ** The reception buffer *)

Definition dar_get (rlc_pP : rlc_um_entity_t) (sn : Z) : res (option mac_tb) :=
  if sn <? 0 then Fault OutOfBounds
  else of_option OutOfBounds (dar_buffer rlc_pP !! Z.to_nat sn).

Definition dar_set (rlc_pP : rlc_um_entity_t) (sn : Z) (p : option mac_tb) : rlc_um_entity_t :=
  rlc_pP <| dar_buffer ::= <[Z.to_nat sn := p]> |>.

Definition rlc_um_get_pdu_from_dar_buffer (rlc_pP : rlc_um_entity_t) (snP : Z) :
    res (option mac_tb) := dar_get rlc_pP (u16 snP).

Definition rlc_um_remove_pdu_from_dar_buffer (rlc_pP : rlc_um_entity_t) (snP : Z) :
    res rlc_um_entity_t :=
  _ ← dar_get rlc_pP (u16 snP); Ok (dar_set rlc_pP (u16 snP) None).

Definition rlc_um_store_pdu_in_dar_buffer (rlc_pP : rlc_um_entity_t) (pdu : mac_tb) (snP : Z) :
    res rlc_um_entity_t :=
  _ ← dar_get rlc_pP (u16 snP); Ok (dar_set rlc_pP (u16 snP) (Some pdu)).

(** ** rlc_um_reassembly.c *)

Definition rlc_um_clear_rx_sdu (rlc_pP : rlc_um_entity_t) : rlc_um_entity_t :=
  rlc_pP <| output_sdu_size_to_write := 0 |>.

Definition memcpy_at (buf : list Z) (off : Z) (src : list Z) : list Z :=
  take (Z.to_nat off) buf ++ src ++ drop (Z.to_nat off + length src) buf.

Definition sdu_max_size (rlc_pP : rlc_um_entity_t) : Z :=
  if is_data_plane rlc_pP then RLC_SDU_MAX_SIZE_DATA_PLANE else RLC_SDU_MAX_SIZE_CONTROL_PLANE.

Definition rlc_um_reassembly (ctxt_pP : protocol_ctxt_t) (rlc_pP : rlc_um_entity_t)
    (src_pP : list Z) (lengthP : Z) : res rlc_um_entity_t :=
  if lengthP <=? 0 then Ok rlc_pP
  else
    let r :=
      match output_sdu_in_construction rlc_pP with
      | None =>
          rlc_pP <| output_sdu_in_construction := (if mem_block_ok ctxt_pP then Some [] else None) |>
                 <| output_sdu_size_to_write := 0 |>
      | Some _ => rlc_pP
      end in
    match output_sdu_in_construction r with
    | Some buf =>
        if output_sdu_size_to_write r + lengthP <=? sdu_max_size r then
          if Z.of_nat (length src_pP) <? lengthP then Fault OutOfBounds
          else Ok (r <| output_sdu_in_construction :=
                         Some (memcpy_at buf (output_sdu_size_to_write r)
                                 (take (Z.to_nat lengthP) src_pP)) |>
                     <| output_sdu_size_to_write ::= fun s => s + lengthP |>)
        else Ok (r <| output_sdu_size_to_write := 0 |>)
    | None => Ok r
    end.

Definition rlc_um_send_sdu (rlc_pP : rlc_um_entity_t) : rlc_um_entity_t :=
  match output_sdu_in_construction rlc_pP with
  | None => rlc_pP
  | Some buf =>
      let size := output_sdu_size_to_write rlc_pP in
      let r :=
        if 0 <? size then
          rlc_pP <| stat_rx_pdcp_sdu ::= fun n => u32 (n + 1) |>
                 <| stat_rx_pdcp_bytes ::= fun n => u32 (n + size) |>
                 <| upper_sdus ::= fun l => l ++ [take (Z.to_nat size) buf] |>
                 <| output_sdu_in_construction := None |>
        else rlc_pP in
      r <| output_sdu_size_to_write := 0 |>
  end.

(** ** Length indicators

    The result is [None] for the return value -1; otherwise the list of
    length indicators and the updated [*data_size_pP]. An iteration reads one
    or two indicators; the loop leaves when 24 are reached, so that 12
    iterations are enough. *)

Definition li1_of (b1 b2 : Z) : Z := Z.shiftl (Z.land b1 0x7F) 4 + Z.shiftr (Z.land b2 0xF0) 4.
Definition li2_of (b2 b3 : Z) : Z := Z.shiftl (Z.land b2 0x07) 8 + Z.land b3 0xFF.

Fixpoint read_lis (fuel : nat) (e_liP : list Z) (li_array : list Z) (data_size : Z) :
    res (option (list Z * Z)) :=
  match fuel with
  | O => Fault OutOfFuel
  | S fuel =>
      b1 ← byte_at e_liP 0;
      b2 ← byte_at e_liP 1;
      let e1 := Z.shiftr (Z.land b1 0x80) 7 in
      let li1 := li1_of b1 b2 in
      let arr1 := li_array ++ [li1] in
      let size1 := s32 (data_size - li1 - 2) in
      '(cont, e_liP', arr, size) ←
        (if e1 =? 0 then Ok (false, e_liP, arr1, size1)
         else
           b3 ← byte_at e_liP 2;
           let e2 := Z.shiftr (Z.land b2 0x08) 3 in
           let li2 := li2_of b2 b3 in
           let arr2 := arr1 ++ [li2] in
           let size2 := s32 (size1 - li2 - 1) in
           if e2 =? 0 then Ok (false, e_liP, arr2, size2)
           else Ok (true, drop 3 e_liP, arr2, size2));
      if RLC_UM_SEGMENT_NB_MAX_LI_PER_PDU <=? Z.of_nat (length arr) then Ok None
      else if cont : bool then read_lis fuel e_liP' arr size
      else Ok (Some (arr, size))
  end.

(** The returned data pointer is [data_p + ((num_li * 3 + 1) >> 1)]. *)
Definition rlc_um_read_length_indicators (data_p : list Z) (data_size : Z) :
    res (option (list Z * list Z * Z)) :=
  r ← read_lis 13 data_p [] data_size;
  Ok (match r with
      | None => None
      | Some (lis, size) => Some (drop (Nat.div2 (3 * length lis + 1)) data_p, lis, size)
      end).

(** [for (i = start; i < num_li; i++) { reassembly; send; data_p += li }] *)
Fixpoint reassemble_lis (ctxt_pP : protocol_ctxt_t) (r : rlc_um_entity_t) (data_p lis : list Z) :
    res (rlc_um_entity_t * list Z) :=
  match lis with
  | [] => Ok (r, data_p)
  | li :: lis =>
      r1 ← rlc_um_reassembly ctxt_pP r data_p li;
      reassemble_lis ctxt_pP (rlc_um_send_sdu r1) (drop (Z.to_nat li) data_p) lis
  end.

Definition drop_pdu_stats (r : rlc_um_entity_t) (tb : mac_tb) : rlc_um_entity_t :=
  r <| stat_rx_data_pdu_dropped ::= fun n => u32 (n + 1) |>
    <| stat_rx_data_bytes_dropped ::= fun n => u32 (n + tb_size tb) |>.

(** The header fields of a stored PDU: E, FI, the size and the bytes that
    follow the fixed part. *)
Definition pdu_header (r : rlc_um_entity_t) (tb : mac_tb) : res (Z * Z * Z * list Z) :=
  b1 ← byte_at (data_ptr tb) 0;
  Ok (if rx_sn_length r =? 10
      then (Z.shiftr (Z.land b1 0x04) 2, Z.shiftr (Z.land b1 0x18) 3, tb_size tb - 2,
            drop 2 (data_ptr tb))
      else (Z.shiftr (Z.land b1 0x20) 5, Z.shiftr (Z.land b1 0xC0) 6, tb_size tb - 1,
            drop 1 (data_ptr tb))).

(** PDU without length indicators. *)
Definition reassemble_no_li (ctxt_pP : protocol_ctxt_t) (r : rlc_um_entity_t) (tb : mac_tb)
    (fi size : Z) (data_p : list Z) : res rlc_um_entity_t :=
  if fi =? RLC_FI_FIRST_LAST then
    r1 ← rlc_um_reassembly ctxt_pP (rlc_um_clear_rx_sdu r) data_p size;
    Ok ((rlc_um_send_sdu r1) <| reassembly_missing_sn_detected := false |>)
  else if fi =? RLC_FI_FIRST_NOT_LAST then
    r1 ← rlc_um_reassembly ctxt_pP (rlc_um_clear_rx_sdu r) data_p size;
    Ok (r1 <| reassembly_missing_sn_detected := false |>)
  else if fi =? RLC_FI_NOT_FIRST_LAST then
    r1 ← (if negb (reassembly_missing_sn_detected r)
          then rlc_um_send_sdu <$> rlc_um_reassembly ctxt_pP r data_p size
          else Ok (drop_pdu_stats r tb));
    Ok (r1 <| reassembly_missing_sn_detected := false |>)
  else if fi =? RLC_FI_NOT_FIRST_NOT_LAST then
    if negb (reassembly_missing_sn_detected r)
    then rlc_um_reassembly ctxt_pP r data_p size
    else Ok (drop_pdu_stats (r <| reassembly_missing_sn_detected := true |>) tb)
  else Fault AssertFatal.

(** The trailing segment, after the length-indicated ones. *)
Definition reassemble_tail (ctxt_pP : protocol_ctxt_t) (r : rlc_um_entity_t) (data_p : list Z)
    (size : Z) (send : bool) : res rlc_um_entity_t :=
  if 0 <? size then
    r1 ← rlc_um_reassembly ctxt_pP r data_p size;
    Ok (if send then rlc_um_send_sdu r1 else r1)
  else Ok r.

(** PDU with length indicators: when a sequence number is missing the first
    indicated segment belongs to an SDU whose beginning is lost. *)
Definition skip_first_li (r : rlc_um_entity_t) (data_p lis : list Z) :
    res (rlc_um_entity_t * list Z * list Z) :=
  if reassembly_missing_sn_detected r then
    match lis with
    | [] => Fault OutOfBounds
    | li :: lis =>
        Ok (r <| stat_rx_data_bytes_dropped ::= fun n => u32 (n + li) |>,
            drop (Z.to_nat li) data_p, lis)
    end
  else Ok (r, data_p, lis).

Definition reassemble_with_lis (ctxt_pP : protocol_ctxt_t) (r : rlc_um_entity_t) (tb : mac_tb)
    (fi size : Z) (data_p lis : list Z) : res rlc_um_entity_t :=
  if fi =? RLC_FI_FIRST_LAST then
    '(r1, d1) ← reassemble_lis ctxt_pP (rlc_um_clear_rx_sdu r) data_p lis;
    r2 ← reassemble_tail ctxt_pP r1 d1 size true;
    Ok (r2 <| reassembly_missing_sn_detected := false |>)
  else if fi =? RLC_FI_FIRST_NOT_LAST then
    '(r1, d1) ← reassemble_lis ctxt_pP (rlc_um_clear_rx_sdu r) data_p lis;
    r2 ← reassemble_tail ctxt_pP r1 d1 size false;
    Ok (r2 <| reassembly_missing_sn_detected := false |>)
  else if fi =? RLC_FI_NOT_FIRST_LAST then
    '(r0, d0, lis0) ← skip_first_li r data_p lis;
    '(r1, d1) ← reassemble_lis ctxt_pP r0 d0 lis0;
    r2 ← reassemble_tail ctxt_pP r1 d1 size true;
    Ok (r2 <| reassembly_missing_sn_detected := false |>)
  else if fi =? RLC_FI_NOT_FIRST_NOT_LAST then
    '(r0, d0, lis0) ← skip_first_li r data_p lis;
    '(r1, d1) ← reassemble_lis ctxt_pP r0 d0 lis0;
    if 0 <? size then
      r2 ← rlc_um_reassembly ctxt_pP r1 d1 size;
      Ok (r2 <| reassembly_missing_sn_detected := false |>)
    else Fault AssertFatal
  else Ok ((drop_pdu_stats r tb) <| reassembly_missing_sn_detected := true |>).

(** One stored PDU of the reassembly loop, up to the release of its slot. *)
Definition reassemble_pdu (ctxt_pP : protocol_ctxt_t) (rlc_pP : rlc_um_entity_t) (sn : Z)
    (tb : mac_tb) : res rlc_um_entity_t :=
  let r0 := if Z.rem (last_reassemblied_sn rlc_pP + 1) (rx_sn_modulo rlc_pP) =? sn
            then rlc_pP else rlc_um_clear_rx_sdu rlc_pP in
  let r1 := r0 <| last_reassemblied_sn := u16 sn |> in
  '(e, fi, size, data_p) ← pdu_header r1 tb;
  if e =? RLC_E_FIXED_PART_DATA_FIELD_FOLLOW then
    reassemble_no_li ctxt_pP r1 tb fi size data_p
  else
    lr ← rlc_um_read_length_indicators data_p size;
    match lr with
    | None => Ok r1
    | Some (data_p', lis, size') => reassemble_with_lis ctxt_pP r1 tb fi size' data_p' lis
    end.

(** One iteration of the loop of [rlc_um_try_reassembly]. *)
Definition reassembly_iteration (ctxt_pP : protocol_ctxt_t) (rlc_pP : rlc_um_entity_t) (sn : Z) :
    res rlc_um_entity_t :=
  slot ← dar_get rlc_pP sn;
  match slot with
  | Some tb =>
      r ← reassemble_pdu ctxt_pP rlc_pP sn tb;
      Ok (dar_set r sn None)
  | None =>
      Ok (rlc_um_clear_rx_sdu
            (rlc_pP <| last_reassemblied_missing_sn := u16 sn |>
                    <| reassembly_missing_sn_detected := true |>))
  end.

Fixpoint try_reassembly_loop (fuel : nat) (ctxt_pP : protocol_ctxt_t)
    (rlc_pP : rlc_um_entity_t) (sn end_snP : Z) : res rlc_um_entity_t :=
  match fuel with
  | O => Fault OutOfFuel
  | S fuel =>
      r ← reassembly_iteration ctxt_pP rlc_pP sn;
      let sn' := s16 (Z.rem (sn + 1) (rx_sn_modulo r)) in
      if (sn' =? vr_uh r) || (sn' =? end_snP) then Ok r
      else try_reassembly_loop fuel ctxt_pP r sn' end_snP
  end.

Definition rlc_um_try_reassembly (ctxt_pP : protocol_ctxt_t) (rlc_pP : rlc_um_entity_t)
    (start_snP end_snP : Z) : res rlc_um_entity_t :=
  let end_sn := if end_snP <? 0 then s16 (end_snP + rx_sn_modulo rlc_pP) else end_snP in
  let start_sn := if start_snP <? 0 then s16 (start_snP + rx_sn_modulo rlc_pP) else start_snP in
  if start_sn =? end_sn then Ok rlc_pP
  else try_reassembly_loop (Z.to_nat (rx_sn_modulo rlc_pP)) ctxt_pP rlc_pP start_sn end_sn.

(** ** Expiry of t-Reordering *)

Definition timer_expired (now : Z) (t : rlc_um_timer_t) : bool :=
  ((ms_start t <? ms_time_out t) && ((ms_time_out t <=? now) || (now <? ms_start t)))
  || ((ms_time_out t <? ms_start t) && (now <? ms_start t) && (ms_time_out t <=? now)).

(** [while (get_pdu(vr_ur)) vr_ur = (vr_ur + 1) % modulo] *)
Fixpoint advance_vr_ur (fuel : nat) (r : rlc_um_entity_t) : res rlc_um_entity_t :=
  match fuel with
  | O => Fault OutOfFuel
  | S fuel =>
      slot ← rlc_um_get_pdu_from_dar_buffer r (vr_ur r);
      match slot with
      | None => Ok r
      | Some _ => advance_vr_ur fuel (r <| vr_ur ::= fun v => u16 (Z.rem (v + 1) (rx_sn_modulo r)) |>)
      end
  end.

Definition rlc_um_check_timer_dar_time_out (ctxt_pP : protocol_ctxt_t)
    (rlc_pP : rlc_um_entity_t) : res rlc_um_entity_t :=
  if negb (running (t_reordering rlc_pP)) then Ok rlc_pP
  else if negb (timer_expired (PROTOCOL_CTXT_TIME_MILLI_SECONDS ctxt_pP) (t_reordering rlc_pP))
  then Ok rlc_pP
  else
    let r0 := rlc_pP <| stat_timer_reordering_timed_out ::= fun n => u32 (n + 1) |> in
    if negb (trylock_ok ctxt_pP) then Ok r0
    else
      let old_vr_ur := vr_ur r0 in
      r1 ← advance_vr_ur (Z.to_nat (rx_sn_modulo r0)) (r0 <| vr_ur := vr_ux r0 |>);
      r2 ← rlc_um_try_reassembly ctxt_pP r1 (s16 old_vr_ur) (s16 (vr_ur r1));
      let in_window := rlc_um_in_window r2 (vr_ur r2) (vr_uh r2) (vr_uh r2) in
      Ok (if in_window =? 2
          then (rlc_um_start_timer_reordering ctxt_pP r2) <| vr_ux := vr_uh r2 |>
          else rlc_um_stop_and_reset_timer_reordering r2).

(** ** Reception of a PDU *)

(** The sequence number of the PDU; [None] is the branch for a length that is
    neither 5 nor 10, which releases the block and goes on with -1. *)
Definition pdu_sn (r : rlc_um_entity_t) (pdu : list Z) : res (option Z) :=
  if rx_sn_length r =? 10 then
    b1 ← byte_at pdu 0;
    b2 ← byte_at pdu 1;
    Ok (Some (Z.shiftl (Z.land b1 0x03) 8 + b2))
  else if rx_sn_length r =? 5 then
    b1 ← byte_at pdu 0;
    Ok (Some (Z.land b1 0x1F))
  else Ok None.

(** [do vr_ur = (vr_ur + 1) % modulo while (get_pdu(vr_ur) && vr_ur != vr_uh)] *)
Fixpoint advance_vr_ur_to_hole (fuel : nat) (r : rlc_um_entity_t) : res rlc_um_entity_t :=
  match fuel with
  | O => Fault OutOfFuel
  | S fuel =>
      let r1 := r <| vr_ur ::= fun v => u16 (Z.rem (v + 1) (rx_sn_modulo r)) |> in
      slot ← rlc_um_get_pdu_from_dar_buffer r1 (vr_ur r1);
      match slot with
      | Some _ => if vr_ur r1 =? vr_uh r1 then Ok r1 else advance_vr_ur_to_hole fuel r1
      | None => Ok r1
      end
  end.

(** A SN outside the reordering window moves the window. *)
Definition dar_window_update (ctxt_pP : protocol_ctxt_t) (rlc_pP : rlc_um_entity_t) (sn : Z) :
    res rlc_um_entity_t :=
  if rlc_um_in_reordering_window rlc_pP sn <? 0 then
    let r1 := rlc_pP <| vr_uh := u16 (Z.rem (sn + 1) (rx_sn_modulo rlc_pP)) |> in
    if negb (rlc_um_in_reordering_window r1 (vr_ur r1) =? 0) then
      let w := vr_uh r1 - rx_um_window_size r1 in
      let in_window := if w <? 0 then w + rx_sn_modulo r1 else w in
      r2 ← rlc_um_try_reassembly ctxt_pP r1 (s16 (vr_ur r1)) (s16 in_window);
      Ok (if rlc_um_in_reordering_window r2 (vr_ur r2) <? 0
          then r2 <| vr_ur := u16 in_window |> else r2)
    else Ok r1
  else Ok rlc_pP.

(** If the received PDU is the one VR(UR) waits for, VR(UR) moves to the next
    hole and the PDUs before it are reassembled. *)
Definition dar_deliver (ctxt_pP : protocol_ctxt_t) (rlc_pP : rlc_um_entity_t) (sn : Z) :
    res rlc_um_entity_t :=
  if sn =? vr_ur rlc_pP then
    slot ← rlc_um_get_pdu_from_dar_buffer rlc_pP (vr_ur rlc_pP);
    match slot with
    | Some _ =>
        r1 ← advance_vr_ur_to_hole (Z.to_nat (rx_sn_modulo rlc_pP)) rlc_pP;
        rlc_um_try_reassembly ctxt_pP r1 sn (s16 (vr_ur r1))
    | None => Ok rlc_pP
    end
  else Ok rlc_pP.

(** Start and stop of t-Reordering after a reception. *)
Definition dar_timer_update (ctxt_pP : protocol_ctxt_t) (rlc_pP : rlc_um_entity_t) :
    rlc_um_entity_t :=
  let r1 :=
    if running (t_reordering rlc_pP) && negb (vr_uh rlc_pP =? vr_ux rlc_pP)
       && (rlc_um_in_reordering_window rlc_pP (vr_ux rlc_pP) <? 0)
    then rlc_um_stop_and_reset_timer_reordering rlc_pP else rlc_pP in
  let r2 :=
    if running (t_reordering r1) then
      let in_window := rlc_um_in_window r1 (vr_ur r1) (vr_ux r1) (vr_uh r1) in
      if (in_window =? -2) || (in_window =? 1)
      then rlc_um_stop_and_reset_timer_reordering r1 else r1
    else r1 in
  if negb (running (t_reordering r2)) then
    if rlc_um_in_window r2 (vr_ur r2) (vr_uh r2) (vr_uh r2) =? 2
    then (rlc_um_start_timer_reordering ctxt_pP r2) <| vr_ux := vr_uh r2 |>
    else r2
  else r2.

(** Placing the PDU in the buffer: [None] when it is discarded. *)
Definition dar_store (rlc_pP : rlc_um_entity_t) (tb : mac_tb) (sn tb_sizeP : Z) :
    res (rlc_um_entity_t * bool) :=
  let in_window := rlc_um_in_window rlc_pP (vr_uh rlc_pP - rx_um_window_size rlc_pP) sn (vr_ur rlc_pP) in
  if (in_window =? 1) || (in_window =? 0) then
    Ok (rlc_pP <| stat_rx_data_pdu_out_of_window ::= fun n => u32 (n + 1) |>
               <| stat_rx_data_bytes_out_of_window ::= fun n => u32 (n + tb_sizeP) |>, false)
  else
    slot ← rlc_um_get_pdu_from_dar_buffer rlc_pP sn;
    match slot with
    | Some _ =>
        let r1 := rlc_pP <| stat_rx_data_pdus_duplicate ::= fun n => u32 (n + 1) |>
                         <| stat_rx_data_bytes_duplicate ::= fun n => u32 (n + tb_sizeP) |> in
        if rlc_um_in_window rlc_pP (vr_ur rlc_pP) sn (vr_uh rlc_pP) =? 0 then Ok (r1, false)
        else
          r2 ← rlc_um_remove_pdu_from_dar_buffer r1 sn;
          r3 ← rlc_um_store_pdu_in_dar_buffer r2 tb sn;
          Ok (r3, true)
    | None =>
        r3 ← rlc_um_store_pdu_in_dar_buffer rlc_pP tb sn;
        Ok (r3, true)
    end.

(** For a SN length other than 5 and 10 the block has been released and the
    code goes on with SN -1: it is released a second time or used to index
    the buffer out of range. *)
Definition rlc_um_receive_process_dar (ctxt_pP : protocol_ctxt_t) (rlc_pP : rlc_um_entity_t)
    (tb : mac_tb) (tb_sizeP : Z) : res rlc_um_entity_t :=
  osn ← pdu_sn rlc_pP (data_ptr tb);
  match osn with
  | None => Fault OutOfBounds
  | Some sn =>
      '(r1, stored) ← dar_store rlc_pP tb sn tb_sizeP;
      if negb stored then Ok r1
      else
        r2 ← dar_window_update ctxt_pP r1 sn;
        r3 ← dar_deliver ctxt_pP r2 sn;
        Ok (dar_timer_update ctxt_pP r3)
  end.

(** ** rlc_um_receiver.c *)

Fixpoint rlc_um_receive (ctxt_pP : protocol_ctxt_t) (rlc_pP : rlc_um_entity_t)
    (data_indP : list mac_tb) : res rlc_um_entity_t :=
  match data_indP with
  | [] => Ok rlc_pP
  | tb :: rest =>
      let size := u16 (tb_size tb) in
      let r1 := rlc_pP <| stat_rx_data_bytes ::= fun n => u32 (n + size) |>
                       <| stat_rx_data_pdu ::= fun n => u32 (n + 1) |> in
      r2 ← (if 0 <? size then rlc_um_receive_process_dar ctxt_pP r1 tb size else Ok r1);
      rlc_um_receive ctxt_pP r2 rest
  end.

End RlcUmDar.
