(* ===== verification/RlcUmWindow.v ===== *)
(** * RLC UM receiver: the window tests against modular arithmetic

    [rlc_um_in_window] and [rlc_um_in_reordering_window] compare remainders
    of C's truncating [%], which can be negative. The lemmas here say what
    they decide in terms of positions measured backwards from VR(UH):
    [back r x] is how far the sequence number [x] lies behind VR(UH), modulo
    the SN space. *)

From S2P Require Import Prelude RlcUmEntity RlcUmDar.

Module RlcUmWindow.
Import RlcUm RlcUmDar.

(** The two configurations of the receiving side. *)
Definition rx_cfg (r : rlc_um_entity_t) : Prop :=
  (rx_sn_length r = 10 /\ rx_sn_modulo r = 1024 /\ rx_um_window_size r = 512) \/
  (rx_sn_length r = 5 /\ rx_sn_modulo r = 32 /\ rx_um_window_size r = 16).

Definition back (r : rlc_um_entity_t) (x : Z) : Z := (vr_uh r - x) mod rx_sn_modulo r.

Definition in_sn_range (r : rlc_um_entity_t) (x : Z) : Prop := 0 <= x < rx_sn_modulo r.

Ltac cfg_cases H :=
  let A := fresh "A" in let B := fresh "B" in let C := fresh "C" in
  destruct H as [(A & B & C) | (A & B & C)].

(** Arithmetic of the modular windows, for a concrete modulus. *)
Ltac mod_lia := Z.to_euclidean_division_equations; lia.

(** ** The window tests against their modular specification *)

Lemma rem_window (M W uh x : Z) :
  (M = 1024 /\ W = 512) \/ (M = 32 /\ W = 16) ->
  0 <= uh < M -> 0 <= x < M ->
  let p := s16 (Z.rem (s16 x - s16 (uh - W)) M) in
  let b := (uh - x) mod M in
  (b <= W -> p = W - b) /\ (W < b -> p = W - b \/ p = M + W - b) /\ - M < p < M.
Proof.
  intros [[-> ->]|[-> ->]] Huh Hx; cbv zeta;
    rewrite (s16_small x), (s16_small (uh - _)) by lia;
    rewrite s16_small by mod_lia; split_and!; mod_lia.
Qed.

(** The truncated remainder the window tests compare. *)
Definition pos (r : rlc_um_entity_t) (x : Z) : Z :=
  s16 (Z.rem (s16 x - s16 (vr_uh r - rx_um_window_size r)) (rx_sn_modulo r)).

Section Windows.
Context (r : rlc_um_entity_t).
Hypothesis C : rx_cfg r.
Hypothesis Huh : in_sn_range r (vr_uh r).

Lemma cfg_MW : (rx_sn_modulo r = 1024 /\ rx_um_window_size r = 512) \/
               (rx_sn_modulo r = 32 /\ rx_um_window_size r = 16).
Proof using C. cfg_cases C; auto. Qed.

Lemma back_range x : 0 <= back r x < rx_sn_modulo r.
Proof using C. apply Z.mod_pos_bound. destruct cfg_MW; lia. Qed.

Lemma pos_spec x : in_sn_range r x ->
  (back r x <= rx_um_window_size r -> pos r x = rx_um_window_size r - back r x) /\
  (rx_um_window_size r < back r x ->
     pos r x = rx_um_window_size r - back r x \/
     pos r x = rx_sn_modulo r + rx_um_window_size r - back r x).
Proof using C Huh. intros Hx. by destruct (rem_window _ _ _ _ cfg_MW Huh Hx) as (? & ? & _). Qed.

Lemma pos_window_low : pos r (vr_uh r - rx_um_window_size r) = 0.
Proof using C. unfold pos. rewrite Z.sub_diag, Z.rem_0_l by (destruct cfg_MW; lia). done. Qed.

Lemma back_uh : back r (vr_uh r) = 0.
Proof using Type. unfold back. by rewrite Z.sub_diag, Zmod_0_l. Qed.

Lemma back_0 x : in_sn_range r x -> back r x = 0 -> x = vr_uh r.
Proof using C Huh.
  pose proof Huh as H. unfold in_sn_range, back in *.
  destruct cfg_MW as [[E _]|[E _]]; rewrite E in *; mod_lia.
Qed.

Lemma in_reordering_window_spec sn : in_sn_range r sn ->
  rlc_um_in_reordering_window r sn =
    if decide (1 <= back r sn <= rx_um_window_size r) then 0 else -1.
Proof using C Huh.
  intros Hsn. unfold rlc_um_in_reordering_window. fold (pos r sn).
  destruct (pos_spec sn Hsn) as [P1 P2]. pose proof (back_range sn). pose proof cfg_MW.
  case_decide; destruct (Z.leb_spec 0 (pos r sn));
    destruct (Z.ltb_spec (pos r sn) (rx_um_window_size r)); simpl; try done; lia.
Qed.

Ltac window_solve :=
  unfold rlc_um_in_window in *;
  repeat match goal with
  | |- context [s16 (Z.rem (s16 ?x - _) _)] => fold (pos r x)
  end;
  rewrite ?pos_window_low; pose proof cfg_MW; pose proof back_uh;
  repeat match goal with
  | H : in_sn_range r ?x |- _ =>
      let P := fresh "P" in pose proof (pos_spec x H) as P;
      pose proof (back_range x); destruct P; clear H
  end;
  repeat match goal with
  | |- context [Z.ltb ?a ?b] => destruct (Z.ltb_spec a b)
  | |- context [Z.eqb ?a ?b] => destruct (Z.eqb_spec a b)
  end; try lia.

(** The discard test: (VR(UH) - W) <= SN < VR(UR). *)
Lemma in_window_below_ur ur sn :
  in_sn_range r ur -> in_sn_range r sn -> back r ur <= rx_um_window_size r ->
  let w := rlc_um_in_window r (vr_uh r - rx_um_window_size r) sn ur in
  (w = 1 \/ w = 0) <-> back r ur < back r sn <= rx_um_window_size r.
Proof using C Huh.
  intros Hur Hsn Bur w. subst w. window_solve.
Qed.

(** The duplicate test: VR(UR) < SN < VR(UH). *)
Lemma in_window_between ur sn :
  in_sn_range r ur -> in_sn_range r sn -> back r ur <= rx_um_window_size r ->
  rlc_um_in_window r ur sn (vr_uh r) = 0 <-> 0 < back r sn < back r ur.
Proof using C Huh. intros Hur Hsn Bur. pose proof Huh. window_solve. Qed.

Lemma in_window_nonempty ur :
  in_sn_range r ur -> back r ur <= rx_um_window_size r ->
  rlc_um_in_window r ur (vr_uh r) (vr_uh r) = 2 <-> back r ur <> 0.
Proof using C Huh. intros Hur Bur. pose proof Huh. window_solve. Qed.

(** The test that stops t-Reordering: VR(UX) < VR(UR), or VR(UX) = VR(UR)
    below VR(UH). *)
Lemma in_window_stop ur ux :
  in_sn_range r ur -> in_sn_range r ux ->
  back r ur <= rx_um_window_size r -> back r ux <= rx_um_window_size r ->
  let w := rlc_um_in_window r ur ux (vr_uh r) in
  (w = -2 \/ w = 1) <-> back r ur < back r ux \/ (back r ur = back r ux /\ back r ur <> 0).
Proof using C Huh. intros Hur Hux Bur Bux w. subst w. pose proof Huh. window_solve. Qed.
End Windows.

End RlcUmWindow.
