(* ===== verification/RlcUmReasm.v ===== *)
(** * RLC UM receiver: what reassembling one PDU does

    Frame properties of the reassembly functions (which fields they leave
    alone), the invariant of the SDU under construction, and conditions on a
    PDU under which its reassembly runs without fault. *)

From S2P Require Import Prelude RlcUmEntity RlcUmDar.

Module RlcUmReasm.
Import RlcUm RlcUmDar.

(** The fields reassembly never touches. *)
(** The bearer the entity was configured for. *)
Definition bearer_id (r : rlc_um_entity_t) := (is_data_plane r, is_mxch r, rb_id r).

Definition ctl (r : rlc_um_entity_t) :=
  (rx_sn_length r, rx_sn_modulo r, rx_um_window_size r, vr_ur r, vr_ux r, vr_uh r,
   t_reordering r, dar_buffer r, bearer_id r, protocol_state r).
Definition txs (r : rlc_um_entity_t) :=
  (vt_us r, tx_sn_length r, tx_header_min_length_in_bytes r, tx_sn_modulo r, input_sdus r,
   buffer_occupancy r, nb_bytes_requested_by_mac r, pdus_to_mac_layer r).

Definition frame_eq (r r' : rlc_um_entity_t) : Prop := ctl r' = ctl r /\ txs r' = txs r.

#[export] Instance frame_eq_preorder : PreOrder frame_eq.
Proof. split; [done|]. intros r1 r2 r3 [] []. split; congruence. Qed.

(** The SDU under construction: the bytes counted are in the block. *)
Definition sdu_inv (r : rlc_um_entity_t) : Prop :=
  0 <= output_sdu_size_to_write r <= 9000 /\
  match output_sdu_in_construction r with
  | Some buf => output_sdu_size_to_write r <= Z.of_nat (length buf)
  | None => output_sdu_size_to_write r = 0
  end.

Lemma frame_clear r : frame_eq r (rlc_um_clear_rx_sdu r).
Proof. done. Qed.

Lemma frame_send r : frame_eq r (rlc_um_send_sdu r).
Proof. unfold rlc_um_send_sdu. by repeat case_match. Qed.

Lemma sdu_inv_clear r : sdu_inv r -> sdu_inv (rlc_um_clear_rx_sdu r).
Proof.
  unfold sdu_inv, rlc_um_clear_rx_sdu. rsimpl. intros [? ?].
  split; [lia|]. case_match; lia.
Qed.

Lemma sdu_inv_send r : sdu_inv r -> sdu_inv (rlc_um_send_sdu r).
Proof.
  unfold sdu_inv, rlc_um_send_sdu. intros [H1 H2]. destruct (output_sdu_in_construction r) as [buf|] eqn:E.
  - case_match; rsimpl; [done|]. rewrite E. lia.
  - rewrite E. lia.
Qed.

Lemma memcpy_length buf off src :
  0 <= off <= Z.of_nat (length buf) ->
  off + Z.of_nat (length src) <= Z.of_nat (length (memcpy_at buf off src)).
Proof. intros. unfold memcpy_at. rewrite !length_app, length_take, length_drop. lia. Qed.

Lemma sdu_max_size_le r : sdu_max_size r <= 9000.
Proof. unfold sdu_max_size. by case_match. Qed.

(** Copying a segment either succeeds or has no source bytes to read. *)
Lemma reassembly_ok c r src len :
  sdu_inv r -> len <= Z.of_nat (length src) ->
  exists r', rlc_um_reassembly c r src len = Ok r' /\ frame_eq r r' /\ sdu_inv r'.
Proof.
  intros [Hs Hb] Hl. unfold rlc_um_reassembly.
  destruct (Z.leb_spec len 0); [exists r; split_and!; [done|done|split; done]|].
  set (r1 := match output_sdu_in_construction r with Some _ => r | None => _ end).
  assert (Hr1 : frame_eq r r1 /\ sdu_inv r1).
  { unfold r1, sdu_inv. destruct (output_sdu_in_construction r) as [b|] eqn:E.
    - split; [done|]. by rewrite E.
    - rsimpl. split; [done|]. split; [lia|]. case_match; lia. }
  clearbody r1. destruct Hr1 as [F [Hs1 Hb1]].
  destruct (output_sdu_in_construction r1) as [buf|] eqn:E; [|exists r1; split_and!; [done|done|split; [done|by rewrite E]]].
  destruct (Z.leb_spec (output_sdu_size_to_write r1 + len) (sdu_max_size r1)).
  - destruct (Z.ltb_spec (Z.of_nat (length src)) len); [lia|].
    eexists. split; [reflexivity|]. split; [done|]. unfold sdu_inv. rsimpl.
    pose proof (sdu_max_size_le r1). split; [lia|].
    etransitivity; [|apply memcpy_length; lia]. rewrite length_take. lia.
  - eexists. split; [reflexivity|]. split; [done|]. unfold sdu_inv. rsimpl. rewrite E. lia.
Qed.

Lemma reassemble_lis_ok c lis r d :
  sdu_inv r -> Forall (fun x => 0 <= x) lis ->
  foldr Z.add 0 lis <= Z.of_nat (length d) ->
  exists r', reassemble_lis c r d lis = Ok (r', drop (Z.to_nat (foldr Z.add 0 lis)) d) /\
    frame_eq r r' /\ sdu_inv r'.
Proof.
  revert r d. induction lis as [|li lis IH]; intros r d Hi Hp Hl; simpl in *.
  { exists r. by rewrite drop_0. }
  apply Forall_cons in Hp as [Hli Hp].
  assert (0 <= foldr Z.add 0 lis) by (clear -Hp; induction Hp; simpl; lia).
  destruct (reassembly_ok c r d li Hi) as (r1 & E1 & F1 & I1); [lia|].
  rewrite E1. simpl.
  destruct (IH (rlc_um_send_sdu r1) (drop (Z.to_nat li) d)) as (r' & E' & F' & I');
    [by apply sdu_inv_send|done|rewrite length_drop; lia|].
  exists r'. rewrite E', drop_drop. split_and!; [|by rewrite F1, <- F', <- (frame_send r1)|done].
  do 3 f_equal. lia.
Qed.

(** ** Reading the length indicators *)

Lemma li1_of_arith b1 b2 : li1_of b1 b2 = (b1 mod 128) * 16 + (b2 / 16) mod 16.
Proof.
  unfold li1_of. rewrite Z.shiftl_mul_pow2 by lia. f_equal; [f_equal|].
  - apply (Z.land_ones b1 7). lia.
  - apply (bitfield b2 4 4); lia.
Qed.

Lemma li2_of_arith b2 b3 : li2_of b2 b3 = (b2 mod 8) * 256 + b3 mod 256.
Proof.
  unfold li2_of. rewrite Z.shiftl_mul_pow2 by lia. f_equal; [f_equal|].
  - apply (Z.land_ones b2 3). lia.
  - apply (Z.land_ones b3 8). lia.
Qed.

Lemma li1_range b1 b2 : 0 <= li1_of b1 b2 <= 2047.
Proof. rewrite li1_of_arith. Z.to_euclidean_division_equations; lia. Qed.
Lemma li2_range b2 b3 : 0 <= li2_of b2 b3 <= 2047.
Proof. rewrite li2_of_arith. Z.to_euclidean_division_equations; lia. Qed.

(** Bytes taken by [n] length indicators. *)
Definition li_bytes (n : nat) : nat := Nat.div2 (3 * n + 1).

Definition sum_li (lis : list Z) : Z := foldr Z.add 0 lis.

Lemma sum_li_app l1 l2 : sum_li (l1 ++ l2) = sum_li l1 + sum_li l2.
Proof. induction l1; simpl; lia. Qed.

Definition li_ok (x : Z) : Prop := 0 <= x <= 2047.

Lemma sum_li_bound lis : Forall li_ok lis -> 0 <= sum_li lis <= 2047 * Z.of_nat (length lis).
Proof. unfold li_ok. induction 1; simpl; lia. Qed.

Lemma li_bytes_SS n : li_bytes (S (S n)) = (3 + li_bytes n)%nat.
Proof. unfold li_bytes. replace (3 * S (S n) + 1)%nat with (S (S (S (S (S (S (3 * n + 1))))))) by lia. done. Qed.

(** The loop never needs more than 12 iterations, and what it returns. *)
Lemma read_lis_spec fuel e arr size :
  (exists k, length arr = (2 * k)%nat /\ (k + fuel = 13)%nat /\ (k <= 11)%nat) ->
  Z.abs size < 2 ^ 30 - 3000 * (24 - Z.of_nat (length arr)) ->
  match read_lis fuel e arr size with
  | Fault f => f = OutOfBounds
  | Ok None => True
  | Ok (Some (lis, size')) =>
      exists l2, lis = arr ++ l2 /\ l2 <> [] /\ Forall li_ok l2 /\ (length lis < 24)%nat /\
        (li_bytes (length l2) <= length e)%nat /\
        size' = size - sum_li l2 - Z.of_nat (li_bytes (length l2))
  end.
Proof.
  revert e arr size. induction fuel as [|fuel IH]; intros e arr size (k & Hk & Hf & Hk11) Hs; [lia|].
  cbn [read_lis]. unfold byte_at, RLC_UM_SEGMENT_NB_MAX_LI_PER_PDU.
  destruct (e !! 0%nat) as [b1|] eqn:X1; cbn [of_option mbind res_bind]; [|done].
  destruct (e !! 1%nat) as [b2|] eqn:X2; cbn [of_option mbind res_bind]; [|done].
  pose proof (li1_range b1 b2) as L1. set (l1 := li1_of b1 b2) in *. cbv zeta.
  rewrite (s32_small (size - l1 - 2)) by lia.
  destruct (Z.shiftr (Z.land b1 128) 7 =? 0); cbn [mbind res_bind].
  - rewrite length_app. cbn [length].
    destruct (Z.leb_spec 24 (Z.of_nat (length arr + 1))); [done|].
    exists [l1]. split_and!; [done|done|by rewrite ?Forall_cons|rewrite length_app; simpl; lia| |].
    { apply lookup_lt_Some in X2. unfold li_bytes. simpl. lia. }
    change (Z.of_nat (li_bytes (length [l1]))) with 2. unfold sum_li. simpl. lia.
  - destruct (e !! 2%nat) as [b3|] eqn:X3; cbn [of_option mbind res_bind]; [|done].
    pose proof (li2_range b2 b3) as L2. set (l2 := li2_of b2 b3) in *. cbv zeta.
    rewrite (s32_small (size - l1 - 2 - l2 - 1)) by lia.
    destruct (Z.shiftr (Z.land b2 8) 3 =? 0); cbn [mbind res_bind]; rewrite !length_app; cbn [length];
      (destruct (Z.leb_spec 24 (Z.of_nat (length arr + 1 + 1))); [done|]).
    + exists [l1; l2]. split_and!; [by rewrite <- app_assoc|done|by rewrite ?Forall_cons| | |].
      * rewrite !length_app. simpl. lia.
      * apply lookup_lt_Some in X3. unfold li_bytes. simpl. lia.
      * change (Z.of_nat (li_bytes (length [l1; l2]))) with 3. unfold sum_li. simpl. lia.
    + specialize (IH (drop 3 e) ((arr ++ [l1]) ++ [l2]) (size - l1 - 2 - l2 - 1)).
      rewrite !length_app in IH. cbn [length] in IH.
      specialize (IH ltac:(exists (S k); lia) ltac:(lia)).
      destruct (read_lis _ _ _ _) as [[[lis size']|]|]; try done.
      destruct IH as (l3 & -> & Hn & HF & Hlt & Hb & ->).
      rewrite length_drop in Hb. apply lookup_lt_Some in X3.
      exists (l1 :: l2 :: l3). split_and!; [by rewrite <- !app_assoc|done|by rewrite ?Forall_cons|done| |].
      { cbn [length]. rewrite li_bytes_SS. lia. }
      cbn [length]. rewrite li_bytes_SS. unfold sum_li. cbn [foldr]. lia.
Qed.

(** ** Well-formed PDUs

    The receiver does not check a PDU against its size. [pdu_ok] is the
    condition under which it does not have to: the block has the announced
    size, the fixed header and the length indicators are inside it, the
    indicated segments fit, and a PDU whose last byte does not end an SDU has
    a trailing segment. *)
Definition is_byte (b : Z) : bool := (0 <=? b) && (b <? 256).

Definition hdr_len (sn_length : Z) : nat := if sn_length =? 10 then 2 else 1.

Definition hdr_e (sn_length b1 : Z) : Z :=
  if sn_length =? 10 then Z.shiftr (Z.land b1 0x04) 2 else Z.shiftr (Z.land b1 0x20) 5.
Definition hdr_fi (sn_length b1 : Z) : Z :=
  if sn_length =? 10 then Z.shiftr (Z.land b1 0x18) 3 else Z.shiftr (Z.land b1 0xC0) 6.

Definition pdu_ok (sn_length : Z) (tb : mac_tb) : bool :=
  let bytes := data_ptr tb in
  (tb_size tb =? Z.of_nat (length bytes)) && (tb_size tb <? 2 ^ 16) && forallb is_byte bytes &&
  (Z.of_nat (hdr_len sn_length) <=? tb_size tb) &&
  match bytes with
  | [] => false
  | b1 :: _ =>
      if hdr_e sn_length b1 =? 0 then true
      else
        match rlc_um_read_length_indicators (drop (hdr_len sn_length) bytes)
                (tb_size tb - Z.of_nat (hdr_len sn_length)) with
        | Fault _ => false
        | Ok None => true
        | Ok (Some (d, lis, size)) =>
            (sum_li lis <=? Z.of_nat (length d)) &&
            (negb (hdr_fi sn_length b1 =? RLC_FI_NOT_FIRST_NOT_LAST) || (0 <? size))
        end
  end.

Lemma hdr_fi_range l b : 0 <= hdr_fi l b <= 3.
Proof.
  unfold hdr_fi. case_match.
  - bitf b 3 2. Z.to_euclidean_division_equations; lia.
  - bitf b 6 2. Z.to_euclidean_division_equations; lia.
Qed.

Lemma pdu_header_eq r tb b1 rest : data_ptr tb = b1 :: rest ->
  pdu_header r tb =
  Ok (hdr_e (rx_sn_length r) b1, hdr_fi (rx_sn_length r) b1,
      tb_size tb - Z.of_nat (hdr_len (rx_sn_length r)), drop (hdr_len (rx_sn_length r)) (data_ptr tb)).
Proof.
  intros E. unfold pdu_header, byte_at, hdr_e, hdr_fi, hdr_len. rewrite E. simpl. by case_match.
Qed.

Lemma read_length_indicators_spec d size :
  Z.abs size < 2 ^ 20 ->
  match rlc_um_read_length_indicators d size with
  | Fault f => f = OutOfBounds
  | Ok None => True
  | Ok (Some (d', lis, size')) =>
      d' = drop (li_bytes (length lis)) d /\ lis <> [] /\ Forall li_ok lis /\
      (length lis < 24)%nat /\ (li_bytes (length lis) <= length d)%nat /\
      size' = size - sum_li lis - Z.of_nat (li_bytes (length lis))
  end.
Proof.
  intros Hs. unfold rlc_um_read_length_indicators.
  pose proof (read_lis_spec 13 d [] size) as H.
  specialize (H ltac:(exists 0%nat; simpl; lia) ltac:(simpl; lia)).
  destruct (read_lis 13 d [] size) as [[[lis size']|]|]; cbn [mbind res_bind]; try done.
  destruct H as (l2 & -> & ? & ? & ? & ? & ->). done.
Qed.

Lemma frame_drop r tb : frame_eq r (drop_pdu_stats r tb).
Proof. done. Qed.

Lemma reassemble_no_li_ok c r tb fi size d :
  sdu_inv r -> 0 <= fi <= 3 -> size <= Z.of_nat (length d) ->
  exists r', reassemble_no_li c r tb fi size d = Ok r' /\ frame_eq r r' /\ sdu_inv r'.
Proof.
  intros I Hfi Hs. unfold reassemble_no_li, RLC_FI_FIRST_LAST, RLC_FI_FIRST_NOT_LAST,
    RLC_FI_NOT_FIRST_LAST, RLC_FI_NOT_FIRST_NOT_LAST.
  destruct (reassembly_ok c _ d size (sdu_inv_clear r I) Hs) as (r1 & E1 & F1 & I1).
  destruct (reassembly_ok c r d size I Hs) as (r2 & E2 & F2 & I2).
  pose proof (frame_send r1) as S1. pose proof (frame_send r2) as S2.
  pose proof (sdu_inv_send r1 I1) as J1. pose proof (sdu_inv_send r2 I2) as J2.
  destruct (Z.eqb_spec fi 0); [|destruct (Z.eqb_spec fi 1); [|destruct (Z.eqb_spec fi 2);
    [|destruct (Z.eqb_spec fi 3); [|lia]]]];
    try (destruct (reassembly_missing_sn_detected r)); cbn [negb];
    rewrite ?E1, ?E2; (eexists; split; [reflexivity|]);
    (split; [|first [exact J1|exact I1|exact J2|exact I2|exact I]]).
  all: first [exact F1 | exact F2 | done | exact (transitivity F1 S1) | exact (transitivity F2 S2)].
Qed.

Lemma reassemble_tail_ok c r d size send :
  sdu_inv r -> size <= Z.of_nat (length d) ->
  exists r', reassemble_tail c r d size send = Ok r' /\ frame_eq r r' /\ sdu_inv r'.
Proof.
  intros I Hs. unfold reassemble_tail. destruct (0 <? size); [|by exists r].
  destruct (reassembly_ok c r d size I Hs) as (r1 & -> & F & J). cbn [mbind res_bind].
  eexists. split; [reflexivity|]. destruct send; [|done].
  split; [exact (transitivity F (frame_send r1))|by apply sdu_inv_send].
Qed.

Lemma skip_first_li_ok r d lis :
  sdu_inv r -> lis <> [] -> Forall li_ok lis ->
  exists r' d' lis', skip_first_li r d lis = Ok (r', d', lis') /\ frame_eq r r' /\ sdu_inv r' /\
    Forall li_ok lis' /\ Z.of_nat (length d') - sum_li lis' >= Z.of_nat (length d) - sum_li lis.
Proof.
  intros I Hn HF. unfold skip_first_li. destruct (reassembly_missing_sn_detected r).
  - destruct lis as [|li lis]; [done|]. apply Forall_cons in HF as [Hli HF].
    do 3 eexists. split; [reflexivity|]. split_and!; [done|exact I|done|].
    unfold li_ok in Hli. rewrite length_drop. simpl. lia.
  - exists r, d, lis. split_and!; try done. lia.
Qed.

Lemma li_ok_nonneg lis : Forall li_ok lis -> Forall (fun x => 0 <= x) lis.
Proof. intros H. eapply Forall_impl; [exact H|]. unfold li_ok. simpl. lia. Qed.

Lemma reassemble_lis_tail_ok c r d lis size send :
  sdu_inv r -> Forall li_ok lis -> sum_li lis <= Z.of_nat (length d) ->
  size <= Z.of_nat (length d) - sum_li lis ->
  exists r1 d1 r2, reassemble_lis c r d lis = Ok (r1, d1) /\
    sdu_inv r1 /\ size <= Z.of_nat (length d1) /\ frame_eq r r1 /\
    reassemble_tail c r1 d1 size send = Ok r2 /\ frame_eq r r2 /\ sdu_inv r2.
Proof.
  intros I HF Hsum Hs. destruct (reassemble_lis_ok c lis r d I (li_ok_nonneg _ HF) Hsum)
    as (r1 & E1 & F1 & I1).
  pose proof (sum_li_bound lis HF).
  assert (Hl : size <= Z.of_nat (length (drop (Z.to_nat (foldr Z.add 0 lis)) d))).
  { rewrite length_drop. fold (sum_li lis). lia. }
  destruct (reassemble_tail_ok c r1 _ size send I1 Hl) as (r2 & E2 & F2 & I2).
  do 3 eexists. split_and!; eauto. exact (transitivity F1 F2).
Qed.

Lemma reassemble_with_lis_ok c r tb fi size d lis :
  sdu_inv r -> 0 <= fi <= 3 -> lis <> [] -> Forall li_ok lis ->
  sum_li lis <= Z.of_nat (length d) -> size = Z.of_nat (length d) - sum_li lis ->
  (fi = 3 -> 0 < size) ->
  exists r', reassemble_with_lis c r tb fi size d lis = Ok r' /\ frame_eq r r' /\ sdu_inv r'.
Proof.
  intros I Hfi Hn HF Hsum Hs H3. unfold reassemble_with_lis, RLC_FI_FIRST_LAST,
    RLC_FI_FIRST_NOT_LAST, RLC_FI_NOT_FIRST_LAST, RLC_FI_NOT_FIRST_NOT_LAST.
  destruct (skip_first_li_ok r d lis I Hn HF) as (r0 & d0 & lis0 & E0 & F0 & I0 & HF0 & Hs0).
  pose proof (sum_li_bound lis HF) as B.
  destruct (Z.eqb_spec fi 0); [|destruct (Z.eqb_spec fi 1); [|destruct (Z.eqb_spec fi 2);
    [|destruct (Z.eqb_spec fi 3); [|lia]]]].
  - destruct (reassemble_lis_tail_ok c _ d lis size true (sdu_inv_clear r I) HF)
      as (r1 & d1 & r2 & E1 & _ & _ & _ & E2 & F2 & I2); [lia..|].
    rewrite E1. cbn [mbind res_bind]. rewrite E2. eexists. split; [reflexivity|]. done.
  - destruct (reassemble_lis_tail_ok c _ d lis size false (sdu_inv_clear r I) HF)
      as (r1 & d1 & r2 & E1 & _ & _ & _ & E2 & F2 & I2); [lia..|].
    rewrite E1. cbn [mbind res_bind]. rewrite E2. eexists. split; [reflexivity|]. done.
  - destruct (reassemble_lis_tail_ok c r0 d0 lis0 size true I0 HF0)
      as (r1 & d1 & r2 & E1 & _ & _ & _ & E2 & F2 & I2); [lia..|].
    rewrite E0. cbn [mbind res_bind]. rewrite E1. cbn [mbind res_bind]. rewrite E2.
    eexists. split; [reflexivity|]. split; [exact (transitivity F0 F2)|done].
  - destruct (reassemble_lis_tail_ok c r0 d0 lis0 size false I0 HF0)
      as (r1 & d1 & r2 & E1 & I1 & L1 & F1 & _); [lia..|].
    rewrite E0. cbn [mbind res_bind]. rewrite E1. cbn [mbind res_bind].
    rewrite (proj2 (Z.ltb_lt 0 size)) by lia.
    destruct (reassembly_ok c r1 d1 size I1 L1) as (r3 & -> & F3 & I3).
    eexists. split; [reflexivity|]. split; [exact (transitivity F0 (transitivity F1 F3))|done].
Qed.

(** Reassembling a well-formed PDU succeeds and only touches the SDU under
    construction, the reassembly flags and the statistics. *)
Lemma reassemble_pdu_ok c r sn tb :
  sdu_inv r -> pdu_ok (rx_sn_length r) tb = true ->
  exists r', reassemble_pdu c r sn tb = Ok r' /\ frame_eq r r' /\ sdu_inv r'.
Proof.
  intros I P. unfold pdu_ok in P. destruct (data_ptr tb) as [|b1 rest] eqn:D;
    [by rewrite andb_false_r in P|]. rewrite <- D in P.
  rewrite !andb_true_iff, Z.eqb_eq, !Z.leb_le, !Z.ltb_lt in P.
  destruct P as ((((P1 & P2) & _) & P3) & P4).
  unfold reassemble_pdu. set (r0 := if _ =? sn then r else _).
  assert (H0 : frame_eq r r0 /\ sdu_inv r0).
  { unfold r0. destruct (_ =? sn).
    - by split; [split|].
    - split; [by split|by apply sdu_inv_clear]. }
  clearbody r0. destruct H0 as [F0 I0]. assert (EL : rx_sn_length r0 = rx_sn_length r).
  { destruct F0 as [F0 _]. unfold ctl in F0. congruence. }
  rewrite (pdu_header_eq _ tb b1 rest D). cbn [mbind res_bind]. rsimpl. rewrite EL.
  unfold RLC_E_FIXED_PART_DATA_FIELD_FOLLOW.
  assert (Hl : tb_size tb - Z.of_nat (hdr_len (rx_sn_length r)) =
               Z.of_nat (length (drop (hdr_len (rx_sn_length r)) (data_ptr tb)))).
  { rewrite length_drop. lia. }
  set (r1 := r0 <| last_reassemblied_sn := u16 sn |>).
  assert (H1 : frame_eq r r1 /\ sdu_inv r1) by done. clearbody r1. destruct H1 as [F1 I1].
  destruct (Z.eqb_spec (hdr_e (rx_sn_length r) b1) 0) as [E0|E0].
  - destruct (reassemble_no_li_ok c r1 tb (hdr_fi (rx_sn_length r) b1) _ _ I1 (hdr_fi_range _ _)
      (Z.eq_le_incl _ _ Hl)) as (r' & -> & F' & I').
    eexists. split; [reflexivity|]. split; [exact (transitivity F1 F')|done].
  - pose proof (read_length_indicators_spec (drop (hdr_len (rx_sn_length r)) (data_ptr tb))
      (tb_size tb - Z.of_nat (hdr_len (rx_sn_length r)))) as RS.
    specialize (RS ltac:(lia)).
    destruct (rlc_um_read_length_indicators _ _) as [[[[d' lis] size']|]|f]; cbn [mbind res_bind];
      [|eauto|done].
    destruct RS as (Ed & Hn & HF & _ & Hb & Es). rewrite andb_true_iff, Z.leb_le in P4.
    destruct P4 as [P4 P5].
    destruct (reassemble_with_lis_ok c r1 tb (hdr_fi (rx_sn_length r) b1) size' d' lis) as (r' & -> & F' & I');
      try done.
    + apply hdr_fi_range.
    + rewrite Es, Hl, Ed, (length_drop _ (li_bytes _)). lia.
    + intros E3. rewrite E3 in P5. simpl in P5. by apply Z.ltb_lt in P5.
    + eexists. split; [reflexivity|]. split; [exact (transitivity F1 F')|done].
Qed.

End RlcUmReasm.
