(* ===== verification/RlcUmRxInv.v ===== *)
(** * RLC UM receiver: the invariant of the reordering machinery

    [rx_inv] ties VR(UR), VR(UX), VR(UH), the reception buffer and the timer
    together. Every operation of the receiver preserves it, and under it the
    fuelled loops of RlcUmDar finish. *)

From S2P Require Import Prelude RlcUmEntity RlcUmDar RlcUmWindow RlcUmReasm.

Module RlcUmRxInv.
Import RlcUm RlcUmDar RlcUmWindow RlcUmReasm.

Record rx_core (r : rlc_um_entity_t) : Prop := {
  inv_cfg : rx_cfg r;
  inv_ur : in_sn_range r (vr_ur r);
  inv_uh : in_sn_range r (vr_uh r);
  inv_ux : in_sn_range r (vr_ux r);
  inv_window : back r (vr_ur r) <= rx_um_window_size r;
  inv_dar_length : length (dar_buffer r) = 1024%nat;
  inv_dar : forall i tb, dar_buffer r !! i = Some (Some tb) ->
    Z.of_nat i < rx_sn_modulo r /\ 1 <= back r (Z.of_nat i) <= back r (vr_ur r) /\
    pdu_ok (rx_sn_length r) tb = true;
  inv_sdu : sdu_inv r
}.

(** While t-Reordering runs, VR(UX) lies between VR(UR) and VR(UH). *)
Definition rx_inv (r : rlc_um_entity_t) : Prop :=
  rx_core r /\
  (running (t_reordering r) = true -> back r (vr_ux r) <= back r (vr_ur r)).

(** Forward distance from [a] to [b]. *)
Definition dist (r : rlc_um_entity_t) (a b : Z) : Z := (b - a) mod rx_sn_modulo r.

(** Emptying [k] consecutive slots from [s] on. *)
Fixpoint clear_range (M : Z) (k : nat) (s : Z) (dar : list (option mac_tb)) : list (option mac_tb) :=
  match k with
  | O => dar
  | S k => clear_range M k ((s + 1) mod M) (<[Z.to_nat s := None]> dar)
  end.

Lemma clear_range_length M k s dar : length (clear_range M k s dar) = length dar.
Proof. revert s dar. induction k; intros s dar; simpl; [done|]. by rewrite IHk, length_insert. Qed.

Lemma cleared_slot M k s dar i :
  0 < M -> 0 <= s < M -> Z.of_nat i < M -> (Z.of_nat i - s) mod M < Z.of_nat k ->
  (Z.to_nat M <= length dar)%nat ->
  clear_range M k s dar !! i = Some None.
Proof.
  revert s dar. induction k as [|k IH]; intros s dar HM Hs Hi Hd Hl.
  { pose proof (Z.mod_pos_bound (Z.of_nat i - s) M). lia. }
  simpl. destruct (decide (Z.of_nat i = s)) as [E|E].
  - assert (Hnone : forall k s dar, dar !! i = Some None -> clear_range M k s dar !! i = Some None).
    { clear. induction k as [|k IH]; intros s dar H; simpl; [done|]. apply IH.
      rewrite list_lookup_insert_Some. destruct (decide (Z.to_nat s = i)); [|by right].
      left. split_and!; try done. by apply lookup_lt_Some in H. }
    apply Hnone. rewrite <- E, Nat2Z.id. apply list_lookup_insert_eq. lia.
  - apply IH; [done|apply Z.mod_pos_bound; lia|done| |by rewrite length_insert].
    rewrite Zminus_mod_idemp_r.
    replace (Z.of_nat i - (s + 1)) with ((Z.of_nat i - s) - 1) by lia.
    rewrite <- Zminus_mod_idemp_l.
    pose proof (Z.mod_pos_bound (Z.of_nat i - s) M HM).
    assert ((Z.of_nat i - s) mod M <> 0).
    { intros H0. apply E. apply Z.mod_divide in H0 as [q Hq]; [|lia].
      assert (q = 0) by nia. lia. }
    rewrite Z.mod_small; lia.
Qed.

Lemma clear_range_Some M k s dar i tb :
  clear_range M k s dar !! i = Some (Some tb) -> dar !! i = Some (Some tb).
Proof.
  revert s dar. induction k as [|k IH]; intros s dar H; simpl in *; [done|].
  apply IH in H. rewrite list_lookup_insert_Some in H. naive_solver.
Qed.

(** ** The reassembly loop *)

Lemma dar_get_ok r sn : rx_cfg r -> length (dar_buffer r) = 1024%nat -> in_sn_range r sn ->
  exists p, dar_buffer r !! Z.to_nat sn = Some p /\ dar_get r sn = Ok p.
Proof.
  intros C Hl Hs. unfold in_sn_range in Hs. pose proof (cfg_MW _ C).
  destruct (lookup_lt_is_Some_2 (dar_buffer r) (Z.to_nat sn)) as [p Hp]; [lia|].
  exists p. unfold dar_get. destruct (Z.ltb_spec sn 0); [lia|]. by rewrite Hp.
Qed.

(** What the loop needs to know about the buffer. *)
Definition dar_ok (r : rlc_um_entity_t) : Prop :=
  forall i tb, dar_buffer r !! i = Some (Some tb) -> pdu_ok (rx_sn_length r) tb = true.

(** [r'] is [r] but for the buffer, the SDU under construction and the
    statistics. *)
Definition ctl_nodar (r : rlc_um_entity_t) :=
  (rx_sn_length r, rx_sn_modulo r, rx_um_window_size r, vr_ur r, vr_ux r, vr_uh r,
   t_reordering r, bearer_id r, protocol_state r).
Definition loop_eq (r r' : rlc_um_entity_t) : Prop :=
  ctl_nodar r' = ctl_nodar r /\ txs r' = txs r.

#[export] Instance loop_eq_preorder : PreOrder loop_eq.
Proof. split; [done|]. intros r1 r2 r3 [] []. split; congruence. Qed.

Lemma frame_loop r r' : frame_eq r r' -> loop_eq r r' /\ dar_buffer r' = dar_buffer r.
Proof. intros [F1 F2]. unfold ctl, loop_eq, ctl_nodar in *. split; [split; [congruence|exact F2]|congruence]. Qed.

(** What the receiver never changes: its configuration, the protocol state
    and the transmitting side. *)
Definition side (r : rlc_um_entity_t) :=
  (rx_sn_length r, rx_sn_modulo r, rx_um_window_size r, bearer_id r, protocol_state r, txs r).

Lemma loop_side r r' : loop_eq r r' -> side r' = side r.
Proof. intros [F T]. unfold ctl_nodar, side in *. congruence. Qed.

Lemma reassembly_iteration_ok c r sn :
  rx_cfg r -> length (dar_buffer r) = 1024%nat -> dar_ok r -> sdu_inv r -> in_sn_range r sn ->
  exists r', reassembly_iteration c r sn = Ok r' /\ loop_eq r r' /\ sdu_inv r' /\
    dar_buffer r' = <[Z.to_nat sn := None]> (dar_buffer r).
Proof.
  intros C Hl Hd I Hs. destruct (dar_get_ok r sn C Hl Hs) as (p & Hp & E).
  unfold reassembly_iteration. rewrite E. cbn [mbind res_bind]. destruct p as [tb|].
  - destruct (reassemble_pdu_ok c r sn tb I (Hd _ _ Hp)) as (r' & -> & F & I').
    apply frame_loop in F as [F D]. cbn [mbind res_bind]. eexists. split; [reflexivity|].
    split; [exact F|]. split; [exact I'|]. unfold dar_set. rsimpl. by rewrite D.
  - eexists. split; [reflexivity|]. split; [done|]. split; [by apply sdu_inv_clear|].
    change (dar_buffer r = <[Z.to_nat sn := None]> (dar_buffer r)). by rewrite list_insert_id.
Qed.

Lemma dar_ok_insert r r' sn :
  loop_eq r r' -> dar_buffer r' = <[Z.to_nat sn := None]> (dar_buffer r) -> dar_ok r -> dar_ok r'.
Proof.
  intros [F _] D H i tb. rewrite D, list_lookup_insert_Some. unfold ctl_nodar in F.
  assert (rx_sn_length r' = rx_sn_length r) as -> by congruence. naive_solver.
Qed.

Lemma loop_eq_cfg r r' : loop_eq r r' -> rx_cfg r -> rx_cfg r'.
Proof.
  intros [F _]. unfold ctl_nodar, rx_cfg in *.
  assert (rx_sn_length r' = rx_sn_length r) as -> by congruence.
  assert (rx_sn_modulo r' = rx_sn_modulo r) as -> by congruence.
  by assert (rx_um_window_size r' = rx_um_window_size r) as -> by congruence.
Qed.

(** The loop empties exactly the slots from [sn] up to the first of
    [end_sn] and VR(UH) it meets, and it has enough fuel to get there. *)
Lemma try_reassembly_loop_ok c k fuel r sn end_sn :
  rx_cfg r -> length (dar_buffer r) = 1024%nat -> dar_ok r -> sdu_inv r -> in_sn_range r sn ->
  (k < fuel)%nat ->
  (sn + Z.of_nat (S k)) mod rx_sn_modulo r = end_sn ->
  (forall j, 0 < j < Z.of_nat (S k) ->
     (sn + j) mod rx_sn_modulo r <> end_sn /\ (sn + j) mod rx_sn_modulo r <> vr_uh r) ->
  exists r', try_reassembly_loop fuel c r sn end_sn = Ok r' /\ loop_eq r r' /\ sdu_inv r' /\
    dar_buffer r' = clear_range (rx_sn_modulo r) (S k) sn (dar_buffer r).
Proof.
  revert fuel r sn. induction k as [|k IH]; intros fuel r sn C Hl Hd I Hs Hf He Hj;
    (destruct fuel as [|fuel]; [lia|]); cbn [try_reassembly_loop];
    destruct (reassembly_iteration_ok c r sn C Hl Hd I Hs) as (r1 & -> & F1 & I1 & D1);
    cbn [mbind res_bind]; pose proof (cfg_MW _ C) as MW; unfold in_sn_range in Hs;
    pose proof F1 as [F1' _]; unfold ctl_nodar in F1';
    assert (EM : rx_sn_modulo r1 = rx_sn_modulo r) by congruence;
    assert (EU : vr_uh r1 = vr_uh r) by congruence; rewrite EM, EU;
    (rewrite Z.rem_mod_nonneg by lia);
    pose proof (Z.mod_pos_bound (sn + 1) (rx_sn_modulo r) ltac:(lia)) as B;
    (rewrite s16_small by lia).
  - change (Z.of_nat 1) with 1 in He. rewrite He, Z.eqb_refl, orb_true_r. by exists r1.
  - destruct (Hj 1) as [N1 N2]; [lia|].
    rewrite (proj2 (Z.eqb_neq _ _) N1), (proj2 (Z.eqb_neq _ _) N2). simpl orb. cbv iota.
    destruct (IH fuel r1 ((sn + 1) mod rx_sn_modulo r)) as (r2 & -> & F2 & I2 & D2).
    + by apply (loop_eq_cfg r).
    + by rewrite D1, length_insert.
    + by apply (dar_ok_insert r r1 sn).
    + done.
    + unfold in_sn_range. by rewrite EM.
    + lia.
    + rewrite EM, Zplus_mod_idemp_l, <- He. f_equal. lia.
    + intros j Hjk. rewrite EM, EU, Zplus_mod_idemp_l. replace (sn + 1 + j) with (sn + (j + 1)) by lia.
      apply Hj. lia.
    + exists r2. split_and!; [done|exact (transitivity F1 F2)|done|].
      rewrite D2, EM, D1. done.
Qed.

Lemma try_reassembly_ok c r start end_sn :
  rx_cfg r -> length (dar_buffer r) = 1024%nat -> dar_ok r -> sdu_inv r ->
  in_sn_range r start -> in_sn_range r end_sn ->
  (forall j, 0 < j < dist r start end_sn -> (start + j) mod rx_sn_modulo r <> vr_uh r) ->
  exists r', rlc_um_try_reassembly c r start end_sn = Ok r' /\ loop_eq r r' /\ sdu_inv r' /\
    dar_buffer r' = clear_range (rx_sn_modulo r) (Z.to_nat (dist r start end_sn)) start (dar_buffer r).
Proof.
  intros C Hl Hd I Hs He Hj. unfold rlc_um_try_reassembly, in_sn_range in *. pose proof (cfg_MW _ C) as MW.
  destruct (Z.ltb_spec end_sn 0); [lia|]. destruct (Z.ltb_spec start 0); [lia|].
  pose proof (Z.mod_pos_bound (end_sn - start) (rx_sn_modulo r) ltac:(lia)) as B.
  fold (dist r start end_sn) in B.
  destruct (Z.eqb_spec start end_sn) as [->|N].
  { exists r. split; [done|]. split; [done|]. split; [done|].
    unfold dist. by rewrite Z.sub_diag, Zmod_0_l. }
  assert (D0 : dist r start end_sn <> 0).
  { unfold dist. intros Hz. apply Z.mod_divide in Hz as [q Hq]; [|lia]. assert (q = 0) by nia. lia. }
  assert (Hend : forall j, 0 <= j -> (start + j) mod rx_sn_modulo r = end_sn ->
             dist r start end_sn <= j).
  { intros j Hj0 <-. unfold dist. rewrite Zminus_mod_idemp_l. replace (start + j - start) with j by lia.
    apply Z.mod_le; lia. }
  assert (Hd' : (start + dist r start end_sn) mod rx_sn_modulo r = end_sn).
  { unfold dist. rewrite Zplus_mod_idemp_r. replace (start + (end_sn - start)) with end_sn by lia.
    apply Z.mod_small; lia. }
  destruct (try_reassembly_loop_ok c (Z.to_nat (dist r start end_sn) - 1)
    (Z.to_nat (rx_sn_modulo r)) r start end_sn) as (r' & E & F & I' & D); try done.
  - lia.
  - replace (Z.of_nat (S (Z.to_nat (dist r start end_sn) - 1))) with (dist r start end_sn) by lia. done.
  - intros j Hjk. split; [|apply Hj; lia]. intros E. apply Hend in E; lia.
  - exists r'. split_and!; try done. rewrite D. f_equal. lia.
Qed.

(** ** Moving VR(UR) *)

Lemma core_dar_ok r : rx_core r -> dar_ok r.
Proof. intros K i tb H. by apply (inv_dar _ K) in H as (_ & _ & ?). Qed.

Lemma back_succ r x : rx_cfg r -> in_sn_range r x -> back r x <> 0 ->
  let y := u16 (Z.rem (x + 1) (rx_sn_modulo r)) in
  in_sn_range r y /\ back r y = back r x - 1.
Proof.
  unfold in_sn_range, back. intros C Hx Hb. pose proof (cfg_MW _ C) as MW.
  rewrite Z.rem_mod_nonneg by lia. cbv zeta.
  pose proof (Z.mod_pos_bound (x + 1) (rx_sn_modulo r) ltac:(lia)).
  rewrite u16_small by lia. split; [done|].
  destruct MW as [[E _]|[E _]]; rewrite E in *; mod_lia.
Qed.

Lemma dist_back r a b : rx_cfg r -> back r b <= back r a -> dist r a b = back r a - back r b.
Proof.
  unfold back, dist. intros C H. destruct (cfg_MW _ C) as [[E _]|[E _]]; rewrite E in *; mod_lia.
Qed.

Lemma get_pdu_ok r sn : rx_cfg r -> length (dar_buffer r) = 1024%nat -> in_sn_range r sn ->
  exists p, dar_buffer r !! Z.to_nat sn = Some p /\ rlc_um_get_pdu_from_dar_buffer r sn = Ok p.
Proof.
  intros C Hl Hs. unfold rlc_um_get_pdu_from_dar_buffer. pose proof (cfg_MW _ C).
  unfold in_sn_range in *. rewrite u16_small by lia. by apply dar_get_ok.
Qed.

(** The search for the first hole in the time-out handler ends at VR(UH) at
    the latest: the slot of VR(UH) is empty. *)
Lemma advance_vr_ur_ok n fuel r :
  rx_cfg r -> length (dar_buffer r) = 1024%nat -> in_sn_range r (vr_ur r) ->
  (forall i tb, dar_buffer r !! i = Some (Some tb) -> 1 <= back r (Z.of_nat i)) ->
  back r (vr_ur r) = Z.of_nat n -> (n < fuel)%nat ->
  exists u, advance_vr_ur fuel r = Ok (r <| vr_ur := u |>) /\
    in_sn_range r u /\ 0 <= back r u <= back r (vr_ur r).
Proof.
  revert fuel r. induction n as [|n IH]; intros fuel r C Hl Hu He Hb Hf;
    (destruct fuel as [|fuel]; [lia|]); cbn [advance_vr_ur];
    destruct (get_pdu_ok r (vr_ur r) C Hl Hu) as (p & Hp & ->); cbn [mbind res_bind].
  - destruct p as [tb|].
    + apply He in Hp. unfold in_sn_range in Hu. rewrite Z2Nat.id in Hp by lia. lia.
    + exists (vr_ur r). split; [by destruct r|]. split; [done|]. lia.
  - destruct p as [tb|]; [|exists (vr_ur r); split; [by destruct r|split; [done|lia]]].
    destruct (back_succ r (vr_ur r) C Hu) as [R1 B1]; [lia|].
    destruct (IH fuel (r <| vr_ur := u16 (Z.rem (vr_ur r + 1) (rx_sn_modulo r)) |>))
      as (u & E & R2 & B2); try done.
    + change (back r (u16 (Z.rem (vr_ur r + 1) (rx_sn_modulo r))) = Z.of_nat n). lia.
    + lia.
    + exists u. split; [exact E|]. split; [exact R2|].
      change (0 <= back r u <= back r (u16 (Z.rem (vr_ur r + 1) (rx_sn_modulo r)))) in B2. lia.
Qed.

Lemma advance_to_hole_ok n fuel r :
  rx_cfg r -> length (dar_buffer r) = 1024%nat -> in_sn_range r (vr_ur r) ->
  in_sn_range r (vr_uh r) ->
  back r (vr_ur r) = Z.of_nat (S n) -> (n < fuel)%nat ->
  exists u, advance_vr_ur_to_hole fuel r = Ok (r <| vr_ur := u |>) /\
    in_sn_range r u /\ 0 <= back r u < back r (vr_ur r).
Proof.
  revert fuel r. induction n as [|n IH]; intros fuel r C Hl Hu Hh Hb Hf;
    (destruct fuel as [|fuel]; [lia|]); cbn [advance_vr_ur_to_hole]; cbv zeta;
    (destruct (back_succ r (vr_ur r) C Hu) as [R1 B1]; [lia|]);
    set (u := u16 (Z.rem (vr_ur r + 1) (rx_sn_modulo r))) in *;
    match goal with |- context [rlc_um_get_pdu_from_dar_buffer ?q _] => set (r1 := q) end;
    destruct (get_pdu_ok r1 (vr_ur r1) C Hl R1) as (p & Hp & ->); cbn [mbind res_bind];
    (destruct p as [tb|]; [|exists u; split; [done|]; split; [done|lia]]);
    change (vr_ur r1 =? vr_uh r1) with (u =? vr_uh r).
  - assert (Eu : u = vr_uh r) by (apply (back_0 r C Hh); [done|lia]).
    rewrite (proj2 (Z.eqb_eq _ _) Eu). exists u. split; [reflexivity|]. split; [exact R1|lia].
  - destruct (Z.eqb_spec u (vr_uh r)) as [Eu|Eu].
    { exists u. split; [reflexivity|]. split; [exact R1|lia]. }
    destruct (IH fuel (r <| vr_ur := u |>)) as (v & E2 & R2 & B2); try done.
    + change (back r u = Z.of_nat (S n)). lia.
    + lia.
    + exists v. split; [exact E2|]. split; [exact R2|].
      change (0 <= back r v < back r u) in B2. lia.
Qed.

(** Reassembling everything before the new VR(UR) re-establishes the
    invariant for it. *)
Lemma flush_ok c r u :
  rx_core r -> in_sn_range r u -> back r u <= back r (vr_ur r) ->
  exists r', rlc_um_try_reassembly c (r <| vr_ur := u |>) (vr_ur r) u = Ok r' /\
    loop_eq (r <| vr_ur := u |>) r' /\ rx_core r'.
Proof.
  intros K Hu Hb. destruct K as [C Ur Uh Ux Wd Dl Dr Sd].
  set (r1 := r <| vr_ur := u |>).
  pose proof (dist_back r (vr_ur r) u C Hb) as Hd.
  destruct (try_reassembly_ok c r1 (vr_ur r) u) as (r' & E & F & I & D); try done.
  { intros i tb H. by apply Dr in H as (_ & _ & ?). }
  { intros j Hj. change (dist r1 (vr_ur r) u) with (dist r (vr_ur r) u) in Hj.
    change (rx_sn_modulo r1) with (rx_sn_modulo r). change (vr_uh r1) with (vr_uh r).
    pose proof (back_range r C u). unfold in_sn_range, dist, back in *.
    destruct (cfg_MW _ C) as [[EM _]|[EM _]]; rewrite EM in *; mod_lia. }
  exists r'. split; [done|]. split; [done|].
  pose proof F as [F' _]. unfold ctl_nodar in F'.
  assert (EM : rx_sn_modulo r' = rx_sn_modulo r) by (unfold r1 in F'; rsimpl; congruence).
  assert (EW : rx_um_window_size r' = rx_um_window_size r) by (unfold r1 in F'; rsimpl; congruence).
  assert (EH : vr_uh r' = vr_uh r) by (unfold r1 in F'; rsimpl; congruence).
  assert (ER : vr_ur r' = u) by (unfold r1 in F'; rsimpl; congruence).
  assert (EX : vr_ux r' = vr_ux r) by (unfold r1 in F'; rsimpl; congruence).
  assert (EL : rx_sn_length r' = rx_sn_length r) by (unfold r1 in F'; rsimpl; congruence).
  assert (EB : forall x, back r' x = back r x) by (intros x; unfold back; congruence).
  split; unfold in_sn_range in *; rewrite ?EM, ?EW, ?EH, ?ER, ?EX, ?EB; try done.
  - by apply (loop_eq_cfg r1).
  - lia.
  - by rewrite D, clear_range_length.
  - intros i tb H. rewrite D in H. pose proof (clear_range_Some _ _ _ _ _ _ H) as H'.
    apply Dr in H' as (H1 & H2 & H3). rewrite EL. split_and!; try done; rewrite EB; [lia|].
    destruct (decide (back r (Z.of_nat i) <= back r u)) as [|N]; [done|]. exfalso.
    rewrite cleared_slot in H; [done|..]; change (rx_sn_modulo r1) with (rx_sn_modulo r);
      pose proof (cfg_MW _ C); try lia.
    + change (dist r1 (vr_ur r) u) with (dist r (vr_ur r) u). rewrite Hd.
      pose proof (dist_back r (vr_ur r) (Z.of_nat i) C) as Hd'. unfold dist in Hd'. lia.
    + change (dar_buffer r1) with (dar_buffer r). lia.
Qed.

(** The invariant only reads the fields of [ctl] and the SDU under
    construction. *)
Lemma core_frame r r' : frame_eq r r' -> sdu_inv r' -> rx_core r -> rx_core r'.
Proof.
  intros F I K. apply frame_loop in F as [F D]. pose proof F as [F' _]. unfold ctl_nodar in F'.
  assert (EM : rx_sn_modulo r' = rx_sn_modulo r) by congruence.
  assert (EW : rx_um_window_size r' = rx_um_window_size r) by congruence.
  assert (EH : vr_uh r' = vr_uh r) by congruence.
  assert (ER : vr_ur r' = vr_ur r) by congruence.
  assert (EX : vr_ux r' = vr_ux r) by congruence.
  assert (EL : rx_sn_length r' = rx_sn_length r) by congruence.
  assert (EB : forall x, back r' x = back r x) by (intros x; unfold back; congruence).
  destruct K as [C Ur Uh Ux Wd Dl Dr Sd].
  split; unfold in_sn_range in *; rewrite ?EM, ?EW, ?EH, ?ER, ?EX, ?EB, ?D, ?EL; try done.
  - by apply (loop_eq_cfg r).
  - intros i tb H. rewrite EB. auto.
Qed.

(** Changing the timer or VR(UX) keeps the core of the invariant. *)
Lemma core_timer r t x : rx_core r -> in_sn_range r x ->
  rx_core (r <| t_reordering := t |> <| vr_ux := x |>).
Proof. intros [C Ur Uh Ux Wd Dl Dr Sd] Hx. by split. Qed.

Lemma restart_timer_inv c r : rx_core r ->
  rx_inv ((rlc_um_start_timer_reordering c r) <| vr_ux := vr_uh r |>).
Proof.
  intros K. split.
  - apply (core_timer r _ (vr_uh r)); [done|apply K].
  - intros _. change (back r (vr_uh r) <= back r (vr_ur r)). rewrite back_uh.
    apply (back_range r (inv_cfg _ K)).
Qed.

Lemma stop_timer_core r : rx_core r -> rx_core (rlc_um_stop_and_reset_timer_reordering r).
Proof. intros K. apply (core_timer r _ (vr_ux r)); [done|apply K]. Qed.

Lemma stop_timer_inv r : rx_core r -> rx_inv (rlc_um_stop_and_reset_timer_reordering r).
Proof. intros K. split; [by apply stop_timer_core|]. done. Qed.

Lemma s16_sn r x : rx_cfg r -> in_sn_range r x -> s16 x = x.
Proof. unfold in_sn_range. intros C H. apply s16_small. destruct (cfg_MW _ C); lia. Qed.

(** ** Expiry of t-Reordering preserves the invariant *)
Lemma check_timer_ok c r : rx_inv r ->
  exists r', rlc_um_check_timer_dar_time_out c r = Ok r' /\ rx_inv r' /\ side r' = side r.
Proof.
  intros Inv. pose proof Inv as [K T]. unfold rlc_um_check_timer_dar_time_out.
  destruct (running (t_reordering r)) eqn:Run; cbn [negb]; [|exists r; by split].
  destruct (timer_expired _ _); cbn [negb]; [|exists r; by split].
  set (r0 := r <| stat_timer_reordering_timed_out ::= _ |>).
  assert (K0 : rx_core r0) by (apply (core_frame r); [done|apply K|done]).
  assert (T0 : back r0 (vr_ux r0) <= back r0 (vr_ur r0)) by (by apply T).
  assert (S0 : side r0 = side r) by done. rewrite <- S0. clear S0.
  clearbody r0. clear T Run K Inv.
  destruct (trylock_ok c); cbn [negb]; [|exists r0; split; [done|split; [split; [done|intros _; exact T0]|done]]].
  pose proof (inv_cfg _ K0) as C. pose proof (back_range r0 C) as BR.
  destruct (advance_vr_ur_ok (Z.to_nat (back r0 (vr_ux r0))) (Z.to_nat (rx_sn_modulo r0))
    (r0 <| vr_ur := vr_ux r0 |>)) as (u & Ea & Ru & Bu);
    [exact C|exact (inv_dar_length _ K0)|exact (inv_ux _ K0)|..].
  { intros i tb H. by apply (inv_dar _ K0) in H as (_ & [? _] & _). }
  { rewrite Z2Nat.id by apply BR. done. }
  { pose proof (BR (vr_ux r0)). lia. }
  change (in_sn_range r0 u) in Ru. change (0 <= back r0 u <= back r0 (vr_ux r0)) in Bu.
  rewrite Ea. cbn [mbind res_bind].
  change (vr_ur ((r0 <| vr_ur := vr_ux r0 |>) <| vr_ur := u |>)) with u.
  rewrite (s16_sn r0 u), (s16_sn r0 (vr_ur r0)) by (done || apply K0).
  destruct (flush_ok c r0 u K0 Ru) as (r2 & E2 & F2 & K2); [lia|].
  change (rlc_um_try_reassembly c ((r0 <| vr_ur := vr_ux r0 |>) <| vr_ur := u |>) (vr_ur r0) u)
    with (rlc_um_try_reassembly c (r0 <| vr_ur := u |>) (vr_ur r0) u).
  rewrite E2. cbn [mbind res_bind]. apply loop_side in F2. eexists. split; [reflexivity|].
  case_match; (split; [|exact F2]); [by apply restart_timer_inv|by apply stop_timer_inv].
Qed.

(** ** Storing a PDU *)

(** [r1] is [r] with [tb] placed in the slot of [sn]. *)
Definition stored (r : rlc_um_entity_t) (tb : mac_tb) (sn : Z) (r1 : rlc_um_entity_t) : Prop :=
  loop_eq r r1 /\ sdu_inv r1 /\ dar_buffer r1 = <[Z.to_nat sn := Some tb]> (dar_buffer r).

Lemma dar_store_ok r tb sn size :
  rx_inv r -> in_sn_range r sn ->
  exists r1 b, dar_store r tb sn size = Ok (r1, b) /\
    if b : bool then stored r tb sn r1 /\ ~ (back r (vr_ur r) < back r sn <= rx_um_window_size r)
    else rx_inv r1 /\ side r1 = side r.
Proof.
  intros [K T] Hs. pose proof (inv_cfg _ K) as C. unfold dar_store.
  pose proof (in_window_below_ur r C (inv_uh _ K) (vr_ur r) sn (inv_ur _ K) Hs (inv_window _ K)) as Hw.
  cbv zeta in Hw. set (w := rlc_um_in_window r _ sn _) in *.
  destruct ((w =? 1) || (w =? 0)) eqn:Ew.
  { do 2 eexists. split; [reflexivity|]. split; [|done]. split; [|exact T].
    apply (core_frame r); [done|apply K|done]. }
  assert (Hnot : ~ (back r (vr_ur r) < back r sn <= rx_um_window_size r)).
  { intros H. apply Hw in H. apply orb_false_iff in Ew as [?%Z.eqb_neq ?%Z.eqb_neq]. lia. }
  clear Hw Ew w.
  assert (Us : u16 sn = sn).
  { unfold in_sn_range in Hs. apply u16_small. destruct (cfg_MW _ C); lia. }
  destruct (get_pdu_ok r sn C (inv_dar_length _ K) Hs) as (p & Hp & ->). cbn [mbind res_bind].
  assert (Hst : forall r2, rx_cfg r2 -> in_sn_range r2 sn -> length (dar_buffer r2) = 1024%nat ->
    rlc_um_store_pdu_in_dar_buffer r2 tb sn = Ok (dar_set r2 sn (Some tb)) /\
    rlc_um_remove_pdu_from_dar_buffer r2 sn = Ok (dar_set r2 sn None)).
  { intros r2 C2 H2 L2. unfold rlc_um_store_pdu_in_dar_buffer, rlc_um_remove_pdu_from_dar_buffer.
    rewrite Us. destruct (dar_get_ok r2 sn C2 L2 H2) as (p' & _ & ->). done. }
  destruct p as [tb'|].
  - case_match.
    + do 2 eexists. split; [reflexivity|]. split; [|done]. split; [|exact T].
      apply (core_frame r); [done|apply K|done].
    + match goal with |- context [rlc_um_remove_pdu_from_dar_buffer ?q sn] => set (r1 := q) end.
      destruct (Hst r1) as [_ ->]; [apply K|done|apply K|]. cbn [mbind res_bind].
      destruct (Hst (dar_set r1 sn None)) as [-> _]; [apply K|done|unfold dar_set; rsimpl; rewrite length_insert; apply K|].
      cbn [mbind res_bind]. do 2 eexists. split; [reflexivity|]. split; [|done].
      split; [done|]. split; [apply K|]. unfold dar_set, r1. rsimpl. by rewrite list_insert_insert_eq.
  - destruct (Hst r) as [-> _]; [done|done|apply K|]. cbn [mbind res_bind].
    do 2 eexists. split; [reflexivity|]. split; [|done]. split; [done|]. split; [apply K|]. done.
Qed.

(** ** Moving the window *)

(** If VR(UR) stays in the moved window, nothing else has to move. *)
Lemma moved_core_in r tb sn r1 :
  rx_core r -> in_sn_range r sn -> stored r tb sn r1 -> pdu_ok (rx_sn_length r) tb = true ->
  back r sn = 0 \/ rx_um_window_size r < back r sn ->
  let r2 := r1 <| vr_uh := (sn + 1) mod rx_sn_modulo r |> in
  1 <= back r2 (vr_ur r) <= rx_um_window_size r -> rx_core r2.
Proof.
  intros K Hs (F & I & D) P Ho r2 Hin. pose proof F as [F' _]. unfold ctl_nodar in F'.
  destruct K as [C Ur Uh Ux Wd Dl Dr Sd]. pose proof (cfg_MW _ C) as MW.
  assert (EM : rx_sn_modulo r1 = rx_sn_modulo r) by congruence.
  assert (EW : rx_um_window_size r1 = rx_um_window_size r) by congruence.
  assert (ER : vr_ur r1 = vr_ur r) by congruence.
  assert (EX : vr_ux r1 = vr_ux r) by congruence.
  assert (EL : rx_sn_length r1 = rx_sn_length r) by congruence.
  assert (EB : forall x, back r2 x = ((sn + 1) mod rx_sn_modulo r - x) mod rx_sn_modulo r)
    by (intros x; unfold back, r2; rsimpl; by rewrite EM).
  rewrite EB in Hin.
  split; unfold in_sn_range in *; unfold r2; rsimpl; fold r2;
    rewrite ?EM, ?EW, ?ER, ?EX, ?EL, ?D, ?length_insert; try done.
  - by apply (loop_eq_cfg r r1).
  - apply Z.mod_pos_bound. lia.
  - rewrite EB. lia.
  - intros i tb'. rewrite list_lookup_insert_Some. rewrite !EB. unfold back in *.
    intros [(<- & [= <-] & _)|[_ H]].
    + rewrite Z2Nat.id by lia. split; [lia|]. split; [|done].
      destruct MW as [[E _]|[E _]]; rewrite E in *; mod_lia.
    + apply Dr in H as (H1 & H2 & H3). split; [lia|]. split; [|done].
      destruct MW as [[E E']|[E E']]; rewrite E, E' in *; mod_lia.
Qed.

(** Otherwise the PDUs that left the window are reassembled and VR(UR) moves
    to its lower edge. *)
Lemma moved_core_out c r tb sn r1 w :
  rx_core r -> in_sn_range r sn -> stored r tb sn r1 -> pdu_ok (rx_sn_length r) tb = true ->
  back r sn = 0 \/ rx_um_window_size r < back r sn ->
  let r2 := r1 <| vr_uh := (sn + 1) mod rx_sn_modulo r |> in
  ~ (1 <= back r2 (vr_ur r) <= rx_um_window_size r) ->
  in_sn_range r w -> back r2 w = rx_um_window_size r ->
  exists r3, rlc_um_try_reassembly c r2 (vr_ur r) w = Ok r3 /\ loop_eq r2 r3 /\
    rx_core (r3 <| vr_ur := w |>).
Proof.
  intros K Hs (F & I & D) P Ho r2 Hin Hw Bw. pose proof F as [F' _]. unfold ctl_nodar in F'.
  destruct K as [C Ur Uh Ux Wd Dl Dr Sd]. pose proof (cfg_MW _ C) as MW.
  assert (EM : rx_sn_modulo r2 = rx_sn_modulo r) by (unfold r2; rsimpl; congruence).
  assert (EL : rx_sn_length r2 = rx_sn_length r) by (unfold r2; rsimpl; congruence).
  assert (EH : vr_uh r2 = (sn + 1) mod rx_sn_modulo r) by done.
  assert (EB : forall x, back r2 x = ((sn + 1) mod rx_sn_modulo r - x) mod rx_sn_modulo r)
    by (intros x; unfold back; by rewrite EM, EH).
  rewrite EB in Hin, Bw.
  assert (C2 : rx_cfg r2) by by apply (loop_eq_cfg r r1).
  assert (D2 : dar_buffer r2 = <[Z.to_nat sn := Some tb]> (dar_buffer r)) by exact D.
  assert (I2 : sdu_inv r2) by exact I.
  assert (X2 : vr_ux r2 = vr_ux r) by (unfold r2; rsimpl; congruence).
  assert (W2 : rx_um_window_size r2 = rx_um_window_size r) by (unfold r2; rsimpl; congruence).
  clearbody r2. clear F F' I D r1. unfold in_sn_range in *.
  destruct (try_reassembly_ok c r2 (vr_ur r) w C2) as (r3 & E & F & I3 & D3);
    unfold in_sn_range; rewrite ?EM, ?D2, ?length_insert; try done.
  { intros i tb'. rewrite D2, list_lookup_insert_Some, EL.
    intros [(_ & [= <-] & _)|[_ H]]; [done|]. by apply Dr in H as (_ & _ & ?). }
  { intros j. unfold dist, back in *. rewrite EM, EH.
    destruct MW as [[E E']|[E E']]; rewrite E, E' in *; mod_lia. }
  exists r3. split; [done|]. split; [done|].
  pose proof F as [F' _]. unfold ctl_nodar in F'.
  assert (EB3 : forall x, back (r3 <| vr_ur := w |>) x = back r2 x).
  { intros x. unfold back. rsimpl. congruence. }
  assert (EM3 : rx_sn_modulo r3 = rx_sn_modulo r) by congruence.
  split; unfold in_sn_range; rsimpl; rewrite ?EB3, ?EB, ?EM3; try done.
  - by apply (loop_eq_cfg r2 r3).
  - assert (vr_uh r3 = vr_uh r2) as -> by congruence. rewrite EH. apply Z.mod_pos_bound. lia.
  - by assert (vr_ux r3 = vr_ux r) as -> by congruence.
  - assert (rx_um_window_size r3 = rx_um_window_size r) by congruence. lia.
  - by rewrite D3, clear_range_length, D2, length_insert.
  - intros i tb' H. rewrite D3 in H. pose proof (clear_range_Some _ _ _ _ _ _ H) as H'.
    rewrite D2, list_lookup_insert_Some in H'. rewrite EB3, !EB.
    assert (rx_sn_length r3 = rx_sn_length r) as -> by congruence.
    assert (Hd : Z.of_nat i < rx_sn_modulo r -> dist r2 (vr_ur r) w <= (Z.of_nat i - vr_ur r) mod rx_sn_modulo r).
    { intros Hi. destruct (decide (dist r2 (vr_ur r) w <= (Z.of_nat i - vr_ur r) mod rx_sn_modulo r)); [done|].
      exfalso. rewrite cleared_slot in H; rewrite ?EM, ?D2, ?length_insert; try done; lia. }
    unfold dist, back in *. rewrite EM in Hd.
    destruct H' as [(<- & [= <-] & _)|[_ H']].
    + rewrite Z2Nat.id in * by lia. split; [lia|]. split; [|done].
      destruct MW as [[E1 E1']|[E1 E1']]; rewrite E1, E1' in *; mod_lia.
    + apply Dr in H' as (H1 & H2 & H3). split; [lia|]. split; [|done]. specialize (Hd H1).
      destruct MW as [[E1 E1']|[E1 E1']]; rewrite E1, E1' in *; mod_lia.
Qed.

Lemma stored_core_in r tb sn r1 :
  rx_core r -> in_sn_range r sn -> stored r tb sn r1 -> pdu_ok (rx_sn_length r) tb = true ->
  1 <= back r sn <= back r (vr_ur r) -> rx_core r1.
Proof.
  intros K Hs (F & I & D) P Hin. pose proof F as [F' _]. unfold ctl_nodar in F'.
  assert (EB : forall x, back r1 x = back r x) by (intros x; unfold back; congruence).
  destruct K as [C Ur Uh Ux Wd Dl Dr Sd]. unfold in_sn_range in *.
  assert (EM : rx_sn_modulo r1 = rx_sn_modulo r) by congruence.
  assert (EU : vr_ur r1 = vr_ur r) by congruence.
  assert (EL : rx_sn_length r1 = rx_sn_length r) by congruence.
  split; unfold in_sn_range; rewrite ?EB, ?EM, ?EU, ?D, ?length_insert; try done.
  - by apply (loop_eq_cfg r).
  - by assert (vr_uh r1 = vr_uh r) as -> by congruence.
  - by assert (vr_ux r1 = vr_ux r) as -> by congruence.
  - by assert (rx_um_window_size r1 = rx_um_window_size r) as -> by congruence.
  - intros i tb'. rewrite list_lookup_insert_Some, EB, EL.
    intros [(<- & [= <-] & _)|[_ H]]; [|auto]. rewrite Z2Nat.id by lia. split_and!; try done; lia.
Qed.

Lemma dar_window_update_ok c r tb sn r1 :
  rx_core r -> in_sn_range r sn -> stored r tb sn r1 -> pdu_ok (rx_sn_length r) tb = true ->
  ~ (back r (vr_ur r) < back r sn <= rx_um_window_size r) ->
  exists r2, dar_window_update c r1 sn = Ok r2 /\ rx_core r2 /\ side r2 = side r.
Proof.
  intros K Hs St P Hnot. pose proof St as (F & I & D). pose proof F as [F' _]. unfold ctl_nodar in F'.
  pose proof (inv_cfg _ K) as C. pose proof (cfg_MW _ C) as MW. pose proof (inv_window _ K) as Wd.
  assert (C1 : rx_cfg r1) by by apply (loop_eq_cfg r).
  assert (EM : rx_sn_modulo r1 = rx_sn_modulo r) by congruence.
  assert (EW : rx_um_window_size r1 = rx_um_window_size r) by congruence.
  assert (EU : vr_ur r1 = vr_ur r) by congruence.
  assert (EH : vr_uh r1 = vr_uh r) by congruence.
  assert (EB : forall x, back r1 x = back r x) by (intros x; unfold back; congruence).
  unfold dar_window_update. rewrite (in_reordering_window_spec r1 C1);
    [|unfold in_sn_range; rewrite EH, EM; apply K|unfold in_sn_range; by rewrite EM].
  rewrite EB, EW. pose proof (back_range r C sn) as Bsn. pose proof (back_range r C (vr_ur r)) as Bur.
  case_decide as Hin; cbn [Z.ltb Z.compare].
  { exists r1. split; [done|]. split; [|by apply loop_side].
    apply (stored_core_in r tb sn); try done. lia. }
  assert (Hs' := Hs). unfold in_sn_range in Hs'.
  assert (Euh : u16 (Z.rem (sn + 1) (rx_sn_modulo r1)) = (sn + 1) mod rx_sn_modulo r).
  { rewrite EM, Z.rem_mod_nonneg by lia. apply u16_small.
    pose proof (Z.mod_pos_bound (sn + 1) (rx_sn_modulo r)). lia. }
  rewrite Euh. set (r2 := r1 <| vr_uh := (sn + 1) mod rx_sn_modulo r |>).
  assert (Ho : back r sn = 0 \/ rx_um_window_size r < back r sn) by lia.
  change (vr_ur r2) with (vr_ur r1).
  assert (Huh2 : in_sn_range r2 (vr_uh r2)).
  { unfold in_sn_range, r2. rsimpl. rewrite EM. apply Z.mod_pos_bound. lia. }
  assert (Hur2 : in_sn_range r2 (vr_ur r1)).
  { unfold in_sn_range, r2. rsimpl. rewrite EM, EU. apply K. }
  assert (EW2 : rx_um_window_size r2 = rx_um_window_size r) by exact EW.
  rewrite (in_reordering_window_spec r2 C1 Huh2 _ Hur2). rewrite EU, EW2.
  case_decide as Hin2; cbn [Z.eqb negb].
  { exists r2. split; [done|]. split; [by apply (moved_core_in r tb sn r1)|].
    exact (loop_side r r1 F). }
  change (vr_uh r2) with ((sn + 1) mod rx_sn_modulo r).
  change (rx_sn_modulo r2) with (rx_sn_modulo r1).
  rewrite EM.
  set (w := if (sn + 1) mod rx_sn_modulo r - rx_um_window_size r <? 0 then _ else _).
  assert (Hw : in_sn_range r w /\ back r2 w = rx_um_window_size r).
  { unfold in_sn_range, back, w, r2. rsimpl. rewrite EM.
    destruct (Z.ltb_spec ((sn + 1) mod rx_sn_modulo r - rx_um_window_size r) 0);
      destruct MW as [[E E']|[E E']]; rewrite E, E' in *; mod_lia. }
  destruct Hw as [Hw Bw].
  rewrite (s16_sn r w), (s16_sn r (vr_ur r)) by (done || apply K).
  destruct (moved_core_out c r tb sn r1 w K Hs St P Ho Hin2 Hw Bw) as (r3 & E3 & F3 & K3).
  fold r2 in E3, F3. rewrite E3. cbn [mbind res_bind].
  pose proof F3 as [F3' _]. unfold ctl_nodar in F3'.
  assert (Hr3 : rlc_um_in_reordering_window r3 (vr_ur r3) = rlc_um_in_reordering_window r2 (vr_ur r2)).
  { unfold rlc_um_in_reordering_window.
    assert (vr_uh r3 = vr_uh r2) as -> by congruence.
    assert (rx_um_window_size r3 = rx_um_window_size r2) as -> by congruence.
    assert (rx_sn_modulo r3 = rx_sn_modulo r2) as -> by congruence.
    by assert (vr_ur r3 = vr_ur r2) as -> by congruence. }
  rewrite Hr3. change (vr_ur r2) with (vr_ur r1).
  rewrite (in_reordering_window_spec r2 C1 Huh2 _ Hur2), EU, EW2, decide_False by done.
  cbn [Z.ltb Z.compare]. eexists. split; [reflexivity|].
  rewrite u16_small by (unfold in_sn_range in Hw; destruct MW; lia). split; [done|].
  transitivity (side r2); [exact (loop_side _ _ F3)|exact (loop_side r r1 F)].
Qed.

(** ** Delivery and timer *)

Lemma dar_deliver_ok c r sn : rx_core r ->
  exists r', dar_deliver c r sn = Ok r' /\ rx_core r' /\ side r' = side r.
Proof.
  intros K. pose proof (inv_cfg _ K) as C. unfold dar_deliver.
  destruct (Z.eqb_spec sn (vr_ur r)) as [->|]; [|by exists r].
  destruct (get_pdu_ok r (vr_ur r) C (inv_dar_length _ K) (inv_ur _ K)) as (p & Hp & ->).
  cbn [mbind res_bind]. destruct p as [tb|]; [|by exists r].
  apply (inv_dar _ K) in Hp as (_ & Hb & _). pose proof (inv_ur _ K) as Ur.
  unfold in_sn_range in Ur. rewrite Z2Nat.id in Hb by lia.
  pose proof (inv_window _ K). pose proof (cfg_MW _ C).
  destruct (advance_to_hole_ok (Z.to_nat (back r (vr_ur r) - 1)) (Z.to_nat (rx_sn_modulo r)) r C
    (inv_dar_length _ K) (inv_ur _ K) (inv_uh _ K)) as (u & -> & Ru & Bu); [lia..|].
  cbn [mbind res_bind]. change (vr_ur (r <| vr_ur := u |>)) with u. rewrite (s16_sn r u C Ru).
  destruct (flush_ok c r u K Ru) as (r' & -> & F' & K'); [lia|].
  exists r'. split; [done|]. split; [done|]. exact (loop_side _ _ F').
Qed.

Lemma dar_timer_update_side c r : side (dar_timer_update c r) = side r.
Proof. unfold dar_timer_update. by repeat case_match. Qed.

Lemma dar_timer_update_ok c r : rx_core r -> rx_inv (dar_timer_update c r).
Proof.
  intros K. pose proof (inv_cfg _ K) as C. unfold dar_timer_update.
  set (r1 := if _ && _ && _ then _ else r).
  assert (H1 : rx_core r1 /\ (running (t_reordering r1) = true ->
    back r1 (vr_ux r1) <= rx_um_window_size r1)).
  { unfold r1. destruct (running (t_reordering r)) eqn:Run; simpl; [|by rewrite Run].
    destruct (Z.eqb_spec (vr_uh r) (vr_ux r)) as [E|N]; simpl.
    { split; [done|]. intros _. rewrite <- E, back_uh. destruct (cfg_MW _ C); lia. }
    rewrite (in_reordering_window_spec r C (inv_uh _ K) _ (inv_ux _ K)).
    case_decide; simpl; [split; [done|lia]|]. by split; [apply stop_timer_core|]. }
  clearbody r1. destruct H1 as [K1 T1].
  match goal with |- context [if negb (running (t_reordering ?q)) then _ else _] => set (r2 := q) end.
  assert (H2 : rx_inv r2).
  { unfold r2. destruct (running (t_reordering r1)) eqn:Run; [|by split; [|rewrite Run]].
    pose proof (in_window_stop r1 (inv_cfg _ K1) (inv_uh _ K1) (vr_ur r1) (vr_ux r1) (inv_ur _ K1)
      (inv_ux _ K1) (inv_window _ K1) (T1 eq_refl)) as Hw. cbv zeta in Hw.
    destruct (_ || _) eqn:E; [by apply stop_timer_inv|]. split; [done|]. intros _.
    apply orb_false_iff in E as [?%Z.eqb_neq ?%Z.eqb_neq]. lia. }
  clearbody r2. destruct (negb _); [|done]. case_match; [|done]. apply restart_timer_inv, H2.
Qed.

(** ** Reception of a PDU preserves the invariant *)

Lemma pdu_sn_ok r tb : rx_cfg r -> pdu_ok (rx_sn_length r) tb = true ->
  exists sn, pdu_sn r (data_ptr tb) = Ok (Some sn) /\ in_sn_range r sn.
Proof.
  intros C P. unfold pdu_ok in P. rewrite !andb_true_iff, Z.eqb_eq, !Z.leb_le, !Z.ltb_lt in P.
  destruct P as ((((P1 & P2) & P3) & P4) & P5). unfold pdu_sn, in_sn_range, byte_at.
  rewrite forallb_forall in P3. unfold is_byte in P3.
  assert (B : forall b, In b (data_ptr tb) -> 0 <= b < 256).
  { intros b Hb%P3. lia. }
  cfg_cases C; rewrite A in *; simpl in *; destruct (data_ptr tb) as [|b1 [|b2 rest]]; try done; simpl.
  - unfold hdr_len in P4. simpl in P1, P4. lia.
  - eexists. split; [reflexivity|]. pose proof (B b2 ltac:(simpl; tauto)).
    change 3 with (Z.ones 2). rewrite Z.land_ones, Z.shiftl_mul_pow2 by lia. mod_lia.
  - eexists. split; [reflexivity|]. change 31 with (Z.ones 5). rewrite Z.land_ones by lia. mod_lia.
  - eexists. split; [reflexivity|]. change 31 with (Z.ones 5). rewrite Z.land_ones by lia. mod_lia.
Qed.

Lemma process_dar_ok c r tb size : rx_inv r -> pdu_ok (rx_sn_length r) tb = true ->
  exists r', rlc_um_receive_process_dar c r tb size = Ok r' /\ rx_inv r' /\ side r' = side r.
Proof.
  intros Inv P. pose proof Inv as [K _]. unfold rlc_um_receive_process_dar.
  destruct (pdu_sn_ok r tb (inv_cfg _ K) P) as (sn & -> & Hs). cbn [mbind res_bind].
  destruct (dar_store_ok r tb sn size Inv Hs) as (r1 & b & -> & H). cbn [mbind res_bind].
  destruct b; cbn [negb]; [|by exists r1]. destruct H as [St Hn].
  destruct (dar_window_update_ok c r tb sn r1 K Hs St P Hn) as (r2 & -> & K2 & S2). cbn [mbind res_bind].
  destruct (dar_deliver_ok c r2 sn K2) as (r3 & -> & K3 & S3). cbn [mbind res_bind].
  eexists. split; [reflexivity|]. split; [by apply dar_timer_update_ok|].
  rewrite dar_timer_update_side. congruence.
Qed.

End RlcUmRxInv.
