(* ===== verification/RlcUmSegment.v ===== *)
(** * RLC UM transmitter: segmentation and concatenation

    openair2/LAYER2/RLC/UM_v9.3.0/rlc_um_segment.c. The PDU under
    construction is a buffer of [data_pdu_size] bytes written by index: the
    first four bytes are cleared by the [memset], the others hold whatever
    the memory pool left there ([garbage]). A write or a copy outside the
    buffer, or a read past the end of an SDU, is [Fault OutOfBounds].

    The two functions of the source differ in the header, in the guard on
    the requested size and in one statement: only [rlc_um_segment_5] reduces
    [data_pdu_size] when the counting pass gives bytes back
    ([adjust = true]). *)

From S2P Require Import Prelude RlcUmEntity RlcUmDar.

Module RlcUmSegment.
Import RlcUm RlcUmDar.

(** ** Buffer accesses *)

Definition wr (buf : list Z) (i : Z) (v : Z) : res (list Z) :=
  if (0 <=? i) && (i <? Z.of_nat (length buf)) then Ok (<[Z.to_nat i := v]> buf)
  else Fault OutOfBounds.

Definition rd (buf : list Z) (i : Z) : res Z :=
  if 0 <=? i then of_option OutOfBounds (buf !! Z.to_nat i) else Fault OutOfBounds.

(** [memcpy(&buf[off], &src[soff], n)] *)
Definition copy (buf : list Z) (off : Z) (src : list Z) (soff n : Z) : res (list Z) :=
  if (0 <=? off) && (0 <=? soff) && (0 <=? n) && (off + n <=? Z.of_nat (length buf))
     && (soff + n <=? Z.of_nat (length src))
  then Ok (memcpy_at buf off (take (Z.to_nat n) (drop (Z.to_nat soff) src)))
  else Fault OutOfBounds.

(** ** Size of the PDU *)

Definition max_li_overhead (nb_elements : Z) : Z :=
  if nb_elements <=? 1 then 0
  else Z.quot ((nb_elements - 1) * 3) 2 + Z.rem (nb_elements - 1) 2.

Definition choose_pdu_size (rlc_pP : rlc_um_entity_t) (nb_bytes_to_transmit : Z) : Z :=
  let need := u32 (buffer_occupancy rlc_pP + tx_header_min_length_in_bytes rlc_pP
                   + max_li_overhead (Z.of_nat (length (input_sdus rlc_pP)))) in
  if need <=? u32 nb_bytes_to_transmit then need else u32 nb_bytes_to_transmit.

(** ** The counting pass: how many SDUs can fill the PDU *)

Record count_state : Type := mk_count {
  num_fill_sdu : Z;
  test_num_li : Z;
  test_pdu_remaining_size : Z;
  test_li_length_in_bytes : Z;
  test_remaining_size_to_substract : Z;
  test_remaining_num_li_to_substract : Z;
  c_pdu_remaining_size : Z;
  c_data_pdu_size : Z
}.
#[export] Instance count_state_eta : Settable count_state := fun s =>
  mk_count (num_fill_sdu s) (test_num_li s) (test_pdu_remaining_size s)
    (test_li_length_in_bytes s) (test_remaining_size_to_substract s)
    (test_remaining_num_li_to_substract s) (c_pdu_remaining_size s) (c_data_pdu_size s).

(** The assignments common to the branches that end the pass. *)
Definition count_last (st : count_state) : count_state :=
  st <| num_fill_sdu ::= fun n => n + 1 |> <| test_pdu_remaining_size := 0 |>
     <| test_remaining_size_to_substract := 0 |> <| test_remaining_num_li_to_substract := 0 |>.

Definition reduce_pdu (adjust : bool) (n : Z) (st : count_state) : count_state :=
  let st1 := st <| c_pdu_remaining_size ::= fun x => x - n |> in
  if adjust then st1 <| c_data_pdu_size ::= fun x => x - n |> else st1.

(** One iteration; the boolean is [continue_fill_pdu_with_sdu]. *)
Definition count_step (adjust : bool) (st : count_state) (sdu : rlc_um_tx_sdu_t) :
    count_state * bool :=
  let sz := sdu_remaining_size sdu in
  let li := Z.lxor (test_li_length_in_bytes st) 3 in
  let t := test_pdu_remaining_size st in
  if t <? sz then (count_last st, false)
  else if sz =? t then (count_last st, false)
  else if sz + li =? t then (reduce_pdu adjust li (count_last st), false)
  else if sz + li <? t then
    (st <| test_num_li ::= fun n => n + 1 |> <| num_fill_sdu ::= fun n => n + 1 |>
        <| test_pdu_remaining_size := t - (sz + li) |>
        <| test_remaining_size_to_substract := li |>
        <| test_remaining_num_li_to_substract := 1 |>
        <| test_li_length_in_bytes := li |>, true)
  else (reduce_pdu adjust 1 (count_last st), false).

Fixpoint count_pass (adjust : bool) (sdus : list rlc_um_tx_sdu_t) (st : count_state) :
    count_state :=
  match sdus with
  | [] => st
  | sdu :: next =>
      let (st', cont) := count_step adjust st sdu in
      if cont then count_pass adjust next st' else st'
  end.

Definition count_init (pdu_remaining_size data_pdu_size : Z) : count_state :=
  mk_count 0 0 pdu_remaining_size 1 0 0 pdu_remaining_size data_pdu_size.

(** The last LI is not needed when the SDUs ran out first. *)
Definition count_finish (st : count_state) : count_state :=
  if 0 <? test_remaining_num_li_to_substract st then
    st <| test_num_li ::= fun n => n - 1 |>
       <| c_pdu_remaining_size ::= fun x => x - test_remaining_size_to_substract st |>
  else st.

Definition count_10 (sdus : list rlc_um_tx_sdu_t) (pdu_remaining_size data_pdu_size : Z) :
    count_state :=
  count_finish (count_pass false sdus (count_init pdu_remaining_size data_pdu_size)).
Definition count_5 (sdus : list rlc_um_tx_sdu_t) (pdu_remaining_size data_pdu_size : Z) :
    count_state :=
  count_finish (count_pass true sdus (count_init pdu_remaining_size data_pdu_size)).

(** ** The filling pass

    The last branch is the one of builds that define EXMIMO or do not define
    USER_MODE; the others have an [assert(1!=1)] in front of it. *)

Record fill_state : Type := mk_fill {
  f_buf : list Z;
  f_data : Z;              (* offset of [data] *)
  f_e_li : Z;              (* offset of [e_li_p] *)
  f_li_length : Z;
  f_num_li : Z;
  f_pdu_remaining_size : Z;
  f_buffer_occupancy : Z;
  f_last_byte : bool
}.
#[export] Instance fill_state_eta : Settable fill_state := fun s =>
  mk_fill (f_buf s) (f_data s) (f_e_li s) (f_li_length s) (f_num_li s)
    (f_pdu_remaining_size s) (f_buffer_occupancy s) (f_last_byte s).

(** Writing the LI of an SDU of size [sz]: first or second of a pair. *)
Definition write_li (test_num_li : Z) (st : fill_state) (sz : Z) : res fill_state :=
  let e := f_e_li st in
  if f_li_length st =? 2 then
    let b1 := Z.lor (if f_num_li st =? test_num_li then 0 else 0x80) (Z.shiftr sz 4) in
    buf1 ← wr (f_buf st) e (u8 b1);
    buf2 ← wr buf1 (e + 1) (u8 (Z.shiftl sz 4));
    Ok (st <| f_buf := buf2 |>)
  else
    b2 ← rd (f_buf st) (e + 1);
    let b2' := if negb (f_num_li st =? test_num_li) then Z.lor b2 0x08 else b2 in
    buf1 ← wr (f_buf st) (e + 1) (u8 (Z.lor b2' (Z.shiftr sz 8)));
    buf2 ← wr buf1 (e + 2) (Z.land sz 0xFF);
    Ok (st <| f_buf := buf2 |> <| f_e_li := e + 3 |>).

Fixpoint fill_pass (test_num_li : Z) (sdus : list rlc_um_tx_sdu_t) (st : fill_state) :
    res (list rlc_um_tx_sdu_t * fill_state) :=
  match sdus with
  | [] => Ok ([], st)
  | sdu :: next =>
      let sz := sdu_remaining_size sdu in
      let p := f_pdu_remaining_size st in
      if p <? sz then
        (* the SDU does not fit: fill the PDU with its beginning *)
        buf ← copy (f_buf st) (f_data st) (sdu_bytes sdu) (sdu_segmented_size sdu) p;
        Ok (sdu <| sdu_remaining_size := u16 (sz - p) |>
                <| sdu_segmented_size ::= fun x => u16 (x + p) |> :: next,
            st <| f_buf := buf |> <| f_last_byte := false |>
               <| f_buffer_occupancy ::= fun b => b - p |> <| f_pdu_remaining_size := 0 |>)
      else if sz =? p then
        (* exact fit *)
        buf ← copy (f_buf st) (f_data st) (sdu_bytes sdu) (sdu_segmented_size sdu) p;
        Ok (next,
            st <| f_buf := buf |> <| f_buffer_occupancy ::= fun b => b - sz |>
               <| f_last_byte := true |> <| f_pdu_remaining_size := 0 |>)
      else if sz + Z.lxor (f_li_length st) 3 <? p then
        (* the whole SDU, with its length indicator *)
        buf ← copy (f_buf st) (f_data st) (sdu_bytes sdu) (sdu_segmented_size sdu) sz;
        let li := Z.lxor (f_li_length st) 3 in
        st' ← write_li test_num_li
                (st <| f_buf := buf |> <| f_data ::= fun d => d + sz |> <| f_li_length := li |>
                    <| f_num_li ::= fun n => n + 1 |>) sz;
        fill_pass test_num_li next
          (st' <| f_pdu_remaining_size := p - (sz + li) |>
               <| f_buffer_occupancy ::= fun b => b - sz |>)
      else
        (* the whole SDU, and a smaller transport block *)
        buf ← copy (f_buf st) (f_data st) (sdu_bytes sdu) (sdu_segmented_size sdu) sz;
        Ok (next,
            st <| f_buf := buf |> <| f_last_byte := true |>
               <| f_pdu_remaining_size := p - sz |>
               <| f_buffer_occupancy ::= fun b => b - sz |>)
  end.

(** The block as the pool returns it, its first four bytes cleared. *)
Definition fresh_buffer (size : Z) (garbage : list Z) : list Z :=
  take (Z.to_nat size) (replicate 4 0 ++ garbage ++ replicate (Z.to_nat size) 0).

Definition framing_info (first last : bool) : Z :=
  (if first then 0 else 2) + (if last then 0 else 1).

(** Counting, filling and header of one PDU, common to both lengths:
    [hdr] is the size of the fixed header. *)
Definition build_pdu (hdr : Z) (st : count_state) (buf0 : list Z) (rlc_pP : rlc_um_entity_t) :
    res (list rlc_um_tx_sdu_t * fill_state * Z) :=
  match input_sdus rlc_pP with
  | [] => Fault OutOfBounds
  | head :: _ =>
      let first := sdu_remaining_size head =? sdu_size head in
      let data := hdr + Z.shiftr (test_num_li st * 3 + 1) 1 in
      '(sdus, fs) ← fill_pass (test_num_li st) (input_sdus rlc_pP)
        (mk_fill buf0 data hdr 1 0 (c_pdu_remaining_size st) (buffer_occupancy rlc_pP) false);
      Ok (sdus, fs, framing_info first (f_last_byte fs))
  end.

Definition emit_pdu (rlc_pP : rlc_um_entity_t) (sdus : list rlc_um_tx_sdu_t) (fs : fill_state)
    (buf : list Z) (data_pdu_size : Z) : res rlc_um_entity_t :=
  let size := s32 (data_pdu_size - f_pdu_remaining_size fs) in
  _ ← assert_fatal (0 <? size);
  Ok (rlc_pP <| input_sdus := sdus |> <| buffer_occupancy := s32 (f_buffer_occupancy fs) |>
             <| vt_us ::= fun v => u16 (v + 1) |>
             <| pdus_to_mac_layer ::= fun l => l ++ [mk_tb (take (Z.to_nat size) buf) size] |>).

(** [garbage]: content of the block obtained from the pool. The loop of the
    source runs at most once ([nb_bytes_to_transmit = 0; // 1 PDU only]). *)
Definition rlc_um_segment_10 (ctxt_pP : protocol_ctxt_t) (garbage : list Z)
    (rlc_pP : rlc_um_entity_t) : res rlc_um_entity_t :=
  let nb := s32 (nb_bytes_requested_by_mac rlc_pP) in
  if nb <? 3 then Ok rlc_pP
  else
    match input_sdus rlc_pP with
    | [] => Ok rlc_pP
    | _ :: _ =>
        let size := choose_pdu_size rlc_pP nb in
        if negb (mem_block_ok ctxt_pP) then Ok rlc_pP
        else
          let st := count_10 (input_sdus rlc_pP) (size - 2) size in
          '(sdus, fs, fi) ← build_pdu 2 st (fresh_buffer size garbage) rlc_pP;
          let b1 := Z.lor (Z.lor (Z.shiftl fi 3) (if 0 <? f_num_li fs then 0x04 else 0))
                      (Z.land (Z.shiftr (vt_us rlc_pP) 8) 0x03) in
          buf1 ← wr (f_buf fs) 0 b1;
          buf2 ← wr buf1 1 (Z.land (vt_us rlc_pP) 0xFF);
          emit_pdu rlc_pP sdus fs buf2 (c_data_pdu_size st)
    end.

Definition rlc_um_segment_5 (ctxt_pP : protocol_ctxt_t) (garbage : list Z)
    (rlc_pP : rlc_um_entity_t) : res rlc_um_entity_t :=
  let nb := s32 (nb_bytes_requested_by_mac rlc_pP) in
  if nb <? 2 then Ok rlc_pP
  else
    match input_sdus rlc_pP with
    | [] => Ok rlc_pP
    | _ :: _ =>
        let size := choose_pdu_size rlc_pP nb in
        if negb (mem_block_ok ctxt_pP) then Ok rlc_pP
        else
          let st := count_5 (input_sdus rlc_pP) (size - 1) size in
          '(sdus, fs, fi) ← build_pdu 1 st (fresh_buffer size garbage) rlc_pP;
          let b1 := Z.lor (Z.lor (Z.shiftl fi 6) (if 0 <? f_num_li fs then 0x20 else 0))
                      (Z.land (vt_us rlc_pP) 0x1F) in
          buf1 ← wr (f_buf fs) 0 b1;
          emit_pdu rlc_pP sdus fs buf1 (c_data_pdu_size st)
    end.

End RlcUmSegment.
