(* ===== verification/RlcUmTx.v ===== *)
(** * RLC UM transmitter: what a PDU contains

    The counting and the filling pass of rlc_um_segment.c together produce
    header, length indicators and SDU bytes without gaps, never write
    outside the PDU, and keep the buffer occupancy equal to the bytes still
    queued. *)

From S2P Require Import Prelude RlcUmEntity RlcUmDar RlcUmReasm RlcUmSegment.

Module RlcUmTx.
Import RlcUm RlcUmDar RlcUmReasm RlcUmSegment.

(** ** Queued SDUs *)

Record sdu_ok (s : rlc_um_tx_sdu_t) : Prop := {
  sdu_len : Z.of_nat (length (sdu_bytes s)) = sdu_size s;
  sdu_split : sdu_segmented_size s + sdu_remaining_size s = sdu_size s;
  sdu_seg : 0 <= sdu_segmented_size s;
  sdu_rem : 1 <= sdu_remaining_size s;
  sdu_u16 : sdu_size s < 2 ^ 16
}.

(** The bytes of an SDU not yet sent. *)
Definition sdu_rest (s : rlc_um_tx_sdu_t) : list Z :=
  drop (Z.to_nat (sdu_segmented_size s)) (sdu_bytes s).

Lemma sdu_rest_length s : sdu_ok s -> Z.of_nat (length (sdu_rest s)) = sdu_remaining_size s.
Proof. intros []. unfold sdu_rest. rewrite length_drop. lia. Qed.

Definition remaining (q : list rlc_um_tx_sdu_t) : Z := sum_li (sdu_remaining_size <$> q).

Lemma remaining_nil : remaining [] = 0.
Proof. done. Qed.

Lemma remaining_cons s q : remaining (s :: q) = sdu_remaining_size s + remaining q.
Proof. done. Qed.

Lemma remaining_app q1 q2 : remaining (q1 ++ q2) = remaining q1 + remaining q2.
Proof. unfold remaining. by rewrite fmap_app, sum_li_app. Qed.

Lemma remaining_ge q : Forall sdu_ok q -> Z.of_nat (length q) <= remaining q.
Proof.
  induction 1 as [|s q H _ IH]; [done|]. rewrite remaining_cons. cbn [length]. destruct H. lia.
Qed.

(** ** Length indicator encoding

    [enc_lis pending lis] is what the filling pass leaves from [e_li_p] on:
    [pending] is the half-filled second byte of a pair. *)
Fixpoint enc_lis (pending : option Z) (lis : list Z) : list Z :=
  match pending, lis with
  | None, [] => []
  | None, a :: rest =>
      u8 (Z.lor (if rest is [] then 0 else 0x80) (Z.shiftr a 4))
        :: enc_lis (Some (u8 (Z.shiftl a 4))) rest
  | Some b2, [] => [b2]
  | Some b2, b :: rest =>
      u8 (Z.lor (if rest is [] then b2 else Z.lor b2 0x08) (Z.shiftr b 8))
        :: Z.land b 0xFF :: enc_lis None rest
  end.

(** Cost in bytes of [n] more indicators when the last one took [l]. *)
Fixpoint li_cost (l : Z) (n : nat) : Z :=
  match n with O => 0 | S n => Z.lxor l 3 + li_cost (Z.lxor l 3) n end.

Lemma lxor13 : Z.lxor 1 3 = 2. Proof. done. Qed.
Lemma lxor23 : Z.lxor 2 3 = 1. Proof. done. Qed.

Lemma li_cost_ge l n : l = 1 \/ l = 2 -> Z.of_nat n <= li_cost l n.
Proof.
  revert l. induction n as [|n IH]; intros l Hl; [done|]. cbn [li_cost].
  destruct Hl as [-> | ->]; rewrite ?lxor13, ?lxor23;
    [specialize (IH 2 ltac:(auto))|specialize (IH 1 ltac:(auto))]; lia.
Qed.

Lemma li_cost_bytes n : li_cost 1 n = Z.of_nat (li_bytes n) /\ li_cost 2 n + 2 = Z.of_nat (li_bytes (S n)).
Proof.
  induction n as [|n [IH1 IH2]]; [done|]. cbn [li_cost]. rewrite ?lxor13, ?lxor23.
  rewrite li_bytes_SS. split; lia.
Qed.

Lemma enc_lis_length lis : Z.of_nat (length (enc_lis None lis)) = li_cost 1 (length lis) /\
  forall b, Z.of_nat (length (enc_lis (Some b) lis)) = 1 + li_cost 2 (length lis).
Proof.
  induction lis as [|a lis [IH1 IH2]]; [done|]. cbn [enc_lis length li_cost]. rewrite ?lxor13, ?lxor23.
  split; [|intros _]; rewrite ?Nat2Z.inj_succ; rewrite ?IH2, ?IH1; lia.
Qed.

(** ** Buffer writes at the end of a known prefix *)

Lemma wr_app pre x post v i : i = Z.of_nat (length pre) ->
  wr (pre ++ x :: post) i v = Ok (pre ++ v :: post).
Proof.
  intros ->. unfold wr. rewrite length_app. cbn [length].
  destruct (Z.leb_spec 0 (Z.of_nat (length pre))); [|lia].
  destruct (Z.ltb_spec (Z.of_nat (length pre)) (Z.of_nat (length pre + S (length post)))); [|lia].
  simpl. by rewrite Nat2Z.id, insert_app_r_alt, Nat.sub_diag by lia.
Qed.

Lemma wr_app2 pre x y post v i : i = Z.of_nat (length pre) + 1 ->
  wr (pre ++ x :: y :: post) i v = Ok (pre ++ x :: v :: post).
Proof.
  intros ->. rewrite (app_assoc pre [x] (y :: post) : pre ++ x :: y :: post = (pre ++ [x]) ++ y :: post).
  rewrite wr_app by (rewrite length_app; simpl; lia). by rewrite <- app_assoc.
Qed.

Lemma wr_0 x post v : wr (x :: post) 0 v = Ok (v :: post).
Proof. exact (wr_app [] x post v 0 eq_refl). Qed.
Lemma wr_1 x y post v : wr (x :: y :: post) 1 v = Ok (x :: v :: post).
Proof. exact (wr_app2 [] x y post v 1 eq_refl). Qed.

Lemma rd_app pre x post i : i = Z.of_nat (length pre) -> rd (pre ++ x :: post) i = Ok x.
Proof.
  intros ->. unfold rd. destruct (Z.leb_spec 0 (Z.of_nat (length pre))); [|lia].
  by rewrite Nat2Z.id, lookup_app_r, Nat.sub_diag by lia.
Qed.

Lemma copy_app pre post src soff n i :
  i = Z.of_nat (length pre) -> 0 <= soff -> 0 <= n -> n <= Z.of_nat (length post) ->
  soff + n <= Z.of_nat (length src) ->
  copy (pre ++ post) i src soff n =
    Ok (pre ++ take (Z.to_nat n) (drop (Z.to_nat soff) src) ++ drop (Z.to_nat n) post).
Proof.
  intros -> H1 H2 H3 H4. unfold copy. rewrite length_app.
  rewrite !(proj2 (Z.leb_le _ _)) by lia. simpl. unfold memcpy_at. f_equal.
  rewrite Nat2Z.id, take_app_length. do 2 f_equal.
  rewrite length_take, length_drop, drop_app_ge by lia. f_equal. lia.
Qed.

(** ** The filling pass *)

(** The SDU after [p] more of its bytes were sent. *)
Definition advance_sdu (s : rlc_um_tx_sdu_t) (p : Z) : rlc_um_tx_sdu_t :=
  s <| sdu_remaining_size := sdu_remaining_size s - p |>
    <| sdu_segmented_size ::= fun x => x + p |>.

Lemma advance_sdu_ok s p : sdu_ok s -> 0 <= p < sdu_remaining_size s -> sdu_ok (advance_sdu s p).
Proof. intros [] Hp. split; unfold advance_sdu; rsimpl; try done; lia. Qed.

(** Where the filling pass stands in the LI area [G] that follows [X]. *)
Definition li_area (pending : option Z) (n : nat) (X G : list Z) (st : fill_state) : Prop :=
  match pending with
  | None => f_li_length st = 1 /\ f_e_li st = Z.of_nat (length X) /\
      Z.of_nat (length G) = li_cost 1 n
  | Some b2 => f_li_length st = 2 /\ f_e_li st + 1 = Z.of_nat (length X) /\
      exists G', G = b2 :: G' /\ Z.of_nat (length G') = li_cost 2 n
  end.

Lemma li_area_length pending n X G st :
  li_area pending n X G st -> Z.of_nat (length G) =
    li_cost (f_li_length st) n + (if pending is Some _ then 1 else 0).
Proof.
  destruct pending; intros (-> & _ & H); [|lia].
  destruct H as (G' & -> & H). cbn [length]. lia.
Qed.

(** Writing one LI moves the area forward. *)
Lemma write_li_spec pending lis X G T st a tnl :
  let li := Z.lxor (f_li_length st) 3 in
  li_area pending (S (length lis)) X G st ->
  f_num_li st + 1 + Z.of_nat (length lis) = tnl ->
  exists pending' X' G' st',
    write_li tnl (st <| f_buf := X ++ G ++ T |> <| f_li_length := li |>
                     <| f_num_li ::= fun n => n + 1 |>) a = Ok st' /\
    st' = st <| f_buf := X' ++ G' ++ T |> <| f_li_length := li |>
             <| f_num_li ::= fun n => n + 1 |> <| f_e_li := f_e_li st' |> /\
    li_area pending' (length lis) X' G' st' /\
    length (X' ++ G') = length (X ++ G) /\
    X' ++ enc_lis pending' lis = X ++ enc_lis pending (a :: lis).
Proof.
  intros li HA Hn. assert (Hlast : (f_num_li st + 1 =? tnl) = if lis is [] then true else false).
  { destruct lis; [apply Z.eqb_eq; simpl in Hn; lia|apply Z.eqb_neq; simpl in Hn; lia]. }
  unfold write_li. rsimpl. rewrite Hlast. destruct pending as [b2|]; simpl in HA.
  - destruct HA as (Hl & He & G' & -> & HG). unfold li. rewrite Hl in *.
    rewrite lxor23. change (1 =? 2) with false. cbv iota. cbn [li_cost] in HG. rewrite lxor23 in HG.
    destruct G' as [|g G'].
    { simpl in HG. pose proof (li_cost_ge 1 (length lis)). lia. }
    cbn [app]. rewrite rd_app by done. cbn [mbind res_bind].
    rewrite wr_app by done. cbn [mbind res_bind].
    rewrite wr_app2 by lia.
    cbn [mbind res_bind].
    eexists None, (X ++ [_; _]), G', _. split; [reflexivity|]. split; [|split; [|split]].
    + destruct st; rsimpl. simpl. rewrite <- app_assoc. reflexivity.
    + split; [done|]. rsimpl. rewrite length_app. simpl in *. split; lia.
    + rewrite !length_app. simpl. lia.
    + rewrite <- app_assoc. simpl. do 3 f_equal. by destruct lis.
  - destruct HA as (Hl & He & HG). unfold li. rewrite Hl in *.
    rewrite lxor13. change (2 =? 2) with true. cbv iota. cbn [li_cost] in HG. rewrite lxor13 in HG.
    destruct G as [|g0 [|g1 G]];
      [simpl in HG; pose proof (li_cost_ge 2 (length lis)); lia..|].
    cbn [app]. rewrite wr_app by done. cbn [mbind res_bind].
    rewrite wr_app2 by lia.
    cbn [mbind res_bind].
    eexists (Some _), (X ++ [_]), (_ :: G), _. split; [reflexivity|]. split; [|split; [|split]].
    + destruct st; rsimpl. simpl. rewrite <- app_assoc. reflexivity.
    + split; [done|]. rsimpl. rewrite length_app. simpl in *. split; [lia|]. eexists. split; [done|]. lia.
    + rewrite !length_app. simpl. lia.
    + rewrite <- app_assoc. simpl. do 2 f_equal. by destruct lis.
Qed.

(** The bytes sent by a PDU that carries the SDUs [full] completely and [p]
    bytes of [s]. *)
Definition payload (full : list rlc_um_tx_sdu_t) (s : rlc_um_tx_sdu_t) (p : Z) : list Z :=
  concat (sdu_rest <$> full) ++ take (Z.to_nat p) (sdu_rest s).

Definition queue_after (s : rlc_um_tx_sdu_t) (p : Z) (rest : list rlc_um_tx_sdu_t) :=
  if p =? sdu_remaining_size s then rest else advance_sdu s p :: rest.

(** The last SDU of the PDU: its end, or a segment that fills the PDU. *)
Lemma fill_last tnl s rest pre R st p :
  sdu_ok s -> 1 <= p <= sdu_remaining_size s -> f_pdu_remaining_size st = p ->
  f_buf st = pre ++ R -> f_data st = Z.of_nat (length pre) -> p <= Z.of_nat (length R) ->
  exists st', fill_pass tnl (s :: rest) st = Ok (queue_after s p rest, st') /\
    f_buf st' = pre ++ take (Z.to_nat p) (sdu_rest s) ++ drop (Z.to_nat p) R /\
    f_num_li st' = f_num_li st /\ f_pdu_remaining_size st' = 0 /\
    f_buffer_occupancy st' = f_buffer_occupancy st - p /\
    f_last_byte st' = (p =? sdu_remaining_size s).
Proof.
  intros Hs Hp Ep Eb Ed HR. cbn [fill_pass]. rewrite Ep, Eb.
  assert (Hc : copy (pre ++ R) (f_data st) (sdu_bytes s) (sdu_segmented_size s) p =
    Ok (pre ++ take (Z.to_nat p) (sdu_rest s) ++ drop (Z.to_nat p) R)).
  { apply copy_app; destruct Hs; lia. }
  unfold queue_after. destruct (Z.ltb_spec p (sdu_remaining_size s)).
  - rewrite Hc. cbn [mbind res_bind]. rewrite (proj2 (Z.eqb_neq p _)) by lia.
    assert (HU : s <| sdu_remaining_size := u16 (sdu_remaining_size s - p) |>
                   <| sdu_segmented_size ::= fun x => u16 (x + p) |> = advance_sdu s p).
    { destruct Hs. unfold advance_sdu, upd. simpl. by rewrite !u16_small by lia. }
    rewrite HU. eexists. split; [reflexivity|]. by rsimpl.
  - assert (p = sdu_remaining_size s) as -> by lia. rewrite !Z.eqb_refl, Hc. cbn [mbind res_bind].
    eexists. split; [reflexivity|]. by rsimpl.
Qed.

Lemma fill_pass_spec full pending X G D R st tnl s rest p :
  Forall sdu_ok full -> sdu_ok s -> 1 <= p <= sdu_remaining_size s ->
  f_buf st = X ++ G ++ D ++ R -> li_area pending (length full) X G st ->
  f_data st = Z.of_nat (length (X ++ G ++ D)) ->
  f_num_li st + Z.of_nat (length full) = tnl ->
  f_pdu_remaining_size st = remaining full + li_cost (f_li_length st) (length full) + p ->
  remaining full + p <= Z.of_nat (length R) ->
  exists st', fill_pass tnl (full ++ s :: rest) st = Ok (queue_after s p rest, st') /\
    f_buf st' = X ++ enc_lis pending (sdu_remaining_size <$> full) ++ D ++ payload full s p ++
                drop (Z.to_nat (remaining full + p)) R /\
    f_num_li st' = tnl /\ f_pdu_remaining_size st' = 0 /\
    f_buffer_occupancy st' = f_buffer_occupancy st - (remaining full + p) /\
    f_last_byte st' = (p =? sdu_remaining_size s).
Proof.
  intros Hfull Hs Hp. revert pending X G D R st.
  induction Hfull as [|a full Ha Hfull IH]; intros pending X G D R st Eb HA Ed En Er HR.
  - cbn [app]. change (remaining []) with 0 in *. cbn [length li_cost] in *.
    destruct (fill_last tnl s rest (X ++ G ++ D) R st p) as (st' & E & B & N & P & O & L);
      [done|done|lia|by rewrite Eb, <- !app_assoc|done|lia|].
    exists st'. split; [done|]. split_and!; try done; [|lia..].
    rewrite B. unfold payload. csimpl. rewrite <- !app_assoc. do 2 f_equal.
    destruct pending; simpl in HA; [destruct HA as (_ & _ & G' & -> & HG)|destruct HA as (_ & _ & HG)];
      simpl in HG.
    + by destruct G'.
    + by destruct G.
  - rewrite remaining_cons in *. cbn [length app] in *. cbn [li_cost] in Er.
    pose proof (remaining_ge full Hfull) as Hge. pose proof Ha as [L1 L2 L3 L4 L5].
    pose proof (li_area_length _ _ _ _ _ HA) as HGl.
    assert (Hll : f_li_length st = 1 \/ f_li_length st = 2) by (destruct pending; simpl in HA; tauto).
    set (li := Z.lxor (f_li_length st) 3) in *.
    assert (Hli : li = 1 \/ li = 2) by (unfold li; destruct Hll as [-> | ->]; auto).
    pose proof (li_cost_ge li (length full) Hli) as Hlc.
    cbn [fill_pass]. rewrite Er.
    rewrite (proj2 (Z.ltb_ge _ _)) by lia. rewrite (proj2 (Z.eqb_neq _ _)) by lia.
    fold li. rewrite (proj2 (Z.ltb_lt _ _)) by lia.
    rewrite Eb, (app_assoc G), (app_assoc X).
    rewrite copy_app; [|rewrite Ed, !app_assoc; done|lia|lia|lia|lia].
    cbn [mbind res_bind].
    set (T := D ++ sdu_rest a ++ drop (Z.to_nat (sdu_remaining_size a)) R).
    assert (HT : (X ++ G ++ D) ++ take (Z.to_nat (sdu_remaining_size a)) (drop (Z.to_nat (sdu_segmented_size a)) (sdu_bytes a))
      ++ drop (Z.to_nat (sdu_remaining_size a)) R = X ++ G ++ T).
    { unfold T. rewrite <- !app_assoc. do 4 f_equal. fold (sdu_rest a). apply take_ge.
      pose proof (sdu_rest_length a Ha). lia. }
    rewrite HT.
    destruct (write_li_spec pending (sdu_remaining_size <$> full) X G T
      (st <| f_data ::= fun d => d + sdu_remaining_size a |>) (sdu_remaining_size a) tnl)
      as (pending' & X' & G' & st1 & E1 & S1 & A1 & LX & Enc).
    { rewrite length_fmap. exact HA. }
    { rewrite length_fmap. change (f_num_li (st <| f_data ::= _ |>)) with (f_num_li st). lia. }
    rewrite length_fmap in A1.
    change (write_li tnl (st <| f_buf := _ |> <| f_data ::= _ |> <| f_li_length := li |> <| f_num_li ::= _ |>) _)
      with (write_li tnl (st <| f_data ::= fun d => d + sdu_remaining_size a |> <| f_buf := X ++ G ++ T |>
         <| f_li_length := li |> <| f_num_li ::= fun n => n + 1 |>) (sdu_remaining_size a)).
    change (Z.lxor (f_li_length (st <| f_data ::= _ |>)) 3) with li in *.
    rewrite E1. cbn [mbind res_bind].
    assert (F1 : f_buf st1 = X' ++ G' ++ T) by (rewrite S1; done).
    assert (F2 : f_data st1 = f_data st + sdu_remaining_size a) by (rewrite S1; done).
    assert (F3 : f_num_li st1 = f_num_li st + 1) by (rewrite S1; done).
    assert (F4 : f_li_length st1 = li) by (rewrite S1; done).
    assert (F5 : f_buffer_occupancy st1 = f_buffer_occupancy st) by (rewrite S1; done).
    clear S1 E1. unfold T in F1. rewrite !length_app in LX.
    match goal with |- context [fill_pass tnl _ ?q] => set (st2 := q) end.
    destruct (IH pending' X' G' (D ++ sdu_rest a) (drop (Z.to_nat (sdu_remaining_size a)) R) st2)
      as (st' & E & B & N & P & O & L).
    + change (f_buf st1 = X' ++ G' ++ (D ++ sdu_rest a) ++ drop (Z.to_nat (sdu_remaining_size a)) R).
      by rewrite F1, <- !app_assoc.
    + exact A1.
    + change (f_data st1 = Z.of_nat (length (X' ++ G' ++ D ++ sdu_rest a))).
      rewrite F2, Ed, !length_app. pose proof (sdu_rest_length a Ha). lia.
    + change (f_num_li st1 + Z.of_nat (length full) = tnl). lia.
    + change (f_pdu_remaining_size st2) with
        (sdu_remaining_size a + remaining full + (li + li_cost li (length full)) + p - (sdu_remaining_size a + li)).
      change (f_li_length st2) with (f_li_length st1). rewrite F4. lia.
    + rewrite length_drop. lia.
    + exists st'. split; [done|].
      change (f_buffer_occupancy st2) with (f_buffer_occupancy st1 - sdu_remaining_size a) in O.
      split_and!; try done; [|lia].
      rewrite B, (app_assoc X'), Enc. unfold payload. csimpl. rewrite drop_drop, <- !app_assoc.
      do 6 f_equal. f_equal. lia.
Qed.

(** ** The counting pass *)

(** What the two passes agree on: the PDU takes [full] completely, [p] bytes
    of [s], and gives [slack] bytes of the available [t] back. *)
Record cut (q : list rlc_um_tx_sdu_t) (l t : Z) (full : list rlc_um_tx_sdu_t)
    (s : rlc_um_tx_sdu_t) (rest : list rlc_um_tx_sdu_t) (p slack : Z) : Prop := {
  cut_queue : q = full ++ s :: rest;
  cut_p : 1 <= p <= sdu_remaining_size s;
  cut_slack : 0 <= slack <= 2;
  cut_slack_last : 0 < slack -> p = sdu_remaining_size s;
  cut_size : remaining full + li_cost l (length full) + p + slack = t
}.

Lemma count_pass_spec adjust q st :
  Forall sdu_ok q -> q <> [] ->
  test_li_length_in_bytes st = 1 \/ test_li_length_in_bytes st = 2 ->
  1 <= test_pdu_remaining_size st
    <= remaining q + li_cost (test_li_length_in_bytes st) (length q - 1) ->
  exists full s rest p slack,
    cut q (test_li_length_in_bytes st) (test_pdu_remaining_size st) full s rest p slack /\
    test_num_li (count_pass adjust q st) = test_num_li st + Z.of_nat (length full) /\
    test_remaining_num_li_to_substract (count_pass adjust q st) = 0 /\
    c_pdu_remaining_size (count_pass adjust q st) = c_pdu_remaining_size st - slack /\
    c_data_pdu_size (count_pass adjust q st) =
      c_data_pdu_size st - (if adjust then slack else 0).
Proof.
  intros Hq. revert st. induction Hq as [|s q Hs Hq IH]; intros st Hne Hl Ht; [done|]. clear Hne.
  pose proof Hs as [L1 L2 L3 L4 L5]. rewrite remaining_cons in Ht. cbn [length] in Ht.
  cbn [count_pass]. unfold count_step.
  set (t := test_pdu_remaining_size st) in *. set (l := test_li_length_in_bytes st) in *.
  assert (Hli : Z.lxor l 3 = 1 \/ Z.lxor l 3 = 2) by (destruct Hl as [-> | ->]; auto).
  destruct (Z.ltb_spec t (sdu_remaining_size s)).
  { exists [], s, q, t, 0. split; [split; cbn [app length li_cost]; rewrite ?remaining_nil; try done; lia|]. simpl. split_and!; try done; destruct adjust; lia. }
  destruct (Z.eqb_spec (sdu_remaining_size s) t).
  { exists [], s, q, t, 0. split; [split; cbn [app length li_cost]; rewrite ?remaining_nil; try done; lia|]. simpl. split_and!; try done; destruct adjust; lia. }
  destruct (Z.eqb_spec (sdu_remaining_size s + Z.lxor l 3) t).
  { exists [], s, q, (sdu_remaining_size s), (Z.lxor l 3). split; [split; cbn [app length li_cost]; rewrite ?remaining_nil; try done; lia|].
    unfold reduce_pdu. destruct adjust; simpl; split_and!; try done; lia. }
  destruct (Z.ltb_spec (sdu_remaining_size s + Z.lxor l 3) t).
  - destruct q as [|s2 q]; [rewrite remaining_nil in Ht; cbn [length Nat.sub li_cost] in Ht; lia|].
    match goal with |- context [count_pass adjust (s2 :: q) ?x] => set (st1 := x) end.
    destruct (IH st1) as (full & s' & rest & p & slack & [Q P K KL Sz] & N & Sb & Pr & Dr).
    + done.
    + exact Hli.
    + change (1 <= t - (sdu_remaining_size s + Z.lxor l 3) <=
        remaining (s2 :: q) + li_cost (Z.lxor l 3) (length (s2 :: q) - 1)).
      cbn [length Nat.sub] in *. rewrite Nat.sub_0_r in *. cbn [li_cost] in Ht. lia.
    + change (test_li_length_in_bytes st1) with (Z.lxor l 3) in Sz.
      change (test_pdu_remaining_size st1) with (t - (sdu_remaining_size s + Z.lxor l 3)) in Sz.
      exists (s :: full), s', rest, p, slack. split.
      { split; try done; [by rewrite Q|]. rewrite remaining_cons. cbn [length li_cost]. lia. }
      change (test_num_li st1) with (test_num_li st + 1) in N.
      split_and!; [rewrite N; cbn [length]; lia|done|exact Pr|exact Dr].
  - exists [], s, q, (sdu_remaining_size s), 1. split; [split; cbn [app length li_cost]; rewrite ?remaining_nil; try done; lia|].
    unfold reduce_pdu. destruct adjust; simpl; split_and!; try done; lia.
Qed.

Lemma count_spec adjust q P size :
  Forall sdu_ok q -> q <> [] -> 1 <= P <= remaining q + li_cost 1 (length q - 1) ->
  exists full s rest p slack,
    let st := count_finish (count_pass adjust q (count_init P size)) in
    cut q 1 P full s rest p slack /\ test_num_li st = Z.of_nat (length full) /\
    c_pdu_remaining_size st = P - slack /\
    c_data_pdu_size st = size - (if adjust then slack else 0).
Proof.
  intros Hq Hne HP.
  destruct (count_pass_spec adjust q (count_init P size) Hq Hne) as (full & s & rest & p & slack & C & N & S & R & D);
    [by left|done|].
  exists full, s, rest, p, slack. cbv zeta. unfold count_finish. rewrite S. simpl in N. done.
Qed.

Lemma max_li_overhead_eq n : (0 < n)%nat -> max_li_overhead (Z.of_nat n) = li_cost 1 (n - 1).
Proof.
  intros Hn. rewrite (proj1 (li_cost_bytes _)). unfold max_li_overhead, li_bytes.
  rewrite Nat.div2_div, Nat2Z.inj_div, !Nat2Z.inj_add, Nat2Z.inj_mul.
  change (Z.of_nat 3) with 3. change (Z.of_nat 2) with 2. change (Z.of_nat 1) with 1.
  rewrite Nat2Z.inj_sub by lia. change (Z.of_nat 1) with 1.
  destruct (Z.leb_spec (Z.of_nat n) 1).
  - assert (Z.of_nat n = 1) as -> by lia. done.
  - Z.to_euclidean_division_equations; lia.
Qed.

(** ** The transmitter's invariant *)

Record tx_inv (r : rlc_um_entity_t) : Prop := {
  tx_cfg : (tx_sn_length r = 10 /\ tx_header_min_length_in_bytes r = 2) \/
           (tx_sn_length r = 5 /\ tx_header_min_length_in_bytes r = 1);
  tx_sdus : Forall sdu_ok (input_sdus r);
  tx_tail : Forall (fun s => sdu_segmented_size s = 0) (tail (input_sdus r));
  tx_bo : buffer_occupancy r = remaining (input_sdus r);
  tx_bo_max : buffer_occupancy r <= 2 ^ 29;
  tx_vt_us : 0 <= vt_us r < 2 ^ 16
}.

Lemma li_cost_le n : li_cost 1 n <= 2 * Z.of_nat n /\ li_cost 2 n <= 2 * Z.of_nat n.
Proof.
  induction n as [|n [IH1 IH2]]; [done|]. cbn [li_cost]. rewrite lxor13, lxor23. lia.
Qed.

Lemma fresh_buffer_length size g : 0 <= size -> Z.of_nat (length (fresh_buffer size g)) = size.
Proof. intros. unfold fresh_buffer. rewrite length_take, !length_app, !length_replicate. lia. Qed.

(** The PDU is no larger than requested, holds at least one byte of SDU, and
    cannot hold more than what is queued. *)
Lemma choose_pdu_size_spec r nb :
  tx_inv r -> input_sdus r <> [] -> tx_header_min_length_in_bytes r < nb < 2 ^ 31 ->
  let size := choose_pdu_size r nb in
  tx_header_min_length_in_bytes r < size <= nb /\
  size - tx_header_min_length_in_bytes r
    <= remaining (input_sdus r) + li_cost 1 (length (input_sdus r) - 1).
Proof.
  intros [Cf Sd Tl Bo Bm Vt] Hne Hnb. unfold choose_pdu_size. cbv zeta.
  assert (Hl : (0 < length (input_sdus r))%nat) by (destruct (input_sdus r); [done|simpl; lia]).
  rewrite max_li_overhead_eq by done. pose proof (remaining_ge _ Sd) as Hg.
  pose proof (li_cost_ge 1 (length (input_sdus r) - 1) (or_introl eq_refl)).
  pose proof (proj1 (li_cost_le (length (input_sdus r) - 1))).
  rewrite (u32_small nb) by lia. rewrite u32_small by lia.
  destruct (Z.leb_spec (buffer_occupancy r + tx_header_min_length_in_bytes r + li_cost 1 (length (input_sdus r) - 1)) nb); lia.
Qed.

(** The two passes over a queue, for a PDU of [size] bytes with a fixed header
    of [h]. *)
Lemma passes_spec adjust h q bo size g :
  Forall sdu_ok q -> q <> [] -> 0 <= h -> 1 <= size - h <= remaining q + li_cost 1 (length q - 1) ->
  let st := count_finish (count_pass adjust q (count_init (size - h) size)) in
  exists full s rest p slack fs X trail,
    cut q 1 (size - h) full s rest p slack /\
    fill_pass (test_num_li st) q
      (mk_fill (fresh_buffer size g) (h + Z.shiftr (test_num_li st * 3 + 1) 1) h 1 0 (c_pdu_remaining_size st) bo false) =
      Ok (queue_after s p rest, fs) /\
    f_buf fs = X ++ enc_lis None (sdu_remaining_size <$> full) ++ payload full s p ++ trail /\
    Z.of_nat (length X) = h /\ Z.of_nat (length trail) = slack /\
    f_num_li fs = Z.of_nat (length full) /\ f_pdu_remaining_size fs = 0 /\
    f_buffer_occupancy fs = bo - (remaining full + p) /\ f_last_byte fs = (p =? sdu_remaining_size s) /\
    c_data_pdu_size st = size - (if adjust then slack else 0) /\
    test_num_li st = Z.of_nat (length full) /\ c_pdu_remaining_size st = size - h - slack.
Proof.
  intros Sd Hne Hh' HP. cbv zeta.
  destruct (count_spec adjust q (size - h) size Sd Hne HP)
    as (full & s & rest & p & slack & C & N & R & D). cbv zeta in N, R, D.
  set (st := count_finish _) in *. clearbody st. pose proof C as [Q P K KL Sz].
  assert (Hf : Forall sdu_ok full /\ sdu_ok s).
  { rewrite Q in Sd. apply Forall_app in Sd as [? [? ?]%Forall_cons]. done. }
  destruct Hf as [Hf Hs]. pose proof (remaining_ge full Hf) as Hg.
  pose proof (li_cost_ge 1 (length full) (or_introl eq_refl)) as Hc.
  set (buf := fresh_buffer size g).
  assert (Hbuf : Z.of_nat (length buf) = size) by (apply fresh_buffer_length; lia).
  set (k := Z.to_nat (li_cost 1 (length full))).
  set (X := take (Z.to_nat h) buf). set (G := take k (drop (Z.to_nat h) buf)).
  set (Rr := drop k (drop (Z.to_nat h) buf)).
  assert (HX : Z.of_nat (length X) = h) by (unfold X; rewrite length_take; lia).
  assert (HG : Z.of_nat (length G) = li_cost 1 (length full))
    by (unfold G, k; rewrite length_take, length_drop; lia).
  assert (HR : Z.of_nat (length Rr) = remaining full + p + slack)
    by (unfold Rr, k; rewrite !length_drop; lia).
  assert (Hsplit : buf = X ++ G ++ [] ++ Rr) by (unfold X, G, Rr; simpl; by rewrite !take_drop).
  assert (Hdata : h + Z.shiftr (test_num_li st * 3 + 1) 1 = Z.of_nat (length (X ++ G ++ []))).
  { rewrite app_nil_r, length_app, N, Nat2Z.inj_add, HX, HG.
    rewrite (proj1 (li_cost_bytes _)). unfold li_bytes.
    rewrite Z.shiftr_div_pow2, Nat.div2_div, Nat2Z.inj_div by lia. f_equal. f_equal. lia. }
  destruct (fill_pass_spec full None X G [] Rr
    (mk_fill buf (h + Z.shiftr (test_num_li st * 3 + 1) 1) h 1 0 (c_pdu_remaining_size st) bo false)
    (test_num_li st) s rest p Hf Hs P) as (fs & E & B & Nf & Pf & Of & Lf); [|split_and!|..];
    cbn [f_buf f_data f_num_li f_pdu_remaining_size f_li_length f_e_li]; try done; [lia..|].
  exists full, s, rest, p, slack, fs, X, (drop (Z.to_nat (remaining full + p)) Rr).
  split_and!; try done.
  - by rewrite Q.
  - rewrite length_drop. lia.
  - by rewrite Nf, N.
Qed.

Lemma build_pdu_spec adjust h r size g :
  tx_inv r -> input_sdus r <> [] -> h = tx_header_min_length_in_bytes r ->
  1 <= size - h <= remaining (input_sdus r) + li_cost 1 (length (input_sdus r) - 1) ->
  let st := count_finish (count_pass adjust (input_sdus r) (count_init (size - h) size)) in
  exists full s rest p slack fs X trail,
    cut (input_sdus r) 1 (size - h) full s rest p slack /\
    build_pdu h st (fresh_buffer size g) r =
      Ok (queue_after s p rest, fs,
          framing_info (if input_sdus r is s0 :: _ then sdu_remaining_size s0 =? sdu_size s0 else false)
            (p =? sdu_remaining_size s)) /\
    f_buf fs = X ++ enc_lis None (sdu_remaining_size <$> full) ++ payload full s p ++ trail /\
    Z.of_nat (length X) = h /\ Z.of_nat (length trail) = slack /\
    f_num_li fs = Z.of_nat (length full) /\ f_pdu_remaining_size fs = 0 /\
    f_buffer_occupancy fs = buffer_occupancy r - (remaining full + p) /\
    c_data_pdu_size st = size - (if adjust then slack else 0) /\
    test_num_li st = Z.of_nat (length full) /\ c_pdu_remaining_size st = size - h - slack.
Proof.
  intros [Cf Sd Tl Bo Bm Vt] Hne Hh HP. cbv zeta.
  destruct (passes_spec adjust h (input_sdus r) (buffer_occupancy r) size g Sd Hne ltac:(lia) HP)
    as (full & s & rest & p & slack & fs & X & trail & C & E & B & HX & HT & Nf & Pf & Of & Lf & D & N & R). cbv zeta in *.
  exists full, s, rest, p, slack, fs, X, trail. split_and!; try done.
  unfold build_pdu. destruct (input_sdus r) as [|s0 q0]; [done|]. cbv zeta. rewrite E. cbn [mbind res_bind]. by rewrite Lf.
Qed.

(** ** The PDU *)

Definition hdr_bytes (sn_length fi : Z) (has_li : bool) (vt : Z) : list Z :=
  if sn_length =? 10 then
    [Z.lor (Z.lor (Z.shiftl fi 3) (if has_li then 0x04 else 0)) (Z.land (Z.shiftr vt 8) 0x03);
     Z.land vt 0xFF]
  else [Z.lor (Z.lor (Z.shiftl fi 6) (if has_li then 0x20 else 0)) (Z.land vt 0x1F)].

Definition is_first (q : list rlc_um_tx_sdu_t) : bool :=
  match q with [] => false | s :: _ => sdu_remaining_size s =? sdu_size s end.

(** The PDU for a cut of the queue: header, indicators, SDU bytes, then the
    [trail] of bytes nobody wrote. *)
Definition pdu_of (sn_length : Z) (q full : list rlc_um_tx_sdu_t) (s : rlc_um_tx_sdu_t) (p vt : Z)
    (trail : list Z) : list Z :=
  hdr_bytes sn_length (framing_info (is_first q) (p =? sdu_remaining_size s))
    (negb (length full =? 0)%nat) vt
  ++ enc_lis None (sdu_remaining_size <$> full) ++ payload full s p ++ trail.

(** The entity after the PDU was queued for MAC. *)
Definition after_segment (r : rlc_um_entity_t) (full : list rlc_um_tx_sdu_t) (s : rlc_um_tx_sdu_t)
    (rest : list rlc_um_tx_sdu_t) (p : Z) (pdu : list Z) : rlc_um_entity_t :=
  r <| input_sdus := queue_after s p rest |>
    <| buffer_occupancy := buffer_occupancy r - (remaining full + p) |>
    <| vt_us ::= fun v => u16 (v + 1) |>
    <| pdus_to_mac_layer ::= fun l => l ++ [mk_tb pdu (Z.of_nat (length pdu))] |>.

(** [rlc_um_get_pdus] dispatches on the configured length. *)
Definition segment (c : protocol_ctxt_t) (garbage : list Z) (r : rlc_um_entity_t) :
    res rlc_um_entity_t :=
  if tx_sn_length r =? 10 then rlc_um_segment_10 c garbage r else rlc_um_segment_5 c garbage r.

Lemma payload_length full s p : Forall sdu_ok full -> sdu_ok s -> 0 <= p <= sdu_remaining_size s ->
  Z.of_nat (length (payload full s p)) = remaining full + p.
Proof.
  intros Hf Hs Hp. unfold payload. rewrite length_app, length_take.
  pose proof (sdu_rest_length s Hs).
  assert (Z.of_nat (length (concat (sdu_rest <$> full))) = remaining full); [|lia].
  clear -Hf. induction Hf as [|a full Ha _ IH]; [done|]. csimpl. rewrite length_app, remaining_cons.
  pose proof (sdu_rest_length a Ha). lia.
Qed.

Lemma length_zero_eq (n : nat) : (0 <? Z.of_nat n) = negb (n =? 0)%nat.
Proof. destruct n; [done|]. simpl. apply Z.ltb_lt. lia. Qed.

(** The outcome of the counting pass for the next PDU. *)
Definition tx_count (r : rlc_um_entity_t) : count_state :=
  let size := choose_pdu_size r (nb_bytes_requested_by_mac r) in
  if tx_sn_length r =? 10 then count_10 (input_sdus r) (size - 2) size
  else count_5 (input_sdus r) (size - 1) size.

Lemma segment_spec c g r :
  tx_inv r -> input_sdus r <> [] -> mem_block_ok c = true ->
  tx_header_min_length_in_bytes r < nb_bytes_requested_by_mac r < 2 ^ 31 ->
  exists full s rest p slack trail,
    let size := choose_pdu_size r (nb_bytes_requested_by_mac r) in
    let pdu := pdu_of (tx_sn_length r) (input_sdus r) full s p (vt_us r) trail in
    cut (input_sdus r) 1 (size - tx_header_min_length_in_bytes r) full s rest p slack /\
    Z.of_nat (length trail) = (if tx_sn_length r =? 10 then slack else 0) /\
    Z.of_nat (length pdu) = size - (if tx_sn_length r =? 10 then 0 else slack) /\
    1 <= Z.of_nat (length pdu) <= nb_bytes_requested_by_mac r /\
    test_num_li (tx_count r) = Z.of_nat (length full) /\
    c_pdu_remaining_size (tx_count r) = size - tx_header_min_length_in_bytes r - slack /\
    c_data_pdu_size (tx_count r) = Z.of_nat (length pdu) /\
    segment c g r = Ok (after_segment r full s rest p pdu).
Proof.
  intros T Hne Hm Hnb. pose proof (choose_pdu_size_spec r _ T Hne Hnb) as [Hs1 Hs2]. cbv zeta in *.
  set (h := tx_header_min_length_in_bytes r) in *. set (size := choose_pdu_size r _) in *.
  assert (Hh : 0 < h) by (unfold h; destruct (tx_cfg _ T) as [[_ ->]|[_ ->]]; lia).
  set (adjust := negb (tx_sn_length r =? 10)).
  destruct (build_pdu_spec adjust h r size g T Hne eq_refl ltac:(lia))
    as (full & s & rest & p & slack & fs & X & trail & C & E & B & HX & HT & Nf & Pf & Of & D & N1 & N2).
  pose proof C as [Q P K KL Sz]. pose proof (tx_sdus _ T) as Sd.
  assert (Hf : Forall sdu_ok full /\ sdu_ok s).
  { rewrite Q in Sd. apply Forall_app in Sd as [? [? ?]%Forall_cons]. done. }
  destruct Hf as [Hf Hso]. pose proof (payload_length full s p Hf Hso ltac:(lia)) as Hpl.
  pose proof (proj1 (enc_lis_length (sdu_remaining_size <$> full))) as Hel. rewrite length_fmap in Hel.
  assert (Hbo : 0 <= buffer_occupancy r - (remaining full + p) <= 2 ^ 29).
  { pose proof (tx_bo_max _ T). pose proof (tx_bo _ T) as Bo. pose proof Sd as Sd'.
    rewrite Q in Bo, Sd'. rewrite remaining_app, remaining_cons in Bo.
    apply Forall_app in Sd' as [S1 [S2 S3]%Forall_cons].
    pose proof (remaining_ge _ S1). pose proof (remaining_ge _ S3). lia. }
  pose proof (remaining_ge full Hf) as Hrg.
  pose proof (li_cost_ge 1 (length full) (or_introl eq_refl)) as Hlg.
  set (trail' := if tx_sn_length r =? 10 then trail else []).
  exists full, s, rest, p, slack, trail'.
  set (pdu := pdu_of _ _ _ _ _ _ trail').
  assert (Hhdr : forall fi b v, Z.of_nat (length (hdr_bytes (tx_sn_length r) fi b v)) = h).
  { intros. unfold hdr_bytes, h. destruct (tx_cfg _ T) as [[-> ->]|[-> ->]]; done. }
  assert (Htr : Z.of_nat (length trail') = if tx_sn_length r =? 10 then slack else 0).
  { unfold trail'. by destruct (tx_sn_length r =? 10). }
  assert (Hpdu : Z.of_nat (length pdu) = size - (if adjust then slack else 0)).
  { unfold pdu, pdu_of. rewrite !length_app, !Nat2Z.inj_add, Hhdr, Hel, Hpl, Htr. unfold adjust.
    destruct (tx_sn_length r =? 10); simpl; lia. }
  assert (Hpos : 0 < Z.of_nat (length pdu) <= nb_bytes_requested_by_mac r)
    by (rewrite Hpdu; destruct adjust; lia).
  destruct Hpos as [Hpos Hmax].
  assert (Hcount : tx_count r = count_finish (count_pass adjust (input_sdus r) (count_init (size - h) size))).
  { unfold tx_count, count_10, count_5, adjust. fold size. unfold h.
    destruct (tx_cfg _ T) as [[-> ->]|[-> ->]]; done. }
  split_and!; [done|done|rewrite Hpdu; unfold adjust; by destruct (tx_sn_length r =? 10)|lia|done|by rewrite Hcount|by rewrite Hcount|by rewrite Hcount, Hpdu|]. clear Hcount N1 N2.
  unfold segment, rlc_um_segment_10, rlc_um_segment_5.
  rewrite (s32_small (nb_bytes_requested_by_mac r)) by lia. rewrite Hm. cbn [negb]. fold size.
  assert (Emit : forall buf', take (length pdu) buf' = pdu ->
    emit_pdu r (queue_after s p rest) fs buf' (size - (if adjust then slack else 0)) =
    Ok (after_segment r full s rest p pdu)).
  { intros buf' Hb. unfold emit_pdu. rewrite Pf, Z.sub_0_r, Of, <- Hpdu. rewrite s32_small by lia.
    rewrite (proj2 (Z.ltb_lt _ _) Hpos).
    cbn [assert_fatal mbind res_bind]. rewrite s32_small by lia. rewrite Nat2Z.id, Hb. done. }
  unfold adjust in *. clear adjust.
  destruct (tx_cfg _ T) as [[E10 Eh]|[E5 Eh]].
  - rewrite E10 in *. change (10 =? 10) with true in *. fold h in Eh. rewrite Eh in *.
    rewrite (proj2 (Z.ltb_ge _ _)) by lia. cbn [negb] in *.
    unfold count_10. rewrite E.
    destruct (input_sdus r) as [|s0 q0] eqn:Ei; [done|]. cbn [mbind res_bind].
    rewrite B, Nf, length_zero_eq.
    destruct X as [|x0 [|x1 [|? X]]]; simpl in HX; try lia.
    cbn [app]. rewrite wr_0. cbn [mbind res_bind].
    rewrite wr_1. cbn [mbind res_bind].
    rewrite D. apply Emit. unfold pdu, pdu_of, hdr_bytes, is_first, trail'.
    rewrite E10. change (10 =? 10) with true. simpl.
    rewrite take_ge; [done|]. simpl. lia.
  - rewrite E5 in *. change (5 =? 10) with false in *. cbv iota. fold h in Eh. rewrite Eh in *.
    rewrite (proj2 (Z.ltb_ge _ _)) by lia. cbn [negb] in *.
    unfold count_5. rewrite E.
    destruct (input_sdus r) as [|s0 q0] eqn:Ei; [done|]. cbn [mbind res_bind].
    rewrite B, Nf, length_zero_eq.
    destruct X as [|x0 [|? X]]; simpl in HX; try lia.
    cbn [app]. rewrite wr_0. cbn [mbind res_bind].
    rewrite D. apply Emit. unfold pdu, pdu_of, hdr_bytes, is_first, trail'.
    rewrite E5. change (5 =? 10) with false. simpl.
    f_equal. rewrite app_nil_r, app_assoc. by rewrite take_app_length.
Qed.

(** Sending a PDU preserves the transmitter's invariant: in particular the
    buffer occupancy stays the number of bytes still queued. *)
Lemma after_segment_inv r full s rest p pdu l t slack :
  tx_inv r -> cut (input_sdus r) l t full s rest p slack ->
  tx_inv (after_segment r full s rest p pdu).
Proof.
  intros [Cf Sd Tl Bo Bm Vt] [Q P K KL Sz]. rewrite Q in Sd, Bo, Tl.
  apply Forall_app in Sd as [Sf [Ss Sr]%Forall_cons].
  rewrite remaining_app, remaining_cons in Bo.
  pose proof (remaining_ge _ Sf). pose proof (remaining_ge _ Sr).
  assert (Tr : Forall (fun s => sdu_segmented_size s = 0) rest).
  { destruct full as [|a full]; simpl in Tl; [done|].
    apply Forall_app in Tl as [_ Tl]. by apply Forall_cons in Tl as [_ Tl]. }
  unfold after_segment, queue_after.
  split; rsimpl; try done; destruct (Z.eqb_spec p (sdu_remaining_size s)); try done.
  - apply Forall_cons. split; [|done]. apply advance_sdu_ok; [done|lia].
  - destruct rest as [|b rest]; [done|]. by apply Forall_cons in Tr as [_ Tr].
  - lia.
  - rewrite remaining_cons. change (sdu_remaining_size (advance_sdu s p)) with (sdu_remaining_size s - p). lia.
  - lia.
  - lia.
  - pose proof (u16_range (vt_us r + 1)). lia.
  - pose proof (u16_range (vt_us r + 1)). lia.
Qed.

End RlcUmTx.
