(* ===== verification/RlcUmTop.v ===== *)
(** * RLC UM: the interface to MAC and PDCP

    openair2/LAYER2/RLC/UM_v9.3.0/rlc_um.c. The parts of the handlers that
    only format traces (compiled in under TRACE_RLC_UM_PDU or
    MESSAGE_CHART_GENERATOR) are left out. *)

From S2P Require Import Prelude RlcUmEntity RlcUmDar RlcUmWindow RlcUmReasm RlcUmRxInv.
From S2P Require Import RlcUmSegment RlcUmTx.

Module RlcUmTop.
Import RlcUm RlcUmDar RlcUmWindow RlcUmReasm RlcUmRxInv RlcUmSegment RlcUmTx.

Definition rlc_um_stat_req (r : rlc_um_entity_t) : list Z :=
  [stat_tx_pdcp_sdu r; stat_tx_pdcp_bytes r; stat_tx_pdcp_sdu_discarded r;
   stat_tx_pdcp_bytes_discarded r; stat_tx_data_pdu r; stat_tx_data_bytes r;
   stat_rx_pdcp_sdu r; stat_rx_pdcp_bytes r; stat_rx_data_pdus_duplicate r;
   stat_rx_data_bytes_duplicate r; stat_rx_data_pdu r; stat_rx_data_bytes r;
   stat_rx_data_pdu_dropped r; stat_rx_data_bytes_dropped r;
   stat_rx_data_pdu_out_of_window r; stat_rx_data_bytes_out_of_window r;
   stat_timer_reordering_timed_out r].

Definition rlc_um_get_buffer_occupancy (r : rlc_um_entity_t) : Z :=
  if 0 <? buffer_occupancy r then buffer_occupancy r else 0.

(** Only the READY state produces PDUs. The two tests on the length are
    independent [if]s in the source; the first call does not change it. *)
Definition rlc_um_get_pdus (ctxt_pP : protocol_ctxt_t) (garbage : list Z) (r : rlc_um_entity_t) :
    res rlc_um_entity_t :=
  if protocol_state r =? RLC_DATA_TRANSFER_READY_STATE then
    r1 ← (if tx_sn_length r =? 10 then rlc_um_segment_10 ctxt_pP garbage r else Ok r);
    if tx_sn_length r1 =? 5 then rlc_um_segment_5 ctxt_pP garbage r1 else Ok r1
  else Ok r.

(** In the other states the transport blocks are released unread. *)
Definition rlc_um_rx (ctxt_pP : protocol_ctxt_t) (r : rlc_um_entity_t) (data_indP : list mac_tb) :
    res rlc_um_entity_t :=
  if protocol_state r =? RLC_DATA_TRANSFER_READY_STATE then rlc_um_receive ctxt_pP r data_indP
  else Ok r.

Record mac_status_resp : Type := mk_status_resp {
  buffer_occupancy_in_bytes : Z;
  buffer_occupancy_in_pdus : Z;
  head_sdu_creation_time : Z;
  head_sdu_remaining_size_to_send : Z;
  head_sdu_is_segmented : bool;
  rlc_protocol_state : Z
}.

(** [None]: a NULL entity; the protocol state of the answer is then
    whatever the stack held, here 0. *)
Definition rlc_um_mac_status_indication (ctxt_pP : protocol_ctxt_t)
    (rlc_pP : option rlc_um_entity_t) (tbs_sizeP : Z) :
    res (mac_status_resp * option rlc_um_entity_t) :=
  match rlc_pP with
  | None => Ok (mk_status_resp 0 0 0 0 false 0, None)
  | Some r0 =>
      r1 ← rlc_um_check_timer_dar_time_out ctxt_pP r0;
      let r2 := r1 <| nb_bytes_requested_by_mac := u16 tbs_sizeP |> in
      let bo := rlc_um_get_buffer_occupancy r2 in
      let resp :=
        match input_sdus r2 with
        | sdu :: _ =>
            if 0 <? bo then
              let diff_time := s32 (frame ctxt_pP - sdu_creation_time sdu) in
              mk_status_resp (u32 (bo + tx_header_min_length_in_bytes r2))
                (u16 (Z.of_nat (length (input_sdus r2))))
                (if 0 <? diff_time then u32 diff_time
                 else u32 (0xffffffff - diff_time + frame ctxt_pP))
                (sdu_remaining_size sdu)
                (negb (sdu_size sdu =? sdu_remaining_size sdu))
                (protocol_state r2)
            else mk_status_resp bo 0 0 0 false (protocol_state r2)
        | [] => mk_status_resp bo 0 0 0 false (protocol_state r2)
        end in
      Ok (resp, Some r2)
  end.

Record mac_data_req : Type := mk_data_req {
  dr_data : list mac_tb;
  dr_buffer_occupancy_in_bytes : Z;
  dr_rlc_protocol_state : Z
}.

(** The statistics loop; [tb_size_in_bytes] is an [int16_t]. *)
Fixpoint count_tx_pdus (r : rlc_um_entity_t) (tbs : list mac_tb) : res rlc_um_entity_t :=
  match tbs with
  | [] => Ok r
  | tb :: tbs =>
      let size := s16 (tb_size tb) in
      let r1 := r <| stat_tx_data_pdu ::= fun n => u32 (n + 1) |>
                  <| stat_tx_data_bytes ::= fun n => u32 (n + size) |> in
      _ ← assert_fatal (0 <? size);
      count_tx_pdus r1 tbs
  end.

Definition rlc_um_mac_data_request (ctxt_pP : protocol_ctxt_t) (garbage : list Z)
    (rlc_pP : rlc_um_entity_t) : res (mac_data_req * rlc_um_entity_t) :=
  r1 ← rlc_um_get_pdus ctxt_pP garbage rlc_pP;
  let tbs := pdus_to_mac_layer r1 in
  let r2 := r1 <| pdus_to_mac_layer := [] |> in
  let bo := rlc_um_get_buffer_occupancy r2 in
  let bo' := if 0 <? bo then u32 (bo + tx_header_min_length_in_bytes r2) else bo in
  r3 ← count_tx_pdus r2 tbs;
  Ok (mk_data_req tbs bo' (protocol_state r2), r3).

Definition rlc_um_mac_data_indication (ctxt_pP : protocol_ctxt_t) (rlc_pP : rlc_um_entity_t)
    (data_indP : list mac_tb) : res rlc_um_entity_t :=
  r1 ← rlc_um_rx ctxt_pP rlc_pP data_indP;
  rlc_um_check_timer_dar_time_out ctxt_pP r1.

(** [sdu]: the payload; [data_size] is its length, a [uint16_t]. *)
Definition rlc_um_data_req (ctxt_pP : protocol_ctxt_t) (rlc_pP : rlc_um_entity_t) (sdu : list Z) :
    rlc_um_entity_t :=
  let size := u16 (Z.of_nat (length sdu)) in
  rlc_pP <| stat_tx_pdcp_sdu ::= fun n => u32 (n + 1) |>
         <| stat_tx_pdcp_bytes ::= fun n => u32 (n + size) |>
         <| buffer_occupancy ::= fun b => s32 (b + size) |>
         <| input_sdus ::= fun q => q ++ [mk_tx_sdu sdu (frame ctxt_pP) size 0 size] |>.

(** ** Receiver side *)

Lemma rx_inv_stats r r' : frame_eq r r' -> sdu_inv r' -> rx_inv r -> rx_inv r'.
Proof.
  intros F I [K T]. split; [by apply (core_frame r)|].
  destruct F as [F _]. unfold ctl in F. unfold back in *. intros Hr.
  assert (vr_uh r' = vr_uh r) as -> by congruence. assert (vr_ux r' = vr_ux r) as -> by congruence.
  assert (vr_ur r' = vr_ur r) as -> by congruence. assert (rx_sn_modulo r' = rx_sn_modulo r) as -> by congruence.
  apply T. congruence.
Qed.

Lemma receive_ok c tbs r :
  rx_inv r -> Forall (fun tb => pdu_ok (rx_sn_length r) tb = true) tbs ->
  exists r', rlc_um_receive c r tbs = Ok r' /\ rx_inv r' /\ side r' = side r.
Proof.
  revert r. induction tbs as [|tb tbs IH]; intros r I HF; [by exists r|].
  apply Forall_cons in HF as [P HF]. cbn [rlc_um_receive]. cbv zeta.
  set (r1 := r <| stat_rx_data_bytes ::= _ |> <| stat_rx_data_pdu ::= _ |>).
  assert (I1 : rx_inv r1) by (apply (rx_inv_stats r); [done|apply I|done]).
  assert (exists r2, (if 0 <? u16 (tb_size tb)
      then rlc_um_receive_process_dar c r1 tb (u16 (tb_size tb)) else Ok r1) = Ok r2 /\
      rx_inv r2 /\ side r2 = side r) as (r2 & -> & I2 & S2).
  { destruct (0 <? _); [|by exists r1]. apply (process_dar_ok c r1 tb _ I1 P). }
  cbn [mbind res_bind]. destruct (IH r2 I2) as (r' & -> & I' & S').
  { unfold side in S2. assert (rx_sn_length r2 = rx_sn_length r) as -> by congruence. done. }
  exists r'. split; [done|]. split; [done|congruence].
Qed.

Lemma mac_data_indication_ok c r tbs :
  rx_inv r -> Forall (fun tb => pdu_ok (rx_sn_length r) tb = true) tbs ->
  exists r', rlc_um_mac_data_indication c r tbs = Ok r' /\ rx_inv r' /\ side r' = side r.
Proof.
  intros I HF. unfold rlc_um_mac_data_indication, rlc_um_rx.
  assert (exists r1, (if protocol_state r =? RLC_DATA_TRANSFER_READY_STATE
     then rlc_um_receive c r tbs else Ok r) = Ok r1 /\ rx_inv r1 /\ side r1 = side r)
    as (r1 & -> & I1 & S1).
  { case_match; [by apply receive_ok|by exists r]. }
  cbn [mbind res_bind]. destruct (check_timer_ok c r1 I1) as (r' & -> & I' & S').
  exists r'. split; [done|]. split; [done|congruence].
Qed.

(** ** Transmitter side *)

Lemma data_req_inv c r sdu :
  tx_inv r -> 1 <= Z.of_nat (length sdu) < 2 ^ 16 ->
  buffer_occupancy r + Z.of_nat (length sdu) <= 2 ^ 29 ->
  tx_inv (rlc_um_data_req c r sdu).
Proof.
  intros [Cf Sd Tl Bo Bm Vt] Hl Hb. pose proof (remaining_ge _ Sd).
  unfold rlc_um_data_req. rewrite u16_small by lia.
  split; rsimpl; try done.
  - apply Forall_app. split; [done|]. apply Forall_cons. split; [split; simpl; lia|constructor].
  - destruct (input_sdus r) as [|s q]; [simpl; constructor|]. simpl in *.
    apply Forall_app. split; [done|]. by repeat constructor.
  - rewrite s32_small, remaining_app, Bo by lia. unfold remaining. simpl. lia.
  - rewrite s32_small; lia.
Qed.

End RlcUmTop.
