(* ===== verification/RlcUmPdu.v ===== *)
(** * RLC UM: the PDU format, encode and decode

    The receiver's header and length-indicator decoding inverts what the
    transmitter's filling pass writes. *)

From S2P Require Import Prelude RlcUmEntity RlcUmDar RlcUmReasm RlcUmSegment RlcUmTx.

Module RlcUmPdu.
Import RlcUm RlcUmDar RlcUmReasm RlcUmSegment RlcUmTx.

(** ** Bytes of a pair of length indicators *)

Lemma enc_b1 (e : bool) a : 0 <= a <= 2047 ->
  u8 (Z.lor (if e then 0x80 else 0) (Z.shiftr a 4)) = (if e then 128 else 0) + a / 16.
Proof.
  intros Ha. rewrite Z.shiftr_div_pow2 by lia. change (2 ^ 4) with 16.
  rewrite (lor_disjoint _ _ 7); [|lia|div_lia|by destruct e].
  apply u8_small. destruct e; div_lia.
Qed.

Lemma enc_b2 a : u8 (Z.shiftl a 4) = (a mod 16) * 16.
Proof.
  unfold u8. rewrite Z.shiftl_mul_pow2 by lia. change (2 ^ 8) with (16 * 16).
  by rewrite Z.mul_mod_distr_r by lia.
Qed.

Lemma enc_b2' (e : bool) x b : 0 <= x < 16 -> 0 <= b <= 2047 ->
  u8 (Z.lor (if e then Z.lor (x * 16) 0x08 else x * 16) (Z.shiftr b 8)) =
  x * 16 + (if e then 8 else 0) + b / 256.
Proof.
  intros Hx Hb. rewrite Z.shiftr_div_pow2 by lia. change (2 ^ 8) with 256.
  assert (Hl : Z.lor (x * 16) 8 = x * 16 + 8).
  { apply (lor_disjoint _ _ 4); [lia..|]. div_lia. }
  destruct e; rewrite ?Hl;
    (rewrite (lor_disjoint _ _ 3); [|lia|div_lia..]);
    (rewrite u8_small; [lia|]); div_lia.
Qed.

Lemma enc_b3 b : Z.land b 0xFF = b mod 256.
Proof. apply (Z.land_ones b 8). lia. Qed.

Lemma e1_bit b : Z.shiftr (Z.land b 0x80) 7 = (b / 128) mod 2.
Proof. by bitf b 7 1. Qed.
Lemma e2_bit b : Z.shiftr (Z.land b 0x08) 3 = (b / 8) mod 2.
Proof. by bitf b 3 1. Qed.

(** ** Round trip of the length indicators *)

Lemma read_enc_lis n fuel lis d arr size :
  (length lis <= n)%nat -> lis <> [] -> Forall li_ok lis ->
  (length arr + length lis < 24)%nat -> (length lis < 2 * fuel)%nat ->
  Z.abs size < 2 ^ 20 + 3000 * Z.of_nat (length arr) ->
  read_lis fuel (enc_lis None lis ++ d) arr size =
  Ok (Some (arr ++ lis, size - sum_li lis - Z.of_nat (li_bytes (length lis)))).
Proof.
  revert fuel lis arr size. induction n as [|n IH]; intros fuel lis arr size Hn Hne HF H24 Hf Hs.
  { destruct lis; [done|simpl in Hn; lia]. }
  destruct fuel as [|fuel]; [lia|].
  destruct lis as [|a lis]; [done|]. apply Forall_cons in HF as [Ha HF]. unfold li_ok in Ha.
  cbn [read_lis]. unfold byte_at, RLC_UM_SEGMENT_NB_MAX_LI_PER_PDU.
  destruct lis as [|b lis].
  - cbn [enc_lis app]. cbn [lookup list_lookup of_option mbind res_bind]. cbv zeta.
    rewrite (enc_b1 false a Ha), enc_b2, e1_bit, li1_of_arith.
    replace ((0 + a / 16) / 128 mod 2 =? 0) with true
      by (symmetry; apply Z.eqb_eq; div_lia).
    cbn [mbind res_bind].
    replace ((0 + a / 16) mod 128 * 16 + (a mod 16 * 16 / 16) mod 16) with a
      by (div_lia).
    rewrite length_app. cbn [length] in *. destruct (Z.leb_spec 24 (Z.of_nat (length arr + 1))); [lia|].
    rewrite s32_small by lia. do 3 f_equal. change (Z.of_nat (li_bytes 1)) with 2. unfold sum_li. simpl. lia.
  - apply Forall_cons in HF as [Hb HF]. unfold li_ok in Hb.
    cbn [enc_lis app]. cbn [lookup list_lookup of_option mbind res_bind]. cbv zeta.
    rewrite (enc_b1 true a Ha), enc_b2, enc_b3.
    replace (if lis is [] then a mod 16 * 16 else Z.lor (a mod 16 * 16) 8) with
      (if (if lis is [] then false else true) then Z.lor (a mod 16 * 16) 8 else a mod 16 * 16) by by destruct lis.
    rewrite enc_b2' by (div_lia).
    set (e := if lis is [] then false else true).
    rewrite e1_bit, e2_bit, li1_of_arith, li2_of_arith.
    replace ((128 + a / 16) / 128 mod 2 =? 0) with false
      by (symmetry; apply Z.eqb_neq; div_lia).
    replace ((a mod 16 * 16 + (if e then 8 else 0) + b / 256) / 8 mod 2 =? 0) with (negb e)
      by (destruct e; symmetry; [apply Z.eqb_neq|apply Z.eqb_eq]; div_lia).
    replace ((128 + a / 16) mod 128 * 16 + ((a mod 16 * 16 + (if e then 8 else 0) + b / 256) / 16) mod 16) with a
      by (destruct e; div_lia).
    replace ((a mod 16 * 16 + (if e then 8 else 0) + b / 256) mod 8 * 256 + b mod 256 mod 256) with b
      by (destruct e; div_lia).
    rewrite (s32_small (size - a - 2)), (s32_small (size - a - 2 - b - 1)) by lia.
    cbn [length] in *. destruct lis as [|x lis]; subst e; cbn [negb mbind res_bind].
    + rewrite !length_app. cbn [length]. destruct (Z.leb_spec 24 (Z.of_nat (length arr + 1 + 1))); [lia|].
      rewrite <- app_assoc. do 3 f_equal. change (Z.of_nat (li_bytes 2)) with 3. unfold sum_li. simpl. lia.
    + rewrite !length_app. cbn [length] in *. destruct (Z.leb_spec 24 (Z.of_nat (length arr + 1 + 1))); [lia|].
      match goal with |- context [drop 3 (_ :: _ :: _ :: ?l)] => change (drop 3 (_ :: _ :: _ :: l)) with l end. rewrite IH; [|cbn [length] in *; rewrite ?length_app; cbn [length]; first [done|lia]..].
      rewrite <- !app_assoc. do 3 f_equal. rewrite li_bytes_SS. unfold sum_li. cbn [foldr length]. lia.
Qed.

Lemma read_length_indicators_enc lis d size :
  lis <> [] -> Forall li_ok lis -> (length lis < 24)%nat -> Z.abs size < 2 ^ 20 ->
  rlc_um_read_length_indicators (enc_lis None lis ++ d) size =
  Ok (Some (d, lis, size - sum_li lis - Z.of_nat (li_bytes (length lis)))).
Proof.
  intros Hne HF Hl Hs. unfold rlc_um_read_length_indicators.
  rewrite (read_enc_lis (length lis)) by (done || simpl; lia). cbn [mbind res_bind app].
  do 4 f_equal. fold (li_bytes (length lis)).
  replace (li_bytes (length lis)) with (length (enc_lis None lis)); [by rewrite drop_app_length|].
  pose proof (proj1 (enc_lis_length lis)). pose proof (proj1 (li_cost_bytes (length lis))). lia.
Qed.

(** ** Round trip of the fixed header *)

Lemma hdr_b1_10 fi (e : bool) vt : 0 <= fi <= 3 ->
  Z.lor (Z.lor (Z.shiftl fi 3) (if e then 0x04 else 0)) (Z.land (Z.shiftr vt 8) 0x03) =
  fi * 8 + (if e then 4 else 0) + (vt / 256) mod 4.
Proof.
  intros Hfi. rewrite (Z.land_ones _ 2 ltac:(lia) : Z.land _ 3 = _), Z.shiftr_div_pow2, Z.shiftl_mul_pow2 by lia.
  norm_pow.
  rewrite (lor_disjoint (fi * 8) _ 3); [|lia|destruct e; lia|div_lia].
  apply (lor_disjoint _ _ 2); [lia|div_lia|].
  destruct e; div_lia.
Qed.

Lemma hdr_b1_5 fi (e : bool) vt : 0 <= fi <= 3 ->
  Z.lor (Z.lor (Z.shiftl fi 6) (if e then 0x20 else 0)) (Z.land vt 0x1F) =
  fi * 64 + (if e then 32 else 0) + vt mod 32.
Proof.
  intros Hfi. rewrite (Z.land_ones _ 5 ltac:(lia) : Z.land _ 31 = _), Z.shiftl_mul_pow2 by lia.
  norm_pow.
  rewrite (lor_disjoint (fi * 64) _ 6); [|lia|destruct e; lia|div_lia].
  apply (lor_disjoint _ _ 5); [lia|div_lia|].
  destruct e; div_lia.
Qed.

(** What the receiver reads in a header the transmitter wrote. *)
Lemma hdr_decode L fi (e : bool) vt rest :
  L = 10 \/ L = 5 -> 0 <= fi <= 3 ->
  exists b1 tl, hdr_bytes L fi e vt ++ rest = b1 :: tl /\
    hdr_e L b1 = (if e then 1 else 0) /\ hdr_fi L b1 = fi /\
    drop (hdr_len L) (hdr_bytes L fi e vt ++ rest) = rest /\
    forall r, rx_sn_length r = L ->
      pdu_sn r (hdr_bytes L fi e vt ++ rest) = Ok (Some (vt mod (if L =? 10 then 1024 else 32))).
Proof.
  intros [-> | ->] Hfi; unfold hdr_bytes, hdr_e, hdr_fi, hdr_len, pdu_sn, byte_at;
    cbn [Z.eqb Pos.eqb app].
  - rewrite (hdr_b1_10 fi e vt Hfi), enc_b3. do 2 eexists. split; [reflexivity|].
    match goal with |- context [Z.land ?b 4] => set (b1 := b) end.
    bitf b1 2 1. bitf b1 3 2. split_and!; try done.
    + unfold b1. destruct e; div_lia.
    + unfold b1. destruct e; div_lia.
    + intros r ->. cbn [Z.eqb Pos.eqb lookup list_lookup of_option mbind res_bind]. do 2 f_equal.
      rewrite (Z.land_ones _ 2 ltac:(lia) : Z.land _ 3 = _), Z.shiftl_mul_pow2 by lia. unfold b1.
      destruct e; div_lia.
  - rewrite (hdr_b1_5 fi e vt Hfi). do 2 eexists. split; [reflexivity|].
    match goal with |- context [Z.land ?b 32] => set (b1 := b) end.
    bitf b1 5 1. bitf b1 6 2. split_and!; try done.
    + unfold b1. destruct e; div_lia.
    + unfold b1. destruct e; div_lia.
    + intros r ->. cbn [Z.eqb Pos.eqb lookup list_lookup of_option mbind res_bind]. do 2 f_equal.
      rewrite (Z.land_ones _ 5 ltac:(lia) : Z.land _ 31 = _). unfold b1.
      destruct e; div_lia.
Qed.

End RlcUmPdu.
