(* ===== verification/RlcUmWellFormed.v ===== *)
(** * RLC UM receiver: well-formed and malformed PDUs

    What TS 36.322 says of a UM data PDU, without reference to the code: the
    fixed header, the list of 12-bit extension and length-indicator fields,
    the segments they delimit. The code does not check any of it; the lemmas
    show that well-formed PDUs satisfy [pdu_ok], and what the reassembly does
    with the others. *)

From S2P Require Import Prelude RlcUmEntity RlcUmDar RlcUmReasm RlcUmPdu.

Module RlcUmWellFormed.
Import RlcUm RlcUmDar RlcUmReasm RlcUmPdu.

(** ** The format *)

Definition byte_val (b : Z) : Prop := 0 <= b < 256.

(** The half bytes of a field, most significant first. *)
Fixpoint nibbles (bytes : list Z) : list Z :=
  match bytes with
  | [] => []
  | b :: bytes => b / 16 :: b mod 16 :: nibbles bytes
  end.

(** A list of indicators: 12-bit fields of an extension bit (set in all but
    the last one) and an 11-bit length. *)
Inductive li_list : list Z -> list Z -> Prop :=
| li_last n1 n2 n3 ns : n1 < 8 ->
    li_list (n1 :: n2 :: n3 :: ns) [n1 * 256 + n2 * 16 + n3]
| li_more n1 n2 n3 ns lis : 8 <= n1 -> li_list ns lis ->
    li_list (n1 :: n2 :: n3 :: ns) ((n1 - 8) * 256 + n2 * 16 + n3 :: lis).

(** The fields end before an extension bit says so, within the next [n]. *)
Inductive li_truncated : nat -> list Z -> Prop :=
| lt_now n ns : (length ns < 3)%nat -> li_truncated (S n) ns
| lt_later n n1 n2 n3 ns : 8 <= n1 -> li_truncated n ns ->
    li_truncated (S n) (n1 :: n2 :: n3 :: ns).

(** The extension bit and the framing information of the first byte. *)
Definition ext_bit (sn_length b1 : Z) : Z :=
  (if sn_length =? 10 then b1 / 4 else b1 / 32) mod 2.
Definition framing (sn_length b1 : Z) : Z :=
  (if sn_length =? 10 then b1 / 8 else b1 / 64) mod 4.

(** A block of bytes of the announced size, with its fixed header [b1 ...]
    and the payload [d] behind it. *)
Record pdu_block (sn_length : Z) (tb : mac_tb) (b1 : Z) (d : list Z) : Prop := {
  block_size : tb_size tb = Z.of_nat (length (data_ptr tb)) /\ tb_size tb < 2 ^ 16;
  block_bytes : Forall byte_val (data_ptr tb);
  block_head : data_ptr tb !! 0%nat = Some b1;
  block_fixed : (hdr_len sn_length <= length (data_ptr tb))%nat;
  block_payload : d = drop (hdr_len sn_length) (data_ptr tb)
}.

(** Bytes of SDU data left behind [lis] indicators and their segments. *)
Definition left_over (d lis : list Z) : Z :=
  Z.of_nat (length d) - Z.of_nat (li_bytes (length lis)) - sum_li lis.

(** Well-formed: no indicators, or a list of them with, when there are fewer
    than 24 (the receiver ignores the PDU otherwise), the segments inside the
    PDU, and a last segment when the framing says that an SDU continues at
    both ends. *)
Definition well_formed (sn_length : Z) (tb : mac_tb) : Prop :=
  exists b1 d, pdu_block sn_length tb b1 d /\
    (ext_bit sn_length b1 = 0 \/
     exists lis, li_list (nibbles d) lis /\
       ((length lis < 24)%nat -> 0 <= left_over d lis /\
          (framing sn_length b1 = 3 -> 0 < left_over d lis))).

(** Malformed: the indicators run past the end of the block. *)
Definition truncated_lis (sn_length : Z) (tb : mac_tb) : Prop :=
  exists b1 d, pdu_block sn_length tb b1 d /\ ext_bit sn_length b1 = 1 /\
    li_truncated 24 (nibbles d).

(** Malformed: the PDU starts an SDU and its segments do not fit. *)
Definition truncated_segments (sn_length : Z) (tb : mac_tb) : Prop :=
  exists b1 d lis, pdu_block sn_length tb b1 d /\ ext_bit sn_length b1 = 1 /\
    (framing sn_length b1 = 0 \/ framing sn_length b1 = 1) /\
    li_list (nibbles d) lis /\ (length lis < 24)%nat /\
    Z.of_nat (length d) < Z.of_nat (li_bytes (length lis)) + sum_li lis.

(** Malformed: the framing announces the middle of an SDU at the end, and the
    indicators leave no byte for it. *)
Definition missing_tail (sn_length : Z) (tb : mac_tb) : Prop :=
  exists b1 d lis, pdu_block sn_length tb b1 d /\ ext_bit sn_length b1 = 1 /\
    framing sn_length b1 = 3 /\ li_list (nibbles d) lis /\ (length lis < 24)%nat /\
    left_over d lis = 0.

(** ** What the reader makes of it *)

Lemma hdr_e_spec L b1 : hdr_e L b1 = ext_bit L b1.
Proof. unfold hdr_e, ext_bit. case_match; [by bitf b1 2 1|by bitf b1 5 1]. Qed.

Lemma hdr_fi_spec L b1 : hdr_fi L b1 = framing L b1.
Proof. unfold hdr_fi, framing. case_match; [by bitf b1 3 2|by bitf b1 6 2]. Qed.

Lemma li1_nibbles b1 b2 : byte_val b1 -> byte_val b2 ->
  li1_of b1 b2 = (b1 / 16 - (if b1 <? 128 then 0 else 8)) * 256 + (b1 mod 16) * 16 + b2 / 16.
Proof.
  unfold byte_val. intros. rewrite li1_of_arith. destruct (Z.ltb_spec b1 128); div_lia.
Qed.

Lemma li2_nibbles b2 b3 : byte_val b2 -> byte_val b3 ->
  li2_of b2 b3 = (b2 mod 16 - (if b2 mod 16 <? 8 then 0 else 8)) * 256 + (b3 / 16) * 16 + b3 mod 16.
Proof.
  unfold byte_val. intros. rewrite li2_of_arith. destruct (Z.ltb_spec (b2 mod 16) 8); div_lia.
Qed.

Lemma e1_nibble b : byte_val b -> (Z.shiftr (Z.land b 0x80) 7 =? 0) = (b / 16 <? 8).
Proof.
  unfold byte_val. intros. rewrite e1_bit.
  destruct (Z.eqb_spec ((b / 128) mod 2) 0), (Z.ltb_spec (b / 16) 8); try done; div_lia.
Qed.

Lemma e2_nibble b : byte_val b -> (Z.shiftr (Z.land b 0x08) 3 =? 0) = (b mod 16 <? 8).
Proof.
  unfold byte_val. intros. rewrite e2_bit.
  destruct (Z.eqb_spec ((b / 8) mod 2) 0), (Z.ltb_spec (b mod 16) 8); try done; div_lia.
Qed.

(** The state of the reader after [k] turns of its loop. *)
Definition reading (fuel : nat) (arr : list Z) : Prop :=
  exists k, length arr = (2 * k)%nat /\ (k + fuel = 13)%nat /\ (k <= 11)%nat.

Lemma read_li_list fuel e arr size lis :
  Forall byte_val e -> reading fuel arr -> li_list (nibbles e) lis ->
  exists size', read_lis fuel e arr size =
    Ok (if (24 <=? length (arr ++ lis))%nat then None else Some (arr ++ lis, size')).
Proof.
  revert e arr size lis.
  induction fuel as [|fuel IH]; intros e arr size lis B (k & Hk & Hf & Hk11) L; [lia|].
  destruct e as [|b1 [|b2 e]]; [by inversion L|by inversion L|].
  apply Forall_cons in B as [B1 B]. apply Forall_cons in B as [B2 B].
  cbn [read_lis]. unfold byte_at, RLC_UM_SEGMENT_NB_MAX_LI_PER_PDU.
  cbn [lookup list_lookup of_option mbind res_bind]. cbv zeta.
  rewrite e1_nibble, li1_nibbles by done. cbn [nibbles] in L.
  inversion L as [n1 n2 n3 ns H8|n1 n2 n3 ns l H8 L2]; subst.
  - rewrite (proj2 (Z.ltb_lt _ _) H8), (proj2 (Z.ltb_lt b1 128)) by div_lia. cbn [mbind res_bind].
    rewrite Z.sub_0_r, length_app. cbn [length].
    rewrite (proj2 (Z.leb_gt 24 _)), (proj2 (Nat.leb_gt 24 _)) by lia. eauto.
  - rewrite (proj2 (Z.ltb_ge _ _) H8), (proj2 (Z.ltb_ge b1 128)) by div_lia.
    destruct e as [|b3 e]; [by inversion L2|]. apply Forall_cons in B as [B3 B].
    cbn [lookup list_lookup of_option mbind res_bind nibbles] in *.
    rewrite e2_nibble, li2_nibbles by done.
    inversion L2 as [n1 n2 n3 ns H8'|n1 n2 n3 ns l' H8' L3]; subst.
    + rewrite (proj2 (Z.ltb_lt _ _) H8'). cbn [mbind res_bind].
      rewrite Z.sub_0_r, !length_app. cbn [length].
      destruct (Z.leb_spec 24 (Z.of_nat (length arr + 1 + 1))), (Nat.leb_spec 24 (length arr + 2));
        try lia; rewrite <- ?app_assoc; eauto.
    + rewrite (proj2 (Z.ltb_ge _ _) H8'). cbn [mbind res_bind].
      rewrite !length_app. cbn [length].
      destruct (Z.leb_spec 24 (Z.of_nat (length arr + 1 + 1))).
      { rewrite (proj2 (Nat.leb_le 24 _)) by lia. eauto. }
      change (drop 3 (b1 :: b2 :: b3 :: e)) with e.
      match goal with |- context [read_lis fuel e ?a ?s] =>
        destruct (IH e a s l' B) as [size' ->] end; [|done|].
      * exists (S k). rewrite !length_app. cbn [length]. lia.
      * rewrite !length_app. cbn [length]. rewrite <- !app_assoc. cbn [app]. exists size'.
        replace (length arr + 1 + 1 + length l')%nat with (length arr + S (S (length l')))%nat by lia.
        done.
Qed.

Lemma read_li_truncated fuel e arr size n :
  Forall byte_val e -> reading fuel arr -> li_truncated n (nibbles e) ->
  (length arr + n = 24)%nat -> read_lis fuel e arr size = Fault OutOfBounds.
Proof.
  revert e arr size n.
  induction fuel as [|fuel IH]; intros e arr size n B (k & Hk & Hf & Hk11) L Hn; [lia|].
  destruct e as [|b1 [|b2 e]]; [done|done|].
  apply Forall_cons in B as [B1 B]. apply Forall_cons in B as [B2 B].
  cbn [read_lis]. unfold byte_at, RLC_UM_SEGMENT_NB_MAX_LI_PER_PDU.
  cbn [lookup list_lookup of_option mbind res_bind]. cbv zeta.
  rewrite e1_nibble by done. cbn [nibbles] in L.
  inversion L as [m ns Hs|m n1 n2 n3 ns H8 L2]; subst; [cbn [length] in Hs; lia|].
  rewrite (proj2 (Z.ltb_ge _ _) H8).
  destruct e as [|b3 e]; [done|]. apply Forall_cons in B as [B3 B].
  cbn [lookup list_lookup of_option mbind res_bind nibbles] in *.
  rewrite e2_nibble by done.
  inversion L2 as [m' ns Hs|m' n1 n2 n3 ns H8' L3]; subst; [cbn [length] in Hs; lia|].
  rewrite (proj2 (Z.ltb_ge _ _) H8'). cbn [mbind res_bind].
  rewrite !length_app. cbn [length].
  assert (0 < m')%nat by (inversion L3; lia).
  rewrite (proj2 (Z.leb_gt 24 _)) by lia. change (drop 3 (b1 :: b2 :: b3 :: e)) with e. apply (IH _ _ _ m'); [done| |done|].
  - exists (S k). rewrite !length_app. cbn [length]. lia.
  - rewrite !length_app. cbn [length]. lia.
Qed.

(** ** Well-formed PDUs are harmless *)

Lemma forallb_is_byte bytes : Forall byte_val bytes -> forallb is_byte bytes = true.
Proof.
  induction 1 as [|b bytes Hb _ IH]; [done|]. cbn [forallb]. rewrite IH. unfold byte_val, is_byte in *.
  by rewrite !andb_true_iff, Z.leb_le, Z.ltb_lt.
Qed.

(** Reading a list of indicators: dropped when there are 24 or more,
    otherwise the list, the data behind it, and what is left for the last
    segment. *)
Lemma read_indicators d lis : Forall byte_val d -> Z.of_nat (length d) < 2 ^ 16 ->
  li_list (nibbles d) lis ->
  rlc_um_read_length_indicators d (Z.of_nat (length d)) =
    Ok (if (24 <=? length lis)%nat then None
        else Some (drop (li_bytes (length lis)) d, lis, left_over d lis)).
Proof.
  intros B Hd L. pose proof (read_length_indicators_spec d (Z.of_nat (length d)) ltac:(lia)) as S.
  destruct (read_li_list 13 d [] (Z.of_nat (length d)) lis B) as [size' E];
    [exists 0%nat; simpl; lia|done|].
  unfold rlc_um_read_length_indicators in *. rewrite E in *. cbn [mbind res_bind app] in *.
  destruct (24 <=? length lis)%nat; [done|]. destruct S as (_ & _ & _ & _ & _ & ->).
  unfold left_over. do 3 f_equal. lia.
Qed.

Lemma read_indicators_short d size : Forall byte_val d -> li_truncated 24 (nibbles d) ->
  rlc_um_read_length_indicators d size = Fault OutOfBounds.
Proof.
  intros B L. unfold rlc_um_read_length_indicators.
  rewrite (read_li_truncated 13 d [] size 24 B); [done| |done|done]. exists 0%nat. simpl. lia.
Qed.

Lemma block_data L tb b1 d : pdu_block L tb b1 d ->
  Forall byte_val d /\ Z.of_nat (length d) < 2 ^ 16 /\
  tb_size tb - Z.of_nat (hdr_len L) = Z.of_nat (length d).
Proof.
  intros [[E1 E2] B _ F ->]. split; [by apply Forall_drop|]. rewrite length_drop. lia.
Qed.

Lemma li_list_fits d lis : Forall byte_val d -> Z.of_nat (length d) < 2 ^ 16 ->
  li_list (nibbles d) lis -> (length lis < 24)%nat ->
  lis <> [] /\ Forall li_ok lis /\ (li_bytes (length lis) <= length d)%nat.
Proof.
  intros B Hd L H24. pose proof (read_length_indicators_spec d (Z.of_nat (length d)) ltac:(lia)) as S.
  rewrite (read_indicators d lis B Hd L), (proj2 (Nat.leb_gt 24 _) H24) in S. naive_solver.
Qed.

Lemma well_formed_pdu_ok L tb : well_formed L tb -> pdu_ok L tb = true.
Proof.
  intros (b1 & d & K & H). destruct (block_data _ _ _ _ K) as (Bd & Hd & Hs).
  destruct K as [[E1 E2] B Hh F Ed]. unfold pdu_ok.
  rewrite (forallb_is_byte _ B), (proj2 (Z.eqb_eq _ _) E1), (proj2 (Z.ltb_lt _ _) E2),
    (proj2 (Z.leb_le (Z.of_nat (hdr_len L)) _)) by lia.
  cbn [andb]. rewrite <- Ed, Hs. destruct (data_ptr tb) as [|b rest]; [done|]. injection Hh as ->.
  rewrite hdr_e_spec, hdr_fi_spec. destruct H as [-> | (lis & Hl & Hw)]; [done|].
  destruct (ext_bit L b1 =? 0); [done|]. rewrite (read_indicators d lis Bd Hd Hl).
  destruct (Nat.leb_spec 24 (length lis)); [done|]. destruct (Hw ltac:(done)) as [W1 W2].
  destruct (li_list_fits d lis Bd Hd Hl ltac:(done)) as (_ & _ & Hb).
  unfold left_over in *. rewrite andb_true_iff, Z.leb_le, orb_true_iff, negb_true_iff, Z.eqb_neq, Z.ltb_lt.
  rewrite length_drop. unfold RLC_FI_NOT_FIRST_NOT_LAST. split; [lia|].
  destruct (Z.eq_dec (framing L b1) 3); auto with lia.
Qed.

(** ** What becomes of the malformed ones *)

(** Where the reassembly of a PDU with indicators starts. *)
Lemma reassemble_pdu_enter c r sn tb b1 d :
  pdu_block (rx_sn_length r) tb b1 d -> ext_bit (rx_sn_length r) b1 = 1 ->
  exists r1, frame_eq r r1 /\ (sdu_inv r -> sdu_inv r1) /\
    reassemble_pdu c r sn tb =
      (lr ← rlc_um_read_length_indicators d (Z.of_nat (length d));
       match lr with
       | None => Ok r1
       | Some (data_p', lis, size') =>
           reassemble_with_lis c r1 tb (framing (rx_sn_length r) b1) size' data_p' lis
       end).
Proof.
  intros K He. destruct (block_data _ _ _ _ K) as (_ & _ & Hs). destruct K as [_ _ Hh _ Ed].
  unfold reassemble_pdu. set (r0 := if _ =? sn then r else _).
  assert (H0 : frame_eq r r0 /\ (sdu_inv r -> sdu_inv r0) /\ rx_sn_length r0 = rx_sn_length r).
  { unfold r0. destruct (_ =? sn); [done|]. split; [by split|]. split; [apply sdu_inv_clear|done]. }
  clearbody r0. destruct H0 as (F0 & I0 & EL).
  destruct (data_ptr tb) as [|b rest] eqn:D; [done|]. injection Hh as ->.
  exists (r0 <| last_reassemblied_sn := u16 sn |>). split; [done|]. split; [exact I0|].
  rewrite (pdu_header_eq _ tb b1 rest D). cbn [mbind res_bind]. rsimpl.
  by rewrite EL, hdr_e_spec, He, hdr_fi_spec, D, Hs, <- Ed.
Qed.

Lemma truncated_lis_fault c r sn tb : truncated_lis (rx_sn_length r) tb ->
  reassemble_pdu c r sn tb = Fault OutOfBounds.
Proof.
  intros (b1 & d & K & He & Ht). destruct (reassemble_pdu_enter c r sn tb b1 d K He) as (r1 & _ & _ & ->).
  destruct (block_data _ _ _ _ K) as (B & _ & _). by rewrite (read_indicators_short d _ B Ht).
Qed.

Lemma sum_li_nonneg lis : Forall li_ok lis -> 0 <= sum_li lis.
Proof. intros H. by apply sum_li_bound in H as [? _]. Qed.

Lemma missing_tail_fault c r sn tb : sdu_inv r -> missing_tail (rx_sn_length r) tb ->
  reassemble_pdu c r sn tb = Fault AssertFatal.
Proof.
  intros I (b1 & d & lis & K & He & Hf & L & H24 & Hz).
  destruct (reassemble_pdu_enter c r sn tb b1 d K He) as (r1 & _ & I1 & ->).
  destruct (block_data _ _ _ _ K) as (B & Hd & _).
  rewrite (read_indicators d lis B Hd L), (proj2 (Nat.leb_gt 24 _) H24). cbn [mbind res_bind].
  destruct (li_list_fits d lis B Hd L H24) as (Hne & HF & Hb).
  rewrite Hf, Hz. unfold reassemble_with_lis. cbn [Z.eqb Pos.eqb RLC_FI_FIRST_LAST
    RLC_FI_FIRST_NOT_LAST RLC_FI_NOT_FIRST_LAST RLC_FI_NOT_FIRST_NOT_LAST].
  destruct (skip_first_li_ok r1 (drop (li_bytes (length lis)) d) lis (I1 I) Hne HF)
    as (r2 & d2 & lis2 & -> & _ & I2 & HF2 & Hs2). cbn [mbind res_bind].
  unfold left_over in Hz. rewrite length_drop in Hs2. pose proof (sum_li_nonneg _ HF).
  destruct (reassemble_lis_ok c lis2 r2 d2 I2 (li_ok_nonneg _ HF2)) as (r3 & -> & _);
    [fold (sum_li lis2); lia|done].
Qed.

(** After an SDU boundary every indicated segment starts an SDU of its own. *)
Lemma reassemble_lis_short c lis r d :
  is_data_plane r = true -> mem_block_ok c = true -> output_sdu_size_to_write r = 0 ->
  Forall li_ok lis -> Z.of_nat (length d) < sum_li lis ->
  reassemble_lis c r d lis = Fault OutOfBounds.
Proof.
  intros Hp Hm. revert r d Hp. induction lis as [|li lis IH]; intros r d Hp Hz HF Hs; [simpl in Hs; lia|].
  apply Forall_cons in HF as [Hli HF]. unfold li_ok in Hli. cbn [reassemble_lis].
  pose proof (sum_li_nonneg _ HF). cbn [sum_li foldr] in Hs. fold (sum_li lis) in Hs.
  unfold rlc_um_reassembly at 1. destruct (Z.leb_spec li 0) as [Hl|Hl].
  { cbn [mbind res_bind]. apply IH; [by rewrite <- Hp; unfold rlc_um_send_sdu; repeat case_match| |done|].
    - unfold rlc_um_send_sdu. by repeat case_match.
    - rewrite length_drop. lia. }
  set (r1 := match output_sdu_in_construction r with Some _ => r | None => _ end).
  assert (H1 : is_data_plane r1 = true /\ output_sdu_size_to_write r1 = 0 /\
               is_Some (output_sdu_in_construction r1)).
  { unfold r1. destruct (output_sdu_in_construction r) eqn:E; rsimpl; [by rewrite E; eauto|].
    rewrite Hm. eauto. }
  clearbody r1. destruct H1 as (P1 & Z1 & [buf E1]). rewrite E1, Z1. unfold sdu_max_size at 1. rewrite P1.
  rewrite (proj2 (Z.leb_le _ RLC_SDU_MAX_SIZE_DATA_PLANE)) by (unfold RLC_SDU_MAX_SIZE_DATA_PLANE; lia).
  destruct (Z.ltb_spec (Z.of_nat (length d)) li) as [Hlt|Hge]; [done|]. cbn [mbind res_bind].
  apply IH; [| |done|rewrite length_drop; lia].
  - rewrite <- P1. unfold rlc_um_send_sdu. by repeat case_match.
  - unfold rlc_um_send_sdu. by repeat case_match.
Qed.

Lemma truncated_segments_fault c r sn tb :
  is_data_plane r = true -> mem_block_ok c = true -> truncated_segments (rx_sn_length r) tb ->
  reassemble_pdu c r sn tb = Fault OutOfBounds.
Proof.
  intros Hp Hm (b1 & d & lis & K & He & Hf & L & H24 & Hlt).
  destruct (reassemble_pdu_enter c r sn tb b1 d K He) as (r1 & [F _] & _ & ->).
  destruct (block_data _ _ _ _ K) as (B & Hd & _).
  rewrite (read_indicators d lis B Hd L), (proj2 (Nat.leb_gt 24 _) H24). cbn [mbind res_bind].
  destruct (li_list_fits d lis B Hd L H24) as (_ & HF & Hb).
  assert (P1 : is_data_plane r1 = true) by (unfold ctl, bearer_id in F; congruence).
  assert (E : reassemble_lis c (rlc_um_clear_rx_sdu r1) (drop (li_bytes (length lis)) d) lis =
              Fault OutOfBounds).
  { apply reassemble_lis_short; try done. rewrite length_drop. lia. }
  unfold reassemble_with_lis. destruct Hf as [-> | ->];
    cbn [Z.eqb Pos.eqb RLC_FI_FIRST_LAST RLC_FI_FIRST_NOT_LAST]; by rewrite E.
Qed.

End RlcUmWellFormed.
