(* ===== verification/RlcUmSem.v ===== *)
(** * RLC UM receiver: the effect of an in-order PDU on the data

    What a PDU produced by the transmitter (RlcUmTx.pdu_of) does to the SDU
    under construction and to the SDUs handed to the upper layer. *)

From S2P Require Import Prelude RlcUmEntity RlcUmDar RlcUmReasm RlcUmSegment RlcUmTx RlcUmPdu.

Module RlcUmSem.
Import RlcUm RlcUmDar RlcUmReasm RlcUmSegment RlcUmTx RlcUmPdu.

(** The bytes of the SDU under construction. *)
Definition cur (r : rlc_um_entity_t) : list Z :=
  match output_sdu_in_construction r with
  | None => []
  | Some buf => take (Z.to_nat (output_sdu_size_to_write r)) buf
  end.

Lemma cur_length r : sdu_inv r -> Z.of_nat (length (cur r)) = output_sdu_size_to_write r.
Proof.
  unfold sdu_inv, cur. intros [H1 H2]. case_match; [|simpl; lia]. rewrite length_take. lia.
Qed.

(** [r'] differs from [r] by the data only: [out] was delivered and [cur']
    is under construction. *)
Record data_step (r r' : rlc_um_entity_t) (out : list (list Z)) (cur' : list Z) : Prop := {
  ds_frame : frame_eq r r';
  ds_inv : sdu_inv r';
  ds_missing : reassembly_missing_sn_detected r' = reassembly_missing_sn_detected r;
  ds_upper : upper_sdus r' = upper_sdus r ++ out;
  ds_cur : cur r' = cur';
  ds_last : last_reassemblied_sn r' = last_reassemblied_sn r
}.

Lemma data_step_trans r1 r2 r3 o1 o2 c2 c3 :
  data_step r1 r2 o1 c2 -> data_step r2 r3 o2 c3 -> data_step r1 r3 (o1 ++ o2) c3.
Proof.
  intros [F1 I1 M1 U1 C1 L1] [F2 I2 M2 U2 C2 L2]. split; try congruence; try done.
  - exact (transitivity F1 F2).
  - by rewrite U2, U1, app_assoc.
Qed.

Lemma data_step_refl r : sdu_inv r -> data_step r r [] (cur r).
Proof. intros. split; try done. by rewrite app_nil_r. Qed.

Section Sem.
Context (c : protocol_ctxt_t).
Hypothesis Hmem : mem_block_ok c = true.

Lemma reassembly_sem r src len :
  sdu_inv r -> 0 <= len <= Z.of_nat (length src) ->
  Z.of_nat (length (cur r)) + len <= sdu_max_size r ->
  exists r', rlc_um_reassembly c r src len = Ok r' /\
    data_step r r' [] (cur r ++ take (Z.to_nat len) src).
Proof using Hmem.
  intros I Hl Hm. pose proof (cur_length r I) as Hc.
  destruct (reassembly_ok c r src len I) as (r' & E & F & I'); [lia|].
  exists r'. split; [done|]. revert E. unfold rlc_um_reassembly.
  destruct (Z.leb_spec len 0) as [H0|H0].
  { intros [= <-]. assert (len = 0) as -> by lia. simpl. rewrite app_nil_r. by apply data_step_refl. }
  rewrite Hmem. destruct I as [Hs Hb].
  destruct (output_sdu_in_construction r) as [buf|] eqn:Eo.
  - rewrite Eo, Hc in *. destruct (Z.leb_spec (output_sdu_size_to_write r + len) (sdu_max_size r)); [|lia].
    destruct (Z.ltb_spec (Z.of_nat (length src)) len); [lia|]. intros [= <-].
    split; try done; rsimpl; [by rewrite app_nil_r|]. unfold cur at 1. rsimpl. unfold cur. rewrite Eo.
    unfold memcpy_at. rewrite Z2Nat.inj_add by lia.
    rewrite take_app_add' by (rewrite length_take; lia). f_equal.
    rewrite take_app_le by (rewrite length_take; lia). by rewrite take_take, Nat.min_id.
  - rsimpl. cbv iota. change (sdu_max_size (r <| output_sdu_in_construction := _ |> <| output_sdu_size_to_write := 0 |>))
      with (sdu_max_size r). unfold cur in Hm at 1. rewrite Eo in Hm. cbn [length] in Hm.
    destruct (Z.leb_spec (0 + len) (sdu_max_size r)); [|lia].
    destruct (Z.ltb_spec (Z.of_nat (length src)) len); [lia|]. intros [= <-].
    split; try done; rsimpl; [by rewrite app_nil_r|]. unfold cur at 1. rsimpl. unfold cur. rewrite Eo.
    unfold memcpy_at. simpl. rewrite drop_nil, app_nil_r. by rewrite take_take, Nat.min_id.
Qed.

Lemma send_sem r : sdu_inv r -> cur r <> [] -> data_step r (rlc_um_send_sdu r) [cur r] [].
Proof using Type.
  intros I Hne. pose proof (cur_length r I) as Hc. pose proof (frame_send r). pose proof (sdu_inv_send r I).
  assert (0 < output_sdu_size_to_write r).
  { destruct (cur r); [done|]. simpl in Hc. lia. }
  split; try done; unfold rlc_um_send_sdu, cur in *;
    destruct (output_sdu_in_construction r); try done;
    rewrite (proj2 (Z.ltb_lt _ _)) by lia; by rsimpl.
Qed.

(** The bytes of the head of the queue that were already sent. *)
Definition sent_prefix (q : list rlc_um_tx_sdu_t) : list Z :=
  match q with
  | [] => []
  | s :: _ => take (Z.to_nat (sdu_segmented_size s)) (sdu_bytes s)
  end.

Definition unsegmented (s : rlc_um_tx_sdu_t) : Prop := sdu_segmented_size s = 0.

Lemma unsegmented_prefix q : Forall unsegmented q -> sent_prefix q = [].
Proof using Type. destruct 1 as [|s q Hs]; [done|]. unfold unsegmented in Hs. simpl. by rewrite Hs. Qed.

Lemma prefix_rest s : sdu_ok s ->
  take (Z.to_nat (sdu_segmented_size s)) (sdu_bytes s) ++ sdu_rest s = sdu_bytes s.
Proof using Type. intros _. apply take_drop. Qed.

Lemma frame_max r r' : frame_eq r r' -> sdu_max_size r' = sdu_max_size r.
Proof using Type.
  intros [F _]. unfold ctl, bearer_id in F. unfold sdu_max_size.
  by assert (is_data_plane r' = is_data_plane r) as -> by congruence.
Qed.

(** A whole SDU (or the end of one) followed by its delivery. *)
Lemma complete_sem r s d :
  sdu_ok s -> sdu_size s <= sdu_max_size r -> sdu_inv r -> cur r = sent_prefix [s] ->
  exists r1, rlc_um_reassembly c r (sdu_rest s ++ d) (sdu_remaining_size s) = Ok r1 /\
    data_step r (rlc_um_send_sdu r1) [sdu_bytes s] [].
Proof using Hmem.
  intros Hs Hm I Hc. pose proof (sdu_rest_length s Hs) as Hl. pose proof Hs as [L1 L2 L3 L4 L5].
  destruct (reassembly_sem r (sdu_rest s ++ d) (sdu_remaining_size s) I) as (r1 & E & D).
  { rewrite length_app. lia. }
  { rewrite Hc. simpl. rewrite length_take. lia. }
  exists r1. split; [done|]. assert (Hcur : cur r1 = sdu_bytes s).
  { rewrite (ds_cur _ _ _ _ D), Hc, take_app_le by lia. rewrite take_ge by lia. by apply prefix_rest. }
  assert (Hne : cur r1 <> []) by (rewrite Hcur; destruct (sdu_bytes s); [simpl in L1; lia|done]).
  pose proof (send_sem r1 (ds_inv _ _ _ _ D) Hne) as D2. rewrite Hcur in D2.
  exact (data_step_trans _ _ _ _ _ _ _ D D2).
Qed.

Lemma lis_sem full r d :
  Forall sdu_ok full -> Forall unsegmented (tail full) ->
  Forall (fun s => sdu_size s <= sdu_max_size r) full -> sdu_inv r ->
  (full <> [] -> cur r = sent_prefix full) ->
  exists r', reassemble_lis c r (concat (sdu_rest <$> full) ++ d) (sdu_remaining_size <$> full)
      = Ok (r', d) /\
    data_step r r' (sdu_bytes <$> full) (if full is [] then cur r else []).
Proof using Hmem.
  intros Hf. revert r. induction Hf as [|s full Hs Hf IH]; intros r Ht Hm I Hc.
  { exists r. split; [done|by apply data_step_refl]. }
  apply Forall_cons in Hm as [Hm1 Hm2]. csimpl.
  destruct (complete_sem r s (concat (sdu_rest <$> full) ++ d) Hs Hm1 I) as (r1 & E & D).
  { by apply Hc. }
  rewrite <- app_assoc, E. cbn [mbind res_bind].
  replace (drop (Z.to_nat (sdu_remaining_size s)) (sdu_rest s ++ concat (sdu_rest <$> full) ++ d))
    with (concat (sdu_rest <$> full) ++ d).
  2: { pose proof (sdu_rest_length s Hs). by rewrite drop_app_length' by lia. }
  destruct (IH (rlc_um_send_sdu r1)) as (r' & E' & D').
  - simpl in Ht. destruct full; [done|]. by apply Forall_cons in Ht as [_ Ht].
  - by rewrite (frame_max _ _ (ds_frame _ _ _ _ D)).
  - apply D.
  - intros _. rewrite (ds_cur _ _ _ _ D). symmetry. by apply unsegmented_prefix.
  - exists r'. split; [done|]. pose proof (data_step_trans _ _ _ _ _ _ _ D D') as D2.
    rewrite (ds_cur _ _ _ _ D) in D2. destruct full; exact D2.
Qed.

(** The last segment of a PDU: [p] bytes of [s], delivered when they end it. *)
Lemma tail_sem r s p rest :
  sdu_ok s -> sdu_size s <= sdu_max_size r -> sdu_inv r -> cur r = sent_prefix [s] ->
  1 <= p <= sdu_remaining_size s -> Forall unsegmented rest ->
  let last := p =? sdu_remaining_size s in
  exists r1, rlc_um_reassembly c r (take (Z.to_nat p) (sdu_rest s)) p = Ok r1 /\
    data_step r (if last then rlc_um_send_sdu r1 else r1)
      (if last then [sdu_bytes s] else []) (sent_prefix (queue_after s p rest)).
Proof using Hmem.
  intros Hs Hm I Hc Hp Hu last. subst last. unfold queue_after.
  pose proof (sdu_rest_length s Hs) as Hl. pose proof Hs as [L1 L2 L3 L4 L5].
  destruct (Z.eqb_spec p (sdu_remaining_size s)) as [->|Hne].
  - rewrite take_ge by lia. rewrite unsegmented_prefix by done.
    destruct (complete_sem r s [] Hs Hm I Hc) as (r1 & E & D). rewrite app_nil_r in E. eauto.
  - destruct (reassembly_sem r (take (Z.to_nat p) (sdu_rest s)) p I) as (r1 & E & D).
    { rewrite length_take. lia. }
    { rewrite Hc. simpl. rewrite length_take. lia. }
    exists r1. split; [done|].
    replace (sent_prefix (advance_sdu s p :: rest)) with
      (cur r ++ take (Z.to_nat p) (take (Z.to_nat p) (sdu_rest s))); [done|].
    rewrite Hc. unfold sent_prefix, advance_sdu, sdu_rest. rsimpl.
    rewrite take_take, Nat.min_id, take_take_drop. f_equal. lia.
Qed.

(** The result of reassembling a PDU of the transmitter. *)
Record pdu_effect (r r' : rlc_um_entity_t) (out : list (list Z)) (cur' : list Z) : Prop := {
  pe_frame : frame_eq r r';
  pe_inv : sdu_inv r';
  pe_missing : reassembly_missing_sn_detected r' = false;
  pe_upper : upper_sdus r' = upper_sdus r ++ out;
  pe_cur : cur r' = cur';
  pe_last : last_reassemblied_sn r' = last_reassemblied_sn r
}.

Lemma effect_of_step r r0 r' out cur' :
  frame_eq r r0 -> upper_sdus r0 = upper_sdus r -> last_reassemblied_sn r0 = last_reassemblied_sn r ->
  data_step r0 r' out cur' -> pdu_effect r (r' <| reassembly_missing_sn_detected := false |>) out cur'.
Proof using Type.
  intros F U L [F1 I1 M1 U1 C1 L1]. split; rsimpl; try done; try congruence.
  exact (transitivity F F1).
Qed.

(** The same when the flag was already clear and is not written. *)
Lemma effect_of_step_clear r r' out cur' :
  reassembly_missing_sn_detected r = false -> data_step r r' out cur' -> pdu_effect r r' out cur'.
Proof using Type. intros M [F1 I1 M1 U1 C1 L1]. split; try done; congruence. Qed.

(** Clearing the SDU under construction before the first segment of an SDU
    changes nothing when no byte of it was sent. *)
Definition start_of (first : bool) (r : rlc_um_entity_t) : rlc_um_entity_t :=
  if first then rlc_um_clear_rx_sdu r else r.

Lemma start_of_spec first r pre :
  sdu_inv r -> cur r = pre -> (first = true -> pre = []) ->
  frame_eq r (start_of first r) /\ sdu_inv (start_of first r) /\ cur (start_of first r) = pre /\
  upper_sdus (start_of first r) = upper_sdus r /\
  last_reassemblied_sn (start_of first r) = last_reassemblied_sn r.
Proof using Type.
  intros I Hc Hf. destruct first; [|done]. rewrite Hf by done. split_and!; try done.
  - by apply sdu_inv_clear.
  - unfold cur, rlc_um_clear_rx_sdu. rsimpl. by case_match.
Qed.

Lemma no_li_sem r tb s p rest first :
  sdu_ok s -> sdu_size s <= sdu_max_size r -> sdu_inv r -> cur r = sent_prefix [s] ->
  1 <= p <= sdu_remaining_size s -> Forall unsegmented rest ->
  reassembly_missing_sn_detected r = false ->
  (first = true -> sent_prefix [s] = []) ->
  let last := p =? sdu_remaining_size s in
  exists r', reassemble_no_li c r tb (framing_info first last) p (take (Z.to_nat p) (sdu_rest s)) = Ok r' /\
    pdu_effect r r' (if last then [sdu_bytes s] else []) (sent_prefix (queue_after s p rest)).
Proof using Hmem.
  intros Hs Hm I Hc Hp Hu Hmi Hf last.
  destruct (start_of_spec first r _ I Hc Hf) as (F0 & I0 & C0 & U0 & L0).
  destruct (tail_sem (start_of first r) s p rest Hs) as (r1 & E & D); try done.
  { by rewrite (frame_max _ _ F0). }
  fold last in D. subst last.
  unfold reassemble_no_li, framing_info, RLC_FI_FIRST_LAST, RLC_FI_FIRST_NOT_LAST,
    RLC_FI_NOT_FIRST_LAST, RLC_FI_NOT_FIRST_NOT_LAST. rewrite Hmi.
  destruct first, (p =? sdu_remaining_size s); cbn [start_of] in *; simpl; rewrite E; cbn [mbind res_bind fmap res_fmap];
    (eexists; split; [reflexivity|]).
  - by apply (effect_of_step r (rlc_um_clear_rx_sdu r)).
  - by apply (effect_of_step r (rlc_um_clear_rx_sdu r)).
  - by apply (effect_of_step r r).
  - by apply effect_of_step_clear.
Qed.

Lemma with_lis_sem r tb full s p rest first :
  Forall sdu_ok full -> full <> [] -> sdu_ok s -> Forall unsegmented (tail full) -> unsegmented s ->
  Forall (fun s => sdu_size s <= sdu_max_size r) (full ++ [s]) -> sdu_inv r ->
  cur r = sent_prefix full -> 1 <= p <= sdu_remaining_size s -> Forall unsegmented rest ->
  reassembly_missing_sn_detected r = false ->
  (first = true -> sent_prefix full = []) ->
  let last := p =? sdu_remaining_size s in
  exists r', reassemble_with_lis c r tb (framing_info first last) p (payload full s p)
      (sdu_remaining_size <$> full) = Ok r' /\
    pdu_effect r r' ((sdu_bytes <$> full) ++ if last then [sdu_bytes s] else [])
      (sent_prefix (queue_after s p rest)).
Proof using Hmem.
  intros Hfull Hne Hs Ht Hsu Hm I Hc Hp Hu Hmi Hf last.
  apply Forall_app in Hm as [Hm1 Hm2]. apply Forall_cons in Hm2 as [Hm2 _].
  destruct (start_of_spec first r _ I Hc Hf) as (F0 & I0 & C0 & U0 & L0).
  destruct (lis_sem full (start_of first r) (take (Z.to_nat p) (sdu_rest s))) as (r1 & E1 & D1); try done.
  { by rewrite (frame_max _ _ F0). }
  destruct (tail_sem r1 s p rest Hs) as (r2 & E2 & D2); try done.
  { by rewrite (frame_max _ _ (ds_frame _ _ _ _ D1)), (frame_max _ _ F0). }
  { apply D1. }
  { rewrite (ds_cur _ _ _ _ D1). unfold unsegmented in Hsu. simpl. rewrite Hsu. by destruct full. }
  pose proof (data_step_trans _ _ _ _ _ _ _ D1 D2) as D. fold last in D. subst last.
  unfold reassemble_with_lis, reassemble_tail, skip_first_li, framing_info, RLC_FI_FIRST_LAST,
    RLC_FI_FIRST_NOT_LAST, RLC_FI_NOT_FIRST_LAST, RLC_FI_NOT_FIRST_NOT_LAST. rewrite Hmi.
  unfold payload. rewrite (proj2 (Z.ltb_lt 0 p)) by lia.
  destruct first, (p =? sdu_remaining_size s); cbn [start_of] in *; simpl; rewrite E1;
    cbn [mbind res_bind]; rewrite E2; cbn [mbind res_bind]; (eexists; split; [reflexivity|]).
  - by apply (effect_of_step r (rlc_um_clear_rx_sdu r)).
  - by apply (effect_of_step r (rlc_um_clear_rx_sdu r)).
  - by apply (effect_of_step r r).
  - by apply (effect_of_step r r).
Qed.

Lemma framing_info_range a b : 0 <= framing_info a b <= 3.
Proof using Type. destruct a, b; done. Qed.

(** What a queue needs for its PDUs to survive the trip: SDUs no longer than
    an LI can say and than the receiver's block. *)
Definition queue_fits (maxsz : Z) (q : list rlc_um_tx_sdu_t) : Prop :=
  Forall (fun s => sdu_size s <= maxsz /\ sdu_size s <= 2047) q.

Definition delivered_by (full : list rlc_um_tx_sdu_t) (s : rlc_um_tx_sdu_t) (p : Z) : list (list Z) :=
  (sdu_bytes <$> full) ++ if p =? sdu_remaining_size s then [sdu_bytes s] else [].

Lemma pdu_sem r sn full s rest p vt l t slack :
  let q := full ++ s :: rest in
  let pdu := pdu_of (rx_sn_length r) q full s p vt [] in
  rx_sn_length r = 10 \/ rx_sn_length r = 5 ->
  Forall sdu_ok q -> Forall unsegmented (tail q) -> cut q l t full s rest p slack ->
  queue_fits (sdu_max_size r) q -> (length full < 24)%nat ->
  Z.of_nat (length pdu) < 2 ^ 16 ->
  Z.rem (last_reassemblied_sn r + 1) (rx_sn_modulo r) = sn -> 0 <= sn < 2 ^ 16 ->
  sdu_inv r -> reassembly_missing_sn_detected r = false -> cur r = sent_prefix q ->
  exists r', reassemble_pdu c r sn (mk_tb pdu (Z.of_nat (length pdu))) = Ok r' /\
    pdu_effect (r <| last_reassemblied_sn := sn |>) r' (delivered_by full s p)
      (sent_prefix (queue_after s p rest)).
Proof using Hmem.
  intros q pdu HL Hq Ht [_ P _ _ _] Hfit H24 H16 Hsn Hsn' I Hmi Hc.
  pose proof Hq as Hq'. apply Forall_app in Hq' as [Hfull [Hs Hrest]%Forall_cons].
  assert (Hu : Forall unsegmented rest).
  { unfold q in Ht. destruct full as [|a full]; simpl in Ht; [done|].
    apply Forall_app in Ht as [_ Ht]. by apply Forall_cons in Ht as [_ Ht]. }
  set (first := is_first q). set (last := p =? sdu_remaining_size s).
  set (e := negb (length full =? 0)%nat).
  set (body := enc_lis None (sdu_remaining_size <$> full) ++ payload full s p).
  assert (Epdu : pdu = hdr_bytes (rx_sn_length r) (framing_info first last) e vt ++ body).
  { unfold pdu, pdu_of, body. by rewrite app_nil_r. }
  destruct (hdr_decode (rx_sn_length r) (framing_info first last) e vt body HL (framing_info_range _ _))
    as (b1 & tl & E1 & He & Hfi & Hd & _). rewrite <- Epdu in E1, Hd.
  unfold reassemble_pdu. rewrite Hsn, Z.eqb_refl, u16_small by lia.
  set (r1 := r <| last_reassemblied_sn := sn |>).
  rewrite (pdu_header_eq r1 (mk_tb pdu (Z.of_nat (length pdu))) b1 tl E1). change (rx_sn_length r1) with (rx_sn_length r).
  cbn [mbind res_bind data_ptr tb_size]. rewrite He, Hfi, Hd.
  assert (Hlen : Z.of_nat (length pdu) - Z.of_nat (hdr_len (rx_sn_length r)) = Z.of_nat (length body)).
  { rewrite <- Hd. rewrite length_drop.
    assert (hdr_len (rx_sn_length r) <= length pdu)%nat; [|lia]. rewrite Epdu, length_app.
    unfold hdr_bytes, hdr_len. destruct (rx_sn_length r =? 10); simpl; lia. }
  rewrite Hlen.
  assert (Hb20 : Z.abs (Z.of_nat (length body)) < 2 ^ 20) by lia.
  assert (Hfirst : first = true -> sent_prefix q = []).
  { unfold first, is_first, q. intros Hf. destruct full as [|a full]; simpl in *.
    - apply Z.eqb_eq in Hf. destruct Hs. assert (sdu_segmented_size s = 0) as -> by lia. done.
    - apply Forall_cons in Hfull as [Ha _]. apply Z.eqb_eq in Hf. destruct Ha.
      assert (sdu_segmented_size a = 0) as -> by lia. done. }
  assert (Hmax : Forall (fun s => sdu_size s <= sdu_max_size r1) (full ++ [s])).
  { unfold queue_fits, q in Hfit. apply Forall_app in Hfit as [F1 [F2 _]%Forall_cons].
    apply Forall_app. split; [eapply Forall_impl; [exact F1|]; simpl; tauto|].
    apply Forall_cons. split; [tauto|done]. }
  pose proof (payload_length full s p Hfull Hs ltac:(lia)) as Hpl.
  destruct full as [|a full].
  - subst e. cbn [length Nat.eqb negb]. cbn [Z.eqb RLC_E_FIXED_PART_DATA_FIELD_FOLLOW].
    change (Z.eqb 0 RLC_E_FIXED_PART_DATA_FIELD_FOLLOW) with true. cbv iota.
    assert (Eb : body = take (Z.to_nat p) (sdu_rest s)) by done.
    assert (Z.of_nat (length body) = p) as -> by (unfold body; simpl; rewrite Hpl, remaining_nil; lia).
    rewrite Eb. apply (no_li_sem r1 _ s p rest first); try done.
    by apply Forall_cons in Hmax as [? _].
  - subst e. cbn [length Nat.eqb negb].
    change (Z.eqb 1 RLC_E_FIXED_PART_DATA_FIELD_FOLLOW) with false. cbv iota.
    assert (Hok : Forall li_ok (sdu_remaining_size <$> (a :: full))).
    { apply Forall_fmap. unfold queue_fits, q in Hfit. apply Forall_app in Hfit as [F1 _].
      apply Forall_forall. intros x Hx. rewrite Forall_forall in F1, Hfull.
      specialize (F1 x Hx). destruct (Hfull x Hx). unfold li_ok. simpl. lia. }
    pose proof (proj1 (enc_lis_length (sdu_remaining_size <$> a :: full))) as Hel.
    rewrite length_fmap, (proj1 (li_cost_bytes _)) in Hel.
    unfold body. rewrite read_length_indicators_enc; [|done|done|by rewrite length_fmap|].
    2: { exact Hb20. }
    cbn [mbind res_bind].
    match goal with |- context [reassemble_with_lis c r1 _ _ ?sz _ _] => replace sz with p end.
    2: { assert (Hsum : sum_li (sdu_remaining_size <$> a :: full) = remaining (a :: full)) by done.
         rewrite length_app, Nat2Z.inj_add, Hel, Hpl, Hsum, (length_fmap sdu_remaining_size). lia. }
    assert (Htf : Forall unsegmented (tail (a :: full)) /\ unsegmented s).
    { unfold q in Ht. simpl in Ht. apply Forall_app in Ht as [T1 [T2 _]%Forall_cons]. done. }
    apply (with_lis_sem r1 _ (a :: full) s p rest first); try done; apply Htf.
Qed.

End Sem.

End RlcUmSem.
