(* ===== verification/RlcUmLink.v ===== *)
(** * RLC UM: a lossless link, end to end

    A transmitting entity, a first-in first-out channel of PDUs and a
    receiving entity. The steps are calls of the handlers of RlcUmTop: PDCP
    submits an SDU, MAC announces a grant, MAC fetches the PDUs, MAC hands a
    PDU to the peer. The theorems say that what the receiver delivers is, in
    order and byte for byte, what was submitted. *)

From S2P Require Import Prelude RlcUmEntity RlcUmDar RlcUmWindow RlcUmReasm RlcUmRxInv.
From S2P Require Import RlcUmSegment RlcUmTx RlcUmTop RlcUmPdu RlcUmSem.

Module RlcUmLink.
Import RlcUm RlcUmDar RlcUmWindow RlcUmReasm RlcUmRxInv RlcUmSegment RlcUmTx RlcUmTop RlcUmPdu RlcUmSem.

(** ** A receiver with nothing outstanding *)

Record rx_idle (r : rlc_um_entity_t) : Prop := {
  id_cfg : rx_cfg r;
  id_ready : protocol_state r = RLC_DATA_TRANSFER_READY_STATE;
  id_ur : in_sn_range r (vr_ur r);
  id_uh : vr_uh r = vr_ur r;
  id_timer : running (t_reordering r) = false;
  id_dar : dar_buffer r = replicate 1024 None;
  id_last : Z.rem (last_reassemblied_sn r + 1) (rx_sn_modulo r) = vr_ur r;
  id_missing : reassembly_missing_sn_detected r = false;
  id_sdu : sdu_inv r
}.

Definition next_sn (r : rlc_um_entity_t) : Z := (vr_ur r + 1) mod rx_sn_modulo r.

(** The entity the PDU [tb] of the expected SN is reassembled in. *)
Definition with_pdu (r : rlc_um_entity_t) (tb : mac_tb) : rlc_um_entity_t :=
  r <| dar_buffer ::= <[Z.to_nat (vr_ur r) := Some tb]> |>
    <| vr_uh := next_sn r |> <| vr_ur := next_sn r |>.

Lemma idle_lookup r sn : rx_idle r -> in_sn_range r sn -> dar_get r sn = Ok None.
Proof.
  intros D Hs. unfold dar_get. rewrite (id_dar _ D). unfold in_sn_range in Hs.
  pose proof (cfg_MW _ (id_cfg _ D)). destruct (Z.ltb_spec sn 0); [lia|].
  by rewrite lookup_replicate_2 by lia.
Qed.

Lemma idle_back r x : rx_idle r -> in_sn_range r x -> x <> vr_ur r -> back r x <> 0.
Proof.
  intros D Hx N B. apply N. rewrite <- (id_uh _ D). apply back_0; try done; [apply D|].
  unfold in_sn_range. rewrite (id_uh _ D). apply D.
Qed.

Lemma next_sn_range r : rx_cfg r -> in_sn_range r (next_sn r).
Proof. intros C. apply Z.mod_pos_bound. destruct (cfg_MW _ C); lia. Qed.

Lemma next_sn_eq r : rx_cfg r -> in_sn_range r (vr_ur r) ->
  u16 (Z.rem (vr_ur r + 1) (rx_sn_modulo r)) = next_sn r.
Proof.
  intros C H. unfold in_sn_range in H. pose proof (cfg_MW _ C).
  pose proof (next_sn_range r C) as R. unfold in_sn_range in R.
  rewrite Z.rem_mod_nonneg by lia. apply u16_small. fold (next_sn r). lia.
Qed.

Lemma next_sn_ne r : rx_cfg r -> next_sn r <> vr_ur r.
Proof. intros C. unfold next_sn. destruct (cfg_MW _ C) as [[E _]|[E _]]; rewrite E; mod_lia. Qed.

(** The time-out machinery does nothing when nothing is outstanding. *)
Lemma idle_timer_update c r : rx_cfg r -> in_sn_range r (vr_ur r) -> vr_uh r = vr_ur r ->
  running (t_reordering r) = false -> dar_timer_update c r = r.
Proof.
  intros C Ur Uh T. unfold dar_timer_update. rewrite T. cbn [andb]. cbv zeta iota.
  rewrite !T. cbn [negb]. cbv iota.
  assert (Huh : in_sn_range r (vr_uh r)) by by rewrite Uh.
  assert (B0 : back r (vr_ur r) = 0) by (rewrite <- Uh; apply back_uh).
  pose proof (in_window_nonempty r C Huh (vr_ur r) Ur) as H.
  destruct (Z.eqb_spec (rlc_um_in_window r (vr_ur r) (vr_uh r) (vr_uh r)) 2) as [E|E]; [|done].
  apply H in E; [congruence|]. destruct (cfg_MW _ C); lia.
Qed.

(** The PDU with the expected SN is stored, moves the window by one and is
    reassembled at once. *)
Lemma inorder_process c r tb size rb :
  rx_idle r -> pdu_sn r (data_ptr tb) = Ok (Some (vr_ur r)) ->
  reassemble_pdu c (with_pdu r tb) (vr_ur r) tb = Ok rb -> frame_eq (with_pdu r tb) rb ->
  rlc_um_receive_process_dar c r tb size = Ok (dar_set rb (vr_ur r) None).
Proof.
  intros D Hsn Hre F. pose proof D as [C Rd Ur Uh T Da La Mi Sd].
  pose proof (cfg_MW _ C) as MW. pose proof Ur as Ur'. unfold in_sn_range in Ur'.
  assert (Huh : in_sn_range r (vr_uh r)) by by rewrite Uh.
  assert (B0 : back r (vr_ur r) = 0) by (rewrite <- Uh; apply back_uh).
  assert (U16 : u16 (vr_ur r) = vr_ur r) by (apply u16_small; lia).
  pose proof (next_sn_range r C) as Rn. pose proof (next_sn_ne r C) as Nn. pose proof Rn as Rn'.
  unfold in_sn_range in Rn'.
  unfold rlc_um_receive_process_dar. rewrite Hsn. cbn [mbind res_bind].
  (* storing *)
  assert (Est : dar_store r tb (vr_ur r) size = Ok (dar_set r (vr_ur r) (Some tb), true)).
  { unfold dar_store.
    pose proof (in_window_below_ur r C Huh (vr_ur r) (vr_ur r) Ur Ur ltac:(lia)) as Hw. cbv zeta in Hw.
    destruct ((_ =? 1) || (_ =? 0)) eqn:Ew.
    { apply orb_true_iff in Ew as [?%Z.eqb_eq|?%Z.eqb_eq]; exfalso; lia. }
    unfold rlc_um_get_pdu_from_dar_buffer, rlc_um_store_pdu_in_dar_buffer.
    rewrite U16, (idle_lookup r _ D Ur). done. }
  rewrite Est. cbn [mbind res_bind negb]. set (r1 := dar_set r (vr_ur r) (Some tb)).
  (* window *)
  assert (Ewu : dar_window_update c r1 (vr_ur r) = Ok (r1 <| vr_uh := next_sn r |>)).
  { unfold dar_window_update.
    rewrite (in_reordering_window_spec r1 C Huh (vr_ur r) Ur : rlc_um_in_reordering_window r1 _ = _).
    change (back r1 (vr_ur r)) with (back r (vr_ur r)). rewrite B0, decide_False by lia.
    cbn [Z.ltb Z.compare]. change (rx_sn_modulo r1) with (rx_sn_modulo r).
    rewrite (next_sn_eq r C Ur). set (r2 := r1 <| vr_uh := next_sn r |>).
    change (vr_ur r2) with (vr_ur r).
    rewrite (in_reordering_window_spec r2 C Rn (vr_ur r) Ur : rlc_um_in_reordering_window r2 _ = _).
    rewrite decide_True; [done|]. unfold back. change (vr_uh r2) with (next_sn r).
    change (rx_sn_modulo r2) with (rx_sn_modulo r). change (rx_um_window_size r2) with (rx_um_window_size r).
    unfold next_sn. destruct MW as [[E E']|[E E']]; rewrite E, E' in *; mod_lia. }
  rewrite Ewu. cbn [mbind res_bind]. set (r2 := r1 <| vr_uh := next_sn r |>).
  (* delivery *)
  assert (Hslot : dar_get r2 (vr_ur r) = Ok (Some tb)).
  { unfold dar_get. rewrite (proj2 (Z.ltb_ge _ _)) by lia.
    change (dar_buffer r2) with (<[Z.to_nat (vr_ur r) := Some tb]> (dar_buffer r)).
    rewrite list_lookup_insert_eq; [done|]. rewrite Da, length_replicate. lia. }
  assert (Hnext : forall q, dar_buffer q = dar_buffer r2 -> dar_get q (next_sn r) = Ok None).
  { intros q Hq. unfold dar_get. rewrite (proj2 (Z.ltb_ge _ _)), Hq by lia.
    change (dar_buffer r2) with (<[Z.to_nat (vr_ur r) := Some tb]> (dar_buffer r)).
    rewrite list_lookup_insert_ne by lia. by rewrite Da, lookup_replicate_2 by lia. }
  assert (Ede : dar_deliver c r2 (vr_ur r) = Ok (dar_set rb (vr_ur r) None)).
  { unfold dar_deliver. change (vr_ur r2) with (vr_ur r). rewrite Z.eqb_refl.
    unfold rlc_um_get_pdu_from_dar_buffer. rewrite U16, Hslot. cbn [mbind res_bind].
    change (rx_sn_modulo r2) with (rx_sn_modulo r).
    assert (HM : exists n, Z.to_nat (rx_sn_modulo r) = S n) by (exists (Z.to_nat (rx_sn_modulo r) - 1)%nat; lia).
    destruct HM as [n HM]. rewrite HM. cbn [advance_vr_ur_to_hole]. cbv zeta.
    match goal with |- context [rlc_um_get_pdu_from_dar_buffer ?q _] => set (r3 := q) end.
    assert (Er3 : r3 = with_pdu r tb).
    { unfold r3, upd. simpl. rewrite (next_sn_eq r C Ur). reflexivity. }
    assert (Ev : vr_ur r3 = next_sn r) by by rewrite Er3.
    unfold rlc_um_get_pdu_from_dar_buffer. rewrite Ev, u16_small by lia.
    rewrite (Hnext r3) by done. cbn [mbind res_bind]. rewrite Ev, (s16_small (next_sn r)) by lia.
    rewrite Er3. unfold rlc_um_try_reassembly.
    rewrite !(proj2 (Z.ltb_ge _ _)) by lia. rewrite (proj2 (Z.eqb_neq _ _)) by congruence.
    change (rx_sn_modulo (with_pdu r tb)) with (rx_sn_modulo r). rewrite HM.
    cbn [try_reassembly_loop]. unfold reassembly_iteration.
    change (dar_get (with_pdu r tb) (vr_ur r)) with (dar_get r2 (vr_ur r)). rewrite Hslot.
    cbn [mbind res_bind]. rewrite Hre. cbn [mbind res_bind].
    destruct F as [F _]. unfold ctl in F.
    change (rx_sn_modulo (dar_set rb (vr_ur r) None)) with (rx_sn_modulo rb).
    change (vr_uh (dar_set rb (vr_ur r) None)) with (vr_uh rb).
    assert (rx_sn_modulo rb = rx_sn_modulo r) as -> by (change (rx_sn_modulo r) with (rx_sn_modulo (with_pdu r tb)); congruence).
    assert (vr_uh rb = next_sn r) as -> by (change (next_sn r) with (vr_uh (with_pdu r tb)); congruence).
    rewrite Z.rem_mod_nonneg by lia. fold (next_sn r). rewrite s16_small by lia.
    rewrite Z.eqb_refl. done. }
  rewrite Ede. cbn [mbind res_bind]. f_equal.
  destruct F as [F _]. unfold ctl in F.
  assert (F1 : rx_cfg rb /\ vr_ur rb = next_sn r /\ vr_uh rb = next_sn r /\ running (t_reordering rb) = false /\
    rx_sn_modulo rb = rx_sn_modulo r).
  { set (w := with_pdu r tb) in *.
    assert (rx_sn_length rb = rx_sn_length w) by congruence.
    assert (rx_sn_modulo rb = rx_sn_modulo w) by congruence.
    assert (rx_um_window_size rb = rx_um_window_size w) by congruence.
    assert (vr_ur rb = vr_ur w) by congruence. assert (vr_uh rb = vr_uh w) by congruence.
    assert (Et : t_reordering rb = t_reordering w) by congruence.
    split_and!; try done; [unfold rx_cfg in *|by rewrite Et]. by rewrite H, H0, H1. }
  destruct F1 as (G1 & G2 & G3 & G4 & G5).
  apply idle_timer_update; [exact G1| |by rewrite <- G2 in G3|exact G4].
  change (in_sn_range rb (vr_ur rb)). unfold in_sn_range. rewrite G2, G5. exact Rn.
Qed.

(** ** Reassembly depends on the context only through the memory pool *)

Section Ctx.
Context (c c' : protocol_ctxt_t).
Hypothesis Hm : mem_block_ok c = mem_block_ok c'.

Lemma reassembly_ctx r src len : rlc_um_reassembly c r src len = rlc_um_reassembly c' r src len.
Proof using Hm. unfold rlc_um_reassembly. by rewrite Hm. Qed.

Lemma reassemble_lis_ctx lis r d : reassemble_lis c r d lis = reassemble_lis c' r d lis.
Proof using Hm.
  revert r d. induction lis as [|x lis IH]; intros r d; [done|]. cbn [reassemble_lis].
  rewrite reassembly_ctx. destruct (rlc_um_reassembly c' r d x); [|done]. apply IH.
Qed.

Lemma reassemble_tail_ctx r d size send : reassemble_tail c r d size send = reassemble_tail c' r d size send.
Proof using Hm. unfold reassemble_tail. by rewrite reassembly_ctx. Qed.

Lemma reassemble_pdu_ctx r sn tb : reassemble_pdu c r sn tb = reassemble_pdu c' r sn tb.
Proof using Hm.
  unfold reassemble_pdu. destruct (pdu_header _ tb) as [[[[e fi] size] d]|]; [|done].
  cbn [mbind res_bind]. destruct (e =? _).
  - unfold reassemble_no_li. by rewrite !reassembly_ctx.
  - destruct (rlc_um_read_length_indicators d size) as [[[[d' lis] size']|]|]; [|done..].
    cbn [mbind res_bind]. unfold reassemble_with_lis.
    rewrite !reassemble_lis_ctx.
    repeat match goal with
    | |- (if ?b then _ else _) = _ => destruct b
    | |- (?m ≫= _) = (?m ≫= _) => destruct m as [[]|]; [|done]; cbn [mbind res_bind]
    | |- context [let (_, _) := ?p in _] => destruct p
    end; rewrite ?reassemble_tail_ctx, ?reassemble_lis_ctx; try done.
    all: destruct (reassemble_lis c' _ _ _) as [[r1 d1]|]; [|done]; cbn [mbind res_bind].
    all: by rewrite ?reassemble_tail_ctx, ?reassembly_ctx.
Qed.
End Ctx.

(** ** An in-order PDU at an idle receiver *)

Lemma idle_receive r full s rest p vt l t slack :
  let q := full ++ s :: rest in
  let pdu := pdu_of (rx_sn_length r) q full s p vt [] in
  rx_idle r -> vt mod rx_sn_modulo r = vr_ur r ->
  Forall sdu_ok q -> Forall unsegmented (tail q) -> cut q l t full s rest p slack ->
  queue_fits (sdu_max_size r) q -> (length full < 24)%nat ->
  1 <= Z.of_nat (length pdu) < 2 ^ 16 -> cur r = sent_prefix q ->
  exists r',
    (forall c, mem_block_ok c = true ->
       rlc_um_mac_data_indication c r [mk_tb pdu (Z.of_nat (length pdu))] = Ok r') /\
    rx_idle r' /\ vr_ur r' = next_sn r /\ rx_sn_modulo r' = rx_sn_modulo r /\
    rx_sn_length r' = rx_sn_length r /\ sdu_max_size r' = sdu_max_size r /\
    upper_sdus r' = upper_sdus r ++ delivered_by full s p /\
    cur r' = sent_prefix (queue_after s p rest) /\ bearer_id r' = bearer_id r.
Proof.
  intros q pdu D Hvt Hq Ht Hcut Hfit H24 Hlen Hc. set (tb := mk_tb pdu (Z.of_nat (length pdu))).
  pose proof D as [C Rd Ur Uh T Da La Mi Sd]. pose proof (cfg_MW _ C) as MW.
  set (r1 := r <| stat_rx_data_bytes ::= fun n => u32 (n + u16 (tb_size tb)) |>
               <| stat_rx_data_pdu ::= fun n => u32 (n + 1) |>).
  assert (D1 : rx_idle r1) by by split.
  assert (HL : rx_sn_length r = 10 \/ rx_sn_length r = 5) by (cfg_cases C; auto).
  pose (c0 := mk_ctxt 0 0 false true true).
  destruct (pdu_sem c0 eq_refl (with_pdu r1 tb) (vr_ur r) full s rest p vt l t slack)
    as (rb & Erb & [F I M U Cu L]); try done; [exact (proj2 Hlen)|unfold in_sn_range in Ur; lia|].
  assert (Hsn : pdu_sn r1 (data_ptr tb) = Ok (Some (vr_ur r1))).
  { destruct (hdr_decode (rx_sn_length r) (framing_info (is_first q) (p =? sdu_remaining_size s))
      (negb (length full =? 0)%nat) vt (enc_lis None (sdu_remaining_size <$> full) ++ payload full s p ++ [])
      HL (framing_info_range _ _)) as (_ & _ & _ & _ & _ & _ & Hdec).
    change (data_ptr tb) with pdu. unfold pdu, pdu_of. rewrite (Hdec r1 eq_refl).
    change (vr_ur r1) with (vr_ur r). rewrite <- Hvt. do 3 f_equal.
    cfg_cases C; rewrite A, B; done. }
  exists (dar_set rb (vr_ur r) None).
  assert (F0 : frame_eq (with_pdu r1 tb) rb) by exact F.
  assert (Id : rx_idle (dar_set rb (vr_ur r) None)).
  { destruct F0 as [F0 _]. unfold ctl in F0. set (w := with_pdu r1 tb) in *.
    assert (E1 : rx_sn_length rb = rx_sn_length w) by congruence.
    assert (E2 : rx_sn_modulo rb = rx_sn_modulo w) by congruence.
    assert (E3 : rx_um_window_size rb = rx_um_window_size w) by congruence.
    assert (E4 : vr_ur rb = vr_ur w) by congruence. assert (E5 : vr_uh rb = vr_uh w) by congruence.
    assert (E6 : t_reordering rb = t_reordering w) by congruence.
    assert (E7 : dar_buffer rb = dar_buffer w) by congruence.
    assert (E8 : protocol_state rb = protocol_state w) by congruence.
    split; unfold dar_set, rx_cfg, in_sn_range; rsimpl;
      rewrite ?E1, ?E2, ?E3, ?E4, ?E5, ?E6, ?E7, ?E8; try done.
    - apply (next_sn_range r C).
    - change (dar_buffer w) with (<[Z.to_nat (vr_ur r) := Some tb]> (dar_buffer r)).
      rewrite list_insert_insert_eq, Da. apply list_insert_id.
      unfold in_sn_range in Ur. apply lookup_replicate_2. lia.
    - rewrite L. change (last_reassemblied_sn (w <| last_reassemblied_sn := vr_ur r |>)) with (vr_ur r).
      change (rx_sn_modulo w) with (rx_sn_modulo r). change (vr_ur w) with (next_sn r).
      unfold in_sn_range in Ur. by rewrite Z.rem_mod_nonneg by lia. }
  split_and!.
  - intros c Hc'. unfold rlc_um_mac_data_indication, rlc_um_rx. rewrite Rd, Z.eqb_refl.
    cbn [rlc_um_receive]. fold r1. change (tb_size tb) with (Z.of_nat (length pdu)).
    rewrite u16_small by lia. rewrite (proj2 (Z.ltb_lt _ _)) by lia.
    replace (r <| stat_rx_data_bytes ::= fun n => u32 (n + Z.of_nat (length pdu)) |>
               <| stat_rx_data_pdu ::= fun n => u32 (n + 1) |>) with r1
      by (unfold r1; change (tb_size tb) with (Z.of_nat (length pdu)); by rewrite (u16_small (Z.of_nat (length pdu))) by lia).
    rewrite (inorder_process c r1 tb _ rb D1 Hsn); [|by rewrite (reassemble_pdu_ctx c c0)|exact F0].
    cbn [mbind res_bind]. unfold rlc_um_check_timer_dar_time_out.
    change (vr_ur r1) with (vr_ur r). by rewrite (id_timer _ Id).
  - exact Id.
  - destruct F0 as [F0 _]. unfold ctl in F0. change (vr_ur rb = vr_ur (with_pdu r1 tb)). congruence.
  - destruct F0 as [F0 _]. unfold ctl in F0. change (rx_sn_modulo rb = rx_sn_modulo (with_pdu r1 tb)). congruence.
  - destruct F0 as [F0 _]. unfold ctl in F0. change (rx_sn_length rb = rx_sn_length (with_pdu r1 tb)). congruence.
  - exact (frame_max _ _ F0).
  - exact U.
  - exact Cu.
  - destruct F0 as [F0 _]. unfold ctl in F0. change (bearer_id rb = bearer_id (with_pdu r1 tb)). congruence.
Qed.

End RlcUmLink.
