(* ===== verification/RlcUmSystem.v ===== *)
(** * RLC UM: two entities over a lossless channel

    The state machine whose steps are calls of the handlers of RlcUmTop: PDCP
    submits an SDU, MAC announces a grant, MAC fetches the PDUs, MAC hands the
    oldest PDU on the way to the peer. The theorems say that no step faults,
    that what the receiver has delivered is at any time a prefix of what was
    submitted, byte for byte, and that the queue can always be drained. *)

From S2P Require Import Prelude RlcUmEntity RlcUmDar RlcUmWindow RlcUmReasm RlcUmRxInv.
From S2P Require Import RlcUmSegment RlcUmTx RlcUmTop RlcUmPdu RlcUmSem RlcUmLink.

Module RlcUmSystem.
Import RlcUm RlcUmDar RlcUmWindow RlcUmReasm RlcUmRxInv RlcUmSegment RlcUmTx RlcUmTop RlcUmPdu RlcUmSem RlcUmLink.

Record link : Type := mk_link {
  l_tx : rlc_um_entity_t;
  l_ch : list mac_tb;
  l_rx : rlc_um_entity_t;
  l_submitted : list (list Z)
}.

(** The grants for which the transmitter's PDU is one the receiver accepts as
    it is: fewer length indicators than the receiver's limit, and a PDU that
    the counting pass fills exactly (always so with 5-bit SNs, where the PDU
    is shortened otherwise). *)
Definition grant_ok (tx : rlc_um_entity_t) : bool :=
  (test_num_li (tx_count tx) <? RLC_UM_SEGMENT_NB_MAX_LI_PER_PDU)
  && (c_data_pdu_size (tx_count tx)
      =? c_pdu_remaining_size (tx_count tx) + tx_header_min_length_in_bytes tx).

(** The SDUs PDCP may submit: not empty, no longer than a length indicator
    can say or than the receiver's block, and within the transmitter's
    memory. *)
Definition sdu_accepted (l : link) (sdu : list Z) : Prop :=
  1 <= Z.of_nat (length sdu) <= 2047 /\ Z.of_nat (length sdu) <= sdu_max_size (l_rx l) /\
  buffer_occupancy (l_tx l) + Z.of_nat (length sdu) <= 2 ^ 29.

Inductive link_step : link -> link -> Prop :=
| L_submit l c sdu :
    sdu_accepted l sdu ->
    link_step l (mk_link (rlc_um_data_req c (l_tx l) sdu) (l_ch l) (l_rx l) (l_submitted l ++ [sdu]))
| L_status l c tbs resp tx' :
    0 <= tbs < 2 ^ 15 ->
    rlc_um_mac_status_indication c (Some (l_tx l)) tbs = Ok (resp, Some tx') ->
    link_step l (mk_link tx' (l_ch l) (l_rx l) (l_submitted l))
| L_request l c garbage req tx' :
    mem_block_ok c = true -> grant_ok (l_tx l) = true ->
    rlc_um_mac_data_request c garbage (l_tx l) = Ok (req, tx') ->
    link_step l (mk_link tx' (l_ch l ++ dr_data req) (l_rx l) (l_submitted l))
| L_indicate l c tb ch rx' :
    mem_block_ok c = true -> l_ch l = tb :: ch ->
    rlc_um_mac_data_indication c (l_rx l) [tb] = Ok rx' ->
    link_step l (mk_link (l_tx l) ch rx' (l_submitted l)).

(** Both entities freshly configured by the same request. *)
Inductive link_init : link -> Prop :=
| Link_init srb cfg rb t0 r0 tx rx :
    sn_field_length cfg = 10 \/ sn_field_length cfg = 5 -> is_mXch cfg = 0 ->
    initialized t0 = false -> initialized r0 = false -> upper_sdus r0 = [] ->
    config_req_rlc_um srb cfg rb (Some t0) = Some tx ->
    config_req_rlc_um srb cfg rb (Some r0) = Some rx ->
    link_init (mk_link tx [] rx []).

Inductive link_reach : link -> Prop :=
| Reach_init l : link_init l -> link_reach l
| Reach_step l l' : link_reach l -> link_step l l' -> link_reach l'.

(** ** The invariant

    [sync tx rx sub]: with nothing on the way, the receiver is idle, expects
    the next SN and holds exactly the bytes already sent of the SDU in
    progress. *)
Record sync (tx rx : rlc_um_entity_t) (sub : list (list Z)) : Prop := {
  sy_tx : tx_inv tx;
  sy_ready : protocol_state tx = RLC_DATA_TRANSFER_READY_STATE;
  sy_timer : running (t_reordering tx) = false;
  sy_out : pdus_to_mac_layer tx = [];
  sy_nb : 0 <= nb_bytes_requested_by_mac tx < 2 ^ 15;
  sy_rx : rx_idle rx;
  sy_len : tx_sn_length tx = rx_sn_length rx;
  sy_sn : vt_us tx mod rx_sn_modulo rx = vr_ur rx;
  sy_cur : cur rx = sent_prefix (input_sdus tx);
  sy_fits : queue_fits (sdu_max_size rx) (input_sdus tx);
  sy_data : upper_sdus rx ++ (sdu_bytes <$> input_sdus tx) = sub
}.

(** [chan rx ch rx']: the receiver [rx] becomes [rx'] when it is handed the
    PDUs [ch], whatever the time. *)
Inductive chan : rlc_um_entity_t -> list mac_tb -> rlc_um_entity_t -> Prop :=
| chan_nil rx : chan rx [] rx
| chan_cons rx tb ch rx1 rx' :
    (forall c, mem_block_ok c = true -> rlc_um_mac_data_indication c rx [tb] = Ok rx1) ->
    upper_sdus rx `prefix_of` upper_sdus rx1 -> sdu_max_size rx1 = sdu_max_size rx /\ bearer_id rx1 = bearer_id rx ->
    chan rx1 ch rx' -> chan rx (tb :: ch) rx'.

Lemma chan_snoc rx ch rx1 tb rx' :
  chan rx ch rx1 ->
  (forall c, mem_block_ok c = true -> rlc_um_mac_data_indication c rx1 [tb] = Ok rx') ->
  upper_sdus rx1 `prefix_of` upper_sdus rx' -> sdu_max_size rx' = sdu_max_size rx1 /\ bearer_id rx' = bearer_id rx1 ->
  chan rx (ch ++ [tb]) rx'.
Proof.
  intros H Hi Hp Hm. induction H; simpl; [|by eapply chan_cons; eauto].
  eapply chan_cons; eauto. constructor.
Qed.

Lemma chan_upper rx ch rx' : chan rx ch rx' ->
  upper_sdus rx `prefix_of` upper_sdus rx' /\ sdu_max_size rx' = sdu_max_size rx.
Proof.
  induction 1 as [|rx tb ch rx1 rx' _ Hp [Hm _] _ [IH1 IH2]]; [done|].
  split; [by etrans|congruence].
Qed.

Definition link_inv (l : link) : Prop :=
  exists rx', chan (l_rx l) (l_ch l) rx' /\ sync (l_tx l) rx' (l_submitted l).

(** ** Initial states *)

Lemma config_req_init srb cfg rb r0 :
  initialized r0 = false ->
  config_req_rlc_um srb cfg rb (Some r0) =
    Some (rlc_um_configure
      (rlc_um_set_debug_infos ((rlc_um_init r0) <| protocol_state := RLC_DATA_TRANSFER_READY_STATE |>) srb rb)
      (timer_reordering cfg) (sn_field_length cfg) (sn_field_length cfg) (is_mXch cfg)).
Proof.
  intros H. unfold config_req_rlc_um, rlc_um_fsm_notify_event.
  assert (protocol_state (rlc_um_init r0) = RLC_NULL_STATE) as -> by (unfold rlc_um_init; rewrite H; reflexivity).
  reflexivity.
Qed.

(** A freshly configured entity: both directions empty. *)
Lemma configured_fresh srb cfg rb r0 r :
  sn_field_length cfg = 10 \/ sn_field_length cfg = 5 -> is_mXch cfg = 0 ->
  initialized r0 = false -> config_req_rlc_um srb cfg rb (Some r0) = Some r ->
  tx_inv r /\ rx_idle r /\ input_sdus r = [] /\ pdus_to_mac_layer r = [] /\
  nb_bytes_requested_by_mac r = 0 /\ tx_sn_length r = rx_sn_length r /\
  rx_sn_length r = sn_field_length cfg /\ rx_sn_modulo r = (if sn_field_length cfg =? 10 then 1024 else 32) /\
  vt_us r = 0 /\ vr_ur r = 0 /\ cur r = [] /\ upper_sdus r = upper_sdus r0 /\
  is_data_plane r = negb srb.
Proof.
  intros Hl Hm H0. rewrite (config_req_init _ _ _ _ H0). intros [= <-]. rewrite Hm.
  unfold rlc_um_init. rewrite H0. unfold cur.
  destruct Hl as [-> | ->]; (split; [split|split; [split|split_and!]]);
    unfold rx_cfg, in_sn_range, sdu_inv; simpl; try reflexivity; try lia; auto; try constructor; done.
Qed.

Lemma init_inv l : link_init l -> link_inv l.
Proof.
  intros [srb cfg rb t0 r0 tx rx Hl Hm Ht Hr Hu Et Er].
  destruct (configured_fresh _ _ _ _ _ Hl Hm Ht Et) as (T & Ti & Tq & Tp & Tn & Tl & Tr & _ & Tv & _).
  destruct (configured_fresh _ _ _ _ _ Hl Hm Hr Er) as (_ & R & _ & _ & _ & _ & Rr & Rm & _ & Ru & Rc & Rup & _).
  exists rx. split; [constructor|]. cbn [l_tx l_rx l_submitted].
  split; try done; rewrite ?Tq, ?Tn, ?Tv, ?Ru, ?Rc; try done.
  - apply Ti.
  - apply Ti.
  - congruence.
  - constructor.
  - simpl. by rewrite Rup, Hu.
Qed.

(** ** Steps *)

Lemma submit_sync c tx rx sub sdu :
  sync tx rx sub -> 1 <= Z.of_nat (length sdu) <= 2047 -> Z.of_nat (length sdu) <= sdu_max_size rx ->
  buffer_occupancy tx + Z.of_nat (length sdu) <= 2 ^ 29 ->
  sync (rlc_um_data_req c tx sdu) rx (sub ++ [sdu]).
Proof.
  intros [T Rd Ti Ou Nb R Ln Sn Cu Fi Da] H1 H2 H3.
  pose proof (data_req_inv c tx sdu T ltac:(lia) H3) as T'.
  revert T'. unfold rlc_um_data_req. rewrite u16_small by lia. intros T'.
  split; try done; cbn [input_sdus].
  - rewrite Cu. change (input_sdus (upd _ _ _)) with (input_sdus tx ++ [mk_tx_sdu sdu (frame c) (Z.of_nat (length sdu)) 0 (Z.of_nat (length sdu))]).
    by destruct (input_sdus tx).
  - apply Forall_app. split; [done|]. repeat constructor; simpl; lia.
  - change (upper_sdus rx ++ (sdu_bytes <$> input_sdus tx ++ [mk_tx_sdu sdu (frame c) (Z.of_nat (length sdu)) 0 (Z.of_nat (length sdu))]) = sub ++ [sdu]).
    by rewrite fmap_app, app_assoc, Da.
Qed.

Lemma status_sync c tx rx sub tbs :
  sync tx rx sub -> 0 <= tbs < 2 ^ 15 ->
  exists resp, rlc_um_mac_status_indication c (Some tx) tbs =
    Ok (resp, Some (tx <| nb_bytes_requested_by_mac := tbs |>)) /\
    sync (tx <| nb_bytes_requested_by_mac := tbs |>) rx sub.
Proof.
  intros [T Rd Ti Ou Nb R Ln Sn Cu Fi Da] H. eexists. split.
  - unfold rlc_um_mac_status_indication, rlc_um_check_timer_dar_time_out. rewrite Ti. cbn [negb mbind res_bind].
    by rewrite u16_small by lia.
  - split; try done. destruct T. by split.
Qed.

(** An acceptable grant leaves no unwritten byte at the end of the PDU. *)
Lemma grant_ok_cut r (full : list rlc_um_tx_sdu_t) size slack n :
  grant_ok r = true -> test_num_li (tx_count r) = Z.of_nat (length full) ->
  c_pdu_remaining_size (tx_count r) = size - tx_header_min_length_in_bytes r - slack ->
  c_data_pdu_size (tx_count r) = n -> (length full < 24)%nat /\ n = size - slack.
Proof.
  intros [G1%Z.ltb_lt G2%Z.eqb_eq]%andb_true_iff N P D.
  unfold RLC_UM_SEGMENT_NB_MAX_LI_PER_PDU in G1. lia.
Qed.

(** No PDU: the grant is too small or nothing is queued. *)
Lemma get_pdus_idle c g r :
  tx_inv r -> protocol_state r = RLC_DATA_TRANSFER_READY_STATE -> 0 <= nb_bytes_requested_by_mac r < 2 ^ 15 ->
  input_sdus r = [] \/ nb_bytes_requested_by_mac r <= tx_header_min_length_in_bytes r ->
  rlc_um_get_pdus c g r = Ok r.
Proof.
  intros T Rd Nb H. unfold rlc_um_get_pdus. rewrite Rd, Z.eqb_refl.
  unfold rlc_um_segment_10, rlc_um_segment_5. rewrite s32_small by lia.
  destruct (tx_cfg _ T) as [[E E']|[E E']]; rewrite E; rewrite E' in H.
  - change (10 =? 10) with true. cbv iota. destruct (Z.ltb_spec (nb_bytes_requested_by_mac r) 3).
    + cbn [mbind res_bind]. by rewrite E.
    + destruct H as [-> |H]; [|lia]. cbn [mbind res_bind]. by rewrite E.
  - change (5 =? 10) with false. cbn [mbind res_bind]. rewrite E. change (5 =? 5) with true. cbv iota.
    rewrite s32_small by lia.
    destruct (Z.ltb_spec (nb_bytes_requested_by_mac r) 2); [done|]. by destruct H as [-> |H]; [|lia].
Qed.

Lemma get_pdus_segment c g r r' :
  tx_inv r -> protocol_state r = RLC_DATA_TRANSFER_READY_STATE ->
  segment c g r = Ok r' -> tx_sn_length r' = tx_sn_length r -> rlc_um_get_pdus c g r = Ok r'.
Proof.
  intros T Rd. unfold segment, rlc_um_get_pdus. rewrite Rd, Z.eqb_refl.
  destruct (tx_cfg _ T) as [[E _]|[E _]]; rewrite E.
  - change (10 =? 10) with true. cbv iota. intros -> E'. cbn [mbind res_bind]. by rewrite E'.
  - change (5 =? 10) with false. cbn [mbind res_bind]. by rewrite E.
Qed.

(** The fields [tx_inv] reads. *)
Definition tx_key (r : rlc_um_entity_t) :=
  (tx_sn_length r, tx_header_min_length_in_bytes r, input_sdus r, buffer_occupancy r, vt_us r).

Lemma tx_inv_ext r r' : tx_key r' = tx_key r -> tx_inv r -> tx_inv r'.
Proof. unfold tx_key. intros [= E1 E2 E3 E4 E5] []. split; congruence. Qed.

Lemma after_segment_frame r full s rest p pdu :
  let r1 := after_segment r full s rest p pdu in
  tx_sn_length r1 = tx_sn_length r /\ protocol_state r1 = protocol_state r /\
  t_reordering r1 = t_reordering r /\ nb_bytes_requested_by_mac r1 = nb_bytes_requested_by_mac r /\
  vt_us r1 = u16 (vt_us r + 1) /\ input_sdus r1 = queue_after s p rest /\
  pdus_to_mac_layer r1 = pdus_to_mac_layer r ++ [mk_tb pdu (Z.of_nat (length pdu))].
Proof. done. Qed.

Lemma delivered_queue full s p rest :
  delivered_by full s p ++ (sdu_bytes <$> queue_after s p rest) = sdu_bytes <$> full ++ s :: rest.
Proof.
  unfold delivered_by, queue_after. rewrite fmap_app, <- app_assoc. by destruct (p =? sdu_remaining_size s).
Qed.

Lemma queue_after_fits m full s p rest :
  queue_fits m (full ++ s :: rest) -> queue_fits m (queue_after s p rest).
Proof.
  intros [_ [Hs Hr]%Forall_cons]%Forall_app. unfold queue_after.
  destruct (p =? sdu_remaining_size s); [done|]. by apply Forall_cons.
Qed.

Lemma next_vt_sn rx vt : rx_cfg rx -> vt mod rx_sn_modulo rx = vr_ur rx ->
  u16 (vt + 1) mod rx_sn_modulo rx = next_sn rx.
Proof.
  intros C E. unfold next_sn. rewrite <- E. unfold u16. destruct (cfg_MW _ C) as [[-> _]|[-> _]]; mod_lia.
Qed.

(** Fetching with an acceptable grant: nothing happens, or one PDU leaves
    that carries the idle receiver on. *)
Lemma request_sync c g tx rx sub :
  sync tx rx sub -> mem_block_ok c = true -> grant_ok tx = true ->
  exists req tx', rlc_um_mac_data_request c g tx = Ok (req, tx') /\
    ((dr_data req = [] /\ sync tx' rx sub /\ remaining (input_sdus tx') = remaining (input_sdus tx) /\
       (input_sdus tx = [] \/ nb_bytes_requested_by_mac tx <= tx_header_min_length_in_bytes tx)) \/
     exists tb rx', dr_data req = [tb] /\ sync tx' rx' sub /\ chan rx [tb] rx' /\
       remaining (input_sdus tx') < remaining (input_sdus tx)).
Proof.
  intros S Hm Hg. pose proof S as [T Rd Ti Ou Nb R Ln Sn Cu Fi Da].
  unfold rlc_um_mac_data_request.
  destruct (decide (input_sdus tx = [] \/ nb_bytes_requested_by_mac tx <= tx_header_min_length_in_bytes tx)) as [H|H].
  { rewrite (get_pdus_idle c g tx T Rd Nb H). cbn [mbind res_bind]. rewrite Ou. cbn [count_tx_pdus mbind res_bind].
    eexists _, _. split; [reflexivity|]. left. split; [done|]. split; [|done].
    split; try done. destruct T. by split. }
  assert (Hh : tx_header_min_length_in_bytes tx < nb_bytes_requested_by_mac tx < 2 ^ 31) by lia.
  destruct (segment_spec c g tx T ltac:(tauto) Hm Hh)
    as (full & s & rest & p & slack & trail & C & Ht & Hs & Hl & N & P & D & E). cbv zeta in *.
  destruct (grant_ok_cut tx full _ _ _ Hg N P D) as [H24 Hsl].
  pose proof (after_segment_inv _ _ _ _ _ (pdu_of (tx_sn_length tx) (input_sdus tx) full s p (vt_us tx) trail) _ _ _ T C) as T'.
  set (pdu := pdu_of _ _ _ _ _ _ trail) in *.
  assert (Htrail : trail = []).
  { assert (Z.of_nat (length trail) = 0); [|by destruct trail].
    rewrite Ht. destruct (Z.eqb_spec (tx_sn_length tx) 10); [lia|done]. }
  subst trail.
  destruct (after_segment_frame tx full s rest p pdu) as (F1 & F2 & F3 & F4 & F5 & F6 & F7).
  set (r1 := after_segment tx full s rest p pdu) in *. clearbody r1.
  rewrite (get_pdus_segment c g tx _ T Rd E F1). cbn [mbind res_bind].
  rewrite F7, Ou. cbn [app count_tx_pdus tb_size]. rewrite s16_small by lia.
  rewrite (proj2 (Z.ltb_lt 0 (Z.of_nat (length pdu)))) by lia. cbn [assert_fatal mbind res_bind].
  destruct (idle_receive rx full s rest p (vt_us tx) 1 (choose_pdu_size tx (nb_bytes_requested_by_mac tx) - tx_header_min_length_in_bytes tx) slack)
    as (rx' & Hi & I' & Eu & Em & El & Ex & Up & Cu' & Eb); rewrite <- ?(cut_queue _ _ _ _ _ _ _ _ C); try done.
  { apply T. }
  { apply T. }
  { rewrite <- Ln. fold pdu. lia. }
  rewrite <- (cut_queue _ _ _ _ _ _ _ _ C), <- Ln in Hi. fold pdu in Hi.
  pose proof (cut_queue _ _ _ _ _ _ _ _ C) as Q. pose proof (cut_p _ _ _ _ _ _ _ _ C) as Hp.
  eexists _, _. split; [reflexivity|]. right. eexists _, rx'. split; [reflexivity|]. split_and!.
  - split; try done.
    + by apply (tx_inv_ext r1).
    + change (protocol_state r1 = RLC_DATA_TRANSFER_READY_STATE). congruence.
    + change (running (t_reordering r1) = false). congruence.
    + change (0 <= nb_bytes_requested_by_mac r1 < 2 ^ 15). by rewrite F4.
    + change (tx_sn_length r1 = rx_sn_length rx'). congruence.
    + change (vt_us r1 mod rx_sn_modulo rx' = vr_ur rx'). rewrite Em, Eu, F5.
      by apply next_vt_sn; [apply R|].
    + change (cur rx' = sent_prefix (input_sdus r1)). by rewrite F6.
    + change (queue_fits (sdu_max_size rx') (input_sdus r1)). rewrite Ex, F6.
      apply (queue_after_fits _ full). by rewrite <- Q.
    + change (upper_sdus rx' ++ (sdu_bytes <$> input_sdus r1) = sub).
      by rewrite F6, Up, <- app_assoc, delivered_queue, <- Q.
  - eapply chan_cons; [exact Hi|rewrite Up; by eexists|done|constructor].
  - change (remaining (input_sdus r1) < remaining (input_sdus tx)). rewrite F6, Q.
    pose proof (tx_sdus _ T) as Sd. rewrite Q in Sd. apply Forall_app in Sd as [Sf _].
    pose proof (remaining_ge _ Sf). rewrite remaining_app, remaining_cons.
    unfold queue_after. destruct (Z.eqb_spec p (sdu_remaining_size s)); [lia|].
    rewrite remaining_cons. change (sdu_remaining_size (advance_sdu s p)) with (sdu_remaining_size s - p). lia.
Qed.

Lemma chan_app rx ch rx1 ch' rx' : chan rx ch rx1 -> chan rx1 ch' rx' -> chan rx (ch ++ ch') rx'.
Proof. induction 1; simpl; [done|]. intros. eapply chan_cons; eauto. Qed.

Lemma step_inv l l' : link_inv l -> link_step l l' -> link_inv l'.
Proof.
  intros (rx' & Ch & S) St. destruct (chan_upper _ _ _ Ch) as [_ Mx].
  destruct St as [l c sdu (A1 & A2 & A3)|l c tbs resp tx' Ht E|l c g req tx' Hm Hg E|l c tb ch rx1 Hm El E].
  - exists rx'. split; [done|]. apply submit_sync; try done. by rewrite Mx.
  - destruct (status_sync c _ _ _ tbs S Ht) as (resp' & E' & S'). rewrite E' in E.
    injection E as _ <-. by exists rx'.
  - destruct (request_sync c g _ _ _ S Hm Hg) as (req' & tx1 & E' & H). rewrite E' in E.
    injection E as -> ->. unfold link_inv. cbn [l_rx l_ch l_tx l_submitted].
    destruct H as [(-> & S' & _)|(tb & rx1 & -> & S' & Ch1 & _)].
    + exists rx'. by rewrite app_nil_r.
    + exists rx1. split; [by eapply chan_app|done].
  - rewrite El in Ch. inversion Ch as [|? ? ? rx2 ? Hi]; subst.
    rewrite (Hi c Hm) in E. injection E as ->. by exists rx'.
Qed.

Lemma reach_inv l : link_reach l -> link_inv l.
Proof. induction 1; [by apply init_inv|by eapply step_inv]. Qed.

(** ** Draining *)

(** The steps MAC takes on its own: no new SDU. *)
Definition mac_step (l l' : link) : Prop :=
  link_step l l' /\ l_submitted l' = l_submitted l.

(** A grant of one byte of payload is always acceptable. *)
Lemma min_grant_ok tx : tx_inv tx -> grant_ok (tx <| nb_bytes_requested_by_mac := tx_header_min_length_in_bytes tx + 1 |>) = true.
Proof.
  intros T. pose proof T as [Cf Sd Tl Bo Bm Vt]. set (h := tx_header_min_length_in_bytes tx) in *.
  set (r := tx <| nb_bytes_requested_by_mac := h + 1 |>).
  assert (Hh : h = 1 \/ h = 2) by tauto.
  destruct (input_sdus tx) as [|s q] eqn:Eq.
  { unfold grant_ok, tx_count, count_10, count_5. change (input_sdus r) with (input_sdus tx). rewrite Eq.
    change (tx_header_min_length_in_bytes r) with h. change (tx_sn_length r) with (tx_sn_length tx).
    destruct Cf as [[-> Eh]|[-> Eh]]; rewrite Eh; simpl; apply Z.eqb_eq; lia. }
  assert (T' : tx_inv r) by by apply (tx_inv_ext tx).
  pose proof (choose_pdu_size_spec r (h + 1) T') as Hc. cbv zeta in Hc.
  assert (Hs : choose_pdu_size r (h + 1) = h + 1).
  { change (tx_header_min_length_in_bytes r) with h in Hc. change (input_sdus r) with (input_sdus tx) in Hc.
    rewrite Eq in Hc. destruct Hc as [Hc _]; [done|lia|lia]. }
  assert (Hsz : 1 <= sdu_remaining_size s) by (apply Forall_cons in Sd as [[] _]; lia).
  unfold grant_ok, tx_count, count_10, count_5. change (nb_bytes_requested_by_mac r) with (h + 1).
  change (tx_header_min_length_in_bytes r) with h. change (tx_sn_length r) with (tx_sn_length tx).
  change (input_sdus r) with (input_sdus tx). rewrite Hs, Eq.
  assert (Hst : forall adj st, test_pdu_remaining_size st = 1 -> count_pass adj (s :: q) st = count_last st).
  { intros adj st Ht. cbn [count_pass]. unfold count_step. rewrite Ht.
    destruct (Z.ltb_spec 1 (sdu_remaining_size s)); [done|].
    by rewrite (proj2 (Z.eqb_eq (sdu_remaining_size s) 1)) by lia. }
  destruct Cf as [[-> Eh]|[-> Eh]]; rewrite Eh; rewrite ?Z.eqb_refl, ?(eq_refl : (5 =? 10) = false), !Hst by done; reflexivity.
Qed.

Definition ctx0 : protocol_ctxt_t := mk_ctxt 0 0 false true true.

Lemma drain_channel tx rx ch rx' sub : chan rx ch rx' ->
  rtc mac_step (mk_link tx ch rx sub) (mk_link tx [] rx' sub).
Proof.
  induction 1 as [|rx tb ch rx1 rx' Hi _ _ _ IH]; [constructor|].
  eapply rtc_l; [|exact IH]. split; [|done].
  by eapply (L_indicate (mk_link tx (tb :: ch) rx sub) ctx0); [| |apply Hi].
Qed.

Lemma drain_queue n tx rx sub :
  sync tx rx sub -> remaining (input_sdus tx) < Z.of_nat n ->
  exists tx' rx', rtc mac_step (mk_link tx [] rx sub) (mk_link tx' [] rx' sub) /\
    input_sdus tx' = [] /\ sync tx' rx' sub.
Proof.
  revert tx rx. induction n as [|n IH]; intros tx rx S Hn.
  { pose proof (remaining_ge _ (tx_sdus _ (sy_tx _ _ _ S))). lia. }
  destruct (decide (input_sdus tx = [])) as [E|E]; [by exists tx, rx; split; [constructor|]|].
  set (h := tx_header_min_length_in_bytes tx).
  assert (Hh : h = 1 \/ h = 2) by (unfold h; destruct (tx_cfg _ (sy_tx _ _ _ S)) as [[_ ->]|[_ ->]]; auto).
  destruct (status_sync ctx0 tx rx sub (h + 1) S ltac:(lia)) as (resp & E1 & S1).
  pose proof (min_grant_ok tx (sy_tx _ _ _ S)) as G. fold h in G.
  set (tx1 := tx <| nb_bytes_requested_by_mac := h + 1 |>) in *.
  destruct (request_sync ctx0 [] tx1 rx sub S1 eq_refl G) as (req & tx2 & E2 & [H|H]).
  { exfalso. destruct H as (_ & _ & _ & [H|H]); [done|].
    change (h + 1 <= h) in H. lia. }
  destruct H as (tb & rx2 & Ed & S2 & Ch & Hr). change (input_sdus tx1) with (input_sdus tx) in Hr.
  destruct (IH tx2 rx2 S2 ltac:(lia)) as (tx' & rx' & R & D). exists tx', rx'. split; [|done].
  eapply rtc_l; [split; [by eapply (L_status _ ctx0 (h + 1)); [lia|exact E1]|done]|].
  eapply rtc_l; [split; [by eapply (L_request (mk_link tx1 [] rx sub) ctx0 []); [| |exact E2]|done]|].
  cbn [l_rx l_ch l_submitted]. rewrite Ed. cbn [app].
  etrans; [by apply drain_channel|done].
Qed.

(** ** The theorems *)

Lemma link_prefix l : link_reach l ->
  upper_sdus (l_rx l) `prefix_of` l_submitted l /\
  (l_ch l = [] -> input_sdus (l_tx l) = [] -> upper_sdus (l_rx l) = l_submitted l).
Proof.
  intros (rx' & Ch & S)%reach_inv. rewrite <- (sy_data _ _ _ S). split.
  - apply prefix_app_r. by apply chan_upper in Ch as [? _].
  - intros Ec Eq. rewrite Ec in Ch. inversion Ch; subst. rewrite Eq. by rewrite app_nil_r.
Qed.

Lemma link_progress l : link_reach l ->
  (forall c tbs, 0 <= tbs < 2 ^ 15 ->
     exists resp tx', rlc_um_mac_status_indication c (Some (l_tx l)) tbs = Ok (resp, Some tx')) /\
  (forall c garbage, mem_block_ok c = true -> grant_ok (l_tx l) = true ->
     exists req tx', rlc_um_mac_data_request c garbage (l_tx l) = Ok (req, tx')) /\
  (forall c tb ch, mem_block_ok c = true -> l_ch l = tb :: ch ->
     exists rx', rlc_um_mac_data_indication c (l_rx l) [tb] = Ok rx').
Proof.
  intros (rx' & Ch & S)%reach_inv. split_and!.
  - intros c tbs H. destruct (status_sync c _ _ _ tbs S H) as (resp & E & _). eauto.
  - intros c g Hm Hg. destruct (request_sync c g _ _ _ S Hm Hg) as (req & tx' & E & _). eauto.
  - intros c tb ch Hm El. rewrite El in Ch. inversion Ch; subst. eauto.
Qed.

(** C3. In-order, byte-exact delivery: whatever the interleaving of
    submissions, grants, fetches and receptions, the SDUs the receiving
    entity has handed to PDCP are a prefix of the SDUs submitted at the other
    end, and all of them once nothing is queued or on the way. *)
Theorem link_in_order l : link_reach l ->
  upper_sdus (l_rx l) `prefix_of` l_submitted l /\
  (l_ch l = [] -> input_sdus (l_tx l) = [] -> upper_sdus (l_rx l) = l_submitted l).
Proof. apply link_prefix. Qed.

(** C7. No handler faults in a reachable state of the link: no assertion of
    the source fails, no byte outside a PDU or an SDU is read or written, and
    no loop runs out of fuel. *)
Theorem link_no_fault l : link_reach l ->
  (forall c tbs, 0 <= tbs < 2 ^ 15 ->
     exists resp tx', rlc_um_mac_status_indication c (Some (l_tx l)) tbs = Ok (resp, Some tx')) /\
  (forall c garbage, mem_block_ok c = true -> grant_ok (l_tx l) = true ->
     exists req tx', rlc_um_mac_data_request c garbage (l_tx l) = Ok (req, tx')) /\
  (forall c tb ch, mem_block_ok c = true -> l_ch l = tb :: ch ->
     exists rx', rlc_um_mac_data_indication c (l_rx l) [tb] = Ok rx').
Proof. apply link_progress. Qed.

(** C6. Liveness: from every reachable state MAC alone, by grants, fetches
    and receptions, can bring the link to a state where everything submitted
    has been delivered. *)
Theorem link_drains l : link_reach l ->
  exists l', rtc mac_step l l' /\ l_ch l' = [] /\ input_sdus (l_tx l') = [] /\
    upper_sdus (l_rx l') = l_submitted l.
Proof.
  intros (rx' & Ch & S)%reach_inv. destruct l as [tx ch rx sub]. cbn [l_tx l_rx l_ch l_submitted] in *.
  destruct (drain_queue (Z.to_nat (remaining (input_sdus tx) + 1)) tx rx' sub S) as (tx' & rx2 & R & Eq & S').
  { pose proof (remaining_ge _ (tx_sdus _ (sy_tx _ _ _ S))). lia. }
  exists (mk_link tx' [] rx2 sub). split; [etrans; [by apply drain_channel|done]|].
  split_and!; try done. cbn [l_rx]. rewrite <- (sy_data _ _ _ S'), Eq. by rewrite app_nil_r.
Qed.

(** *** A concrete run: two SDUs, a grant that cuts the second one *)

Definition cfg10 : rlc_um_info_t := mk_um_info 35 10 0.
Definition fresh_entity : rlc_um_entity_t := memset_zero
  (mk_entity false 0 false 0 0 0 0 0 0 zero_timer 0 0 0 0 0 0 0 0 [] 0 0 [] None 0 [] 0 0
    false false 0 0 0 0 0 0 0 0 0 0 0 0 0 0 0 0 0 []).
Definition entity10 : rlc_um_entity_t :=
  match config_req_rlc_um false cfg10 3 (Some fresh_entity) with Some r => r | None => fresh_entity end.

(** The handlers applied one after the other; a fault leaves the state. *)
Definition run_submit (l : link) (sdu : list Z) : link :=
  mk_link (rlc_um_data_req ctx0 (l_tx l) sdu) (l_ch l) (l_rx l) (l_submitted l ++ [sdu]).
Definition granted (l : link) (tbs : Z) : option (mac_status_resp * rlc_um_entity_t) :=
  match rlc_um_mac_status_indication ctx0 (Some (l_tx l)) tbs with
  | Ok (resp, Some tx) => Some (resp, tx)
  | _ => None
  end.
Definition run_grant (garbage : list Z) (l : link) (tbs : Z) : link :=
  match granted l tbs with
  | Some (_, tx) =>
      match rlc_um_mac_data_request ctx0 garbage tx with
      | Ok (req, tx') => mk_link tx' (l_ch l ++ dr_data req) (l_rx l) (l_submitted l)
      | Fault _ => l
      end
  | None => l
  end.
Definition run_indicate (l : link) : link :=
  match l_ch l with
  | tb :: ch =>
      match rlc_um_mac_data_indication ctx0 (l_rx l) [tb] with
      | Ok rx => mk_link (l_tx l) ch rx (l_submitted l)
      | Fault _ => l
      end
  | [] => l
  end.

Definition link0 : link := mk_link entity10 [] entity10 [].
Definition link1 : link := run_submit (run_submit link0 [1; 2; 3]) [4; 5; 6; 7].
Definition link2 : link := run_grant [] link1 9.
Definition link3 : link := run_indicate link2.

Lemma link0_init : link_init link0.
Proof.
  apply (Link_init false cfg10 3 fresh_entity fresh_entity entity10 entity10);
    [by left|..]; vm_compute; reflexivity.
Qed.

Lemma run_submit_step l sdu : sdu_accepted l sdu -> link_step l (run_submit l sdu).
Proof. apply L_submit. Qed.

Lemma run_indicate_reach l : link_reach l -> link_reach (run_indicate l).
Proof.
  intros H. unfold run_indicate. destruct (l_ch l) as [|tb ch] eqn:E; [done|].
  destruct (rlc_um_mac_data_indication ctx0 (l_rx l) [tb]) eqn:E'; [|done].
  by eapply Reach_step; [|eapply (L_indicate l ctx0)].
Qed.

Lemma run_grant_reach g l tbs :
  link_reach l -> 0 <= tbs < 2 ^ 15 ->
  (if granted l tbs is Some (_, tx) then grant_ok tx else false) = true ->
  link_reach (run_grant g l tbs).
Proof.
  intros H Ht G. unfold run_grant. destruct (granted l tbs) as [[resp tx]|] eqn:Eg; [|exact H].
  unfold granted in Eg.
  destruct (rlc_um_mac_status_indication ctx0 (Some (l_tx l)) tbs) as [[resp' [tx1|]]|] eqn:E; try done.
  injection Eg as -> ->.
  destruct (rlc_um_mac_data_request ctx0 g tx) as [[req tx']|] eqn:E'; [|exact H].
  pose proof (Reach_step _ _ H (L_status l ctx0 tbs resp tx Ht E)) as H1.
  exact (Reach_step _ _ H1 (L_request (mk_link tx (l_ch l) (l_rx l) (l_submitted l)) ctx0 g req tx' eq_refl G E')).
Qed.

Lemma link1_reach : link_reach link1.
Proof.
  unfold link1. eapply Reach_step; [eapply Reach_step; [apply Reach_init, link0_init|]|];
    apply run_submit_step; vm_compute; done.
Qed.

Lemma link2_reach : link_reach link2.
Proof. apply run_grant_reach; [apply link1_reach|lia|vm_compute; reflexivity]. Qed.

Lemma link3_reach : link_reach link3.
Proof. apply run_indicate_reach, link2_reach. Qed.

(** The first PDU carries the first SDU and two bytes of the second. *)
Lemma link_in_order_witness :
  upper_sdus (l_rx link3) = [[1; 2; 3]] /\ l_submitted link3 = [[1; 2; 3]; [4; 5; 6; 7]] /\
  upper_sdus (l_rx link3) `prefix_of` l_submitted link3.
Proof.
  split; [vm_compute; reflexivity|]. split; [vm_compute; reflexivity|].
  exact (proj1 (link_in_order link3 link3_reach)).
Defined.

Lemma link_no_fault_witness :
  exists tb rx', l_ch link2 = [tb] /\ rlc_um_mac_data_indication ctx0 (l_rx link2) [tb] = Ok rx'.
Proof.
  eexists. destruct (proj2 (proj2 (link_no_fault link2 link2_reach)) ctx0 _ [] eq_refl ltac:(vm_compute; reflexivity)) as [rx' E].
  exists rx'. split; [vm_compute; reflexivity|exact E].
Defined.

Lemma link_drains_witness :
  exists l', rtc mac_step link3 l' /\ upper_sdus (l_rx l') = [[1; 2; 3]; [4; 5; 6; 7]].
Proof.
  destruct (link_drains link3 link3_reach) as (l' & R & _ & _ & E).
  exists l'. split; [exact R|]. rewrite E. vm_compute. reflexivity.
Defined.

(** ** Outside the acceptable grants *)

(** The 10-bit segmentation does not shorten the PDU when the counting
    pass gives bytes back: with two 10-byte SDUs queued and a grant of 14
    bytes the PDU ends with two bytes the code never wrote, and the receiver
    delivers them as the end of the first SDU. [rlc_um_segment_5] shortens
    the PDU in the same case. *)
Theorem um10_trailing_bytes_delivered garbage1 garbage2 :
  let sdu := [0; 1; 2; 3; 4; 5; 6; 7; 8; 9] in
  let l := run_submit (run_submit link0 sdu) sdu in
  let l' := run_indicate (run_grant (replicate 8 0 ++ [garbage1; garbage2]) l 14) in
  upper_sdus (l_rx l') = [sdu ++ [garbage1; garbage2]].
Proof. vm_compute. reflexivity. Qed.

End RlcUmSystem.
