(* ===== verification/RlcUmClaims.v ===== *)
(** * RLC UM: what one entity guarantees

    Theorems about a single entity: its state machine, its configuration,
    the absence of faults on well-formed PDUs (lost, repeated, reordered) and
    the faults of others, the window tests, the discard of stale PDUs, the PDU
    it builds for a grant and what a receiver reads in that PDU. *)

From S2P Require Import Prelude RlcUmEntity RlcUmDar RlcUmWindow RlcUmReasm RlcUmRxInv.
From S2P Require Import RlcUmSegment RlcUmTx RlcUmTop RlcUmPdu RlcUmSem RlcUmLink RlcUmSystem RlcUmWellFormed.

Module RlcUmClaims.
Import RlcUm RlcUmDar RlcUmWindow RlcUmReasm RlcUmRxInv RlcUmSegment RlcUmTx RlcUmTop RlcUmPdu.
Import RlcUmSem RlcUmLink RlcUmSystem RlcUmWellFormed.

(** ** The protocol state machine *)

(** The transitions of the state diagram of TS 25.322 that rlc_um_fsm.c
    implements: state, event, next state. *)
Inductive um_transition : Z -> Z -> Z -> Prop :=
| T_configure : um_transition RLC_NULL_STATE
    RLC_UM_RECEIVE_CRLC_CONFIG_REQ_ENTER_DATA_TRANSFER_READY_STATE_EVENT RLC_DATA_TRANSFER_READY_STATE
| T_release s : s = RLC_DATA_TRANSFER_READY_STATE \/ s = RLC_LOCAL_SUSPEND_STATE ->
    um_transition s RLC_UM_RECEIVE_CRLC_CONFIG_REQ_ENTER_NULL_STATE_EVENT RLC_NULL_STATE
| T_suspend e : e = RLC_UM_RECEIVE_CRLC_SUSPEND_REQ_EVENT \/ e = RLC_UM_TRANSMIT_CRLC_SUSPEND_CNF_EVENT ->
    um_transition RLC_DATA_TRANSFER_READY_STATE e RLC_LOCAL_SUSPEND_STATE
| T_resume : um_transition RLC_LOCAL_SUSPEND_STATE RLC_UM_RECEIVE_CRLC_RESUME_REQ_EVENT
    RLC_DATA_TRANSFER_READY_STATE.

Ltac eqb_cases :=
  repeat match goal with
  | |- context [Z.eqb ?a ?b] => destruct (Z.eqb_spec a b)
  | H : context [Z.eqb ?a ?b] |- _ => destruct (Z.eqb_spec a b)
  end.

(** The FSM implements exactly the transition relation: an event is
    accepted (return value 1) and moves the state as the relation says, or it
    is refused (return value 0) with the entity unchanged and no transition
    exists; [macphy_exit] is called exactly for a refused event in the NULL
    state. *)
Lemma um_fsm_correct r e :
  let '(ret, exited, r') := rlc_um_fsm_notify_event r e in
  (ret = 1 /\ um_transition (protocol_state r) e (protocol_state r') /\
     r' = r <| protocol_state := protocol_state r' |> /\ exited = false) \/
  (ret = 0 /\ r' = r /\ ~ (exists s', um_transition (protocol_state r) e s') /\
     (exited = true <-> protocol_state r = RLC_NULL_STATE)).
Proof.
  unfold rlc_um_fsm_notify_event. cbv zeta.
  assert (N : forall s s' : Z, um_transition s e s' ->
    (s = 0 /\ e = 1) \/ ((s = 1 \/ s = 8) /\ e = 0) \/ (s = 1 /\ (e = 16 \/ e = 17)) \/ (s = 8 /\ e = 18)).
  { intros s s' []; unfold RLC_NULL_STATE, RLC_DATA_TRANSFER_READY_STATE, RLC_LOCAL_SUSPEND_STATE,
      RLC_UM_RECEIVE_CRLC_CONFIG_REQ_ENTER_DATA_TRANSFER_READY_STATE_EVENT,
      RLC_UM_RECEIVE_CRLC_CONFIG_REQ_ENTER_NULL_STATE_EVENT, RLC_UM_RECEIVE_CRLC_SUSPEND_REQ_EVENT,
      RLC_UM_TRANSMIT_CRLC_SUSPEND_CNF_EVENT, RLC_UM_RECEIVE_CRLC_RESUME_REQ_EVENT in *; lia. }
  unfold RLC_NULL_STATE, RLC_DATA_TRANSFER_READY_STATE, RLC_LOCAL_SUSPEND_STATE,
      RLC_UM_RECEIVE_CRLC_CONFIG_REQ_ENTER_DATA_TRANSFER_READY_STATE_EVENT,
      RLC_UM_RECEIVE_CRLC_CONFIG_REQ_ENTER_NULL_STATE_EVENT, RLC_UM_RECEIVE_CRLC_SUSPEND_REQ_EVENT,
      RLC_UM_TRANSMIT_CRLC_SUSPEND_CNF_EVENT, RLC_UM_RECEIVE_CRLC_RESUME_REQ_EVENT.
  eqb_cases; simpl; try lia.
  all: try (right; split_and!; [done|done|intros (s' & H%N); lia|split; [done|lia]]).
  all: left; split_and!; try done; try (by destruct r).
  all: match goal with H : protocol_state _ = _ |- _ => rewrite H end; subst; constructor; auto.
Qed.

(** ** One entity under any well-formed traffic *)

Record um_inv (r : rlc_um_entity_t) : Prop := {
  um_rx : rx_inv r;
  um_tx : tx_inv r;
  um_ready : protocol_state r = RLC_DATA_TRANSFER_READY_STATE;
  um_out : pdus_to_mac_layer r = [];
  um_nb : 0 <= nb_bytes_requested_by_mac r < 2 ^ 15
}.

Lemma configure_inv r0 srb rb t rxl txl :
  initialized r0 = false -> rxl = 10 \/ rxl = 5 -> txl = 10 \/ txl = 5 ->
  let r := rlc_um_configure
    (rlc_um_set_debug_infos ((rlc_um_init r0) <| protocol_state := RLC_DATA_TRANSFER_READY_STATE |>) srb rb)
    t rxl txl 0 in
  um_inv r /\ rx_sn_length r = rxl /\ tx_sn_length r = txl /\ input_sdus r = [] /\
  ms_duration (t_reordering r) = u32 t.
Proof.
  intros H0 Hr Ht. unfold rlc_um_init. rewrite H0.
  destruct Hr as [-> | ->], Ht as [-> | ->]; cbv zeta;
    (split; [split; [split; [split|]|split|..]|split_and!]);
    unfold rx_cfg, in_sn_range, sdu_inv; cbn -[replicate lookup]; try reflexivity; try lia; auto;
    try (by constructor); try done.
  all: intros i tb H; apply lookup_replicate in H as [? _]; done.
Qed.

(** The receiver's invariant does not read the transmitting side. *)
Lemma rx_inv_ctl r r' :
  ctl r' = ctl r -> output_sdu_in_construction r' = output_sdu_in_construction r ->
  output_sdu_size_to_write r' = output_sdu_size_to_write r -> rx_inv r -> rx_inv r'.
Proof.
  intros F E1 E2 [K T]. unfold ctl in F.
  assert (EM : rx_sn_modulo r' = rx_sn_modulo r) by congruence.
  assert (EH : vr_uh r' = vr_uh r) by congruence.
  assert (EB : forall x, back r' x = back r x) by (intros x; unfold back; congruence).
  assert (ER : vr_ur r' = vr_ur r) by congruence. assert (EX : vr_ux r' = vr_ux r) by congruence.
  assert (EW : rx_um_window_size r' = rx_um_window_size r) by congruence.
  assert (EL : rx_sn_length r' = rx_sn_length r) by congruence.
  assert (ED : dar_buffer r' = dar_buffer r) by congruence.
  assert (ET : t_reordering r' = t_reordering r) by congruence.
  split; [|by rewrite ET, !EB, EX, ER]. destruct K as [C Ur Uh Ux Wd Dl Dr Sd].
  split; unfold rx_cfg, in_sn_range, sdu_inv in *;
    rewrite ?EM, ?EW, ?EH, ?ER, ?EX, ?EB, ?ED, ?EL, ?E1, ?E2; try done.
  intros i tb H. rewrite EB. auto.
Qed.

(** What MAC and PDCP can ask of an entity. *)
Inductive um_event : Type :=
| Ev_data_req (sdu : list Z)
| Ev_status (tbs : Z)
| Ev_request (garbage : list Z)
| Ev_indication (tbs : list mac_tb).

Definition um_handle (c : protocol_ctxt_t) (r : rlc_um_entity_t) (ev : um_event) :
    res rlc_um_entity_t :=
  match ev with
  | Ev_data_req sdu => Ok (rlc_um_data_req c r sdu)
  | Ev_status tbs =>
      '(_, r') ← rlc_um_mac_status_indication c (Some r) tbs;
      of_option OutOfBounds r'
  | Ev_request garbage => snd <$> rlc_um_mac_data_request c garbage r
  | Ev_indication tbs => rlc_um_mac_data_indication c r tbs
  end.

(** The traffic the theorems cover: SDUs of 1 to 65535 bytes while the queue
    stays within 2^29 bytes, grants of a 16-bit signed size, well-formed PDUs
    in the sense of RlcUmWellFormed.v. *)
Definition ev_ok (r : rlc_um_entity_t) (ev : um_event) : Prop :=
  match ev with
  | Ev_data_req sdu =>
      1 <= Z.of_nat (length sdu) < 2 ^ 16 /\ buffer_occupancy r + Z.of_nat (length sdu) <= 2 ^ 29
  | Ev_status tbs => 0 <= tbs < 2 ^ 15
  | Ev_request _ => True
  | Ev_indication tbs => Forall (well_formed (rx_sn_length r)) tbs
  end.

(** The receiving handlers keep the transmitting side. *)
Lemma um_inv_side r r' : side r' = side r -> rx_inv r' -> um_inv r -> um_inv r'.
Proof.
  intros S I [R T Rd Ou Nb]. unfold side, txs in S.
  split; try done; try congruence.
  apply (tx_inv_ext r); [|done]. unfold tx_key. congruence.
Qed.

Lemma data_req_um c r sdu : um_inv r -> ev_ok r (Ev_data_req sdu) -> um_inv (rlc_um_data_req c r sdu).
Proof.
  intros [R T Rd Ou Nb] [H1 H2].
  split; [by apply (rx_inv_ctl r)|by apply data_req_inv|exact Rd|exact Ou|exact Nb].
Qed.

Lemma status_um c r tbs : um_inv r -> ev_ok r (Ev_status tbs) ->
  exists r', um_handle c r (Ev_status tbs) = Ok r' /\ um_inv r'.
Proof.
  intros I H. simpl in H. unfold um_handle, rlc_um_mac_status_indication.
  destruct (check_timer_ok c r (um_rx _ I)) as (r1 & -> & I1 & S1). cbn [mbind res_bind].
  rewrite u16_small by lia. eexists. split; [reflexivity|].
  destruct (um_inv_side r r1 S1 I1 I) as [R T Rd Ou Nb].
  split; try done; [by apply (rx_inv_ctl r1)|by apply (tx_inv_ext r1)].
Qed.

Lemma indication_um c r tbs : um_inv r -> ev_ok r (Ev_indication tbs) ->
  exists r', um_handle c r (Ev_indication tbs) = Ok r' /\ um_inv r'.
Proof.
  intros I H.
  destruct (mac_data_indication_ok c r tbs (um_rx _ I)) as (r' & E & I' & S').
  { apply (Forall_impl _ _ _ H). intros tb. apply well_formed_pdu_ok. }
  exists r'. split; [exact E|by apply (um_inv_side r)].
Qed.

(** ** The PDU built for a grant *)

(** No memory block: the SDUs stay queued. *)
Lemma get_pdus_no_mem c g r :
  protocol_state r = RLC_DATA_TRANSFER_READY_STATE -> mem_block_ok c = false ->
  rlc_um_get_pdus c g r = Ok r.
Proof.
  intros Rd Hm. unfold rlc_um_get_pdus. rewrite Rd, Z.eqb_refl.
  assert (rlc_um_segment_10 c g r = Ok r /\ rlc_um_segment_5 c g r = Ok r) as [E1 E2].
  { unfold rlc_um_segment_10, rlc_um_segment_5. rewrite Hm. cbn [negb]. cbv zeta.
    split; (case_match; [done|]); by destruct (input_sdus r). }
  rewrite E1. destruct (tx_sn_length r =? 10); cbn [mbind res_bind]; rewrite E2; by case_match.
Qed.

(** Fetching: no PDU, or one PDU that cuts the queue. *)
Lemma request_spec c g r : um_inv r ->
  exists req r', rlc_um_mac_data_request c g r = Ok (req, r') /\ um_inv r' /\
    ((dr_data req = [] /\ input_sdus r' = input_sdus r /\ vt_us r' = vt_us r /\
      (mem_block_ok c = false \/ input_sdus r = [] \/
       nb_bytes_requested_by_mac r <= tx_header_min_length_in_bytes r)) \/
     mem_block_ok c = true /\ tx_header_min_length_in_bytes r < nb_bytes_requested_by_mac r /\
     exists full s rest p trail,
       let pdu := pdu_of (tx_sn_length r) (input_sdus r) full s p (vt_us r) trail in
       input_sdus r = full ++ s :: rest /\ 1 <= p <= sdu_remaining_size s /\
       dr_data req = [mk_tb pdu (Z.of_nat (length pdu))] /\
       Z.of_nat (length pdu) <= nb_bytes_requested_by_mac r /\
       Z.of_nat (length trail) <= 2 /\ (trail <> [] -> tx_sn_length r = 10 /\ p = sdu_remaining_size s) /\
       input_sdus r' = queue_after s p rest /\ vt_us r' = u16 (vt_us r + 1)).
Proof.
  intros I. pose proof I as [R T Rd Ou Nb]. unfold rlc_um_mac_data_request.
  assert (Same : rlc_um_get_pdus c g r = Ok r -> exists req r',
    rlc_um_mac_data_request c g r = Ok (req, r') /\ um_inv r' /\ dr_data req = [] /\
    input_sdus r' = input_sdus r /\ vt_us r' = vt_us r).
  { intros E. unfold rlc_um_mac_data_request. rewrite E. cbn [mbind res_bind]. rewrite Ou.
    cbn [count_tx_pdus mbind res_bind]. do 2 eexists. split; [reflexivity|]. split; [|done].
    split; try done; [by apply (rx_inv_ctl r)|by apply (tx_inv_ext r)]. }
  destruct (mem_block_ok c) eqn:Hm.
  2: { destruct (Same (get_pdus_no_mem c g r Rd Hm)) as (req & r' & E & I' & H1 & H2 & H3).
       exists req, r'. split; [exact E|]. split; [done|]. left. auto. }
  destruct (decide (input_sdus r = [] \/ nb_bytes_requested_by_mac r <= tx_header_min_length_in_bytes r)) as [H|H].
  { destruct (Same (get_pdus_idle c g r T Rd Nb H)) as (req & r' & E & I' & H1 & H2 & H3).
    exists req, r'. split; [exact E|]. split; [done|]. left. auto. }
  clear Same.
  destruct (segment_spec c g r T ltac:(tauto) Hm ltac:(lia))
    as (full & s & rest & p & slack & trail & C & Ht & Hs & Hl & N & P & D & E). cbv zeta in *.
  set (pdu := pdu_of _ _ _ _ _ _ trail) in *.
  pose proof (after_segment_inv _ _ _ _ _ pdu _ _ _ T C) as T'.
  destruct (after_segment_frame r full s rest p pdu) as (F1 & F2 & F3 & F4 & F5 & F6 & F7).
  assert (R1 : rx_inv (after_segment r full s rest p pdu)) by by apply (rx_inv_ctl r).
  set (r1 := after_segment r full s rest p pdu) in *. clearbody r1.
  rewrite (get_pdus_segment c g r _ T Rd E F1). cbn [mbind res_bind].
  rewrite F7, Ou. cbn [app count_tx_pdus tb_size]. rewrite s16_small by lia.
  rewrite (proj2 (Z.ltb_lt 0 (Z.of_nat (length pdu)))) by lia. cbn [assert_fatal mbind res_bind].
  do 2 eexists. split; [reflexivity|]. split.
  { split.
    - by apply (rx_inv_ctl r1).
    - by apply (tx_inv_ext r1).
    - change (protocol_state r1 = RLC_DATA_TRANSFER_READY_STATE). congruence.
    - done.
    - change (0 <= nb_bytes_requested_by_mac r1 < 2 ^ 15). by rewrite F4. }
  right. split; [done|]. split; [lia|].
  exists full, s, rest, p, trail. destruct C as [Q Hp K KL Sz].
  cbv zeta. fold pdu. split_and!; try done; try lia.
  - rewrite Ht. case_match; lia.
  - intros Hne. assert (0 < Z.of_nat (length trail)) by (destruct trail; [done|simpl; lia]).
    rewrite Ht in *. destruct (Z.eqb_spec (tx_sn_length r) 10); [|lia]. auto with lia.
Qed.

Lemma handle_ok c r ev : um_inv r -> ev_ok r ev ->
  exists r', um_handle c r ev = Ok r' /\ um_inv r'.
Proof.
  intros I H. destruct ev as [sdu|tbs|g|tbs].
  - eexists. split; [reflexivity|]. by apply data_req_um.
  - by apply status_um.
  - destruct (request_spec c g r I) as (req & r' & E & I' & _). exists r'. split; [|done].
    simpl. by rewrite E.
  - by apply indication_um.
Qed.

(** The entities reachable from a valid configuration through any sequence
    of covered events, at any times, with or without memory. *)
Inductive um_reach : rlc_um_entity_t -> Prop :=
| UM_configured enb srb ul dl t rb r0 r :
    initialized r0 = false -> ul = 0 \/ ul = 1 -> dl = 0 \/ dl = 1 -> 0 <= t <= 30 ->
    config_req_rlc_um_asn1 enb srb 0 (Some ul) (Some (dl, t)) rb (Some r0) = Ok r -> um_reach r
| UM_handled c r ev r' :
    um_reach r -> ev_ok r ev -> um_handle c r ev = Ok r' -> um_reach r'.

Lemma sn_bits v : v = 0 \/ v = 1 ->
  exists b, sn_FieldLength_bits v = Some b /\ (b = 10 \/ b = 5) /\ b = (if v =? 1 then 10 else 5).
Proof. intros [-> | ->]; eexists; (split; [reflexivity|]); auto. Qed.

Lemma t_reordering_entry t : 0 <= t <= 30 -> exists ms, t_Reordering_tab !! Z.to_nat t = Some ms.
Proof. intros. apply lookup_lt_is_Some. simpl. lia. Qed.

Lemma config_asn1_ok enb srb ul dl t rb r0 :
  initialized r0 = false -> ul = 0 \/ ul = 1 -> dl = 0 \/ dl = 1 -> 0 <= t <= 30 ->
  exists r, config_req_rlc_um_asn1 enb srb 0 (Some ul) (Some (dl, t)) rb (Some r0) = Ok r /\ um_inv r /\
    (if enb then rx_sn_length r = (if ul =? 1 then 10 else 5) /\ tx_sn_length r = (if dl =? 1 then 10 else 5)
     else rx_sn_length r = (if dl =? 1 then 10 else 5) /\ tx_sn_length r = (if ul =? 1 then 10 else 5)) /\
    t_Reordering_tab !! Z.to_nat t = Some (ms_duration (t_reordering r)).
Proof.
  intros H0 Hu Hd Ht. destruct (sn_bits ul Hu) as (u & Eu & Bu & <-), (sn_bits dl Hd) as (d & Ed & Bd & <-).
  destruct (t_reordering_entry t Ht) as [ms Em].
  unfold config_req_rlc_um_asn1, rlc_um_fsm_notify_event. rewrite Eu, Ed, Em.
  assert (protocol_state (rlc_um_init r0) = RLC_NULL_STATE) as -> by (unfold rlc_um_init; rewrite H0; reflexivity).
  assert (Hms : u32 ms = ms).
  { apply u32_small. apply list_elem_of_lookup_2 in Em. revert Em. unfold t_Reordering_tab.
    rewrite !elem_of_cons, elem_of_nil. intros; destruct_or?; subst; done. }
  change (RLC_NULL_STATE =? RLC_NULL_STATE) with true. cbv iota beta zeta.
  destruct enb.
  - destruct (configure_inv r0 srb rb ms u d H0 Bu Bd) as (I & L1 & L2 & _ & D). rewrite Hms in D.
    eexists. split; [reflexivity|]. split; [exact I|]. split; [done|]. f_equal. symmetry. exact D.
  - destruct (configure_inv r0 srb rb ms d u H0 Bd Bu) as (I & L1 & L2 & _ & D). rewrite Hms in D.
    eexists. split; [reflexivity|]. split; [exact I|]. split; [done|]. f_equal. symmetry. exact D.
Qed.

Lemma um_reach_inv r : um_reach r -> um_inv r.
Proof.
  induction 1 as [enb srb ul dl t rb r0 r H0 Hu Hd Ht E|c r ev r' _ IH Hev E].
  - destruct (config_asn1_ok enb srb ul dl t rb r0 H0 Hu Hd Ht) as (r' & E' & I & _). congruence.
  - destruct (handle_ok c r ev IH Hev) as (r1 & E1 & I1). congruence.
Qed.

(** ** The theorems *)


(** A valid RRC configuration (5- or 10-bit SNs, any t-Reordering entry)
    makes the entity ready with its invariant established; the eNB receives
    with the uplink and sends with the downlink length, the UE the other way
    round, and t-Reordering has the duration of the table. *)
Lemma um_configured enb srb ul dl t rb r0 :
  initialized r0 = false -> ul = 0 \/ ul = 1 -> dl = 0 \/ dl = 1 -> 0 <= t <= 30 ->
  exists r, config_req_rlc_um_asn1 enb srb 0 (Some ul) (Some (dl, t)) rb (Some r0) = Ok r /\ um_inv r /\
    (if enb then rx_sn_length r = (if ul =? 1 then 10 else 5) /\ tx_sn_length r = (if dl =? 1 then 10 else 5)
     else rx_sn_length r = (if dl =? 1 then 10 else 5) /\ tx_sn_length r = (if ul =? 1 then 10 else 5)) /\
    t_Reordering_tab !! Z.to_nat t = Some (ms_duration (t_reordering r)).
Proof. apply config_asn1_ok. Qed.

(** C25. The PDU for a grant. Fetching yields no PDU exactly when there is no
    memory, nothing queued or a grant not larger than the header, and then
    leaves the queue; otherwise it yields one PDU, not larger than the grant:
    the header with the SN, the framing information and the extension bit,
    the length indicators of the SDUs sent to their end, those SDUs' bytes
    and a non-empty part of the next one. The queue keeps the rest, the
    buffer occupancy stays the bytes queued (in [um_inv]), and at most two
    bytes the code never wrote end the PDU, only with 10-bit SNs. *)
Theorem um_pdu_for_grant c g r : um_reach r ->
  exists req r', rlc_um_mac_data_request c g r = Ok (req, r') /\ um_inv r' /\
    ((dr_data req = [] /\ input_sdus r' = input_sdus r /\ vt_us r' = vt_us r /\
      (mem_block_ok c = false \/ input_sdus r = [] \/
       nb_bytes_requested_by_mac r <= tx_header_min_length_in_bytes r)) \/
     mem_block_ok c = true /\ tx_header_min_length_in_bytes r < nb_bytes_requested_by_mac r /\
     exists full s rest p trail,
       let pdu := pdu_of (tx_sn_length r) (input_sdus r) full s p (vt_us r) trail in
       input_sdus r = full ++ s :: rest /\ 1 <= p <= sdu_remaining_size s /\
       dr_data req = [mk_tb pdu (Z.of_nat (length pdu))] /\
       Z.of_nat (length pdu) <= nb_bytes_requested_by_mac r /\
       Z.of_nat (length trail) <= 2 /\ (trail <> [] -> tx_sn_length r = 10 /\ p = sdu_remaining_size s) /\
       input_sdus r' = queue_after s p rest /\ vt_us r' = u16 (vt_us r + 1)).
Proof. intros H. by apply request_spec, um_reach_inv. Qed.

(** The sender's and the receiver's entities of reachable states have SN
    lengths of 10 or 5 bits, and the moduli that go with them. *)
Lemma reach_sn_length r : um_reach r -> rx_sn_length r = 10 \/ rx_sn_length r = 5.
Proof.
  intros H. pose proof (inv_cfg _ (proj1 (um_rx _ (um_reach_inv _ H)))) as C. cfg_cases C; auto.
Qed.

Lemma reach_sn_modulo r : um_reach r ->
  rx_sn_modulo r = if rx_sn_length r =? 10 then 1024 else 32.
Proof.
  intros H. pose proof (inv_cfg _ (proj1 (um_rx _ (um_reach_inv _ H)))) as C.
  cfg_cases C; by rewrite ?A, ?B.
Qed.

Lemma sizes_li_ok full : Forall sdu_ok full -> Forall (fun x => sdu_remaining_size x <= 2047) full ->
  Forall li_ok (sdu_remaining_size <$> full).
Proof.
  intros H1 H2. apply Forall_fmap. rewrite Forall_forall in *. intros x Hx.
  destruct (H1 x Hx). specialize (H2 x Hx). unfold li_ok. simpl. lia.
Qed.

(** C36. The header and the length indicators survive the trip from one
    entity to another with the same SN length. When the transmitter answers a
    grant with a PDU, it has cut its queue into whole SDUs [full] and [p]
    bytes of the next one [s], and the receiver reads in the PDU: the SN
    VT(US) modulo the SN space; an extension bit that is set exactly when
    [full] is not empty; the framing information that says whether the PDU
    starts with the first byte of an SDU and ends with the last one of [s];
    and either, without indicators, the data itself, or, when [full] has
    fewer than 24 SDUs of at most 2047 bytes, the list of their sizes, the
    data pointer on the first byte of the data, and the size of the last
    segment, with the at most two trailing bytes the transmitter adds. *)
Theorem um_header_roundtrip c g tx rx req tx' tb :
  um_reach tx -> um_reach rx -> tx_sn_length tx = rx_sn_length rx ->
  rlc_um_mac_data_request c g tx = Ok (req, tx') -> dr_data req = [tb] ->
  exists full s rest p trail data_p,
    let size := Z.of_nat (length data_p) in
    input_sdus tx = full ++ s :: rest /\ 1 <= p <= sdu_remaining_size s /\
    input_sdus tx' = queue_after s p rest /\ (length trail <= 2)%nat /\
    pdu_sn rx (data_ptr tb) = Ok (Some (vt_us tx mod rx_sn_modulo rx)) /\
    pdu_header rx tb =
      Ok (if (length full =? 0)%nat then 0 else 1,
          framing_info (is_first (input_sdus tx)) (p =? sdu_remaining_size s), size, data_p) /\
    (full = [] -> data_p = payload full s p ++ trail) /\
    (full <> [] -> (length full < 24)%nat -> Forall (fun x => sdu_remaining_size x <= 2047) full ->
     rlc_um_read_length_indicators data_p size =
       Ok (Some (payload full s p ++ trail, sdu_remaining_size <$> full, p + Z.of_nat (length trail)))).
Proof.
  intros Ht Hr HL E Hd. pose proof (um_reach_inv _ Ht) as I.
  destruct (request_spec c g tx I) as (req' & r' & E' & _ & H). rewrite E in E'. injection E' as <- <-.
  destruct H as [(D & _)|(_ & _ & full & s & rest & p & trail & H)]; [congruence|]. cbv zeta in H.
  destruct H as (Q & Hp & D & Hn & Htl & _ & Q' & _). rewrite Hd in D. injection D as ->.
  pose proof (um_nb _ I) as Nb. pose proof (tx_sdus _ (um_tx _ I)) as Hok. rewrite Q in Hok.
  apply Forall_app in Hok as [Hfull [Hs _]%Forall_cons].
  set (data_p := enc_lis None (sdu_remaining_size <$> full) ++ payload full s p ++ trail).
  exists full, s, rest, p, trail, data_p. cbv zeta. unfold pdu_of in *. rewrite HL in *.
  set (fi := framing_info _ _) in *. set (e := negb (length full =? 0)%nat) in *.
  set (pdu := hdr_bytes _ _ _ _ ++ _) in *. cbn [data_ptr].
  destruct (hdr_decode (rx_sn_length rx) fi e (vt_us tx) data_p (reach_sn_length rx Hr) (framing_info_range _ _))
    as (b1 & tl & E1 & He & Hfi & Hdr & Hsn). fold data_p in pdu. fold pdu in E1, Hdr, Hsn.
  split_and!; [done|lia|lia|done|lia| | | |].
  - rewrite (Hsn rx eq_refl). by rewrite (reach_sn_modulo rx Hr).
  - rewrite (pdu_header_eq rx (mk_tb pdu _) b1 tl E1), He, Hfi. cbn [data_ptr tb_size]. rewrite Hdr.
    assert (Hl : Z.of_nat (length pdu) - Z.of_nat (hdr_len (rx_sn_length rx)) = Z.of_nat (length data_p)).
    { unfold pdu, hdr_bytes, hdr_len. rewrite length_app.
      destruct (rx_sn_length rx =? 10); simpl; lia. }
    rewrite Hl. unfold e. by destruct (length full =? 0)%nat.
  - intros ->. done.
  - intros Hne H24 H2047. unfold data_p at 1.
    pose proof (payload_length full s p Hfull Hs ltac:(lia)) as Hpl.
    assert (Hle : (length data_p <= length pdu)%nat) by (unfold pdu; rewrite length_app; lia).
    rewrite read_length_indicators_enc;
      [|by destruct full|by apply sizes_li_ok|by rewrite length_fmap|lia].
    do 3 f_equal. unfold data_p. rewrite !length_app, length_fmap, !Nat2Z.inj_add, Hpl.
    pose proof (proj1 (enc_lis_length (sdu_remaining_size <$> full))) as Hel.
    rewrite length_fmap, (proj1 (li_cost_bytes _)) in Hel. rewrite Hel. unfold remaining. lia.
Qed.

(** C37. The reordering window test is the modular one: SN is accepted iff it
    is one of the [rx_um_window_size] sequence numbers that end just before
    VR(UH), although the source compares truncated remainders that can be
    negative. *)
Theorem um_reordering_window_correct r sn : um_reach r -> 0 <= sn < rx_sn_modulo r ->
  rlc_um_in_reordering_window r sn = 0 <->
  exists k, 1 <= k <= rx_um_window_size r /\ sn = (vr_uh r - k) mod rx_sn_modulo r.
Proof.
  intros H Hsn. pose proof (proj1 (um_rx _ (um_reach_inv _ H))) as K.
  rewrite (in_reordering_window_spec r (inv_cfg _ K) (inv_uh _ K) sn Hsn).
  assert (MW := cfg_MW r (inv_cfg _ K)).
  case_decide as Hd; (split; [|try done]); intros Hx; try done.
  - exists (back r sn). split; [done|]. unfold back. destruct MW as [[E _]|[E _]]; rewrite E in *; mod_lia.
  - destruct Hx as (k & Hk & ->). exfalso. apply Hd. unfold back.
    pose proof (inv_uh _ K) as U. unfold in_sn_range in U.
    destruct MW as [[E E']|[E E']]; rewrite E, E' in *; mod_lia.
Qed.

(** Stale PDUs are discarded: a PDU whose SN lies in the window but below
    VR(UR), or between VR(UR) and VR(UH) with its slot already taken, only
    moves the discard statistics; nothing is delivered or overwritten. *)
Theorem um_stale_pdu_discarded c r tb sn size : um_reach r ->
  pdu_sn r (data_ptr tb) = Ok (Some sn) -> 0 <= sn < rx_sn_modulo r ->
  back r (vr_ur r) < back r sn <= rx_um_window_size r \/
  (0 < back r sn < back r (vr_ur r) /\ exists tb', dar_get r sn = Ok (Some tb')) ->
  rlc_um_receive_process_dar c r tb size =
    Ok (if back r (vr_ur r) <? back r sn
        then r <| stat_rx_data_pdu_out_of_window ::= fun n => u32 (n + 1) |>
               <| stat_rx_data_bytes_out_of_window ::= fun n => u32 (n + size) |>
        else r <| stat_rx_data_pdus_duplicate ::= fun n => u32 (n + 1) |>
               <| stat_rx_data_bytes_duplicate ::= fun n => u32 (n + size) |>).
Proof.
  intros H Hsn Hr Hb. pose proof (proj1 (um_rx _ (um_reach_inv _ H))) as K.
  pose proof (inv_cfg _ K) as C. assert (MW := cfg_MW r C).
  unfold rlc_um_receive_process_dar. rewrite Hsn. cbn [mbind res_bind].
  pose proof (in_window_below_ur r C (inv_uh _ K) (vr_ur r) sn (inv_ur _ K) Hr (inv_window _ K)) as Hw.
  cbv zeta in Hw. unfold dar_store. set (w := rlc_um_in_window r (_ - _) sn _) in *.
  destruct Hb as [Hb|[Hb [tb' Hs]]].
  - assert ((w =? 1) || (w =? 0) = true) as ->.
    { apply orb_true_iff. rewrite !Z.eqb_eq. by apply Hw. }
    cbn [mbind res_bind negb]. by rewrite (proj2 (Z.ltb_lt _ _)) by lia.
  - assert ((w =? 1) || (w =? 0) = false) as ->.
    { apply orb_false_iff. rewrite !Z.eqb_neq. split; intros E; lia. }
    unfold rlc_um_get_pdu_from_dar_buffer. rewrite u16_small by lia. rewrite Hs. cbn [mbind res_bind].
    rewrite (proj2 (in_window_between r C (inv_uh _ K) (vr_ur r) sn (inv_ur _ K) Hr (inv_window _ K)) Hb).
    cbn [mbind res_bind negb Z.eqb]. by rewrite (proj2 (Z.ltb_ge _ _)) by lia.
Qed.

(** *** A concrete history: SN 0, then SN 2 (a hole at 1), an SDU queued and
    a grant of 9 bytes *)

Definition run_ev (r : rlc_um_entity_t) (ev : um_event) : rlc_um_entity_t :=
  match um_handle ctx0 r ev with Ok r' => r' | Fault _ => r end.

Lemma run_ev_reach r ev : um_reach r -> ev_ok r ev -> um_reach (run_ev r ev).
Proof.
  intros H E. unfold run_ev. destruct (um_handle ctx0 r ev) as [r'|] eqn:Eh; [|exact H].
  exact (UM_handled ctx0 r ev r' H E Eh).
Qed.

Definition ex0 : rlc_um_entity_t :=
  match config_req_rlc_um_asn1 true false 0 (Some 1) (Some (1, 7)) 3 (Some fresh_entity) with
  | Ok r => r | Fault _ => fresh_entity end.
Definition ex_pdu (sn : Z) : mac_tb := mk_tb [0; sn; 9; 9] 4.
Definition ex1 : rlc_um_entity_t := run_ev ex0 (Ev_indication [ex_pdu 0; ex_pdu 2]).
Definition ex2 : rlc_um_entity_t := run_ev (run_ev ex1 (Ev_data_req [1; 2; 3])) (Ev_status 9).

Lemma ex0_reach : um_reach ex0.
Proof.
  apply (UM_configured true false 1 1 7 3 fresh_entity ex0);
    [reflexivity|by right|by right|lia|vm_compute; reflexivity].
Qed.

Lemma ex_pdu_well_formed sn : byte_val sn -> well_formed 10 (ex_pdu sn).
Proof.
  intros H. exists 0, [9; 9]. split; [|by left].
  split; [done| |done|unfold hdr_len; simpl; lia|done]. unfold byte_val in *.
  by repeat (apply Forall_cons; split; [lia|]).
Qed.

Lemma ex1_reach : um_reach ex1.
Proof.
  apply run_ev_reach; [apply ex0_reach|].
  change (rx_sn_length ex0) with 10. repeat (apply Forall_cons; split; [by apply ex_pdu_well_formed|]). done.
Qed.

Lemma ex2_reach : um_reach ex2.
Proof.
  apply run_ev_reach; [apply run_ev_reach; [apply ex1_reach|]|]; vm_compute; done.
Qed.

(** Three PDUs that are not well formed: an indicator list that never ends,
    a segment longer than the PDU, a PDU in the middle of an SDU that ends
    with its only indicated segment. *)
Definition bad_lis : mac_tb := mk_tb [4; 0; 0x80] 3.
Definition bad_segment : mac_tb := mk_tb [4; 0; 0; 0x50; 9; 9] 6.
Definition bad_tail : mac_tb := mk_tb [0x1c; 0; 0; 0x20; 9; 9] 6.

Ltac bytes := unfold byte_val; repeat (apply Forall_cons; split; [lia|]); by apply Forall_nil.

Lemma bad_block b1 bytes size :
  size = Z.of_nat (length bytes) + 2 -> size < 2 ^ 16 -> Forall byte_val (b1 :: 0 :: bytes) ->
  pdu_block 10 (mk_tb (b1 :: 0 :: bytes) size) b1 bytes.
Proof. intros -> Hs B. split; unfold hdr_len; simpl; try done; lia. Qed.


Lemma um_configured_witness :
  exists r, config_req_rlc_um_asn1 false true 0 (Some 0) (Some (1, 7)) 3 (Some fresh_entity) = Ok r /\
    rx_sn_length r = 10 /\ tx_sn_length r = 5.
Proof.
  destruct (um_configured false true 0 1 7 3 fresh_entity) as (r & E & _ & [H1 H2] & _);
    [reflexivity|by left|by right|lia|].
  exists r. split; [exact E|]. split; [exact H1|exact H2].
Defined.

Lemma um_pdu_for_grant_witness :
  exists req r', rlc_um_mac_data_request ctx0 [] ex2 = Ok (req, r') /\
    dr_data req = [mk_tb [0; 0; 1; 2; 3] 5] /\ um_inv r'.
Proof.
  destruct (um_pdu_for_grant ctx0 [] ex2 ex2_reach) as (req & r' & E & I & _).
  exists req, r'. split; [exact E|]. split; [|exact I].
  assert (H : dr_data <$> (fst <$> rlc_um_mac_data_request ctx0 [] ex2) = Ok [mk_tb [0; 0; 1; 2; 3] 5])
    by (vm_compute; reflexivity).
  rewrite E in H. by injection H.
Defined.

(** Two SDUs queued and a grant of 9 bytes: the first SDU with its indicator,
    and two of the five bytes of the second one. *)
Definition ex3 : rlc_um_entity_t :=
  run_ev (run_ev (run_ev ex1 (Ev_data_req [1; 2; 3])) (Ev_data_req [4; 5; 6; 7; 8])) (Ev_status 9).
Definition ex3_out : mac_data_req * rlc_um_entity_t :=
  match rlc_um_mac_data_request ctx0 [] ex3 with
  | Ok x => x
  | Fault _ => (mk_data_req [] 0 0, ex3)
  end.

Lemma ex3_reach : um_reach ex3.
Proof.
  apply run_ev_reach; [apply run_ev_reach; [apply run_ev_reach; [apply ex1_reach|]|]|]; vm_compute; done.
Qed.

Lemma um_header_roundtrip_witness :
  dr_data (fst ex3_out) = [mk_tb [0x0c; 0; 0; 0x30; 1; 2; 3; 4; 5] 9] /\
  exists full s rest p trail data_p,
    input_sdus ex3 = full ++ s :: rest /\ 1 <= p <= sdu_remaining_size s /\
    input_sdus (snd ex3_out) = queue_after s p rest /\
    pdu_header ex1 (mk_tb [0x0c; 0; 0; 0x30; 1; 2; 3; 4; 5] 9) =
      Ok (if (length full =? 0)%nat then 0 else 1,
          framing_info (is_first (input_sdus ex3)) (p =? sdu_remaining_size s),
          Z.of_nat (length data_p), data_p) /\
    (full <> [] -> (length full < 24)%nat -> Forall (fun x => sdu_remaining_size x <= 2047) full ->
     rlc_um_read_length_indicators data_p (Z.of_nat (length data_p)) =
       Ok (Some (payload full s p ++ trail, sdu_remaining_size <$> full, p + Z.of_nat (length trail)))).
Proof.
  split; [vm_compute; reflexivity|].
  destruct (um_header_roundtrip ctx0 [] ex3 ex1 (fst ex3_out) (snd ex3_out)
    (mk_tb [0x0c; 0; 0; 0x30; 1; 2; 3; 4; 5] 9) ex3_reach ex1_reach)
    as (full & s & rest & p & trail & d & H1 & H2 & H3 & _ & _ & H4 & _ & H5);
    [vm_compute; reflexivity..|].
  exists full, s, rest, p, trail, d. auto 6.
Defined.

Lemma um_reordering_window_correct_witness :
  rlc_um_in_reordering_window ex1 1020 = 0 /\
  exists k, 1 <= k <= 512 /\ 1020 = (3 - k) mod 1024.
Proof.
  assert (H : rlc_um_in_reordering_window ex1 1020 = 0) by (vm_compute; reflexivity).
  assert (E1 : vr_uh ex1 = 3) by (vm_compute; reflexivity).
  assert (E2 : rx_sn_modulo ex1 = 1024) by (vm_compute; reflexivity).
  assert (E3 : rx_um_window_size ex1 = 512) by (vm_compute; reflexivity).
  split; [exact H|].
  assert (Hr : 0 <= 1020 < rx_sn_modulo ex1) by (rewrite E2; lia).
  destruct (proj1 (um_reordering_window_correct ex1 1020 ex1_reach Hr) H) as (k & Hk & E).
  rewrite E1, E2 in E. rewrite E3 in Hk. exists k. split; [exact Hk|exact E].
Defined.

Lemma um_stale_pdu_discarded_witness :
  exists r', rlc_um_receive_process_dar ctx0 ex1 (ex_pdu 2) 4 = Ok r' /\
    stat_rx_data_pdus_duplicate r' = 1 /\ upper_sdus r' = [[9; 9]].
Proof.
  eexists. split; [apply (um_stale_pdu_discarded ctx0 ex1 (ex_pdu 2) 2 4 ex1_reach)|].
  - reflexivity.
  - vm_compute. done.
  - right. split; [vm_compute; done|]. exists (ex_pdu 2). vm_compute. reflexivity.
  - split; vm_compute; reflexivity.
Defined.

(** A stored PDU with SN = VR(UR) can stay undelivered: SN 5 and 6
    arrive, then SN 517 moves the window so that VR(UR) becomes 6. The PDU
    with SN 6 is in the reception buffer, but the code looks at it only when
    the PDU just received has SN = VR(UR), so that it waits there, SDU and
    all, for t-Reordering to expire. *)
Theorem um_stored_pdu_at_vr_ur_waits :
  let r := run_ev ex0 (Ev_indication [ex_pdu 5; ex_pdu 6; mk_tb [2; 5; 9; 9] 4]) in
  vr_ur r = 6 /\ dar_get r 6 = Ok (Some (ex_pdu 6)) /\ upper_sdus r = [[9; 9]].
Proof. vm_compute. auto. Qed.

End RlcUmClaims.
