(* ===== verification/Snow3g.v ===== *)
(** * SNOW 3G

    openair2/UTIL/OSA/osa_snow3g.c and the S-boxes of osa_rijndael.c. A
    32-bit word is a [Z] below 2^32; every shift to the left is followed by
    the truncation the C types perform. *)

From S2P Require Import Prelude.

Module Snow3g.

(** ** The S-boxes *)

Definition OSA_SR : list Z :=
  [0x63; 0x7C; 0x77; 0x7B; 0xF2; 0x6B; 0x6F; 0xC5; 0x30; 0x01; 0x67; 0x2B; 0xFE; 0xD7; 0xAB; 0x76;
   0xCA; 0x82; 0xC9; 0x7D; 0xFA; 0x59; 0x47; 0xF0; 0xAD; 0xD4; 0xA2; 0xAF; 0x9C; 0xA4; 0x72; 0xC0;
   0xB7; 0xFD; 0x93; 0x26; 0x36; 0x3F; 0xF7; 0xCC; 0x34; 0xA5; 0xE5; 0xF1; 0x71; 0xD8; 0x31; 0x15;
   0x04; 0xC7; 0x23; 0xC3; 0x18; 0x96; 0x05; 0x9A; 0x07; 0x12; 0x80; 0xE2; 0xEB; 0x27; 0xB2; 0x75;
   0x09; 0x83; 0x2C; 0x1A; 0x1B; 0x6E; 0x5A; 0xA0; 0x52; 0x3B; 0xD6; 0xB3; 0x29; 0xE3; 0x2F; 0x84;
   0x53; 0xD1; 0x00; 0xED; 0x20; 0xFC; 0xB1; 0x5B; 0x6A; 0xCB; 0xBE; 0x39; 0x4A; 0x4C; 0x58; 0xCF;
   0xD0; 0xEF; 0xAA; 0xFB; 0x43; 0x4D; 0x33; 0x85; 0x45; 0xF9; 0x02; 0x7F; 0x50; 0x3C; 0x9F; 0xA8;
   0x51; 0xA3; 0x40; 0x8F; 0x92; 0x9D; 0x38; 0xF5; 0xBC; 0xB6; 0xDA; 0x21; 0x10; 0xFF; 0xF3; 0xD2;
   0xCD; 0x0C; 0x13; 0xEC; 0x5F; 0x97; 0x44; 0x17; 0xC4; 0xA7; 0x7E; 0x3D; 0x64; 0x5D; 0x19; 0x73;
   0x60; 0x81; 0x4F; 0xDC; 0x22; 0x2A; 0x90; 0x88; 0x46; 0xEE; 0xB8; 0x14; 0xDE; 0x5E; 0x0B; 0xDB;
   0xE0; 0x32; 0x3A; 0x0A; 0x49; 0x06; 0x24; 0x5C; 0xC2; 0xD3; 0xAC; 0x62; 0x91; 0x95; 0xE4; 0x79;
   0xE7; 0xC8; 0x37; 0x6D; 0x8D; 0xD5; 0x4E; 0xA9; 0x6C; 0x56; 0xF4; 0xEA; 0x65; 0x7A; 0xAE; 0x08;
   0xBA; 0x78; 0x25; 0x2E; 0x1C; 0xA6; 0xB4; 0xC6; 0xE8; 0xDD; 0x74; 0x1F; 0x4B; 0xBD; 0x8B; 0x8A;
   0x70; 0x3E; 0xB5; 0x66; 0x48; 0x03; 0xF6; 0x0E; 0x61; 0x35; 0x57; 0xB9; 0x86; 0xC1; 0x1D; 0x9E;
   0xE1; 0xF8; 0x98; 0x11; 0x69; 0xD9; 0x8E; 0x94; 0x9B; 0x1E; 0x87; 0xE9; 0xCE; 0x55; 0x28; 0xDF;
   0x8C; 0xA1; 0x89; 0x0D; 0xBF; 0xE6; 0x42; 0x68; 0x41; 0x99; 0x2D; 0x0F; 0xB0; 0x54; 0xBB; 0x16].

Definition OSA_SQ : list Z :=
  [0x25; 0x24; 0x73; 0x67; 0xD7; 0xAE; 0x5C; 0x30; 0xA4; 0xEE; 0x6E; 0xCB; 0x7D; 0xB5; 0x82; 0xDB;
   0xE4; 0x8E; 0x48; 0x49; 0x4F; 0x5D; 0x6A; 0x78; 0x70; 0x88; 0xE8; 0x5F; 0x5E; 0x84; 0x65; 0xE2;
   0xD8; 0xE9; 0xCC; 0xED; 0x40; 0x2F; 0x11; 0x28; 0x57; 0xD2; 0xAC; 0xE3; 0x4A; 0x15; 0x1B; 0xB9;
   0xB2; 0x80; 0x85; 0xA6; 0x2E; 0x02; 0x47; 0x29; 0x07; 0x4B; 0x0E; 0xC1; 0x51; 0xAA; 0x89; 0xD4;
   0xCA; 0x01; 0x46; 0xB3; 0xEF; 0xDD; 0x44; 0x7B; 0xC2; 0x7F; 0xBE; 0xC3; 0x9F; 0x20; 0x4C; 0x64;
   0x83; 0xA2; 0x68; 0x42; 0x13; 0xB4; 0x41; 0xCD; 0xBA; 0xC6; 0xBB; 0x6D; 0x4D; 0x71; 0x21; 0xF4;
   0x8D; 0xB0; 0xE5; 0x93; 0xFE; 0x8F; 0xE6; 0xCF; 0x43; 0x45; 0x31; 0x22; 0x37; 0x36; 0x96; 0xFA;
   0xBC; 0x0F; 0x08; 0x52; 0x1D; 0x55; 0x1A; 0xC5; 0x4E; 0x23; 0x69; 0x7A; 0x92; 0xFF; 0x5B; 0x5A;
   0xEB; 0x9A; 0x1C; 0xA9; 0xD1; 0x7E; 0x0D; 0xFC; 0x50; 0x8A; 0xB6; 0x62; 0xF5; 0x0A; 0xF8; 0xDC;
   0x03; 0x3C; 0x0C; 0x39; 0xF1; 0xB8; 0xF3; 0x3D; 0xF2; 0xD5; 0x97; 0x66; 0x81; 0x32; 0xA0; 0x00;
   0x06; 0xCE; 0xF6; 0xEA; 0xB7; 0x17; 0xF7; 0x8C; 0x79; 0xD6; 0xA7; 0xBF; 0x8B; 0x3F; 0x1F; 0x53;
   0x63; 0x75; 0x35; 0x2C; 0x60; 0xFD; 0x27; 0xD3; 0x94; 0xA5; 0x7C; 0xA1; 0x05; 0x58; 0x2D; 0xBD;
   0xD9; 0xC7; 0xAF; 0x6B; 0x54; 0x0B; 0xE0; 0x38; 0x04; 0xC8; 0x9D; 0xE7; 0x14; 0xB1; 0x87; 0x9C;
   0xDF; 0x6F; 0xF9; 0xDA; 0x2A; 0xC4; 0x59; 0x16; 0x74; 0x91; 0xAB; 0x26; 0x61; 0x76; 0x34; 0x2B;
   0xAD; 0x99; 0xFB; 0x72; 0xEC; 0x33; 0x12; 0xDE; 0x98; 0x3B; 0xC0; 0x9B; 0x3E; 0x18; 0x10; 0x3A;
   0x56; 0xE1; 0x77; 0xC9; 0x1E; 0x9E; 0x95; 0xA3; 0x90; 0x19; 0xA8; 0x6C; 0x09; 0xD0; 0xF0; 0x86].

(** The index of a table is the low byte of a word: it is always in range. *)
Definition sbox (t : list Z) (i : Z) : Z := nth (Z.to_nat (u8 i)) t 0.

(** ** Multiplications *)

Definition OSA_MULx (V c : Z) : Z :=
  if negb (Z.land V 0x80 =? 0) then u8 (Z.lxor (Z.shiftl V 1) c) else u8 (Z.shiftl V 1).

Fixpoint OSA_MULxPOW (V : Z) (i : nat) (c : Z) : Z :=
  match i with
  | O => V
  | S i => OSA_MULx (OSA_MULxPOW V i c) c
  end.

(** Four bytes, most significant first. *)
Definition word (a b c d : Z) : Z :=
  Z.lor (Z.lor (Z.lor (Z.shiftl a 24) (Z.shiftl b 16)) (Z.shiftl c 8)) d.

Definition OSA_MULalpha (c : Z) : Z :=
  word (OSA_MULxPOW c 23 0xa9) (OSA_MULxPOW c 245 0xa9) (OSA_MULxPOW c 48 0xa9) (OSA_MULxPOW c 239 0xa9).

Definition OSA_DIValpha (c : Z) : Z :=
  word (OSA_MULxPOW c 16 0xa9) (OSA_MULxPOW c 39 0xa9) (OSA_MULxPOW c 6 0xa9) (OSA_MULxPOW c 64 0xa9).

(** ** The 32-bit S-boxes *)

(** The linear layer both share; [c] is the reduction byte. *)
Definition mix (c s0 s1 s2 s3 : Z) : Z :=
  word (Z.lxor (Z.lxor (Z.lxor (OSA_MULx s0 c) s1) s2) (Z.lxor (OSA_MULx s3 c) s3))
       (Z.lxor (Z.lxor (Z.lxor (Z.lxor (OSA_MULx s0 c) s0) (OSA_MULx s1 c)) s2) s3)
       (Z.lxor (Z.lxor (Z.lxor s0 (Z.lxor (OSA_MULx s1 c) s1)) (OSA_MULx s2 c)) s3)
       (Z.lxor (Z.lxor (Z.lxor s0 s1) (Z.lxor (OSA_MULx s2 c) s2)) (OSA_MULx s3 c)).

Definition OSA_S1 (w : Z) : Z :=
  mix 0x1b (sbox OSA_SR (Z.land (Z.shiftr w 24) 0xff)) (sbox OSA_SR (Z.land (Z.shiftr w 16) 0xff))
    (sbox OSA_SR (Z.land (Z.shiftr w 8) 0xff)) (sbox OSA_SR (Z.land w 0xff)).

Definition OSA_S2 (w : Z) : Z :=
  mix 0x69 (sbox OSA_SQ (Z.land (Z.shiftr w 24) 0xff)) (sbox OSA_SQ (Z.land (Z.shiftr w 16) 0xff))
    (sbox OSA_SQ (Z.land (Z.shiftr w 8) 0xff)) (sbox OSA_SQ (Z.land w 0xff)).

(** ** The generator *)

Record osa_snow_3g_context_t : Type := mk_snow {
  LFSR_S0 : Z;
  LFSR_S1 : Z;
  LFSR_S2 : Z;
  LFSR_S3 : Z;
  LFSR_S4 : Z;
  LFSR_S5 : Z;
  LFSR_S6 : Z;
  LFSR_S7 : Z;
  LFSR_S8 : Z;
  LFSR_S9 : Z;
  LFSR_S10 : Z;
  LFSR_S11 : Z;
  LFSR_S12 : Z;
  LFSR_S13 : Z;
  LFSR_S14 : Z;
  LFSR_S15 : Z;
  FSM_R1 : Z;
  FSM_R2 : Z;
  FSM_R3 : Z
}.
#[export] Instance snow_eta : Settable osa_snow_3g_context_t := fun s =>
  mk_snow (LFSR_S0 s) (LFSR_S1 s) (LFSR_S2 s) (LFSR_S3 s) (LFSR_S4 s) (LFSR_S5 s) (LFSR_S6 s) (LFSR_S7 s) (LFSR_S8 s) (LFSR_S9 s) (LFSR_S10 s) (LFSR_S11 s) (LFSR_S12 s) (LFSR_S13 s) (LFSR_S14 s) (LFSR_S15 s) (FSM_R1 s) (FSM_R2 s) (FSM_R3 s).

(** The feedback word of the LFSR, common to both modes. *)
Definition lfsr_feedback (x : osa_snow_3g_context_t) : Z :=
  Z.lxor (Z.lxor (Z.lxor (Z.lxor (Z.land (u32 (Z.shiftl (LFSR_S0 x) 8)) 0xffffff00)
    (OSA_MULalpha (Z.land (Z.shiftr (LFSR_S0 x) 24) 0xff))) (LFSR_S2 x))
    (Z.land (Z.shiftr (LFSR_S11 x) 8) 0x00ffffff)) (OSA_DIValpha (Z.land (LFSR_S11 x) 0xff)).

Definition lfsr_shift (x : osa_snow_3g_context_t) (v : Z) : osa_snow_3g_context_t :=
  mk_snow (LFSR_S1 x) (LFSR_S2 x) (LFSR_S3 x) (LFSR_S4 x) (LFSR_S5 x) (LFSR_S6 x) (LFSR_S7 x) (LFSR_S8 x) (LFSR_S9 x) (LFSR_S10 x) (LFSR_S11 x) (LFSR_S12 x) (LFSR_S13 x) (LFSR_S14 x) (LFSR_S15 x) v
    (FSM_R1 x) (FSM_R2 x) (FSM_R3 x).

Definition osa_snow3g_clock_LFSR_initialization_mode (F : Z) (x : osa_snow_3g_context_t) :
    osa_snow_3g_context_t := lfsr_shift x (Z.lxor (lfsr_feedback x) F).

Definition osa_snow3g_clock_LFSR_key_stream_mode (x : osa_snow_3g_context_t) :
    osa_snow_3g_context_t := lfsr_shift x (lfsr_feedback x).

Definition osa_snow3g_clock_fsm (x : osa_snow_3g_context_t) : Z * osa_snow_3g_context_t :=
  let F := Z.lxor (u32 (LFSR_S15 x + FSM_R1 x)) (FSM_R2 x) in
  let r := u32 (FSM_R2 x + Z.lxor (FSM_R3 x) (LFSR_S5 x)) in
  (F, x <| FSM_R3 := OSA_S2 (FSM_R2 x) |> <| FSM_R2 := OSA_S1 (FSM_R1 x) |> <| FSM_R1 := r |>).

Definition init_clock (x : osa_snow_3g_context_t) : osa_snow_3g_context_t :=
  let (F, x') := osa_snow3g_clock_fsm x in osa_snow3g_clock_LFSR_initialization_mode F x'.

(** [k0 .. k3] and [i0 .. i3]: the arrays [k] and [IV]. *)
Definition osa_snow3g_initialize (k0 k1 k2 k3 i0 i1 i2 i3 : Z) : osa_snow_3g_context_t :=
  let n := Z.lxor 0xffffffff in
  Nat.iter 32 init_clock
    (mk_snow (n k0) (n k1) (n k2) (n k3) k0 k1 k2 k3
       (n k0) (Z.lxor (n k1) i3) (Z.lxor (n k2) i2) (n k3)
       (Z.lxor k0 i1) k1 k2 (Z.lxor k3 i0) 0 0 0).

Fixpoint key_stream_loop (n : nat) (x : osa_snow_3g_context_t) : list Z :=
  match n with
  | O => []
  | S n =>
      let (F, x') := osa_snow3g_clock_fsm x in
      Z.lxor F (LFSR_S0 x') :: key_stream_loop n (osa_snow3g_clock_LFSR_key_stream_mode x')
  end.

Definition osa_snow3g_generate_key_stream (n : nat) (x : osa_snow_3g_context_t) : list Z :=
  let (_, x') := osa_snow3g_clock_fsm x in
  key_stream_loop n (osa_snow3g_clock_LFSR_key_stream_mode x').

(** ** Words and bytes *)

Definition is_word (w : Z) : Prop := 0 <= w < 2 ^ 32.

(** All bytes, for properties checked by enumeration. *)
Definition bytes256 : list Z := Z.of_nat <$> seq 0 256.

Lemma byte_enum (P : Z -> bool) b : forallb P bytes256 = true -> 0 <= b < 256 -> P b = true.
Proof.
  intros H Hb. rewrite forallb_forall in H. apply H.
  apply list_elem_of_In, list_elem_of_fmap. exists (Z.to_nat b).
  split; [lia|]. apply elem_of_seq. lia.
Qed.

Lemma land_ff x : Z.land x 0xff = x mod 2 ^ 8.
Proof. apply (Z.land_ones x 8). lia. Qed.

Lemma land_ff_range x : 0 <= Z.land x 0xff < 256.
Proof. rewrite land_ff. apply Z.mod_pos_bound. lia. Qed.

(** [alpha * w] and [w / alpha] in GF(2^32), as the feedback computes them. *)
Definition mul_alpha (w : Z) : Z :=
  Z.lxor (Z.land (u32 (Z.shiftl w 8)) 0xffffff00) (OSA_MULalpha (Z.land (Z.shiftr w 24) 0xff)).
Definition div_alpha (w : Z) : Z :=
  Z.lxor (Z.land (Z.shiftr w 8) 0x00ffffff) (OSA_DIValpha (Z.land w 0xff)).

(** The byte-level fact behind [alpha / alpha = 1]: [m] stands for
    MULalpha(c), [d] for DIValpha(c), [e] for DIValpha of the low byte of
    [m]. *)
Definition alpha_check (c m d e : Z) : bool :=
  (Z.lxor (Z.shiftr m 8) e =? Z.shiftl c 24) &&
  (0 <=? m) && (m <? 2 ^ 32) && (0 <=? d) && (d <? 2 ^ 32).

Lemma alpha_bytes : forallb (fun c =>
  alpha_check c (OSA_MULalpha c) (OSA_DIValpha c) (OSA_DIValpha (Z.land (OSA_MULalpha c) 0xff))) bytes256 = true.
Proof. vm_compute. reflexivity. Qed.

Lemma alpha_check_spec c m d e : alpha_check c m d e = true ->
  Z.lxor (Z.shiftr m 8) e = Z.shiftl c 24 /\ is_word m /\ is_word d.
Proof.
  unfold alpha_check, is_word. rewrite !andb_true_iff, Z.eqb_eq, !Z.leb_le, !Z.ltb_lt. tauto.
Qed.

Lemma alpha_byte c : 0 <= c < 256 ->
  Z.lxor (Z.shiftr (OSA_MULalpha c) 8) (OSA_DIValpha (Z.land (OSA_MULalpha c) 0xff)) = Z.shiftl c 24 /\
  is_word (OSA_MULalpha c) /\ is_word (OSA_DIValpha c).
Proof.
  intros Hc. apply (alpha_check_spec c). exact (byte_enum _ c alpha_bytes Hc).
Qed.

(** Bitwise reasoning on words: extensionality at every bit. *)
Lemma testbit_high w n : 0 <= w < 2 ^ 32 -> 32 <= n -> Z.testbit w n = false.
Proof.
  intros Hw Hn. destruct (Z.eq_dec w 0) as [->|]; [apply Z.bits_0|].
  apply Z.bits_above_log2; [lia|]. apply Z.log2_lt_pow2; [lia|].
  assert (2 ^ 32 <= 2 ^ n) by (apply Z.pow_le_mono_r; lia). lia.
Qed.

Lemma shl8_mask w : Z.land (u32 (Z.shiftl w 8)) 0xffffff00 = Z.shiftl (Z.land w 0xffffff) 8.
Proof.
  change 0xffffff00 with (Z.shiftl (Z.ones 24) 8). change 0xffffff with (Z.ones 24).
  unfold u32. rewrite <- Z.land_ones by lia. apply Z.bits_inj'. intros n Hn.
  rewrite Z.shiftl_land, !Z.land_spec, !Z.shiftl_spec by lia.
  destruct (decide (n - 8 < 0)); [by rewrite !(Z.testbit_neg_r _ (n - 8)) by lia|].
  destruct (decide (n < 32)).
  - rewrite (Z.ones_spec_low 32 n) by lia. by rewrite andb_true_r.
  - rewrite (Z.ones_spec_high 24 (n - 8)) by lia. by rewrite !andb_false_r.
Qed.

Lemma word_lxor a b : is_word a -> is_word b -> is_word (Z.lxor a b).
Proof.
  unfold is_word. intros Ha Hb. split; [apply Z.lxor_nonneg; lia|].
  destruct (Z.eq_dec (Z.lxor a b) 0) as [->|N]; [lia|].
  assert (0 < Z.lxor a b) by (pose proof (proj2 (Z.lxor_nonneg a b)); lia).
  apply Z.log2_lt_pow2; [lia|]. pose proof (Z.log2_lxor a b ltac:(lia) ltac:(lia)).
  assert (L : forall x, 0 <= x < 2 ^ 32 -> Z.log2 x < 32).
  { intros x Hx. destruct (Z.eq_dec x 0) as [->|]; [done|]. apply Z.log2_lt_pow2; lia. }
  pose proof (L a Ha). pose proof (L b Hb). lia.
Qed.

(** Division by alpha undoes multiplication by alpha. *)
Lemma div_mul_alpha w : is_word w -> div_alpha (mul_alpha w) = w.
Proof.
  intros Hw. unfold div_alpha, mul_alpha. rewrite shl8_mask.
  set (c := Z.land (Z.shiftr w 24) 0xff). pose proof (land_ff_range (Z.shiftr w 24)) as Hc. fold c in Hc.
  destruct (alpha_byte c Hc) as (E & Wm & _). set (m := OSA_MULalpha c) in *.
  assert (Elow : Z.land (Z.lxor (Z.shiftl (Z.land w 0xffffff) 8) m) 0xff = Z.land m 0xff).
  { apply Z.bits_inj'. intros n Hn. change 0xff with (Z.ones 8). rewrite !Z.land_spec, Z.lxor_spec, Z.shiftl_spec by lia.
    destruct (decide (n < 8)); [by rewrite (Z.testbit_neg_r _ (n - 8)) by lia|].
    by rewrite (Z.ones_spec_high 8 n), !andb_false_r by lia. }
  assert (Ehigh : Z.land (Z.shiftr (Z.lxor (Z.shiftl (Z.land w 0xffffff) 8) m) 8) 0xffffff =
    Z.lxor (Z.land w 0xffffff) (Z.shiftr m 8)).
  { apply Z.bits_inj'. intros n Hn. change 0xffffff with (Z.ones 24).
    rewrite Z.land_spec, Z.shiftr_spec, !Z.lxor_spec, Z.shiftl_spec, Z.land_spec, Z.shiftr_spec by lia.
    replace (n + 8 - 8) with n by lia. rewrite Z.land_spec. destruct (decide (n < 24)).
    - rewrite (Z.ones_spec_low 24 n) by lia. by rewrite !andb_true_r.
    - rewrite (Z.ones_spec_high 24 n), !andb_false_r by lia. by rewrite (testbit_high m) by (done || lia). }
  rewrite Elow, Ehigh, Z.lxor_assoc, E. unfold c.
  apply Z.bits_inj'. intros n Hn. change 0xffffff with (Z.ones 24). change 0xff with (Z.ones 8).
  rewrite Z.lxor_spec, Z.land_spec, Z.shiftl_spec by lia.
  destruct (decide (n < 24)).
  - rewrite (Z.ones_spec_low 24 n), (Z.testbit_neg_r _ (n - 24)) by lia. by rewrite andb_true_r, xorb_false_r.
  - rewrite (Z.ones_spec_high 24 n), andb_false_r, xorb_false_l by lia.
    rewrite Z.land_spec, Z.shiftr_spec by lia. replace (n - 24 + 24) with n by lia.
    destruct (decide (n < 32)).
    + rewrite (Z.ones_spec_low 8 (n - 24)) by lia. by rewrite andb_true_r.
    + rewrite (testbit_high w n) by (done || lia). done.
Qed.

Lemma word_mul_alpha w : is_word w -> is_word (mul_alpha w).
Proof.
  intros Hw. unfold mul_alpha. rewrite shl8_mask. apply word_lxor.
  - unfold is_word. change 0xffffff with (Z.ones 24). rewrite Z.land_ones, Z.shiftl_mul_pow2 by lia.
    pose proof (Z.mod_pos_bound w (2 ^ 24)). lia.
  - apply alpha_byte, land_ff_range.
Qed.

Lemma word_div_alpha w : is_word (div_alpha w).
Proof.
  unfold div_alpha. apply word_lxor.
  - unfold is_word. change 0x00ffffff with (Z.ones 24). rewrite Z.land_ones by lia.
    pose proof (Z.mod_pos_bound (Z.shiftr w 8) (2 ^ 24)). lia.
  - apply alpha_byte, land_ff_range.
Qed.

Lemma feedback_eq x :
  lfsr_feedback x = Z.lxor (Z.lxor (mul_alpha (LFSR_S0 x)) (LFSR_S2 x)) (div_alpha (LFSR_S11 x)).
Proof. unfold lfsr_feedback, mul_alpha, div_alpha. by rewrite !Z.lxor_assoc. Qed.

(** The inverse of a clock of the LFSR. *)
Definition lfsr_unclock (x : osa_snow_3g_context_t) : osa_snow_3g_context_t :=
  mk_snow
    (div_alpha (Z.lxor (Z.lxor (LFSR_S15 x) (LFSR_S1 x)) (div_alpha (LFSR_S10 x))))
    (LFSR_S0 x) (LFSR_S1 x) (LFSR_S2 x) (LFSR_S3 x) (LFSR_S4 x) (LFSR_S5 x) (LFSR_S6 x) (LFSR_S7 x)
    (LFSR_S8 x) (LFSR_S9 x) (LFSR_S10 x) (LFSR_S11 x) (LFSR_S12 x) (LFSR_S13 x) (LFSR_S14 x)
    (FSM_R1 x) (FSM_R2 x) (FSM_R3 x).

(** Clocking the LFSR in keystream mode loses no information: the state
    before is a function of the state after. The proof rests on DIValpha
    undoing MULalpha, checked for every byte. *)
Theorem lfsr_clock_invertible x : is_word (LFSR_S0 x) ->
  lfsr_unclock (osa_snow3g_clock_LFSR_key_stream_mode x) = x.
Proof.
  intros H. unfold osa_snow3g_clock_LFSR_key_stream_mode, lfsr_shift, lfsr_unclock.
  cbn -[lfsr_feedback div_alpha]. rewrite feedback_eq.
  replace (Z.lxor (Z.lxor (Z.lxor (Z.lxor (mul_alpha (LFSR_S0 x)) (LFSR_S2 x)) (div_alpha (LFSR_S11 x))) (LFSR_S2 x))
    (div_alpha (LFSR_S11 x))) with (mul_alpha (LFSR_S0 x)).
  - rewrite div_mul_alpha by done. by destruct x.
  - apply Z.bits_inj'. intros n _. rewrite !Z.lxor_spec.
    destruct (Z.testbit (mul_alpha _) n), (Z.testbit (LFSR_S2 x) n), (Z.testbit (div_alpha _) n); done.
Qed.

Definition snow_sample : osa_snow_3g_context_t :=
  osa_snow3g_initialize 0x2BD6459F 0x82C5B300 0x952C4910 0x4881FF48 0xEA024714 0xAD5C4D84 0xDF1F9B25 0x1C0BF45F.

Lemma lfsr_clock_invertible_witness :
  lfsr_unclock (osa_snow3g_clock_LFSR_key_stream_mode snow_sample) = snow_sample.
Proof. apply (lfsr_clock_invertible snow_sample). unfold is_word. vm_compute. split; [discriminate|reflexivity]. Defined.

(** The generator reproduces the first test set of the SNOW 3G
    specification, and both S-boxes are permutations of the bytes. *)
Theorem snow3g_test_set :
  osa_snow3g_generate_key_stream 2 snow_sample = [0xABEE9704; 0x7AC31373] /\
  NoDup OSA_SR /\ NoDup OSA_SQ /\ Forall (fun b => 0 <= b < 256) (OSA_SR ++ OSA_SQ).
Proof.
  split; [vm_compute; reflexivity|].
  assert (H : bool_decide (NoDup OSA_SR /\ NoDup OSA_SQ /\ Forall (fun b => 0 <= b < 256) (OSA_SR ++ OSA_SQ)) = true)
    by (vm_compute; reflexivity).
  exact (bool_decide_eq_true_1 _ H).
Qed.

End Snow3g.
