(* ===== verification/Osa.v ===== *)
(** * OSA: ciphering and integrity of the access stratum

    openair2/UTIL/OSA/osa_stream_eea.c and osa_stream_eia.c. A message
    pointer is the list of the bytes from it to the end of its buffer, so
    that an access past the buffer is [Fault OutOfBounds]. The words the code
    copies with [memcpy] and then swaps ([hton_int32], on a little-endian
    host) are big-endian loads.

    AES-CTR (nettle) and CMAC-AES (openssl) are not part of the repository:
    they are the operations of the class [AesLib], whose laws are the
    documented behaviour of CTR mode (same length, and deciphering is
    ciphering again) and of CMAC (a tag of 16 bytes). *)

From S2P Require Import Prelude Snow3g.

Module Osa.
Import Snow3g.

Definition is_byte (b : Z) : Prop := 0 <= b < 256.
#[export] Instance is_byte_dec b : Decision (is_byte b).
Proof. unfold is_byte. apply _. Defined.

Class AesLib := {
  aes128_ctr : list Z -> list Z -> list Z -> list Z;
  aes128_cmac : list Z -> list Z -> list Z;
  aes128_ctr_length k iv m : length (aes128_ctr k iv m) = length m;
  aes128_ctr_bytes k iv m : Forall is_byte m -> Forall is_byte (aes128_ctr k iv m);
  aes128_ctr_inverse k iv m : Forall is_byte m -> aes128_ctr k iv (aes128_ctr k iv m) = m;
  aes128_cmac_length k m : length (aes128_cmac k m) = 16%nat;
  aes128_cmac_bytes k m : Forall is_byte (aes128_cmac k m)
}.

Definition EEA0_ALG_ID : Z := 0.
Definition EEA1_128_ALG_ID : Z := 1.
Definition EEA2_128_ALG_ID : Z := 2.
Definition EIA0_ALG_ID : Z := 0.
Definition EIA1_128_ALG_ID : Z := 1.
Definition EIA2_128_ALG_ID : Z := 2.

Definition SECU_DIRECTION_UPLINK : Z := 0.
Definition SECU_DIRECTION_DOWNLINK : Z := 1.

Record stream_cipher_t : Type := mk_stream {
  key : list Z;
  key_length : Z;
  count : Z;
  bearer : Z;
  direction : Z;
  blength : Z
}.

(** Big-endian load and store of a 32-bit word. *)
Definition load32 (m : list Z) (i : Z) : res Z :=
  if i <? 0 then Fault OutOfBounds
  else
    match take 4 (drop (Z.to_nat i) m) with
    | [a; b; c; d] => Ok (word a b c d)
    | _ => Fault OutOfBounds
    end.

Definition store32 (w : Z) : list Z :=
  [Z.land (Z.shiftr w 24) 0xff; Z.land (Z.shiftr w 16) 0xff; Z.land (Z.shiftr w 8) 0xff; Z.land w 0xff].

(** [K[3] = key[0..3], ..., K[0] = key[12..15]] *)
Definition load_key (k : list Z) : res (Z * Z * Z * Z) :=
  k3 ← load32 k 0; k2 ← load32 k 4; k1 ← load32 k 8; k0 ← load32 k 12;
  Ok (k0, k1, k2, k3).

(** ** EEA0, EEA1 *)

Definition stream_encrypt_eea0 (p : stream_cipher_t) (message : list Z) : res (Z * list Z) :=
  let byte_length := Z.shiftr (u32 (blength p + 7)) 3 in
  if Z.of_nat (length message) <? byte_length then Fault OutOfBounds else Ok (0, message).

Definition eea1_iv2 (p : stream_cipher_t) : Z :=
  u32 (Z.shiftl (Z.lor (Z.shiftl (bearer p) 3) (Z.shiftl (Z.land (direction p) 1) 2)) 24).

(** The masked key stream, as bytes. *)
Definition eea1_key_stream (k : Z * Z * Z * Z) (p : stream_cipher_t) (n : nat) (zero_bit : Z) : list Z :=
  let '(k0, k1, k2, k3) := k in
  let ks := osa_snow3g_generate_key_stream n
              (osa_snow3g_initialize k0 k1 k2 k3 (eea1_iv2 p) (count p) (eea1_iv2 p) (count p)) in
  let ks' := if 0 <? zero_bit
             then alter (fun w => Z.land w (u32 (Z.shiftl 0xFFFFFFFF (8 - zero_bit)))) (n - 1)%nat ks
             else ks in
  concat (store32 <$> ks').

(** [message[i] ^= ks[i]] for every byte of the key stream. *)
Definition xor_bytes (message ks : list Z) : list Z :=
  zip_with Z.lxor (take (length ks) message) ks ++ drop (length ks) message.

Definition mask_last (message : list Z) (i zero_bit : Z) : list Z :=
  alter (fun b => Z.land b (u8 (Z.shiftl 0xFF (8 - zero_bit)))) (Z.to_nat i) message.

Definition stream_encrypt_eea1 (p : stream_cipher_t) (message : list Z) : res (Z * list Z) :=
  _ ← assert_fatal (key_length p =? 16);
  let n := Z.quot (u32 (blength p + 31)) 32 in
  let zero_bit := Z.land (blength p) 0x7 in
  k ← load_key (key p);
  let ks := eea1_key_stream k p (Z.to_nat n) zero_bit in
  if Z.of_nat (length message) <? 4 * n then Fault OutOfBounds
  else
    let message1 := xor_bytes message ks in
    let ceil_index := Z.shiftr (u32 (blength p + 7)) 3 in
    Ok (0, if 0 <? zero_bit then mask_last message1 (ceil_index - 1) zero_bit else message1).

(** ** EIA1 *)

Definition OSA_MUL64x (V c : Z) : Z :=
  if negb (Z.land V 0x8000000000000000 =? 0) then Z.lxor (u64 (Z.shiftl V 1)) c else u64 (Z.shiftl V 1).

Fixpoint OSA_MUL64xPOW (V : Z) (i : nat) (c : Z) : Z :=
  match i with
  | O => V
  | S i => OSA_MUL64x (OSA_MUL64xPOW V i c) c
  end.

(** [for (i = 0; i < 64; i++) if ((P >> i) & 1) result ^= MUL64xPOW(V, i, c)] *)
Fixpoint mul64_loop (fuel i : nat) (V P c result : Z) : Z :=
  match fuel with
  | O => result
  | S fuel =>
      mul64_loop fuel (S i) V P c
        (if Z.testbit P (Z.of_nat i) then Z.lxor result (OSA_MUL64xPOW V i c) else result)
  end.

Definition OSA_MUL64 (V P c : Z) : Z := mul64_loop 64 0 V P c 0.

(** [n] is not negative here: it is a remainder of an unsigned length. *)
Definition osa_mask32bit (n : Z) : Z :=
  if Z.rem n 32 =? 0 then 0xffffffff
  else Nat.iter (Z.to_nat n) (fun mask => Z.lxor (Z.shiftr mask 1) 0x80000000) 0.

(** [for (i = 0; i < D-2; i++)]: [EVAL] after the complete blocks. *)
Fixpoint eia1_blocks (fuel : nat) (i : Z) (message : list Z) (P EVAL : Z) : res Z :=
  match fuel with
  | O => Ok EVAL
  | S fuel =>
      w0 ← load32 message (8 * i);
      w1 ← load32 message (8 * i + 4);
      eia1_blocks fuel (i + 1) message P
        (OSA_MUL64 (Z.lxor EVAL (Z.lor (Z.shiftl w0 32) w1)) P 0x1b)
  end.

(** The last block, of 1 to 64 bits. *)
Definition eia1_last (p : stream_cipher_t) (D : Z) (message : list Z) : res Z :=
  let rem0 := Z.rem (blength p) 64 in
  let rem_bits := if rem0 =? 0 then 64 else rem0 in
  let mask := osa_mask32bit (Z.rem rem_bits 32) in
  w0 ← load32 message (8 * (D - 2));
  if 32 <? rem_bits then
    w1 ← load32 message (8 * (D - 2) + 4);
    Ok (Z.lor (Z.shiftl w0 32) (Z.land w1 mask))
  else Ok (Z.shiftl (Z.land w0 mask) 32).

Definition stream_compute_integrity_eia1 (p : stream_cipher_t) (message : list Z) : res (list Z) :=
  k ← load_key (key p);
  let '(k0, k1, k2, k3) := k in
  let i3 := count p in
  let i2 := u32 (Z.shiftl (Z.land (bearer p) 0x1F) 27) in
  let i1 := Z.lxor (count p) (u32 (Z.shiftl (direction p) 31)) in
  let i0 := Z.lxor i2 (Z.shiftl (Z.land (direction p) 1) 15) in
  match osa_snow3g_generate_key_stream 5 (osa_snow3g_initialize k0 k1 k2 k3 i0 i1 i2 i3) with
  | [z0; z1; z2; z3; z4] =>
      let P := Z.lor (Z.shiftl z0 32) z1 in
      let Q := Z.lor (Z.shiftl z2 32) z3 in
      let D := (blength p + 63) / 64 + 1 in
      e1 ← eia1_blocks (Z.to_nat (D - 2)) 0 message P 0;
      m ← eia1_last p D message;
      let e2 := OSA_MUL64 (Z.lxor e1 m) P 0x1b in
      let e3 := OSA_MUL64 (Z.lxor e2 (blength p)) Q 0x1b in
      Ok (store32 (Z.lxor (Z.shiftr e3 32) z4))
  | _ => Fault OutOfBounds
  end.

(** ** EEA2, EIA2 and the dispatch *)

Section Aes.
Context `{AesLib}.

Definition aes_block (p : stream_cipher_t) : Z :=
  u8 (Z.lor (Z.shiftl (Z.land (bearer p) 0x1F) 3) (Z.shiftl (Z.land (direction p) 1) 2)).

Definition byte_length_of (p : stream_cipher_t) : Z :=
  Z.shiftr (blength p) 3 + (if 0 <? Z.land (blength p) 0x7 then 1 else 0).

Definition stream_encrypt_eea2 (p : stream_cipher_t) (message : list Z) : res (Z * list Z) :=
  let zero_bit := Z.land (blength p) 0x7 in
  let n := byte_length_of p in
  if Z.of_nat (length message) <? n then Fault OutOfBounds
  else
    let m := store32 (count p) ++ [aes_block p] ++ replicate 11 0 in
    let data := aes128_ctr (take (Z.to_nat (key_length p)) (key p)) m (take (Z.to_nat n) message)
                  ++ drop (Z.to_nat n) message in
    Ok (0, if 0 <? zero_bit then mask_last data (n - 1) zero_bit else data).

Definition stream_encrypt (algorithm : Z) (p : stream_cipher_t) (message : list Z) : res (Z * list Z) :=
  if algorithm =? EEA0_ALG_ID then stream_encrypt_eea0 p message
  else if algorithm =? EEA1_128_ALG_ID then stream_encrypt_eea1 p message
  else if algorithm =? EEA2_128_ALG_ID then stream_encrypt_eea2 p message
  else Ok (-1, message).

(** [#define stream_decrypt stream_encrypt] *)
Definition stream_decrypt := stream_encrypt.

Definition stream_compute_integrity_eia2 (p : stream_cipher_t) (message : list Z) : res (list Z) :=
  let m_length := byte_length_of p in
  if Z.of_nat (length message) <? m_length then Fault OutOfBounds
  else Ok (take 4 (aes128_cmac (take (Z.to_nat (key_length p)) (key p))
             (store32 (count p) ++ [aes_block p; 0; 0; 0] ++ take (Z.to_nat m_length) message))).

(** [None]: the return value -1, with [out] not written. *)
Definition stream_compute_integrity (algorithm : Z) (p : stream_cipher_t) (message : list Z) :
    res (option (list Z)) :=
  if algorithm =? EIA1_128_ALG_ID then Some <$> stream_compute_integrity_eia1 p message
  else if algorithm =? EIA2_128_ALG_ID then Some <$> stream_compute_integrity_eia2 p message
  else Ok None.

Definition stream_check_integrity (algorithm : Z) (p : stream_cipher_t) (message expected : list Z) : res Z :=
  if negb (algorithm =? EIA0_ALG_ID) then
    mac ← stream_compute_integrity algorithm p message;
    match mac with
    | None => Ok (-1)
    | Some result =>
        if (length expected <? 4)%nat then Fault OutOfBounds
        else Ok (if bool_decide (take 4 result = take 4 expected) then 0 else -1)
    end
  else Ok 0.
End Aes.

(** ** Ciphering twice *)

Lemma xor_bytes_length m ks : length (xor_bytes m ks) = length m.
Proof. unfold xor_bytes. rewrite length_app, length_zip_with, length_take, length_drop. lia. Qed.

Lemma xor_bytes_inverse m ks : (length ks <= length m)%nat -> xor_bytes (xor_bytes m ks) ks = m.
Proof.
  intros Hl. unfold xor_bytes.
  assert (Hz : length (zip_with Z.lxor (take (length ks) m) ks) = length ks).
  { rewrite length_zip_with, length_take. lia. }
  rewrite take_app_length', drop_app_length' by done.
  rewrite <- (take_drop (length ks) m) at 3. f_equal.
  apply list_eq. intros i. rewrite lookup_zip_with, lookup_zip_with.
  destruct (ks !! i) as [b|] eqn:Eb.
  - apply lookup_lt_Some in Eb as Hi. rewrite lookup_take_lt by done.
    destruct (m !! i) as [a|] eqn:Ea; simpl; [|done].
    by rewrite Z.lxor_assoc, Z.lxor_nilpotent, Z.lxor_0_r.
  - apply lookup_ge_None in Eb. rewrite (lookup_take_ge m) by done. done.
Qed.

Lemma key_stream_loop_length n x : length (key_stream_loop n x) = n.
Proof. revert x. induction n as [|n IH]; intros x; [done|]. simpl. f_equal. apply IH. Qed.

Lemma generate_length n x : length (osa_snow3g_generate_key_stream n x) = n.
Proof. apply key_stream_loop_length. Qed.

Lemma concat_store32_length ws : length (concat (store32 <$> ws)) = (4 * length ws)%nat.
Proof. induction ws as [|w ws IH]; [done|]. csimpl. rewrite IH. lia. Qed.

Lemma eea1_key_stream_length k p n z : length (eea1_key_stream k p n z) = (4 * n)%nat.
Proof.
  destruct k as [[[k0 k1] k2] k3]. unfold eea1_key_stream. rewrite concat_store32_length.
  case_match; rewrite ?length_alter, generate_length; done.
Qed.

(** The bytes an algorithm reads and writes for a message of [bits] bits:
    EEA1 works on whole 32-bit words. *)
Definition cipher_bytes (alg bits : Z) : Z :=
  if alg =? EEA1_128_ALG_ID then 4 * ((bits + 31) / 32) else bits / 8.

(** A message of whole bytes, a key of at least 16 bytes, and room for what
    the algorithm touches. *)
Record crypt_ok (alg : Z) (p : stream_cipher_t) (message : list Z) : Prop := {
  ok_key : (16 <= length (key p))%nat;
  ok_key_length : key_length p = 16;
  ok_bits : blength p mod 8 = 0;
  ok_size : 0 <= blength p < 2 ^ 31;
  ok_room : cipher_bytes alg (blength p) <= Z.of_nat (length message);
  ok_bytes : Forall is_byte message
}.

Lemma load_key_ok k : (16 <= length k)%nat -> exists x, load_key k = Ok x.
Proof.
  intros H. do 16 (destruct k as [|? k]; [simpl in H; lia|]). eexists. reflexivity.
Qed.

Lemma land7 x : x mod 8 = 0 -> Z.land x 0x7 = 0.
Proof. change 0x7 with (Z.ones 3). rewrite Z.land_ones by lia. done. Qed.

Lemma quot_u32 x k : 0 <= x < 2 ^ 31 -> 0 <= k < 64 -> Z.quot (u32 (x + k)) 32 = (x + k) / 32.
Proof. intros. rewrite u32_small by lia. apply Z.quot_div_nonneg; lia. Qed.

Lemma lxor_byte a b : is_byte a -> is_byte b -> is_byte (Z.lxor a b).
Proof.
  intros Ha Hb. split; [apply Z.lxor_nonneg; unfold is_byte in *; lia|].
  destruct (decide (Z.lxor a b = 0)) as [->|N]; [lia|].
  apply (Z.log2_lt_pow2 _ 8); [pose proof (Z.lxor_nonneg a b); unfold is_byte in *; lia|].
  pose proof (Z.log2_lxor a b ltac:(unfold is_byte in *; lia) ltac:(unfold is_byte in *; lia)).
  assert (T : forall x, is_byte x -> Z.log2 x < 8).
  { intros x [H1 H2]. destruct (decide (x = 0)) as [->|]; [done|]. apply Z.log2_lt_pow2; lia. }
  pose proof (T a Ha). pose proof (T b Hb). lia.
Qed.

Lemma store32_bytes w : Forall is_byte (store32 w).
Proof.
  assert (H : forall x, is_byte (Z.land x 0xff)).
  { intros x. unfold is_byte. change 0xff with (Z.ones 8). rewrite Z.land_ones by lia.
    pose proof (Z.mod_pos_bound x (2 ^ 8)). lia. }
  repeat constructor; apply H.
Qed.

Lemma xor_bytes_bytes m ks : Forall is_byte m -> Forall is_byte ks -> Forall is_byte (xor_bytes m ks).
Proof.
  intros Hm Hk. apply Forall_app. split; [|by apply Forall_drop].
  apply Forall_zip_with_fst with (P := is_byte); [by apply Forall_take|].
  eapply Forall_impl; [exact Hk|]. intros y Hy x Hx. by apply lxor_byte.
Qed.

Lemma eea1_key_stream_bytes k p n z : Forall is_byte (eea1_key_stream k p n z).
Proof.
  destruct k as [[[k0 k1] k2] k3]. unfold eea1_key_stream. apply Forall_concat.
  apply Forall_fmap, Forall_true. intros w. apply store32_bytes.
Qed.

Section AesFacts.
Context `{AesLib}.

(** Every supported algorithm undoes itself. *)
Lemma stream_encrypt_ok alg p message :
  crypt_ok alg p message -> alg = 0 \/ alg = 1 \/ alg = 2 ->
  exists m', stream_encrypt alg p message = Ok (0, m') /\ length m' = length message /\
    stream_encrypt alg p m' = Ok (0, message) /\ Forall is_byte m'.
Proof.
  intros [K KL B Sz Rm By] Ha. unfold cipher_bytes in Rm.
  unfold stream_encrypt, EEA0_ALG_ID, EEA1_128_ALG_ID, EEA2_128_ALG_ID in *.
  destruct Ha as [-> |[-> | ->]]; simpl Z.eqb in *; cbv iota in *.
  - exists message. unfold stream_encrypt_eea0. rewrite u32_small, Z.shiftr_div_pow2 by lia.
    rewrite (proj2 (Z.ltb_ge _ _)); [done|]. change (2 ^ 3) with 8. Z.to_euclidean_division_equations; lia.
  - unfold stream_encrypt_eea1. rewrite KL, Z.eqb_refl. cbn [assert_fatal mbind res_bind].
    destruct (load_key_ok _ K) as [k ->]. cbn [mbind res_bind]. rewrite land7 by done.
    set (n := (blength p + 31) / 32) in *. assert (Hn : 0 <= n) by (apply Z.div_pos; lia).
    rewrite quot_u32 by lia. fold n. set (ks := eea1_key_stream k p (Z.to_nat n) 0).
    assert (Hks : length ks = (4 * Z.to_nat n)%nat) by apply eea1_key_stream_length.
    rewrite (proj2 (Z.ltb_ge _ _)) by lia. rewrite !Z.ltb_irrefl.
    exists (xor_bytes message ks). rewrite xor_bytes_length. split_and!; try done.
    + rewrite (proj2 (Z.ltb_ge _ _)) by lia. by rewrite xor_bytes_inverse by lia.
    + apply xor_bytes_bytes; [done|apply eea1_key_stream_bytes].
  - unfold stream_encrypt_eea2, byte_length_of. rewrite land7 by done. rewrite !Z.ltb_irrefl.
    rewrite Z.add_0_r, Z.shiftr_div_pow2 by lia. change (2 ^ 3) with 8.
    set (L := Z.to_nat (blength p / 8)).
    assert (HL : blength p / 8 = Z.of_nat L) by (unfold L; Z.to_euclidean_division_equations; lia).
    rewrite (proj2 (Z.ltb_ge _ _)) by lia.
    set (m := _ ++ [aes_block p] ++ _). set (kk := take _ (key p)).
    assert (Hlen : length (aes128_ctr kk m (take L message)) = L).
    { rewrite aes128_ctr_length, length_take. lia. }
    exists (aes128_ctr kk m (take L message) ++ drop L message). split; [reflexivity|].
    rewrite length_app, Hlen, length_drop. split_and!; [lia| |].
    + rewrite (proj2 (Z.ltb_ge _ _)) by lia.
      rewrite take_app_length', drop_app_length' by done.
      rewrite aes128_ctr_inverse by by apply Forall_take. by rewrite take_drop.
    + apply Forall_app. split; [by apply aes128_ctr_bytes, Forall_take|by apply Forall_drop].
Qed.
End AesFacts.

(** ** The MAC reads the message only *)

Lemma load32_ok m i : 0 <= i -> i + 4 <= Z.of_nat (length m) ->
  exists a b c d, take 4 (drop (Z.to_nat i) m) = [a; b; c; d] /\ load32 m i = Ok (word a b c d).
Proof.
  intros Hi Hl. unfold load32. rewrite (proj2 (Z.ltb_ge _ _)) by lia.
  assert (H : length (take 4 (drop (Z.to_nat i) m)) = 4%nat) by (rewrite length_take, length_drop; lia).
  destruct (take 4 (drop (Z.to_nat i) m)) as [|a [|b [|c [|d [|]]]]]; try done. by exists a, b, c, d.
Qed.

Lemma take_drop_prefix L (m m' : list Z) i k : (i + k <= L)%nat -> take L m = take L m' ->
  take k (drop i m) = take k (drop i m').
Proof.
  intros Hl E.
  assert (H : forall x : list Z, take k (drop i x) = take k (drop i (take L x))).
  { intros x. rewrite skipn_firstn_comm, take_take. f_equal. lia. }
  by rewrite H, (H m'), E.
Qed.

Lemma load32_prefix L m m' i : 0 <= i -> i + 4 <= Z.of_nat L -> take L m = take L m' ->
  load32 m i = load32 m' i.
Proof.
  intros Hi Hl E. unfold load32. by rewrite (take_drop_prefix L m m' (Z.to_nat i) 4) by (done || lia).
Qed.

Lemma testbit_byte b n : is_byte b -> 8 <= n -> Z.testbit b n = false.
Proof.
  intros [H1 H2] Hn. rewrite Z.testbit_false by lia.
  assert (b < 2 ^ n) by (eapply Z.lt_le_trans; [exact H2|]; change 256 with (2 ^ 8); apply Z.pow_le_mono_r; lia).
  rewrite Z.div_small by lia. done.
Qed.

(** A byte shifted below a mask is masked out. *)
Lemma land_byte_mask b s t mask : is_byte b -> 0 <= s -> s + 8 <= t ->
  Z.land (Z.shiftl b s) (Z.shiftl mask t) = 0.
Proof.
  intros Hb Hs Ht. apply Z.bits_inj'. intros n Hn. rewrite Z.land_spec, Z.bits_0, !Z.shiftl_spec by lia.
  destruct (decide (n < t)); [by rewrite (Z.testbit_neg_r mask), andb_false_r by lia|].
  rewrite (testbit_byte b) by (done || lia). done.
Qed.

(** Of a word with [k] bytes of the message, the mask keeps those. *)
Lemma land_word_mask k a b c d : is_byte b -> is_byte c -> is_byte d -> (1 <= k <= 4)%nat ->
  Z.land (word a b c d) (osa_mask32bit (Z.rem (8 * Z.of_nat k) 32)) =
  Z.land (word a (if (1 <? k)%nat then b else 0) (if (2 <? k)%nat then c else 0) (if (3 <? k)%nat then d else 0))
    (osa_mask32bit (Z.rem (8 * Z.of_nat k) 32)).
Proof.
  intros Hb Hc Hd Hk. unfold word. rewrite <- (Z.shiftl_0_r d).
  assert (Ed : forall x, x = Z.shiftl x 0) by (intros; by rewrite Z.shiftl_0_r).
  assert (k = 1 \/ k = 2 \/ k = 3 \/ k = 4)%nat as [-> |[-> |[-> | ->]]] by lia; simpl Nat.ltb; cbv iota;
    [change (osa_mask32bit _) with (Z.shiftl 0xff 24)
    |change (osa_mask32bit _) with (Z.shiftl 0xffff 16)
    |change (osa_mask32bit _) with (Z.shiftl 0xffffff 8)
    |by rewrite Z.shiftl_0_r];
    rewrite !Z.land_lor_distr_l, ?Z.shiftl_0_l, ?Z.land_0_l;
    rewrite ?(land_byte_mask b), ?(land_byte_mask c), ?(land_byte_mask d) by (done || lia); done.
Qed.

Lemma load32_masked L k m m' i : 0 <= i -> (1 <= k <= 4)%nat -> i + Z.of_nat k <= Z.of_nat L ->
  i + 4 <= Z.of_nat (length m) -> i + 4 <= Z.of_nat (length m') ->
  Forall is_byte m -> Forall is_byte m' -> take L m = take L m' ->
  exists w w', load32 m i = Ok w /\ load32 m' i = Ok w' /\
    Z.land w (osa_mask32bit (Z.rem (8 * Z.of_nat k) 32)) = Z.land w' (osa_mask32bit (Z.rem (8 * Z.of_nat k) 32)).
Proof.
  intros Hi Hk HL Hm Hm' Bm Bm' E.
  destruct (load32_ok m i) as (a & b & c & d & T & ->); [lia..|].
  destruct (load32_ok m' i) as (a' & b' & c' & d' & T' & ->); [lia..|].
  eexists _, _. split; [done|]. split; [done|].
  pose proof (take_drop_prefix L m m' (Z.to_nat i) k ltac:(lia) E) as P.
  assert (F : Forall is_byte [a; b; c; d]) by (rewrite <- T; by apply Forall_take, Forall_drop).
  assert (F' : Forall is_byte [a'; b'; c'; d']) by (rewrite <- T'; by apply Forall_take, Forall_drop).
  replace (take k (drop (Z.to_nat i) m)) with (take k [a; b; c; d]) in P
    by (rewrite <- T, take_take; f_equal; lia).
  replace (take k (drop (Z.to_nat i) m')) with (take k [a'; b'; c'; d']) in P
    by (rewrite <- T', take_take; f_equal; lia).
  clear E T T'. decompose_Forall_hyps.
  rewrite (land_word_mask k a), (land_word_mask k a') by done.
  assert (k = 1 \/ k = 2 \/ k = 3 \/ k = 4)%nat as [-> |[-> |[-> | ->]]] by lia; simpl in P; simplify_eq; done.
Qed.

Lemma eia1_blocks_ok L m m' P fuel i e : 0 <= i -> 8 * (i + Z.of_nat fuel) <= Z.of_nat L ->
  (L <= length m)%nat -> (L <= length m')%nat -> take L m = take L m' ->
  exists e', eia1_blocks fuel i m P e = Ok e' /\ eia1_blocks fuel i m' P e = Ok e'.
Proof.
  intros Hi HL Hm Hm' E. revert i e Hi HL. induction fuel as [|fuel IH]; intros i e Hi HL; [by exists e|].
  cbn [eia1_blocks].
  rewrite <- (load32_prefix L m m' (8 * i)), <- (load32_prefix L m m' (8 * i + 4)) by (done || lia).
  destruct (load32_ok m (8 * i)) as (? & ? & ? & ? & _ & ->); [lia..|].
  destruct (load32_ok m (8 * i + 4)) as (? & ? & ? & ? & _ & ->); [lia..|].
  cbn [mbind res_bind]. apply IH; lia.
Qed.

(** The number of 32-bit words of [L] bytes. *)
Definition words_of (L : nat) : Z := (8 * Z.of_nat L + 31) / 32.

Lemma eia1_last_ok p L m m' : blength p = 8 * Z.of_nat L -> (1 <= L)%nat ->
  4 * words_of L <= Z.of_nat (length m) -> 4 * words_of L <= Z.of_nat (length m') ->
  Forall is_byte m -> Forall is_byte m' -> take L m = take L m' ->
  let D := (blength p + 63) / 64 + 1 in
  exists w, eia1_last p D m = Ok w /\ eia1_last p D m' = Ok w.
Proof.
  intros HB H1 Hm Hm' Bm Bm' E D. unfold words_of in *. unfold eia1_last. rewrite HB in *.
  set (B := 8 * (D - 2)).
  assert (HD : B <= Z.of_nat L - 1 < B + 8 /\ 0 <= B)
    by (unfold B, D; rewrite HB; Z.to_euclidean_division_equations; lia).
  set (r := Z.to_nat (Z.of_nat L - B)).
  assert (Hr : (1 <= r <= 8)%nat /\ Z.of_nat L = B + Z.of_nat r) by lia.
  assert (Erem : (if Z.rem (8 * Z.of_nat L) 64 =? 0 then 64 else Z.rem (8 * Z.of_nat L) 64) = 8 * Z.of_nat r).
  { rewrite Z.rem_mod_nonneg by lia.
    assert (8 * Z.of_nat L mod 64 = (8 * Z.of_nat r) mod 64)
      by (unfold B, D in Hr; rewrite HB in Hr; Z.to_euclidean_division_equations; lia).
    case_match; Z.to_euclidean_division_equations; lia. }
  rewrite Erem. clear Erem.
  assert (HW : B + (if decide (r <= 4)%nat then 4 else 8) <= 4 * ((8 * Z.of_nat L + 31) / 32)).
  { assert (exists q, B = 8 * q) as [q Hq] by (exists (D - 2); done). case_decide; Z.to_euclidean_division_equations; lia. }
  destruct (decide (r <= 4)%nat) as [Hr4|Hr4].
  - rewrite (proj2 (Z.ltb_ge _ _)) by lia.
    destruct (load32_masked L r m m' B) as (w & w' & -> & -> & Ew); try done; try lia.
    cbn [mbind res_bind]. rewrite Ew. by eexists.
  - rewrite (proj2 (Z.ltb_lt _ _)) by lia. rewrite <- (load32_prefix L m m' B) by (done || lia).
    assert (Em : Z.rem (8 * Z.of_nat r) 32 = Z.rem (8 * Z.of_nat (r - 4)) 32)
      by (Z.to_euclidean_division_equations; lia).
    rewrite Em.
    destruct (load32_ok m B) as (? & ? & ? & ? & _ & ->); [lia..|].
    destruct (load32_masked L (r - 4) m m' (B + 4)) as (w & w' & -> & -> & Ew); try done; try lia.
    cbn [mbind res_bind]. rewrite Ew. by eexists.
Qed.

(** What a receiver gets as a message authentication code. *)
Definition is_mac (mac : list Z) : Prop := length mac = 4%nat /\ Forall is_byte mac.

(** EIA1 over whole bytes: it returns, and its result is a function of those
    bytes. *)
Lemma eia1_ok p L m m' : (16 <= length (key p))%nat -> blength p = 8 * Z.of_nat L -> (1 <= L)%nat ->
  4 * words_of L <= Z.of_nat (length m) -> 4 * words_of L <= Z.of_nat (length m') ->
  Forall is_byte m -> Forall is_byte m' -> take L m = take L m' ->
  exists mac, is_mac mac /\
    stream_compute_integrity_eia1 p m = Ok mac /\ stream_compute_integrity_eia1 p m' = Ok mac.
Proof.
  intros HK HB H1 Hm Hm' Bm Bm' E. unfold stream_compute_integrity_eia1.
  destruct (load_key_ok _ HK) as [[[[k0 k1] k2] k3] ->]. cbn [mbind res_bind].
  pose proof (generate_length 5 (osa_snow3g_initialize k0 k1 k2 k3
    (Z.lxor (u32 (Z.shiftl (Z.land (bearer p) 0x1F) 27)) (Z.shiftl (Z.land (direction p) 1) 15))
    (Z.lxor (count p) (u32 (Z.shiftl (direction p) 31)))
    (u32 (Z.shiftl (Z.land (bearer p) 0x1F) 27)) (count p))) as Hg.
  destruct (osa_snow3g_generate_key_stream 5 _) as [|z0 [|z1 [|z2 [|z3 [|z4 [|]]]]]]; try done.
  assert (HL : 8 * ((8 * Z.of_nat L + 63) / 64 + 1 - 2) <= Z.of_nat L /\ 0 <= (8 * Z.of_nat L + 63) / 64 + 1 - 2)
    by (Z.to_euclidean_division_equations; lia).
  assert (Hw : Z.of_nat L <= 4 * words_of L) by (unfold words_of; Z.to_euclidean_division_equations; lia).
  destruct (eia1_blocks_ok L m m' (Z.lor (Z.shiftl z0 32) z1) (Z.to_nat ((blength p + 63) / 64 + 1 - 2)) 0 0)
    as (e & -> & ->); [lia|rewrite HB; lia|lia|lia|done|].
  destruct (eia1_last_ok p L m m') as (w & -> & ->); try done.
  cbn [mbind res_bind]. eexists. split; [|done]. split; [done|]. apply store32_bytes.
Qed.

Section MacFacts.
Context `{AesLib}.

Lemma shiftr_bytes L : Z.shiftr (8 * Z.of_nat L) 3 = Z.of_nat L.
Proof. rewrite Z.shiftr_div_pow2 by lia. change (2 ^ 3) with 8. Z.to_euclidean_division_equations; lia. Qed.

Lemma byte_length_bytes p L : blength p = 8 * Z.of_nat L -> byte_length_of p = Z.of_nat L.
Proof.
  intros E. unfold byte_length_of. rewrite E, land7, shiftr_bytes; [simpl; lia|].
  Z.to_euclidean_division_equations; lia.
Qed.

(** What every integrity algorithm does on a message of [L] bytes. *)
Lemma integrity_ok alg p L m m' : (16 <= length (key p))%nat -> blength p = 8 * Z.of_nat L -> (1 <= L)%nat ->
  4 * words_of L <= Z.of_nat (length m) -> 4 * words_of L <= Z.of_nat (length m') ->
  Forall is_byte m -> Forall is_byte m' -> take L m = take L m' ->
  exists mac, stream_compute_integrity alg p m = Ok mac /\ stream_compute_integrity alg p m' = Ok mac /\
    (mac = None <-> alg <> EIA1_128_ALG_ID /\ alg <> EIA2_128_ALG_ID) /\ from_option is_mac True mac.
Proof.
  intros HK HB H1 Hm Hm' Bm Bm' E. unfold stream_compute_integrity.
  assert (Hw : Z.of_nat L <= 4 * words_of L) by (unfold words_of; Z.to_euclidean_division_equations; lia).
  destruct (Z.eqb_spec alg EIA1_128_ALG_ID) as [->|N1].
  { destruct (eia1_ok p L m m') as (mac & Hmac & -> & ->); try done. eexists. split_and!; [done..|naive_solver|done]. }
  destruct (Z.eqb_spec alg EIA2_128_ALG_ID) as [->|N2].
  2: { eexists. split_and!; [done..|naive_solver|done]. }
  unfold stream_compute_integrity_eia2. rewrite (byte_length_bytes p L HB).
  rewrite !(proj2 (Z.ltb_ge _ _)) by lia. rewrite !Nat2Z.id, E.
  eexists. split_and!; [done..|naive_solver|]. split; [|apply Forall_take, aes128_cmac_bytes].
  rewrite length_take, aes128_cmac_length. done.
Qed.
End MacFacts.

(** ** Ciphering is local *)

Lemma xor_bytes_local K a b ks : (length ks <= length a)%nat -> (length ks <= length b)%nat ->
  take K a = take K b -> take K (xor_bytes a ks) = take K (xor_bytes b ks).
Proof.
  intros Ha Hb E. apply list_eq. intros i.
  destruct (decide (i < K)%nat) as [Hi|Hi]; [|by rewrite !lookup_take_ge by lia].
  rewrite !lookup_take_lt by done.
  assert (Ei : a !! i = b !! i) by (rewrite <- (lookup_take_lt a K i Hi), E; by apply lookup_take_lt).
  assert (X : forall m : list Z, (length ks <= length m)%nat -> xor_bytes m ks !! i =
    if decide (i < length ks)%nat then (x ← m !! i; y ← ks !! i; Some (Z.lxor x y)) else m !! i).
  { intros m Hm. unfold xor_bytes.
    assert (Hz : length (zip_with Z.lxor (take (length ks) m) ks) = length ks)
      by (rewrite length_zip_with, length_take; lia).
    case_decide.
    - rewrite lookup_app_l by lia. rewrite lookup_zip_with, lookup_take_lt by done.
      by destruct (m !! i), (ks !! i).
    - rewrite lookup_app_r, Hz, lookup_drop by lia. f_equal. lia. }
  by rewrite !X, Ei by done.
Qed.

Section LocalFacts.
Context `{AesLib}.

(** Two buffers that agree up to [K], at or after the message's end, are
    ciphered to buffers that agree up to [K]. *)
Lemma stream_encrypt_local alg p L K a b a' b' : crypt_ok alg p a -> crypt_ok alg p b ->
  blength p = 8 * Z.of_nat L -> (L <= K)%nat -> take K a = take K b ->
  stream_encrypt alg p a = Ok (0, a') -> stream_encrypt alg p b = Ok (0, b') -> take K a' = take K b'.
Proof.
  intros [KA KLA BA SA RA YA] [_ _ _ _ RB _] HL HK E. unfold cipher_bytes in *.
  unfold stream_encrypt. destruct (alg =? EEA0_ALG_ID).
  { unfold stream_encrypt_eea0.
    destruct (Z.of_nat (length a) <? _), (Z.of_nat (length b) <? _); intros; by simplify_eq. }
  destruct (alg =? EEA1_128_ALG_ID).
  { unfold stream_encrypt_eea1. rewrite KLA, Z.eqb_refl. cbn [assert_fatal mbind res_bind].
    destruct (load_key_ok _ KA) as [k ->]. cbn [mbind res_bind]. rewrite land7 by done.
    set (n := (blength p + 31) / 32) in *. assert (Hn : 0 <= n) by (apply Z.div_pos; lia).
    rewrite quot_u32 by lia. fold n. rewrite !(proj2 (Z.ltb_ge _ _)), ?Z.ltb_irrefl by lia.
    intros; simplify_eq. apply xor_bytes_local; try done; rewrite eea1_key_stream_length; lia. }
  destruct (alg =? EEA2_128_ALG_ID); [|done].
  unfold stream_encrypt_eea2. rewrite (byte_length_bytes p L HL), land7 by done.
  assert (Hb : blength p / 8 = Z.of_nat L) by (rewrite HL; Z.to_euclidean_division_equations; lia).
  rewrite !(proj2 (Z.ltb_ge _ _)), ?Z.ltb_irrefl by lia. rewrite !Nat2Z.id. intros; simplify_eq.
  assert (EL : take L a = take L b).
  { replace L with (L `min` K)%nat by lia. by rewrite <- !take_take, E. }
  rewrite !take_app, !aes128_ctr_length, !length_take, EL.
  replace (L `min` length a)%nat with L by lia. replace (L `min` length b)%nat with L by lia. f_equal.
  apply (take_drop_prefix K); [lia|done].
Qed.

(** A deciphering of what was ciphered gives the plain text back, also when
    only the first [K] bytes of the buffer reached the receiver, and also for
    the algorithm numbers that leave the buffer as it is. *)
Lemma cipher_transfer alg p L K a : crypt_ok alg p a -> blength p = 8 * Z.of_nat L -> (L <= K)%nat ->
  exists rc a', stream_encrypt alg p a = Ok (rc, a') /\ length a' = length a /\ Forall is_byte a' /\
    forall b, crypt_ok alg p b -> take K b = take K a' ->
      exists rc' b', stream_decrypt alg p b = Ok (rc', b') /\ length b' = length b /\ Forall is_byte b' /\
        take K b' = take K a.
Proof.
  intros Hok HL HK.
  destruct (decide (alg = 0 \/ alg = 1 \/ alg = 2)) as [Ha|Ha].
  - destruct (stream_encrypt_ok alg p a Hok Ha) as (a' & E & Hl & D & By).
    exists 0, a'. split_and!; try done. intros b Hb Eb.
    destruct (stream_encrypt_ok alg p b Hb Ha) as (b' & E' & Hl' & _ & By').
    exists 0, b'. split_and!; try done.
    apply (stream_encrypt_local alg p L K b a'); try done.
    destruct Hok. split; try done. by rewrite Hl.
  - assert (Eid : forall m, stream_encrypt alg p m = Ok (-1, m)).
    { intros m. unfold stream_encrypt, EEA0_ALG_ID, EEA1_128_ALG_ID, EEA2_128_ALG_ID.
      rewrite !(proj2 (Z.eqb_neq _ _)) by lia. done. }
    exists (-1), a. split_and!; try done; [by destruct Hok|]. intros b Hb Eb. exists (-1), b.
    split_and!; try done; by destruct Hb.
Qed.
End LocalFacts.

(** ** Claims *)

(** A toy [AesLib]: CTR as the exclusive or with a byte that depends on the
    key and on the counter block. *)
Definition toy_pad (k iv : list Z) : Z := u8 (default 0 (head k) + foldr Z.add 0 iv).

Lemma toy_pad_byte k iv : is_byte (toy_pad k iv).
Proof. unfold is_byte, toy_pad. pose proof (u8_range (default 0 (head k) + foldr Z.add 0 iv)). lia. Qed.

#[local, refine] Instance toy_aes : AesLib := {|
  aes128_ctr k iv m := (fun b => Z.lxor b (toy_pad k iv)) <$> m;
  aes128_cmac k m := store32 (foldr Z.lxor (toy_pad k []) m) ++ replicate 12 0
|}.
Proof.
  - intros. by rewrite length_fmap.
  - intros k iv m F. apply Forall_fmap. eapply Forall_impl; [exact F|]. intros x Hx. simpl.
    apply lxor_byte; [done|apply toy_pad_byte].
  - intros k iv m _. rewrite <- list_fmap_compose. rewrite <- (list_fmap_id m) at 2.
    apply list_fmap_ext. intros _ x _. simpl. by rewrite Z.lxor_assoc, Z.lxor_nilpotent, Z.lxor_0_r.
  - intros. reflexivity.
  - intros. apply Forall_app. split; [apply store32_bytes|]. by apply Forall_replicate.
Defined.

Section Claims.
Context `{AesLib}.

(** C27. Ciphering and deciphering: for each supported algorithm (EEA0,
    EEA1, EEA2) and a message of whole bytes in a buffer with room for its
    32-bit words, [stream_encrypt] succeeds, [stream_decrypt] of its result
    gives back the whole buffer, the buffer's length is unchanged, and
    ciphering the same message in any other such buffer gives the same
    ciphered bytes (what follows the message does not reach it). *)
Theorem stream_cipher_roundtrip alg p L message other :
  crypt_ok alg p message -> crypt_ok alg p other -> alg = 0 \/ alg = 1 \/ alg = 2 ->
  blength p = 8 * Z.of_nat L -> take L message = take L other ->
  exists c c', stream_encrypt alg p message = Ok (0, c) /\ stream_decrypt alg p c = Ok (0, message) /\
    length c = length message /\
    stream_encrypt alg p other = Ok (0, c') /\ take L c' = take L c.
Proof.
  intros Hm Ho Ha HL E.
  destruct (stream_encrypt_ok alg p message Hm Ha) as (c & Hc & Hlc & Hd & _).
  destruct (stream_encrypt_ok alg p other Ho Ha) as (c' & Hc' & _).
  exists c, c'. split_and!; try done.
  by apply (stream_encrypt_local alg p L L other message).
Qed.

(** C28. The message authentication codes: for EIA1 and EIA2 and a message
    of [L >= 1] whole bytes, the code is computed without an access outside
    the message's 32-bit words, and is the same for two buffers that agree
    on the message: the bits of the last word that are past its end are
    masked out. [stream_check_integrity] therefore accepts the code
    [stream_compute_integrity] computed, wherever the message is. *)
Theorem stream_integrity_accepts alg p L m m' : alg = 1 \/ alg = 2 ->
  (16 <= length (key p))%nat -> blength p = 8 * Z.of_nat L -> (1 <= L)%nat ->
  4 * words_of L <= Z.of_nat (length m) -> 4 * words_of L <= Z.of_nat (length m') ->
  Forall is_byte m -> Forall is_byte m' -> take L m = take L m' ->
  exists mac, is_mac mac /\ stream_compute_integrity alg p m = Ok (Some mac) /\
    stream_compute_integrity alg p m' = Ok (Some mac) /\ stream_check_integrity alg p m' mac = Ok 0.
Proof.
  intros Ha HK HB H1 Hm Hm' Bm Bm' E.
  destruct (integrity_ok alg p L m m') as (mac & E1 & E2 & E3 & E4); try done.
  assert (N : mac <> None).
  { rewrite E3. unfold EIA1_128_ALG_ID, EIA2_128_ALG_ID. lia. }
  destruct mac as [mac|]; [|done]. exists mac. split_and!; try done.
  unfold stream_check_integrity, EIA0_ALG_ID. replace (alg =? 0) with false by lia.
  cbn [negb]. cbv iota. rewrite E2. cbn [mbind res_bind]. destruct E4 as [-> _].
  by rewrite bool_decide_true.
Qed.
End Claims.

(** A 5-byte message in two buffers that differ after it. *)
Definition toy_key : list Z := [0x2b; 0xd6; 0x45; 0x9f; 0x82; 0xc5; 0xb3; 0x00; 0x95; 0x2c; 0x49; 0x10; 0x48; 0x81; 0xff; 0x48].
Definition toy_params : stream_cipher_t := mk_stream toy_key 16 0x38a6f056 0x1f 0 40.
Definition toy_message : list Z := [1; 2; 3; 4; 5; 0; 0; 0].
Definition toy_other : list Z := [1; 2; 3; 4; 5; 255; 7; 9; 200].

Lemma toy_ok : crypt_ok 1 toy_params toy_message /\ crypt_ok 1 toy_params toy_other.
Proof. split; constructor; try (vm_compute; congruence); try done; unfold is_byte; by repeat constructor. Qed.

Lemma stream_cipher_roundtrip_witness :
  exists c c', stream_encrypt 1 toy_params toy_message = Ok (0, c) /\ stream_decrypt 1 toy_params c = Ok (0, toy_message) /\
    length c = length toy_message /\ stream_encrypt 1 toy_params toy_other = Ok (0, c') /\ take 5 c' = take 5 c.
Proof.
  apply (stream_cipher_roundtrip 1 toy_params 5); [apply toy_ok|apply toy_ok|tauto|reflexivity|reflexivity].
Defined.

Lemma stream_integrity_accepts_witness :
  exists mac, is_mac mac /\ stream_compute_integrity 1 toy_params toy_message = Ok (Some mac) /\
    stream_compute_integrity 1 toy_params toy_other = Ok (Some mac) /\ stream_check_integrity 1 toy_params toy_other mac = Ok 0.
Proof.
  apply (stream_integrity_accepts 1 toy_params 5); try apply toy_ok; try reflexivity; try (vm_compute; congruence); [tauto|lia].
Defined.

(** The EIA1 test sets 1, 2, 3 and 5 of the repository
    (openair3/TEST/test_secu_knas_encrypt_eia1.c): the code computed for
    messages of 88, 254, 511 and 383 bits is the expected one (partial last
    words, partial last bytes and several blocks). *)
Theorem eia1_test_sets :
  stream_compute_integrity 1
    (mk_stream [0x2b; 0xd6; 0x45; 0x9f; 0x82; 0xc5; 0xb3; 0x00; 0x95; 0x2c; 0x49; 0x10; 0x48; 0x81; 0xff; 0x48] 16 0x38a6f056 0x1f 0 88)
    [0x33; 0x32; 0x34; 0x62; 0x63; 0x39; 0x38; 0x61; 0x37; 0x34; 0x79; 0x00; 0x00; 0x00; 0x00; 0x00]
  = Ok (Some [0x73; 0x1f; 0x11; 0x65]) /\
  stream_compute_integrity 1
    (mk_stream [0x7e; 0x5e; 0x94; 0x43; 0x1e; 0x11; 0xd7; 0x38; 0x28; 0xd7; 0x39; 0xcc; 0x6c; 0xed; 0x45; 0x73] 16 0x36af6144 0x18 1 254)
    [0xb3; 0xd3; 0xc9; 0x17; 0x0a; 0x4e; 0x16; 0x32; 0xf6; 0x0f; 0x86; 0x10; 0x13; 0xd2; 0x2d; 0x84; 0xb7;
     0x26; 0xb6; 0xa2; 0x78; 0xd8; 0x02; 0xd1; 0xee; 0xaf; 0x13; 0x21; 0xba; 0x59; 0x29; 0xdc]
  = Ok (Some [0xe3; 0x25; 0x9f; 0x6f]) /\
  stream_compute_integrity 1
    (mk_stream [0xd3; 0x41; 0x9b; 0xe8; 0x21; 0x08; 0x7a; 0xcd; 0x02; 0x12; 0x3a; 0x92; 0x48; 0x03; 0x33; 0x59] 16 0xc7590ea9 0x17 0 511)
    [0xbb; 0xb0; 0x57; 0x03; 0x88; 0x09; 0x49; 0x6b; 0xcf; 0xf8; 0x6d; 0x6f; 0xbc; 0x8c; 0xe5; 0xb1; 0x35;
     0xa0; 0x6b; 0x16; 0x60; 0x54; 0xf2; 0xd5; 0x65; 0xbe; 0x8a; 0xce; 0x75; 0xdc; 0x85; 0x1e; 0x0b; 0xcd;
     0xd8; 0xf0; 0x71; 0x41; 0xc4; 0x95; 0x87; 0x2f; 0xb5; 0xd8; 0xc0; 0xc6; 0x6a; 0x8b; 0x6d; 0xa5; 0x56;
     0x66; 0x3e; 0x4e; 0x46; 0x12; 0x05; 0xd8; 0x45; 0x80; 0xbe; 0xe5; 0xbc; 0x7e]
  = Ok (Some [0x9a; 0x16; 0xc7; 0x7d]) /\
  stream_compute_integrity 1
    (mk_stream [0x68; 0x32; 0xa6; 0x5c; 0xff; 0x44; 0x73; 0x62; 0x1e; 0xbd; 0xd4; 0xba; 0x26; 0xa9; 0x21; 0xfe] 16 0x36af6144 0x18 0 383)
    [0xd3; 0xc5; 0x38; 0x39; 0x62; 0x68; 0x20; 0x71; 0x77; 0x65; 0x66; 0x76; 0x20; 0x32; 0x38; 0x37; 0x63;
     0x62; 0x40; 0x98; 0x1b; 0xa6; 0x82; 0x4c; 0x1b; 0xfb; 0x1a; 0xb4; 0x85; 0x47; 0x20; 0x29; 0xb7; 0x1d;
     0x80; 0x8c; 0xe3; 0x3e; 0x2c; 0xc3; 0xc0; 0xb5; 0xfc; 0x1f; 0x3d; 0xe8; 0xa6; 0xdc]
  = Ok (Some [0x41; 0x45; 0xe4; 0xb0]).
Proof. split_and!; vm_compute; reflexivity. Qed.

End Osa.
