(* ===== verification/Pdcp.v ===== *)
(** * PDCP: entities, sequence numbers, headers and security

    openair2/LAYER2/PDCP_v10.1.0: the entity [pdcp_t], its sequence manager,
    the PDU headers and the application of security. A buffer pointer is the
    list of the bytes from it to the end of its memory block. A key is the
    address of its buffer with the buffer's bytes, [None] for [NULL].
    The code is taken with [ENABLE_SECURITY]. *)

From S2P Require Import Prelude Snow3g Osa.

Module Pdcp.
Import Osa.

Inductive rlc_mode_t : Type := RLC_MODE_NONE | RLC_MODE_AM | RLC_MODE_UM | RLC_MODE_TM.
#[export] Instance rlc_mode_eq_dec : EqDecision rlc_mode_t.
Proof. solve_decision. Defined.

Record key_buffer : Type := mk_key { key_address : Z; key_bytes : list Z }.

Record pdcp_t : Type := mk_pdcp {
  header_compression_profile : Z;
  is_ue : bool;
  is_srb : bool;
  cipheringAlgorithm : Z;
  integrityProtAlgorithm : Z;
  kUPenc : option key_buffer;
  kRRCint : option key_buffer;
  kRRCenc : option key_buffer;
  security_activated : Z;
  rlc_mode : rlc_mode_t;
  status_report : Z;
  seq_num_size : Z;
  lcid : Z;
  rb_id : Z;
  next_pdcp_tx_sn : Z;
  next_pdcp_rx_sn : Z;
  next_pdcp_rx_sn_before_integrity : Z;
  tx_hfn : Z;
  rx_hfn : Z;
  rx_hfn_offset : Z;
  last_submitted_pdcp_rx_sn : Z;
  missing_pdu_bitmap : list Z;
  first_missing_pdu : Z
}.
#[export] Instance pdcp_eta : Settable pdcp_t := fun p =>
  mk_pdcp (header_compression_profile p) (is_ue p) (is_srb p) (cipheringAlgorithm p) (integrityProtAlgorithm p)
    (kUPenc p) (kRRCint p) (kRRCenc p) (security_activated p) (rlc_mode p) (status_report p) (seq_num_size p)
    (lcid p) (rb_id p) (next_pdcp_tx_sn p) (next_pdcp_rx_sn p) (next_pdcp_rx_sn_before_integrity p) (tx_hfn p)
    (rx_hfn p) (rx_hfn_offset p) (last_submitted_pdcp_rx_sn p) (missing_pdu_bitmap p) (first_missing_pdu p).

(** The object of [calloc(1, sizeof(pdcp_t))]. *)
Definition pdcp_zero : pdcp_t :=
  mk_pdcp 0 false false 0 0 None None None 0 RLC_MODE_NONE 0 0 0 0 0 0 0 0 0 0 0 (replicate 512 0) 0.

Definition PDCP_SN_5BIT : Z := 5.
Definition PDCP_SN_7BIT : Z := 7.
Definition PDCP_SN_12BIT : Z := 12.
Definition REORDERING_WINDOW_SN_7BIT : Z := 64.
Definition REORDERING_WINDOW_SN_12BIT : Z := 2048.
Definition len7bits : Z := 0. (* PDCP_Config__rlc_UM__pdcp_SN_Size_len7bits *)
Definition len12bits : Z := 1.

(** ** pdcp_sequence_manager.c *)

Definition pdcp_init_seq_numbers (p : pdcp_t) : pdcp_t :=
  p <| next_pdcp_tx_sn := 0 |> <| next_pdcp_rx_sn := 0 |> <| tx_hfn := 0 |> <| rx_hfn := 0 |>
    <| last_submitted_pdcp_rx_sn := 4095 |>.

Definition pdcp_is_seq_num_size_valid (p : pdcp_t) : bool :=
  negb (negb (seq_num_size p =? 5) && negb (seq_num_size p =? 7) && negb (seq_num_size p =? 12)).

Definition pdcp_calculate_max_seq_num_for_given_size (n : Z) : Z := u16 (u16 (Z.shiftl 1 n) - 1).

Definition pdcp_is_seq_num_valid (seq_num n : Z) : bool :=
  (0 <=? seq_num) && (seq_num <=? pdcp_calculate_max_seq_num_for_given_size n).

Definition pdcp_get_next_tx_seq_number (p : pdcp_t) : Z * pdcp_t :=
  if negb (pdcp_is_seq_num_size_valid p) then (u16 (-1), p)
  else
    (next_pdcp_tx_sn p,
     if next_pdcp_tx_sn p =? pdcp_calculate_max_seq_num_for_given_size (seq_num_size p)
     then p <| next_pdcp_tx_sn := 0 |> <| tx_hfn ::= fun h => u32 (h + 1) |>
     else p <| next_pdcp_tx_sn ::= fun n => u16 (n + 1) |>).

Definition pdcp_advance_rx_window (p : pdcp_t) : bool * pdcp_t :=
  if negb (pdcp_is_seq_num_size_valid p) then (false, p)
  else
    (true,
     if next_pdcp_rx_sn p =? pdcp_calculate_max_seq_num_for_given_size (seq_num_size p)
     then p <| next_pdcp_rx_sn := 0 |> <| rx_hfn ::= fun h => u32 (h + 1) |>
     else p <| next_pdcp_rx_sn ::= fun n => u16 (n + 1) |>).

Definition util_mark_nth_bit_of_octet (octet index : Z) : Z := Z.lor octet (Z.shiftr 0x80 index).

Definition pdcp_mark_current_pdu_as_received (seq_num : Z) (p : pdcp_t) : pdcp_t :=
  p <| missing_pdu_bitmap ::= alter (fun o => util_mark_nth_bit_of_octet o (Z.rem seq_num 8))
                                (Z.to_nat (Z.quot seq_num 8)) |>.

(** The receive procedure of an AM bearer; [int] differences of [uint16_t]s. *)
Definition rx_am (seq_num reordering_window : Z) (p : pdcp_t) : bool * pdcp_t :=
  let last := last_submitted_pdcp_rx_sn p in
  let next := next_pdcp_rx_sn p in
  if (seq_num - last >? reordering_window) || ((0 <=? last - seq_num) && (last - seq_num <? reordering_window)) then
    (false, if seq_num >? next then p <| rx_hfn_offset := -1 |> else p <| rx_hfn_offset := 0 |>)
  else if next - seq_num >? reordering_window then
    (true, p <| rx_hfn ::= fun h => u32 (h + 1) |> <| rx_hfn_offset := 0 |> <| next_pdcp_rx_sn ::= fun n => u16 (n + 1) |>)
  else if seq_num - next >=? reordering_window then (true, p <| rx_hfn_offset := -1 |>)
  else if seq_num >=? next then
    (true, (pdcp_advance_rx_window (p <| rx_hfn_offset := 0 |> <| next_pdcp_rx_sn := seq_num |>)).2)
  else if seq_num <? next then (true, p <| rx_hfn_offset := 0 |>)
  else (true, p).

Definition rx_um (seq_num : Z) (p : pdcp_t) : bool * pdcp_t :=
  let p1 := if seq_num <? next_pdcp_rx_sn p then p <| rx_hfn ::= fun h => u32 (h + 1) |> else p in
  (true, (pdcp_advance_rx_window (p1 <| next_pdcp_rx_sn := seq_num |>)).2).

Definition rx_srb (seq_num : Z) (p : pdcp_t) : bool * pdcp_t :=
  let p1 := if seq_num <? next_pdcp_rx_sn p
            then p <| rx_hfn ::= fun h => u32 (h + 1) |> <| rx_hfn_offset := 0 |>
            else p <| rx_hfn_offset := 0 |> in
  let p2 := p1 <| next_pdcp_rx_sn_before_integrity := next_pdcp_rx_sn p1 |> <| next_pdcp_rx_sn := seq_num |> in
  (true, (pdcp_advance_rx_window p2).2).

Definition pdcp_is_rx_seq_number_valid (seq_num : Z) (p : pdcp_t) (srb_flagP : bool) : bool * pdcp_t :=
  if negb (pdcp_is_seq_num_size_valid p) || negb (pdcp_is_seq_num_valid seq_num (seq_num_size p)) then (false, p)
  else
    let p1 := pdcp_mark_current_pdu_as_received seq_num p in
    if srb_flagP then rx_srb seq_num p1
    else
      let reordering_window :=
        if seq_num_size p1 =? PDCP_SN_7BIT then REORDERING_WINDOW_SN_7BIT else REORDERING_WINDOW_SN_12BIT in
      match rlc_mode p1 with
      | RLC_MODE_AM => rx_am seq_num reordering_window p1
      | RLC_MODE_UM => rx_um seq_num p1
      | _ => (false, p1)
      end.

(** ** pdcp_primitives.c *)

(** [pdu_buffer[i]] *)
Definition octet (b : list Z) (i : nat) : res Z := of_option OutOfBounds (b !! i).

(** A write of [bytes] at [&b[off]]. *)
Definition write_at (b : list Z) (off : nat) (bytes : list Z) : res (list Z) :=
  if (length b <? off + length bytes)%nat then Fault OutOfBounds
  else Ok (take off b ++ bytes ++ drop (off + length bytes) b).

Definition pdcp_get_dc_filed (b : list Z) : res Z :=
  o ← octet b 0; Ok (Z.shiftr (Z.land o 0xF0) 8).

Definition pdcp_get_sequence_number_of_pdu_with_long_sn (b : list Z) : res Z :=
  o0 ← octet b 0; o1 ← octet b 1;
  Ok (Z.lor (u16 (Z.shiftl (Z.land o0 0x0F) 8)) (Z.land o1 0xFF)).

Definition pdcp_get_sequence_number_of_pdu_with_short_sn (b : list Z) : res Z :=
  o ← octet b 0; Ok (Z.land o 0x7F).

Definition pdcp_get_sequence_number_of_pdu_with_SRB_sn (b : list Z) : res Z :=
  o ← octet b 0; Ok (Z.land o 0x1F).

Definition pdcp_serialize_control_plane_data_pdu_with_SRB_sn_buffer (b : list Z) (sn : Z) : res (list Z) :=
  write_at b 0 [Z.land sn 0x1F].

Definition PDCP_CONTROL_PDU_BIT_SET : Z := 0.
Definition PDCP_DATA_PDU_BIT_SET : Z := 1.

Definition pdcp_serialize_user_plane_data_pdu_with_long_sn_buffer (b : list Z) (dc sn : Z) : res (list Z) :=
  let o0 := Z.land (Z.shiftr sn 8) 0xFF in
  write_at b 0 [if dc =? PDCP_DATA_PDU_BIT_SET then Z.lor o0 0x80 else o0; Z.land sn 0xFF].

Definition pdcp_serialize_control_pdu_for_pdcp_status_report (b bitmap : list Z) (first_missing_sn : Z) : res (list Z) :=
  o0 ← octet b 0; o1 ← octet b 1;
  let o0' := Z.lor (util_mark_nth_bit_of_octet o0 1) (Z.land (Z.shiftr first_missing_sn 8) 0xFF) in
  let o1' := Z.lor o1 (Z.land first_missing_sn 0xFF) in
  b' ← write_at b 0 [o0'; o1'];
  write_at b' 2 (take 512 bitmap).

(** ** pdcp_security.c *)

Definition NB_RB_MAX : Z := 14.

(** The COUNT: the frame number shifted by the sequence-number length the
    code selects, and the sequence number. *)
Definition count_of (srb_flagP : bool) (size hfn pdcp_sn : Z) : Z :=
  if srb_flagP then Z.lor (u32 (Z.shiftl hfn 5)) (Z.land pdcp_sn 0x001F)
  else if size =? len7bits then Z.lor (u32 (Z.shiftl hfn 7)) (Z.land pdcp_sn 0x07F)
  else Z.lor (u32 (Z.shiftl hfn 12)) (Z.land pdcp_sn 0x0FFF).

Definition pdcp_get_next_count_tx (p : pdcp_t) (srb_flagP : bool) (pdcp_sn : Z) : Z :=
  count_of srb_flagP (seq_num_size p) (tx_hfn p) pdcp_sn.

Definition pdcp_get_next_count_rx (p : pdcp_t) (srb_flagP : bool) (pdcp_sn : Z) : Z * pdcp_t :=
  (count_of srb_flagP (seq_num_size p) (u32 (rx_hfn p + rx_hfn_offset p)) pdcp_sn, p <| rx_hfn_offset := 0 |>).

(** [k + off] as a pointer that is about to be read. *)
Definition key_at (k : option key_buffer) (off : nat) : list Z :=
  match k with Some k => drop off (key_bytes k) | None => [] end.

Section Security.
Context `{AesLib}.

Definition pdcp_apply_security (p : pdcp_t) (srb_flagP : bool) (rb : Z) (pdcp_header_len : nat) (current_sn : Z)
    (pdu : list Z) (sdu_buffer_size : Z) : res (list Z) :=
  _ ← assert_fatal ((rb <? NB_RB_MAX) && (0 <=? rb));
  let dir := if is_ue p then SECU_DIRECTION_UPLINK else SECU_DIRECTION_DOWNLINK in
  let params := fun k bits => mk_stream k 16 (pdcp_get_next_count_tx p srb_flagP current_sn) (u8 (rb - 1)) dir bits in
  pdu1 ←
    (if srb_flagP then
       mac ← stream_compute_integrity (integrityProtAlgorithm p)
               (params (key_at (kRRCint p) 16) (Z.shiftl (Z.of_nat pdcp_header_len + sdu_buffer_size) 3)) pdu;
       match mac with
       | Some m => write_at pdu (pdcp_header_len + Z.to_nat sdu_buffer_size) m
       | None => Ok pdu
       end
     else Ok pdu);
  c ← stream_encrypt (cipheringAlgorithm p)
        (params (key_at (if srb_flagP then kRRCenc p else kUPenc p) 0) (Z.shiftl sdu_buffer_size 3))
        (drop pdcp_header_len pdu1);
  Ok (take pdcp_header_len pdu1 ++ c.2).

(** The return value, the entity and the deciphered buffer. *)
Definition pdcp_validate_security (p : pdcp_t) (srb_flagP : bool) (rb : Z) (pdcp_header_len : nat) (current_sn : Z)
    (pdu : list Z) (sdu_buffer_size : Z) : res (Z * pdcp_t * list Z) :=
  _ ← assert_fatal ((rb <? NB_RB_MAX) && (0 <=? rb));
  let dir := if is_ue p then SECU_DIRECTION_DOWNLINK else SECU_DIRECTION_UPLINK in
  let '(cnt, p1) := pdcp_get_next_count_rx p srb_flagP current_sn in
  let params := fun k bits => mk_stream k 16 cnt (u8 (rb - 1)) dir bits in
  c ← stream_decrypt (cipheringAlgorithm p)
        (params (key_at (if srb_flagP then kRRCenc p else kUPenc p) 0)
           (u32 (Z.shiftl (sdu_buffer_size - Z.of_nat pdcp_header_len) 3)))
        (drop pdcp_header_len pdu);
  let pdu1 := take pdcp_header_len pdu ++ c.2 in
  if srb_flagP then
    r ← stream_check_integrity (integrityProtAlgorithm p)
          (params (key_at (kRRCint p) 16) (Z.shiftl sdu_buffer_size 3)) pdu1 (drop (Z.to_nat sdu_buffer_size) pdu1);
    Ok (if negb (r =? 0) then (-1, p1, pdu1) else (0, p1, pdu1))
  else Ok (0, p1, pdu1).
End Security.

End Pdcp.
