(* ===== verification/PdcpLayer.v ===== *)
(** * The PDCP layer: data requests, data indications and configuration

    pdcp.c. The entities are a collection keyed by [PDCP_COLL_KEY_VALUE],
    used through the interface [Collection.CollectionOps]; the list of SDUs
    for the IP driver and the MBMS and RNTI arrays are the rest of the
    layer's state. Calls that leave the layer are outputs: [rlc_data_req]
    (whose status is the argument [rlc_status]), [rrc_data_ind], the message
    to GTPV1-U and [free]. A block of [get_free_mem_block] is an argument:
    its bytes, or [None]. [macphy_exit] ends the program. *)

From S2P Require Import Prelude Snow3g Osa HashTable Collection Pdcp.

Module PdcpLayer.
Import Osa Collection Pdcp.

Definition maxDRB : Z := 11.
Definition NB_RB_MBMS_MAX : Z := 464. (* maxSessionPerPMCH * maxServiceCount = 29 * 16 *)
Definition MAX_IP_PACKET_SIZE : Z := 1500.
Definition DTCH : Z := 3.
Definition RLC_OP_STATUS_OK : Z := 1.
Definition RLC_OP_STATUS_OUT_OF_RESSOURCES : Z := 3.

Record protocol_ctxt_t : Type := mk_ctxt { module_id : Z; enb_flag : bool; rnti : Z }.

Inductive pdcp_transmission_mode_t : Type :=
| PDCP_TRANSMISSION_MODE_UNKNOWN
| PDCP_TRANSMISSION_MODE_CONTROL
| PDCP_TRANSMISSION_MODE_DATA
| PDCP_TRANSMISSION_MODE_TRANSPARENT.
#[export] Instance mode_eq_dec : EqDecision pdcp_transmission_mode_t.
Proof. solve_decision. Defined.

(** An SDU of [pdcp_sdu_list]: the indication header and the data. *)
Record pdcp_sdu : Type := mk_sdu { ind_rb_id : Z; ind_data_size : Z; ind_data : list Z }.

Inductive output : Type :=
| RlcDataReq (srb mbms : bool) (rb mui confirm sdu_size : Z) (block : list Z)
| RrcDataInd (rb sdu_size : Z) (data : list Z)
| GtpuTunnelDataReq (ue_rnti rab_id : Z) (data : list Z)
| FreeKey (address : Z).

(** [PDCP_COLL_KEY_VALUE], on [hash_key_t] (64 bits). *)
Definition PDCP_COLL_KEY_VALUE (mODULE_iD rNTI : Z) (iS_eNB : bool) (rB_iD : Z) (iS_sRB : bool) : Z :=
  Z.lor (Z.lor (Z.lor (Z.lor mODULE_iD (u64 (Z.shiftl rNTI 8))) (u64 (Z.shiftl (Z.b2z iS_eNB) 24)))
    (u64 (Z.shiftl rB_iD 25))) (u64 (Z.shiftl (Z.b2z iS_sRB) 33)).

Definition key_of (c : protocol_ctxt_t) (rb : Z) (srb : bool) : Z :=
  PDCP_COLL_KEY_VALUE (module_id c) (rnti c) (enb_flag c) rb srb.

(** ** The data path of one entity *)

Section Entity.
Context `{AesLib}.

Definition header_len (srb_flagP : bool) : nat := if srb_flagP then 1 else 2.
Definition tailer_len (srb_flagP : bool) : nat := if srb_flagP then 4 else 0.

(** [pdcp_data_req] once it has a block: the PDU in the block, [None] when the
    request is refused because of the sequence number. *)
Definition data_req_pdu (p : pdcp_t) (srb_flagP : bool) (rb : Z) (modeP : pdcp_transmission_mode_t)
    (block sdu : list Z) : res (pdcp_t * option (list Z)) :=
  let hl := header_len srb_flagP in
  let tl := tailer_len srb_flagP in
  let '(sn, p1) := pdcp_get_next_tx_seq_number p in
  let current_sn := if srb_flagP then u8 sn else sn in
  b1 ←
    (if srb_flagP then
       b0 ← write_at block (length sdu + hl) (replicate 4 0);
       pdcp_serialize_control_plane_data_pdu_with_SRB_sn_buffer b0 current_sn
     else
       pdcp_serialize_user_plane_data_pdu_with_long_sn_buffer block
         (if decide (modeP = PDCP_TRANSMISSION_MODE_DATA) then PDCP_DATA_PDU_BIT_SET else PDCP_CONTROL_PDU_BIT_SET)
         current_sn);
  if current_sn >? pdcp_calculate_max_seq_num_for_given_size (seq_num_size p1) then Ok (p1, None)
  else
    b2 ← write_at b1 hl sdu;
    b3 ← write_at b2 (hl + length sdu) (replicate tl 0);
    b4 ←
      (if negb (security_activated p1 =? 0) &&
          (negb (cipheringAlgorithm p1 =? 0) || negb (integrityProtAlgorithm p1 =? 0))
       then pdcp_apply_security p1 srb_flagP (Z.rem rb maxDRB) hl current_sn b3 (u16 (Z.of_nat (length sdu)))
       else Ok b3);
    Ok (p1, Some b4).

(** The header of a received PDU: its length and sequence number. *)
Definition parse_header (p : pdcp_t) (srb_flagP : bool) (pdu : list Z) : res (nat * Z) :=
  if srb_flagP then
    sn ← pdcp_get_sequence_number_of_pdu_with_SRB_sn pdu; Ok (1%nat, sn)
  else if seq_num_size p =? PDCP_SN_7BIT then
    sn ← pdcp_get_sequence_number_of_pdu_with_short_sn pdu; Ok (1%nat, sn)
  else if seq_num_size p =? PDCP_SN_12BIT then
    sn ← pdcp_get_sequence_number_of_pdu_with_long_sn pdu; Ok (2%nat, sn)
  else Ok (0%nat, 0).

(** [pdcp_data_ind] of a bearer up to the delivery: the sequence number, the
    header length and the deciphered PDU; [None] when the PDU is too short. *)
Definition data_ind_pdu (p : pdcp_t) (srb_flagP : bool) (rb : Z) (sdu_buffer_sizeP : Z) (pdu : list Z) :
    res (pdcp_t * option (Z * nat * list Z)) :=
  h ← parse_header p srb_flagP pdu;
  let '(hl, sn) := h in
  let tl := tailer_len srb_flagP in
  if sdu_buffer_sizeP <? Z.of_nat hl + Z.of_nat tl then Ok (p, None)
  else
    let '(_, p1) := pdcp_is_rx_seq_number_valid sn p srb_flagP in
    if security_activated p1 =? 1 then
      r ← pdcp_validate_security p1 srb_flagP rb hl sn pdu (u16 (sdu_buffer_sizeP - Z.of_nat tl));
      let '(_, p2, pdu') := r in
      Ok (p2, Some (sn, hl, pdu'))
    else Ok (p1, Some (sn, hl, pdu)).
End Entity.

(** ** The layer *)

Record pdcp_layer (T : Type) : Type := mk_layer {
  pdcp_coll_p : T;
  pdcp_sdu_list : list pdcp_sdu;
  pdcp_UE_UE_module_id_to_rnti : gmap Z Z;
  pdcp_eNB_UE_instance_to_rnti : gmap Z Z;
  pdcp_mbms_array_ue : gmap (Z * Z * Z) Z;
  pdcp_mbms_array_eNB : gmap (Z * Z * Z) Z
}.
Arguments mk_layer {_} _ _ _ _ _ _.
Arguments pdcp_coll_p {_} _.
Arguments pdcp_sdu_list {_} _.
Arguments pdcp_UE_UE_module_id_to_rnti {_} _.
Arguments pdcp_eNB_UE_instance_to_rnti {_} _.
Arguments pdcp_mbms_array_ue {_} _.
Arguments pdcp_mbms_array_eNB {_} _.
#[export] Instance layer_eta {T} : Settable (pdcp_layer T) := fun l =>
  mk_layer (pdcp_coll_p l) (pdcp_sdu_list l) (pdcp_UE_UE_module_id_to_rnti l) (pdcp_eNB_UE_instance_to_rnti l)
    (pdcp_mbms_array_ue l) (pdcp_mbms_array_eNB l).

Section Layer.
Context `{AesLib} {T : Type} `{O : CollectionOps T pdcp_t}.

Definition req_status (rlc_status : Z) : bool := rlc_status =? RLC_OP_STATUS_OK.

Definition rb_id_in_range (c : protocol_ctxt_t) (srb_flagP : bool) (rb : Z) (modeP : pdcp_transmission_mode_t) : bool :=
  if decide (modeP = PDCP_TRANSMISSION_MODE_TRANSPARENT) then rb <? NB_RB_MBMS_MAX
  else if srb_flagP then rb <? 2
  else rb <? maxDRB.

(** The request of a configured bearer. *)
Definition data_req_entity (l : pdcp_layer T) (c : protocol_ctxt_t) (srb_flagP : bool) (rb mui confirm : Z)
    (sdu : list Z) (modeP : pdcp_transmission_mode_t) (block : option (list Z)) (rlc_status : Z) (p : pdcp_t) :
    res (bool * pdcp_layer T * list output) :=
  match block with
  | None => Ok (false, l, [])
  | Some b =>
      r ← data_req_pdu p srb_flagP rb modeP b sdu;
      let '(p', pdu) := r in
      t ← coll_store (pdcp_coll_p l) (key_of c rb srb_flagP) p';
      let l' := l <| pdcp_coll_p := t |> in
      match pdu with
      | None => Ok (false, l', [])
      | Some b' =>
          let pdu_size := u16 (Z.of_nat (length sdu + header_len srb_flagP + tailer_len srb_flagP)) in
          Ok (req_status rlc_status, l', [RlcDataReq srb_flagP false rb mui confirm pdu_size b'])
      end
  end.

Definition pdcp_data_req (l : pdcp_layer T) (c : protocol_ctxt_t) (srb_flagP : bool) (rb mui confirm : Z)
    (sdu : list Z) (modeP : pdcp_transmission_mode_t) (block : option (list Z)) (rlc_status : Z) :
    res (bool * pdcp_layer T * list output) :=
  let size := Z.of_nat (length sdu) in
  if negb (rb_id_in_range c srb_flagP rb modeP) then Ok (false, l, [])
  else
    e ← coll_get (pdcp_coll_p l) (key_of c rb srb_flagP);
    match e, decide (modeP = PDCP_TRANSMISSION_MODE_TRANSPARENT) with
    | None, right _ => Ok (false, l, [])
    | _, tm =>
        if size =? 0 then Ok (false, l, [])
        else
          _ ← assert_fatal (size <=? MAX_IP_PACKET_SIZE);
          match tm, e with
          | left _, _ =>
              match block with
              | Some b =>
                  b' ← write_at b 0 sdu;
                  Ok (req_status rlc_status, l, [RlcDataReq srb_flagP true rb mui confirm size b'])
              | None => Ok (req_status RLC_OP_STATUS_OUT_OF_RESSOURCES, l, [])
              end
          | right _, Some p => data_req_entity l c srb_flagP rb mui confirm sdu modeP block rlc_status p
          | right _, None => Ok (false, l, [])
          end
    end.

(** The end of [pdcp_data_ind]: the payload goes to the RRC (SRB), to the GTP
    tunnel ([link_gtpu] is [LINK_ENB_PDCP_TO_GTPV1U]) or to the SDU list of
    the IP driver. [pdcp_p] is [NULL] for MBMS. *)
Definition deliver (otg_enabled link_gtpu new_block : bool) (l : pdcp_layer T) (c : protocol_ctxt_t)
    (srb_flagP : bool) (rb : Z) (sn : Z) (size : Z) (payload : list Z) (e : option pdcp_t) :
    res (option pdcp_t * pdcp_layer T * list output) :=
  if otg_enabled then Ok (e, l, [])
  else if link_gtpu && enb_flag c && negb srb_flagP then Ok (e, l, [GtpuTunnelDataReq (rnti c) (rb + 4) payload])
  else if new_block then
    p ← of_option OutOfBounds e;
    let p' := if decide (rlc_mode p = RLC_MODE_AM) then p <| last_submitted_pdcp_rx_sn := sn |> else p in
    let ind_rb := u16 (if enb_flag c then rb + module_id c * maxDRB else rb) in
    Ok (Some p', l <| pdcp_sdu_list ::= (fun q => q ++ [mk_sdu ind_rb size payload]) |>, [])
  else Ok (e, l, []).

Definition payload_of (pdu : list Z) (off size : Z) : res (list Z) :=
  if Z.of_nat (length pdu) <? off + size then Fault OutOfBounds
  else Ok (take (Z.to_nat size) (drop (Z.to_nat off) pdu)).

(** The indication of a configured bearer. *)
Definition data_ind_entity (otg_enabled link_gtpu new_block : bool) (l : pdcp_layer T) (c : protocol_ctxt_t)
    (srb_flagP : bool) (rb_idP rb : Z) (sdu_buffer_sizeP : Z) (pdu : list Z) (p : pdcp_t) :
    res (bool * pdcp_layer T * list output) :=
  let key := key_of c rb srb_flagP in
  r ← data_ind_pdu p srb_flagP rb_idP sdu_buffer_sizeP pdu;
  match r with
  | (p1, None) => Ok (false, l, [])
  | (p1, Some (sn, hl, pdu')) =>
      let size := sdu_buffer_sizeP - Z.of_nat hl - Z.of_nat (tailer_len srb_flagP) in
      data ← payload_of pdu' (Z.of_nat hl) size;
      if srb_flagP then
        t ← coll_store (pdcp_coll_p l) key p1;
        Ok (true, l <| pdcp_coll_p := t |>, [RrcDataInd rb size data])
      else
        d ← deliver otg_enabled link_gtpu new_block l c srb_flagP rb sn size data (Some p1);
        let '(p2, l', out) := d in
        t ← coll_store (pdcp_coll_p l') key (default p1 p2);
        Ok (true, l' <| pdcp_coll_p := t |>, out)
  end.

Definition pdcp_data_ind (otg_enabled link_gtpu new_block : bool) (l : pdcp_layer T) (c : protocol_ctxt_t)
    (srb_flagP mbms_flagP : bool) (rb_idP : Z) (sdu_buffer_sizeP : Z) (pdu : list Z) :
    res (bool * pdcp_layer T * list output) :=
  if mbms_flagP then
    if negb (rb_idP <? NB_RB_MBMS_MAX) then Ok (false, l, [])
    else if sdu_buffer_sizeP =? 0 then Ok (false, l, [])
    else
      data ← payload_of pdu 0 sdu_buffer_sizeP;
      d ← deliver otg_enabled link_gtpu new_block l c srb_flagP rb_idP 0 sdu_buffer_sizeP data None;
      let '(_, l', out) := d in
      Ok (true, l', out)
  else
    let rb := Z.rem rb_idP maxDRB in
    if negb (rb <? maxDRB) || negb (0 <? rb) then Ok (false, l, [])
    else
      e ← coll_get (pdcp_coll_p l) (key_of c rb srb_flagP);
      match e with
      | None => Ok (false, l, [])
      | Some p =>
          if sdu_buffer_sizeP =? 0 then Ok (false, l, [])
          else data_ind_entity otg_enabled link_gtpu new_block l c srb_flagP rb_idP rb sdu_buffer_sizeP pdu p
      end.
End Layer.

End PdcpLayer.
