(* ===== verification/PdcpConfig.v ===== *)
(** * Configuration of the PDCP layer

    pdcp.c: [rrc_pdcp_config_asn1_req], [pdcp_config_req_asn1],
    [pdcp_config_set_security], [rrc_pdcp_config_req], [pdcp_remove_UE],
    [pdcp_free] and [pdcp_layer_init]. The lists of the RRC message are Rocq
    lists of what the code reads of them ([None] is a [NULL] list); the
    variables [srb_id], [rlc_type], [drb_sn], [drb_report] and
    [header_compression_profile], which keep their value from one element to
    the next, are the record [locals]. The code is taken with [Rel10]. *)

From S2P Require Import Prelude Snow3g Osa HashTable Collection Pdcp PdcpLayer.

Module PdcpConfig.
Import Osa Collection Pdcp PdcpLayer.

Inductive config_action_t : Type :=
| CONFIG_ACTION_NULL
| CONFIG_ACTION_ADD
| CONFIG_ACTION_REMOVE
| CONFIG_ACTION_MODIFY
| CONFIG_ACTION_SET_SECURITY_MODE
| CONFIG_ACTION_MBMS_ADD
| CONFIG_ACTION_MBMS_MODIFY.

(** The security mode and the three key pointers of a request. *)
Record security_req : Type := mk_security {
  security_modeP : Z;
  kRRCenc_pP : option key_buffer;
  kRRCint_pP : option key_buffer;
  kUPenc_pP : option key_buffer
}.

Definition pdcp_config_set_security (p : pdcp_t) (s : security_req) : pdcp_t :=
  if (0 <=? security_modeP s) && (security_modeP s <=? 0x77) then
    p <| cipheringAlgorithm := Z.land (security_modeP s) 0x0f |>
      <| integrityProtAlgorithm := Z.land (Z.shiftr (security_modeP s) 4) 0xf |>
      <| kRRCenc := kRRCenc_pP s |> <| kRRCint := kRRCint_pP s |> <| kUPenc := kUPenc_pP s |>
      <| security_activated := 1 |>
  else p.

Definition sn_size_of (rb_snP : Z) : Z :=
  if rb_snP =? len12bits then PDCP_SN_12BIT
  else if rb_snP =? len7bits then PDCP_SN_7BIT
  else PDCP_SN_5BIT.

Definition setup_security (p : pdcp_t) (s : security_req) : pdcp_t :=
  if negb (security_modeP s =? 0xff) then pdcp_config_set_security p s else p.

Definition free_key (k : option key_buffer) : list output :=
  match k with Some k => [FreeKey (key_address k)] | None => [] end.

Definition free_keys (p : pdcp_t) : list output := free_key (kUPenc p) ++ free_key (kRRCint p) ++ free_key (kRRCenc p).

(** The actions of [pdcp_config_req_asn1] on an entity. *)
Definition config_entity (c : protocol_ctxt_t) (p : pdcp_t) (srb_flagP : bool) (rlc_modeP : rlc_mode_t)
    (actionP : config_action_t) (lc_idP rb_idP rb_snP rb_reportP hc : Z) (s : security_req) :
    res (pdcp_t * list output) :=
  match actionP with
  | CONFIG_ACTION_ADD =>
      Ok (setup_security
            (p <| is_ue := negb (enb_flag c) |> <| is_srb := srb_flagP |> <| lcid := lc_idP |> <| rb_id := rb_idP |>
               <| header_compression_profile := hc |> <| status_report := rb_reportP |>
               <| seq_num_size := sn_size_of rb_snP |> <| rlc_mode := rlc_modeP |>
               <| next_pdcp_tx_sn := 0 |> <| next_pdcp_rx_sn := 0 |> <| next_pdcp_rx_sn_before_integrity := 0 |>
               <| tx_hfn := 0 |> <| rx_hfn := 0 |> <| last_submitted_pdcp_rx_sn := 4095 |>
               <| first_missing_pdu := -1 |> <| rx_hfn_offset := 0 |>) s, [])
  | CONFIG_ACTION_MODIFY =>
      Ok ((setup_security
            (p <| header_compression_profile := hc |> <| status_report := rb_reportP |> <| rlc_mode := rlc_modeP |>) s)
            <| seq_num_size := sn_size_of rb_snP |>, [])
  | CONFIG_ACTION_REMOVE => Ok (pdcp_zero, free_keys p)
  | CONFIG_ACTION_SET_SECURITY_MODE => Ok (pdcp_config_set_security p s, [])
  | _ => Fault AssertFatal
  end.

Definition pdcp_free (p : pdcp_t) : list output := free_keys p.

(** ** The RRC message *)

Inductive srb_rlc_config : Type :=
| SRB_rlc_Config_PR_NOTHING
| SRB_rlc_Config_PR_explicitValue (nothing : bool) (* [choice.explicitValue.present == RLC_Config_PR_NOTHING] *)
| SRB_rlc_Config_PR_defaultValue
| SRB_rlc_Config_PR_other.

Record SRB_ToAddMod_t : Type := mk_srb { srb_Identity : Z; rlc_Config : option srb_rlc_config }.

Inductive header_compression : Type :=
| HC_NOTHING
| HC_notUsed
| HC_rohc (profiles : list (Z * bool)) (* profile numbers in the order the code tests them *)
| HC_other.

Record PDCP_Config_t : Type := mk_config {
  cfg_rlc_AM : option Z; (* statusReportRequired *)
  cfg_rlc_UM : option Z; (* pdcp_SN_Size *)
  headerCompression : header_compression
}.

Record DRB_ToAddMod_t : Type := mk_drb { drb_Identity : Z; pdcp_Config : option PDCP_Config_t }.

(** [sessionId_r9->buf[0]] and [serviceId_r9.buf[2]] of a session. *)
Record MBMS_SessionInfo_r9_t : Type := mk_session { session_lc_id : Z; session_mch_id : Z }.

Record locals : Type := mk_locals {
  l_srb_id : Z; l_rlc_type : rlc_mode_t; l_drb_sn : Z; l_drb_report : Z; l_hc : Z
}.
#[export] Instance locals_eta : Settable locals := fun x =>
  mk_locals (l_srb_id x) (l_rlc_type x) (l_drb_sn x) (l_drb_report x) (l_hc x).

Definition locals_init : locals := mk_locals 0 RLC_MODE_NONE 12 0 0.

Fixpoint rohc_profile (profiles : list (Z * bool)) : Z :=
  match profiles with
  | [] => 0
  | (n, true) :: _ => n
  | (_, false) :: rest => rohc_profile rest
  end.

Definition hc_of (x : locals) (h : header_compression) : Z :=
  match h with
  | HC_NOTHING | HC_notUsed => 0
  | HC_rohc profiles => rohc_profile profiles
  | HC_other => l_hc x
  end.

Definition apply_pdcp_config (x : locals) (cfg : PDCP_Config_t) : locals :=
  let x1 := match cfg_rlc_AM cfg with
            | Some report => x <| l_drb_report := report |> <| l_drb_sn := len12bits |> <| l_rlc_type := RLC_MODE_AM |>
            | None => x
            end in
  let x2 := match cfg_rlc_UM cfg with
            | Some sn => x1 <| l_drb_sn := sn |> <| l_rlc_type := RLC_MODE_UM |>
            | None => x1
            end in
  x2 <| l_hc := hc_of x2 (headerCompression cfg) |>.

Section Config.
Context {T : Type} `{O : CollectionOps T pdcp_t}.

(** The RNTI arrays a [CONFIG_ACTION_ADD] writes;
    [pdcp_eNB_UE_instance_to_rnti_index] is always 0. *)
Definition note_rnti (c : protocol_ctxt_t) (a : config_action_t) (l : pdcp_layer T) : pdcp_layer T :=
  match a with
  | CONFIG_ACTION_ADD =>
      if enb_flag c then l <| pdcp_eNB_UE_instance_to_rnti ::= <[0 := rnti c]> |>
      else l <| pdcp_UE_UE_module_id_to_rnti ::= <[module_id c := rnti c]> |>
  | _ => l
  end.

(** [pdcp_config_req_asn1] on the entity stored under [key]. *)
Definition pdcp_config_req_asn1 (l : pdcp_layer T) (c : protocol_ctxt_t) (key : Z) (srb_flagP : bool)
    (rlc_modeP : rlc_mode_t) (actionP : config_action_t) (lc_idP rb_idP rb_snP rb_reportP hc : Z) (s : security_req) :
    res (pdcp_layer T * list output) :=
  e ← coll_get (pdcp_coll_p l) key;
  p ← of_option AssertFatal e;
  r ← config_entity c p srb_flagP rlc_modeP actionP (u16 lc_idP) (u16 rb_idP) (u8 rb_snP) (u8 rb_reportP) (u16 hc) s;
  t ← coll_store (pdcp_coll_p l) key r.1;
  Ok (note_rnti c actionP l <| pdcp_coll_p := t |>, r.2).

(** [hashtable_get], and the insertion of a zeroed entity when there is none. *)
Definition get_or_add (l : pdcp_layer T) (key : Z) : res (config_action_t * pdcp_layer T) :=
  e ← coll_get (pdcp_coll_p l) key;
  match e with
  | Some _ => Ok (CONFIG_ACTION_MODIFY, l)
  | None => t ← coll_insert (pdcp_coll_p l) key pdcp_zero; Ok (CONFIG_ACTION_ADD, l <| pdcp_coll_p := t |>)
  end.

Definition config_srb (c : protocol_ctxt_t) (s : security_req) (st : locals * pdcp_layer T * list output)
    (m : SRB_ToAddMod_t) : res (locals * pdcp_layer T * list output) :=
  let '(x, l, out) := st in
  let id := srb_Identity m in
  let x1 := x <| l_srb_id := id |> <| l_rlc_type := RLC_MODE_AM |> in
  let key := key_of c id true in
  r ← get_or_add l key;
  let '(action, l1) := r in
  match rlc_Config m with
  | Some (SRB_rlc_Config_PR_explicitValue false) =>
      r ← pdcp_config_req_asn1 l1 c key true RLC_MODE_AM action (id + 2) id 5 0 0 s;
      Ok (x1, r.1, out ++ r.2)
  | Some SRB_rlc_Config_PR_other => Fault AssertFatal
  | _ => Ok (x1, l1, out)
  end.

Definition config_drb (c : protocol_ctxt_t) (s : security_req) (st : locals * pdcp_layer T * list output)
    (m : DRB_ToAddMod_t) : res (locals * pdcp_layer T * list output) :=
  let '(x, l, out) := st in
  let id := drb_Identity m in
  _ ← assert_fatal (id <? maxDRB);
  let key := key_of c id false in
  r ← get_or_add l key;
  let '(action, l1) := r in
  match pdcp_Config m with
  | Some cfg =>
      let x1 := apply_pdcp_config x cfg in
      r ← pdcp_config_req_asn1 l1 c key false (l_rlc_type x1) action (id + 2) id (l_drb_sn x1) (l_drb_report x1) (l_hc x1) s;
      Ok (x1, r.1, out ++ r.2)
  | None => Ok (x, l1, out)
  end.

(** One element of the release list: the key is computed with [srb_id]. *)
Definition release_drb (c : protocol_ctxt_t) (s : security_req) (st : locals * pdcp_layer T * list output)
    (drb_id : Z) : res (locals * pdcp_layer T * list output) :=
  let '(x, l, out) := st in
  let key := key_of c (l_srb_id x) false in
  e ← coll_get (pdcp_coll_p l) key;
  match e with
  | None => Ok (x, l, out)
  | Some _ =>
      r ← pdcp_config_req_asn1 l c key false (l_rlc_type x) CONFIG_ACTION_REMOVE (drb_id + 2) drb_id 0 0 0 s;
      d ← coll_remove (pdcp_coll_p r.1) key;
      Ok (x, r.1 <| pdcp_coll_p := d.2 |>, out ++ r.2 ++ from_option pdcp_free [] d.1)
  end.

Fixpoint config_loop {A} (f : locals * pdcp_layer T * list output -> A -> res (locals * pdcp_layer T * list output))
    (st : locals * pdcp_layer T * list output) (ms : list A) : res (locals * pdcp_layer T * list output) :=
  match ms with
  | [] => Ok st
  | m :: ms => st' ← f st m; config_loop f st' ms
  end.

Definition maxSessionPerPMCH : Z := 29.
Definition maxServiceCount : Z := 16.

(** The MBMS actions of [pdcp_config_req_asn1], on the arrays
    [[NUMBER_OF_..._MAX][maxServiceCount][maxSessionPerPMCH]]. *)
Definition config_mbms (c : protocol_ctxt_t) (l : pdcp_layer T) (m : MBMS_SessionInfo_r9_t) : res (pdcp_layer T) :=
  let rb := u16 (session_mch_id m * maxSessionPerPMCH + session_lc_id m) in
  if (session_mch_id m <? maxServiceCount) && (session_lc_id m <? maxSessionPerPMCH) then
    let i := (module_id c, session_mch_id m, session_lc_id m) in
    Ok (if enb_flag c then l <| pdcp_mbms_array_eNB ::= <[i := rb]> |> else l <| pdcp_mbms_array_ue ::= <[i := rb]> |>)
  else Fault OutOfBounds.

Fixpoint config_mbms_list (c : protocol_ctxt_t) (l : pdcp_layer T) (ms : list MBMS_SessionInfo_r9_t) : res (pdcp_layer T) :=
  match ms with
  | [] => Ok l
  | m :: ms => l' ← config_mbms c l m; config_mbms_list c l' ms
  end.

Definition rrc_pdcp_config_asn1_req (l : pdcp_layer T) (c : protocol_ctxt_t) (srb2add : option (list SRB_ToAddMod_t))
    (drb2add : option (list DRB_ToAddMod_t)) (drb2release : option (list Z)) (s : security_req)
    (pmch_InfoList : option (list (list MBMS_SessionInfo_r9_t))) : res (pdcp_layer T * list output) :=
  st1 ← config_loop (config_srb c s) (locals_init, l, []) (default [] srb2add);
  st2 ← config_loop (config_drb c s) st1 (default [] drb2add);
  st3 ← config_loop (release_drb c s) st2 (default [] drb2release);
  let '(_, l3, out) := st3 in
  l4 ← config_mbms_list c l3 (concat (default [] pmch_InfoList));
  Ok (l4, out).

(** ** Removal of a UE *)

Fixpoint remove_keys (t : T) (keys : list Z) : res (T * list output) :=
  match keys with
  | [] => Ok (t, [])
  | k :: keys =>
      d ← coll_remove t k;
      r ← remove_keys d.2 keys;
      Ok (r.1, from_option pdcp_free [] d.1 ++ r.2)
  end.

Definition UE_keys (c : protocol_ctxt_t) : list Z :=
  ((fun i => key_of c i true) <$> [0; 1]) ++ ((fun i => key_of c i false) <$> [0; 1; 2; 3; 4; 5; 6; 7; 8; 9; 10]).

Definition pdcp_remove_UE (l : pdcp_layer T) (c : protocol_ctxt_t) : res (bool * pdcp_layer T * list output) :=
  r ← remove_keys (pdcp_coll_p l) (UE_keys c);
  Ok (true, l <| pdcp_coll_p := r.1 |>, r.2).

(** ** rrc_pdcp_config_req *)

Definition config_req_add (c : protocol_ctxt_t) (srb_flagP : bool) (rb : Z) (p : pdcp_t) : pdcp_t :=
  p <| is_srb := srb_flagP |> <| rb_id := rb |> <| is_ue := negb (enb_flag c) |>
    <| next_pdcp_tx_sn := 0 |> <| next_pdcp_rx_sn := 0 |> <| tx_hfn := 0 |> <| rx_hfn := 0 |>
    <| last_submitted_pdcp_rx_sn := 4095 |> <| seq_num_size := if rb <? DTCH then 5 else 12 |>
    <| first_missing_pdu := -1 |>.

Definition rrc_pdcp_config_req (l : pdcp_layer T) (c : protocol_ctxt_t) (srb_flagP : bool) (actionP : config_action_t)
    (rb security_mode : Z) : res (pdcp_layer T * list output) :=
  let key := key_of c rb srb_flagP in
  e ← coll_get (pdcp_coll_p l) key;
  match e, actionP with
  | Some p, CONFIG_ACTION_ADD =>
      t ← coll_store (pdcp_coll_p l) key (config_req_add c srb_flagP rb p); Ok (l <| pdcp_coll_p := t |>, [])
  | Some p, CONFIG_ACTION_MODIFY => Ok (l, [])
  | Some p, CONFIG_ACTION_REMOVE =>
      t ← coll_store (pdcp_coll_p l) key
            (p <| next_pdcp_tx_sn := 0 |> <| next_pdcp_rx_sn := 0 |> <| tx_hfn := 0 |> <| rx_hfn := 0 |>
               <| last_submitted_pdcp_rx_sn := 4095 |> <| seq_num_size := 0 |> <| first_missing_pdu := -1 |>
               <| security_activated := 0 |>);
      d ← coll_remove t key;
      Ok (l <| pdcp_coll_p := d.2 |>, from_option pdcp_free [] d.1)
  | Some p, CONFIG_ACTION_SET_SECURITY_MODE =>
      if (0 <=? security_mode) && (security_mode <=? 0x77) then
        t ← coll_store (pdcp_coll_p l) key
              (p <| cipheringAlgorithm := Z.land security_mode 0x0f |>
                 <| integrityProtAlgorithm := Z.land (Z.shiftr security_mode 4) 0xf |>);
        Ok (l <| pdcp_coll_p := t |>, [])
      else Ok (l, [])
  | Some p, _ => Fault AssertFatal
  | None, CONFIG_ACTION_ADD =>
      t ← coll_insert (pdcp_coll_p l) key (config_req_add c srb_flagP rb pdcp_zero); Ok (l <| pdcp_coll_p := t |>, [])
  | None, _ => Ok (l, [])
  end.

Definition pdcp_layer_init : pdcp_layer T := mk_layer coll_empty [] ∅ ∅ ∅ ∅.
End Config.

End PdcpConfig.
