(* ===== verification/PdcpSecurity.v ===== *)
(** * What PDCP's security procedures promise to a pair of entities

    The sender's [pdcp_apply_security] and the receiver's
    [pdcp_validate_security] are inverse on the bytes that cross the radio
    link, whatever follows the PDU in either memory block. *)

From S2P Require Import Prelude Snow3g Osa HashTable Collection Pdcp PdcpLayer.

Module PdcpSecurity.
Import Osa Pdcp PdcpLayer.

(** ** Writes into a block *)

Lemma write_at_app pre old post bytes off : off = length pre -> length bytes = length old ->
  write_at (pre ++ old ++ post) off bytes = Ok (pre ++ bytes ++ post).
Proof.
  intros -> Hl. unfold write_at. rewrite !length_app, Hl.
  rewrite (proj2 (Nat.ltb_ge _ _)) by lia.
  rewrite take_app_length, drop_app_add, drop_app_length by done. done.
Qed.

Lemma split_block (b : list Z) (h s m : nat) : (h + s + m <= length b)%nat ->
  exists bh bs bm tail, b = bh ++ bs ++ bm ++ tail /\ length bh = h /\ length bs = s /\ length bm = m.
Proof.
  intros Hl. exists (take h b), (take s (drop h b)), (take m (drop s (drop h b))), (drop m (drop s (drop h b))).
  rewrite !length_take, !length_drop. split; [|lia]. by rewrite !take_drop.
Qed.

Lemma prefix_split (r p : list Z) h k : take (h + k) r = take (h + k) p ->
  exists rr, r = take h p ++ rr /\ take k rr = take k (drop h p).
Proof.
  intros E. exists (drop h r). split.
  - rewrite <- (take_drop h r) at 1. f_equal. replace h with (h `min` (h + k))%nat by lia.
    by rewrite <- !take_take, E.
  - by rewrite !take_drop_commute, E.
Qed.

Lemma shiftl3 x : Z.shiftl x 3 = 8 * x.
Proof. rewrite Z.shiftl_mul_pow2 by lia. lia. Qed.

(** ** Apply and validate *)

Lemma words_room L : 4 * words_of L <= Z.of_nat L + 3.
Proof. unfold words_of. Z.to_euclidean_division_equations; lia. Qed.

Section Integrity.
Context `{AesLib}.

(** The code the sender writes in the MAC-I field, and what the receiver's
    check answers on any buffer that holds the message and that field. *)
Lemma integrity_stage alg P msg mac0 slack :
  (16 <= length (key P))%nat -> blength P = 8 * Z.of_nat (length msg) -> (1 <= length msg)%nat ->
  length mac0 = 4%nat -> Forall is_byte (msg ++ mac0 ++ slack) ->
  exists mac, length mac = 4%nat /\ Forall is_byte mac /\
    (m ← stream_compute_integrity alg P (msg ++ mac0 ++ slack);
     match m with Some m => write_at (msg ++ mac0 ++ slack) (length msg) m | None => Ok (msg ++ mac0 ++ slack) end)
    = Ok (msg ++ mac ++ slack) /\
    forall r tail, r = msg ++ mac ++ tail -> Forall is_byte r ->
      exists rc, stream_check_integrity alg P r (drop (length msg) r) = Ok rc /\ (0 <= alg <= 2 -> rc = 0).
Proof.
  intros HK HB H1 H0 By. pose proof (words_room (length msg)) as HW.
  assert (Hl : 4 * words_of (length msg) <= Z.of_nat (length (msg ++ mac0 ++ slack)))
    by (rewrite !length_app, H0; lia).
  assert (F : exists macopt, stream_compute_integrity alg P (msg ++ mac0 ++ slack) = Ok macopt /\
    (macopt = None <-> alg <> EIA1_128_ALG_ID /\ alg <> EIA2_128_ALG_ID) /\ from_option is_mac True macopt /\
    forall r, take (length msg) r = msg -> Forall is_byte r -> 4 * words_of (length msg) <= Z.of_nat (length r) ->
      stream_compute_integrity alg P r = Ok macopt).
  { destruct (integrity_ok alg P (length msg) _ _ HK HB H1 Hl Hl By By eq_refl) as (mo & E1 & _ & E3 & E4).
    exists mo. split_and!; try done; try apply E3. intros r Et Br Hr.
    destruct (integrity_ok alg P (length msg) _ r HK HB H1 Hl Hr By Br) as (mo' & E1' & E2' & _).
    - by rewrite take_app_length.
    - congruence. }
  destruct F as (mo & E1 & E3 & E4 & Er). rewrite E1. cbn [mbind res_bind].
  assert (D : forall mac tail : list Z, drop (length msg) (msg ++ mac ++ tail) = mac ++ tail)
    by (intros; apply drop_app_length).
  destruct mo as [m|].
  - destruct E4 as [Hm Bm]. exists m. rewrite write_at_app by (done || congruence).
    split_and!; try done. intros r tail -> Br. rewrite D. unfold stream_check_integrity.
    destruct (Z.eqb_spec alg EIA0_ALG_ID) as [|]; [by exists 0|]. cbn [negb].
    rewrite (Er (msg ++ m ++ tail)); [|by rewrite take_app_length|done|rewrite !length_app, Hm; lia].
    cbn [mbind res_bind]. rewrite length_app, Hm. rewrite (proj2 (Nat.ltb_ge _ _)) by lia.
    exists 0. rewrite bool_decide_true; [done|]. rewrite (take_app_length' m tail) by done. apply take_ge. lia.
  - exists mac0. split_and!; try done. { apply Forall_app in By as [_ By]. by apply Forall_app in By as [By _]. }
    intros r tail -> Br. rewrite D. unfold stream_check_integrity.
    destruct (Z.eqb_spec alg EIA0_ALG_ID) as [->|N0]; [by exists 0|]. cbn [negb].
    rewrite (Er (msg ++ mac0 ++ tail)); [|by rewrite take_app_length|done|rewrite !length_app, H0; lia].
    exists (-1). split; [done|]. destruct E3 as [E3 _]. specialize (E3 eq_refl).
    unfold EIA0_ALG_ID, EIA1_128_ALG_ID, EIA2_128_ALG_ID in *. lia.
Qed.
End Integrity.

Section Transfer.
Context `{AesLib}.
Variables (S R : pdcp_t) (srb : bool) (rb sn : Z).

Notation hl := (header_len srb).
Notation tl := (tailer_len srb).

Definition enc_key (p : pdcp_t) : list Z := key_at (if srb then kRRCenc p else kUPenc p) 0.
Definition int_key (p : pdcp_t) : list Z := key_at (kRRCint p) 16.

(** The two entities use the same algorithms, keys and COUNT, and are the
    two ends of the link. *)
Record security_peers : Prop := {
  peers_cipher : cipheringAlgorithm S = cipheringAlgorithm R;
  peers_integrity : integrityProtAlgorithm S = integrityProtAlgorithm R;
  peers_enc_key : enc_key S = enc_key R;
  peers_int_key : int_key S = int_key R;
  peers_enc_size : (16 <= length (enc_key R))%nat;
  peers_int_size : srb = true -> (16 <= length (int_key R))%nat;
  peers_count : pdcp_get_next_count_tx S srb sn = (pdcp_get_next_count_rx R srb sn).1;
  peers_ends : is_ue S = negb (is_ue R);
  peers_rb : 0 <= rb < NB_RB_MAX
}.

(** The bytes past the header a block needs for an SDU of [L] bytes. *)
Definition block_room (L : nat) : Z :=
  Z.max (Z.of_nat (L + tl)) (cipher_bytes (cipheringAlgorithm R) (8 * Z.of_nat L)).

(** The bytes after the header, ciphered by [S] and deciphered by [R]. *)
Lemma cipher_stage sdu rest : security_peers -> Z.of_nat (length sdu) < 2 ^ 14 -> (tl <= length rest)%nat ->
  Forall is_byte (sdu ++ rest) -> block_room (length sdu) <= Z.of_nat (length (sdu ++ rest)) ->
  let L := length sdu in
  let K := (L + tl)%nat in
  let P := mk_stream (enc_key R) 16 (pdcp_get_next_count_tx S srb sn) (u8 (rb - 1))
             (if is_ue S then SECU_DIRECTION_UPLINK else SECU_DIRECTION_DOWNLINK) (8 * Z.of_nat L) in
  exists rc c, stream_encrypt (cipheringAlgorithm R) P (sdu ++ rest) = Ok (rc, c) /\
    length c = length (sdu ++ rest) /\ Forall is_byte c /\
    forall r, Forall is_byte r -> block_room L <= Z.of_nat (length r) -> take K r = take K c ->
      exists rc' r', stream_decrypt (cipheringAlgorithm R) P r = Ok (rc', r') /\ length r' = length r /\
        Forall is_byte r' /\ take K r' = take K (sdu ++ rest).
Proof.
  intros Pe HL Ht By Room L K P.
  assert (Ok' : forall m, Forall is_byte m -> block_room L <= Z.of_nat (length m) ->
    crypt_ok (cipheringAlgorithm R) P m).
  { intros m Bm Rm. unfold block_room in Rm. split; simpl; try done.
    - apply (peers_enc_size Pe).
    - Z.to_euclidean_division_equations; lia.
    - lia.
    - fold L. lia. }
  destruct (cipher_transfer (cipheringAlgorithm R) P L K (sdu ++ rest)) as (rc & c & E & Hl & Bc & T);
    [by apply Ok'|done|lia|].
  exists rc, c. split_and!; try done. intros r Br Rr Er. by apply T, Er; apply Ok'.
Qed.

Definition sec_params (k : list Z) (bits : Z) : stream_cipher_t :=
  mk_stream k 16 (pdcp_get_next_count_tx S srb sn) (u8 (rb - 1))
    (if is_ue S then SECU_DIRECTION_UPLINK else SECU_DIRECTION_DOWNLINK) bits.

(** The MAC-I stage of the sender, for both kinds of bearers. *)
Lemma mac_stage hdr sdu mac0 slack : security_peers -> length hdr = hl -> length mac0 = tl ->
  Forall is_byte (hdr ++ sdu ++ mac0 ++ slack) ->
  let P := sec_params (int_key R) (8 * Z.of_nat (hl + length sdu)) in
  exists mac, length mac = tl /\ Forall is_byte mac /\
    (if srb then
       m ← stream_compute_integrity (integrityProtAlgorithm R) P (hdr ++ sdu ++ mac0 ++ slack);
       match m with
       | Some m => write_at (hdr ++ sdu ++ mac0 ++ slack) (hl + length sdu) m
       | None => Ok (hdr ++ sdu ++ mac0 ++ slack)
       end
     else Ok (hdr ++ sdu ++ mac0 ++ slack)) = Ok (hdr ++ sdu ++ mac ++ slack) /\
    (srb = true -> forall r tail, r = hdr ++ sdu ++ mac ++ tail -> Forall is_byte r ->
      exists rc, stream_check_integrity (integrityProtAlgorithm R) P r (drop (hl + length sdu) r) = Ok rc /\
        (0 <= integrityProtAlgorithm R <= 2 -> rc = 0)).
Proof.
  intros Pe Hh Hm By P. destruct srb eqn:Es.
  - destruct (integrity_stage (integrityProtAlgorithm R) P (hdr ++ sdu) mac0 slack) as (mac & Lm & Bm & E & C).
    + simpl. apply (peers_int_size Pe). done.
    + simpl. rewrite length_app. rewrite Hh. simpl. lia.
    + rewrite length_app, Hh. simpl. lia.
    + done.
    + by rewrite <- app_assoc.
    + assert (El : length (hdr ++ sdu) = (header_len true + length sdu)%nat) by (rewrite length_app, Hh; done).
      rewrite El, <- !app_assoc in E.
      exists mac. split_and!; try done. intros _ r tail Er Br. rewrite <- El.
      apply (C r tail); [by rewrite <- app_assoc|done].
  - exists mac0. split_and!; try done. by decompose_Forall_hyps.
Qed.

(** [pdcp_apply_security] from the results of its two stages. *)
Lemma apply_stages hdr sdu mac0 mac slack rc c : security_peers -> length hdr = hl ->
  (if srb then
     m ← stream_compute_integrity (integrityProtAlgorithm R) (sec_params (int_key R) (8 * Z.of_nat (hl + length sdu)))
           (hdr ++ sdu ++ mac0 ++ slack);
     match m with
     | Some m => write_at (hdr ++ sdu ++ mac0 ++ slack) (hl + length sdu) m
     | None => Ok (hdr ++ sdu ++ mac0 ++ slack)
     end
   else Ok (hdr ++ sdu ++ mac0 ++ slack)) = Ok (hdr ++ sdu ++ mac ++ slack) ->
  stream_encrypt (cipheringAlgorithm R) (sec_params (enc_key R) (8 * Z.of_nat (length sdu))) (sdu ++ mac ++ slack) = Ok (rc, c) ->
  pdcp_apply_security S srb rb hl sn (hdr ++ sdu ++ mac0 ++ slack) (Z.of_nat (length sdu)) = Ok (hdr ++ c).
Proof.
  intros Pe Hh Emac Ec. unfold pdcp_apply_security. rewrite (peers_cipher Pe), (peers_integrity Pe).
  change (key_at (kRRCint S) 16) with (int_key S). change (key_at (if srb then _ else _) 0) with (enc_key S).
  rewrite (peers_int_key Pe), (peers_enc_key Pe), Nat2Z.id, <- Nat2Z.inj_add, !shiftl3.
  pose proof (peers_rb Pe) as [Hr1 Hr2].
  rewrite (proj2 (Z.ltb_lt _ _)), (proj2 (Z.leb_le _ _)) by done. cbn [assert_fatal andb mbind res_bind].
  unfold sec_params in Emac, Ec. rewrite Emac. cbn [mbind res_bind].
  rewrite (drop_app_length' hdr), (take_app_length' hdr) by done. rewrite Ec. done.
Qed.

(** [pdcp_validate_security] from the results of its two stages. *)
Lemma validate_stages hdr rr rr' L rc rk : security_peers -> length hdr = hl -> Z.of_nat L < 2 ^ 14 ->
  stream_decrypt (cipheringAlgorithm R) (sec_params (enc_key R) (8 * Z.of_nat L)) rr = Ok (rc, rr') ->
  (srb = true -> stream_check_integrity (integrityProtAlgorithm R) (sec_params (int_key R) (8 * Z.of_nat (hl + L)))
    (hdr ++ rr') (drop (hl + L) (hdr ++ rr')) = Ok rk) ->
  pdcp_validate_security R srb rb hl sn (hdr ++ rr) (Z.of_nat (hl + L)) =
    Ok (if srb && negb (rk =? 0) then -1 else 0, R <| rx_hfn_offset := 0 |>, hdr ++ rr').
Proof.
  intros Pe Hh HL Ed Ek. unfold pdcp_validate_security. pose proof (peers_rb Pe) as [Hr1 Hr2].
  rewrite (proj2 (Z.ltb_lt _ _)), (proj2 (Z.leb_le _ _)) by done. cbn [assert_fatal andb mbind res_bind].
  destruct (pdcp_get_next_count_rx R srb sn) as [cnt p1] eqn:Ecnt.
  pose proof (peers_count Pe) as Pc. rewrite Ecnt in Pc. cbn [fst] in Pc. subst cnt.
  assert (p1 = R <| rx_hfn_offset := 0 |>) as -> by (injection Ecnt; done).
  change (key_at (kRRCint R) 16) with (int_key R). change (key_at (if srb then _ else _) 0) with (enc_key R).
  assert (Edir : (if is_ue R then SECU_DIRECTION_DOWNLINK else SECU_DIRECTION_UPLINK) =
                 (if is_ue S then SECU_DIRECTION_UPLINK else SECU_DIRECTION_DOWNLINK))
    by (rewrite (peers_ends Pe); by destruct (is_ue R)).
  rewrite Edir, !shiftl3. replace (8 * (Z.of_nat (hl + L) - Z.of_nat hl)) with (8 * Z.of_nat L) by lia.
  rewrite u32_small by lia. rewrite (drop_app_length' hdr), (take_app_length' hdr) by done.
  unfold sec_params in Ed, Ek. rewrite Ed. cbn [mbind res_bind snd]. rewrite Nat2Z.id.
  destruct (decide (srb = true)) as [Es|Es].
  - specialize (Ek Es). revert Ek. clear - Es. rewrite Es. intros ->. cbn [mbind res_bind andb].
    by destruct (rk =? 0).
  - apply not_true_is_false in Es. clear - Es. rewrite Es. done.
Qed.

Lemma security_transfer hdr sdu mac0 slack :
  security_peers -> Z.of_nat (length sdu) < 2 ^ 14 -> length hdr = hl -> length mac0 = tl ->
  Forall is_byte (hdr ++ sdu ++ mac0 ++ slack) ->
  block_room (length sdu) <= Z.of_nat (length (sdu ++ mac0 ++ slack)) ->
  let L := length sdu in
  exists pdu, pdcp_apply_security S srb rb hl sn (hdr ++ sdu ++ mac0 ++ slack) (Z.of_nat L) = Ok pdu /\
    length pdu = length (hdr ++ sdu ++ mac0 ++ slack) /\ Forall is_byte pdu /\ take hl pdu = hdr /\
    forall r, Forall is_byte r -> Z.of_nat hl + block_room L <= Z.of_nat (length r) ->
      take (hl + L + tl) r = take (hl + L + tl) pdu ->
      exists rc r', pdcp_validate_security R srb rb hl sn r (Z.of_nat (hl + L)) =
          Ok (rc, R <| rx_hfn_offset := 0 |>, r') /\
        length r' = length r /\ take (hl + L) r' = hdr ++ sdu /\
        (srb = true -> 0 <= integrityProtAlgorithm R <= 2 -> rc = 0).
Proof.
  intros Pe HL Hh Hm By Room L.
  destruct (mac_stage hdr sdu mac0 slack Pe Hh Hm By) as (mac & Lm & Bm & Emac & Cmac).
  assert (Forall is_byte hdr /\ Forall is_byte sdu /\ Forall is_byte slack) as (Bh & Bsdu & Bsl) by by decompose_Forall_hyps.
  destruct (cipher_stage sdu (mac ++ slack)) as (rc & c & Ec & Lc & Bc & Tc); try done.
  { rewrite length_app. lia. } { by rewrite !Forall_app. } { revert Room. by rewrite !length_app, Hm, Lm. }
  exists (hdr ++ c). split_and!.
  - by apply (apply_stages hdr sdu mac0 mac slack rc c).
  - rewrite (length_app hdr c), (length_app hdr (sdu ++ _)), Lc, !length_app. lia.
  - by rewrite Forall_app.
  - by apply take_app_length'.
  - intros r Br Rr Er.
    destruct (prefix_split r (hdr ++ c) hl (L + tl)) as (rr & -> & Err); [by rewrite Nat.add_assoc|].
    rewrite (take_app_length' hdr c) in Br, Rr |- * by done. rewrite (drop_app_length' hdr c) in Err by done.
    rewrite Forall_app in Br. rewrite length_app in Rr.
    destruct (Tc rr) as (rc' & rr' & Ed & Ld & Bd & Td); [apply Br|fold L; lia|done|]. fold L in Td.
    assert (exists tail, rr' = sdu ++ mac ++ tail) as [tail Etail].
    { exists (drop (L + tl) rr'). rewrite <- (take_drop (L + tl) rr') at 1. rewrite Td.
      rewrite (app_assoc sdu mac slack), take_app_length' by (rewrite length_app; lia). by rewrite <- app_assoc. }
    assert (Ck : exists rk, (srb = true -> stream_check_integrity (integrityProtAlgorithm R)
        (sec_params (int_key R) (8 * Z.of_nat (hl + L))) (hdr ++ rr') (drop (hl + L) (hdr ++ rr')) = Ok rk /\
        (0 <= integrityProtAlgorithm R <= 2 -> rk = 0))).
    { destruct (decide (srb = true)) as [Es|Es]; [|by exists 0; intros].
      destruct (Cmac Es (hdr ++ rr') tail) as (rk & Ek & Hk); [by rewrite Etail|by rewrite Forall_app|]. by exists rk. }
    destruct Ck as [rk Ck]. exists (if srb && negb (rk =? 0) then -1 else 0), (hdr ++ rr'). split_and!.
    + apply (validate_stages hdr rr rr' L rc' rk Pe Hh HL Ed). intros Es. by apply Ck.
    + rewrite !length_app. lia.
    + rewrite Etail, app_assoc, take_app_length' by (rewrite length_app; lia). done.
    + intros Es Hi. rewrite (proj2 (Ck Es) Hi), andb_false_r. done.
Qed.
End Transfer.

End PdcpSecurity.
