(* ===== verification/PdcpLink.v ===== *)
(** * A PDCP bearer from one end to the other

    One SDU through [data_req_pdu] of the sender and [data_ind_pdu] of the
    receiver, for a signalling bearer and for a data bearer with 12-bit
    sequence numbers over RLC UM or AM: the SDU is recovered and the two
    entities stay synchronised ([pdcp_sync]), across the wrap of the sequence
    number and of the hyper frame number. *)

From S2P Require Import Prelude Snow3g Osa HashTable Collection Pdcp PdcpLayer PdcpSecurity.

Module PdcpLink.
Import Osa Pdcp PdcpLayer PdcpSecurity.

Definition sn_bits (srb : bool) : Z := if srb then 5 else 12.

(** ** Headers *)

Definition header_of (srb : bool) (modeP : pdcp_transmission_mode_t) (sn : Z) : list Z :=
  if srb then [Z.land sn 0x1F]
  else
    let o0 := Z.land (Z.shiftr sn 8) 0xFF in
    [if (if decide (modeP = PDCP_TRANSMISSION_MODE_DATA) then PDCP_DATA_PDU_BIT_SET else PDCP_CONTROL_PDU_BIT_SET)
        =? PDCP_DATA_PDU_BIT_SET then Z.lor o0 0x80 else o0; Z.land sn 0xFF].

Lemma header_of_length srb m sn : length (header_of srb m sn) = header_len srb.
Proof. by destruct srb. Qed.

Definition header_check (srb : bool) (m : pdcp_transmission_mode_t) (sn : Z) : bool :=
  match header_of srb m sn, srb with
  | [o], true => (Z.land o 0x1F =? sn) && (0 <=? o) && (o <? 256)
  | [o0; o1], false =>
      (Z.lor (u16 (Z.shiftl (Z.land o0 0x0F) 8)) (Z.land o1 0xFF) =? sn) &&
      (0 <=? o0) && (o0 <? 256) && (0 <=? o1) && (o1 <? 256)
  | _, _ => false
  end.

Lemma header_check_all srb m sn : 0 <= sn < 2 ^ sn_bits srb -> header_check srb m sn = true.
Proof.
  intros Hs.
  assert (C : forallb (header_check srb m) (seqZ 0 (2 ^ sn_bits srb)) = true)
    by (destruct srb, m; vm_compute; reflexivity).
  rewrite forallb_forall in C. apply C. apply list_elem_of_In. apply elem_of_seqZ. lia.
Qed.

Lemma header_bytes srb m sn : 0 <= sn < 2 ^ sn_bits srb -> Forall is_byte (header_of srb m sn).
Proof.
  intros Hs. pose proof (header_check_all srb m sn Hs) as C. unfold header_check in C.
  destruct (header_of srb m sn) as [|o0 [|o1 [|]]], srb; try done; rewrite !andb_true_iff in C;
    unfold is_byte; repeat constructor; lia.
Qed.

(** The header a sender writes is the one the receiver reads. *)
Lemma parse_header_of p srb m sn rest : 0 <= sn < 2 ^ sn_bits srb -> seq_num_size p = sn_bits srb ->
  parse_header p srb (header_of srb m sn ++ rest) = Ok (header_len srb, sn).
Proof.
  intros Hs Hz. pose proof (header_check_all srb m sn Hs) as C. unfold header_check in C.
  unfold parse_header. destruct (header_of srb m sn) as [|o0 [|o1 [|]]], srb; try done; rewrite !andb_true_iff in C.
  - cbn -[Z.land]. do 2 f_equal. lia.
  - rewrite Hz. cbn -[Z.land u16 Z.shiftl]. do 2 f_equal. lia.
Qed.

(** ** Sequence numbers *)

Lemma max_sn srb : pdcp_calculate_max_seq_num_for_given_size (sn_bits srb) = 2 ^ sn_bits srb - 1.
Proof. by destruct srb. Qed.

Lemma size_valid p srb : seq_num_size p = sn_bits srb -> pdcp_is_seq_num_size_valid p = true.
Proof. intros E. unfold pdcp_is_seq_num_size_valid. rewrite E. by destruct srb. Qed.

(** The numbers after one more PDU. *)
Definition next_sn (srb : bool) (sn : Z) : Z := if sn =? 2 ^ sn_bits srb - 1 then 0 else sn + 1.
Definition next_hfn (srb : bool) (sn hfn : Z) : Z := if sn =? 2 ^ sn_bits srb - 1 then u32 (hfn + 1) else hfn.

Lemma pdcp_next_sn_range srb sn : 0 <= sn < 2 ^ sn_bits srb -> 0 <= next_sn srb sn < 2 ^ sn_bits srb.
Proof. unfold next_sn. intros. destruct (Z.eqb_spec sn (2 ^ sn_bits srb - 1)); lia. Qed.

Lemma sn_u16 srb sn : 0 <= sn < 2 ^ sn_bits srb -> u16 (sn + 1) = sn + 1.
Proof. intros H. apply u16_small. destruct srb; simpl in H; lia. Qed.

Lemma tx_number p srb : seq_num_size p = sn_bits srb -> 0 <= next_pdcp_tx_sn p < 2 ^ sn_bits srb ->
  pdcp_get_next_tx_seq_number p =
    (next_pdcp_tx_sn p,
     p <| next_pdcp_tx_sn := next_sn srb (next_pdcp_tx_sn p) |>
       <| tx_hfn := next_hfn srb (next_pdcp_tx_sn p) (tx_hfn p) |>).
Proof.
  intros Hz Hs. unfold pdcp_get_next_tx_seq_number. rewrite (size_valid p srb Hz), Hz, max_sn.
  unfold next_sn, next_hfn. cbn [negb]. f_equal.
  destruct (next_pdcp_tx_sn p =? 2 ^ sn_bits srb - 1); [done|].
  unfold upd. rewrite (sn_u16 srb) by done. by destruct p.
Qed.

Lemma rx_advance p srb sn : seq_num_size p = sn_bits srb -> 0 <= sn < 2 ^ sn_bits srb ->
  (pdcp_advance_rx_window (p <| next_pdcp_rx_sn := sn |>)).2 =
    p <| next_pdcp_rx_sn := next_sn srb sn |> <| rx_hfn := next_hfn srb sn (rx_hfn p) |>.
Proof.
  intros Hz Hs. unfold pdcp_advance_rx_window, pdcp_is_seq_num_size_valid. rsimpl. rewrite Hz, max_sn.
  unfold next_sn, next_hfn. replace (negb (negb _)) with false by by destruct srb. cbn [snd].
  destruct (sn =? 2 ^ sn_bits srb - 1); [by destruct p|].
  unfold upd. rewrite (sn_u16 srb) by done. by destruct p.
Qed.

(** The fields no data transfer changes, and the two halves of the state. *)
Definition config_of (p : pdcp_t) :=
  (is_ue p, cipheringAlgorithm p, integrityProtAlgorithm p, kUPenc p, kRRCint p, kRRCenc p,
   security_activated p, rlc_mode p, seq_num_size p).
Definition tx_half (p : pdcp_t) : Z * Z := (next_pdcp_tx_sn p, tx_hfn p).
Definition rx_half (p : pdcp_t) : Z * Z * Z * Z :=
  (next_pdcp_rx_sn p, rx_hfn p, rx_hfn_offset p, last_submitted_pdcp_rx_sn p).

(** The receive mode of a bearer whose PDUs come in order: [AM] remembers the
    last number it delivered. *)
Definition rx_mode_ok (srb : bool) (sn : Z) (p : pdcp_t) : Prop :=
  srb = false -> rlc_mode p = RLC_MODE_UM \/
    rlc_mode p = RLC_MODE_AM /\ last_submitted_pdcp_rx_sn p = (sn - 1) mod 4096.

Lemma rx_srb_in_order p sn : seq_num_size p = 5 -> 0 <= sn < 32 -> next_pdcp_rx_sn p = sn ->
  exists p', rx_srb sn p = (true, p') /\ config_of p' = config_of p /\ tx_half p' = tx_half p /\
    rx_half p' = (next_sn true sn, next_hfn true sn (rx_hfn p), 0, last_submitted_pdcp_rx_sn p).
Proof.
  intros Hz Hs En. unfold rx_srb. rewrite En, Z.ltb_irrefl. eexists. split; [reflexivity|].
  rewrite (rx_advance _ true) by done. done.
Qed.

Lemma rx_um_in_order p sn : seq_num_size p = 12 -> 0 <= sn < 4096 -> next_pdcp_rx_sn p = sn ->
  exists p', rx_um sn p = (true, p') /\ config_of p' = config_of p /\ tx_half p' = tx_half p /\
    rx_half p' = (next_sn false sn, next_hfn false sn (rx_hfn p), rx_hfn_offset p, last_submitted_pdcp_rx_sn p).
Proof.
  intros Hz Hs En. unfold rx_um. rewrite En, Z.ltb_irrefl. eexists. split; [reflexivity|].
  rewrite (rx_advance _ false) by done. done.
Qed.

Lemma rx_am_in_order p sn : seq_num_size p = 12 -> 0 <= sn < 4096 -> next_pdcp_rx_sn p = sn ->
  last_submitted_pdcp_rx_sn p = (sn - 1) mod 4096 ->
  exists p', rx_am sn REORDERING_WINDOW_SN_12BIT p = (true, p') /\ config_of p' = config_of p /\ tx_half p' = tx_half p /\
    rx_half p' = (next_sn false sn, next_hfn false sn (rx_hfn p), 0, last_submitted_pdcp_rx_sn p).
Proof.
  intros Hz Hs En El. unfold rx_am, REORDERING_WINDOW_SN_12BIT. rewrite En.
  set (last := last_submitted_pdcp_rx_sn p) in *.
  assert (Hl : last = if sn =? 0 then 4095 else sn - 1).
  { rewrite El. destruct (Z.eqb_spec sn 0) as [->|]; [done|]. apply Z.mod_small. lia. }
  replace (sn - last >? 2048) with false by (destruct (Z.eqb_spec sn 0); lia).
  replace ((0 <=? last - sn) && (last - sn <? 2048)) with false by (destruct (Z.eqb_spec sn 0); lia).
  cbn [orb]. replace (sn - sn >? 2048) with false by lia. replace (sn - sn >=? 2048) with false by lia.
  replace (sn >=? sn) with true by lia. eexists. split; [reflexivity|].
  rewrite (rx_advance _ false) by done. done.
Qed.

Lemma rx_in_order p srb sn : seq_num_size p = sn_bits srb -> 0 <= sn < 2 ^ sn_bits srb ->
  next_pdcp_rx_sn p = sn -> rx_hfn_offset p = 0 -> rx_mode_ok srb sn p ->
  exists p', pdcp_is_rx_seq_number_valid sn p srb = (true, p') /\ config_of p' = config_of p /\
    tx_half p' = tx_half p /\
    rx_half p' = (next_sn srb sn, next_hfn srb sn (rx_hfn p), 0, last_submitted_pdcp_rx_sn p).
Proof.
  intros Hz Hs En Eo Hm. unfold pdcp_is_rx_seq_number_valid, pdcp_is_seq_num_valid.
  rewrite (size_valid p srb Hz), Hz, max_sn.
  rewrite (proj2 (Z.leb_le 0 sn)), (proj2 (Z.leb_le sn _)) by lia. cbn [negb orb andb].
  set (p1 := pdcp_mark_current_pdu_as_received sn p). change (rlc_mode p1) with (rlc_mode p).
  change (seq_num_size p1) with (seq_num_size p). rewrite Hz.
  destruct srb.
  - apply (rx_srb_in_order p1 sn); done.
  - change (sn_bits false =? PDCP_SN_7BIT) with false. cbv iota. destruct (Hm eq_refl) as [->|[-> El]].
    + destruct (rx_um_in_order p1 sn) as (p' & E); try done. exists p'.
      change (rx_hfn_offset p1) with (rx_hfn_offset p) in E. rewrite Eo in E. exact E.
    + apply (rx_am_in_order p1 sn); done.
Qed.

(** ** One SDU across the link *)

Section Transfer.
Context `{AesLib}.
Variables (srb : bool) (rb : Z).

Notation hl := (header_len srb).
Notation tl := (tailer_len srb).

(** What the RRC configured at both ends. *)
Record security_config (S R : pdcp_t) : Prop := {
  conf_cipher : cipheringAlgorithm S = cipheringAlgorithm R;
  conf_integrity : integrityProtAlgorithm S = integrityProtAlgorithm R;
  conf_enc_key : enc_key srb S = enc_key srb R;
  conf_int_key : int_key S = int_key R;
  conf_enc_size : (16 <= length (enc_key srb R))%nat;
  conf_int_size : srb = true -> (16 <= length (int_key R))%nat;
  conf_ends : is_ue S = negb (is_ue R)
}.

(** The receiver [R] expects what the sender [S] sends next. *)
Record pdcp_sync (S R : pdcp_t) : Prop := {
  sync_size_tx : seq_num_size S = sn_bits srb;
  sync_size_rx : seq_num_size R = sn_bits srb;
  sync_range : 0 <= next_pdcp_tx_sn S < 2 ^ sn_bits srb;
  sync_sn : next_pdcp_rx_sn R = next_pdcp_tx_sn S;
  sync_hfn : rx_hfn R = tx_hfn S;
  sync_hfn_range : 0 <= tx_hfn S < 2 ^ 32;
  sync_offset : rx_hfn_offset R = 0;
  sync_mode : rx_mode_ok srb (next_pdcp_tx_sn S) R;
  sync_active : security_activated S = security_activated R;
  sync_security : security_activated R = 0 \/ security_activated R = 1 /\ security_config S R
}.

(** What [deliver] notes for an AM bearer. *)
Definition note_submitted (sn : Z) (p : pdcp_t) : pdcp_t :=
  if decide (srb = false /\ rlc_mode p = RLC_MODE_AM) then p <| last_submitted_pdcp_rx_sn := sn |> else p.

Lemma sync_next S R R' : pdcp_sync S R -> config_of R' = config_of R ->
  rx_half R' = (next_sn srb (next_pdcp_tx_sn S), next_hfn srb (next_pdcp_tx_sn S) (rx_hfn R), 0, last_submitted_pdcp_rx_sn R) ->
  pdcp_sync (pdcp_get_next_tx_seq_number S).2 (note_submitted (next_pdcp_tx_sn S) R').
Proof.
  intros Sy Ec Er. rewrite (tx_number S srb) by apply Sy. cbn [snd].
  injection Ec as E1 E2 E3 E4 E5 E6 E7 E8 E9. injection Er as F1 F2 F3 F4.
  destruct Sy as [Z1 Z2 Rg Es Eh Hr Eo Em Ea Se].
  assert (N : forall (f : pdcp_t -> Z), (forall q v, f (q <| last_submitted_pdcp_rx_sn := v |>) = f q) ->
    f (note_submitted (next_pdcp_tx_sn S) R') = f R') by (intros f Hf; unfold note_submitted; case_decide; [apply Hf|done]).
  split; rewrite ?(N seq_num_size), ?(N next_pdcp_rx_sn), ?(N rx_hfn), ?(N rx_hfn_offset), ?(N security_activated) by done; rsimpl.
  - done.
  - congruence.
  - by apply pdcp_next_sn_range.
  - congruence.
  - rewrite F2, Eh. done.
  - unfold next_hfn. case_match; [apply u32_range|done].
  - done.
  - intros Hf. destruct (Em Hf) as [Hu|[Hu El]].
    + left. unfold note_submitted. case_decide; rsimpl; congruence.
    + right. unfold note_submitted. rewrite decide_True by (split; congruence). rsimpl. split; [congruence|].
      clear -Rg Hf. subst srb. unfold next_sn, sn_bits in *.
      change (2 ^ 12 - 1) with 4095. change (2 ^ 12) with 4096 in Rg.
      destruct (Z.eqb_spec (next_pdcp_tx_sn S) 4095) as [->|]; [done|]. rewrite Z.mod_small; lia.
  - congruence.
  - rewrite E7. destruct Se as [Se|[Se [C1 C2 C3 C4 C5 C6 C7]]]; [by left|right]. split; [done|].
    assert (Q : enc_key srb (note_submitted (next_pdcp_tx_sn S) R') = enc_key srb R /\
                int_key (note_submitted (next_pdcp_tx_sn S) R') = int_key R).
    { unfold enc_key, int_key, note_submitted. case_decide; rsimpl; rewrite E4, E5, E6; done. }
    destruct Q as [Q1 Q2].
    split; rewrite ?Q1, ?Q2, ?(N cipheringAlgorithm), ?(N integrityProtAlgorithm) by done; rsimpl; try done; try congruence.
    unfold note_submitted. case_decide; rsimpl; congruence.
Qed.

(** The writes of [pdcp_data_req] before security. *)
Lemma first_write (block sdu bh bs bm tail : list Z) m sn : block = bh ++ bs ++ bm ++ tail ->
  length bh = hl -> length bs = length sdu -> length bm = tl ->
  (if srb then
     b0 ← write_at block (length sdu + hl) (replicate 4 0);
     pdcp_serialize_control_plane_data_pdu_with_SRB_sn_buffer b0 sn
   else
     pdcp_serialize_user_plane_data_pdu_with_long_sn_buffer block
       (if decide (m = PDCP_TRANSMISSION_MODE_DATA) then PDCP_DATA_PDU_BIT_SET else PDCP_CONTROL_PDU_BIT_SET) sn)
  = Ok (header_of srb m sn ++ bs ++ (if srb then replicate 4 0 else bm) ++ tail).
Proof.
  intros -> Hh Hs Hm. destruct srb.
  - rewrite (app_assoc bh bs), write_at_app by (rewrite ?length_app, ?Hm; done || lia). cbn [mbind res_bind].
    rewrite <- app_assoc. apply (write_at_app [] bh); done.
  - apply (write_at_app [] bh); done.
Qed.

(** The bytes past the header that a block needs. *)
Definition room (p : pdcp_t) (L : nat) : Z :=
  if security_activated p =? 1 then block_room p srb L else Z.of_nat (L + tl).

Lemma room_ge p L : Z.of_nat (L + tl) <= room p L.
Proof. unfold room, block_room. case_match; lia. Qed.

(** With both algorithms null, applying security changes nothing. *)
Lemma apply_null p hdr sn sdu mac slack : cipheringAlgorithm p = 0 -> integrityProtAlgorithm p = 0 ->
  0 <= rb < NB_RB_MAX -> Z.of_nat (length sdu) < 2 ^ 14 -> length hdr = hl ->
  pdcp_apply_security p srb rb hl sn (hdr ++ sdu ++ mac ++ slack) (Z.of_nat (length sdu)) =
    Ok (hdr ++ sdu ++ mac ++ slack).
Proof.
  intros Ec Ei [R1 R2] HL Hh. unfold pdcp_apply_security. rewrite Ec, Ei.
  rewrite (proj2 (Z.ltb_lt _ _)), (proj2 (Z.leb_le _ _)) by done. cbn [assert_fatal andb mbind res_bind].
  replace (if srb then _ else Ok (hdr ++ sdu ++ mac ++ slack)) with (Ok (hdr ++ sdu ++ mac ++ slack)) by by destruct srb.
  cbn [mbind res_bind]. rewrite (drop_app_length' hdr), (take_app_length' hdr) by done.
  unfold stream_encrypt. simpl Z.eqb. cbv iota. unfold stream_encrypt_eea0. cbn [blength].
  rewrite shiftl3, u32_small by lia. rewrite (proj2 (Z.ltb_ge _ _)); [done|].
  rewrite Z.shiftr_div_pow2 by lia. change (2 ^ 3) with 8. rewrite length_app.
  Z.to_euclidean_division_equations; lia.
Qed.

Lemma peers_in_sync S R R' : pdcp_sync S R -> security_config S R -> config_of R' = config_of R -> 0 <= rb < NB_RB_MAX ->
  rx_half R' = (next_sn srb (next_pdcp_tx_sn S), next_hfn srb (next_pdcp_tx_sn S) (rx_hfn R), 0, last_submitted_pdcp_rx_sn R) ->
  security_peers (pdcp_get_next_tx_seq_number S).2 R' srb rb (next_pdcp_tx_sn S).
Proof.
  intros Sy [C1 C2 C3 C4 C5 C6 C7] Ec Hr Er. rewrite (tx_number S srb) by apply Sy. cbn [snd].
  injection Ec as E1 E2 E3 E4 E5 E6 E7 E8 E9. injection Er as F1 F2 F3 F4.
  assert (Q : enc_key srb R' = enc_key srb R /\ int_key R' = int_key R)
    by (unfold enc_key, int_key; rewrite E4, E5, E6; done).
  destruct Q as [Q1 Q2].
  split; rewrite ?Q1, ?Q2; rsimpl; try done; try congruence.
  unfold pdcp_get_next_count_tx, pdcp_get_next_count_rx. cbn [fst]. rsimpl.
  rewrite F2, F3, E9, Z.add_0_r, (sync_hfn _ _ Sy), (sync_size_tx _ _ Sy), (sync_size_rx _ _ Sy).
  rewrite u32_small; [done|]. unfold next_hfn. case_match; [apply u32_range|apply Sy].
Qed.

(** The sender up to security: the PDU in clear, and the stage left to do. *)
Lemma data_req_layout S block sdu m : seq_num_size S = sn_bits srb -> 0 <= next_pdcp_tx_sn S < 2 ^ sn_bits srb ->
  0 <= rb < maxDRB -> Z.of_nat (length sdu) < 2 ^ 14 -> (hl + length sdu + tl <= length block)%nat ->
  let sn := next_pdcp_tx_sn S in
  let S' := (pdcp_get_next_tx_seq_number S).2 in
  exists slack, length (header_of srb m sn ++ sdu ++ replicate tl 0 ++ slack) = length block /\
    (Forall is_byte block -> Forall is_byte slack) /\
    data_req_pdu S srb rb m block sdu =
      (b4 ← (if negb (security_activated S =? 0) && (negb (cipheringAlgorithm S =? 0) || negb (integrityProtAlgorithm S =? 0))
             then pdcp_apply_security S' srb rb hl sn (header_of srb m sn ++ sdu ++ replicate tl 0 ++ slack) (Z.of_nat (length sdu))
             else Ok (header_of srb m sn ++ sdu ++ replicate tl 0 ++ slack));
       Ok (S', Some b4)).
Proof.
  intros Hz Hs Hr HL Hb sn S'. destruct (split_block block hl (length sdu) tl Hb) as (bh & bs & bm & tail & Eb & Hh & Hs' & Hm).
  exists tail. unfold data_req_pdu. split_and!.
  - rewrite Eb, !length_app, header_of_length, length_replicate. lia.
  - rewrite Eb, !Forall_app. tauto.
  - unfold S'. rewrite (tx_number S srb) by done. cbv beta iota. fold sn. cbn [snd].
    replace (if srb then u8 sn else sn) with sn
      by (destruct srb; [|done]; symmetry; apply u8_small; unfold sn; simpl in Hs; lia).
    rewrite (first_write block sdu bh bs bm tail m sn) by done. cbn [mbind res_bind]. rsimpl. rewrite Hz, max_sn.
    replace (sn >? 2 ^ sn_bits srb - 1) with false by (unfold sn; lia).
    rewrite (write_at_app (header_of srb m sn) bs) by (rewrite ?header_of_length; done). cbn [mbind res_bind].
    rewrite (app_assoc (header_of srb m sn) sdu), write_at_app
      by (rewrite ?length_app, ?header_of_length, ?length_replicate; try lia; by destruct srb).
    cbn [mbind res_bind]. rewrite <- app_assoc, Z.rem_small, u16_small by lia. done.
Qed.

(** The receiver up to security. *)
Lemma data_ind_layout S R m L : pdcp_sync S R -> Z.of_nat L < 2 ^ 14 ->
  let sn := next_pdcp_tx_sn S in
  exists R', config_of R' = config_of R /\ tx_half R' = tx_half R /\
    rx_half R' = (next_sn srb sn, next_hfn srb sn (rx_hfn R), 0, last_submitted_pdcp_rx_sn R) /\
    forall rest, data_ind_pdu R srb rb (Z.of_nat (hl + L + tl)) (header_of srb m sn ++ rest) =
      (if security_activated R =? 1 then
         r ← pdcp_validate_security R' srb rb hl sn (header_of srb m sn ++ rest) (Z.of_nat (hl + L));
         let '(_, p2, pdu') := r in Ok (p2, Some (sn, hl, pdu'))
       else Ok (R', Some (sn, hl, header_of srb m sn ++ rest))).
Proof.
  intros Sy HL sn. destruct (rx_in_order R srb sn) as (R' & E & Ec & Et & Er); try apply Sy.
  exists R'. split_and!; try done. intros rest. unfold data_ind_pdu.
  rewrite (parse_header_of R srb m sn rest) by apply Sy. cbn [mbind res_bind].
  rewrite (proj2 (Z.ltb_ge _ _)) by lia. rewrite E.
  assert (Ea : security_activated R' = security_activated R) by (injection Ec; done). rewrite Ea.
  replace (u16 _) with (Z.of_nat (hl + L)); [done|].
  rewrite u16_small; [lia|]. destruct srb; cbn [header_len tailer_len]; lia.
Qed.

(** A block that starts with a PDU in clear. *)
Lemma clear_prefix m sn sdu mac slack r : length mac = tl ->
  take (hl + length sdu + tl) r = take (hl + length sdu + tl) (header_of srb m sn ++ sdu ++ mac ++ slack) ->
  exists rest, r = header_of srb m sn ++ rest /\ take (length sdu) rest = sdu.
Proof.
  intros Hm Er. rewrite <- Nat.add_assoc in Er. destruct (prefix_split _ _ _ _ Er) as (rest & -> & Et).
  rewrite take_app_length' by (by rewrite header_of_length).
  rewrite drop_app_length' in Et by (by rewrite header_of_length). exists rest. split; [done|].
  replace (length sdu) with (length sdu `min` (length sdu + tl))%nat by lia.
  rewrite <- take_take, Et, take_take, Nat.min_l by lia. by rewrite take_app_length.
Qed.

(** The transfer of [sdu], from the block the sender fills to the entity and
    the buffer the receiver ends with. *)
Definition transfers (S R : pdcp_t) (block sdu : list Z) (m : pdcp_transmission_mode_t) : Prop :=
  let sn := next_pdcp_tx_sn S in
  let n := (hl + length sdu + tl)%nat in
  exists b, data_req_pdu S srb rb m block sdu = Ok ((pdcp_get_next_tx_seq_number S).2, Some b) /\
    length b = length block /\ Forall is_byte b /\
    forall r, Forall is_byte r -> Z.of_nat hl + room R (length sdu) <= Z.of_nat (length r) -> take n r = take n b ->
      exists R' r', data_ind_pdu R srb rb (Z.of_nat n) r = Ok (R', Some (sn, hl, r')) /\ length r' = length r /\
        take (length sdu) (drop hl r') = sdu /\ config_of R' = config_of R /\ tx_half R' = tx_half R /\
        rx_half R' = (next_sn srb sn, next_hfn srb sn (rx_hfn R), 0, last_submitted_pdcp_rx_sn R).

Lemma transfers_clear S R block sdu m : pdcp_sync S R -> 0 <= rb < maxDRB -> Z.of_nat (length sdu) < 2 ^ 14 ->
  Forall is_byte block -> Forall is_byte sdu -> Z.of_nat hl + room R (length sdu) <= Z.of_nat (length block) ->
  security_activated R = 0 -> transfers S R block sdu m.
Proof.
  intros Sy Hr HL Bb Bs Room Ha. pose proof (room_ge R (length sdu)) as Hg.
  destruct (data_req_layout S block sdu m) as (slack & Hlen & Bsl & Ereq); [apply Sy..|done|done|lia|].
  eexists. rewrite Ereq, (sync_active _ _ Sy), Ha. split; [reflexivity|]. split; [done|]. split.
  { rewrite !Forall_app. split_and!; try done; [apply header_bytes, Sy|by apply Forall_replicate|by apply Bsl]. }
  intros r Br Hrl Er. destruct (clear_prefix _ _ _ _ _ _ (length_replicate tl 0) Er) as (rest & -> & Et).
  destruct (data_ind_layout S R m (length sdu) Sy HL) as (R' & Ec & Etx & Erx & Eind).
  rewrite Eind, Ha. exists R', (header_of srb m (next_pdcp_tx_sn S) ++ rest). split_and!; try done.
  by rewrite drop_app_length' by (by rewrite header_of_length).
Qed.

(** The stage the sender has left is [pdcp_apply_security] in every case. *)
Lemma apply_stage S sn m sdu slack : 0 <= rb < NB_RB_MAX -> Z.of_nat (length sdu) < 2 ^ 14 -> security_activated S = 1 ->
  let clear := header_of srb m sn ++ sdu ++ replicate tl 0 ++ slack in
  let S' := (pdcp_get_next_tx_seq_number S).2 in
  config_of S' = config_of S ->
  (if negb (security_activated S =? 0) && (negb (cipheringAlgorithm S =? 0) || negb (integrityProtAlgorithm S =? 0))
   then pdcp_apply_security S' srb rb hl sn clear (Z.of_nat (length sdu)) else Ok clear)
  = pdcp_apply_security S' srb rb hl sn clear (Z.of_nat (length sdu)).
Proof.
  intros Hr HL Ha clear S' Ec. rewrite Ha. cbn [negb andb Z.eqb].
  destruct (Z.eqb_spec (cipheringAlgorithm S) 0) as [Hc|]; [|done].
  destruct (Z.eqb_spec (integrityProtAlgorithm S) 0) as [Hi|]; [|done].
  injection Ec as E1 E2 E3 _. symmetry.
  apply apply_null; [congruence|congruence|done|done|apply header_of_length].
Qed.

Lemma transfers_secure S R block sdu m : pdcp_sync S R -> 0 <= rb < maxDRB -> Z.of_nat (length sdu) < 2 ^ 14 ->
  Forall is_byte block -> Forall is_byte sdu -> Z.of_nat hl + room R (length sdu) <= Z.of_nat (length block) ->
  security_activated R = 1 -> security_config S R -> transfers S R block sdu m.
Proof.
  intros Sy Hr HL Bb Bs Room Ha Conf. pose proof (room_ge R (length sdu)) as Hg.
  assert (Hr' : 0 <= rb < NB_RB_MAX) by (unfold maxDRB, NB_RB_MAX in *; lia).
  destruct (data_req_layout S block sdu m) as (slack & Hlen & Bsl & Ereq); [apply Sy..|done|done|lia|].
  cbv zeta in Ereq. rewrite apply_stage in Ereq; [|done|done|by rewrite (sync_active _ _ Sy)|by rewrite (tx_number S srb) by apply Sy].
  destruct (data_ind_layout S R m (length sdu) Sy HL) as (R' & Ec & Etx & Erx & Eind).
  pose proof (peers_in_sync S R R' Sy Conf Ec Hr' Erx) as Pe.
  assert (Eroom : room R (length sdu) = block_room R' srb (length sdu)).
  { unfold room, block_room. rewrite Ha. injection Ec as _ E2 _. by rewrite E2. }
  destruct (security_transfer _ R' srb rb _ (header_of srb m (next_pdcp_tx_sn S)) sdu (replicate tl 0) slack Pe)
    as (pdu & Eap & Hpl & Bp & Hph & Hval); try done.
  { apply header_of_length. } { apply length_replicate. }
  { rewrite !Forall_app. split_and!; try done; [apply header_bytes, Sy|by apply Forall_replicate|by apply Bsl]. }
  { rewrite <- Eroom. revert Hlen. rewrite (length_app (header_of _ _ _)), header_of_length. lia. }
  exists pdu. rewrite Ereq, Eap. split_and!; [done|congruence|done|].
  intros r Br Hrl Er. destruct (Hval r Br) as (rc & r' & Ev & Hl' & Et & _); [lia|done|].
  assert (Ehdr : exists rest, r = header_of srb m (next_pdcp_tx_sn S) ++ rest).
  { rewrite <- Nat.add_assoc in Er. destruct (prefix_split _ _ _ _ Er) as (rest & -> & _). rewrite Hph. by exists rest. }
  destruct Ehdr as [rest ->]. rewrite Eind, Ha. simpl Z.eqb. cbv iota. rewrite Ev. cbn [mbind res_bind].
  eexists _, r'. split; [reflexivity|]. split_and!; try done.
  - rewrite take_drop_commute, Et. apply drop_app_length'. by rewrite header_of_length.
  - rewrite <- Erx. unfold rx_half. rsimpl. injection Erx as _ _ -> _. done.
Qed.

Lemma pdcp_transfer S R block sdu m : pdcp_sync S R -> 0 <= rb < maxDRB -> Z.of_nat (length sdu) < 2 ^ 14 ->
  Forall is_byte block -> Forall is_byte sdu -> Z.of_nat hl + room R (length sdu) <= Z.of_nat (length block) ->
  transfers S R block sdu m.
Proof.
  intros Sy. intros. destruct (sync_security _ _ Sy) as [Ha|[Ha Conf]];
    eauto using transfers_clear, transfers_secure.
Qed.

End Transfer.

End PdcpLink.
