(* ===== verification/PdcpSystem.v ===== *)
(** * Two PDCP layers and a bearer between them

    A sender's layer, a receiver's layer, and an RLC that carries the bytes of
    each PDU in order into fresh memory blocks. *)

From S2P Require Import Prelude Snow3g Osa HashTable Collection Pdcp PdcpLayer PdcpSecurity PdcpLink.

Module PdcpSystem.
Import Osa Collection Pdcp PdcpLayer PdcpSecurity PdcpLink.

Section System.
Context `{AesLib} {T : Type} `{O : CollectionOps T pdcp_t} `{!CollectionLaws T pdcp_t}.

(** What the receiver's layer handed over in one indication: to the RRC, to
    the GTP tunnel, or to the list of the IP driver. *)
Definition handed (before after : pdcp_layer T) (out : list output) : list (list Z) :=
  omap (fun o => match o with
                 | RrcDataInd _ _ d | GtpuTunnelDataReq _ _ d => Some d
                 | _ => None
                 end) out ++
  (ind_data <$> drop (length (pdcp_sdu_list before)) (pdcp_sdu_list after)).

(** One SDU on its way: the sender's block as the pool gives it, and what
    follows the PDU in the receiver's block. *)
Record shipment : Type := mk_shipment { sh_sdu : list Z; sh_block : list Z; sh_slack : list Z }.

Section Bearer.
Context (cA cB : protocol_ctxt_t) (srb : bool) (rb : Z) (m : pdcp_transmission_mode_t) (link_gtpu : bool).

Notation keyA := (key_of cA rb srb).
Notation keyB := (key_of cB rb srb).

Definition ship (A B : pdcp_layer T) (x : shipment) : res (pdcp_layer T * pdcp_layer T * list (list Z)) :=
  r ← pdcp_data_req A cA srb rb 0 0 (sh_sdu x) m (Some (sh_block x)) RLC_OP_STATUS_OK;
  match r with
  | (true, A', [RlcDataReq _ _ _ _ _ n b]) =>
      d ← pdcp_data_ind false link_gtpu true B cB srb false rb n (take (Z.to_nat n) b ++ sh_slack x);
      let '(ok, B', out) := d in
      Ok (A', B', handed B B' out)
  | (_, A', _) => Ok (A', B, [])
  end.

Fixpoint ship_all (A B : pdcp_layer T) (xs : list shipment) : res (pdcp_layer T * pdcp_layer T * list (list Z)) :=
  match xs with
  | [] => Ok (A, B, [])
  | x :: xs =>
      r ← ship A B x;
      let '(A', B', d) := r in
      r' ← ship_all A' B' xs;
      let '(A'', B'', d') := r' in
      Ok (A'', B'', d ++ d')
  end.

(** The bearer is configured at both ends and the ends are synchronised. *)
Definition bearer_ok (A B : pdcp_layer T) : Prop :=
  coll_ok (pdcp_coll_p A) /\ coll_ok (pdcp_coll_p B) /\
  exists S R, coll_map (pdcp_coll_p A) !! keyA = Some S /\ coll_map (pdcp_coll_p B) !! keyB = Some R /\
    pdcp_sync srb S R /\
    (link_gtpu && enb_flag cB = true -> srb = true \/ rlc_mode R = RLC_MODE_UM).

(** The bytes of the block that the ciphering of an SDU of [L] bytes may
    touch behind the header. *)
Definition cipher_room (alg active : Z) (L : nat) : Z :=
  let n := Z.of_nat (L + tailer_len srb) in
  if active =? 1 then Z.max n (cipher_bytes alg (8 * Z.of_nat L)) else n.

(** The conditions on one SDU: 1 to 1500 bytes, and blocks with room for what
    the ciphering algorithm touches. *)
Definition shipment_ok (alg active : Z) (x : shipment) : Prop :=
  let L := length (sh_sdu x) in
  (1 <= L)%nat /\ Z.of_nat L <= MAX_IP_PACKET_SIZE /\
  Forall is_byte (sh_sdu x) /\ Forall is_byte (sh_block x) /\ Forall is_byte (sh_slack x) /\
  let room := cipher_room alg active L in
  Z.of_nat (header_len srb) + room <= Z.of_nat (length (sh_block x)) /\
  room <= Z.of_nat (L + tailer_len srb + length (sh_slack x)).

Hypothesis Hrb : 0 < rb < (if srb then 2 else maxDRB).
Hypothesis Hmode : m <> PDCP_TRANSMISSION_MODE_TRANSPARENT.

Lemma rb_range : 0 <= rb < maxDRB /\ Z.rem rb maxDRB = rb.
Proof using Hrb.
  assert (0 <= rb < maxDRB) by (unfold maxDRB in *; destruct srb; lia). split; [done|]. apply Z.rem_small. lia.
Qed.

Lemma data_req_ok A S b b' sdu : coll_ok (pdcp_coll_p A) -> coll_map (pdcp_coll_p A) !! keyA = Some S ->
  (1 <= length sdu)%nat -> Z.of_nat (length sdu) <= MAX_IP_PACKET_SIZE ->
  data_req_pdu S srb rb m b sdu = Ok ((pdcp_get_next_tx_seq_number S).2, Some b') ->
  let n := Z.of_nat (header_len srb + length sdu + tailer_len srb) in
  exists t, pdcp_data_req A cA srb rb 0 0 sdu m (Some b) RLC_OP_STATUS_OK =
      Ok (true, A <| pdcp_coll_p := t |>, [RlcDataReq srb false rb 0 0 n b']) /\
    coll_ok t /\ coll_map t = <[keyA := (pdcp_get_next_tx_seq_number S).2]> (coll_map (pdcp_coll_p A)).
Proof using Hmode Hrb.
  intros Hok Hk H1 H2 Hd n. unfold MAX_IP_PACKET_SIZE in H2. destruct (coll_store_ok (pdcp_coll_p A) keyA (pdcp_get_next_tx_seq_number S).2 S Hok Hk)
    as (t & Es & Hok' & Hm). exists t. split; [|done]. unfold pdcp_data_req.
  replace (rb_id_in_range cA srb rb m) with true.
  2: { unfold rb_id_in_range. rewrite decide_False by done. unfold maxDRB in *. destruct srb; lia. }
  cbn [negb]. rewrite (coll_get_ok _ _ Hok), Hk. cbn [mbind res_bind].
  destruct (decide (m = PDCP_TRANSMISSION_MODE_TRANSPARENT)); [done|].
  rewrite (proj2 (Z.eqb_neq _ _)) by lia. unfold MAX_IP_PACKET_SIZE. rewrite (proj2 (Z.leb_le _ _)) by lia.
  cbn [assert_fatal mbind res_bind]. unfold data_req_entity. rewrite Hd. cbn [mbind res_bind]. rewrite Es. cbn [mbind res_bind].
  unfold n. do 5 f_equal. rewrite u16_small; [lia|]. destruct srb; cbn [header_len tailer_len]; lia.
Qed.

Lemma payload_ok (r' sdu : list Z) : (header_len srb + length sdu + tailer_len srb <= length r')%nat ->
  take (length sdu) (drop (header_len srb) r') = sdu ->
  payload_of r' (Z.of_nat (header_len srb))
    (Z.of_nat (header_len srb + length sdu + tailer_len srb) - Z.of_nat (header_len srb) - Z.of_nat (tailer_len srb)) = Ok sdu.
Proof.
  intros Hl E. unfold payload_of. rewrite (proj2 (Z.ltb_ge _ _)) by lia.
  rewrite Nat2Z.id. replace (Z.to_nat _) with (length sdu) by lia. by rewrite E.
Qed.

Lemma handed_none l t : handed l (l <| pdcp_coll_p := t |>) [] = [].
Proof. unfold handed. rsimpl. by rewrite drop_all. Qed.

Lemma data_ind_ok B R R' r r' sdu sn : coll_ok (pdcp_coll_p B) -> coll_map (pdcp_coll_p B) !! keyB = Some R ->
  (1 <= length sdu)%nat -> length r' = length r -> (header_len srb + length sdu + tailer_len srb <= length r)%nat ->
  (link_gtpu && enb_flag cB = true -> srb = true \/ rlc_mode R' = RLC_MODE_UM) ->
  let n := Z.of_nat (header_len srb + length sdu + tailer_len srb) in
  data_ind_pdu R srb rb n r = Ok (R', Some (sn, header_len srb, r')) ->
  take (length sdu) (drop (header_len srb) r') = sdu ->
  exists B' out, pdcp_data_ind false link_gtpu true B cB srb false rb n r = Ok (true, B', out) /\
    handed B B' out = [sdu] /\ coll_ok (pdcp_coll_p B') /\
    coll_map (pdcp_coll_p B') = <[keyB := note_submitted srb sn R']> (coll_map (pdcp_coll_p B)).
Proof using Hrb.
  intros Hok Hk H1 Hl Hr Hg n Hd Ht. destruct rb_range as [Hrb1 Hrb2].
  destruct (coll_store_ok (pdcp_coll_p B) keyB (note_submitted srb sn R') R Hok Hk) as (t & Es & Hok' & Hm).
  unfold pdcp_data_ind. rewrite Hrb2.
  rewrite (proj2 (Z.ltb_lt rb _)), (proj2 (Z.ltb_lt 0 rb)) by lia. cbn [negb orb].
  rewrite (coll_get_ok _ _ Hok), Hk. cbn [mbind res_bind]. rewrite (proj2 (Z.eqb_neq _ _)) by lia.
  unfold data_ind_entity. rewrite Hd. cbn [mbind res_bind]. unfold n. rewrite payload_ok by (done || lia).
  cbn [mbind res_bind]. unfold note_submitted in *. destruct srb eqn:Esrb.
  - rewrite decide_False in * by (intros [? _]; done). rewrite Es. cbn [mbind res_bind].
    eexists _, _. split; [reflexivity|]. rsimpl. split_and!; try done. unfold handed. rsimpl. by rewrite drop_all.
  - unfold deliver. cbn [negb]. rewrite andb_true_r. destruct (link_gtpu && enb_flag cB) eqn:Eg.
    + destruct (Hg eq_refl) as [|Hu]; [done|]. rewrite decide_False in * by (intros [_ ?]; congruence).
      cbn [mbind res_bind from_option id]. rewrite Es. cbn [mbind res_bind].
      eexists _, _. split; [reflexivity|]. rsimpl. split_and!; try done. unfold handed. rsimpl. by rewrite drop_all.
    + cbn [of_option mbind res_bind from_option id]. rsimpl.
      replace (if decide (rlc_mode R' = RLC_MODE_AM) then R' <| last_submitted_pdcp_rx_sn := sn |> else R')
        with (if decide (false = false /\ rlc_mode R' = RLC_MODE_AM) then R' <| last_submitted_pdcp_rx_sn := sn |> else R')
        by (destruct (decide (rlc_mode R' = RLC_MODE_AM)); [rewrite decide_True|rewrite decide_False]; tauto).
      rewrite Es. cbn [mbind res_bind]. eexists _, _. split; [reflexivity|]. rsimpl. split_and!; try done.
      unfold handed. rsimpl. by rewrite drop_app_length.
Qed.

(** One SDU between synchronised ends. The request and the PDU do not depend
    on what will follow the PDU in the receiver's block. *)
Lemma transfer_ok A B R sdu block : bearer_ok A B -> coll_map (pdcp_coll_p B) !! keyB = Some R ->
  let L := length sdu in let n := (header_len srb + L + tailer_len srb)%nat in
  let room := cipher_room (cipheringAlgorithm R) (security_activated R) L in
  (1 <= L)%nat -> Z.of_nat L <= MAX_IP_PACKET_SIZE -> Forall is_byte sdu -> Forall is_byte block ->
  Z.of_nat (header_len srb) + room <= Z.of_nat (length block) ->
  exists A' b,
    pdcp_data_req A cA srb rb 0 0 sdu m (Some block) RLC_OP_STATUS_OK = Ok (true, A', [RlcDataReq srb false rb 0 0 (Z.of_nat n) b]) /\
    (n <= length b)%nat /\
    forall slack, Forall is_byte slack -> room <= Z.of_nat (L + tailer_len srb + length slack) ->
      exists B' out R', pdcp_data_ind false link_gtpu true B cB srb false rb (Z.of_nat n) (take n b ++ slack) = Ok (true, B', out) /\
        handed B B' out = [sdu] /\ bearer_ok A' B' /\
        coll_map (pdcp_coll_p B') !! keyB = Some R' /\ config_of R' = config_of R.
Proof using Hmode Hrb.
  intros (HA & HB & S & R0 & HS & HR0 & Sy & Hg) HR L n room H1 H2 By Bb Rm1. rewrite HR in HR0. injection HR0 as <-.
  destruct rb_range as [Hrb1 Hrb2]. unfold MAX_IP_PACKET_SIZE in H2. subst L room.
  destruct (pdcp_transfer srb rb S R block sdu m) as (b & Ereq & Hlb & Bb' & Hind); try done.
  { lia. }
  destruct (data_req_ok A S _ _ _ HA HS H1 H2 Ereq) as (tA & EA & HokA & HmA). fold n in EA.
  assert (Hnb : (n <= length b)%nat).
  { rewrite Hlb. unfold n. unfold cipher_room in Rm1. destruct (security_activated R =? 1); lia. }
  eexists _, b. split; [exact EA|]. split; [done|]. intros slack Bsl Rm2. set (r := take n b ++ slack).
  assert (Hlr : length r = (n + length slack)%nat) by (unfold r; rewrite length_app, length_take; lia).
  destruct (Hind r) as (R' & r' & Eind & Hl' & Ht & Ec & Et & Er).
  { unfold r. rewrite Forall_app. split; [by apply Forall_take|done]. }
  { rewrite Hlr. unfold n, room, block_room, cipher_room in *. destruct (security_activated R =? 1); lia. }
  { unfold r. rewrite take_app_length'; [done|]. rewrite length_take. lia. }
  assert (Em : rlc_mode R' = rlc_mode R) by (injection Ec; done).
  destruct (data_ind_ok B R R' r r' sdu (next_pdcp_tx_sn S)) as (B' & out & EB & Hh & HokB & HmB); try done.
  { fold n. lia. } { rewrite Em. done. }
  exists B', out, (note_submitted srb (next_pdcp_tx_sn S) R'). split; [exact EB|]. split; [done|].
  assert (Ecn : config_of (note_submitted srb (next_pdcp_tx_sn S) R') = config_of R)
    by (rewrite <- Ec; unfold note_submitted; case_decide; done).
  split; [|by rewrite HmB, lookup_insert_eq].
  unfold bearer_ok. rsimpl. split_and!; try done.
  exists (pdcp_get_next_tx_seq_number S).2, (note_submitted srb (next_pdcp_tx_sn S) R').
  rewrite HmA, HmB, !lookup_insert_eq. split_and!; try done; [by apply (sync_next srb S R)|].
  intros Eg. destruct (Hg Eg) as [|Hu]; [by left|right]. injection Ecn as _ _ _ _ _ _ _ E8 _. congruence.
Qed.

Lemma ship_ok A B x : bearer_ok A B ->
  (forall R, coll_map (pdcp_coll_p B) !! keyB = Some R -> shipment_ok (cipheringAlgorithm R) (security_activated R) x) ->
  exists A' B', ship A B x = Ok (A', B', [sh_sdu x]) /\ bearer_ok A' B' /\
    (forall R, coll_map (pdcp_coll_p B) !! keyB = Some R -> exists R',
       coll_map (pdcp_coll_p B') !! keyB = Some R' /\ config_of R' = config_of R).
Proof using Hmode Hrb.
  intros Hb Hx. pose proof Hb as (_ & _ & S & R & _ & HR & _). specialize (Hx R HR). destruct Hx as (H1 & H2 & By & Bb & Bsl & Rm1 & Rm2).
  destruct (transfer_ok A B R (sh_sdu x) (sh_block x) Hb HR) as (A' & b & EA & _ & Hd); try done.
  destruct (Hd (sh_slack x)) as (B' & out & R' & EB & Hh & Hb' & HR' & Ec); try done.
  exists A', B'. unfold ship. rewrite EA. cbn [mbind res_bind]. rewrite Nat2Z.id, EB. cbn [mbind res_bind]. rewrite Hh.
  split_and!; [reflexivity|done|]. intros R0 HR0. rewrite HR in HR0. injection HR0 as <-. eauto.
Qed.

End Bearer.
End System.

End PdcpSystem.
