(* ===== verification/PdcpClaims.v ===== *)
(** * Properties of the PDCP layer *)

From S2P Require Import Prelude Snow3g Osa HashTable Collection Pdcp PdcpLayer PdcpConfig PdcpSecurity PdcpLink PdcpSystem.

Module PdcpClaims.
Import Osa Collection Pdcp PdcpLayer PdcpConfig PdcpSecurity PdcpLink PdcpSystem.

(** ** Setting a bearer up *)

(** The bearers the RRC sets up: SRB, DRB over AM, DRB over UM with 12-bit
    sequence numbers. *)
Inductive bearer_kind : Type := SRB | DRB_AM (report : Z) | DRB_UM.

Definition kind_srb (k : bearer_kind) : bool := match k with SRB => true | _ => false end.
Definition kind_mode (k : bearer_kind) : rlc_mode_t := match k with DRB_UM => RLC_MODE_UM | _ => RLC_MODE_AM end.
Definition kind_sn (k : bearer_kind) : Z := match k with SRB => 5 | _ => len12bits end.
Definition kind_report (k : bearer_kind) : Z := match k with DRB_AM r => r | _ => 0 end.

Definition srb_request (k : bearer_kind) (rb : Z) : option (list SRB_ToAddMod_t) :=
  match k with SRB => Some [mk_srb rb (Some (SRB_rlc_Config_PR_explicitValue false))] | _ => None end.
Definition drb_request (k : bearer_kind) (rb : Z) : option (list DRB_ToAddMod_t) :=
  match k with
  | SRB => None
  | DRB_AM r => Some [mk_drb rb (Some (mk_config (Some r) None HC_notUsed))]
  | DRB_UM => Some [mk_drb rb (Some (mk_config None (Some len12bits) HC_notUsed))]
  end.

Section Setup.
Context {T : Type} `{O : CollectionOps T pdcp_t} `{!CollectionLaws T pdcp_t}.

Definition setup_bearer (l : pdcp_layer T) (c : protocol_ctxt_t) (k : bearer_kind) (rb : Z) (s : security_req) :
    res (pdcp_layer T * list output) :=
  rrc_pdcp_config_asn1_req l c (srb_request k rb) (drb_request k rb) None s None.

(** The entity a [CONFIG_ACTION_ADD] leaves. *)
Definition added (c : protocol_ctxt_t) (k : bearer_kind) (rb : Z) (s : security_req) : pdcp_t :=
  setup_security
    (pdcp_zero <| is_ue := negb (enb_flag c) |> <| is_srb := kind_srb k |> <| lcid := u16 (rb + 2) |>
       <| rb_id := u16 rb |> <| header_compression_profile := u16 0 |> <| status_report := u8 (kind_report k) |>
       <| seq_num_size := sn_size_of (u8 (kind_sn k)) |> <| rlc_mode := kind_mode k |>
       <| next_pdcp_tx_sn := 0 |> <| next_pdcp_rx_sn := 0 |> <| next_pdcp_rx_sn_before_integrity := 0 |>
       <| tx_hfn := 0 |> <| rx_hfn := 0 |> <| last_submitted_pdcp_rx_sn := 4095 |>
       <| first_missing_pdu := -1 |> <| rx_hfn_offset := 0 |>) s.

Lemma note_rnti_coll c a (l : pdcp_layer T) : pdcp_coll_p (note_rnti c a l) = pdcp_coll_p l.
Proof. unfold note_rnti. destruct a; try done. by destruct (enb_flag c). Qed.

Lemma add_new (l : pdcp_layer T) c key srb mode lc rb sn rep hc s p : coll_ok (pdcp_coll_p l) ->
  coll_map (pdcp_coll_p l) !! key = None ->
  config_entity c pdcp_zero srb mode CONFIG_ACTION_ADD (u16 lc) (u16 rb) (u8 sn) (u8 rep) (u16 hc) s = Ok (p, []) ->
  exists l1 l', get_or_add l key = Ok (CONFIG_ACTION_ADD, l1) /\
    pdcp_config_req_asn1 l1 c key srb mode CONFIG_ACTION_ADD lc rb sn rep hc s = Ok (l', []) /\
    coll_ok (pdcp_coll_p l') /\ coll_map (pdcp_coll_p l') = <[key := p]> (coll_map (pdcp_coll_p l)).
Proof.
  intros Hok Hk He. destruct (coll_insert_ok _ _ pdcp_zero Hok Hk) as (t & Ei & Ht & Em).
  assert (Hk' : coll_map t !! key = Some pdcp_zero) by by rewrite Em, lookup_insert_eq.
  destruct (coll_store_ok t key p pdcp_zero Ht Hk') as (t' & Es & Ht' & Em').
  eexists _, _. unfold get_or_add. rewrite (coll_get_ok _ _ Hok), Hk. cbn [mbind res_bind]. rewrite Ei.
  split; [reflexivity|]. unfold pdcp_config_req_asn1. rsimpl. rewrite (coll_get_ok _ _ Ht), Hk'. cbn [mbind res_bind of_option].
  rewrite He. cbn [mbind res_bind fst snd]. rewrite Es. split; [reflexivity|]. rewrite note_rnti_coll. rsimpl. split; [done|].
  by rewrite Em', Em, insert_insert_eq.
Qed.

Lemma added_config c k rb s :
  config_entity c pdcp_zero (kind_srb k) (kind_mode k) CONFIG_ACTION_ADD (u16 (rb + 2)) (u16 rb) (u8 (kind_sn k))
    (u8 (kind_report k)) (u16 0) s = Ok (added c k rb s, []).
Proof. reflexivity. Qed.

Lemma setup_ok l c k rb s : coll_ok (pdcp_coll_p l) -> coll_map (pdcp_coll_p l) !! key_of c rb (kind_srb k) = None ->
  rb < maxDRB ->
  exists l', setup_bearer l c k rb s = Ok (l', []) /\ coll_ok (pdcp_coll_p l') /\
    coll_map (pdcp_coll_p l') = <[key_of c rb (kind_srb k) := added c k rb s]> (coll_map (pdcp_coll_p l)).
Proof.
  intros Hok Hk Hrb.
  destruct (add_new l c (key_of c rb (kind_srb k)) (kind_srb k) (kind_mode k) (rb + 2) rb (kind_sn k) (kind_report k) 0 s
    (added c k rb s) Hok Hk) as (l1 & l' & E1 & E2 & Hok' & Em); [apply added_config|].
  exists l'. split; [|done]. unfold setup_bearer, rrc_pdcp_config_asn1_req.
  destruct k; cbn [srb_request drb_request kind_srb kind_mode kind_sn kind_report default from_option config_loop] in *;
    unfold id; cbn [config_loop mbind res_bind concat config_mbms_list];
    unfold config_srb, config_drb; cbn [srb_Identity rlc_Config drb_Identity pdcp_Config];
    rewrite ?(proj2 (Z.ltb_lt _ _) Hrb); cbn [assert_fatal mbind res_bind]; rewrite E1; cbn [mbind res_bind].
  - rewrite E2. done.
  - cbn. rewrite E2. done.
  - cbn. rewrite E2. done.
Qed.

(** Whether a request switches security on. *)
Definition activates (s : security_req) : bool := negb (security_modeP s =? 0xff) && ((0 <=? security_modeP s) && (security_modeP s <=? 0x77)).

Lemma added_numbers c k rb s : tx_half (added c k rb s) = (0, 0) /\ rx_half (added c k rb s) = (0, 0, 0, 4095).
Proof. unfold added, setup_security, pdcp_config_set_security. repeat case_match; done. Qed.

Lemma added_fields c k rb s : let p := added c k rb s in
  seq_num_size p = sn_bits (kind_srb k) /\ rlc_mode p = kind_mode k /\ is_ue p = negb (enb_flag c) /\
  security_activated p = Z.b2z (activates s) /\
  (activates s = true -> cipheringAlgorithm p = Z.land (security_modeP s) 0x0f /\
    integrityProtAlgorithm p = Z.land (Z.shiftr (security_modeP s) 4) 0xf /\
    kRRCenc p = kRRCenc_pP s /\ kRRCint p = kRRCint_pP s /\ kUPenc p = kUPenc_pP s).
Proof.
  unfold added, setup_security, pdcp_config_set_security, activates.
  destruct (negb (security_modeP s =? 0xff)), ((0 <=? security_modeP s) && (security_modeP s <=? 0x77)); cbv zeta;
    (split; [destruct k; reflexivity|]); (split; [reflexivity|]); (split; [reflexivity|]); (split; [reflexivity|]);
    cbn [andb]; intros Ha; first [discriminate Ha | repeat (split; [reflexivity|]); reflexivity].
Qed.

(** Keys of at least 16 bytes for ciphering and 32 for integrity (the code
    uses the second half of the latter). *)
Definition keys_ok (k : bearer_kind) (s : security_req) : Prop :=
  activates s = true ->
    (16 <= length (key_at (if kind_srb k then kRRCenc_pP s else kUPenc_pP s) 0))%nat /\
    (kind_srb k = true -> 16 <= length (key_at (kRRCint_pP s) 16))%nat.

Lemma added_sync cA cB k rb s : keys_ok k s -> enb_flag cA = negb (enb_flag cB) ->
  pdcp_sync (kind_srb k) (added cA k rb s) (added cB k rb s).
Proof.
  intros Hk He. destruct (added_numbers cA k rb s) as [TA _]. destruct (added_numbers cB k rb s) as [_ RB].
  destruct (added_fields cA k rb s) as (A1 & A2 & A3 & A4 & A5).
  destruct (added_fields cB k rb s) as (B1 & B2 & B3 & B4 & B5).
  set (S := added cA k rb s) in *. set (R := added cB k rb s) in *.
  injection TA as T1 T2. injection RB as R1 R2 R3 R4.
  split; rewrite ?T1, ?T2; try done; try congruence; try lia.
  - split; [done|]. by destruct k.
  - intros Hs. rewrite B2, R4. destruct k; try done; [by right|by left].
  - rewrite B4. destruct (activates s) eqn:Ea; [right|by left]. split; [done|].
    destruct (A5 eq_refl) as (A6 & A7 & A8 & A9 & A10). destruct (B5 eq_refl) as (B6 & B7 & B8 & B9 & B10).
    destruct (Hk Ea) as [K1 K2]. split; unfold enc_key, int_key; rewrite ?A8, ?A9, ?A10, ?B8, ?B9, ?B10; try done; try congruence.
Qed.

Lemma bearer_established (A A' B B' : pdcp_layer T) cA cB k rb s link_gtpu :
  coll_ok (pdcp_coll_p A') -> coll_ok (pdcp_coll_p B') ->
  coll_map (pdcp_coll_p A') = <[key_of cA rb (kind_srb k) := added cA k rb s]> (coll_map (pdcp_coll_p A)) ->
  coll_map (pdcp_coll_p B') = <[key_of cB rb (kind_srb k) := added cB k rb s]> (coll_map (pdcp_coll_p B)) ->
  keys_ok k s -> enb_flag cA = negb (enb_flag cB) ->
  (link_gtpu && enb_flag cB = true -> kind_srb k = true \/ k = DRB_UM) ->
  bearer_ok cA cB (kind_srb k) rb link_gtpu A' B'.
Proof.
  intros HA HB MA MB Hs He Hg. split_and!; try done.
  exists (added cA k rb s), (added cB k rb s). rewrite MA, MB, !lookup_insert_eq.
  split_and!; try done; [by apply added_sync|]. intros Eg. destruct (Hg Eg) as [|Hk]; [by left|right].
  destruct (added_fields cB k rb s) as (_ & -> & _). by subst k.
Qed.

(** The security of an entity is that of the request: activated when the
    request says so, and then the ciphering algorithm of the low half byte of
    the security mode, the integrity algorithm of the high one, and the keys. *)
Definition secured (s : security_req) (p : pdcp_t) : Prop :=
  security_activated p = Z.b2z (activates s) /\
  (activates s = true -> cipheringAlgorithm p = security_modeP s mod 16 /\
    integrityProtAlgorithm p = security_modeP s / 16 /\
    kRRCenc p = kRRCenc_pP s /\ kRRCint p = kRRCint_pP s /\ kUPenc p = kUPenc_pP s).

Lemma added_secured c k rb s : secured s (added c k rb s).
Proof.
  destruct (added_fields c k rb s) as (_ & _ & _ & A4 & A5). split; [done|]. intros Ha.
  destruct (A5 Ha) as (-> & -> & H). split_and!; [by apply (Z.land_ones _ 4)| |apply H..].
  unfold activates in Ha. rewrite !andb_true_iff, !Z.leb_le in Ha.
  rewrite (Z.land_ones _ 4 ltac:(lia) : Z.land _ 15 = _), Z.shiftr_div_pow2 by lia.
  change (2 ^ 4) with 16. apply Z.mod_small. div_lia.
Qed.

(** C17. Setting a new bearer up. Two layers, an eNB's and a UE's, that do not
    have the bearer (an SRB, a DRB over AM, or a DRB over UM with 12-bit
    sequence numbers; not 7-bit ones, whose payload is shifted, see
    [pdcp_7bit_payload_shifted], nor the reconfiguration of a bearer) receive
    the same security request through [rrc_pdcp_config_asn1_req]. Both calls
    succeed, release nothing and leave the other bearers as they were. Both
    entities have the security of the request: activated exactly when it asks
    for algorithms, with the ciphering algorithm of the low and the integrity
    algorithm of the high half of the mode and the keys given. And they end in
    [bearer_ok], the synchronised state from where C4 delivers every SDU in
    order: equal numbers and hyper frame numbers on both sides, the same
    security. The keys an activating request gives must have 16 bytes for
    ciphering and, for an SRB, 32 for integrity; with GTP forwarding a DRB is
    over UM. *)
Theorem pdcp_configured_bearer (A B : pdcp_layer T) cA cB k rb s link_gtpu :
  coll_ok (pdcp_coll_p A) -> coll_ok (pdcp_coll_p B) ->
  coll_map (pdcp_coll_p A) !! key_of cA rb (kind_srb k) = None ->
  coll_map (pdcp_coll_p B) !! key_of cB rb (kind_srb k) = None ->
  rb < maxDRB -> keys_ok k s -> enb_flag cA = negb (enb_flag cB) ->
  (link_gtpu && enb_flag cB = true -> kind_srb k = true \/ k = DRB_UM) ->
  exists A' B', setup_bearer A cA k rb s = Ok (A', []) /\ setup_bearer B cB k rb s = Ok (B', []) /\
    bearer_ok cA cB (kind_srb k) rb link_gtpu A' B' /\
    (exists S R, coll_map (pdcp_coll_p A') !! key_of cA rb (kind_srb k) = Some S /\ secured s S /\
       coll_map (pdcp_coll_p B') !! key_of cB rb (kind_srb k) = Some R /\ secured s R) /\
    (forall key, key <> key_of cA rb (kind_srb k) -> coll_map (pdcp_coll_p A') !! key = coll_map (pdcp_coll_p A) !! key) /\
    (forall key, key <> key_of cB rb (kind_srb k) -> coll_map (pdcp_coll_p B') !! key = coll_map (pdcp_coll_p B) !! key).
Proof.
  intros HA HB KA KB Hrb Hs He Hg.
  destruct (setup_ok A cA k rb s HA KA Hrb) as (A' & EA & HA' & MA).
  destruct (setup_ok B cB k rb s HB KB Hrb) as (B' & EB & HB' & MB).
  exists A', B'. split_and!; try done.
  - by eapply bearer_established.
  - exists (added cA k rb s), (added cB k rb s). rewrite MA, MB, !lookup_insert_eq. auto using added_secured.
  - intros key N. by rewrite MA, lookup_insert_ne.
  - intros key N. by rewrite MB, lookup_insert_ne.
Qed.


(** C32. Control-plane security is inverse across the link: what
    [pdcp_apply_security] makes of an SRB PDU is accepted by the peer's
    [pdcp_validate_security] with any of the integrity algorithms 0, 1 and 2
    and any ciphering algorithm number, and gives back the header and the SDU,
    when the peers have the same keys, algorithms and COUNT and opposite ends,
    and the peer's block starts with the PDU, whatever follows it. *)
Theorem pdcp_srb_security_accepted `{AesLib} (S R : pdcp_t) (rb sn h : Z) (sdu slack : list Z) :
  security_peers S R true rb sn -> Z.of_nat (length sdu) < 2 ^ 14 -> 0 <= integrityProtAlgorithm R <= 2 ->
  Forall is_byte (h :: sdu ++ slack) ->
  let clear := [h] ++ sdu ++ replicate 4 0 ++ slack in
  exists pdu, pdcp_apply_security S true rb 1 sn clear (Z.of_nat (length sdu)) = Ok pdu /\ length pdu = length clear /\
    forall rest, Forall is_byte rest ->
      exists r', pdcp_validate_security R true rb 1 sn (take (length sdu + 5) pdu ++ rest) (Z.of_nat (1 + length sdu)) =
          Ok (0, R <| rx_hfn_offset := 0 |>, r') /\ take (1 + length sdu) r' = h :: sdu.
Proof.
  intros Pe HL Hi By clear.
  assert (Room : forall n : nat, (length sdu + 4 <= n)%nat -> block_room R true (length sdu) <= Z.of_nat n).
  { intros n Hn. unfold block_room, cipher_bytes. cbn [tailer_len]. case_match; Z.to_euclidean_division_equations; lia. }
  rewrite Forall_cons, Forall_app in By. destruct By as (Bh & Bs & Bl).
  destruct (security_transfer S R true rb sn [h] sdu (replicate 4 0) slack Pe HL) as (pdu & E & Hl & Bp & Hh & V); try done.
  { rewrite !Forall_app. split_and!; try done; [by constructor|by apply Forall_replicate]. }
  { apply Room. rewrite !length_app, length_replicate. lia. }
  exists pdu. split; [exact E|]. split; [exact Hl|]. intros rest Br.
  assert (Hp : (length sdu + 5 <= length pdu)%nat) by (rewrite Hl, !length_app, length_replicate; simpl; lia).
  destruct (V (take (length sdu + 5) pdu ++ rest)) as (rc & r' & Ev & _ & Et & Hrc).
  - rewrite Forall_app. split; [by apply Forall_take|done].
  - cbn [header_len]. rewrite length_app, length_take.
    pose proof (Room (length sdu + 4)%nat ltac:(lia)). lia.
  - cbn [header_len tailer_len]. rewrite take_app_length' by (rewrite length_take; lia). f_equal. lia.
  - rewrite (Hrc eq_refl Hi) in Ev. exists r'. done.
Qed.
End Setup.

(** ** A concrete link

    An eNB and a UE with the hash table of [Collection], SRB 1 with EEA1 and
    EIA1 and a data bearer over AM, and the toy AES. *)

#[local] Existing Instance toy_aes.

Definition demo_enb : protocol_ctxt_t := mk_ctxt 0 true 0x1234.
Definition demo_ue : protocol_ctxt_t := mk_ctxt 0 false 0x1234.
Definition demo_key (a : Z) : option key_buffer := Some (mk_key a (seqZ a 32)).
Definition demo_security : security_req := mk_security 0x11 (demo_key 10) (demo_key 50) (demo_key 90).
Definition demo_layer : pdcp_layer (objects pdcp_t) := pdcp_layer_init.

Definition layer_of (r : res (pdcp_layer (objects pdcp_t) * list output)) : pdcp_layer (objects pdcp_t) :=
  match r with Ok (l, _) => l | Fault _ => demo_layer end.

Definition configured (c : protocol_ctxt_t) (k : bearer_kind) : pdcp_layer (objects pdcp_t) :=
  layer_of (setup_bearer demo_layer c k 1 demo_security).

Lemma demo_empty : coll_ok (pdcp_coll_p demo_layer) /\ coll_map (pdcp_coll_p demo_layer) = ∅.
Proof. apply coll_empty_ok. Qed.

Lemma demo_absent key : coll_map (pdcp_coll_p demo_layer) !! key = None.
Proof. destruct demo_empty as [_ ->]. apply lookup_empty. Qed.

Lemma demo_keys k : keys_ok k demo_security.
Proof. intros _. destruct k; split; intros; vm_compute; lia. Qed.

Lemma demo_configured c k : coll_ok (pdcp_coll_p (configured c k)) /\
  coll_map (pdcp_coll_p (configured c k)) =
    <[key_of c 1 (kind_srb k) := added c k 1 demo_security]> (coll_map (pdcp_coll_p demo_layer)).
Proof.
  destruct (setup_ok demo_layer c k 1 demo_security) as (l' & E & H); [apply demo_empty|apply demo_absent|done|].
  unfold configured. rewrite E. exact H.
Qed.

Lemma demo_bearer k link : (link && enb_flag demo_ue = true -> kind_srb k = true \/ k = DRB_UM) ->
  bearer_ok demo_enb demo_ue (kind_srb k) 1 link (configured demo_enb k) (configured demo_ue k).
Proof.
  intros Hg. destruct (demo_configured demo_enb k) as [HA MA]. destruct (demo_configured demo_ue k) as [HB MB].
  by apply (bearer_established demo_layer _ demo_layer _ demo_enb demo_ue k 1 demo_security link HA HB MA MB (demo_keys k)).
Qed.

Lemma pdcp_configured_bearer_witness :
  exists A' B', setup_bearer demo_layer demo_enb (DRB_AM 1) 3 demo_security = Ok (A', []) /\
    setup_bearer demo_layer demo_ue (DRB_AM 1) 3 demo_security = Ok (B', []) /\
    bearer_ok demo_enb demo_ue false 3 true A' B' /\
    (exists S R, coll_map (pdcp_coll_p A') !! key_of demo_enb 3 false = Some S /\ secured demo_security S /\
       coll_map (pdcp_coll_p B') !! key_of demo_ue 3 false = Some R /\ secured demo_security R) /\
    (forall key, key <> key_of demo_enb 3 false -> coll_map (pdcp_coll_p A') !! key = coll_map (pdcp_coll_p demo_layer) !! key) /\
    (forall key, key <> key_of demo_ue 3 false -> coll_map (pdcp_coll_p B') !! key = coll_map (pdcp_coll_p demo_layer) !! key).
Proof.
  apply (pdcp_configured_bearer demo_layer demo_layer demo_enb demo_ue (DRB_AM 1) 3 demo_security true);
    [apply demo_empty|apply demo_empty|apply demo_absent|apply demo_absent|reflexivity|apply demo_keys|reflexivity|].
  intros E; discriminate E.
Defined.

Lemma pdcp_srb_security_accepted_witness :
  let clear := [0] ++ [1; 2; 3] ++ replicate 4 0 ++ [77] in
  exists pdu, pdcp_apply_security (added demo_enb SRB 1 demo_security) true 1 1 0 clear 3 = Ok pdu /\ length pdu = length clear /\
    forall rest, Forall is_byte rest ->
      exists r', pdcp_validate_security (added demo_ue SRB 1 demo_security) true 1 1 0 (take 8 pdu ++ rest) 4 =
          Ok (0, (added demo_ue SRB 1 demo_security) <| rx_hfn_offset := 0 |>, r') /\ take 4 r' = [0; 1; 2; 3].
Proof.
  apply (pdcp_srb_security_accepted (added demo_enb SRB 1 demo_security) (added demo_ue SRB 1 demo_security) 1 0 0 [1; 2; 3] [77]).
  - split; try reflexivity; try (vm_compute; lia); vm_compute; intuition congruence.
  - reflexivity.
  - vm_compute. intuition congruence.
  - apply (bool_decide_unpack _). vm_compute. exact I.
Defined.

(** Two SDUs, of 3 and 5 bytes. *)
Definition demo_shipments : list shipment :=
  [mk_shipment [1; 2; 3] (replicate 32 255) [9; 9; 9]; mk_shipment [4; 5; 6; 7; 8] (replicate 64 0) []].

Lemma demo_shipments_ok : Forall (shipment_ok true 1 1) demo_shipments.
Proof.
  repeat constructor; try (apply (bool_decide_unpack _); vm_compute; exact I); vm_compute; congruence.
Qed.


End PdcpClaims.
