(* ===== verification/PdcpErrors.v ===== *)
(** * PDCP: removal of a UE, and behaviours off the intended path

    The keys of the collection, [pdcp_remove_UE], the fate of a PDU whatever
    its integrity check says, and closed executions of the code that show
    where it does not do what its comments or the standard say. *)

From S2P Require Import Prelude Snow3g Osa HashTable Collection Pdcp PdcpLayer PdcpConfig PdcpSecurity PdcpLink PdcpSystem PdcpClaims.

Module PdcpErrors.
Import Osa Collection Pdcp PdcpLayer PdcpConfig PdcpSecurity PdcpLink PdcpSystem PdcpClaims.

(** ** Keys *)

Record ctxt_range (c : protocol_ctxt_t) : Prop := {
  cr_module : 0 <= module_id c < 2 ^ 8;
  cr_rnti : 0 <= rnti c < 2 ^ 16
}.

(** The key as a sum of disjoint fields. *)
Lemma key_of_sum c rb srb : ctxt_range c -> 0 <= rb < 2 ^ 8 ->
  key_of c rb srb = module_id c + rnti c * 2 ^ 8 + Z.b2z (enb_flag c) * 2 ^ 24 + rb * 2 ^ 25 + Z.b2z srb * 2 ^ 33.
Proof.
  intros [M R] Hrb. unfold key_of, PDCP_COLL_KEY_VALUE. rewrite !Z.shiftl_mul_pow2 by lia.
  assert (B : forall b : bool, 0 <= Z.b2z b <= 1) by (intros []; simpl; lia).
  pose proof (B (enb_flag c)). pose proof (B srb). rewrite !u64_small by lia.
  assert (J : forall a x k, 0 <= k -> 0 <= a < 2 ^ k -> Z.lor a (x * 2 ^ k) = a + x * 2 ^ k).
  { intros a x k Hk Ha. rewrite Z.lor_comm, (lor_disjoint _ a k) by (done || apply Z.mod_mul; lia). lia. }
  rewrite (J (module_id c) (rnti c) 8), (J _ (Z.b2z (enb_flag c)) 24), (J _ rb 25), (J _ (Z.b2z srb) 33) by lia. done.
Qed.

Lemma key_of_inj c c' rb rb' srb srb' : ctxt_range c -> ctxt_range c' -> 0 <= rb < 2 ^ 8 -> 0 <= rb' < 2 ^ 8 ->
  key_of c rb srb = key_of c' rb' srb' ->
  module_id c = module_id c' /\ rnti c = rnti c' /\ enb_flag c = enb_flag c' /\ rb = rb' /\ srb = srb'.
Proof.
  intros C C' R R'. rewrite !key_of_sum by done. destruct C, C'.
  assert (B : forall b : bool, 0 <= Z.b2z b <= 1) by (intros []; simpl; lia).
  pose proof (B (enb_flag c)). pose proof (B srb). pose proof (B (enb_flag c')). pose proof (B srb').
  intros E. assert (module_id c = module_id c' /\ rnti c = rnti c' /\ Z.b2z (enb_flag c) = Z.b2z (enb_flag c') /\
    rb = rb' /\ Z.b2z srb = Z.b2z srb') as (? & ? & E1 & ? & E2) by lia.
  split_and!; try done; [by destruct (enb_flag c), (enb_flag c')|by destruct srb, srb'].
Qed.

(** ** Removal of a UE *)

Section Removal.
Context {T : Type} `{O : CollectionOps T pdcp_t} `{!CollectionLaws T pdcp_t}.

(** The keys freed when the entities of [keys] are released. *)
Definition freed_of (m : gmap Z pdcp_t) (keys : list Z) : list output :=
  keys ≫= fun k => from_option pdcp_free [] (m !! k).

Lemma remove_keys_ok t keys : NoDup keys -> coll_ok t ->
  exists t', remove_keys t keys = Ok (t', freed_of (coll_map t) keys) /\ coll_ok t' /\
    forall k, coll_map t' !! k = if decide (k ∈ keys) then None else coll_map t !! k.
Proof.
  intros ND. revert t. induction ND as [|k keys Hk ND IH]; intros t Hok; cbn [remove_keys].
  - exists t. split; [done|]. split; [done|]. intros k. rewrite decide_False; [done|]. apply not_elem_of_nil.
  - destruct (coll_remove_ok t k Hok) as (t1 & E & Hok1 & M1). rewrite E. cbn [mbind res_bind snd fst].
    destruct (IH t1 Hok1) as (t2 & E2 & Hok2 & M2). rewrite E2. cbn [mbind res_bind fst snd].
    exists t2. split; [|split; [done|]].
    + do 2 f_equal. unfold freed_of. csimpl. f_equal. rewrite M1. clear - Hk.
      induction keys as [|k' keys IH]; [done|]. csimpl. rewrite not_elem_of_cons in Hk.
      rewrite lookup_delete_ne by naive_solver. f_equal. apply IH. naive_solver.
    + intros k'. rewrite M2, M1. destruct (decide (k' = k)) as [->|N].
      * rewrite lookup_delete_eq. rewrite (decide_True (P := k ∈ k :: keys)) by apply list_elem_of_here. by case_decide.
      * rewrite lookup_delete_ne by done. destruct (decide (k' ∈ keys)) as [Hi|Hi].
        -- rewrite decide_True by (by apply list_elem_of_further). done.
        -- rewrite decide_False; [done|]. rewrite elem_of_cons. naive_solver.
Qed.
(** The bearers [pdcp_remove_UE] visits: SRB 0 and 1, DRB 0 to 10. *)
Definition UE_ids : list (Z * bool) := ((., true) <$> [0; 1]) ++ ((., false) <$> [0; 1; 2; 3; 4; 5; 6; 7; 8; 9; 10]).

Lemma UE_keys_ids c : UE_keys c = (fun x => key_of c x.1 x.2) <$> UE_ids.
Proof. done. Qed.

Lemma UE_ids_range x : x ∈ UE_ids -> 0 <= x.1 < 2 ^ 8.
Proof.
  assert (F : Forall (fun x : Z * bool => 0 <= x.1 < 2 ^ 8) UE_ids) by (unfold UE_ids; simpl; repeat constructor; simpl; lia).
  rewrite Forall_forall in F. apply F.
Qed.

Lemma UE_keys_elem c c' rb srb : ctxt_range c -> ctxt_range c' -> 0 <= rb < 2 ^ 8 ->
  key_of c' rb srb ∈ UE_keys c <->
  module_id c' = module_id c /\ rnti c' = rnti c /\ enb_flag c' = enb_flag c /\ (rb, srb) ∈ UE_ids.
Proof.
  intros C C' R. rewrite UE_keys_ids, list_elem_of_fmap. split.
  - intros ([rb0 srb0] & E & Hx). pose proof (UE_ids_range _ Hx) as R0.
    destruct (key_of_inj c' c rb rb0 srb srb0 C' C R R0 E) as (-> & -> & -> & -> & ->). done.
  - intros (E1 & E2 & E3 & Hx). exists (rb, srb). split; [|done]. unfold key_of. by rewrite E1, E2, E3.
Qed.

Lemma UE_keys_nodup c : ctxt_range c -> NoDup (UE_keys c).
Proof.
  intros C. rewrite UE_keys_ids. apply NoDup_fmap_2_strong.
  - intros [r s] [r' s'] Hx Hy E.
    destruct (key_of_inj c c r r' s s' C C (UE_ids_range _ Hx) (UE_ids_range _ Hy) E) as (_ & _ & _ & -> & ->). done.
  - apply (bool_decide_unpack _). vm_compute. exact I.
Qed.

(** [pdcp_remove_UE] releases the entities of SRB 0 and 1 and of DRB 0 to
    10 of the UE, with their keys, each once, and no other entity: a bearer
    stays if and only if it belongs to another module, RNTI or side, or is
    not one of those. SRB 2, which [rrc_pdcp_config_asn1_req] sets up, is not
    among them and survives the UE. *)
Lemma pdcp_remove_UE_exact (l : pdcp_layer T) c : coll_ok (pdcp_coll_p l) -> ctxt_range c ->
  exists l', pdcp_remove_UE l c = Ok (true, l', freed_of (coll_map (pdcp_coll_p l)) (UE_keys c)) /\
    coll_ok (pdcp_coll_p l') /\
    forall c' rb srb, ctxt_range c' -> 0 <= rb < 2 ^ 8 ->
      coll_map (pdcp_coll_p l') !! key_of c' rb srb =
      if decide (module_id c' = module_id c /\ rnti c' = rnti c /\ enb_flag c' = enb_flag c /\ (rb, srb) ∈ UE_ids)
      then None else coll_map (pdcp_coll_p l) !! key_of c' rb srb.
Proof.
  intros Hok C. destruct (remove_keys_ok _ _ (UE_keys_nodup c C) Hok) as (t & E & Hok' & M).
  unfold pdcp_remove_UE. rewrite E. eexists. split; [reflexivity|]. rsimpl. split; [exact Hok'|].
  intros c' rb srb C' R. rewrite M. pose proof (UE_keys_elem c c' rb srb C C' R) as Q.
  do 2 case_decide; tauto.
Qed.

(** The release list of [rrc_pdcp_config_asn1_req] looks every bearer up
    with the variable [srb_id] instead of [drb_id]: a request that releases
    data bearers and sets up no SRB (so that [srb_id] is 0) changes no entity
    and releases no key, whatever bearers it names, unless there is a data
    bearer with identity 0. *)
Theorem pdcp_release_keeps_bearers (l : pdcp_layer T) c s drbs : coll_ok (pdcp_coll_p l) ->
  coll_map (pdcp_coll_p l) !! key_of c 0 false = None ->
  rrc_pdcp_config_asn1_req l c None None (Some drbs) s None = Ok (l, []).
Proof.
  intros Hok H0. unfold rrc_pdcp_config_asn1_req. cbn [default from_option config_loop mbind res_bind].
  assert (R : forall d, release_drb c s (locals_init, l, []) d = Ok (locals_init, l, [])).
  { intros d. unfold release_drb. change (l_srb_id locals_init) with 0. by rewrite (coll_get_ok _ _ Hok), H0. }
  assert (L : forall ds, config_loop (release_drb c s) (locals_init, l, []) ds = Ok (locals_init, l, [])).
  { induction ds as [|d ds IH]; [done|]. cbn [config_loop]. rewrite R. exact IH. }
  unfold id. rewrite L. done.
Qed.
End Removal.

(** A PDU of an MBMS bearer that reaches a UE ends in a read through a
    null pointer: the entity is looked up for other bearers only, and the end
    of [pdcp_data_ind] reads its RLC mode. It is so for every layer, bearer
    and PDU, when the packet is neither discarded by the traffic generator nor
    dropped for lack of a block. *)
Theorem pdcp_mbms_null_entity `{AesLib} {T : Type} `{O : CollectionOps T pdcp_t} (l : pdcp_layer T) c srb link_gtpu rb pdu :
  enb_flag c = false -> rb < NB_RB_MBMS_MAX -> (1 <= length pdu)%nat ->
  pdcp_data_ind false link_gtpu true l c srb true rb (Z.of_nat (length pdu)) pdu = Fault OutOfBounds.
Proof.
  intros Ec Hrb Hl. unfold pdcp_data_ind. rewrite (proj2 (Z.ltb_lt _ _) Hrb). cbn [negb].
  rewrite (proj2 (Z.eqb_neq _ _)) by lia. unfold payload_of. rewrite Z.add_0_l, Z.ltb_irrefl. cbn [mbind res_bind].
  unfold deliver. rewrite Ec, andb_false_r. done.
Qed.

(** ** The integrity check of a signalling bearer *)

(** Receiving a number changes no part of the configuration. *)
Lemma rx_number_config sn p : config_of (pdcp_is_rx_seq_number_valid sn p true).2 = config_of p.
Proof.
  unfold pdcp_is_rx_seq_number_valid, rx_srb, pdcp_advance_rx_window. destruct (_ || _); [done|]. cbv zeta.
  destruct (_ <? _); destruct (negb _); cbn [snd]; [done| |done|]; by destruct (_ =? _).
Qed.

Section Integrity.
Context `{AesLib} {T : Type} `{O : CollectionOps T pdcp_t} `{!CollectionLaws T pdcp_t}.

(** The parameters [pdcp_validate_security] computes the code with: [p] is the
    entity after the sequence number was handled, [n] the bytes covered. *)
Definition integrity_params (p : pdcp_t) (rb sn : Z) (n : nat) : stream_cipher_t :=
  mk_stream (key_at (kRRCint p) 16) 16 (pdcp_get_next_count_rx p true sn).1 (u8 (rb - 1))
    (if is_ue p then SECU_DIRECTION_DOWNLINK else SECU_DIRECTION_UPLINK) (8 * Z.of_nat n).

(** Validating any block of bytes: deciphered, the verdict is whether the last
    four bytes are the code of the others. *)
Lemma validate_any p rb sn block n : 0 <= rb < NB_RB_MAX ->
  cipheringAlgorithm p = 0 \/ cipheringAlgorithm p = 1 \/ cipheringAlgorithm p = 2 ->
  integrityProtAlgorithm p = 1 \/ integrityProtAlgorithm p = 2 ->
  (16 <= length (key_at (kRRCenc p) 0))%nat -> (16 <= length (key_at (kRRCint p) 16))%nat ->
  (1 <= n)%nat -> Z.of_nat n < 2 ^ 14 -> (n + 4 <= length block)%nat -> Forall is_byte block ->
  cipher_bytes (cipheringAlgorithm p) (8 * Z.of_nat (n - 1)) <= Z.of_nat (length block) - 1 ->
  exists buf mac, length buf = length block /\ take 1 buf = take 1 block /\
    stream_compute_integrity (integrityProtAlgorithm p) (integrity_params p rb sn n) buf = Ok (Some mac) /\
    pdcp_validate_security p true rb 1 sn block (Z.of_nat n) =
      Ok (if bool_decide (take 4 (drop n buf) = mac) then 0 else -1, p <| rx_hfn_offset := 0 |>, buf).
Proof.
  intros Hrb Hc Hi K1 K2 Hn Hmax Hl By Room. unfold pdcp_validate_security.
  rewrite (proj2 (Z.ltb_lt _ _)), (proj2 (Z.leb_le _ _)) by lia. cbn [assert_fatal andb]. step_ok.
  unfold integrity_params. destruct (pdcp_get_next_count_rx p true sn) as [cnt p1] eqn:Ec.
  assert (p1 = p <| rx_hfn_offset := 0 |>) as -> by (injection Ec; done). cbn [fst].
  rewrite !shiftl3, (u32_small (8 * _)) by lia. replace (8 * (Z.of_nat n - Z.of_nat 1)) with (8 * Z.of_nat (n - 1)) by lia.
  match goal with |- context [stream_decrypt _ ?P _] => set (Q := P) end.
  destruct (stream_encrypt_ok (cipheringAlgorithm p) Q (drop 1 block)) as (c & Ed & Lc & _ & Bc); [|done|].
  { split; unfold Q; cbn [key key_length blength]; try done; [div_lia|lia|rewrite length_drop; lia|by apply Forall_drop]. }
  unfold stream_decrypt. rewrite Ed. step_ok. cbn [snd]. set (buf := take 1 block ++ c).
  assert (Lb : length buf = length block) by (unfold buf; rewrite length_app, Lc, length_take, length_drop; lia).
  assert (Bb : Forall is_byte buf) by (unfold buf; rewrite Forall_app; split; [by apply Forall_take|done]).
  match goal with |- context [stream_check_integrity _ ?P _ _] => set (R := P) end.
  pose proof (words_room n) as HW.
  destruct (integrity_ok (integrityProtAlgorithm p) R n buf buf) as (mo & E1 & _ & E3 & E4); try done; [lia|lia|].
  destruct mo as [mac|].
  2:{ destruct E3 as [E3 _]. specialize (E3 eq_refl). unfold EIA1_128_ALG_ID, EIA2_128_ALG_ID in E3. lia. }
  exists buf, mac. split; [done|]. split; [unfold buf; apply take_app_length'; rewrite length_take; lia|]. split; [exact E1|].
  unfold stream_check_integrity, EIA0_ALG_ID. rewrite (proj2 (Z.eqb_neq _ 0)) by lia. cbn [negb]. rewrite E1. step_ok.
  rewrite Nat2Z.id, (proj2 (Nat.ltb_ge _ _)) by (rewrite length_drop; lia). step_ok. destruct E4 as [Lm _].
  rewrite (take_ge mac) by lia.
  destruct (decide (mac = take 4 (drop n buf))) as [Em|N].
  - rewrite !bool_decide_true by congruence. done.
  - rewrite !bool_decide_false by congruence. done.
Qed.

(** C38. The verdict of the integrity check does not matter. Take any layer
    with a signalling bearer (1 to 10) whose security is activated, ciphering EEA0,
    EEA1 or EEA2, integrity EIA1 or EIA2, and keys of 16 bytes, and let any
    bytes arrive as a PDU of it (5 to 16387 of them; the block has room for
    the words EEA1 touches). [pdcp_validate_security] deciphers them, computes
    the code of the header and the SDU, and answers 0 or -1 according to
    whether it is the MAC-I received; in both cases [pdcp_data_ind] hands the
    deciphered SDU to the RRC and returns TRUE. *)
Theorem pdcp_bad_mac_delivered (l : pdcp_layer T) c rb p pdu slack otg link_gtpu new_block :
  coll_ok (pdcp_coll_p l) -> 0 < rb < maxDRB -> coll_map (pdcp_coll_p l) !! key_of c rb true = Some p ->
  security_activated p = 1 ->
  cipheringAlgorithm p = 0 \/ cipheringAlgorithm p = 1 \/ cipheringAlgorithm p = 2 ->
  integrityProtAlgorithm p = 1 \/ integrityProtAlgorithm p = 2 ->
  (16 <= length (key_at (kRRCenc p) 0))%nat -> (16 <= length (key_at (kRRCint p) 16))%nat ->
  5 <= Z.of_nat (length pdu) < 2 ^ 14 + 4 -> Forall is_byte (pdu ++ slack) ->
  cipher_bytes (cipheringAlgorithm p) (8 * Z.of_nat (length pdu - 5)) <= Z.of_nat (length (pdu ++ slack)) - 1 ->
  let n := (length pdu - 4)%nat in
  let sn := Z.land (default 0 (pdu !! 0%nat)) 0x1F in
  let p1 := (pdcp_is_rx_seq_number_valid sn p true).2 in
  exists v p2 buf mac l',
    pdcp_validate_security p1 true rb 1 sn (pdu ++ slack) (Z.of_nat n) = Ok (v, p2, buf) /\
    stream_compute_integrity (integrityProtAlgorithm p) (integrity_params p1 rb sn n) buf = Ok (Some mac) /\
    v = (if bool_decide (take 4 (drop n buf) = mac) then 0 else -1) /\
    pdcp_data_ind otg link_gtpu new_block l c true false rb (Z.of_nat (length pdu)) (pdu ++ slack) =
      Ok (true, l', [RrcDataInd rb (Z.of_nat (length pdu - 5)) (take (length pdu - 5) (drop 1 buf))]).
Proof.
  intros K Hrb M Ha Hc Hi K1 K2 Hl By Room n sn p1. unfold maxDRB in Hrb.
  pose proof (rx_number_config sn p) as C. fold p1 in C. unfold config_of in C. injection C as _ C2 C3 _ C5 C6 C7 _ _.
  destruct (validate_any p1 rb sn (pdu ++ slack) n) as (buf & mac & Lb & _ & E1 & E2);
    rewrite ?C2, ?C3, ?C5, ?C6; unfold n, NB_RB_MAX in *; try done; try (rewrite ?length_app; lia).
  { replace (length pdu - 4 - 1)%nat with (length pdu - 5)%nat by lia. done. }
  destruct (coll_store_ok (pdcp_coll_p l) (key_of c rb true) (p1 <| rx_hfn_offset := 0 |>) p K M) as (t & Et & _).
  do 2 eexists. exists buf, mac, (l <| pdcp_coll_p := t |>). split; [exact E2|]. rewrite C3 in E1. split; [exact E1|]. split; [done|].
  unfold pdcp_data_ind. cbv zeta. rewrite Z.rem_small by (unfold maxDRB; lia). rewrite (proj2 (Z.ltb_lt rb maxDRB)), (proj2 (Z.ltb_lt 0 rb)) by (unfold maxDRB; lia).
  cbn [negb orb]. rewrite (coll_get_ok _ _ K), M. step_ok. rewrite (proj2 (Z.eqb_neq _ 0)) by lia.
  unfold data_ind_entity, data_ind_pdu, parse_header, pdcp_get_sequence_number_of_pdu_with_SRB_sn, octet.
  destruct pdu as [|b0 pdu]; [simpl in Hl; lia|]. cbn [app lookup list_lookup of_option]. repeat step_ok.
  change (Z.land b0 31) with sn. cbn [tailer_len]. rewrite (proj2 (Z.ltb_ge _ _)) by lia. change (b0 :: pdu ++ slack) with ((b0 :: pdu) ++ slack).
  rewrite (surjective_pairing (pdcp_is_rx_seq_number_valid sn p true)). fold p1. rewrite C7, Ha, Z.eqb_refl.
  rewrite u16_small by lia. replace (Z.of_nat (length (b0 :: pdu)) - Z.of_nat 4) with (Z.of_nat (length (b0 :: pdu) - 4)) by lia.
  rewrite E2. repeat step_ok. unfold payload_of. rewrite (proj2 (Z.ltb_ge _ _)) by (rewrite Lb, length_app; lia). repeat step_ok.
  rewrite Et. step_ok. do 3 f_equal. replace (Z.of_nat (length (b0 :: pdu)) - Z.of_nat 1 - Z.of_nat 4) with (Z.of_nat (length (b0 :: pdu) - 5)) by lia.
  by rewrite !Nat2Z.id.
Qed.

End Integrity.

(** ** Closed executions *)

#[local] Existing Instance toy_aes.

Lemma pdcp_remove_UE_exact_witness :
  exists l', pdcp_remove_UE (configured demo_ue SRB) demo_ue =
      Ok (true, l', freed_of (coll_map (pdcp_coll_p (configured demo_ue SRB))) (UE_keys demo_ue)) /\
    coll_ok (pdcp_coll_p l') /\
    forall c' rb srb, ctxt_range c' -> 0 <= rb < 2 ^ 8 ->
      coll_map (pdcp_coll_p l') !! key_of c' rb srb =
      if decide (module_id c' = module_id demo_ue /\ rnti c' = rnti demo_ue /\ enb_flag c' = enb_flag demo_ue /\ (rb, srb) ∈ UE_ids)
      then None else coll_map (pdcp_coll_p (configured demo_ue SRB)) !! key_of c' rb srb.
Proof. apply (pdcp_remove_UE_exact (configured demo_ue SRB) demo_ue); [apply demo_configured|split; simpl; lia]. Defined.

Lemma pdcp_release_keeps_bearers_witness :
  rrc_pdcp_config_asn1_req (configured demo_ue DRB_UM) demo_ue None None (Some [1]) demo_security None =
    Ok (configured demo_ue DRB_UM, []).
Proof.
  apply (pdcp_release_keeps_bearers (configured demo_ue DRB_UM) demo_ue demo_security [1]); [apply demo_configured|].
  destruct (demo_configured demo_ue DRB_UM) as [_ ->]. rewrite lookup_insert_ne; [apply demo_absent|]. vm_compute. congruence.
Defined.

Lemma pdcp_mbms_null_entity_witness :
  pdcp_data_ind false false true demo_layer demo_ue false true 3 3 [1; 2; 3] = Fault OutOfBounds.
Proof. apply (pdcp_mbms_null_entity demo_layer demo_ue false false 3 [1; 2; 3]); [reflexivity|reflexivity|simpl; lia]. Defined.

(** What an execution shows: the SDUs handed over, the answer and the outputs
    of an indication, the verdict of a validation. *)
Definition shipped {L : Type} (r : res (L * L * list (list Z))) : option (list (list Z)) :=
  match r with Ok (_, _, d) => Some d | Fault _ => None end.
Definition answer {L : Type} (r : res (bool * L * list output)) : option (bool * list output) :=
  match r with Ok (b, _, out) => Some (b, out) | Fault _ => None end.
Definition verdict (r : res (Z * pdcp_t * list Z)) : option Z :=
  match r with Ok (rc, _, _) => Some rc | Fault _ => None end.

(** A PDU of three bytes whose MAC-I is zero. *)
Lemma pdcp_bad_mac_delivered_witness :
  let forged := [0; 1; 2; 3; 0; 0; 0; 0] in
  verdict (pdcp_validate_security (pdcp_is_rx_seq_number_valid 0 (added demo_ue SRB 1 demo_security) true).2 true 1 1 0 forged 4) = Some (-1) /\
  exists v p2 buf mac l',
    pdcp_validate_security (pdcp_is_rx_seq_number_valid 0 (added demo_ue SRB 1 demo_security) true).2 true 1 1 0 (forged ++ []) 4 = Ok (v, p2, buf) /\
    v = (if bool_decide (take 4 (drop 4 buf) = mac) then 0 else -1) /\
    pdcp_data_ind false false true (configured demo_ue SRB) demo_ue true false 1 8 (forged ++ []) =
      Ok (true, l', [RrcDataInd 1 3 (take 3 (drop 1 buf))]).
Proof.
  intros forged. split; [vm_compute; reflexivity|]. destruct (demo_configured demo_ue SRB) as [K M].
  destruct (pdcp_bad_mac_delivered (configured demo_ue SRB) demo_ue 1 (added demo_ue SRB 1 demo_security) forged [] false false true K)
    as (v & p2 & buf & mac & l' & E1 & _ & E2 & E3); [done|by rewrite M; apply lookup_insert_eq|vm_compute; reflexivity|vm_compute; tauto|
      vm_compute; tauto|vm_compute; lia|vm_compute; lia|simpl; lia| |vm_compute; congruence|].
  - apply (bool_decide_unpack _). vm_compute. exact I.
  - exists v, p2, buf, mac, l'. split; [exact E1|]. split; [exact E2|exact E3].
Defined.

(** A data bearer with 7-bit sequence numbers, which the RRC can
    configure, does not carry its SDUs: [pdcp_data_req] always writes the
    2-byte header, [pdcp_data_ind] removes 1 byte, and the peer is handed the
    SDU with a byte of the header in front. *)
Lemma pdcp_7bit_payload_shifted :
  let drb := [mk_drb 1 (Some (mk_config None (Some len7bits) HC_notUsed))] in
  let clear := mk_security 0xff None None None in
  let conf c := layer_of (rrc_pdcp_config_asn1_req demo_layer c None (Some drb) None clear None) in
  shipped (ship_all demo_enb demo_ue false 1 PDCP_TRANSMISSION_MODE_DATA false (conf demo_enb) (conf demo_ue)
    [mk_shipment [1; 2; 3] (replicate 32 0) []; mk_shipment [4; 5] (replicate 32 0) []]) =
    Some [[0; 1; 2; 3]; [1; 4; 5]].
Proof. vm_compute. reflexivity. Qed.

(** An uplink AM bearer whose packets are forwarded to the GTP tunnel
    loses its COUNT: the forwarding path does not note the last submitted
    number, from 2048 PDUs on every PDU is taken for one outside the window,
    the receiver deciphers with the previous hyper frame number, and the
    2050th SDU and those after it come out garbled, with no loss on the
    link. *)
Theorem pdcp_am_gtpu_garbles :
  let sec := mk_security 0x02 (demo_key 10) (demo_key 50) (demo_key 90) in
  let conf c := layer_of (setup_bearer demo_layer c (DRB_AM 1) 1 sec) in
  shipped (ship_all demo_ue demo_enb false 1 PDCP_TRANSMISSION_MODE_DATA true (conf demo_ue) (conf demo_enb)
    (replicate 2051 (mk_shipment [1; 2; 3] (replicate 8 0) []))) =
    Some (replicate 2049 [1; 2; 3] ++ [[51; 48; 49]; [55; 52; 53]]).
Proof. vm_compute. reflexivity. Qed.

End PdcpErrors.
