(* ===== verification/Crc.v ===== *)
(** * The CRCs of the LTE transport channels

    openair1/PHY/CODING/crc_byte.c: the bit by bit [crcbit], the tables built
    from it, and the byte by byte [crc24a], [crc24b], [crc16], [crc12] and
    [crc8], whose length is a number of bits. A register is 32 bits wide, with
    the polynomial in its top bits.

    [lfsr] is the reference: a shift register that takes one bit at a time. *)

From S2P Require Import Prelude.

Module Crc.

Definition poly24a : Z := 0x864cfb00.
Definition poly24b : Z := 0x80006300.
Definition poly16 : Z := 0x10210000.
Definition poly12 : Z := 0x80F00000.
Definition poly8 : Z := 0x9B000000.

(** ** crcbit *)

(** [for (i = 8; i != 0; i--)] with [n] rounds to go. *)
Fixpoint crcbit_rounds (n : nat) (poly c crc : Z) : Z :=
  match n with
  | O => crc
  | S n' =>
      let crc' := if Z.testbit (Z.lxor c crc) 31 then Z.lxor (u32 (Z.shiftl crc 1)) poly else u32 (Z.shiftl crc 1) in
      crcbit_rounds n' poly (u32 (Z.shiftl c 1)) crc'
  end.

(** [while (octetlen-- > 0)], with the body's effect on [crc]. *)
Fixpoint octets_loop (body : Z -> Z -> Z) (n : nat) (inputptr : list Z) (crc : Z) : res Z :=
  match n with
  | O => Ok crc
  | S n' =>
      match inputptr with
      | [] => Fault OutOfBounds
      | b :: r => octets_loop body n' r (body b crc)
      end
  end.

Definition crcbit (inputptr : list Z) (octetlen poly : Z) : res Z :=
  octets_loop (fun b crc => crcbit_rounds 8 poly (u32 (Z.shiftl b 24)) crc) (Z.to_nat octetlen) inputptr 0.

(** ** The tables

    An entry is [crcbit] of the one octet [c], kept in an [unsigned int], an
    [unsigned short] or an [unsigned char]. *)

Definition octet_crc (poly c : Z) : Z := crcbit_rounds 8 poly (u32 (Z.shiftl c 24)) 0.

Definition octet_values : list Z := Z.of_nat <$> seq 0 256.
Definition crc24aTable : list Z := octet_crc poly24a <$> octet_values.
Definition crc24bTable : list Z := octet_crc poly24b <$> octet_values.
Definition crc16Table : list Z := (fun c => u16 (Z.shiftr (octet_crc poly16 c) 16)) <$> octet_values.
Definition crc12Table : list Z := (fun c => u16 (Z.shiftr (octet_crc poly12 c) 16)) <$> octet_values.
Definition crc8Table : list Z := (fun c => u8 (Z.shiftr (octet_crc poly8 c) 24)) <$> octet_values.

(** ** Byte by byte *)

Definition entry (table : list Z) (i : Z) : res Z := of_option OutOfBounds (table !! Z.to_nat i).

(** [while (octetlen-- > 0)]; [step] is the body's new value of [crc] from the
    old one and the table's entry. The rest of the input is returned. *)
Fixpoint table_loop (step : Z -> Z -> Z) (table : list Z) (n : nat) (inptr : list Z) (crc : Z) : res (Z * list Z) :=
  match n with
  | O => Ok (crc, inptr)
  | S n' =>
      match inptr with
      | [] => Fault OutOfBounds
      | b :: r =>
          t ← entry table (Z.lxor b (Z.shiftr crc 24));
          table_loop step table n' r (step crc t)
      end
  end.

(** [if (resbit > 0)]: the last bits are the high bits of one more octet. *)
Definition last_bits (shift resbit : Z) (table : list Z) (inptr : list Z) (crc : Z) : res Z :=
  if 0 <? resbit then
    match inptr with
    | [] => Fault OutOfBounds
    | b :: _ =>
        t ← entry table (Z.lxor (Z.shiftr b (8 - resbit)) (Z.shiftr crc (32 - resbit)));
        Ok (Z.lxor (u32 (Z.shiftl crc resbit)) (u32 (Z.shiftl t shift)))
    end
  else Ok crc.

Definition crc24a (inptr : list Z) (bitlen : Z) : res Z :=
  '(crc, rest) ← table_loop (fun crc t => Z.lxor (u32 (Z.shiftl crc 8)) t) crc24aTable (Z.to_nat (Z.quot bitlen 8)) inptr 0;
  last_bits 0 (Z.rem bitlen 8) crc24aTable rest crc.

Definition crc24b (inptr : list Z) (bitlen : Z) : res Z :=
  '(crc, rest) ← table_loop (fun crc t => Z.lxor (u32 (Z.shiftl crc 8)) t) crc24bTable (Z.to_nat (Z.quot bitlen 8)) inptr 0;
  last_bits 0 (Z.rem bitlen 8) crc24bTable rest crc.

Definition crc16 (inptr : list Z) (bitlen : Z) : res Z :=
  '(crc, rest) ← table_loop (fun crc t => Z.lxor (u32 (Z.shiftl crc 8)) (u32 (Z.shiftl t 16))) crc16Table (Z.to_nat (Z.quot bitlen 8)) inptr 0;
  last_bits 16 (Z.rem bitlen 8) crc16Table rest crc.

Definition crc12 (inptr : list Z) (bitlen : Z) : res Z :=
  '(crc, rest) ← table_loop (fun crc t => Z.lxor (u32 (Z.shiftl crc 8)) (u32 (Z.shiftl t 16))) crc12Table (Z.to_nat (Z.quot bitlen 8)) inptr 0;
  last_bits 16 (Z.rem bitlen 8) crc12Table rest crc.

Definition crc8 (inptr : list Z) (bitlen : Z) : res Z :=
  '(crc, rest) ← table_loop (fun _ t => u32 (Z.shiftl t 24)) crc8Table (Z.to_nat (Z.quot bitlen 8)) inptr 0;
  last_bits 24 (Z.rem bitlen 8) crc8Table rest crc.

(** ** The reference *)

(** One bit into the register. *)
Definition push (poly crc : Z) (bit : bool) : Z :=
  Z.lxor (u32 (Z.shiftl crc 1)) (if xorb (Z.testbit crc 31) bit then poly else 0).
Definition lfsr (poly : Z) (bits : list bool) : Z := foldl (push poly) 0 bits.

End Crc.
