(* ===== verification/CrcProofs.v ===== *)
(** * The CRC functions compute the shift register's value

    Everything is read off the register without input, [run]: it is linear,
    the first [k] input bits can be added to its top bits beforehand
    ([shift_in]), and while its top bits are zero it only shifts
    ([run_shift]). *)

From S2P Require Import Prelude Bits Crc.
Import Bits Crc.

Module CrcProofs.

Definition reg32 (x : Z) : Prop := 0 <= x < 2 ^ 32.
Definition octet (x : Z) : Prop := 0 <= x < 2 ^ 8.
Definition low_zero (j x : Z) : Prop := forall i, 0 <= i < j -> Z.testbit x i = false.

Lemma u32_bits x i : 0 <= i -> Z.testbit (u32 x) i = (i <? 32) && Z.testbit x i.
Proof.
  intros Hi. unfold u32. destruct (Z.ltb_spec i 32) as [H|H]; simpl.
  - by rewrite Z.mod_pow2_bits_low.
  - rewrite Z.mod_pow2_bits_high by lia. done.
Qed.

Lemma word_bits x i : reg32 x -> 32 <= i -> Z.testbit x i = false.
Proof. intros Hx Hi. rewrite <- (Z.mod_small x (2 ^ 32) Hx). apply Z.mod_pow2_bits_high. lia. Qed.

Lemma u32_lxor x y : u32 (Z.lxor x y) = Z.lxor (u32 x) (u32 y).
Proof.
  apply Z.bits_inj'. intros i Hi. rewrite Z.lxor_spec, !u32_bits, Z.lxor_spec by done. by destruct (i <? 32).
Qed.

Lemma word_of_bits x : 0 <= x -> (forall i, 32 <= i -> Z.testbit x i = false) -> reg32 x.
Proof.
  intros H0 H. split; [done|]. assert (x = u32 x) as ->; [|apply u32_range].
  apply Z.bits_inj'. intros i Hi. rewrite u32_bits by done. destruct (Z.ltb_spec i 32); [done|]. by rewrite H.
Qed.

Lemma register_lxor x y : reg32 x -> reg32 y -> reg32 (Z.lxor x y).
Proof.
  intros Hx Hy. apply word_of_bits; [apply Z.lxor_nonneg; split; intros; apply Hx || apply Hy|].
  intros i Hi. by rewrite Z.lxor_spec, !word_bits.
Qed.

(** ** The register without input *)

Section Register.
Context (poly : Z) (poly_word : reg32 poly).
#[local] Set Default Proof Using "All".

Fixpoint run (k : nat) (s : Z) : Z := match k with O => s | S k' => run k' (push poly s false) end.

Lemma push_linear x y a b : push poly (Z.lxor x y) (xorb a b) = Z.lxor (push poly x a) (push poly y b).
Proof.
  unfold push. rewrite Z.shiftl_lxor, u32_lxor, Z.lxor_spec.
  destruct (Z.testbit x 31), (Z.testbit y 31), a, b; simpl; rewrite ?Z.lxor_0_r;
    apply Z.bits_inj'; intros i Hi; rewrite ?Z.lxor_spec, ?Z.bits_0;
    repeat match goal with |- context [Z.testbit ?u ?v] => destruct (Z.testbit u v) end; done.
Qed.

Lemma push_linear0 x y : push poly (Z.lxor x y) false = Z.lxor (push poly x false) (push poly y false).
Proof. apply (push_linear x y false false). Qed.

Lemma push_word s b : reg32 (push poly s b).
Proof. unfold push. apply register_lxor; [apply u32_range|]. destruct (xorb _ _); [done|]. split; lia. Qed.

Lemma run_linear k x y : run k (Z.lxor x y) = Z.lxor (run k x) (run k y).
Proof. revert x y. induction k as [|k IH]; intros x y; simpl; [done|]. by rewrite <- IH, <- push_linear0. Qed.

Lemma run_zero k : run k 0 = 0.
Proof using poly. induction k as [|k IH]; [done|]. exact IH. Qed.

Lemma run_app j k s : run (j + k) s = run k (run j s).
Proof. revert s. induction j as [|j IH]; intros s; simpl; [done|]. apply IH. Qed.

Lemma push_shift s : 0 <= s < 2 ^ 31 -> push poly s false = Z.shiftl s 1.
Proof.
  intros Hs. unfold push. replace (Z.testbit s 31) with false.
  - simpl. rewrite Z.lxor_0_r. apply u32_small. rewrite Z.shiftl_mul_pow2 by lia. change (2 ^ 32) with (2 ^ 31 * 2 ^ 1). nia.
  - symmetry. rewrite <- (Z.mod_small s (2 ^ 31) Hs). apply Z.mod_pow2_bits_high. lia.
Qed.

Lemma run_shift k s : (k <= 32)%nat -> 0 <= s < 2 ^ (32 - Z.of_nat k) -> run k s = Z.shiftl s (Z.of_nat k).
Proof.
  revert s. induction k as [|k IH]; intros s Hk Hs; [by rewrite Z.shiftl_0_r|]. cbn [run].
  assert (2 ^ (32 - Z.of_nat (S k)) <= 2 ^ 31) by (apply Z.pow_le_mono_r; lia).
  rewrite push_shift by lia. rewrite IH; [|lia|].
  - rewrite Z.shiftl_shiftl by lia. f_equal. lia.
  - rewrite Z.shiftl_mul_pow2 by lia. replace (32 - Z.of_nat k) with (32 - Z.of_nat (S k) + 1) by lia.
    rewrite Z.pow_add_r by lia. nia.
Qed.

(** One input bit is added to the top bit. *)
Lemma push_top s b : push poly s b = push poly (Z.lxor s (if b then 2 ^ 31 else 0)) false.
Proof.
  destruct b; [|by rewrite Z.lxor_0_r]. rewrite push_linear0.
  unfold push at 3. change (u32 (Z.shiftl (2 ^ 31) 1)) with 0. change (Z.testbit (2 ^ 31) 31) with true. cbn [xorb].
  rewrite Z.lxor_0_l. unfold push. destruct (Z.testbit s 31); simpl; rewrite ?Z.lxor_0_r; [|done].
  by rewrite Z.lxor_assoc, Z.lxor_nilpotent, Z.lxor_0_r.
Qed.

Lemma split_top v k : 0 <= v < 2 ^ Z.of_nat (S k) ->
  exists w, 0 <= w < 2 ^ Z.of_nat k /\ bits_of k v = bits_of k w /\
    v = Z.lxor (if Z.testbit v (Z.of_nat k) then 2 ^ Z.of_nat k else 0) w.
Proof.
  intros Hv. exists (v mod 2 ^ Z.of_nat k). split; [apply Z.mod_pos_bound; lia|]. split.
  - assert (H : forall j, (j <= k)%nat -> bits_of j v = bits_of j (v mod 2 ^ Z.of_nat k)); [|by apply H].
    induction j as [|j IH]; intros Hj; [done|]. cbn [bits_of]. rewrite Z.mod_pow2_bits_low by lia. f_equal. apply IH. lia.
  - apply Z.bits_inj'. intros i Hi. rewrite Z.lxor_spec. destruct (Z.lt_trichotomy i (Z.of_nat k)) as [H|[->|H]].
    + rewrite Z.mod_pow2_bits_low by lia. destruct (Z.testbit v (Z.of_nat k)); rewrite ?Z.bits_0, ?Z.pow2_bits_false by lia; by destruct (Z.testbit v i).
    + rewrite Z.mod_pow2_bits_high by lia. destruct (Z.testbit v (Z.of_nat k)); by rewrite ?Z.bits_0, ?Z.pow2_bits_true by lia.
    + rewrite Z.mod_pow2_bits_high by lia. rewrite <- (Z.mod_small v (2 ^ Z.of_nat (S k)) Hv) at 1. rewrite Z.mod_pow2_bits_high by lia.
      destruct (Z.testbit v (Z.of_nat k)); by rewrite ?Z.bits_0, ?Z.pow2_bits_false by lia.
Qed.

(** [k] input bits are added to the [k] top bits. *)
Lemma shift_in k v s : (k <= 32)%nat -> 0 <= v < 2 ^ Z.of_nat k ->
  foldl (push poly) s (bits_of k v) = run k (Z.lxor s (Z.shiftl v (32 - Z.of_nat k))).
Proof.
  revert v s. induction k as [|k IH]; intros v s Hk Hv.
  { assert (v = 0) as -> by (simpl in Hv; lia). cbn [bits_of foldl run]. by rewrite Z.shiftl_0_l, Z.lxor_0_r. }
  destruct (split_top v k Hv) as (w & Hw & Eb & Ev). cbn [bits_of foldl run]. rewrite Eb, IH by (done || lia). f_equal.
  rewrite push_top. rewrite Ev at 2. rewrite Z.shiftl_lxor, <- Z.lxor_assoc.
  replace (Z.shiftl (if Z.testbit v (Z.of_nat k) then 2 ^ Z.of_nat k else 0) (32 - Z.of_nat (S k)))
    with (if Z.testbit v (Z.of_nat k) then 2 ^ 31 else 0).
  - symmetry. rewrite (push_linear0 (Z.lxor s _)). f_equal. rewrite push_shift.
    + rewrite Z.shiftl_shiftl by lia. f_equal. lia.
    + rewrite Z.shiftl_mul_pow2 by lia. replace (2 ^ 31) with (2 ^ Z.of_nat k * 2 ^ (32 - Z.of_nat (S k))) by (rewrite <- Z.pow_add_r by lia; f_equal; lia).
      assert (0 < 2 ^ (32 - Z.of_nat (S k))) by (apply Z.pow_pos_nonneg; lia). nia.
  - destruct (Z.testbit v (Z.of_nat k)); [|by rewrite Z.shiftl_0_l]. rewrite Z.shiftl_mul_pow2, <- Z.pow_add_r by lia. f_equal. lia.
Qed.

(** ** crcbit *)

Lemma rounds_run n c crc : reg32 c -> Z.lxor (u32 (Z.shiftl c (Z.of_nat n))) (crcbit_rounds n poly c crc) = run n (Z.lxor c crc).
Proof.
  revert c crc. induction n as [|n IH]; intros c crc Hc.
  - cbn [crcbit_rounds run]. rewrite Z.shiftl_0_r. by rewrite (u32_small c Hc).
  - cbn [crcbit_rounds run]. set (crc' := if Z.testbit (Z.lxor c crc) 31 then Z.lxor (u32 (Z.shiftl crc 1)) poly else u32 (Z.shiftl crc 1)).
    assert (push poly (Z.lxor c crc) false = Z.lxor (u32 (Z.shiftl c 1)) crc') as ->.
    { unfold push, crc'. rewrite Z.shiftl_lxor, u32_lxor, xorb_false_r. destruct (Z.testbit (Z.lxor c crc) 31);
        by rewrite ?Z.lxor_0_r, ?Z.lxor_assoc. }
    rewrite <- IH by apply u32_range. f_equal. apply Z.bits_inj'. intros i Hi.
    rewrite !u32_bits by done. destruct (Z.ltb_spec i 32); [|done]. simpl. destruct (Z.lt_ge_cases i (Z.of_nat n)).
    { rewrite !Z.shiftl_spec_low by lia. done. }
    rewrite !Z.shiftl_spec by lia. destruct (decide (i = Z.of_nat n)) as [->|].
    { rewrite Z.sub_diag, Z.testbit_neg_r, u32_bits, Z.shiftl_spec_low by lia. done. }
    rewrite u32_bits, Z.shiftl_spec by lia. rewrite (proj2 (Z.ltb_lt (i - Z.of_nat n) 32)) by lia. simpl. f_equal. lia.
Qed.

Lemma octet_shift b : octet b -> reg32 (Z.shiftl b 24) /\ u32 (Z.shiftl b 24) = Z.shiftl b 24.
Proof.
  intros Hb. assert (reg32 (Z.shiftl b 24)); [|split; [done|by apply u32_small]].
  unfold octet, reg32 in *. rewrite Z.shiftl_mul_pow2 by lia. change (2 ^ 32) with (2 ^ 8 * 2 ^ 24). nia.
Qed.

Lemma rounds_octet b crc : octet b -> crcbit_rounds 8 poly (u32 (Z.shiftl b 24)) crc = run 8 (Z.lxor crc (Z.shiftl b 24)).
Proof.
  intros Hb. destruct (octet_shift b Hb) as [Hw ->]. rewrite Z.lxor_comm, <- rounds_run by done.
  replace (u32 (Z.shiftl (Z.shiftl b 24) (Z.of_nat 8))) with 0; [by rewrite Z.lxor_0_l|].
  rewrite Z.shiftl_shiftl, Z.shiftl_mul_pow2 by lia. unfold u32. by rewrite Z.mod_mul.
Qed.

Lemma octet_crc_run c : octet c -> octet_crc poly c = run 8 (Z.shiftl c 24).
Proof. intros Hc. unfold octet_crc. by rewrite rounds_octet, Z.lxor_0_l. Qed.

Lemma octet_push b crc : octet b -> foldl (push poly) crc (bits_of 8 b) = run 8 (Z.lxor crc (Z.shiftl b 24)).
Proof. intros Hb. rewrite (shift_in 8 b crc); [done|lia|exact Hb]. Qed.

Lemma octets_loop_foldl body bytes n crc : (forall b c, octet b -> body b c = foldl (push poly) c (bits_of 8 b)) ->
  Forall octet bytes -> (n <= length bytes)%nat ->
  octets_loop body n bytes crc = Ok (foldl (push poly) crc (message_bits (take n bytes))).
Proof.
  intros Hf. revert bytes crc. induction n as [|n IH]; intros bytes crc Hb Hn; [done|].
  destruct bytes as [|b r]; [cbn [length] in Hn; lia|]. apply Forall_cons in Hb as [Hb Hr].
  rewrite firstn_cons. unfold message_bits. rewrite bind_cons, foldl_app, <- Hf by done. cbn [octets_loop].
  apply IH; [done|cbn [length] in Hn; lia].
Qed.

Lemma crcbit_lfsr bytes : Forall octet bytes -> crcbit bytes (Z.of_nat (length bytes)) poly = Ok (lfsr poly (message_bits bytes)).
Proof.
  intros Hb. unfold crcbit. rewrite Nat2Z.id. rewrite (octets_loop_foldl _ bytes); [by rewrite firstn_all| |done|done].
  intros b c Ho. by rewrite rounds_octet, octet_push.
Qed.

(** ** One step of the table-driven loops *)

Lemma split_word k crc : (k <= 32)%nat -> reg32 crc ->
  crc = Z.lxor (Z.land crc (Z.ones (32 - Z.of_nat k))) (Z.shiftl (Z.shiftr crc (32 - Z.of_nat k)) (32 - Z.of_nat k)) /\
  u32 (Z.shiftl crc (Z.of_nat k)) = Z.shiftl (Z.land crc (Z.ones (32 - Z.of_nat k))) (Z.of_nat k).
Proof.
  intros Hk Hc. split; apply Z.bits_inj'; intros i Hi.
  - rewrite Z.lxor_spec, Z.land_spec. destruct (Z.lt_ge_cases i (32 - Z.of_nat k)).
    + rewrite Z.ones_spec_low, Z.shiftl_spec_low by lia. by destruct (Z.testbit crc i).
    + rewrite Z.ones_spec_high, Z.shiftl_spec, Z.shiftr_spec by lia. rewrite andb_false_r. simpl. f_equal. lia.
  - rewrite u32_bits by done. destruct (Z.lt_ge_cases i (Z.of_nat k)).
    { rewrite !Z.shiftl_spec_low by lia. by rewrite andb_false_r. }
    rewrite !Z.shiftl_spec, Z.land_spec by lia. destruct (Z.ltb_spec i 32).
    + rewrite Z.ones_spec_low by lia. by rewrite andb_true_r.
    + rewrite Z.ones_spec_high by lia. by rewrite andb_false_r.
Qed.

(** The octet of the table is the value of [k <= 8] bits. *)
Lemma table_step k v crc : (1 <= k <= 8)%nat -> 0 <= v < 2 ^ Z.of_nat k -> reg32 crc ->
  0 <= Z.lxor v (Z.shiftr crc (32 - Z.of_nat k)) < 2 ^ Z.of_nat k /\
  Z.lxor (u32 (Z.shiftl crc (Z.of_nat k))) (octet_crc poly (Z.lxor v (Z.shiftr crc (32 - Z.of_nat k)))) =
  foldl (push poly) crc (bits_of k v).
Proof.
  intros Hk Hv Hc. set (w := Z.lxor v (Z.shiftr crc (32 - Z.of_nat k))).
  assert (Hw : 0 <= w < 2 ^ Z.of_nat k).
  { assert (0 <= Z.shiftr crc (32 - Z.of_nat k) < 2 ^ Z.of_nat k).
    { rewrite Z.shiftr_div_pow2 by lia. destruct Hc. split; [apply Z.div_pos; lia|]. apply Z.div_lt_upper_bound; [lia|].
      rewrite <- Z.pow_add_r by lia. by replace (32 - Z.of_nat k + Z.of_nat k) with 32 by lia. }
    assert (0 <= w) by (apply Z.lxor_nonneg; lia). split; [done|]. destruct (decide (w = 0)) as [->|]; [lia|].
    apply Z.log2_lt_pow2; [lia|]. eapply Z.le_lt_trans; [apply Z.log2_lxor; lia|].
    assert (forall x, 0 <= x < 2 ^ Z.of_nat k -> Z.log2 x < Z.of_nat k) as L.
    { intros x Hx. destruct (decide (x = 0)) as [->|]; [simpl; lia|]. apply Z.log2_lt_pow2; lia. }
    apply Z.max_lub_lt; by apply L. }
  split; [done|]. assert (octet w). { assert (2 ^ Z.of_nat k <= 2 ^ 8) by (apply Z.pow_le_mono_r; lia). unfold octet. lia. }
  rewrite shift_in by (done || lia). destruct (split_word k crc ltac:(lia) Hc) as [E1 ->].
  assert (Z.lxor crc (Z.shiftl v (32 - Z.of_nat k)) = Z.lxor (Z.land crc (Z.ones (32 - Z.of_nat k))) (Z.shiftl w (32 - Z.of_nat k))) as ->.
  { rewrite E1 at 1. unfold w. by rewrite Z.lxor_assoc, Z.shiftl_lxor, (Z.lxor_comm (Z.shiftl v _)). }
  rewrite run_linear. f_equal.
  - symmetry. apply run_shift; [lia|]. rewrite Z.land_ones by lia. apply Z.mod_pos_bound. lia.
  - rewrite octet_crc_run by done. replace 8%nat with (8 - k + k)%nat by lia. rewrite run_app. f_equal.
    rewrite run_shift; [rewrite Z.shiftl_shiftl by lia; f_equal; lia|lia|].
    rewrite Z.shiftl_mul_pow2 by lia. replace (32 - Z.of_nat (8 - k)) with (Z.of_nat k + 24) by lia. rewrite Z.pow_add_r by lia. nia.
Qed.

(** ** Unused low bits stay zero *)

Lemma push_low j s b : j <= 32 -> low_zero j poly -> low_zero j s -> low_zero j (push poly s b).
Proof.
  intros Hj Hp Hs i Hi. unfold push. rewrite Z.lxor_spec, u32_bits by lia.
  replace (Z.testbit (Z.shiftl s 1) i) with false.
  - rewrite andb_false_r. destruct (xorb (Z.testbit s 31) b); [by rewrite Hp|by rewrite Z.bits_0].
  - destruct (decide (i = 0)) as [->|]; [by rewrite Z.shiftl_spec_low by lia|]. rewrite Z.shiftl_spec by lia. symmetry. apply Hs. lia.
Qed.

Lemma foldl_low j s bits : j <= 32 -> low_zero j poly -> low_zero j s -> low_zero j (foldl (push poly) s bits).
Proof. intros Hj Hp. revert s. induction bits as [|b bits IH]; intros s Hs; [done|]. apply IH. by apply push_low. Qed.

Lemma foldl_word s bits : reg32 s -> reg32 (foldl (push poly) s bits).
Proof. revert s. induction bits as [|b bits IH]; intros s Hs; [done|]. apply IH, push_word. Qed.

(** ** The table-driven functions *)

Context (table : list Z) (shift j : Z) (step : Z -> Z -> Z).
Context (j_bound : j <= 32) (poly_low : low_zero j poly).
Context (table_ok : forall i, octet i -> exists t, entry table i = Ok t /\ u32 (Z.shiftl t shift) = octet_crc poly i).
Context (step_ok : forall crc i t, octet i -> entry table i = Ok t -> low_zero j crc -> step crc t = Z.lxor (u32 (Z.shiftl crc 8)) (u32 (Z.shiftl t shift))).

Lemma table_loop_ok n bytes crc : Forall octet bytes -> (n <= length bytes)%nat -> reg32 crc -> low_zero j crc ->
  table_loop step table n bytes crc = Ok (foldl (push poly) crc (message_bits (take n bytes)), drop n bytes).
Proof.
  revert bytes crc. induction n as [|n IH]; intros bytes crc Hb Hn Hw Hl; [done|].
  destruct bytes as [|b r]; [cbn [length] in Hn; lia|]. apply Forall_cons in Hb as [Hb Hr].
  destruct (table_step 8 b crc ltac:(lia) Hb Hw) as [Hi E]. change (32 - Z.of_nat 8) with 24 in *. change (Z.of_nat 8) with 8 in *.
  cbn [table_loop]. destruct (table_ok _ Hi) as (t & Ee & Et). rewrite Ee. cbn [mbind res_bind].
  rewrite (step_ok _ _ _ Hi Ee Hl), Et, E. rewrite IH; [|done|cbn [length] in Hn; lia|by apply foldl_word|by apply foldl_low].
  rewrite firstn_cons, skipn_cons. unfold message_bits. by rewrite bind_cons, foldl_app.
Qed.

Lemma table_crc_ok bytes bitlen : Forall octet bytes -> 0 <= bitlen <= 8 * Z.of_nat (length bytes) ->
  ('(crc, rest) ← table_loop step table (Z.to_nat (Z.quot bitlen 8)) bytes 0;
   last_bits shift (Z.rem bitlen 8) table rest crc) = Ok (lfsr poly (take (Z.to_nat bitlen) (message_bits bytes))).
Proof.
  intros Hb Hl. rewrite Z.quot_div_nonneg, Z.rem_mod_nonneg by lia.
  pose proof (Z.div_mod bitlen 8 ltac:(lia)) as Hd. pose proof (Z.mod_pos_bound bitlen 8 ltac:(lia)) as Hm.
  set (n := Z.to_nat (bitlen / 8)). set (r := Z.to_nat (bitlen mod 8)).
  assert (Hq : 0 <= bitlen / 8) by (apply Z.div_pos; lia).
  assert (Hz : low_zero j 0) by (intros ? ?; apply Z.bits_0).
  rewrite table_loop_ok by (done || lia || (split; lia)). cbn [mbind res_bind]. unfold last_bits.
  assert (Et : take (Z.to_nat bitlen) (message_bits bytes) = message_bits (take n bytes) ++ take r (message_bits (drop n bytes))).
  { rewrite <- (take_drop n bytes) at 1. rewrite message_bits_app, take_app. f_equal.
    - apply firstn_all2. rewrite message_bits_length, length_take. lia.
    - f_equal. rewrite message_bits_length, length_take. lia. }
  rewrite Et. unfold lfsr. rewrite foldl_app. destruct (Z.ltb_spec 0 (bitlen mod 8)) as [Hr|Hr].
  - destruct (drop n bytes) as [|b rest] eqn:Ed.
    { apply (f_equal length) in Ed. rewrite length_drop in Ed. simpl in Ed. lia. }
    assert (Hob : octet b) by (apply (Forall_drop _ n) in Hb; rewrite Ed in Hb; by apply Forall_cons in Hb as []).
    assert (Er : bitlen mod 8 = Z.of_nat r) by lia. rewrite Er.
    set (crc := foldl (push poly) 0 (message_bits (take n bytes))).
    assert (Hv : 0 <= Z.shiftr b (8 - Z.of_nat r) < 2 ^ Z.of_nat r).
    { rewrite Z.shiftr_div_pow2 by lia. destruct Hob. split; [apply Z.div_pos; lia|]. apply Z.div_lt_upper_bound; [lia|].
      rewrite <- Z.pow_add_r by lia. by replace (8 - Z.of_nat r + Z.of_nat r) with 8 by lia. }
    destruct (table_step r (Z.shiftr b (8 - Z.of_nat r)) crc) as [Hi E]; [lia|done|apply foldl_word; split; lia|].
    destruct (table_ok (Z.lxor (Z.shiftr b (8 - Z.of_nat r)) (Z.shiftr crc (32 - Z.of_nat r)))) as (t & -> & Htab).
    { assert (2 ^ Z.of_nat r <= 2 ^ 8) by (apply Z.pow_le_mono_r; lia). unfold octet. lia. }
    cbn [mbind res_bind]. rewrite Htab, E, bits_of_high by lia. f_equal. f_equal.
    unfold message_bits. rewrite bind_cons, take_app_le; [done|]. cbn [bits_of length]. lia.
  - assert (r = 0%nat) as -> by lia. done.
Qed.

End Register.
End CrcProofs.
