(* ===== verification/CrcClaims.v ===== *)
(** * Properties of the CRC functions

    Each byte by byte function computes the bit-serial register's value, and
    detects every burst of errors not longer than its degree. *)

From S2P Require Import Prelude Bits Crc CrcProofs.
Import Bits Crc CrcProofs.

Module CrcClaims.

Lemma low_zero_mod j x : 0 <= j -> x mod 2 ^ j = 0 -> low_zero j x.
Proof. intros Hj H i Hi. by rewrite <- (Z.mod_pow2_bits_low x j i), H, Z.bits_0 by lia. Qed.

Lemma widen_narrow k x : 0 <= k <= 32 -> reg32 x -> low_zero k x -> u32 (Z.shiftl (Z.shiftr x k mod 2 ^ (32 - k)) k) = x.
Proof.
  intros Hk Hw Hl. apply Z.bits_inj'. intros i Hi. rewrite u32_bits by done. destruct (Z.ltb_spec i 32).
  - simpl. destruct (Z.lt_ge_cases i k); [by rewrite Z.shiftl_spec_low, Hl by lia|].
    rewrite Z.shiftl_spec, Z.mod_pow2_bits_low, Z.shiftr_spec by lia. f_equal. lia.
  - simpl. by rewrite word_bits.
Qed.

Lemma octet_crc_word poly c : reg32 poly -> octet c -> reg32 (octet_crc poly c).
Proof.
  intros Hp Hc. rewrite octet_crc_run, <- (Z.lxor_0_l (Z.shiftl c 24)), <- octet_push by done. apply foldl_word; [done|split; lia].
Qed.

Lemma octet_crc_low poly j c : reg32 poly -> j <= 32 -> low_zero j poly -> octet c -> low_zero j (octet_crc poly c).
Proof.
  intros Hp Hj Hl Hc. rewrite octet_crc_run, <- (Z.lxor_0_l (Z.shiftl c 24)), <- octet_push by done.
  apply foldl_low; try done. intros ? ?. apply Z.bits_0.
Qed.

Lemma entry_ok (f : Z -> Z) i : octet i -> entry (f <$> octet_values) i = Ok (f i).
Proof.
  intros [H1 H2]. unfold entry, octet_values. rewrite !list_lookup_fmap, lookup_seq_lt by lia. simpl. by rewrite Z2Nat.id.
Qed.

(** [f] computes the register's value on every message and number of bits. *)
Definition computes (f : list Z -> Z -> res Z) (poly : Z) : Prop :=
  forall bytes bitlen, Forall octet bytes -> 0 <= bitlen <= 8 * Z.of_nat (length bytes) ->
  f bytes bitlen = Ok (lfsr poly (take (Z.to_nat bitlen) (message_bits bytes))).

Lemma crc24_table poly : reg32 poly ->
  forall i, octet i -> exists t, entry (octet_crc poly <$> octet_values) i = Ok t /\ u32 (Z.shiftl t 0) = octet_crc poly i.
Proof.
  intros Hp i Hi. eexists. split; [by apply entry_ok|]. rewrite Z.shiftl_0_r. apply u32_small. by apply octet_crc_word.
Qed.

Lemma narrow_table poly k : reg32 poly -> 0 <= k <= 32 -> low_zero k poly -> forall i, octet i ->
  exists t, entry ((fun c => Z.shiftr (octet_crc poly c) k mod 2 ^ (32 - k)) <$> octet_values) i = Ok t /\
    u32 (Z.shiftl t k) = octet_crc poly i.
Proof.
  intros Hp Hk Hl i Hi. eexists. split; [by apply entry_ok|]. apply widen_narrow; [done|by apply octet_crc_word|].
  apply octet_crc_low; try done; lia.
Qed.

Lemma crc24_step poly crc i t : reg32 poly -> octet i -> entry (octet_crc poly <$> octet_values) i = Ok t ->
  Z.lxor (u32 (Z.shiftl crc 8)) t = Z.lxor (u32 (Z.shiftl crc 8)) (u32 (Z.shiftl t 0)).
Proof.
  intros Hp Hi E. rewrite entry_ok in E by done. injection E as <-. rewrite Z.shiftl_0_r, (u32_small (octet_crc poly i)); [done|by apply octet_crc_word].
Qed.

Lemma crc24a_computes : computes crc24a poly24a.
Proof.
  intros bytes n Hb Hn. apply (table_crc_ok poly24a ltac:(by split) crc24aTable 0 8); try done; [by apply low_zero_mod|by apply crc24_table|].
  intros. by apply (crc24_step poly24a _ i).
Qed.

Lemma crc24b_computes : computes crc24b poly24b.
Proof.
  intros bytes n Hb Hn. apply (table_crc_ok poly24b ltac:(by split) crc24bTable 0 8); try done; [by apply low_zero_mod|by apply crc24_table|].
  intros. by apply (crc24_step poly24b _ i).
Qed.

Lemma crc16_computes : computes crc16 poly16.
Proof.
  intros bytes n Hb Hn. apply (table_crc_ok poly16 ltac:(by split) crc16Table 16 16); try done; [by apply low_zero_mod|].
  apply narrow_table; [by split|lia|by apply low_zero_mod].
Qed.

Lemma crc12_computes : computes crc12 poly12.
Proof.
  intros bytes n Hb Hn. apply (table_crc_ok poly12 ltac:(by split) crc12Table 16 20); try done; [by apply low_zero_mod|].
  apply narrow_table; [by split|lia|by apply low_zero_mod].
Qed.

(** In [crc8] the shifted register is left out: it is zero. *)
Lemma crc8_computes : computes crc8 poly8.
Proof.
  intros bytes n Hb Hn. apply (table_crc_ok poly8 ltac:(by split) crc8Table 24 24); try done; [by apply low_zero_mod| |].
  - apply (narrow_table poly8 24); [by split|lia|by apply low_zero_mod].
  - intros crc i t _ _ Hl. replace (u32 (Z.shiftl crc 8)) with 0; [by rewrite Z.lxor_0_l|].
    symmetry. apply Z.bits_inj'. intros k Hk. rewrite u32_bits, Z.bits_0 by done. destruct (Z.ltb_spec k 32); [|done]. simpl.
    destruct (Z.lt_ge_cases k 8); [by rewrite Z.shiftl_spec_low by lia|]. rewrite Z.shiftl_spec by lia. apply Hl. lia.
Qed.

(** ** Bursts *)

Section Bursts.
Context (poly j : Z) (poly_word : reg32 poly) (j_range : 0 <= j < 32).
Context (poly_low : low_zero j poly) (poly_const : Z.testbit poly j = true).
#[local] Set Default Proof Using "All".

(** The register without input loses no information. *)
Lemma push_nonzero s : reg32 s -> low_zero j s -> push poly s false = 0 -> s = 0.
Proof.
  intros Hw Hl H0.
  assert (Hb : forall i, 0 <= i -> Z.testbit (push poly s false) i = false) by (intros; by rewrite H0, Z.bits_0).
  unfold push in Hb. rewrite xorb_false_r in Hb.
  assert (Ht : Z.testbit s 31 = false).
  { destruct (Z.testbit s 31) eqn:E; [|done]. specialize (Hb j ltac:(lia)).
    rewrite Z.lxor_spec, u32_bits, poly_const in Hb by lia. rewrite (proj2 (Z.ltb_lt j 32)) in Hb by lia. simpl in Hb.
    replace (Z.testbit (Z.shiftl s 1) j) with false in Hb; [done|].
    destruct (decide (j = 0)) as [->|]; [by rewrite Z.shiftl_spec_low by lia|]. rewrite Z.shiftl_spec by lia. symmetry. apply Hl. lia. }
  rewrite Ht in Hb. apply Z.bits_inj'. intros i Hi. rewrite Z.bits_0. destruct (Z.lt_trichotomy i 31) as [H|[->|H]]; [|done|apply word_bits; [done|lia]].
  specialize (Hb (i + 1) ltac:(lia)). rewrite Z.lxor_0_r, u32_bits, Z.shiftl_spec in Hb by lia.
  rewrite (proj2 (Z.ltb_lt (i + 1) 32)) in Hb by lia. by replace (i + 1 - 1) with i in Hb by lia.
Qed.

Lemma run_nonzero k s : reg32 s -> low_zero j s -> run poly k s = 0 -> s = 0.
Proof.
  revert s. induction k as [|k IH]; intros s Hw Hl H; [done|]. apply push_nonzero; try done.
  apply IH; [by apply push_word|apply push_low; try done; lia|done].
Qed.

Lemma quiet s bits : Forall (eq false) bits -> foldl (push poly) s bits = run poly (length bits) s.
Proof. intros H. revert s. induction H as [|b bits <- _ IH]; intros s; [done|]. apply IH. Qed.

Lemma bits_value w : exists v, 0 <= v < 2 ^ Z.of_nat (length w) /\ w = bits_of (length w) v.
Proof.
  induction w as [|b w (v & Hv & E)]; [by exists 0|]. cbn [length]. rewrite Nat2Z.inj_succ, Z.pow_succ_r by lia.
  set (k := Z.of_nat (length w)) in *. exists ((if b then 2 ^ k else 0) + v). split; [destruct b; lia|].
  cbn [bits_of]. fold k. f_equal.
  - replace ((if b then 2 ^ k else 0) + v) with (v + (if b then 1 else 0) * 2 ^ k) by (destruct b; lia).
    rewrite Z.testbit_eqb, Z.div_add, Z.div_small, Z.add_0_l by lia. by destruct b.
  - rewrite E at 1. assert (G : forall n, (n <= length w)%nat -> bits_of n v = bits_of n ((if b then 2 ^ k else 0) + v)); [|by apply G].
    induction n as [|n IHn]; intros Hn; [done|]. cbn [bits_of]. rewrite IHn by lia. f_equal.
    replace ((if b then 2 ^ k else 0) + v) with (v + (if b then 1 else 0) * 2 ^ k) by (destruct b; lia).
    rewrite <- (Z.mod_pow2_bits_low (v + _) k), Z.mod_add, Z.mod_small by lia. done.
Qed.

Lemma lfsr_linear a b s t : length a = length b ->
  foldl (push poly) (Z.lxor s t) (zip_with xorb a b) = Z.lxor (foldl (push poly) s a) (foldl (push poly) t b).
Proof.
  revert b s t. induction a as [|x a IH]; intros [|y b] s t Hl; try done. cbn [zip_with foldl].
  rewrite push_linear by done. apply IH. by injection Hl.
Qed.

(** A burst of at most [32 - j] bits leaves the register nonzero. *)
Lemma burst_nonzero a w c : Forall (eq false) a -> Forall (eq false) c -> Z.of_nat (length w) <= 32 - j ->
  lfsr poly (a ++ w ++ c) = 0 -> Forall (eq false) w.
Proof.
  intros Ha Hc Hw. unfold lfsr. rewrite !foldl_app, (quiet _ a), run_zero, (quiet _ c) by done.
  destruct (bits_value w) as (v & Hv & Ew). set (k := Z.of_nat (length w)) in *.
  rewrite Ew at 1. rewrite shift_in by (done || lia). rewrite Z.lxor_0_l. fold k. intros H0.
  assert (Hs : Z.shiftl v (32 - k) = 0).
  { assert (reg32 (Z.shiftl v (32 - k))).
    { rewrite Z.shiftl_mul_pow2 by lia. unfold reg32. replace (2 ^ 32) with (2 ^ k * 2 ^ (32 - k)) by (rewrite <- Z.pow_add_r by lia; f_equal; lia).
      assert (0 < 2 ^ (32 - k)) by (apply Z.pow_pos_nonneg; lia). nia. }
    assert (low_zero j (Z.shiftl v (32 - k))) by (intros i Hi; apply Z.shiftl_spec_low; lia).
    apply (run_nonzero (length w)); try done. apply (run_nonzero (length c)); [..|exact H0].
    - rewrite <- (Z.lxor_0_l (Z.shiftl v (32 - k))). unfold k. rewrite <- shift_in by (done || lia). apply foldl_word; [done|split; lia].
    - rewrite <- (Z.lxor_0_l (Z.shiftl v (32 - k))). unfold k. rewrite <- shift_in by (done || lia).
      apply foldl_low; try done; [lia|]. intros ? ?. apply Z.bits_0. }
  apply Z.shiftl_eq_0_iff in Hs; [|lia]. rewrite Ew, Hs. clear. induction (length w); constructor; [by rewrite Z.bits_0|done].
Qed.

(** Two messages of the same length that differ inside one window of [d]
    bits, and within the bits that are covered, have different CRCs. *)
Definition detects (f : list Z -> Z -> res Z) (d : nat) : Prop :=
  forall m1 m2 bitlen a, Forall octet m1 -> Forall octet m2 -> length m1 = length m2 ->
  0 <= bitlen <= 8 * Z.of_nat (length m1) ->
  (forall i, (i < a \/ a + d <= i)%nat -> message_bits m1 !! i = message_bits m2 !! i) ->
  take (Z.to_nat bitlen) (message_bits m1) <> take (Z.to_nat bitlen) (message_bits m2) ->
  f m1 bitlen <> f m2 bitlen.

Lemma same_zeros (x y : list bool) : length x = length y -> Forall (eq false) (zip_with xorb x y) <-> x = y.
Proof.
  revert y. induction x as [|a x IH]; intros [|b y] Hl; try done. cbn [zip_with]. rewrite Forall_cons, IH by (by injection Hl).
  split; [intros [E ->]; by destruct a, b|]. intros [= -> ->]. split; [by destruct b|done].
Qed.

Lemma zip_outside (x y : list bool) (P : nat -> Prop) l : length x = length y -> (forall i, P i -> x !! i = y !! i) ->
  (forall i b, l !! i = Some b -> exists k, P k /\ zip_with xorb x y !! k = Some b) -> Forall (eq false) l.
Proof.
  intros Hl Hp H. apply Forall_lookup. intros i b E. destruct (H i b E) as (k & Hk & Ek). apply lookup_zip_with_Some in Ek as (u & v & -> & Eu & Ev).
  rewrite (Hp k Hk), Ev in Eu. injection Eu as ->. by destruct u.
Qed.

Lemma detects_bursts f d : computes f poly -> Z.of_nat d <= 32 - j -> detects f d.
Proof.
  intros Hf Hd m1 m2 n a H1 H2 Hl Hn Hw Hne. rewrite !Hf by (done || by rewrite <- Hl). intros [= E]. apply Hne. clear Hne.
  set (x := take _ (message_bits m1)) in *. set (y := take _ (message_bits m2)) in *.
  assert (Hxy : length x = length y) by (unfold x, y; rewrite !length_take, !message_bits_length; lia).
  assert (Hout : forall i, (i < a \/ a + d <= i)%nat -> x !! i = y !! i).
  { intros i Hi. unfold x, y. rewrite !lookup_take. by destruct (decide _); [apply Hw|]. }
  set (diff := zip_with xorb x y).
  assert (Hz : lfsr poly diff = 0).
  { pose proof (lfsr_linear x y 0 0 Hxy) as L. rewrite Z.lxor_0_l in L. fold (lfsr poly x) (lfsr poly y) in L.
    rewrite E, Z.lxor_nilpotent in L. exact L. }
  assert (Ed : diff = take a diff ++ take d (drop a diff) ++ drop d (drop a diff)) by (by rewrite !take_drop).
  rewrite Ed in Hz.
  assert (Ha : Forall (eq false) (take a diff)).
  { eapply (zip_outside x y); [done|exact Hout|]. intros i b Ei. apply lookup_take_Some in Ei as [Ei Hi]. eauto. }
  assert (Hc : Forall (eq false) (drop d (drop a diff))).
  { eapply (zip_outside x y); [done|exact Hout|]. intros i b Ei. rewrite !lookup_drop in Ei. eexists. split; [|exact Ei]. lia. }
  apply burst_nonzero in Hz; [|done|done|rewrite length_take; lia].
  apply same_zeros; [done|]. fold diff. rewrite Ed. by apply Forall_app_2, Forall_app_2.
Qed.

End Bursts.

(** C29. The byte by byte functions [crc24a], [crc24b], [crc16], [crc12] and
    [crc8], with the tables [crcTableInit] builds, compute for every message
    and every number of bits (also one that is not a multiple of 8) the value
    of the shift register of their polynomial, which the bit by bit [crcbit]
    computes for whole octets and any polynomial. *)
Theorem crc_functions_equivalent :
  computes crc24a poly24a /\ computes crc24b poly24b /\ computes crc16 poly16 /\ computes crc12 poly12 /\ computes crc8 poly8 /\
  forall poly bytes, reg32 poly -> Forall octet bytes ->
    crcbit bytes (Z.of_nat (length bytes)) poly = Ok (lfsr poly (message_bits bytes)).
Proof.
  split_and!; [apply crc24a_computes|apply crc24b_computes|apply crc16_computes|apply crc12_computes|apply crc8_computes|].
  intros poly bytes Hp Hb. by apply crcbit_lfsr.
Qed.

(** The message of the test at the end of crc_byte.c, "Thebigredfox". *)
Definition fox : list Z := [84; 104; 101; 98; 105; 103; 114; 101; 100; 102; 111; 120].

Lemma crc_functions_equivalent_witness : Forall octet fox /\ crc24a fox 96 = crcbit fox 12 poly24a.
Proof.
  assert (H : Forall octet fox) by (repeat constructor; by compute). split; [done|].
  destruct crc_functions_equivalent as (H1 & _ & _ & _ & _ & H2). rewrite (H1 fox 96 H ltac:(by split)).
  symmetry. exact (H2 poly24a fox ltac:(by split) H).
Defined.

(** C30. A burst of errors is detected: two messages of the same length whose
    bits differ only inside one window of 24 bits (16, 12 and 8 for the
    shorter CRCs), and do differ in the covered bits, have different values of
    [crc24a] and [crc24b] ([crc16], [crc12], [crc8]). *)
Theorem crc_detects_bursts : detects crc24a 24 /\ detects crc24b 24 /\ detects crc16 16 /\ detects crc12 12 /\ detects crc8 8.
Proof.
  split_and!; [eapply (detects_bursts poly24a 8)|eapply (detects_bursts poly24b 8)|eapply (detects_bursts poly16 16)
    |eapply (detects_bursts poly12 20)|eapply (detects_bursts poly8 24)]; try done; try (by apply low_zero_mod).
  - apply crc24a_computes.
  - apply crc24b_computes.
  - apply crc16_computes.
  - apply crc12_computes.
  - apply crc8_computes.
Qed.

Lemma crc_detects_bursts_witness :
  let m2 := [84; 104; 101; 98; 1; 2; 115; 101; 100; 102; 111; 120] in
  (length fox = length m2 /\ take 96 (message_bits fox) <> take 96 (message_bits m2)) /\ crc24a fox 96 <> crc24a m2 96.
Proof.
  intros m2. assert (Hne : take 96 (message_bits fox) <> take 96 (message_bits m2)) by (by compute).
  split; [done|]. refine (proj1 crc_detects_bursts fox m2 96 32%nat _ _ eq_refl _ _ Hne).
  - repeat constructor; by compute.
  - repeat constructor; by compute.
  - by split.
  - assert (H : Forall (fun i => (32 <= i < 56)%nat \/ message_bits fox !! i = message_bits m2 !! i) (seq 0 96)) by (by apply (bool_decide_unpack _)).
    intros i Hi. destruct (decide (i < 96)%nat) as [Hlt|Hge].
    + rewrite Forall_forall in H. destruct (H i) as [|E]; [by apply elem_of_seq; lia|lia|done].
    + rewrite !lookup_ge_None_2; [done|rewrite message_bits_length; simpl; lia..].
Defined.

End CrcClaims.
