(* ===== verification/Segmentation.v ===== *)
(** * Code block segmentation

    openair1/PHY/CODING/lte_segmentation.c: a transport block of [B] bits is
    cut into [C] code blocks of [Kplus] or [Kminus] bits, with [F] filler bits
    at the front and a CRC24B on each block when there are several. Values are
    [unsigned int]. The values the pointer arguments point to are the record
    [seg]; a buffer is a list of bytes, and a write outside it is a fault. *)

From S2P Require Import Prelude Crc.
Import Crc.

Module Segmentation.

Definition MAX_NUM_DLSCH_SEGMENTS : Z := 16.

Record seg : Type := mk_seg { C : Z; Cplus : Z; Cminus : Z; Kplus : Z; Kminus : Z; F : Z }.
#[export] Instance seg_settable : Settable seg :=
  fun o => mk_seg (C o) (Cplus o) (Cminus o) (Kplus o) (Kminus o) (F o).

(** [L], [*C] and [Bprime]. *)
Definition block_count (B : Z) : Z * Z * Z :=
  if B <=? 6144 then (0, 1, B)
  else
    let c := B / (6144 - 24) in
    let c := if u32 ((6144 - 24) * c) <? B then c + 1 else c in
    (24, c, u32 (B + u32 (c * 24))).

(** [*Kplus] and [*Kminus]; [None] is the illegal size. *)
Definition round_up (x sh step : Z) : Z :=
  let k := Z.shiftl (Z.shiftr x sh) sh in if k <? x then k + step else k.
Definition block_sizes (Bprime_by_C : Z) : option (Z * Z) :=
  if Bprime_by_C <=? 40 then Some (40, 0)
  else if Bprime_by_C <=? 512 then Some (Z.shiftl (Z.shiftr Bprime_by_C 3) 3, Bprime_by_C - 8)
  else if Bprime_by_C <=? 1024 then let k := round_up Bprime_by_C 4 16 in Some (k, k - 16)
  else if Bprime_by_C <=? 2048 then let k := round_up Bprime_by_C 5 32 in Some (k, k - 32)
  else if Bprime_by_C <=? 6144 then let k := round_up Bprime_by_C 6 64 in Some (k, k - 64)
  else None.

(** [*Cplus], [*Cminus], [*Kminus] and [*F]. *)
Definition share (Bprime : Z) (o : seg) : seg :=
  let o := if C o =? 1 then o <| Cplus := C o |> <| Kminus := 0 |> <| Cminus := 0 |>
           else
             let cm := u32 (u32 (C o * Kplus o) - Bprime) / u32 (Kplus o - Kminus o) in
             o <| Cminus := cm |> <| Cplus := u32 (C o - cm) |> in
  o <| F := u32 (u32 (u32 (Cplus o * Kplus o) + u32 (Cminus o * Kminus o)) - Bprime) |>.

(** ** Filling the blocks *)

(** [output_buffers[r][k] = v] *)
Definition write (outs : list (list Z)) (r k : nat) (v : Z) : res (list (list Z)) :=
  row ← of_option OutOfBounds (outs !! r);
  if (k <? length row)%nat then Ok (<[r := <[k := v]> row]> outs) else Fault OutOfBounds.

(** [for (k=0; k<*F>>3; k++)], [n] rounds to go. *)
Fixpoint clear_bytes (n k : nat) (outs : list (list Z)) : res (list (list Z)) :=
  match n with
  | O => Ok outs
  | S n' => outs' ← write outs 0 k 0; clear_bytes n' (S k) outs'
  end.

(** [while (k<((Kr - L)>>3))], [n] rounds to go. *)
Fixpoint copy_bytes (n r k s : nat) (inp : list Z) (outs : list (list Z)) : res (list (list Z)) :=
  match n with
  | O => Ok outs
  | S n' =>
      v ← of_option OutOfBounds (inp !! s);
      outs' ← write outs r k v;
      copy_bytes n' r (S k) (S s) inp outs'
  end.

(** The CRC of the first [bits] bits, behind them. [crc] is the CRC shifted
    down by 8; its bytes are read from a little-endian word. *)
Definition add_crc (r : nat) (bits : Z) (outs : list (list Z)) : res (list (list Z)) :=
  row ← of_option OutOfBounds (outs !! r);
  v ← crc24b row bits;
  let crc := Z.shiftr v 8 in
  let p := Z.to_nat (Z.shiftr bits 3) in
  o1 ← write outs r p (u8 (Z.shiftr crc 16));
  o2 ← write o1 r (1 + p) (u8 (Z.shiftr crc 8));
  write o2 r (2 + p) (u8 crc).

(** [for (r=0; r<*C; r++)], [n] rounds to go. *)
Fixpoint fill_blocks (n r k s : nat) (L : Z) (o : seg) (inp : list Z) (outs : list (list Z)) : res (list (list Z)) :=
  match n with
  | O => Ok outs
  | S n' =>
      let Kr := if Z.of_nat r <? Cminus o then Kminus o else Kplus o in
      let todo := (Z.to_nat (Z.shiftr (u32 (Kr - L)) 3) - k)%nat in
      o1 ← copy_bytes todo r k s inp outs;
      o2 ← (if 1 <? C o then add_crc r (u32 (Kr - 24)) o1 else Ok o1);
      fill_blocks n' (S r) 0 (s + todo) L o inp o2
  end.

Definition lte_segmentation (input_buffer : option (list Z)) (output_buffers : option (list (list Z))) (B : Z) (o : seg)
    : res (Z * seg * option (list (list Z))) :=
  let '(L, c, Bprime) := block_count B in
  let o := o <| C := c |> in
  if MAX_NUM_DLSCH_SEGMENTS <? c then Ok (-1, o, output_buffers)
  else
    match block_sizes (Bprime / c) with
    | None => Ok (-1, o, output_buffers)
    | Some (kp, km) =>
        let o := share Bprime (o <| Kplus := kp |> <| Kminus := km |>) in
        match input_buffer, output_buffers with
        | Some inp, Some outs =>
            let k := Z.to_nat (Z.shiftr (F o) 3) in
            outs1 ← clear_bytes k 0 outs;
            outs2 ← fill_blocks (Z.to_nat (C o)) 0 k 0 L o inp outs1;
            Ok (0, o, Some outs2)
        | _, _ => Ok (0, o, output_buffers)
        end
    end.

End Segmentation.
