(* ===== verification/SegmentationClaims.v ===== *)
(** * Properties of code block segmentation *)

From S2P Require Import Prelude Bits Crc CrcProofs CrcClaims Segmentation.
Import Bits Crc CrcProofs CrcClaims Segmentation.

Module SegmentationClaims.

(** ** Sizes *)

(** The sizes of the turbo code's interleaver. *)
Definition turbo_size (K : Z) : bool :=
  ((40 <=? K) && (K <=? 512) && (K mod 8 =? 0)) || ((512 <? K) && (K <=? 1024) && (K mod 16 =? 0)) ||
  ((1024 <? K) && (K <=? 2048) && (K mod 32 =? 0)) || ((2048 <? K) && (K <=? 6144) && (K mod 64 =? 0)).

Lemma turbo_size_iff K : turbo_size K = true <->
  (40 <= K <= 512 /\ K mod 8 = 0) \/ (512 < K <= 1024 /\ K mod 16 = 0) \/
  (1024 < K <= 2048 /\ K mod 32 = 0) \/ (2048 < K <= 6144 /\ K mod 64 = 0).
Proof. unfold turbo_size. rewrite !orb_true_iff, !andb_true_iff, !Z.leb_le, !Z.ltb_lt, !Z.eqb_eq. tauto. Qed.

Lemma round_up_spec x sh : 0 <= sh -> 0 <= x ->
  round_up x sh (2 ^ sh) mod 2 ^ sh = 0 /\ x <= round_up x sh (2 ^ sh) < x + 2 ^ sh.
Proof.
  intros Hs Hx. unfold round_up. rewrite Z.shiftr_div_pow2, Z.shiftl_mul_pow2 by done.
  assert (0 < 2 ^ sh) by (apply Z.pow_pos_nonneg; lia). pose proof (Z.div_mod x (2 ^ sh)). pose proof (Z.mod_pos_bound x (2 ^ sh)).
  destruct (Z.ltb_spec (x / 2 ^ sh * 2 ^ sh) x).
  - replace (x / 2 ^ sh * 2 ^ sh + 2 ^ sh) with ((x / 2 ^ sh + 1) * 2 ^ sh) by lia. rewrite Z.mod_mul by lia. lia.
  - rewrite Z.mod_mul by lia. lia.
Qed.

(** The block sizes found are the least size that is large enough and, above
    512, the one before it. *)
Lemma block_sizes_spec x : 0 < x <= 6144 -> (40 < x <= 512 -> x mod 8 = 0) ->
  exists kp km, block_sizes x = Some (kp, km) /\ turbo_size kp = true /\ x <= kp /\
    (forall K, turbo_size K = true -> x <= K -> kp <= K) /\
    (2112 < x -> km = kp - 64 /\ kp < x + 64 /\ kp mod 64 = 0).
Proof.
  intros Hx H8. unfold block_sizes.
  destruct (Z.leb_spec x 40). { exists 40, 0. split_and!; try done; try lia. intros K HK%turbo_size_iff. lia. }
  destruct (Z.leb_spec x 512).
  { specialize (H8 ltac:(lia)). rewrite Z.shiftr_div_pow2, Z.shiftl_mul_pow2 by lia. change (2 ^ 3) with 8.
    replace (x / 8 * 8) with x by (pose proof (Z.div_mod x 8); lia). exists x, (x - 8). split_and!; try done; try lia.
    apply turbo_size_iff. lia. }
  destruct (Z.leb_spec x 1024).
  { destruct (round_up_spec x 4) as [Hm Hr]; [lia..|]. change (2 ^ 4) with 16 in *. cbv zeta. set (k := round_up x 4 16) in *.
    exists k, (k - 16). split_and!; try done; try lia; [apply turbo_size_iff; div_lia|]. intros K HK%turbo_size_iff HxK. div_lia. }
  destruct (Z.leb_spec x 2048).
  { destruct (round_up_spec x 5) as [Hm Hr]; [lia..|]. change (2 ^ 5) with 32 in *. cbv zeta. set (k := round_up x 5 32) in *.
    exists k, (k - 32). split_and!; try done; try lia; [apply turbo_size_iff; div_lia|]. intros K HK%turbo_size_iff HxK. div_lia. }
  rewrite (proj2 (Z.leb_le x 6144)) by lia.
  destruct (round_up_spec x 6) as [Hm Hr]; [lia..|]. change (2 ^ 6) with 64 in *. cbv zeta. set (k := round_up x 6 64) in *.
  exists k, (k - 64). split_and!; try done; try lia; [apply turbo_size_iff; div_lia|]. intros K HK%turbo_size_iff HxK. div_lia.
Qed.

(** The number of blocks and of bits with the blocks' CRCs. *)
Definition blocks (B : Z) : Z := if B <=? 6144 then 1 else (B + 6119) / 6120.
Definition crc_bits (B : Z) : Z := if B <=? 6144 then 0 else 24.
Definition Bprime (B : Z) : Z := B + blocks B * crc_bits B.

Lemma block_count_spec B : 0 < B <= 97920 -> block_count B = (crc_bits B, blocks B, Bprime B) /\ 1 <= blocks B <= 16.
Proof.
  intros HB. unfold block_count, Bprime, blocks, crc_bits. destruct (Z.leb_spec B 6144) as [H|H].
  - split; [f_equal; lia|lia].
  - change (6144 - 24) with 6120.
    assert (Hc : (B + 6119) / 6120 = if 6120 * (B / 6120) <? B then B / 6120 + 1 else B / 6120).
    { destruct (Z.ltb_spec (6120 * (B / 6120)) B); div_lia. }
    assert (1 <= (B + 6119) / 6120 <= 16) by div_lia. split; [|done].
    rewrite (u32_small (6120 * (B / 6120))) by (norm_pow; div_lia). rewrite <- Hc.
    rewrite (u32_small (_ * 24)) by (norm_pow; lia). rewrite u32_small by (norm_pow; lia). done.
Qed.

(** What the segmentation of [B] bits must give. *)
Record segmented (B : Z) (p : seg) : Prop := {
  sg_C : C p = blocks B;
  sg_Kplus : turbo_size (Kplus p) = true;
  sg_fits : Bprime B <= C p * Kplus p;
  sg_least K : turbo_size K = true -> Bprime B <= C p * K -> Kplus p <= K;
  sg_one : C p = 1 -> Cplus p = 1 /\ Cminus p = 0 /\ Kminus p = 0;
  sg_several : 1 < C p -> turbo_size (Kminus p) = true /\ Kminus p < Kplus p /\
    (forall K, turbo_size K = true -> Kminus p < K -> Kplus p <= K) /\ F p < Kplus p - Kminus p;
  sg_split : Cplus p + Cminus p = C p /\ 0 <= Cplus p /\ 0 <= Cminus p;
  sg_filler : Cplus p * Kplus p + Cminus p * Kminus p = Bprime B + F p /\ 0 <= F p
}.

(** The blocks are filled unless the average size is itself a block size that
    was rounded down. *)
Definition divides_well (B : Z) : Prop := Bprime B mod blocks B = 0 \/ (Bprime B / blocks B) mod 64 <> 0.

Lemma share_one B o kp km : 0 < B <= 6144 -> B mod 8 = 0 -> block_sizes B = Some (kp, km) ->
  segmented B (share B (o <| C := 1 |> <| Kplus := kp |> <| Kminus := km |>)).
Proof.
  intros HB H8 E. destruct (block_sizes_spec B HB (fun _ => H8)) as (kp' & km' & E' & Ht & Hle & Hmin & _).
  rewrite E in E'. injection E' as <- <-. assert (kp <= 6144) by (apply turbo_size_iff in Ht; lia).
  assert (Hb : blocks B = 1 /\ Bprime B = B). { unfold Bprime, blocks, crc_bits. rewrite (proj2 (Z.leb_le B 6144)) by lia. lia. }
  destruct Hb as [Hb1 Hb2].
  assert (Hs : share B (o <| C := 1 |> <| Kplus := kp |> <| Kminus := km |>) = mk_seg 1 1 0 kp 0 (kp - B)).
  { unfold share. rsimpl. change (1 =? 1) with true. cbn iota. rsimpl. unfold upd. cbn [C Cplus Cminus Kplus Kminus F]. f_equal.
    change (u32 (0 * 0)) with 0. rewrite (u32_small (1 * kp)) by (norm_pow; lia).
    rewrite (u32_small (1 * kp + 0)), u32_small by (norm_pow; lia). lia. }
  rewrite Hs. split; cbn [C Cplus Cminus Kplus Kminus F]; rewrite ?Hb2; try lia; try done.
  intros K HK HBK. apply Hmin; [done|lia].
Qed.

Lemma several_range B : 6144 < B <= 97920 -> let c := blocks B in let x := Bprime B / c in
  2 <= c <= 16 /\ Bprime B = B + 24 * c /\ 2112 < x <= 6144 /\ c * x <= Bprime B < c * x + c.
Proof.
  intros HB c x. assert (Hc : c = (B + 6119) / 6120) by (unfold c, blocks; by rewrite (proj2 (Z.leb_gt B 6144)) by lia).
  assert (Hb : Bprime B = B + 24 * c).
  { unfold Bprime, crc_bits. fold c. rewrite (proj2 (Z.leb_gt B 6144)) by lia. lia. }
  assert (2 <= c <= 16 /\ 6120 * (c - 1) < B <= 6120 * c) as [Hc1 Hc2] by (rewrite Hc; div_lia).
  pose proof (Z.div_mod (Bprime B) c ltac:(lia)) as D. pose proof (Z.mod_pos_bound (Bprime B) c ltac:(lia)) as M. fold x in D.
  split_and!; try lia; nia.
Qed.

Lemma share_several B o kp km : 6144 < B <= 97920 -> B mod 8 = 0 -> divides_well B ->
  block_sizes (Bprime B / blocks B) = Some (kp, km) ->
  segmented B (share (Bprime B) (o <| C := blocks B |> <| Kplus := kp |> <| Kminus := km |>)).
Proof.
  intros HB H8 Hd E. destruct (several_range B HB) as (Hc & Hb & Hx & Hcx). unfold divides_well in Hd.
  pose proof (Z.div_mod (Bprime B) (blocks B) ltac:(lia)) as D.
  set (c := blocks B) in *. set (x := Bprime B / c) in *. set (b := Bprime B) in *.
  destruct (block_sizes_spec x) as (kp' & km' & E' & Ht & Hle & Hmin & Hk); [lia..|].
  rewrite E in E'. injection E' as <- <-. destruct (Hk ltac:(lia)) as (-> & Hlt & H64).
  assert (kp <= 6144) by (apply turbo_size_iff in Ht; lia).
  assert (Hfit : b <= c * kp).
  { destruct Hd as [Hd|Hd]; [nia|]. assert (x < kp) by (destruct (decide (x = kp)) as [->|]; [done|lia]). nia. }
  assert (Hup : c * kp < b + 64 * c) by nia.
  set (cm := (c * kp - b) / 64). pose proof (Z.div_mod (c * kp - b) 64 ltac:(lia)) as Dm. pose proof (Z.mod_pos_bound (c * kp - b) 64 ltac:(lia)).
  fold cm in Dm. assert (0 <= cm < c) by lia.
  assert (Hs : share b (o <| C := c |> <| Kplus := kp |> <| Kminus := kp - 64 |>) =
    mk_seg c (c - cm) cm kp (kp - 64) ((c * kp - b) mod 64)).
  { assert (Hdiff : u32 (kp - (kp - 64)) = 64) by (replace (kp - (kp - 64)) with 64 by lia; done).
    assert (P1 : 0 <= c * kp < 2 ^ 32) by (norm_pow; nia).
    assert (P2 : 0 <= (c - cm) * kp < 2 ^ 31) by (norm_pow; nia). assert (P3 : 0 <= cm * (kp - 64) < 2 ^ 31) by (norm_pow; nia).
    unfold share. rsimpl. rewrite (proj2 (Z.eqb_neq c 1)) by lia. rsimpl. rewrite Hdiff, (u32_small (c * kp)) by done.
    rewrite (u32_small (c * kp - b)) by (norm_pow; lia). fold cm. rewrite (u32_small (c - cm)) by (norm_pow; lia).
    rewrite (u32_small ((c - cm) * kp)), (u32_small (cm * (kp - 64))) by (norm_pow; lia).
    rewrite (u32_small ((c - cm) * kp + cm * (kp - 64))) by (norm_pow; lia). unfold upd. cbn. f_equal.
    rewrite u32_small; [|norm_pow]; lia. }
  rewrite Hs. split; cbn [C Cplus Cminus Kplus Kminus F]; try done; try lia.
  - fold b. intros K HK HbK. apply Hmin; [done|]. nia.
  - intros _. split_and!; try lia.
    + apply turbo_size_iff. div_lia.
    + intros K HK%turbo_size_iff HlK. div_lia.
Qed.

(** ** Contents *)

(** [n] bytes of the input from [s] on; a row with bytes [k ..] replaced. *)
Definition slice (inp : list Z) (s n : nat) : list Z := take n (drop s inp).
Definition overwrite (row : list Z) (k : nat) (new : list Z) : list Z := take k row ++ new ++ drop (k + length new) row.

Lemma overwrite_cons row k v new : (k < length row)%nat -> overwrite (<[k := v]> row) (S k) new = overwrite row k (v :: new).
Proof.
  intros Hk. unfold overwrite. rewrite (insert_take_drop row k v Hk). cbn [length].
  assert (Hl : length (take k row) = k) by (rewrite length_take; lia).
  rewrite take_app, drop_app, Hl. replace (S k - k)%nat with 1%nat by lia. rewrite (take_ge (take k row)) by lia.
  rewrite (drop_ge (take k row)) by lia. replace (S k + length new - k)%nat with (S (length new)) by lia.
  cbn [firstn skipn]. rewrite drop_drop, <- app_assoc. cbn. rewrite take_0. by replace (k + S (length new))%nat with (S (k + length new)) by lia.
Qed.

Lemma overwrite_nil row k : overwrite row k [] = row.
Proof. unfold overwrite. simpl. by rewrite Nat.add_0_r, take_drop. Qed.

Lemma length_overwrite row k new : (k + length new <= length row)%nat -> length (overwrite row k new) = length row.
Proof. intros H. unfold overwrite. rewrite !length_app, length_take, length_drop. lia. Qed.

Lemma write_ok outs r row k v : outs !! r = Some row -> (k < length row)%nat ->
  write outs r k v = Ok (<[r := <[k := v]> row]> outs).
Proof. intros E Hk. unfold write. rewrite E. simpl. by rewrite (proj2 (Nat.ltb_lt k _)). Qed.

Lemma clear_bytes_ok n k outs row : outs !! 0%nat = Some row -> (k + n <= length row)%nat ->
  clear_bytes n k outs = Ok (<[0%nat := overwrite row k (replicate n 0)]> outs).
Proof.
  revert k outs row. induction n as [|n IH]; intros k outs row E Hk; cbn [clear_bytes replicate].
  - by rewrite overwrite_nil, list_insert_id.
  - rewrite (write_ok _ _ row) by (done || lia). cbn [mbind res_bind]. apply lookup_lt_Some in E as Hl.
    rewrite (IH (S k) _ (<[k := 0]> row)) by (by rewrite ?list_lookup_insert_eq, ?length_insert; try lia).
    by rewrite list_insert_insert_eq, overwrite_cons by lia.
Qed.

Lemma slice_cons inp s n v : inp !! s = Some v -> slice inp s (S n) = v :: slice inp (S s) n.
Proof. intros E. unfold slice. by rewrite (drop_S _ _ _ E). Qed.

Lemma length_slice inp s n : (s + n <= length inp)%nat -> length (slice inp s n) = n.
Proof. intros H. unfold slice. rewrite length_take, length_drop. lia. Qed.

Lemma copy_bytes_ok n r k s inp outs row : outs !! r = Some row -> (k + n <= length row)%nat -> (s + n <= length inp)%nat ->
  copy_bytes n r k s inp outs = Ok (<[r := overwrite row k (slice inp s n)]> outs).
Proof.
  revert k s outs row. induction n as [|n IH]; intros k s outs row E Hk Hs; cbn [copy_bytes].
  - change (slice inp s 0) with (@nil Z). by rewrite overwrite_nil, list_insert_id.
  - destruct (lookup_lt_is_Some_2 inp s) as [v Hv]; [lia|]. rewrite Hv. cbn [of_option mbind res_bind].
    rewrite (write_ok _ _ row) by (done || lia). cbn [mbind res_bind]. apply lookup_lt_Some in E as Hl.
    rewrite (IH (S k) _ _ (<[k := v]> row)) by (by rewrite ?list_lookup_insert_eq, ?length_insert; try lia).
    by rewrite list_insert_insert_eq, (slice_cons _ _ _ _ Hv), overwrite_cons by lia.
Qed.

(** The three bytes of the CRC behind [p] bytes of a row. *)
Definition crc_tail (v : Z) : list Z :=
  [u8 (Z.shiftr (Z.shiftr v 8) 16); u8 (Z.shiftr (Z.shiftr v 8) 8); u8 (Z.shiftr v 8)].

Definition row_ok (row : list Z) : Prop := (768 <= length row)%nat /\ Forall octet row.

Lemma message_bits_take p row : (p <= length row)%nat -> take (8 * p) (message_bits row) = message_bits (take p row).
Proof.
  intros Hp. rewrite <- (take_drop p row) at 1. rewrite message_bits_app, take_app_length'; [done|].
  rewrite message_bits_length, length_take. lia.
Qed.

Lemma crc24b_bytes row p : Forall octet row -> (p <= length row)%nat ->
  crc24b row (8 * Z.of_nat p) = Ok (lfsr poly24b (message_bits (take p row))).
Proof.
  intros Hr Hp. rewrite crc24b_computes by (done || lia). by replace (Z.to_nat (8 * Z.of_nat p)) with (8 * p)%nat by lia; rewrite message_bits_take.
Qed.

Lemma add_crc_ok r p outs row : outs !! r = Some row -> Forall octet row -> (p + 3 <= length row)%nat ->
  add_crc r (8 * Z.of_nat p) outs =
    Ok (<[r := overwrite row p (crc_tail (lfsr poly24b (message_bits (take p row))))]> outs).
Proof.
  intros E Hr Hp. unfold add_crc. rewrite E. cbn [of_option mbind res_bind]. rewrite crc24b_bytes by (done || lia). cbn [mbind res_bind].
  set (v := lfsr _ _). replace (Z.to_nat (Z.shiftr (8 * Z.of_nat p) 3)) with p by (rewrite Z.shiftr_div_pow2 by lia; change (2 ^ 3) with 8; div_lia).
  apply lookup_lt_Some in E as Hl. rewrite (write_ok _ _ row) by (done || lia). cbn [mbind res_bind].
  erewrite write_ok; [|by rewrite list_lookup_insert_eq|rewrite length_insert; lia]. cbn [mbind res_bind].
  erewrite write_ok; [|by rewrite list_lookup_insert_eq by (by rewrite length_insert)|rewrite !length_insert; lia].
  rewrite !list_insert_insert_eq. do 2 f_equal. unfold crc_tail. rewrite <- overwrite_cons by lia.
  rewrite <- overwrite_cons by (rewrite length_insert; lia). rewrite <- overwrite_cons by (rewrite !length_insert; lia).
  by rewrite overwrite_nil.
Qed.

Lemma crc_tail_bits v : message_bits (crc_tail v) = bits_of 24 (Z.shiftr v 8).
Proof.
  unfold message_bits, crc_tail. cbn [mbind list_bind app bits_of Z.of_nat Pos.of_succ_nat Pos.succ]. unfold u8.
  rewrite !Z.mod_pow2_bits_low, !Z.shiftr_spec by lia. reflexivity.
Qed.

Lemma take_overwrite row k new : (k <= length row)%nat -> take (k + length new) (overwrite row k new) = take k row ++ new.
Proof.
  intros Hk. unfold overwrite. rewrite app_assoc, take_app_length'; [done|]. rewrite length_app, length_take. lia.
Qed.

(** A message followed by its CRC has remainder zero. *)
Lemma crc24b_checks row p : Forall octet row -> (p + 3 <= length row)%nat ->
  let row' := overwrite row p (crc_tail (lfsr poly24b (message_bits (take p row)))) in
  lfsr poly24b (message_bits (take (p + 3) row')) = 0.
Proof.
  intros Hr Hp. set (v := lfsr poly24b (message_bits (take p row))). cbv zeta. change 3%nat with (length (crc_tail v)) at 1.
  rewrite take_overwrite by lia.
  rewrite message_bits_app, crc_tail_bits. unfold lfsr. rewrite foldl_app. fold (lfsr poly24b (message_bits (take p row))). fold v.
  assert (Hw : reg32 v) by (apply foldl_word; by split). assert (Hl : low_zero 8 v).
  { apply foldl_low; [by split|lia|by apply low_zero_mod|]. intros ? ?. apply Z.bits_0. }
  rewrite shift_in; [|by split|lia|].
  - replace (Z.shiftl (Z.shiftr v 8) (32 - Z.of_nat 24)) with v; [by rewrite Z.lxor_nilpotent, run_zero|].
    apply Z.bits_inj'. intros i Hi. change (32 - Z.of_nat 24) with 8. destruct (Z.lt_ge_cases i 8).
    + by rewrite Z.shiftl_spec_low, Hl by lia.
    + rewrite Z.shiftl_spec, Z.shiftr_spec by lia. f_equal. lia.
  - rewrite Z.shiftr_div_pow2 by lia. destruct Hw. split; [apply Z.div_pos; lia|]. apply Z.div_lt_upper_bound; lia.
Qed.

Lemma crc_tail_octets v : Forall octet (crc_tail v).
Proof. repeat constructor; apply u8_range. Qed.

Lemma row_ok_overwrite row k new : row_ok row -> Forall octet new -> (k + length new <= length row)%nat -> row_ok (overwrite row k new).
Proof.
  intros [H1 H2] Hn Hk. split; [by rewrite length_overwrite|]. unfold overwrite.
  apply Forall_app_2; [by apply Forall_take|]. apply Forall_app_2; [done|by apply Forall_drop].
Qed.

Lemma slice_app inp s a b : slice inp s a ++ slice inp (s + a) b = slice inp s (a + b).
Proof. unfold slice. by rewrite <- drop_drop, take_take_drop. Qed.

(** ** The loop over the blocks *)

Section Blocks.
Context (L : Z) (o : seg) (inp : list Z) (inp_octets : Forall octet inp).
#[local] Set Default Proof Using "All".

Definition bits_in (r : nat) : Z := if Z.of_nat r <? Cminus o then Kminus o else Kplus o.
Definition width (r : nat) : nat := Z.to_nat (Z.shiftr (u32 (bits_in r - L)) 3).

Fixpoint widths (r n : nat) : nat := match n with O => O | S n' => (width r + widths (S r) n')%nat end.

(** The bytes of the blocks [r ..], without the CRCs. *)
Fixpoint payload (outs : list (list Z)) (r n : nat) : list Z :=
  match n with O => [] | S n' => take (width r) (default [] (outs !! r)) ++ payload outs (S r) n' end.

(** A block of whole bytes that fits in a buffer. *)
Definition block_ok (r : nat) : Prop := bits_in r = L + 8 * Z.of_nat (width r) /\ bits_in r <= 6144.

Context (L_value : L = if 1 <? C o then 24 else 0).

Lemma fill_block r k s outs row : outs !! r = Some row -> row_ok row -> block_ok r -> (k <= width r)%nat ->
  (s + (width r - k) <= length inp)%nat ->
  exists row', (o1 ← copy_bytes (width r - k) r k s inp outs;
                (if 1 <? C o then add_crc r (u32 (bits_in r - 24)) o1 else Ok o1)) = Ok (<[r := row']> outs) /\
    row_ok row' /\ take (width r) row' = take k row ++ slice inp s (width r - k) /\
    (1 < C o -> crc24b row' (bits_in r) = Ok 0).
Proof.
  intros E [Hlen Hoct] [Hb Hmax] Hk Hs. set (new := slice inp s (width r - k)).
  assert (Hnew : length new = (width r - k)%nat) by (by apply length_slice).
  assert (Hno : Forall octet new) by (by apply Forall_take, Forall_drop).
  assert (Hw : (Z.of_nat (width r) * 8 + L <= 6144)) by lia.
  assert (H24 : L = 0 \/ L = 24) by (rewrite L_value; destruct (1 <? C o); auto).
  rewrite (copy_bytes_ok _ _ _ _ _ _ row) by (done || lia). cbn [mbind res_bind]. fold new. set (row1 := overwrite row k new).
  assert (Hr1 : row_ok row1) by (apply row_ok_overwrite; [done|done|lia]).
  assert (Ht1 : take (width r) row1 = take k row ++ new).
  { replace (width r) with (k + length new)%nat by lia. apply take_overwrite. lia. }
  rewrite L_value in Hb, Hw, H24. destruct (Z.ltb_spec 1 (C o)) as [HC|HC].
  - rewrite Hb. replace (24 + 8 * Z.of_nat (width r) - 24) with (8 * Z.of_nat (width r)) by lia.
    rewrite u32_small by (norm_pow; lia). apply lookup_lt_Some in E as Hr. destruct Hr1 as [Hl1 Ho1].
    rewrite (add_crc_ok _ _ _ row1) by (by rewrite ?list_lookup_insert_eq; try lia).
    rewrite list_insert_insert_eq. eexists. split; [reflexivity|]. set (v := lfsr _ _).
    assert (Hr2 : row_ok (overwrite row1 (width r) (crc_tail v))) by (apply row_ok_overwrite; [done|apply crc_tail_octets|simpl; lia]).
    split_and!; [done| |].
    + rewrite <- Ht1. unfold overwrite. rewrite take_app_le by (rewrite length_take; lia). by rewrite take_take, Nat.min_id.
    + intros _. replace (24 + 8 * Z.of_nat (width r)) with (8 * Z.of_nat (width r + 3)) by lia.
      rewrite crc24b_bytes; [|apply Hr2|destruct Hr2; lia]. f_equal. apply crc24b_checks; [done|lia].
  - eexists. split; [reflexivity|]. split_and!; [done|done|lia].
Qed.

Definition checked (outs : list (list Z)) (r : nat) : Prop :=
  1 < C o -> exists row, outs !! r = Some row /\ crc24b row (bits_in r) = Ok 0.

Lemma payload_kept outs outs' r n : (forall i, (r <= i)%nat -> outs' !! i = outs !! i) -> payload outs' r n = payload outs r n.
Proof. revert r. induction n as [|n IH]; intros r H; [done|]. cbn [payload]. rewrite H by done. f_equal. apply IH. intros. apply H. lia. Qed.

Lemma fill_blocks_ok n : forall r k s outs, (forall i, (r <= i < r + n)%nat -> block_ok i) ->
  (r + n <= length outs)%nat -> Forall row_ok outs -> (k <= match n with O => O | _ => width r end)%nat ->
  (s + (widths r n - k) <= length inp)%nat ->
  exists outs', fill_blocks n r k s L o inp outs = Ok outs' /\ Forall row_ok outs' /\ length outs' = length outs /\
    (forall i, (i < r)%nat -> outs' !! i = outs !! i) /\
    payload outs' r n = take k (default [] (outs !! r)) ++ slice inp s (widths r n - k) /\
    (forall i, (r <= i < r + n)%nat -> checked outs' i).
Proof.
  induction n as [|n IH]; intros r k s outs Hb Hlen Hrows Hk Hs.
  { assert (k = 0%nat) as -> by lia. exists outs. split_and!; try done. intros i Hi. lia. }
  destruct (lookup_lt_is_Some_2 outs r) as [row Er]; [lia|]. rewrite Er. change (default [] (Some row)) with row.
  assert (Hrow : row_ok row) by (by eapply Forall_lookup_1). cbn [widths] in *.
  destruct (fill_block r k s outs row) as (row' & E & Hr' & Ht & Hc); [done|done|apply Hb; lia|done|lia|].
  cbn [fill_blocks]. fold (bits_in r). fold (width r).
  destruct (copy_bytes (width r - k) r k s inp outs) as [o1|] eqn:E1; [|done]. cbn [mbind res_bind] in E |- *. rewrite E. cbn [mbind res_bind].
  destruct (IH (S r) 0%nat (s + (width r - k))%nat (<[r := row']> outs)) as (outs' & E' & Hrows' & Hlen' & Hkeep & Hpay & Hch).
  - intros i Hi. apply Hb. lia.
  - rewrite length_insert. lia.
  - by apply Forall_insert.
  - destruct n; lia.
  - lia.
  - exists outs'. assert (Hr : outs' !! r = Some row') by (rewrite Hkeep by lia; apply list_lookup_insert_eq; lia).
    split_and!; [done|done|by rewrite Hlen', length_insert| | |].
    + intros i Hi. rewrite Hkeep by lia. apply list_lookup_insert_ne. lia.
    + cbn [payload]. rewrite Hr, Hpay. change (default [] (Some row')) with row'. rewrite Ht, <- app_assoc. f_equal. change (take 0 _) with (@nil Z). cbn [app].
      rewrite slice_app. f_equal. lia.
    + intros i Hi. destruct (decide (i = r)) as [->|]; [|apply Hch; lia]. intros HC. exists row'. split; [done|by apply Hc].
Qed.

End Blocks.

Lemma turbo_size_bytes K : turbo_size K = true -> K mod 8 = 0 /\ 40 <= K <= 6144.
Proof. intros H%turbo_size_iff. div_lia. Qed.

(** How many of the blocks [r ..] have [Kminus] bits. *)
Definition small_blocks (p : seg) (r n : nat) : Z := Z.max 0 (Z.min (Z.of_nat n) (Cminus p - Z.of_nat r)).

Lemma widths_sum L p n : forall r, (forall i, (r <= i < r + n)%nat -> block_ok L p i) ->
  8 * Z.of_nat (widths L p r n) + Z.of_nat n * L =
  small_blocks p r n * Kminus p + (Z.of_nat n - small_blocks p r n) * Kplus p.
Proof.
  induction n as [|n IH]; intros r Hb.
  { unfold small_blocks. cbn [widths]. replace (Z.max 0 (Z.min (Z.of_nat 0) (Cminus p - Z.of_nat r))) with 0 by lia. lia. }
  cbn [widths]. specialize (IH (S r) ltac:(intros; apply Hb; lia)). destruct (Hb r ltac:(lia)) as [E _]. unfold bits_in in E.
  assert (Hsb : small_blocks p r (S n) = (if Z.of_nat r <? Cminus p then 1 else 0) + small_blocks p (S r) n).
  { unfold small_blocks. destruct (Z.ltb_spec (Z.of_nat r) (Cminus p)); lia. }
  rewrite Hsb. rewrite Nat2Z.inj_add, Nat2Z.inj_succ. set (m := small_blocks p (S r) n) in *. destruct (Z.of_nat r <? Cminus p); lia.
Qed.

Lemma bytes_of_bits x : 0 <= x -> x mod 8 = 0 -> 8 * Z.of_nat (Z.to_nat (Z.shiftr x 3)) = x.
Proof. intros H0 H8. rewrite Z.shiftr_div_pow2 by lia. change (2 ^ 3) with 8. div_lia. Qed.

(** With several blocks the sizes are in the range where they grow by 64. *)
Lemma several_sizes B p : segmented B p -> 6144 < B <= 97920 ->
  3072 <= Kminus p /\ F p < 64 /\ turbo_size (Kminus p) = true.
Proof.
  intros S HB. destruct (several_range B HB) as (Hc & Hb & _ & _). pose proof (sg_C _ _ S) as HC.
  destruct (sg_several _ _ S ltac:(lia)) as (Hm & Hlt & Hnext & HF). pose proof (sg_fits _ _ S) as Hfit. pose proof (sg_Kplus _ _ S) as Hk.
  assert (6120 * (blocks B - 1) < B) by (unfold blocks; rewrite (proj2 (Z.leb_gt B 6144)) by lia; div_lia).
  assert (Hk2 : 3072 < Kplus p) by nia. pose proof Hk as Hk'. apply turbo_size_iff in Hk'.
  assert (Hk64 : Kplus p mod 64 = 0) by lia.
  assert (turbo_size (Kplus p - 64) = true) as Ht by (apply turbo_size_iff; div_lia).
  assert (Kplus p - 64 <= Kminus p). { destruct (Z.le_gt_cases (Kplus p - 64) (Kminus p)); [done|]. specialize (Hnext _ Ht). lia. }
  split_and!; [div_lia|lia|done].
Qed.

(** The blocks of a segmentation are whole bytes, and together have room for
    the filler and for all the input. *)
Lemma segmented_blocks B p : segmented B p -> 0 < B <= 97920 -> B mod 8 = 0 ->
  crc_bits B = (if 1 <? C p then 24 else 0) /\
  (forall r, (r < Z.to_nat (C p))%nat -> block_ok (crc_bits B) p r) /\
  (Z.to_nat (Z.shiftr (F p) 3) <= width (crc_bits B) p 0)%nat /\
  widths (crc_bits B) p 0 (Z.to_nat (C p)) = (Z.to_nat (Z.shiftr (F p) 3) + Z.to_nat (B / 8))%nat.
Proof.
  intros S HB H8. destruct (block_count_spec B HB) as [_ Hc]. rewrite <- (sg_C _ _ S) in Hc.
  assert (HL : crc_bits B = (if 1 <? C p then 24 else 0)).
  { rewrite (sg_C _ _ S). unfold crc_bits. destruct (Z.leb_spec B 6144); [unfold blocks; by rewrite (proj2 (Z.leb_le B 6144)) by lia|].
    destruct (several_range B ltac:(lia)) as (? & _). by rewrite (proj2 (Z.ltb_lt 1 _)) by lia. }
  assert (HLv : crc_bits B = 0 \/ crc_bits B = 24) by (rewrite HL; destruct (1 <? C p); auto).
  assert (Hbits : forall r, turbo_size (bits_in p r) = true).
  { intros r. unfold bits_in. destruct (Z.ltb_spec (Z.of_nat r) (Cminus p)); [|apply S]. apply (sg_several _ _ S).
    destruct (decide (C p = 1)) as [E|]; [|lia]. apply (sg_one _ _ S) in E. lia. }
  assert (Hok : forall r, block_ok (crc_bits B) p r).
  { intros r. destruct (turbo_size_bytes _ (Hbits r)) as [Hm Hr]. split; [|lia]. unfold width. rewrite u32_small by (norm_pow; lia).
    rewrite bytes_of_bits; [lia|lia|]. destruct HLv as [-> | ->]; div_lia. }
  destruct (sg_filler _ _ S) as [HF HF0]. destruct (sg_split _ _ S) as (Hsp & _ & _).
  assert (HF8 : F p mod 8 = 0).
  { destruct (turbo_size_bytes _ (sg_Kplus _ _ S)) as [Hp _].
    assert (Hm : Cminus p * Kminus p mod 8 = 0).
    { destruct (decide (C p = 1)) as [E|]; [apply (sg_one _ _ S) in E as (_ & -> & _); done|].
      destruct (turbo_size_bytes (Kminus p)) as [Hm _]; [by apply (sg_several _ _ S); lia|]. rewrite Z.mul_mod, Hm, Z.mul_0_r by lia. done. }
    assert (HBp : Bprime B mod 8 = 0) by (unfold Bprime; destruct HLv as [-> | ->]; div_lia).
    assert (Hpp : Cplus p * Kplus p mod 8 = 0) by (rewrite Z.mul_mod, Hp, Z.mul_0_r by lia; done).
    set (x := Cplus p * Kplus p) in *. set (y := Cminus p * Kminus p) in *. div_lia. }
  pose proof (bytes_of_bits (F p) HF0 HF8) as HFb. set (k := Z.to_nat (Z.shiftr (F p) 3)) in *.
  split_and!; [done|auto| |].
  - destruct (Hok 0%nat) as [E _]. destruct (Z.le_gt_cases B 6144) as [Hs|Hs].
    + assert (C p = 1) as E1 by (rewrite (sg_C _ _ S); unfold blocks; by rewrite (proj2 (Z.leb_le B 6144))).
      destruct (sg_one _ _ S E1) as (Ecp & Ecm & Ekm). unfold bits_in in E. rewrite Ecm in E. simpl in E.
      unfold Bprime in HF. assert (crc_bits B = 0) by (unfold crc_bits; by rewrite (proj2 (Z.leb_le B 6144))). nia.
    + destruct (several_sizes B p S ltac:(lia)) as (Hkm & HF64 & _). destruct (sg_several _ _ S) as (_ & ? & _); [destruct (several_range B ltac:(lia)) as (? & _); rewrite (sg_C _ _ S); lia|].
      unfold bits_in in E. destruct (Z.of_nat 0 <? Cminus p); lia.
  - pose proof (widths_sum (crc_bits B) p (Z.to_nat (C p)) 0 ltac:(intros; apply Hok)) as W.
    assert (Hsb : small_blocks p 0 (Z.to_nat (C p)) = Cminus p) by (unfold small_blocks; destruct (sg_split _ _ S); lia).
    rewrite Hsb, Z2Nat.id in W by lia. unfold Bprime in HF. rewrite <- (sg_C _ _ S) in HF.
    replace (C p - Cminus p) with (Cplus p) in W by lia.
    assert (8 * Z.of_nat (Z.to_nat (B / 8)) = B) by div_lia. lia.
Qed.

(** The values the function gives when the sizes work out. *)
Lemma segmentation_values B o : 0 < B <= 97920 -> B mod 8 = 0 -> divides_well B ->
  exists p, segmented B p /\ forall inp outs, lte_segmentation inp outs B o =
    match inp, outs with
    | Some i, Some us =>
        let k := Z.to_nat (Z.shiftr (F p) 3) in
        u1 ← clear_bytes k 0 us;
        u2 ← fill_blocks (Z.to_nat (C p)) 0 k 0 (crc_bits B) p i u1;
        Ok (0, p, Some u2)
    | _, _ => Ok (0, p, outs)
    end.
Proof.
  intros HB H8 Hd. destruct (block_count_spec B HB) as [E Hc].
  assert (exists kp km, block_sizes (Bprime B / blocks B) = Some (kp, km) /\
    segmented B (share (Bprime B) (o <| C := blocks B |> <| Kplus := kp |> <| Kminus := km |>))) as (kp & km & Es & S).
  { destruct (Z.le_gt_cases B 6144) as [H|H].
    - assert (blocks B = 1 /\ Bprime B = B) as [-> ->] by (unfold Bprime, blocks, crc_bits; rewrite (proj2 (Z.leb_le B 6144)) by lia; lia).
      rewrite Z.div_1_r. destruct (block_sizes_spec B ltac:(lia) ltac:(done)) as (kp & km & Es & _). exists kp, km. split; [done|].
      apply share_one; [lia|done..].
    - destruct (several_range B ltac:(lia)) as (_ & _ & Hx & _).
      destruct (block_sizes_spec (Bprime B / blocks B)) as (kp & km & Es & _); [lia..|]. exists kp, km. split; [done|]. apply share_several; [lia|done..]. }
  exists (share (Bprime B) (o <| C := blocks B |> <| Kplus := kp |> <| Kminus := km |>)). split; [done|].
  intros inp outs. unfold lte_segmentation. rewrite E. unfold MAX_NUM_DLSCH_SEGMENTS.
  rewrite (proj2 (Z.ltb_ge 16 (blocks B))) by lia. rewrite Es. done.
Qed.

(** C31. Segmentation of a transport block. For every number [B] of bits that
    is a multiple of 8 and at most 97920, so that 16 code blocks are enough,
    and whose average block size is not rounded down onto a block size
    ([divides_well]: the number of blocks divides [B'], or the quotient is not
    a multiple of 64; outside of it see [lte_segmentation_wraps], where block
    counts wrap), [lte_segmentation] succeeds; the number of blocks, [Kplus]
    (the least interleaver size that fits), [Kminus] (the size before it),
    [Cplus], [Cminus] and [F] are those of 36.212 section 5.1.2; the blocks
    without their CRCs, read in order, are [F/8] zero bytes and then exactly
    the [B/8] bytes of the input; and with several blocks each block passes
    the CRC24B check. No write is outside the buffers of 768 bytes. *)
Theorem lte_segmentation_sound B inp outs o :
  0 < B <= 97920 -> B mod 8 = 0 -> divides_well B ->
  Forall octet inp -> B <= 8 * Z.of_nat (length inp) -> length outs = 16%nat -> Forall row_ok outs ->
  exists p outs', lte_segmentation (Some inp) (Some outs) B o = Ok (0, p, Some outs') /\ segmented B p /\
    payload (crc_bits B) p outs' 0 (Z.to_nat (C p)) =
      replicate (Z.to_nat (F p / 8)) 0 ++ take (Z.to_nat (B / 8)) inp /\
    (1 < C p -> forall r, (r < Z.to_nat (C p))%nat -> exists row, outs' !! r = Some row /\ crc24b row (bits_in p r) = Ok 0).
Proof.
  intros HB H8 Hd Hinp Hlen Houts Hrows. destruct (segmentation_values B o HB H8 Hd) as (p & S & E).
  destruct (segmented_blocks B p S HB H8) as (HL & Hok & Hk & HW). rewrite E. cbv zeta.
  assert (EF : Z.to_nat (F p / 8) = Z.to_nat (Z.shiftr (F p) 3)) by (by rewrite Z.shiftr_div_pow2).
  set (k := Z.to_nat (Z.shiftr (F p) 3)) in *.
  assert (Hc : 1 <= C p <= 16) by (rewrite (sg_C _ _ S); by apply block_count_spec).
  destruct (lookup_lt_is_Some_2 outs 0) as [row Er]; [lia|]. pose proof (Forall_lookup_1 _ _ _ _ Hrows Er) as [Hr1 Hr2].
  assert (Hk768 : (k <= 768)%nat). { destruct (Hok 0%nat ltac:(lia)). destruct (1 <? C p); lia. }
  rewrite (clear_bytes_ok _ _ _ row) by (done || lia). cbn [mbind res_bind].
  destruct (fill_blocks_ok (crc_bits B) p inp Hinp HL (Z.to_nat (C p)) 0 k 0 (<[0%nat := overwrite row 0 (replicate k 0)]> outs))
    as (outs' & -> & _ & _ & _ & Hp & Hch).
  - intros i Hi. apply Hok. lia.
  - rewrite length_insert. lia.
  - apply Forall_insert; [done|]. apply row_ok_overwrite; [done|apply Forall_replicate; by split|rewrite length_replicate; lia].
  - destruct (Z.to_nat (C p)) eqn:?; lia.
  - rewrite HW. pose proof (Z.div_mod B 8). lia.
  - exists p, outs'. split; [done|]. split_and!; [done| |].
    + rewrite Hp, list_lookup_insert_eq by lia. change (default [] (Some ?x)) with x.
      rewrite HW, EF. replace (k + Z.to_nat (B / 8) - k)%nat with (Z.to_nat (B / 8)) by lia. f_equal.
      rewrite <- (length_replicate k 0) at 1. apply (take_overwrite row 0 (replicate k 0)). lia.
    + intros H1 r Hr. apply (Hch r ltac:(lia) H1).
Qed.

Lemma lte_segmentation_sound_witness :
  (0 < 6200 <= 97920 /\ 6200 mod 8 = 0 /\ divides_well 6200 /\ Forall octet (replicate 775 7)) /\
  exists p outs', lte_segmentation (Some (replicate 775 7)) (Some (replicate 16 (replicate 768 0))) 6200 (mk_seg 0 0 0 0 0 0) = Ok (0, p, Some outs') /\
    segmented 6200 p.
Proof.
  assert (H1 : divides_well 6200) by (left; reflexivity). assert (H2 : Forall octet (replicate 775 7)) by (apply Forall_replicate; by split).
  split; [done|].
  destruct (lte_segmentation_sound 6200 (replicate 775 7) (replicate 16 (replicate 768 0)) (mk_seg 0 0 0 0 0 0)) as (p & outs' & E & S & _).
  - lia.
  - reflexivity.
  - exact H1.
  - exact H2.
  - rewrite length_replicate. lia.
  - apply length_replicate.
  - apply Forall_replicate. split; [rewrite length_replicate; lia|apply Forall_replicate; by split].
  - exists p, outs'. by split.
Defined.

(** The average block size is computed with a division that rounds down,
    so that it can be an interleaver size although the blocks of that size do
    not hold all the bits. For 49328 bits (a multiple of 8, 9 blocks) the
    subtraction [C*Kplus - Bprime] wraps: the function returns 0 (success)
    with 67108863 blocks of [Kminus] bits and 4227858442 of [Kplus] bits. *)
Theorem lte_segmentation_wraps :
  lte_segmentation None None 49328 (mk_seg 0 0 0 0 0 0) = Ok (0, mk_seg 9 4227858442 67108863 5504 5440 56, None).
Proof. reflexivity. Qed.

End SegmentationClaims.
