(* ===== verification/RlcAmStatus.v ===== *)
(** * STATUS PDUs of RLC AM

    openair2/LAYER2/RLC/AM_v9.3.0/rlc_am_status_report.c: the bit fields, the
    encoder and the decoder of a STATUS PDU.

    A pointer into a PDU is the index of a byte and a bit position in it. The
    array [nack_list] is the list of its first [num_nack] entries, at most
    [RLC_AM_MAX_NACK_IN_STATUS_PDU]. *)

From S2P Require Import Prelude.

Module RlcAmStatus.

Definition RLC_AM_SN_MODULO : Z := 1024.
Definition RLC_AM_SN_MASK : Z := 0x3FF.
Definition RLC_AM_MAX_NACK_IN_STATUS_PDU : nat := 1023.

(** ** Bit fields *)

Definition rd (buf : list Z) (i : nat) : res Z := of_option OutOfBounds (buf !! i).
Definition or_byte (buf : list Z) (i : nat) (v : Z) : res (list Z) :=
  b ← rd buf i; Ok (<[i := u8 (Z.lor b v)]> buf).

Record cursor : Type := mk_cursor { byte_pos : nat; bit_pos : Z }.

Fixpoint read_loop (fuel : nat) (buf : list Z) (c : cursor) (bits_to_read value : Z) : res (Z * cursor) :=
  match fuel with
  | O => Fault OutOfFuel
  | S fuel' =>
      b ← rd buf (byte_pos c);
      let bits_read := 8 - bit_pos c in
      let low := Z.land b (Z.shiftr 0x00FF (bit_pos c)) in
      if bits_to_read <? bits_read then
        Ok (u16 (Z.lor (Z.shiftl value bits_to_read) (Z.shiftr low (bits_read - bits_to_read))),
            mk_cursor (byte_pos c) (bit_pos c + bits_to_read))
      else if bits_read =? bits_to_read then
        Ok (u16 (Z.lor (Z.shiftl value bits_to_read) low), mk_cursor (S (byte_pos c)) 0)
      else
        let value' := u16 (Z.lor (Z.shiftl value bits_read) low) in
        let c' := mk_cursor (S (byte_pos c)) 0 in
        if 0 <? bits_to_read - bits_read then read_loop fuel' buf c' (bits_to_read - bits_read) value'
        else Ok (value', c')
  end.

(** Every round reads a bit, and a value has at most 16. *)
Definition rlc_am_read_bit_field (buf : list Z) (c : cursor) (bits_to_read : Z) : res (Z * cursor) :=
  read_loop 16 buf c bits_to_read 0.

Fixpoint write_loop (fuel : nat) (buf : list Z) (c : cursor) (bits_to_write valueP : Z) : res (list Z * cursor) :=
  match fuel with
  | O => Fault OutOfFuel
  | S fuel' =>
      let available_bits := 8 - bit_pos c in
      if bits_to_write <? available_bits then
        buf' ← or_byte buf (byte_pos c)
                 (Z.shiftl (Z.land valueP (Z.shiftr 0xFF (available_bits - bits_to_write))) (available_bits - bits_to_write));
        Ok (buf', mk_cursor (byte_pos c) (bit_pos c + bits_to_write))
      else if available_bits =? bits_to_write then
        buf' ← or_byte buf (byte_pos c) (Z.land valueP (Z.shiftr 0xFF (8 - bits_to_write)));
        Ok (buf', mk_cursor (S (byte_pos c)) 0)
      else
        buf' ← or_byte buf (byte_pos c) (Z.shiftr valueP (bits_to_write - available_bits));
        let c' := mk_cursor (S (byte_pos c)) 0 in
        if 0 <? bits_to_write - available_bits then write_loop fuel' buf' c' (bits_to_write - available_bits) valueP
        else Ok (buf', c')
  end.

Definition rlc_am_write8_bit_field (buf : list Z) (c : cursor) (bits_to_write valueP : Z) : res (list Z * cursor) :=
  write_loop 8 buf c bits_to_write valueP.

Definition rlc_am_write16_bit_field (buf : list Z) (c : cursor) (bits_to_write valueP : Z) : res (list Z * cursor) :=
  _ ← assert_fatal (bits_to_write <=? 16);
  if 8 <? bits_to_write then
    '(buf', c') ← rlc_am_write8_bit_field buf c (bits_to_write - 8) (u8 (Z.shiftr valueP 8));
    rlc_am_write8_bit_field buf' c' 8 (u8 (Z.land valueP 0x00FF))
  else rlc_am_write8_bit_field buf c bits_to_write (u8 (Z.land valueP 0x00FF)).

(** ** STATUS PDU *)

(** The members are bit fields of 10, 1, 1, 15 and 15 bits. *)
Record nack_sn_t : Type := mk_nack { nack_sn : Z; e1 : Z; e2 : Z; so_start : Z; so_end : Z }.
#[export] Instance nack_settable : Settable nack_sn_t :=
  fun n => mk_nack (nack_sn n) (e1 n) (e2 n) (so_start n) (so_end n).

Record rlc_am_control_pdu_info_t : Type := mk_info {
  d_c : Z; cpt : Z; ack_sn : Z; info_e1 : Z; nack_list : list nack_sn_t
}.
#[export] Instance info_settable : Settable rlc_am_control_pdu_info_t :=
  fun i => mk_info (d_c i) (cpt i) (ack_sn i) (info_e1 i) (nack_list i).

Definition num_nack (i : rlc_am_control_pdu_info_t) : nat := length (nack_list i).

(** Bytes from the start of the PDU to the cursor, the last one counted whole. *)
Definition bytes_to (c : cursor) : Z := Z.of_nat (byte_pos c) + (bit_pos c + 7) / 8.

Definition read_nack (buf : list Z) (c : cursor) : res (nack_sn_t * cursor) :=
  '(sn, c1) ← rlc_am_read_bit_field buf c 10;
  '(x1, c2) ← rlc_am_read_bit_field buf c1 1;
  '(x2, c3) ← rlc_am_read_bit_field buf c2 1;
  if negb (x2 =? 0) then
    '(st, c4) ← rlc_am_read_bit_field buf c3 15;
    '(en, c5) ← rlc_am_read_bit_field buf c4 15;
    Ok (mk_nack sn x1 x2 st en, c5)
  else Ok (mk_nack sn x1 x2 0 0x7FFF, c3).

(** [while (nack_to_read)]: at most [RLC_AM_MAX_NACK_IN_STATUS_PDU] rounds. *)
Fixpoint read_nacks (fuel : nat) (buf : list Z) (c : cursor) (i : rlc_am_control_pdu_info_t)
    : res (Z * cursor * rlc_am_control_pdu_info_t) :=
  match fuel with
  | O => Fault OutOfFuel
  | S fuel' =>
      '(n, c') ← read_nack buf c;
      let i' := i <| nack_list := nack_list i ++ [n] |> in
      if e1 n =? 0 then Ok (0, c', i')
      else if (num_nack i' =? RLC_AM_MAX_NACK_IN_STATUS_PDU)%nat then Ok (-2, c', i')
      else read_nacks fuel' buf c' i'
  end.

(** The result has the return value, [*total_size_pP] and [*pdu_info_pP]. *)
Definition rlc_am_get_control_pdu_infos (buf : list Z) (total_size : Z) : res (Z * Z * rlc_am_control_pdu_info_t) :=
  let zero := mk_info 0 0 0 0 [] in
  b1 ← rd buf 0;
  let i := zero <| d_c := Z.shiftr b1 7 |> in
  if d_c i =? 0 then
    let i := i <| cpt := Z.land (Z.shiftr b1 4) 0x07 |> in
    if negb (cpt i =? 0) then Ok (-3, total_size, i)
    else
      b2 ← rd buf 1;
      let i := i <| ack_sn := Z.lor (Z.land (Z.shiftr b2 2) 0x3F) (Z.shiftl (Z.land b1 0x0F) 6) |>
                 <| info_e1 := Z.land (Z.shiftr b2 1) 0x01 |> in
      if negb (info_e1 i =? 0) then
        '(rc, c, i') ← read_nacks RLC_AM_MAX_NACK_IN_STATUS_PDU buf (mk_cursor 1 7) i;
        Ok (rc, total_size - bytes_to c, i')
      else Ok (0, total_size - 2, i)
  else Ok (-1, total_size, i).

Definition write_nack (buf : list Z) (c : cursor) (n : nack_sn_t) : res (list Z * cursor) :=
  '(b1, c1) ← rlc_am_write16_bit_field buf c 10 (nack_sn n);
  '(b2, c2) ← rlc_am_write8_bit_field b1 c1 1 (e1 n);
  '(b3, c3) ← rlc_am_write8_bit_field b2 c2 1 (e2 n);
  if 0 <? e2 n then
    '(b4, c4) ← rlc_am_write16_bit_field b3 c3 15 (so_start n);
    rlc_am_write16_bit_field b4 c4 15 (so_end n)
  else Ok (b3, c3).

Fixpoint write_nacks (buf : list Z) (c : cursor) (l : list nack_sn_t) : res (list Z * cursor) :=
  match l with
  | [] => Ok (buf, c)
  | n :: r => '(buf', c') ← write_nack buf c n; write_nacks buf' c' r
  end.

(** The result has [num_bytes] and the bytes of the block. *)
Definition rlc_am_write_status_pdu (buf : list Z) (i : rlc_am_control_pdu_info_t) : res (Z * list Z) :=
  '(b1, c1) ← rlc_am_write16_bit_field buf (mk_cursor 0 4) 10 (ack_sn i);
  '(b2, c2) ← rlc_am_write8_bit_field b1 c1 1 (if (0 <? num_nack i)%nat then 1 else 0);
  '(b3, c3) ← write_nacks b2 c2 (nack_list i);
  Ok (Z.of_nat (byte_pos c3) + (if 0 <? bit_pos c3 then 1 else 0), b3).

End RlcAmStatus.
