(* ===== verification/RlcAmCodec.v ===== *)
(** * The bit fields of a STATUS PDU

    Writing appends the bits of the value to the bits written so far, and
    reading gives back the value whose bits are at the cursor; a STATUS PDU is
    therefore read as it was written. *)

From S2P Require Import Prelude Bits RlcAmStatus.
Import Bits RlcAmStatus.

Module RlcAmCodec.

Definition byte (b : Z) : Prop := 0 <= b < 2 ^ 8.

(** The cursor is [P] bits from the start. *)
Definition stands_at (c : cursor) (P : nat) : Prop :=
  0 <= bit_pos c < 8 /\ Z.of_nat P = 8 * Z.of_nat (byte_pos c) + bit_pos c.

(** The bits [bs] are written, the others are zero. *)
Definition written (buf : list Z) (bs : list bool) : Prop :=
  Forall byte buf /\ exists k, message_bits buf = bs ++ replicate k false.

Lemma value_bits v k i : 0 <= v < 2 ^ k -> k <= i -> 0 <= k -> Z.testbit v i = false.
Proof. intros Hv Hi Hk. rewrite <- (Z.mod_small v _ Hv). apply Z.mod_pow2_bits_high. lia. Qed.

(** ** One byte *)

(** A byte whose last [avail] bits are free takes [m] bits. *)
Lemma or_bits b t avail m w : (length t + avail)%nat = 8%nat -> bits_of 8 b = t ++ replicate avail false ->
  0 <= w < 2 ^ Z.of_nat m -> (m <= avail)%nat ->
  bits_of 8 (u8 (Z.lor b (Z.shiftl w (Z.of_nat (avail - m))))) = t ++ bits_of m w ++ replicate (avail - m) false.
Proof.
  intros Hl Hb Hw Hm. unfold u8. rewrite (bits_of_mod 8 _ 8) by lia.
  assert (Hfree : forall i, 0 <= i < Z.of_nat avail -> Z.testbit b i = false).
  { intros i Hi. apply (f_equal (lookup (7 - Z.to_nat i)%nat)) in Hb. rewrite lookup_bits_of, lookup_app_r, lookup_replicate_2 in Hb by lia.
    replace (Z.of_nat (8 - 1 - (7 - Z.to_nat i))) with i in Hb by lia. by injection Hb. }
  apply list_eq_same_length with 8%nat; [by rewrite !length_app, length_bits_of, length_replicate; lia|apply length_bits_of|].
  intros i x y Hi. rewrite lookup_bits_of by done. rewrite Z.lor_spec. set (p := Z.of_nat (8 - 1 - i)).
  intros Hy Hx. injection Hy as <-. destruct (decide (i < length t)%nat).
  - rewrite lookup_app_l in Hx by done. assert (E : bits_of 8 b !! i = t !! i) by (by rewrite Hb, lookup_app_l).
    rewrite lookup_bits_of, Hx in E by lia. injection E as <-. fold p. rewrite Z.shiftl_spec by lia.
    rewrite (value_bits w (Z.of_nat m)) by lia. by rewrite orb_false_r.
  - rewrite lookup_app_r in Hx by lia. rewrite Hfree by lia. cbn [orb]. destruct (decide (i - length t < m)%nat).
    + rewrite lookup_app_l, lookup_bits_of in Hx by (rewrite ?length_bits_of; lia). injection Hx as <-.
      rewrite Z.shiftl_spec by lia. f_equal. lia.
    + rewrite lookup_app_r, length_bits_of in Hx by (rewrite length_bits_of; lia). rewrite lookup_replicate_2 in Hx by lia. injection Hx as <-.
      apply Z.shiftl_spec_low. lia.
Qed.

(** The byte at the cursor. *)
Lemma cursor_byte buf bs c : written buf bs -> stands_at c (length bs) -> (length bs < length (message_bits buf))%nat ->
  exists pre b post t, buf = pre ++ b :: post /\ byte_pos c = length pre /\ length t = Z.to_nat (bit_pos c) /\
    bs = message_bits pre ++ t /\ bits_of 8 b = t ++ replicate (8 - length t) false /\
    exists k, message_bits post = replicate k false.
Proof.
  intros [Hb [k Hk]] [Hc HP] Hroom. rewrite message_bits_length in Hroom.
  destruct (lookup_lt_is_Some_2 buf (byte_pos c)) as [b Eb]; [lia|].
  set (pre := take (byte_pos c) buf). set (post := drop (S (byte_pos c)) buf).
  assert (Hbuf : buf = pre ++ b :: post) by (symmetry; by apply take_drop_middle).
  assert (Hpre : length pre = byte_pos c) by (unfold pre; rewrite length_take; lia).
  rewrite Hbuf, message_bits_app, message_bits_cons in Hk. set (r := Z.to_nat (bit_pos c)).
  assert (Hlp : length (message_bits pre) = (8 * byte_pos c)%nat) by (by rewrite message_bits_length, Hpre).
  exists pre, b, post, (take r (bits_of 8 b)).
  assert (Ht : length (take r (bits_of 8 b)) = r) by (rewrite length_take, length_bits_of; lia).
  assert (Hbs : bs = message_bits pre ++ take r (bits_of 8 b)).
  { apply (f_equal (take (length bs))) in Hk. rewrite (take_app_length' bs) in Hk by done. rewrite <- Hk.
    rewrite take_app, Hlp. f_equal; [apply firstn_all2; lia|]. replace (length bs - 8 * byte_pos c)%nat with r by lia.
    rewrite take_app_le; [done|]. rewrite length_bits_of. lia. }
  assert (Hrest : drop r (bits_of 8 b) ++ message_bits post = replicate k false).
  { rewrite Hbs, <- app_assoc in Hk. apply app_inv_head in Hk. rewrite <- (take_drop r (bits_of 8 b)) in Hk at 1.
    rewrite <- app_assoc in Hk. by apply app_inv_head in Hk. }
  split_and!; try done.
  - rewrite <- (take_drop r (bits_of 8 b)) at 1. rewrite Ht. f_equal.
    apply (f_equal (take (8 - r))) in Hrest. rewrite take_app_length', take_replicate in Hrest by (rewrite length_drop, length_bits_of; lia).
    rewrite Hrest. f_equal. apply (f_equal length) in Hrest. rewrite length_drop, length_bits_of, length_replicate in Hrest. lia.
  - exists (length (message_bits post)). apply (f_equal (drop (8 - r))) in Hrest.
    rewrite drop_app_length', drop_replicate in Hrest by (rewrite length_drop, length_bits_of; lia). rewrite Hrest. by rewrite length_replicate.
Qed.

(** One [or] into the byte at the cursor. *)
Lemma or_byte_ok buf bs c m w : written buf bs -> stands_at c (length bs) ->
  (length bs + m <= length (message_bits buf))%nat -> Z.of_nat m <= 8 - bit_pos c -> 0 <= w < 2 ^ Z.of_nat m -> (0 < m)%nat ->
  exists buf', or_byte buf (byte_pos c) (Z.shiftl w (8 - bit_pos c - Z.of_nat m)) = Ok buf' /\
    written buf' (bs ++ bits_of m w) /\ length buf' = length buf.
Proof.
  intros W Hc Hroom Hm Hw Hpos. destruct (cursor_byte buf bs c W Hc) as (pre & b & post & t & -> & Hp & Ht & Ebs & Hb & k & Hpost); [lia|].
  destruct Hc as [Hc HP]. unfold or_byte, rd. rewrite Hp, list_lookup_middle by done. cbn [of_option mbind res_bind].
  eexists. split; [reflexivity|]. rewrite insert_app_r_alt by lia. rewrite Nat.sub_diag. cbn [insert list_insert].
  split; [|by rewrite !length_app].
  assert (Hw8 : bits_of 8 (u8 (Z.lor b (Z.shiftl w (8 - bit_pos c - Z.of_nat m)))) =
    t ++ bits_of m w ++ replicate (8 - length t - m) false).
  { replace (8 - bit_pos c - Z.of_nat m) with (Z.of_nat (8 - length t - m)) by lia. apply or_bits; try done; lia. }
  split.
  - destruct W as [W _]. apply Forall_app in W as [W1 W2]. apply Forall_app. split; [done|]. apply Forall_cons in W2 as [_ W2].
    apply Forall_cons. split; [apply u8_range|done].
  - exists (8 - length t - m + k)%nat. rewrite message_bits_app, message_bits_cons, Hw8, Hpost, Ebs, replicate_add, <- !app_assoc. done.
Qed.

Lemma stands_next c P m : stands_at c P -> 0 < m <= 8 - bit_pos c ->
  stands_at (if m <? 8 - bit_pos c then mk_cursor (byte_pos c) (bit_pos c + m) else mk_cursor (S (byte_pos c)) 0) (P + Z.to_nat m).
Proof. intros [H1 H2] Hm. unfold stands_at. destruct (Z.ltb_spec m (8 - bit_pos c)); cbn [byte_pos bit_pos]; lia. Qed.

Lemma mask_ones v k : 0 <= k <= 8 -> Z.land v (Z.shiftr 0xFF k) = v mod 2 ^ (8 - k).
Proof.
  intros Hk. replace (Z.shiftr 255 k) with (Z.ones (8 - k)); [by rewrite Z.land_ones by lia|].
  change 255 with (Z.ones 8). apply Z.bits_inj'. intros i Hi. rewrite Z.shiftr_spec by done. destruct (Z.lt_ge_cases i (8 - k)).
  - by rewrite !Z.ones_spec_low by lia.
  - by rewrite !Z.ones_spec_high by lia.
Qed.

(** The rest of a value after its first bits, or a value that has no more
    bits than are written. *)
Lemma write_last fuel buf bs c n v : written buf bs -> stands_at c (length bs) -> (0 < n)%nat ->
  (length bs + n <= length (message_bits buf))%nat -> Z.of_nat n <= 8 - bit_pos c -> 0 <= v ->
  (v < 2 ^ Z.of_nat n \/ bit_pos c = 0) ->
  exists buf' c', write_loop (S fuel) buf c (Z.of_nat n) v = Ok (buf', c') /\
    written buf' (bs ++ bits_of n v) /\ length buf' = length buf /\ stands_at c' (length bs + n).
Proof.
  intros W Hc Hn Hroom Hfit Hv Hval. cbn [write_loop].
  assert (Hmod : 0 <= v mod 2 ^ Z.of_nat n < 2 ^ Z.of_nat n) by (apply Z.mod_pos_bound; lia).
  destruct (or_byte_ok buf bs c n (v mod 2 ^ Z.of_nat n) W Hc Hroom Hfit Hmod Hn) as (buf' & E & W' & Hl).
  rewrite bits_of_mod in W' by lia. pose proof (stands_next c _ (Z.of_nat n) Hc ltac:(lia)) as Hs. rewrite Nat2Z.id in Hs.
  destruct Hc as [Hc _]. destruct (Z.ltb_spec (Z.of_nat n) (8 - bit_pos c)).
  - rewrite mask_ones by lia.
    replace (v mod 2 ^ (8 - (8 - bit_pos c - Z.of_nat n))) with (v mod 2 ^ Z.of_nat n).
    + rewrite E. cbn [mbind res_bind]. eauto 10.
    + destruct Hval as [Hval|Hval]; [|f_equal; f_equal; lia]. rewrite Z.mod_small by lia. symmetry. apply Z.mod_small.
      split; [lia|]. eapply Z.lt_le_trans; [exact Hval|]. apply Z.pow_le_mono_r; lia.
  - assert (Z.of_nat n = 8 - bit_pos c) as En by lia. rewrite (proj2 (Z.eqb_eq _ _)) by lia. rewrite mask_ones by lia.
    replace (8 - (8 - Z.of_nat n)) with (Z.of_nat n) by lia. rewrite <- En, Z.sub_diag, Z.shiftl_0_r in E. rewrite E. cbn [mbind res_bind]. eauto 10.
Qed.

Lemma write8_ok buf bs c n v : written buf bs -> stands_at c (length bs) -> (0 < n <= 8)%nat ->
  (length bs + n <= length (message_bits buf))%nat -> 0 <= v < 2 ^ Z.of_nat n ->
  exists buf' c', rlc_am_write8_bit_field buf c (Z.of_nat n) v = Ok (buf', c') /\
    written buf' (bs ++ bits_of n v) /\ length buf' = length buf /\ stands_at c' (length bs + n).
Proof.
  intros W Hc Hn Hroom Hv. unfold rlc_am_write8_bit_field. destruct (Z.le_gt_cases (Z.of_nat n) (8 - bit_pos c)) as [Hfit|Hfit].
  { apply write_last; try done; lia. }
  pose proof Hc as [Hb _]. set (a := (8 - Z.to_nat (bit_pos c))%nat). set (m := (n - a)%nat).
  assert (Hs : 0 <= Z.shiftr v (Z.of_nat m) < 2 ^ Z.of_nat a).
  { rewrite Z.shiftr_div_pow2 by lia. split; [apply Z.div_pos; lia|]. apply Z.div_lt_upper_bound; [lia|]. rewrite <- Z.pow_add_r by lia.
    replace (Z.of_nat m + Z.of_nat a) with (Z.of_nat n) by lia. lia. }
  destruct (or_byte_ok buf bs c a (Z.shiftr v (Z.of_nat m)) W Hc) as (b1 & E & W1 & Hl1); [lia|lia|done|lia|].
  replace (8 - bit_pos c - Z.of_nat a) with 0 in E by lia. rewrite Z.shiftl_0_r in E.
  pose proof (stands_next c _ (8 - bit_pos c) Hc ltac:(lia)) as Hs1. rewrite Z.ltb_irrefl in Hs1.
  destruct (write_last 6 b1 (bs ++ bits_of a (Z.shiftr v (Z.of_nat m))) (mk_cursor (S (byte_pos c)) 0) m v) as (b2 & c2 & E2 & W2 & Hl2 & Hs2); try done; try lia.
  - rewrite length_app, length_bits_of. by replace (length bs + a)%nat with (length bs + Z.to_nat (8 - bit_pos c))%nat by lia.
  - rewrite length_app, length_bits_of, message_bits_length, Hl1, <- message_bits_length. lia.
  - cbn. lia.
  - by right.
  - exists b2, c2. cbn [write_loop]. rewrite (proj2 (Z.ltb_ge _ _)), (proj2 (Z.eqb_neq _ _)) by lia.
    replace (Z.of_nat n - (8 - bit_pos c)) with (Z.of_nat m) by lia. rewrite E. cbn [mbind res_bind]. rewrite (proj2 (Z.ltb_lt 0 _)) by lia.
    split_and!; [exact E2| |lia|].
    + rewrite <- app_assoc, <- bits_of_split in W2. by replace n with (a + m)%nat by lia.
    + rewrite length_app, length_bits_of in Hs2. by replace (length bs + n)%nat with (length bs + a + m)%nat by lia.
Qed.

Lemma write16_ok buf bs c n v : written buf bs -> stands_at c (length bs) -> (0 < n <= 16)%nat ->
  (length bs + n <= length (message_bits buf))%nat -> 0 <= v < 2 ^ Z.of_nat n ->
  exists buf' c', rlc_am_write16_bit_field buf c (Z.of_nat n) v = Ok (buf', c') /\
    written buf' (bs ++ bits_of n v) /\ length buf' = length buf /\ stands_at c' (length bs + n).
Proof.
  intros W Hc Hn Hroom Hv. unfold rlc_am_write16_bit_field, assert_fatal. rewrite (proj2 (Z.leb_le _ 16)) by lia. cbn [mbind res_bind].
  assert (Hl8 : Z.land v 255 = v mod 2 ^ 8) by apply (Z.land_ones v 8 ltac:(lia)).
  destruct (Z.ltb_spec 8 (Z.of_nat n)) as [H8|H8].
  - set (a := (n - 8)%nat). assert (Hs : 0 <= Z.shiftr v 8 < 2 ^ Z.of_nat a).
    { rewrite Z.shiftr_div_pow2 by lia. split; [apply Z.div_pos; lia|]. apply Z.div_lt_upper_bound; [lia|]. rewrite <- Z.pow_add_r by lia.
      replace (8 + Z.of_nat a) with (Z.of_nat n) by lia. lia. }
    assert (2 ^ Z.of_nat a <= 2 ^ 8) by (apply Z.pow_le_mono_r; lia). rewrite (u8_small (Z.shiftr v 8)) by lia.
    replace (Z.of_nat n - 8) with (Z.of_nat a) by lia.
    destruct (write8_ok buf bs c a (Z.shiftr v 8)) as (b1 & c1 & -> & W1 & Hl1 & Hs1); try done; try lia. cbn [mbind res_bind].
    destruct (write8_ok b1 (bs ++ bits_of a (Z.shiftr v 8)) c1 8 (u8 (Z.land v 255))) as (b2 & c2 & E2 & W2 & Hl2 & Hs2); try done; try lia.
    + by rewrite length_app, length_bits_of.
    + rewrite length_app, length_bits_of, message_bits_length, Hl1, <- message_bits_length. lia.
    + apply u8_range.
    + exists b2, c2. split_and!; [exact E2| |lia|].
      * unfold u8 in W2. rewrite Hl8, !(bits_of_mod 8) in W2 by lia. rewrite <- app_assoc in W2. change 8 with (Z.of_nat 8) in W2 at 1.
        rewrite <- (bits_of_split a 8) in W2. by replace n with (a + 8)%nat by lia.
      * rewrite length_app, length_bits_of in Hs2. by replace (length bs + n)%nat with (length bs + a + 8)%nat by lia.
  - assert (2 ^ Z.of_nat n <= 2 ^ 8) by (apply Z.pow_le_mono_r; lia). rewrite Hl8. unfold u8. rewrite !Z.mod_small by (rewrite ?Z.mod_small by lia; lia).
    by apply write8_ok; try lia.
Qed.

(** ** Reading *)

Lemma join_bits value x n : 0 <= value -> 0 <= x < 2 ^ Z.of_nat n -> value < 2 ^ (16 - Z.of_nat n) -> (n <= 16)%nat ->
  u16 (Z.lor (Z.shiftl value (Z.of_nat n)) x) = value * 2 ^ Z.of_nat n + x.
Proof.
  intros Hv Hx Hlt Hn. rewrite Z.shiftl_mul_pow2 by lia. rewrite (lor_disjoint _ _ (Z.of_nat n)); [|lia|done|apply Z.mod_mul; lia].
  apply u16_small. assert (E : 2 ^ 16 = 2 ^ (16 - Z.of_nat n) * 2 ^ Z.of_nat n) by (rewrite <- Z.pow_add_r by lia; f_equal; lia).
  rewrite E. nia.
Qed.

(** The bits from the cursor on start with the low bits of its byte. *)
Lemma cursor_bits buf c P : stands_at c P -> (P < 8 * length buf)%nat ->
  exists b rest, buf !! byte_pos c = Some b /\ drop P (message_bits buf) = bits_of (8 - Z.to_nat (bit_pos c)) b ++ rest /\
    forall P', stands_at (mk_cursor (S (byte_pos c)) 0) P' -> rest = drop P' (message_bits buf).
Proof.
  intros [Hc HP] Hlen. destruct (lookup_lt_is_Some_2 buf (byte_pos c)) as [b Eb]; [lia|].
  set (pre := take (byte_pos c) buf). set (post := drop (S (byte_pos c)) buf).
  assert (Hbuf : buf = pre ++ b :: post) by (symmetry; by apply take_drop_middle).
  assert (Hpre : length pre = byte_pos c) by (unfold pre; rewrite length_take; lia).
  assert (Hlp : length (message_bits pre) = (8 * byte_pos c)%nat) by (by rewrite message_bits_length, Hpre).
  exists b, (message_bits post). split; [done|].
  assert (Em : message_bits buf = message_bits pre ++ bits_of 8 b ++ message_bits post) by (by rewrite Hbuf, message_bits_app, message_bits_cons).
  rewrite Em. set (r := Z.to_nat (bit_pos c)). split.
  - rewrite drop_app, drop_ge, app_nil_l by lia. replace (P - length (message_bits pre))%nat with r by lia.
    rewrite drop_app_le by (rewrite length_bits_of; lia). f_equal.
    replace (bits_of 8 b) with (bits_of r (Z.shiftr b (Z.of_nat (8 - r))) ++ bits_of (8 - r) b)
      by (rewrite <- bits_of_split; f_equal; lia).
    by rewrite drop_app_length' by (by rewrite length_bits_of).
  - intros P' [_ HP']. cbn [byte_pos bit_pos] in HP'. rewrite app_assoc, drop_app_length'; [done|]. rewrite length_app, length_bits_of. lia.
Qed.

Lemma read_loop_ok fuel : forall buf n value c P, Forall byte buf -> stands_at c P -> (P + n <= 8 * length buf)%nat -> (0 < n <= fuel)%nat ->
  (n <= 16)%nat -> 0 <= value < 2 ^ (16 - Z.of_nat n) ->
  exists x c', read_loop fuel buf c (Z.of_nat n) value = Ok (value * 2 ^ Z.of_nat n + x, c') /\ 0 <= x < 2 ^ Z.of_nat n /\
    bits_of n x = take n (drop P (message_bits buf)) /\ stands_at c' (P + n).
Proof.
  induction fuel as [|fuel IH]; intros buf n value c P Hb Hc Hroom Hn H16 Hv; [lia|].
  destruct (cursor_bits buf c P Hc) as (b & rest & Eb & Ebits & Hrest); [lia|].
  assert (Hbb : byte b) by (by eapply Forall_lookup_1). pose proof Hc as [Hpos HP].
  set (a := (8 - Z.to_nat (bit_pos c))%nat) in *. set (low := b mod 2 ^ Z.of_nat a).
  assert (Hlow : 0 <= low < 2 ^ Z.of_nat a) by (apply Z.mod_pos_bound; lia).
  assert (Hlb : bits_of a low = bits_of a b) by (by apply bits_of_mod).
  cbn [read_loop]. unfold rd. rewrite Eb. cbn [of_option mbind res_bind]. rewrite mask_ones by lia.
  replace (8 - bit_pos c) with (Z.of_nat a) by lia. fold low.
  pose proof (stands_next c P) as Hs. replace (8 - bit_pos c) with (Z.of_nat a) in Hs by lia. rewrite Ebits.
  destruct (Z.ltb_spec (Z.of_nat n) (Z.of_nat a)) as [Hlt|Hge].
  - specialize (Hs (Z.of_nat n) Hc ltac:(lia)). rewrite (proj2 (Z.ltb_lt (Z.of_nat n) (Z.of_nat a))), Nat2Z.id in Hs by done.
    assert (Hx : 0 <= Z.shiftr low (Z.of_nat a - Z.of_nat n) < 2 ^ Z.of_nat n).
    { rewrite Z.shiftr_div_pow2 by lia. split; [apply Z.div_pos; lia|]. apply Z.div_lt_upper_bound; [lia|]. rewrite <- Z.pow_add_r by lia.
      replace (Z.of_nat a - Z.of_nat n + Z.of_nat n) with (Z.of_nat a) by lia. lia. }
    exists (Z.shiftr low (Z.of_nat a - Z.of_nat n)). eexists. rewrite join_bits by (done || lia). split; [reflexivity|]. split_and!; try done; try lia.
    rewrite <- Hlb, take_app_le by (rewrite length_bits_of; lia).
    replace (bits_of a low) with (bits_of n (Z.shiftr low (Z.of_nat (a - n))) ++ bits_of (a - n) low) by (rewrite <- bits_of_split; f_equal; lia).
    rewrite take_app_length' by (by rewrite length_bits_of). f_equal. f_equal. lia.
  - destruct (Z.eqb_spec (Z.of_nat a) (Z.of_nat n)) as [Ean|Hne].
    + assert (n = a) as -> by lia. specialize (Hs (Z.of_nat a) Hc ltac:(lia)). rewrite Z.ltb_irrefl, Nat2Z.id in Hs.
      exists low. eexists. rewrite join_bits by (done || lia). split; [reflexivity|]. split_and!; try done; try lia.
      rewrite Hlb. by rewrite take_app_length' by (by rewrite length_bits_of).
    + specialize (Hs (Z.of_nat a) Hc ltac:(lia)). rewrite Z.ltb_irrefl, Nat2Z.id in Hs.
      set (m := (n - a)%nat). assert (Hnm : Z.of_nat n = Z.of_nat a + Z.of_nat m) by lia.
      assert (Hva : value < 2 ^ (16 - Z.of_nat a)). { destruct Hv. eapply Z.lt_le_trans; [done|]. apply Z.pow_le_mono_r; lia. }
      rewrite join_bits by (done || lia). rewrite (proj2 (Z.ltb_lt 0 _)) by lia. replace (Z.of_nat n - Z.of_nat a) with (Z.of_nat m) by lia.
      assert (Hv' : 0 <= value * 2 ^ Z.of_nat a + low < 2 ^ (16 - Z.of_nat m)).
      { replace (16 - Z.of_nat m) with (16 - Z.of_nat n + Z.of_nat a) by lia. rewrite Z.pow_add_r by lia. nia. }
      destruct (IH buf m (value * 2 ^ Z.of_nat a + low) _ _ Hb Hs) as (x & c' & E & Hx & Hxb & Hc'); [lia|lia|lia|done|].
      exists (low * 2 ^ Z.of_nat m + x), c'. rewrite E.
      assert (Hpow : 2 ^ Z.of_nat n = 2 ^ Z.of_nat a * 2 ^ Z.of_nat m) by (by rewrite Hnm, Z.pow_add_r by lia).
      split_and!; [f_equal; f_equal; rewrite Hpow; lia|nia|rewrite Hpow; nia| |by replace (P + n)%nat with (P + a + m)%nat by lia].
      replace n with (a + m)%nat by lia. rewrite bits_of_split. rewrite Z.shiftr_div_pow2, Z.div_add_l, Z.div_small, Z.add_0_r by lia.
      rewrite take_app, length_bits_of, (take_ge (bits_of a b)) by (rewrite length_bits_of; lia). rewrite Hlb. f_equal.
      replace (a + m - a)%nat with m by lia. rewrite (Hrest _ Hs), <- Hxb. apply bits_of_ext. intros i Hi.
      rewrite <- (Z.mod_pow2_bits_low (_ + x) (Z.of_nat m)) by lia. by rewrite Z.add_comm, Z.mod_add, Z.mod_small by lia.
Qed.

(** The value at the cursor is read. *)
Lemma read_ok buf n v c P rest : Forall byte buf -> stands_at c P -> (0 < n <= 16)%nat -> 0 <= v < 2 ^ Z.of_nat n ->
  drop P (message_bits buf) = bits_of n v ++ rest ->
  exists c', rlc_am_read_bit_field buf c (Z.of_nat n) = Ok (v, c') /\ stands_at c' (P + n).
Proof.
  intros Hb Hc Hn Hv E. assert (Hlen : (P + n <= 8 * length buf)%nat).
  { apply (f_equal length) in E. rewrite length_drop, message_bits_length, length_app, length_bits_of in E. lia. }
  destruct (read_loop_ok 16 buf n 0 c P Hb Hc Hlen Hn) as (x & c' & Er & Hx & Hxb & Hc'); [lia|split; [lia|apply Z.pow_pos_nonneg; lia]|].
  rewrite E, take_app_length' in Hxb by (by rewrite length_bits_of). apply bits_of_inj in Hxb as ->; [|done..].
  exists c'. split; [|done]. unfold rlc_am_read_bit_field. by rewrite Er.
Qed.

(** ** The whole PDU *)

Definition valid_nack (n : nack_sn_t) : Prop :=
  0 <= nack_sn n < 2 ^ 10 /\ 0 <= e1 n < 2 /\ 0 <= e2 n < 2 /\ 0 <= so_start n < 2 ^ 15 /\ 0 <= so_end n < 2 ^ 15.

(** The extension bits: set in every entry but the last. *)
Fixpoint chained (l : list nack_sn_t) : Prop :=
  match l with
  | [] => True
  | n :: r => match r with [] => e1 n = 0 | _ => e1 n = 1 end /\ chained r
  end.

Definition nack_bits (n : nack_sn_t) : list bool :=
  bits_of 10 (nack_sn n) ++ bits_of 1 (e1 n) ++ bits_of 1 (e2 n) ++
  (if 0 <? e2 n then bits_of 15 (so_start n) ++ bits_of 15 (so_end n) else []).

Definition status_bits (i : rlc_am_control_pdu_info_t) : list bool :=
  bits_of 4 0 ++ bits_of 10 (ack_sn i) ++ bits_of 1 (if (0 <? num_nack i)%nat then 1 else 0) ++ (nack_list i ≫= nack_bits).

(** An entry without offsets stands for the whole PDU. *)
Definition seen_nack (n : nack_sn_t) : nack_sn_t :=
  if 0 <? e2 n then n else n <| so_start := 0 |> <| so_end := 0x7FFF |>.

(** The state of an encoder: [bs] is written and the cursor stands after it;
    there is room for [size] bytes. *)
Definition encoding (size : nat) (bs : list bool) (buf : list Z) (c : cursor) : Prop :=
  written buf bs /\ stands_at c (length bs) /\ length buf = size.

(** The bits [w] are appended. *)
Definition appends (f : list Z -> cursor -> res (list Z * cursor)) (w : list bool) : Prop :=
  forall size bs buf c, encoding size bs buf c -> (length bs + length w <= 8 * size)%nat ->
  exists buf' c', f buf c = Ok (buf', c') /\ encoding size (bs ++ w) buf' c'.

Lemma append_nil : appends (fun buf c => Ok (buf, c)) [].
Proof. intros size bs buf c E _. exists buf, c. by rewrite app_nil_r. Qed.

Lemma append_seq f g w1 w2 : appends f w1 -> appends g w2 ->
  appends (fun buf c => '(buf', c') ← f buf c; g buf' c') (w1 ++ w2).
Proof.
  intros F G size bs buf c E Hroom. rewrite length_app in Hroom.
  destruct (F size bs buf c E) as (b1 & c1 & -> & E1); [lia|]. cbn [mbind res_bind].
  destruct (G size _ b1 c1 E1) as (b2 & c2 & -> & E2); [rewrite length_app; lia|]. exists b2, c2. by rewrite app_assoc.
Qed.

Lemma append8 n v : (0 < n <= 8)%nat -> 0 <= v < 2 ^ Z.of_nat n ->
  appends (fun buf c => rlc_am_write8_bit_field buf c (Z.of_nat n) v) (bits_of n v).
Proof.
  intros Hn Hv size bs buf c (W & S & <-) Hroom. rewrite length_bits_of in Hroom.
  destruct (write8_ok buf bs c n v W S Hn) as (b' & c' & -> & W' & L & S'); [rewrite message_bits_length; lia|done|].
  exists b', c'. split; [done|]. unfold encoding. by rewrite length_app, length_bits_of.
Qed.

Lemma append16 n v : (0 < n <= 16)%nat -> 0 <= v < 2 ^ Z.of_nat n ->
  appends (fun buf c => rlc_am_write16_bit_field buf c (Z.of_nat n) v) (bits_of n v).
Proof.
  intros Hn Hv size bs buf c (W & S & <-) Hroom. rewrite length_bits_of in Hroom.
  destruct (write16_ok buf bs c n v W S Hn) as (b' & c' & -> & W' & L & S'); [rewrite message_bits_length; lia|done|].
  exists b', c'. split; [done|]. unfold encoding. by rewrite length_app, length_bits_of.
Qed.

Lemma append_nack n : valid_nack n -> appends (fun buf c => write_nack buf c n) (nack_bits n).
Proof.
  intros (V1 & V2 & V3 & V4 & V5). unfold write_nack, nack_bits.
  apply append_seq; [apply (append16 10); [lia|done]|]. apply append_seq; [apply (append8 1); [lia|done]|].
  apply append_seq; [apply (append8 1); [lia|done]|]. destruct (0 <? e2 n); [|apply append_nil].
  apply append_seq; apply (append16 15); lia || done.
Qed.

Lemma append_nacks l : Forall valid_nack l -> appends (fun buf c => write_nacks buf c l) (l ≫= nack_bits).
Proof.
  induction 1 as [|n r Hn Hr IH]; [apply append_nil|]. rewrite bind_cons. cbn [write_nacks]. apply append_seq; [by apply append_nack|done].
Qed.

Lemma zero_encoding size : (0 < size)%nat -> encoding size (bits_of 4 0) (replicate size 0) (mk_cursor 0 4).
Proof.
  intros Hs. split_and!; [|unfold stands_at; cbn; lia|apply length_replicate]. split.
  - apply Forall_replicate. unfold byte. lia.
  - exists (8 * size - 4)%nat. change (bits_of 4 0) with (replicate 4 false). rewrite <- replicate_add.
    replace (4 + (8 * size - 4))%nat with (8 * size)%nat by lia. clear Hs. induction size as [|k IH]; [done|].
    replace (8 * S k)%nat with (8 + 8 * k)%nat by lia. cbn [replicate]. by rewrite message_bits_cons, IH.
Qed.

(** Whole bytes that hold [n] bits. *)
Definition bytes_for (n : nat) : Z := (Z.of_nat n + 7) / 8.

Lemma bytes_to_for c P : stands_at c P -> bytes_to c = bytes_for P.
Proof. intros [H1 H2]. unfold bytes_to, bytes_for. div_lia. Qed.

Lemma write_status_ok size i : 0 <= ack_sn i < 2 ^ 10 -> Forall valid_nack (nack_list i) ->
  (length (status_bits i) <= 8 * size)%nat ->
  exists bytes, rlc_am_write_status_pdu (replicate size 0) i = Ok (bytes_for (length (status_bits i)), bytes) /\
    written bytes (status_bits i) /\ length bytes = size.
Proof.
  intros Ha Hl Hroom. assert (H := append_seq _ _ _ _ (append16 10 (ack_sn i) ltac:(lia) Ha)
    (append_seq _ _ _ _ (append8 1 (if (0 <? num_nack i)%nat then 1 else 0) ltac:(lia) ltac:(destruct (0 <? _)%nat; cbn; lia)) (append_nacks _ Hl))).
  unfold status_bits in *. destruct (H size _ _ _ (zero_encoding size ltac:(rewrite length_app in Hroom; cbn in Hroom; lia))) as (b & c & E & W & S & L).
  { rewrite length_app, length_bits_of in Hroom. done. }
  exists b. split; [|done]. unfold rlc_am_write_status_pdu. change (Z.of_nat 10) with 10 in E. change (Z.of_nat 1) with 1 in E.
  destruct (rlc_am_write16_bit_field _ _ _ _) as [[b1 c1]|]; [|done]. cbn [mbind res_bind] in *.
  destruct (rlc_am_write8_bit_field _ _ _ _) as [[b2 c2]|]; [|done]. cbn [mbind res_bind] in *. rewrite E. cbn [mbind res_bind].
  rewrite <- (bytes_to_for c _ S). unfold bytes_to. destruct S as [S _]. f_equal. f_equal. f_equal. destruct (Z.ltb_spec 0 (bit_pos c)); div_lia.
Qed.

(** ** Decoding *)

(** The cursor stands [P] bits from the start and the bits from there on are [w]. *)
Definition reading (buf : list Z) (c : cursor) (P : nat) (w : list bool) : Prop :=
  Forall byte buf /\ stands_at c P /\ drop P (message_bits buf) = w.

Lemma read_field buf c P n v w : reading buf c P (bits_of n v ++ w) -> (0 < n <= 16)%nat -> 0 <= v < 2 ^ Z.of_nat n ->
  exists c', rlc_am_read_bit_field buf c (Z.of_nat n) = Ok (v, c') /\ reading buf c' (P + n) w.
Proof.
  intros (Hb & Hc & Hd) Hn Hv. destruct (read_ok buf n v c P w Hb Hc Hn Hv Hd) as (c' & E & Hc').
  exists c'. refine (conj E (conj Hb (conj Hc' _))). rewrite <- drop_drop, Hd, drop_app_length'; [done|by rewrite length_bits_of].
Qed.

Lemma read_nack_ok buf c P n w : reading buf c P (nack_bits n ++ w) -> valid_nack n ->
  exists c', read_nack buf c = Ok (seen_nack n, c') /\ reading buf c' (P + length (nack_bits n)) w.
Proof.
  intros R (V1 & V2 & V3 & V4 & V5). unfold nack_bits, read_nack, seen_nack in *. rewrite <- !app_assoc in R. rewrite !length_app, !length_bits_of, !Nat.add_assoc.
  destruct (read_field _ _ _ 10 _ _ R ltac:(lia) V1) as (c1 & E1 & R1). change (Z.of_nat 10) with 10 in E1. rewrite E1. cbn [mbind res_bind].
  destruct (read_field _ _ _ 1 _ _ R1 ltac:(lia) V2) as (c2 & E2 & R2). change (Z.of_nat 1) with 1 in E2. rewrite E2. cbn [mbind res_bind].
  destruct (read_field _ _ _ 1 _ _ R2 ltac:(lia) V3) as (c3 & E3 & R3). change (Z.of_nat 1) with 1 in E3. rewrite E3. cbn [mbind res_bind].
  destruct (Z.ltb_spec 0 (e2 n)).
  - rewrite (proj2 (Z.eqb_neq _ 0)) by lia. cbn [negb]. rewrite <- app_assoc in R3.
    destruct (read_field _ _ _ 15 _ _ R3 ltac:(lia) V4) as (c4 & E4 & R4). change (Z.of_nat 15) with 15 in E4. rewrite E4. cbn [mbind res_bind].
    destruct (read_field _ _ _ 15 _ _ R4 ltac:(lia) V5) as (c5 & E5 & R5). change (Z.of_nat 15) with 15 in E5. rewrite E5. cbn [mbind res_bind].
    exists c5. split; [by destruct n|]. rewrite length_app, !length_bits_of, !Nat.add_assoc. done.
  - rewrite (proj2 (Z.eqb_eq _ 0)) by lia. cbn [negb]. exists c3. split; [|by rewrite Nat.add_0_r]. by destruct n.
Qed.

Lemma seen_e1 n : e1 (seen_nack n) = e1 n.
Proof. unfold seen_nack. by destruct (_ <? _), n. Qed.

Lemma read_nacks_ok buf l : forall fuel c P i w, l <> [] -> chained l -> Forall valid_nack l ->
  reading buf c P ((l ≫= nack_bits) ++ w) -> (length l <= fuel)%nat ->
  (num_nack i + length l <= RLC_AM_MAX_NACK_IN_STATUS_PDU)%nat ->
  exists c', read_nacks fuel buf c i = Ok (0, c', i <| nack_list := nack_list i ++ map seen_nack l |>) /\
    stands_at c' (P + length (l ≫= nack_bits)).
Proof.
  induction l as [|n r IH]; intros fuel c P i w Hne Hch Hv R Hf Hn; [done|]. destruct fuel as [|fuel]; [cbn in Hf; lia|].
  apply Forall_cons in Hv as [Vn Hv]. destruct Hch as [H1 Hch]. rewrite bind_cons in R |- *. rewrite <- app_assoc in R.
  destruct (read_nack_ok _ _ _ _ _ R Vn) as (c1 & E & R1). cbn [read_nacks map]. rewrite E. cbn [mbind res_bind]. rewrite seen_e1.
  destruct r as [|n' r'].
  - rewrite H1. cbn [Z.eqb]. exists c1. split; [done|]. rewrite app_nil_r. apply R1.
  - rewrite H1. cbn [Z.eqb]. set (i' := i <| nack_list := _ |>). assert (Hi : num_nack i' = S (num_nack i)).
    { unfold i', num_nack. rsimpl. rewrite length_app. cbn. lia. }
    cbn [length] in Hn, Hf. rewrite (proj2 (Nat.eqb_neq _ _)) by lia.
    destruct (IH fuel c1 _ i' w ltac:(done) Hch Hv R1) as (c' & E' & S'); [cbn [length]; lia..|].
    exists c'. rewrite E'. split; [|by rewrite length_app, Nat.add_assoc]. unfold i'. rsimpl. by rewrite <- app_assoc.
Qed.

Lemma bits_of_cat n m x y : 0 <= y < 2 ^ Z.of_nat m -> bits_of n x ++ bits_of m y = bits_of (n + m) (x * 2 ^ Z.of_nat m + y).
Proof.
  intros Hy. rewrite bits_of_split, Z.shiftr_div_pow2, Z.div_add_l, Z.div_small, Z.add_0_r by lia. f_equal.
  rewrite <- (bits_of_mod m (_ + y) (Z.of_nat m)) by lia. by rewrite Z.add_comm, Z.mod_add, Z.mod_small by lia.
Qed.

(** The first two bytes. *)
Lemma header_fields b1 b2 a e : byte b1 -> byte b2 -> 0 <= a < 2 ^ 10 -> 0 <= e < 2 ->
  take 15 (bits_of 8 b1 ++ bits_of 8 b2) = bits_of 4 0 ++ bits_of 10 a ++ bits_of 1 e ->
  Z.shiftr b1 7 = 0 /\ Z.land (Z.shiftr b1 4) 7 = 0 /\
  Z.lor (Z.land (Z.shiftr b2 2) 0x3F) (Z.shiftl (Z.land b1 0x0F) 6) = a /\ Z.land (Z.shiftr b2 1) 1 = e.
Proof.
  unfold byte. intros H1 H2 Ha He E.
  rewrite !bits_of_cat in E by (rewrite ?Nat2Z.inj_add; cbn; lia). change (8 + 8)%nat with (15 + 1)%nat in E.
  rewrite bits_of_split, take_app_length' in E by (by rewrite length_bits_of). apply bits_of_inj in E.
  - change (2 ^ Z.of_nat 8) with 256 in E. change (2 ^ Z.of_nat 1) with 2 in E. change (Z.of_nat 1) with 1 in E.
    rewrite !Z.shiftr_div_pow2 in * by lia. change (Z.land b1 15) with (Z.land b1 (Z.ones 4)).
    change 7 with (Z.ones 3) at 2. change 63 with (Z.ones 6). change (Z.land (b2 / 2 ^ 1) 1) with (Z.land (b2 / 2 ^ 1) (Z.ones 1)).
    rewrite !Z.land_ones, Z.shiftl_mul_pow2 by lia. rewrite Z.lor_comm, (lor_disjoint _ _ 6); [|lia|apply Z.mod_pos_bound; lia|apply Z.mod_mul; lia].
    change (2 ^ 10) with 1024 in Ha. change (2 ^ 8) with 256 in *. change (2 ^ 1) with 2 in E. split_and!; div_lia.
  - rewrite Z.shiftr_div_pow2 by (cbn; lia). cbn. split; [apply Z.div_pos; lia|apply Z.div_lt_upper_bound; lia].
  - cbn in *. lia.
Qed.

(** A STATUS PDU is read as it was written. *)
Lemma get_status_ok i bytes total : 0 <= ack_sn i < 2 ^ 10 -> Forall valid_nack (nack_list i) -> chained (nack_list i) ->
  (num_nack i <= RLC_AM_MAX_NACK_IN_STATUS_PDU)%nat -> written bytes (status_bits i) ->
  rlc_am_get_control_pdu_infos bytes total =
    Ok (0, total - bytes_for (length (status_bits i)),
        mk_info 0 0 (ack_sn i) (if (0 <? num_nack i)%nat then 1 else 0) (map seen_nack (nack_list i))).
Proof.
  intros Ha Hv Hch Hn [Hb [k Hk]]. set (e := if (0 <? num_nack i)%nat then 1 else 0) in *. assert (He : 0 <= e < 2) by (unfold e; destruct (0 <? _)%nat; lia).
  assert (Hlen := f_equal length Hk). unfold status_bits in *. fold e in Hk, Hlen |- *. rewrite !length_app, !length_bits_of, message_bits_length in Hlen.
  destruct bytes as [|b1 [|b2 r]]; cbn [length] in Hlen; [lia..|]. pose proof Hb as Hb0. apply Forall_cons in Hb0 as [H1 Hb0]. apply Forall_cons in Hb0 as [H2 _].
  destruct (header_fields b1 b2 (ack_sn i) e H1 H2 Ha He) as (F1 & F2 & F3 & F4).
  { apply (f_equal (take 15)) in Hk. rewrite !message_bits_cons, app_assoc, take_app_le in Hk by (rewrite length_app, !length_bits_of; lia).
    rewrite Hk, !app_assoc, <- !app_assoc, 2!app_assoc. rewrite take_app_length'; [by rewrite <- !app_assoc|]. by rewrite !length_app, !length_bits_of. }
  unfold rlc_am_get_control_pdu_infos, rd. cbn [lookup list_lookup of_option mbind res_bind]. unfold upd. cbn [d_c cpt ack_sn info_e1 nack_list]. rewrite F1, F2, F3, F4. cbn [Z.eqb negb].
  unfold e in *. clear e. destruct (nack_list i) as [|n l] eqn:El.
  - assert (Hz : num_nack i = 0%nat) by (unfold num_nack; by rewrite El). rewrite Hz. cbn [Nat.ltb Nat.leb Z.eqb negb]. done.
  - assert (Hz : (0 <? num_nack i)%nat = true) by (unfold num_nack; by rewrite El). rewrite Hz in *. cbn [Z.eqb negb].
    destruct (read_nacks_ok (b1 :: b2 :: r) (n :: l) RLC_AM_MAX_NACK_IN_STATUS_PDU (mk_cursor 1 7) 15 (mk_info 0 0 (ack_sn i) 1 []) (replicate k false))
      as (c' & E & S'); try done.
    + split_and!; [done..|]. rewrite Hk, <- !app_assoc, 2!app_assoc. apply drop_app_length'. by rewrite !length_app, !length_bits_of.
    + unfold num_nack in Hn. by rewrite El in Hn.
    + unfold num_nack in *. by rewrite El in Hn.
    + rewrite E. cbn [mbind res_bind]. rewrite (bytes_to_for _ _ S'). unfold upd. cbn [nack_list d_c cpt ack_sn info_e1 app]. done.
Qed.

End RlcAmCodec.
