(* ===== verification/RlcAmEntity.v ===== *)
(** * RLC AM: the entity, its initialisation and its timers

    openair2/LAYER2/RLC/AM_v9.3.0: the structures of rlc_am_structs.h and
    rlc_am_entity.h, rlc_am_init.c, rlc_am_timer_reordering.c,
    rlc_am_timer_poll_retransmit.c and rlc_am_timer_status_prohibit.c.

    A memory block is the list of its bytes. The holes of a transmitted PDU
    are the [num_holes] used entries of [hole_so_start] and [hole_so_stop], its
    SDUs the [nb_sdus] used entries of [sdus_index]. [upper_sdus] and
    [data_confs] record the up-calls [rlc_data_ind] and [rlc_data_conf], oldest
    first. Locks have no field: every handler runs between a lock and an
    unlock. The context of a call is the one of RLC UM. *)

From S2P Require Import Prelude RlcUmEntity RlcAmStatus.
Import RlcAmStatus.

Module RlcAmEntity.

Notation protocol_ctxt_t := RlcUm.protocol_ctxt_t.
Notation now := RlcUm.PROTOCOL_CTXT_TIME_MILLI_SECONDS.

Definition RLC_AM_WINDOW_SIZE : Z := 512.
Definition RLC_AM_SDU_CONTROL_BUFFER_SIZE : Z := 128.
Definition RLC_AM_PDU_RETRANSMISSION_BUFFER_SIZE : Z := RLC_AM_SN_MODULO.
Definition RLC_AM_HEADER_MIN_SIZE : Z := 2.
Definition RLC_AM_MIN_SEGMENT_SIZE_REQUEST : Z := 8.
Definition RLC_AM_MAX_SDU_IN_PDU : Z := 32.
Definition RLC_AM_MAX_SDU_FRAGMENTS : Z := 32.
Definition RLC_AM_MAX_HOLES_REPORT_PER_PDU : Z := 32.
Definition RLC_SDU_MAX_SIZE : Z := 9000.

(** ** Structures *)

(** A received PDU: [rlc_am_rx_pdu_management_t] with its [pdu_info]. [li_list]
    has [num_li] entries; [payload] is the block from the payload on. *)
Record rx_pdu : Type := mk_rx {
  rx_rf : Z; rx_p : Z; rx_fi : Z; rx_e : Z; sn : Z; lsf : Z; so : Z;
  li_list : list Z; hidden_size : Z; payload : list Z; payload_size : Z; header_size : Z;
  all_segments_received : Z
}.
#[export] Instance rx_settable : Settable rx_pdu := fun q =>
  mk_rx (rx_rf q) (rx_p q) (rx_fi q) (rx_e q) (sn q) (lsf q) (so q) (li_list q) (hidden_size q) (payload q)
    (payload_size q) (header_size q) (all_segments_received q).

(** A block for or from MAC: [tb_size] and the bytes at [data_ptr]. *)
Record mac_tb : Type := mk_tb { tb_size : Z; tb_bytes : list Z }.

Record rlc_am_timer_t : Type := mk_timer { ms_time_out : Z; ms_start : Z; ms_duration : Z; running : bool; timed_out : bool }.
#[export] Instance timer_settable : Settable rlc_am_timer_t := fun t =>
  mk_timer (ms_time_out t) (ms_start t) (ms_duration t) (running t) (timed_out t).

(** [sdu_block] is [mem_block], with the bytes at [first_byte]. *)
Record rlc_am_tx_sdu_management_t : Type := mk_tx_sdu {
  sdu_block : option (list Z); sdu_creation_time : Z; mui : Z;
  sdu_remaining_size : Z; sdu_segmented_size : Z; sdu_size : Z;
  pdus_index : list Z; nb_pdus : Z; nb_pdus_ack : Z; segmented : Z; transmitted_successfully : Z
}.
#[export] Instance tx_sdu_settable : Settable rlc_am_tx_sdu_management_t := fun s =>
  mk_tx_sdu (sdu_block s) (sdu_creation_time s) (mui s) (sdu_remaining_size s) (sdu_segmented_size s) (sdu_size s)
    (pdus_index s) (nb_pdus s) (nb_pdus_ack s) (segmented s) (transmitted_successfully s).
Definition zero_sdu : rlc_am_tx_sdu_management_t := mk_tx_sdu None 0 0 0 0 0 [] 0 0 0 0.

(** [pdu_block] is [mem_block], with the bytes at [first_byte]; [payload_at] is
    [payload - first_byte]. *)
Record rlc_am_tx_data_pdu_management_t : Type := mk_tx_pdu {
  pdu_block : option (list Z); payload_at : Z; sdus_index : list Z; last_nack_time : Z; holes : list (Z * Z);
  header_and_payload_size : Z; tx_payload_size : Z; nack_so_start : Z; nack_so_stop : Z; retx_count : Z;
  ack : Z; retransmit : Z
}.
#[export] Instance tx_pdu_settable : Settable rlc_am_tx_data_pdu_management_t := fun q =>
  mk_tx_pdu (pdu_block q) (payload_at q) (sdus_index q) (last_nack_time q) (holes q) (header_and_payload_size q)
    (tx_payload_size q) (nack_so_start q) (nack_so_stop q) (retx_count q) (ack q) (retransmit q).
Definition zero_pdu : rlc_am_tx_data_pdu_management_t := mk_tx_pdu None 0 [] 0 [] 0 0 0 0 0 0 0.

Inductive rlc_tx_status_t : Type := RLC_SDU_CONFIRM_NO | RLC_SDU_CONFIRM_YES.

Record rlc_am_entity_t : Type := mk_am {
  rb_id : Z; is_data_plane : bool; sdu_buffer_occupancy : Z; status_buffer_occupancy : Z;
  input_sdus : list rlc_am_tx_sdu_management_t; nb_sdu : Z; nb_sdu_no_segmented : Z;
  next_sdu_index : Z; current_sdu_index : Z;
  pdu_retrans_buffer : list rlc_am_tx_data_pdu_management_t;
  retrans_num_pdus : Z; retrans_num_bytes : Z; retrans_num_bytes_to_retransmit : Z;
  num_nack_so : Z; num_nack_sn : Z; force_poll : bool;
  receiver_buffer : list rx_pdu; output_sdu_in_construction : option (list Z); output_sdu_size_to_write : Z;
  protocol_state : Z;
  vt_a : Z; vt_ms : Z; vt_s : Z; poll_sn : Z;
  vr_r : Z; vr_mr : Z; vr_x : Z; vr_ms : Z; vr_h : Z;
  t_poll_retransmit : rlc_am_timer_t; t_reordering : rlc_am_timer_t; t_status_prohibit : rlc_am_timer_t;
  c_pdu_without_poll : Z; c_byte_without_poll : Z; max_retx_threshold : Z; poll_pdu : Z; poll_byte : Z;
  stat_tx_pdcp_sdu : Z; stat_tx_pdcp_bytes : Z; stat_tx_pdcp_sdu_discarded : Z; stat_tx_pdcp_bytes_discarded : Z;
  stat_tx_data_pdu : Z; stat_tx_data_bytes : Z;
  stat_tx_retransmit_pdu_by_status : Z; stat_tx_retransmit_bytes_by_status : Z;
  stat_tx_retransmit_pdu : Z; stat_tx_retransmit_bytes : Z;
  stat_tx_control_pdu : Z; stat_tx_control_bytes : Z;
  stat_rx_pdcp_sdu : Z; stat_rx_pdcp_bytes : Z; stat_rx_data_pdu : Z; stat_rx_data_bytes : Z;
  stat_rx_data_pdu_dropped : Z; stat_rx_data_bytes_dropped : Z;
  stat_rx_data_pdu_out_of_window : Z; stat_rx_data_bytes_out_of_window : Z;
  stat_rx_control_pdu : Z; stat_rx_control_bytes : Z;
  stat_timer_reordering_timed_out : Z; stat_timer_poll_retransmit_timed_out : Z; stat_timer_status_prohibit_timed_out : Z;
  nb_bytes_requested_by_mac : Z;
  pdus_to_mac_layer : list mac_tb; control_pdu_list : list mac_tb; first_retrans_pdu_sn : Z; segmentation_pdu_list : list mac_tb;
  status_requested : bool; last_frame_status_indication : Z; initialized : bool; configured : bool;
  upper_sdus : list (list Z); data_confs : list (Z * rlc_tx_status_t)
}.
#[export] Instance am_settable : Settable rlc_am_entity_t := fun e => mk_am
  (rb_id e) (is_data_plane e) (sdu_buffer_occupancy e) (status_buffer_occupancy e)
  (input_sdus e) (nb_sdu e) (nb_sdu_no_segmented e) (next_sdu_index e) (current_sdu_index e) (pdu_retrans_buffer e)
  (retrans_num_pdus e) (retrans_num_bytes e) (retrans_num_bytes_to_retransmit e) (num_nack_so e) (num_nack_sn e) (force_poll e)
  (receiver_buffer e) (output_sdu_in_construction e) (output_sdu_size_to_write e) (protocol_state e)
  (vt_a e) (vt_ms e) (vt_s e) (poll_sn e) (vr_r e) (vr_mr e) (vr_x e) (vr_ms e) (vr_h e)
  (t_poll_retransmit e) (t_reordering e) (t_status_prohibit e)
  (c_pdu_without_poll e) (c_byte_without_poll e) (max_retx_threshold e) (poll_pdu e) (poll_byte e)
  (stat_tx_pdcp_sdu e) (stat_tx_pdcp_bytes e) (stat_tx_pdcp_sdu_discarded e) (stat_tx_pdcp_bytes_discarded e)
  (stat_tx_data_pdu e) (stat_tx_data_bytes e) (stat_tx_retransmit_pdu_by_status e) (stat_tx_retransmit_bytes_by_status e)
  (stat_tx_retransmit_pdu e) (stat_tx_retransmit_bytes e) (stat_tx_control_pdu e) (stat_tx_control_bytes e)
  (stat_rx_pdcp_sdu e) (stat_rx_pdcp_bytes e) (stat_rx_data_pdu e) (stat_rx_data_bytes e)
  (stat_rx_data_pdu_dropped e) (stat_rx_data_bytes_dropped e) (stat_rx_data_pdu_out_of_window e)
  (stat_rx_data_bytes_out_of_window e) (stat_rx_control_pdu e) (stat_rx_control_bytes e)
  (stat_timer_reordering_timed_out e) (stat_timer_poll_retransmit_timed_out e) (stat_timer_status_prohibit_timed_out e)
  (nb_bytes_requested_by_mac e) (pdus_to_mac_layer e) (control_pdu_list e) (first_retrans_pdu_sn e) (segmentation_pdu_list e)
  (status_requested e) (last_frame_status_indication e) (initialized e) (configured e) (upper_sdus e) (data_confs e).

Definition zero_timer : rlc_am_timer_t := mk_timer 0 0 0 false false.

(** The memory of an entity that was never used. *)
Definition blank : rlc_am_entity_t :=
  mk_am 0 false 0 0 [] 0 0 0 0 [] 0 0 0 0 0 false [] None 0 0 0 0 0 0 0 0 0 0 0 zero_timer zero_timer zero_timer 0 0 0 0 0
    0 0 0 0 0 0 0 0 0 0 0 0 0 0 0 0 0 0 0 0 0 0 0 0 0 0 [] [] 0 [] false 0 false false [] [].

(** [memset(rlc_pP, 0, sizeof(rlc_am_entity_t))]; the record of the up-calls is
    not part of the C object and survives. *)
Definition memset_zero (e : rlc_am_entity_t) : rlc_am_entity_t :=
  blank <| upper_sdus := upper_sdus e |> <| data_confs := data_confs e |>.

(** ** Timers *)

(** The two cases of the time-out tests: the interval between start and
    time-out wraps around or not. *)
Definition expired (t : rlc_am_timer_t) (ms : Z) : bool :=
  ((ms_start t <? ms_time_out t) && ((ms_time_out t <=? ms) || (ms <? ms_start t))) ||
  ((ms_time_out t <? ms_start t) && (ms <? ms_start t) && (ms_time_out t <=? ms)).

Definition stop_and_reset (t : rlc_am_timer_t) : rlc_am_timer_t :=
  t <| running := false |> <| ms_time_out := 0 |> <| ms_start := 0 |> <| timed_out := false |>.

Definition start (ms : Z) (t : rlc_am_timer_t) : rlc_am_timer_t :=
  let t := t <| timed_out := false |> in
  if negb (running t) && (0 <? ms_duration t) then
    t <| running := true |> <| ms_time_out := u32 (ms + ms_duration t) |> <| ms_start := ms |>
  else t.

Definition rlc_am_stop_and_reset_timer_reordering (e : rlc_am_entity_t) : rlc_am_entity_t :=
  e <| t_reordering ::= stop_and_reset |>.
Definition rlc_am_start_timer_reordering (c : protocol_ctxt_t) (e : rlc_am_entity_t) : rlc_am_entity_t :=
  e <| t_reordering ::= start (now c) |>.
Definition rlc_am_init_timer_reordering (e : rlc_am_entity_t) (ms_durationP : Z) : rlc_am_entity_t :=
  e <| t_reordering := mk_timer 0 0 ms_durationP false false |>.

Definition rlc_am_check_timer_poll_retransmit (c : protocol_ctxt_t) (e : rlc_am_entity_t) : rlc_am_entity_t :=
  if running (t_poll_retransmit e) && expired (t_poll_retransmit e) (now c) then
    e <| t_poll_retransmit ::= fun t => t <| running := false |> <| timed_out := true |>
                                          <| ms_time_out := u32 (now c + ms_duration t) |> |>
      <| stat_timer_poll_retransmit_timed_out ::= fun n => u32 (n + 1) |>
      <| force_poll := true |>
  else e.
Definition rlc_am_is_timer_poll_retransmit_timed_out (e : rlc_am_entity_t) : bool := timed_out (t_poll_retransmit e).
Definition rlc_am_stop_and_reset_timer_poll_retransmit (e : rlc_am_entity_t) : rlc_am_entity_t :=
  e <| t_poll_retransmit ::= stop_and_reset |>.
Definition rlc_am_start_timer_poll_retransmit (c : protocol_ctxt_t) (e : rlc_am_entity_t) : rlc_am_entity_t :=
  e <| t_poll_retransmit ::= start (now c) |>.
Definition rlc_am_init_timer_poll_retransmit (e : rlc_am_entity_t) (ms_durationP : Z) : rlc_am_entity_t :=
  e <| t_poll_retransmit := mk_timer 0 0 ms_durationP false false |>.

Definition rlc_am_stop_and_reset_timer_status_prohibit (e : rlc_am_entity_t) : rlc_am_entity_t :=
  if 0 <? ms_duration (t_status_prohibit e) then e <| t_status_prohibit ::= stop_and_reset |> else e.
Definition rlc_am_check_timer_status_prohibit (c : protocol_ctxt_t) (e : rlc_am_entity_t) : rlc_am_entity_t :=
  if (0 <? ms_duration (t_status_prohibit e)) && running (t_status_prohibit e) && expired (t_status_prohibit e) (now c) then
    rlc_am_stop_and_reset_timer_status_prohibit
      (e <| t_status_prohibit ::= fun t => t <| running := false |> <| timed_out := true |> |>
         <| stat_timer_status_prohibit_timed_out ::= fun n => u32 (n + 1) |>)
  else e.
Definition rlc_am_start_timer_status_prohibit (c : protocol_ctxt_t) (e : rlc_am_entity_t) : rlc_am_entity_t :=
  e <| t_status_prohibit ::= start (now c) |>.
Definition rlc_am_init_timer_status_prohibit (e : rlc_am_entity_t) (ms_durationP : Z) : rlc_am_entity_t :=
  e <| t_status_prohibit := mk_timer 0 0 ms_durationP false false |>.

(** ** rlc_am_init.c *)

Definition RLC_NULL_STATE : Z := 0.
Definition RLC_DATA_TRANSFER_READY_STATE : Z := 1.

Definition rlc_am_init (e : rlc_am_entity_t) : rlc_am_entity_t :=
  if initialized e then e
  else (memset_zero e)
    <| input_sdus := replicate (Z.to_nat RLC_AM_SDU_CONTROL_BUFFER_SIZE) zero_sdu |>
    <| pdu_retrans_buffer := replicate (Z.to_nat RLC_AM_PDU_RETRANSMISSION_BUFFER_SIZE) zero_pdu |>
    <| vt_ms := RLC_AM_WINDOW_SIZE |> <| vr_mr := RLC_AM_WINDOW_SIZE |>
    <| last_frame_status_indication := 123456 |> <| first_retrans_pdu_sn := -1 |> <| initialized := true |>.

(** Only the lists and the state variables are reset. *)
Definition rlc_am_reestablish (e : rlc_am_entity_t) : rlc_am_entity_t :=
  e <| receiver_buffer := [] |> <| pdus_to_mac_layer := [] |> <| control_pdu_list := [] |> <| segmentation_pdu_list := [] |>
    <| vt_a := 0 |> <| vt_ms := RLC_AM_WINDOW_SIZE |> <| vt_s := 0 |> <| poll_sn := 0 |>
    <| c_pdu_without_poll := 0 |> <| c_byte_without_poll := 0 |>
    <| vr_r := 0 |> <| vr_mr := RLC_AM_WINDOW_SIZE |> <| vr_x := 0 |> <| vr_ms := 0 |> <| vr_h := 0 |>
    <| last_frame_status_indication := 123456 |> <| first_retrans_pdu_sn := -1 |> <| initialized := true |>.

(** Every block the entity owns is released, then the object is cleared. *)
Definition rlc_am_cleanup (e : rlc_am_entity_t) : rlc_am_entity_t := memset_zero e.

Definition rlc_am_configure (e : rlc_am_entity_t)
    (max_retx_thresholdP poll_pduP poll_byteP t_poll_retransmitP t_reorderingP t_status_prohibitP : Z) : rlc_am_entity_t :=
  let e := e <| max_retx_threshold := u16 max_retx_thresholdP |> <| poll_pdu := u16 poll_pduP |> <| poll_byte := u16 poll_byteP |>
             <| protocol_state := RLC_DATA_TRANSFER_READY_STATE |> in
  if configured e then
    e <| t_poll_retransmit ::= fun t => t <| ms_duration := t_poll_retransmitP |> |>
      <| t_reordering ::= fun t => t <| ms_duration := t_reorderingP |> |>
      <| t_status_prohibit ::= fun t => t <| ms_duration := t_status_prohibitP |> |>
  else
    (rlc_am_init_timer_status_prohibit
      (rlc_am_init_timer_reordering
        (rlc_am_init_timer_poll_retransmit e t_poll_retransmitP) t_reorderingP) t_status_prohibitP) <| configured := true |>.

Definition rlc_am_set_debug_infos (e : rlc_am_entity_t) (srb_flagP : bool) (rb_idP : Z) : rlc_am_entity_t :=
  e <| rb_id := rb_idP |> <| is_data_plane := negb srb_flagP |>.

End RlcAmEntity.
