(* ===== verification/RlcAmReport.v ===== *)
(** * Windows and status reports of RLC AM

    openair2/LAYER2/RLC/AM_v9.3.0/rlc_am_windows.c and
    [rlc_am_send_status_pdu] and [rlc_am_receive_process_control_pdu] of
    rlc_am_status_report.c.

    A cursor into the reception buffer is the rest of the list from it on, and a jump to [end_push_nack]
    is the outcome [Finish]. Processing a STATUS PDU is the sequence of the
    calls that acknowledge PDUs or mark them for retransmission; the loop that
    makes them depends on nothing that they change. *)

From S2P Require Import Prelude RlcUmEntity RlcAmStatus RlcAmEntity.
Import RlcAmStatus RlcAmEntity.

Module RlcAmReport.

(** ** Windows *)

(** [((rlc_usn_t)(a - base)) % RLC_AM_SN_MODULO] *)
Definition shifted (a base : Z) : Z := u16 (a - base) mod RLC_AM_SN_MODULO.

Definition rlc_am_in_tx_window (e : rlc_am_entity_t) (snP : Z) : Z :=
  if RLC_AM_SN_MODULO <=? snP then 0
  else if shifted snP (vt_a e) <? shifted (vt_ms e) (vt_a e) then 1 else 0.

Definition rlc_am_in_rx_window (e : rlc_am_entity_t) (snP : Z) : Z :=
  if RLC_AM_SN_MODULO <=? snP then 0
  else if shifted snP (vr_r e) <? shifted (vr_mr e) (vr_r e) then 1 else 0.

Definition rlc_am_sn_gte_vr_h (e : rlc_am_entity_t) (snP : Z) : Z :=
  if RLC_AM_SN_MODULO <=? snP then 0
  else if shifted (vr_h e) (vr_r e) <=? shifted snP (vr_r e) then 1 else 0.

Definition rlc_am_sn_gte_vr_x (e : rlc_am_entity_t) (snP : Z) : Z :=
  if RLC_AM_SN_MODULO <=? snP then 0
  else if shifted (vr_x e) (vr_r e) <=? shifted snP (vr_r e) then 1 else 0.

Definition rlc_am_sn_gt_vr_ms (e : rlc_am_entity_t) (snP : Z) : Z :=
  if RLC_AM_SN_MODULO <=? snP then 0
  else if shifted (vr_ms e) (vr_r e) <? shifted snP (vr_r e) then 1 else 0.

Definition rlc_am_tx_sn1_gt_sn2 (e : rlc_am_entity_t) (sn1P sn2P : Z) : Z :=
  if (RLC_AM_SN_MODULO <=? sn1P) || (RLC_AM_SN_MODULO <=? sn2P) then 0
  else if shifted sn2P (vt_a e) <? shifted sn1P (vt_a e) then 1 else 0.

Definition rlc_am_rx_sn1_gt_sn2 (e : rlc_am_entity_t) (sn1P sn2P : Z) : Z :=
  if (RLC_AM_SN_MODULO <=? sn1P) || (RLC_AM_SN_MODULO <=? sn2P) then 0
  else if shifted sn2P (vr_r e) <? shifted sn1P (vr_r e) then 1 else 0.

(** ** Status report *)

Definition next_sn (s : Z) : Z := Z.land (s + 1) RLC_AM_SN_MASK.

(** [control_pdu_info.nack_list], [nb_bits_to_transmit] and [previous_sn_cursor]. *)
Record report : Type := mk_report { nacks : list nack_sn_t; nb_bits_to_transmit : Z; previous_sn_cursor : Z }.
#[export] Instance report_settable : Settable report :=
  fun r => mk_report (nacks r) (nb_bits_to_transmit r) (previous_sn_cursor r).

(** [Finish ack r]: [control_pdu_info.ack_sn] is set, [goto end_push_nack]. *)
Inductive outcome (A : Type) : Type := Finish (ack : Z) (r : report) | Continue (a : A) (r : report).
Arguments Finish {A}.
Arguments Continue {A}.

(** An entry is written to [nack_list[num_nack]], through its bit fields. *)
Definition push_nack (r : report) (s start stop x2 bits : Z) : res report :=
  if (length (nacks r) <? RLC_AM_MAX_NACK_IN_STATUS_PDU)%nat then
    Ok (r <| nacks := nacks r ++ [mk_nack (s mod 2 ^ 10) 1 x2 (start mod 2 ^ 15) (stop mod 2 ^ 15)] |>
          <| nb_bits_to_transmit := nb_bits_to_transmit r - bits |>)
  else Fault OutOfBounds.

(** [while (rlc_am_in_rx_window(...) == 0)]: there is no test for the end of the list. *)
Fixpoint find_in_window (e : rlc_am_entity_t) (cursor : list rx_pdu) (previous : Z) : res (list rx_pdu * Z) :=
  match cursor with
  | [] => Fault OutOfBounds
  | p :: rest => if rlc_am_in_rx_window e (sn p) =? 0 then find_in_window e rest (sn p) else Ok (cursor, previous)
  end.

(** The other PDUs with the sequence number of the previous one are skipped;
    [p] is the PDU at the cursor. *)
Fixpoint skip_same (p : rx_pdu) (rest : list rx_pdu) (r : report) : outcome (rx_pdu * list rx_pdu) :=
  match rest with
  | [] => Finish (if all_segments_received p =? 0 then next_sn (previous_sn_cursor r) else next_sn (sn p)) r
  | q :: rest' => if sn q =? previous_sn_cursor r then skip_same q rest' r else Continue (q, rest') r
  end.

(** [while (((previous_sn_cursor + 1) & RLC_AM_SN_MASK) != sn_cursor)] *)
Fixpoint push_missing (fuel : nat) (sn_cursor : Z) (r : report) : res (outcome unit) :=
  if next_sn (previous_sn_cursor r) =? sn_cursor then Ok (Continue tt r)
  else match fuel with
  | O => Fault OutOfFuel
  | S fuel' =>
      if 12 <? nb_bits_to_transmit r then
        r' ← push_nack (r <| previous_sn_cursor := next_sn (previous_sn_cursor r) |>) (next_sn (previous_sn_cursor r)) 0 0x7ff 0 12;
        push_missing fuel' sn_cursor r'
      else Ok (Finish (next_sn (previous_sn_cursor r)) r)
  end.

Definition so_after (p : rx_pdu) : Z := if lsf p =? 1 then 0x7FFF else so p + payload_size p.

(** The bytes between [waited_so] and the segment [p] are missing. *)
Definition push_gap (p : rx_pdu) (waited_so : Z) (r : report) : res (outcome unit) :=
  if waited_so <? so p then
    if 42 <=? nb_bits_to_transmit r then
      r' ← push_nack r (sn p) waited_so (so p - 1) 1 42; Ok (Continue tt r')
    else Ok (Finish (sn p) r)
  else Ok (Continue tt r).

(** The segments of a PDU; the result has the rest of the list, from a PDU
    with another sequence number on, and [waited_so]. *)
Fixpoint push_segments (p : rx_pdu) (rest : list rx_pdu) (waited_so : Z) (r : report)
    : res (outcome (list rx_pdu * Z)) :=
  o ← push_gap p waited_so r;
  match o with
  | Finish ack r' => Ok (Finish ack r')
  | Continue _ r' =>
      match rest with
      | [] => Ok (Finish (previous_sn_cursor r') r')
      | q :: rest' =>
          let r'' := r' <| previous_sn_cursor := sn p |> in
          if sn q =? sn p then push_segments q rest' (so_after p) r''
          else Ok (Continue (rest, so_after p) r'')
      end
  end.

(** A partly received PDU. *)
Definition push_partial (p : rx_pdu) (rest : list rx_pdu) (r : report) : res (outcome (list rx_pdu)) :=
  o ← push_segments p rest 0 r;
  match o with
  | Finish ack r' => Ok (Finish ack r')
  | Continue (rest', waited_so) r' =>
      if waited_so =? 0x7FFF then Ok (Continue rest' r')
      else if 42 <=? nb_bits_to_transmit r' then
        r'' ← push_nack r' (previous_sn_cursor r') waited_so 0x7FFF 1 42; Ok (Continue rest' r'')
      else Ok (Finish (previous_sn_cursor r') r')
  end.

(** One round of [while ((cursor_p != NULL) && (nb_bits_to_transmit >= 12))]. *)
Definition report_round (p : rx_pdu) (rest : list rx_pdu) (r : report) : res (outcome (list rx_pdu)) :=
  match (if sn p =? previous_sn_cursor r then skip_same p rest r else Continue (p, rest) r) with
  | Finish ack r' => Ok (Finish ack r')
  | Continue (q, rest') r' =>
      o ← push_missing (Z.to_nat RLC_AM_SN_MODULO) (sn q) r';
      match o with
      | Finish ack r'' => Ok (Finish ack r'')
      | Continue _ r'' =>
          if all_segments_received q =? 0 then push_partial q rest' r''
          else Ok (Continue rest' (r'' <| previous_sn_cursor := sn q |>))
      end
  end.

(** Every round consumes a PDU. *)
Fixpoint report_loop (fuel : nat) (cursor : list rx_pdu) (r : report) : res (Z * report) :=
  match cursor with
  | [] => Ok (next_sn (previous_sn_cursor r), r)
  | p :: rest =>
      if 12 <=? nb_bits_to_transmit r then
        match fuel with
        | O => Fault OutOfFuel
        | S fuel' =>
            o ← report_round p rest r;
            match o with
            | Finish ack r' => Ok (ack, r')
            | Continue cursor' r' => report_loop fuel' cursor' r'
            end
        end
      else Ok (next_sn (previous_sn_cursor r), r)
  end.

(** The acknowledged number and the entries, before the last [e1] is cleared. *)
Definition make_report (e : rlc_am_entity_t) : res (Z * report) :=
  let r := mk_report [] (nb_bytes_requested_by_mac e * 8 - 15) (Z.land (vr_r e - 1) RLC_AM_SN_MASK) in
  match receiver_buffer e with
  | [] => Ok (vr_r e, r)
  | buffer =>
      '(cursor, previous) ← find_in_window e buffer (previous_sn_cursor r);
      report_loop (length buffer) cursor (r <| previous_sn_cursor := previous |>)
  end.

(** [nack_list[num_nack - 1].e1 = 0] *)
Fixpoint close_nacks (l : list nack_sn_t) : list nack_sn_t :=
  match l with
  | [] => []
  | n :: r => match r with [] => [n <| e1 := 0 |>] | _ => n :: close_nacks r end
  end.

(** The block of the PDU is cleared without a look at the answer of the pool:
    a NULL is dereferenced. *)
Definition rlc_am_send_status_pdu (c : protocol_ctxt_t) (e : rlc_am_entity_t) : res rlc_am_entity_t :=
  '(ack, r) ← make_report e;
  let info := mk_info 0 0 (ack mod 2 ^ 10) 0 (close_nacks (nacks r)) in
  let N := nb_bytes_requested_by_mac e in
  let forecast := N - Z.shiftr (nb_bits_to_transmit r - 7) 3 in
  if negb (RlcUm.mem_block_ok c) then Fault OutOfBounds else
  '(pdu_size, bytes) ← rlc_am_write_status_pdu (replicate (Z.to_nat forecast) 0) info;
  _ ← assert_fatal (pdu_size =? N - Z.shiftr (nb_bits_to_transmit r) 3);
  Ok (e <| nb_bytes_requested_by_mac := N - pdu_size |>
        <| control_pdu_list := mk_tb pdu_size (take (Z.to_nat pdu_size) bytes) :: control_pdu_list e |>
        <| stat_tx_control_pdu := u32 (stat_tx_control_pdu e + 1) |>
        <| stat_tx_control_bytes := u32 (stat_tx_control_bytes e + pdu_size) |>).

(** ** Processing a STATUS PDU *)

Inductive call : Type :=
| StopPollRetransmit                    (* rlc_am_stop_and_reset_timer_poll_retransmit *)
| AckPdu (s : Z)                        (* rlc_am_ack_pdu *)
| NackPdu (s start stop : Z).           (* rlc_am_nack_pdu *)

(** [while (sn_cursor != ack_sn)]: [last] is the entry [nack_list[nack_index-1]]
    and [l] the entries from [nack_index] on. The loop for [num_nack == 0] is
    the one for no entries. Every round moves the cursor or uses an entry. *)
Fixpoint control_loop (fuel : nat) (poll ack sn_cursor : Z) (last : option nack_sn_t) (l : list nack_sn_t) : res (list call) :=
  if sn_cursor =? ack then Ok []
  else match fuel with
  | O => Fault OutOfFuel
  | S fuel' =>
      let stop := if sn_cursor =? poll then [StopPollRetransmit] else [] in
      let '(c, last', l') :=
        match l with
        | n :: rest => if sn_cursor =? nack_sn n then (NackPdu sn_cursor (so_start n) (so_end n), Some n, rest) else (AckPdu sn_cursor, last, l)
        | [] => (AckPdu sn_cursor, last, l)
        end in
      let sn_cursor' :=
        match last', l' with
        | Some m, n :: _ => if nack_sn n =? nack_sn m then sn_cursor else next_sn sn_cursor
        | _, _ => next_sn sn_cursor
        end in
      calls ← control_loop fuel' poll ack sn_cursor' last' l';
      Ok (stop ++ c :: calls)
  end.

(** The result has the calls and [*tb_size_in_bytes_pP]. *)
Definition rlc_am_receive_process_control_pdu (e : rlc_am_entity_t) (bytes : list Z) (tb_size_in_bytes : Z) : res (list call * Z) :=
  '(rc, rest, info) ← rlc_am_get_control_pdu_infos bytes tb_size_in_bytes;
  if 0 <=? rc then
    _ ← assert_fatal (ack_sn info <? RLC_AM_SN_MODULO);
    _ ← assert_fatal (num_nack info <? RLC_AM_MAX_NACK_IN_STATUS_PDU)%nat;
    if 0 <? rlc_am_in_tx_window e (ack_sn info) then
      calls ← control_loop (Z.to_nat RLC_AM_SN_MODULO + num_nack info) (poll_sn e) (ack_sn info) (vt_a e) None (nack_list info);
      Ok (calls, rest)
    else Ok ([], rest)
  else Ok ([], rest).

End RlcAmReport.
