(* ===== verification/RlcAmReportProofs.v ===== *)
(** * What a status report of RLC AM says

    Below the acknowledged sequence number a status report asks exactly for
    the bytes that have not been received, and it fits the grant. *)

From Stdlib Require Import Sorting.Sorted.
From S2P Require Import Prelude Bits RlcAmStatus RlcAmEntity RlcAmCodec RlcAmReport.
Import Bits RlcAmStatus RlcAmEntity RlcAmCodec RlcAmReport.

Module RlcAmReportProofs.

(** ** Specification *)

(** Distance from the lower edge of the window. *)
Definition offset (base s : Z) : Z := (s - base) mod RLC_AM_SN_MODULO.

(** Byte [b] of PDU [s] is there: the PDU is complete, a segment has the
    byte, or the last segment has started before it. *)
Definition received (buffer : list rx_pdu) (s b : Z) : Prop :=
  exists q, q ∈ buffer /\ sn q = s /\
    (all_segments_received q <> 0 \/ so q <= b < so q + payload_size q \/ (lsf q = 1 /\ so q <= b)).

(** Byte [b] of PDU [s] is asked for by an entry. *)
Definition asked (l : list nack_sn_t) (s b : Z) : Prop :=
  exists n, n ∈ l /\ nack_sn n = s /\ so_start n <= b <= so_end n.

Definition valid_rx (base : Z) (p : rx_pdu) : Prop :=
  0 <= sn p < RLC_AM_SN_MODULO /\ offset base (sn p) < RLC_AM_WINDOW_SIZE /\
  0 <= so p /\ 0 < payload_size p /\ so p + payload_size p < 0x7FFF /\ 0 <= lsf p < 2.

(** [q] is after [p] in the reception buffer: a later PDU, or a later segment
    of the same PDU. *)
Definition follows (base : Z) (p q : rx_pdu) : Prop :=
  offset base (sn p) < offset base (sn q) \/
  (sn p = sn q /\ so p + payload_size p <= so q /\ lsf p = 0 /\
   (all_segments_received p = 0 <-> all_segments_received q = 0)).

Definition rx_ordered (base : Z) (buffer : list rx_pdu) : Prop :=
  Forall (valid_rx base) buffer /\ StronglySorted (follows base) buffer.

(** The number of PDUs from the lower edge of the window that a report with
    [ack] is about; -1 when it is the one before the edge. *)
Definition span (base ack : Z) : Z := (ack - base + 1) mod RLC_AM_SN_MODULO - 1.

(** ** The state of a report under construction *)

Unset Default Proof Using.

Section Report.
Context (base : Z) (Hbase : 0 <= base < RLC_AM_SN_MODULO).
Context (buffer : list rx_pdu) (Hbuf : rx_ordered base buffer).
Context (N : Z) (HN : N <= 1536).

Definition seen (r : report) : list nack_sn_t := map seen_nack (nacks r).

Definition honest (n : nack_sn_t) : Prop :=
  forall b, so_start (seen_nack n) <= b <= so_end (seen_nack n) -> b < 0x7FFF -> ~ received buffer (nack_sn n) b.

Definition entry_ok (n : nack_sn_t) : Prop :=
  valid_nack n /\ e1 n = 1 /\ honest n /\ offset base (nack_sn n) < RLC_AM_WINDOW_SIZE.

Definition fits (r : report) : Prop :=
  nb_bits_to_transmit r + 15 + Z.of_nat (length (nacks r ≫= nack_bits)) = 8 * N /\ 0 <= nb_bits_to_transmit r.

(** The entries are in the order of the window. *)
Definition nack_le (n m : nack_sn_t) : Prop := offset base (nack_sn n) <= offset base (nack_sn m).
Definition good (r : report) : Prop := Forall entry_ok (nacks r) /\ StronglySorted nack_le (nacks r) /\ fits r.
Definition upto (d : Z) (r : report) : Prop := Forall (fun n => offset base (nack_sn n) < d) (nacks r).

(** The first [d] PDUs of the window are reported. *)
Definition sound (d : Z) (r : report) : Prop :=
  forall k b, 0 <= k < d -> 0 <= b < 0x7FFF ->
  received buffer ((base + k) mod RLC_AM_SN_MODULO) b \/ asked (seen r) ((base + k) mod RLC_AM_SN_MODULO) b.

(** A report that is finished with [ack]. *)
Definition final (ack : Z) (r : report) : Prop :=
  good r /\ exists d, -1 <= d <= RLC_AM_WINDOW_SIZE /\ ack = (base + d) mod RLC_AM_SN_MODULO /\ sound d r.

(** The PDUs [pre] are behind the cursor. *)
Definition behind (d : Z) (pre cur : list rx_pdu) : Prop :=
  buffer = pre ++ cur /\ Forall (fun q => offset base (sn q) < d) pre /\ Forall (fun q => d - 1 <= offset base (sn q)) cur.

Definition at_sn (d : Z) (r : report) : Prop :=
  0 <= d <= RLC_AM_WINDOW_SIZE /\ previous_sn_cursor r = (base + d - 1) mod RLC_AM_SN_MODULO.

Definition settled (d : Z) (r : report) : Prop := good r /\ sound d r /\ upto d r /\ at_sn d r.

Definition inv (d : Z) (cur : list rx_pdu) (r : report) : Prop :=
  settled d r /\ exists pre, behind d pre cur.

Lemma next_sn_mod s : next_sn s = (s + 1) mod RLC_AM_SN_MODULO.
Proof. apply (Z.land_ones (s + 1) 10). lia. Qed.

Lemma offset_range s : 0 <= offset base s < RLC_AM_SN_MODULO.
Proof. apply Z.mod_pos_bound. done. Qed.

Lemma offset_sn s : 0 <= s < RLC_AM_SN_MODULO -> s = (base + offset base s) mod RLC_AM_SN_MODULO.
Proof. unfold offset, RLC_AM_SN_MODULO in *. intros. div_lia. Qed.

Lemma sn_offset k : 0 <= k < RLC_AM_SN_MODULO -> offset base ((base + k) mod RLC_AM_SN_MODULO) = k.
Proof. unfold offset, RLC_AM_SN_MODULO in *. intros. div_lia. Qed.

Lemma prev_next d r : at_sn d r -> next_sn (previous_sn_cursor r) = (base + d) mod RLC_AM_SN_MODULO.
Proof. intros [H E]. rewrite E, next_sn_mod. unfold RLC_AM_SN_MODULO. div_lia. Qed.

Lemma asked_mono l l' s b : asked l s b -> asked (l ++ l') s b.
Proof. intros (n & Hn & H). exists n. split; [|done]. apply elem_of_app. by left. Qed.

Lemma sound_mono d r r' l : sound d r -> nacks r' = nacks r ++ l -> sound d r'.
Proof.
  intros S E k b Hk Hb. destruct (S k b Hk Hb) as [H|H]; [by left|right]. unfold seen. rewrite E, map_app. by apply asked_mono.
Qed.

Lemma nacks_length l : 12 * Z.of_nat (length l) <= Z.of_nat (length (l ≫= nack_bits)).
Proof.
  induction l as [|n l IH]; [done|]. rewrite bind_cons, length_app. unfold nack_bits at 1. rewrite !length_app, !length_bits_of. cbn [length]. lia.
Qed.

Lemma sorted_snoc {A} (R : A -> A -> Prop) l x : StronglySorted R l -> Forall (fun y => R y x) l -> StronglySorted R (l ++ [x]).
Proof.
  induction 1 as [|y l HS IH HF]; intros Hx; cbn [app]; [by repeat constructor|]. apply Forall_cons in Hx as [Hy Hx]. constructor; [by apply IH|].
  apply Forall_app. split; [done|by apply Forall_singleton].
Qed.

Lemma upto_snoc d r r' n : upto d r -> nacks r' = nacks r ++ [n] -> offset base (nack_sn n) < d -> upto d r'.
Proof. intros U E Hn. unfold upto. rewrite E. apply Forall_app. split; [done|by apply Forall_singleton]. Qed.

Lemma upto_mono d d' r : upto d r -> d <= d' -> upto d' r.
Proof. intros U H. eapply Forall_impl; [exact U|]. cbn. lia. Qed.

(** An entry is added. *)
Lemma push_nack_ok r s start stop x2 bits : good r -> 0 <= s < 2 ^ 10 -> 0 <= start < 2 ^ 15 -> 0 <= stop < 2 ^ 15 ->
  (x2 = 0 /\ bits = 12) \/ (x2 = 1 /\ bits = 42) -> bits <= nb_bits_to_transmit r -> honest (mk_nack s 1 x2 start stop) ->
  upto (offset base s + 1) r -> offset base s < RLC_AM_WINDOW_SIZE ->
  exists r', push_nack r s start stop x2 bits = Ok r' /\ good r' /\ nacks r' = nacks r ++ [mk_nack s 1 x2 start stop] /\
    previous_sn_cursor r' = previous_sn_cursor r.
Proof.
  intros (G & O & F & F0) Hs Hst Hsp Hx Hb Hh Hu Ho. unfold push_nack. pose proof (nacks_length (nacks r)).
  rewrite (proj2 (Nat.ltb_lt _ _)) by (unfold RLC_AM_MAX_NACK_IN_STATUS_PDU; lia). rewrite !Z.mod_small by lia.
  eexists. split; [reflexivity|]. rsimpl. split; [|done]. unfold good. rsimpl. split_and!; try done.
  - apply Forall_app. split; [done|]. apply Forall_singleton. split; [unfold valid_nack; cbn [nack_sn e1 e2 so_start so_end]; lia|done].
  - apply sorted_snoc; [done|]. eapply Forall_impl; [exact Hu|]. unfold nack_le. cbn. lia.
  - unfold fits. rsimpl. rewrite bind_app, length_app. cbn [mbind list_bind app]. rewrite app_nil_r. unfold nack_bits at 2.
    rewrite !length_app, !length_bits_of. cbn [e2 nack_sn e1 so_start so_end].
    destruct Hx as [[-> ->]|[-> ->]]; cbn [Z.ltb Z.compare length]; rewrite ?length_app, ?length_bits_of; lia.
Qed.

(** ** Missing PDUs *)

Lemma settled_final d r : good r -> sound d r -> -1 <= d <= RLC_AM_WINDOW_SIZE -> final ((base + d) mod RLC_AM_SN_MODULO) r.
Proof. intros G S Hd. split; [done|]. by exists d. Qed.

Lemma not_received_gap d t : 0 <= d < t -> t < RLC_AM_SN_MODULO ->
  Forall (fun x => offset base (sn x) < d \/ t <= offset base (sn x)) buffer ->
  forall b, ~ received buffer ((base + d) mod RLC_AM_SN_MODULO) b.
Proof.
  intros Hd Ht Hgap b (x & Hx & E & _). rewrite Forall_forall in Hgap. specialize (Hgap x Hx). rewrite E, sn_offset in Hgap by lia. lia.
Qed.

Lemma push_missing_ok t : 0 <= t < RLC_AM_WINDOW_SIZE -> forall fuel d r, settled d r -> d <= t -> (Z.to_nat (t - d) <= fuel)%nat ->
  Forall (fun x => offset base (sn x) < d \/ t <= offset base (sn x)) buffer ->
  exists o, push_missing fuel ((base + t) mod RLC_AM_SN_MODULO) r = Ok o /\
    match o with Finish ack r' => final ack r' | Continue _ r' => settled t r' end.
Proof.
  intros Ht. unfold RLC_AM_WINDOW_SIZE in Ht. assert (Hm : RLC_AM_SN_MODULO = 1024) by done. induction fuel as [|fuel IH]; intros d r (G & S & U & A) Hd Hf Hgap; pose proof (prev_next d r A) as En; pose proof A as [Ad Ap];
    cbn [push_missing]; rewrite En; destruct (Z.eqb_spec ((base + d) mod RLC_AM_SN_MODULO) ((base + t) mod RLC_AM_SN_MODULO)) as [E|E].
  1, 3: apply (f_equal (offset base)) in E; rewrite !sn_offset in E by lia; subst t; eexists; split; [reflexivity|]; by split_and!.
  - destruct E. do 2 f_equal. lia.
  - assert (d <> t) by congruence. destruct (Z.ltb_spec 12 (nb_bits_to_transmit r)) as [Hb|Hb].
    + destruct (push_nack_ok (r <| previous_sn_cursor := (base + d) mod RLC_AM_SN_MODULO |>) ((base + d) mod RLC_AM_SN_MODULO) 0 0x7ff 0 12)
        as (r' & -> & G' & Enk & Ep); try (cbn; lia); try done.
      { apply Z.mod_pos_bound. done. }
      { intros b _ _. apply (not_received_gap d t); lia || done. }
      { rewrite sn_offset by lia. apply (upto_mono d (d + 1) r U). lia. }
      { rewrite sn_offset by lia. unfold RLC_AM_WINDOW_SIZE. lia. }
      cbn [mbind res_bind]. rsimpl. apply (IH (d + 1) r'); try lia.
      * split; [done|]. split; [|split; [|split; [unfold RLC_AM_WINDOW_SIZE; lia|rewrite Ep; f_equal; lia]]];
          [|eapply upto_snoc; [apply (upto_mono d (d + 1) r U); lia|exact Enk|cbn [nack_sn]; rewrite sn_offset by lia; lia]].
        intros k b Hk Hb'. destruct (Z.eq_dec k d) as [->|]; [right|apply (sound_mono d r r' _ S Enk); lia].
        unfold seen. rewrite Enk, map_app. eexists. split; [apply elem_of_app; right; by apply list_elem_of_singleton|]. cbn. split; [done|lia].
      * eapply Forall_impl; [exact Hgap|]. cbn. intros x Hx.
        lia.
    + eexists. split; [reflexivity|]. by apply settled_final; [..|lia].
Qed.

(** ** Partly received PDUs *)

Lemma sorted_split pre p rest : buffer = pre ++ p :: rest ->
  Forall (fun q => follows base q p) pre /\ Forall (follows base p) rest /\ StronglySorted (follows base) (p :: rest).
Proof.
  intros E. destruct Hbuf as [_ HS]. rewrite E in HS. clear E. induction pre as [|x pre IH]; cbn [app] in HS; apply StronglySorted_inv in HS as [HS HF].
  - split_and!; [by apply Forall_nil|done|by constructor].
  - destruct (IH HS) as (H1 & H2 & H3). split_and!; [|done..]. apply Forall_cons. split; [|done].
    apply Forall_app in HF as [_ HF]. by apply Forall_cons in HF as [HF _].
Qed.

(** The bytes below [w] of PDU [s] are reported. *)
Definition covered (s w : Z) (r : report) : Prop :=
  forall b, 0 <= b < w -> b < 0x7FFF -> received buffer s b \/ asked (seen r) s b.

(** The segments of PDU [s] in [l] end before [w]. *)
Definition ended (s w : Z) (l : list rx_pdu) : Prop :=
  Forall (fun q => sn q = s -> so q + payload_size q <= w /\ lsf q = 0 /\ all_segments_received q = 0) l.

Lemma covered_mono s w r r' l : covered s w r -> nacks r' = nacks r ++ l -> covered s w r'.
Proof.
  intros C E b Hb Hb'. destruct (C b Hb Hb') as [H|H]; [by left|right]. unfold seen. rewrite E, map_app. by apply asked_mono.
Qed.

(** The bytes of segment [p] after [w]. *)
Lemma covered_segment pre p rest w r : buffer = pre ++ p :: rest -> covered (sn p) w r -> so p <= w -> covered (sn p) (so_after p) r.
Proof.
  intros E C Hw b Hb Hb'. destruct (Z.lt_ge_cases b w); [apply C; lia|]. left. exists p. split; [rewrite E; apply elem_of_app; right; by left|].
  split; [done|]. unfold so_after in Hb. right. destruct (Z.eqb_spec (lsf p) 1); [right|left]; lia.
Qed.

(** The bytes between the segments before [p] and [p] are missing. *)
Lemma gap_honest pre p rest w : buffer = pre ++ p :: rest -> ended (sn p) w pre -> all_segments_received p = 0 -> valid_rx base p ->
  honest (mk_nack (sn p) 1 1 w (so p - 1)).
Proof.
  intros E He Ha (_ & _ & V1 & V2 & V3 & V4) b Hb Hb' (q & Hq & Esn & Hr). cbn in Hb, Esn. rewrite E in Hq. apply elem_of_app in Hq as [Hq|Hq].
  - unfold ended in He. rewrite Forall_forall in He. destruct (He q Hq Esn) as (? & ? & ?). lia.
  - apply elem_of_cons in Hq as [->|Hq]; [lia|]. destruct (sorted_split _ _ _ E) as (_ & HF & _). rewrite Forall_forall in HF.
    destruct (HF q Hq) as [F|(_ & F1 & F2 & F3)]; [rewrite Esn in F; lia|]. apply F3 in Ha. lia.
Qed.

Lemma gap_asked r r' s w stop b : nacks r' = nacks r ++ [mk_nack s 1 1 w stop] -> w <= b <= stop -> asked (seen r') s b.
Proof.
  intros E Hb. unfold seen. rewrite E, map_app. exists (mk_nack s 1 1 w stop). split; [apply elem_of_app; right; by apply list_elem_of_singleton|done].
Qed.

Lemma push_gap_ok pre p rest w r t : buffer = pre ++ p :: rest -> valid_rx base p -> all_segments_received p = 0 -> t = offset base (sn p) ->
  good r -> sound t r -> upto (t + 1) r -> covered (sn p) w r -> ended (sn p) w pre -> 0 <= w < 0x7FFF ->
  exists o, push_gap p w r = Ok o /\
    match o with
    | Finish ack r' => final ack r'
    | Continue _ r' => good r' /\ sound t r' /\ upto (t + 1) r' /\ covered (sn p) (so_after p) r' /\ previous_sn_cursor r' = previous_sn_cursor r
    end.
Proof.
  intros E V Ha Et G S U C He Hw. pose proof V as (V1 & V2 & V3 & V4 & V5 & V6). unfold push_gap. destruct (Z.ltb_spec w (so p)) as [Hlt|Hge].
  - destruct (Z.leb_spec 42 (nb_bits_to_transmit r)) as [Hb|Hb].
    + destruct (push_nack_ok r (sn p) w (so p - 1) 1 42 G) as (r' & -> & G' & En & Ep); try (cbn; lia); try done.
      { by eapply gap_honest. }
      { by rewrite <- Et. }
      cbn [mbind res_bind]. eexists. split; [reflexivity|]. split; [done|]. split; [by eapply sound_mono|].
      split; [eapply upto_snoc; [done..|cbn [nack_sn]; lia]|]. split; [|done].
      apply (covered_segment pre p rest (so p) r' E); [|lia]. intros b Hb1 Hb2.
      destruct (Z.lt_ge_cases b w); [eapply covered_mono; try done; lia|]. right. eapply gap_asked; [done|lia].
    + eexists. split; [reflexivity|]. rewrite (offset_sn (sn p) V1). rewrite <- Et. apply settled_final; try done.
      subst t. pose proof (offset_range (sn p)). unfold RLC_AM_WINDOW_SIZE in *. lia.
  - eexists. split; [reflexivity|]. split; [done|]. split; [done|]. split; [done|]. split; [by eapply covered_segment|done].
Qed.

(** Where the cursor is after the segments of PDU [s]. *)
Definition past_segments (s : Z) (rest' : list rx_pdu) (w : Z) (r : report) : Prop :=
  good r /\ sound (offset base s) r /\ upto (offset base s + 1) r /\ previous_sn_cursor r = s /\ covered s w r /\ 0 <= w <= 0x7FFF /\
  (w <> 0x7FFF -> ended s w buffer) /\
  exists pre', buffer = pre' ++ rest' /\ Forall (fun q => offset base (sn q) <= offset base s) pre' /\
    Forall (fun q => offset base s < offset base (sn q)) rest'.

Lemma so_after_range p : valid_rx base p -> 0 <= so_after p <= 0x7FFF.
Proof. intros (_ & _ & V1 & V2 & V3 & V4). unfold so_after. destruct (_ =? _); lia. Qed.

(** The PDUs after [p] when the next one has another sequence number. *)
Lemma later_pdus pre p q rest : buffer = pre ++ p :: q :: rest -> sn q <> sn p ->
  Forall (fun x => offset base (sn p) < offset base (sn x)) (q :: rest).
Proof.
  intros E Hne. destruct (sorted_split _ _ _ E) as (_ & HF & HS). apply StronglySorted_inv in HS as [HS _]. apply StronglySorted_inv in HS as [_ HQ].
  apply Forall_cons in HF as [[Hq|[Hq _]] HF]; [|by destruct Hne]. apply Forall_cons. split; [done|].
  eapply Forall_impl; [exact HQ|]. cbn. intros x [Hx|[Hx _]]; [lia|]. by rewrite <- Hx.
Qed.

Lemma earlier_pdus pre p rest : buffer = pre ++ p :: rest -> Forall (fun x => offset base (sn x) <= offset base (sn p)) (pre ++ [p]).
Proof.
  intros E. destruct (sorted_split _ _ _ E) as (HF & _). apply Forall_app. split; [|by apply Forall_singleton].
  eapply Forall_impl; [exact HF|]. cbn. intros x [Hx|[Hx _]]; [lia|by rewrite Hx].
Qed.

Lemma ended_next pre p rest w : buffer = pre ++ p :: rest -> ended (sn p) w pre -> all_segments_received p = 0 ->
  lsf p = 0 -> ended (sn p) (so p + payload_size p) (pre ++ [p]).
Proof.
  intros E He Ha Hl. destruct (sorted_split _ _ _ E) as (HF & _). apply Forall_app. split; [|apply Forall_singleton; done].
  unfold ended in *. rewrite Forall_forall in *. intros x Hx Esn. destruct (He x Hx Esn) as (_ & H1 & H2).
  pose proof Hbuf as [HV _]. rewrite E, Forall_app, Forall_cons in HV. destruct HV as (_ & (_ & _ & V1 & V2 & _) & _).
  destruct (HF x Hx) as [F|(_ & F & _)]; [rewrite Esn in F; lia|]. split_and!; [lia|done..].
Qed.

Lemma push_segments_ok rest : forall pre p w r, buffer = pre ++ p :: rest -> all_segments_received p = 0 ->
  good r -> sound (offset base (sn p)) r -> upto (offset base (sn p) + 1) r -> covered (sn p) w r -> ended (sn p) w pre -> 0 <= w < 0x7FFF ->
  (previous_sn_cursor r = sn p \/ previous_sn_cursor r = (base + offset base (sn p) - 1) mod RLC_AM_SN_MODULO) ->
  exists o, push_segments p rest w r = Ok o /\
    match o with
    | Finish ack r' => final ack r'
    | Continue (rest', w') r' => past_segments (sn p) rest' w' r' /\ (length rest' <= length rest)%nat
    end.
Proof.
  induction rest as [|q rest IH]; intros pre p w r E Ha G S U C He Hw Hp.
  all: pose proof Hbuf as [HV _]; rewrite E, Forall_app, Forall_cons in HV; destruct HV as (_ & Vp & Vr); pose proof Vp as (V1 & V2 & V3 & V4 & V5 & V6).
  all: pose proof (offset_range (sn p)) as Ho; unfold RLC_AM_WINDOW_SIZE in V2.
  all: destruct (push_gap_ok pre p _ w r _ E Vp Ha eq_refl G S U C He Hw) as (o & Eo & Ho'); cbn [push_segments]; rewrite Eo; cbn [mbind res_bind]; destruct o as [ack r'|[] r'].
  1, 3: eexists; split; [reflexivity|done].
  all: destruct Ho' as (G' & S' & U' & C' & Ep).
  - eexists. split; [reflexivity|]. rewrite Ep. destruct Hp as [->| ->].
    + rewrite (offset_sn (sn p) V1). apply settled_final; try done. unfold RLC_AM_WINDOW_SIZE. lia.
    + rewrite <- Z.add_sub_assoc. apply settled_final; try done; [|unfold RLC_AM_WINDOW_SIZE; lia]. intros k b Hk. apply S'. lia.
  - destruct (Z.eqb_spec (sn q) (sn p)) as [Eq|Hne].
    + destruct (sorted_split _ _ _ E) as (_ & HF & _). apply Forall_cons in HF as [[F|(_ & F1 & F2 & F3)] _]; [rewrite Eq in F; lia|].
      assert (Hw' : so_after p = so p + payload_size p) by (unfold so_after; by rewrite F2).
      rewrite <- Eq in *. destruct (IH (pre ++ [p]) q (so_after p) (r' <| previous_sn_cursor := sn q |>)) as (o' & E' & Ho2); try done.
      * by rewrite <- app_assoc.
      * by apply F3.
      * rewrite Hw', Eq. by eapply ended_next; [..|done]; rewrite <- ?Eq.
      * lia.
      * by left.
      * exists o'. split; [done|]. destruct o' as [|[rest' w'] r2]; [done|]. destruct Ho2. split; [done|]. cbn [length]. lia.
    + eexists. split; [reflexivity|]. split; [|done]. split_and!; try done; try apply (so_after_range p Vp).
      * intros Hw'. unfold so_after in *. destruct (Z.eqb_spec (lsf p) 1); [done|]. unfold ended. rewrite E, (cons_middle p), app_assoc.
        apply Forall_app. split; [apply (ended_next pre p _ w E); done || lia|].
        eapply Forall_impl; [exact (later_pdus _ _ _ _ E Hne)|]. cbn. intros x Hx Esn. rewrite Esn in Hx. lia.
      * exists (pre ++ [p]). split_and!; [by rewrite <- app_assoc|by eapply earlier_pdus|by eapply later_pdus].
Qed.

(** PDU [s] is reported. *)
Lemma sound_next s r : 0 <= s < RLC_AM_SN_MODULO -> sound (offset base s) r -> covered s 0x7FFF r -> sound (offset base s + 1) r.
Proof.
  intros Hs S C k b Hk Hb. destruct (Z.eq_dec k (offset base s)) as [->|]; [|apply S; lia].
  rewrite <- offset_sn by done. apply C; lia.
Qed.

Lemma push_partial_ok pre p rest r : buffer = pre ++ p :: rest -> all_segments_received p = 0 ->
  settled (offset base (sn p)) r -> Forall (fun q => offset base (sn q) < offset base (sn p)) pre ->
  exists o, push_partial p rest r = Ok o /\
    match o with
    | Finish ack r' => final ack r'
    | Continue rest' r' => (exists d', inv d' rest' r') /\ (length rest' <= length rest)%nat
    end.
Proof.
  intros E Ha (G & S & U & A) Hpre. unfold push_partial.
  destruct (push_segments_ok rest pre p 0 r E Ha G S) as (o & -> & Ho); [eapply upto_mono; [done|lia]|intros b ?; lia| |lia|right; apply A|].
  { eapply Forall_impl; [exact Hpre|]. cbn. intros x Hx Esn. rewrite Esn in Hx. lia. }
  cbn [mbind res_bind]. destruct o as [ack r'|[rest' w] r']; [eexists; split; [reflexivity|done]|].
  destruct Ho as ((G' & S' & U' & Ep & C & Hw & He & pre' & E' & H1 & H2) & Hlen).
  pose proof Hbuf as [HV _]. rewrite E, Forall_app, Forall_cons in HV. destruct HV as (_ & (V1 & V2 & _) & _). pose proof (offset_range (sn p)) as Hr.
  assert (Hinv : forall r2, good r2 -> sound (offset base (sn p) + 1) r2 -> upto (offset base (sn p) + 1) r2 -> previous_sn_cursor r2 = sn p -> exists d', inv d' rest' r2).
  { intros r2 G2 S2 U2 Ep2. exists (offset base (sn p) + 1). split; [split; [done|]; split; [done|]; split; [done|]|].
    - split; [unfold RLC_AM_WINDOW_SIZE in *; lia|]. rewrite Ep2, Z.add_assoc, Z.add_simpl_r. by apply offset_sn.
    - exists pre'. split_and!; [done|eapply Forall_impl; [exact H1|cbn; lia]|eapply Forall_impl; [exact H2|cbn; lia]]. }
  destruct (Z.eqb_spec w 0x7FFF) as [->|Hne].
  - eexists. split; [reflexivity|]. split; [|done]. by apply Hinv; [|apply sound_next|..].
  - destruct (Z.leb_spec 42 (nb_bits_to_transmit r')) as [Hb|Hb].
    + rewrite Ep. destruct (push_nack_ok r' (sn p) w 0x7FFF 1 42 G') as (r2 & -> & G2 & En & Ep2); try (cbn; lia); try done.
      { intros b Hb1 Hb2 (x & Hx & Esn & Hr2). specialize (He Hne). unfold ended in He. rewrite Forall_forall in He.
        destruct (He x Hx Esn) as (? & ? & ?). cbn in Hb1. lia. }
      cbn [mbind res_bind]. eexists. split; [reflexivity|]. split; [|done].
      apply Hinv; [done| |eapply upto_snoc; [done..|cbn [nack_sn]; lia]|congruence].
      apply sound_next; [done|by eapply sound_mono|]. intros b Hb1 Hb2.
      destruct (Z.lt_ge_cases b w); [eapply covered_mono; try done; lia|right; eapply gap_asked; [done|lia]].
    + eexists. split; [reflexivity|]. rewrite Ep, (offset_sn (sn p) V1). apply settled_final; try done. unfold RLC_AM_WINDOW_SIZE in *. lia.
Qed.

(** ** The whole report *)

Lemma skip_same_ok d r rest : forall pre p, behind d pre (p :: rest) -> settled d r -> sn p = previous_sn_cursor r -> 0 < d ->
  match skip_same p rest r with
  | Finish ack r' => final ack r'
  | Continue (q, rest') r' => r' = r /\ sn q <> previous_sn_cursor r /\ (exists pre', behind d pre' (q :: rest')) /\ (length rest' <= length rest)%nat
  end.
Proof.
  induction rest as [|q rest IH]; intros pre p (E & B1 & B2) (G & S & U & A) Esn Hd; cbn [skip_same]; pose proof A as [Ad Ap].
  - replace (if all_segments_received p =? 0 then _ else _) with ((base + d) mod RLC_AM_SN_MODULO); [by apply settled_final; [..|lia]|].
    rewrite Esn, (prev_next d r A). by destruct (_ =? 0).
  - assert (B : behind d (pre ++ [p]) (q :: rest)).
    { split_and!; [by rewrite <- app_assoc| |by apply Forall_cons in B2 as [_ B2]]. apply Forall_app. split; [done|]. apply Forall_singleton.
      rewrite Esn, Ap, <- Z.add_sub_assoc, sn_offset by (unfold RLC_AM_WINDOW_SIZE, RLC_AM_SN_MODULO in *; lia). lia. }
    destruct (Z.eqb_spec (sn q) (previous_sn_cursor r)) as [Eq|Hne].
    + specialize (IH _ q B (conj G (conj S (conj U A))) Eq Hd). destruct (skip_same q rest r) as [|[q' rest'] r']; [done|].
      destruct IH as (H1 & H2 & H3 & H4). split_and!; try done. cbn [length]. lia.
    + split; [done|]. split; [done|]. split; [by exists (pre ++ [p])|cbn [length]; lia].
Qed.

Lemma round_next d pre q rest r : behind d pre (q :: rest) -> at_sn d r -> sn q <> previous_sn_cursor r -> d <= offset base (sn q).
Proof.
  intros (E & _ & B) [Ad Ap] Hne. apply Forall_cons in B as [B _]. destruct (Z.eq_dec (offset base (sn q)) (d - 1)) as [Eo|]; [|lia].
  destruct Hne. pose proof Hbuf as [HV _]. rewrite E, Forall_app, Forall_cons in HV. destruct HV as (_ & (V1 & _) & _).
  rewrite (offset_sn (sn q) V1), Eo, Ap. f_equal. lia.
Qed.

Lemma report_round_ok d p rest r : inv d (p :: rest) r ->
  exists o, report_round p rest r = Ok o /\
    match o with
    | Finish ack r' => final ack r'
    | Continue cur' r' => (exists d', inv d' cur' r') /\ (length cur' <= length rest)%nat
    end.
Proof.
  intros [(G & S & U & A) [pre B]]. unfold report_round.
  assert (Hskip : match (if sn p =? previous_sn_cursor r then skip_same p rest r else Continue (p, rest) r) with
    | Finish ack r' => final ack r'
    | Continue (q, rest') r' => r' = r /\ sn q <> previous_sn_cursor r /\ (exists pre', behind d pre' (q :: rest')) /\ (length rest' <= length rest)%nat
    end).
  { destruct (Z.eqb_spec (sn p) (previous_sn_cursor r)) as [Ep|Hne]; [|split; [done|]; split; [done|]; split; [by exists pre|done]].
    apply (skip_same_ok d r rest pre p B); try done. pose proof A as [Ad Ap]. pose proof B as (E & _ & _). pose proof Hbuf as [HV _].
    rewrite E, Forall_app, Forall_cons in HV. destruct HV as (_ & (V1 & V2 & _) & _). destruct (Z.eq_dec d 0) as [->|]; [|lia].
    rewrite Ep, Ap in V2. unfold offset, RLC_AM_WINDOW_SIZE, RLC_AM_SN_MODULO in *. clear - V2 Hbase. exfalso. revert V2. div_lia. }
  destruct (if sn p =? _ then _ else _) as [ack r'|[q rest'] r']; [eexists; split; [reflexivity|done]|].
  destruct Hskip as (-> & Hne & [pre' B'] & Hlen). pose proof (round_next _ _ _ _ _ B' A Hne) as Hdq. pose proof B' as (E & B1 & B2).
  pose proof Hbuf as [HV _]. rewrite E, Forall_app, Forall_cons in HV. destruct HV as (_ & (V1 & V2 & _) & _). pose proof (offset_range (sn q)) as Hr.
  set (t := offset base (sn q)) in *. destruct (push_missing_ok t ltac:(lia) (Z.to_nat RLC_AM_SN_MODULO) d r) as (o & Eo & Ho).
  - done.
  - done.
  - pose proof A as [Ad _]. unfold RLC_AM_SN_MODULO, RLC_AM_WINDOW_SIZE in *. lia.
  - rewrite E. apply Forall_app. split; [eapply Forall_impl; [exact B1|cbn; tauto]|]. apply Forall_cons. split; [right; done|].
    destruct (sorted_split _ _ _ E) as (_ & HF & _). eapply Forall_impl; [exact HF|]. cbn. intros x [Hx|[Hx _]]; right; unfold t; [lia|by rewrite Hx].
  - unfold t in Eo. rewrite <- offset_sn in Eo by done. rewrite Eo. cbn [mbind res_bind]. destruct o as [ack r'|[] r']; [eexists; split; [reflexivity|done]|].
    assert (Bt : Forall (fun x => offset base (sn x) < offset base (sn q)) pre') by (eapply Forall_impl; [exact B1|cbn; unfold t in *; lia]).
    destruct (Z.eqb_spec (all_segments_received q) 0) as [Ea|Ea].
    + destruct (push_partial_ok pre' q rest' r' E Ea Ho Bt) as (o & -> & Ho'). eexists. split; [reflexivity|]. destruct o; [done|]. split; [apply Ho'|lia].
    + eexists. split; [reflexivity|]. split; [|done]. exists (t + 1). destruct Ho as (G' & S' & U' & A').
      split; [split; [done|]; split; [|split; [eapply upto_mono; [exact U'|lia]|]]|].
      * apply sound_next; [done|done|]. intros b Hb1 Hb2. left. exists q. split_and!; [rewrite E; apply elem_of_app; right; by left|done|by left].
      * split; [unfold RLC_AM_WINDOW_SIZE in *; lia|]. rsimpl. rewrite Z.add_assoc, Z.add_simpl_r. by apply offset_sn.
      * exists (pre' ++ [q]). split_and!; [by rewrite <- app_assoc|eapply Forall_impl; [by eapply earlier_pdus|cbn; unfold t in *; lia]|].
        apply Forall_cons in B2 as [_ B2]. destruct (sorted_split _ _ _ E) as (_ & HF & _).
        eapply Forall_impl; [exact HF|]. cbn. intros x [Hx|[Hx _]]; unfold t; [lia|rewrite Hx; lia].
Qed.

Lemma report_loop_ok fuel : forall cur d r, inv d cur r -> (length cur <= fuel)%nat ->
  exists ack r', report_loop fuel cur r = Ok (ack, r') /\ final ack r'.
Proof.
  induction fuel as [|fuel IH]; intros [|p rest] d r I Hf; cbn [length] in Hf; try lia; cbn [report_loop].
  1, 2: do 2 eexists; split; [reflexivity|]; destruct I as [(G & S & U & A) _]; rewrite (prev_next d r A);
    apply settled_final; try done; destruct A as [A _]; unfold RLC_AM_WINDOW_SIZE in *; lia.
  destruct (12 <=? nb_bits_to_transmit r).
  - destruct (report_round_ok d p rest r I) as (o & -> & Ho). cbn [mbind res_bind]. destruct o as [ack r'|cur' r']; [by eexists _, _|].
    destruct Ho as [[d' I'] Hl]. apply (IH cur' d' r' I'). lia.
  - do 2 eexists; split; [reflexivity|]. destruct I as [(G & S & U & A) _]. rewrite (prev_next d r A).
    apply settled_final; try done. destruct A as [A _]. unfold RLC_AM_WINDOW_SIZE in *. lia.
Qed.

Lemma head_in_window e p rest : vr_r e = base -> vr_mr e = (base + RLC_AM_WINDOW_SIZE) mod RLC_AM_SN_MODULO -> buffer = p :: rest ->
  rlc_am_in_rx_window e (sn p) = 1.
Proof.
  intros Er Em E. pose proof Hbuf as [HV _]. rewrite E, Forall_cons in HV. destruct HV as [(V1 & V2 & _) _].
  unfold rlc_am_in_rx_window, shifted, u16. rewrite (proj2 (Z.leb_gt _ _)) by lia. rewrite Er, Em.
  unfold offset, RLC_AM_WINDOW_SIZE, RLC_AM_SN_MODULO in *. rewrite (proj2 (Z.ltb_lt _ _)); [done|]. revert V2. div_lia.
Qed.

Lemma make_report_ok e : vr_r e = base -> vr_mr e = (base + RLC_AM_WINDOW_SIZE) mod RLC_AM_SN_MODULO -> receiver_buffer e = buffer ->
  nb_bytes_requested_by_mac e = N -> 2 <= N -> exists ack r, make_report e = Ok (ack, r) /\ final ack r.
Proof.
  intros Er Em Eb En HN2. unfold make_report. rewrite Er, En. set (r0 := mk_report [] _ _).
  assert (H0 : settled 0 r0).
  { split; [split; [by apply Forall_nil|split; [constructor|unfold fits; cbn; lia]]|]. split; [intros k b Hk; lia|]. split; [by apply Forall_nil|].
    split; [unfold RLC_AM_WINDOW_SIZE; lia|]. unfold r0. cbn [previous_sn_cursor]. change RLC_AM_SN_MASK with (Z.ones 10). rewrite Z.land_ones by lia. f_equal. lia. }
  destruct (receiver_buffer e) as [|p rest] eqn:E.
  - do 2 eexists; split; [reflexivity|]. destruct H0 as (G & S & _). rewrite <- (Z.mod_small base RLC_AM_SN_MODULO) by done. replace base with (base + 0) at 1 by lia.
    apply settled_final; try done.
  - cbn [find_in_window]. rewrite (head_in_window e p rest) by done. cbn [Z.eqb mbind res_bind].
    apply (report_loop_ok _ _ 0); [|done]. split; [done|]. exists []. split_and!; [done|by apply Forall_nil|].
    apply Forall_forall. intros x _. pose proof (offset_range (sn x)). lia.
Qed.

End Report.

End RlcAmReportProofs.
