(* ===== verification/RlcAmExchange.v ===== *)
(** * A status report and the peer that receives it

    The STATUS PDU an entity sends is decoded by its peer into the same
    entries, and the peer's loop acknowledges or retransmits what they say. *)

From Stdlib Require Import Sorting.Sorted.
From S2P Require Import Prelude Bits RlcUmEntity RlcAmStatus RlcAmEntity RlcAmCodec RlcAmReport RlcAmReportProofs.
Import Bits RlcAmStatus RlcAmEntity RlcAmCodec RlcAmReport RlcAmReportProofs.

Module RlcAmExchange.

(** ** The last extension bit *)

(** What the peer uses of an entry. *)
Definition core (n : nack_sn_t) : Z * Z * Z := (nack_sn n, so_start n, so_end n).

Lemma close_core l : map core (map seen_nack (close_nacks l)) = map core (map seen_nack l).
Proof.
  induction l as [|n [|m l] IH]; [done| |].
  - cbn. f_equal. unfold seen_nack. by destruct n; cbn; destruct (_ <? _).
  - change (close_nacks (n :: m :: l)) with (n :: close_nacks (m :: l)). cbn [map] in *. by rewrite IH.
Qed.

Lemma asked_core l l' s b : map core l = map core l' -> asked l s b -> asked l' s b.
Proof.
  intros E (n & Hn & Hs & Hb). assert (H : core n ∈ map core l') by (rewrite <- E; by apply list_elem_of_fmap_2).
  apply list_elem_of_fmap in H as (m & Em & Hm). unfold core in Em. injection Em as E1 E2 E3. exists m. split; [done|]. lia.
Qed.

Lemma close_bits l : length (close_nacks l ≫= nack_bits) = length (l ≫= nack_bits).
Proof.
  induction l as [|n [|m l] IH]; [done| |].
  - cbn [close_nacks]. by rewrite !bind_cons, !length_app.
  - change (close_nacks (n :: m :: l)) with (n :: close_nacks (m :: l)). by rewrite bind_cons, (bind_cons _ n), !length_app, IH.
Qed.

Lemma close_length l : length (close_nacks l) = length l.
Proof. induction l as [|n [|m l] IH]; [done..|]. change (close_nacks (n :: m :: l)) with (n :: close_nacks (m :: l)). cbn [length]. by rewrite IH. Qed.

Lemma close_valid l : Forall valid_nack l -> Forall valid_nack (close_nacks l).
Proof.
  induction l as [|n [|m l] IH]; intros H; [done| |].
  - apply Forall_singleton in H as (V1 & V2 & V3). apply Forall_singleton. unfold valid_nack. rsimpl. split_and!; lia || apply V3.
  - apply Forall_cons in H as [Hn H]. apply Forall_cons. split; [done|by apply IH].
Qed.

Lemma close_chained l : Forall (fun n => e1 n = 1) l -> chained (close_nacks l).
Proof.
  induction l as [|n [|m l] IH]; intros H; [done|done|]. apply Forall_cons in H as [Hn H].
  change (close_nacks (n :: m :: l)) with (n :: close_nacks (m :: l)). split; [|by apply IH]. by destruct l.
Qed.

(** ** The STATUS PDU *)

Lemma written_take n bytes bs : written bytes bs -> (length bs <= 8 * n)%nat -> written (take n bytes) bs.
Proof.
  intros [Hb [k Hk]] Hn. split; [by apply Forall_take|]. exists (length (message_bits (take n bytes)) - length bs)%nat.
  rewrite <- (take_drop n bytes), message_bits_app in Hk. assert (Hl := f_equal length Hk). rewrite !length_app, length_replicate in Hl.
  destruct (decide (length bs <= length (message_bits (take n bytes)))%nat) as [Hle|Hgt].
  - apply (f_equal (take (length (message_bits (take n bytes))))) in Hk. rewrite take_app_length in Hk.
    rewrite take_app, (take_ge bs), take_replicate, Nat.min_l in Hk by lia. exact Hk.
  - rewrite message_bits_length, length_take in Hgt, Hl. assert (length (drop n bytes) = 0%nat) as Hz by (rewrite length_drop; lia).
    rewrite (message_bits_length (drop n bytes)), Hz in Hl. lia.
Qed.

(** The entity's reception side is in order. *)
Definition rx_ready (e : rlc_am_entity_t) : Prop :=
  0 <= vr_r e < RLC_AM_SN_MODULO /\ vr_mr e = (vr_r e + RLC_AM_WINDOW_SIZE) mod RLC_AM_SN_MODULO /\
  rx_ordered (vr_r e) (receiver_buffer e).

Lemma send_ok c e : RlcUm.mem_block_ok c = true -> rx_ready e -> 2 <= nb_bytes_requested_by_mac e <= 1536 ->
  exists e' tb ack r, make_report e = Ok (ack, r) /\ rlc_am_send_status_pdu c e = Ok e' /\ control_pdu_list e' = tb :: control_pdu_list e /\
    0 < tb_size tb <= nb_bytes_requested_by_mac e /\ nb_bytes_requested_by_mac e' = nb_bytes_requested_by_mac e - tb_size tb /\
    Z.of_nat (length (tb_bytes tb)) = tb_size tb /\
    final (vr_r e) (receiver_buffer e) (nb_bytes_requested_by_mac e) ack r /\
    rlc_am_get_control_pdu_infos (tb_bytes tb) (tb_size tb) =
      Ok (0, 0, mk_info 0 0 ack (if (0 <? length (nacks r))%nat then 1 else 0) (map seen_nack (close_nacks (nacks r)))).
Proof.
  intros Hc (Hr & Hm & Ho) HN. set (N := nb_bytes_requested_by_mac e) in *.
  destruct (make_report_ok (vr_r e) Hr (receiver_buffer e) Ho N ltac:(lia) e eq_refl Hm eq_refl eq_refl ltac:(lia)) as (ack & r & Em & F).
  pose proof F as [(G & _ & F1 & F2) (d & Hd & Ea & _)]. assert (Hack : 0 <= ack < 2 ^ 10) by (rewrite Ea; apply Z.mod_pos_bound; done).
  set (info := mk_info 0 0 ack 0 (close_nacks (nacks r))). set (bits := nb_bits_to_transmit r) in *.
  assert (Hlen : Z.of_nat (length (status_bits info)) = 8 * N - bits).
  { unfold status_bits, info. cbn [nack_list ack_sn]. rewrite !length_app, !length_bits_of, close_bits. lia. }
  set (forecast := N - Z.shiftr (bits - 7) 3). assert (Hf : 8 * N - bits <= 8 * forecast) by (unfold forecast; rewrite Z.shiftr_div_pow2 by lia; div_lia).
  assert (Hsize : bytes_for (length (status_bits info)) = N - Z.shiftr bits 3) by (unfold bytes_for; rewrite Hlen, Z.shiftr_div_pow2 by lia; div_lia).
  assert (Hv : Forall valid_nack (nacks r)) by (eapply Forall_impl; [exact G|intros n (H & _); exact H]).
  destruct (write_status_ok (Z.to_nat forecast) info) as (bytes & Ew & W & Lb); [done|by apply close_valid|lia|].
  unfold rlc_am_send_status_pdu. rewrite Em. cbn [mbind res_bind]. rewrite (Z.mod_small ack) by done. fold N bits forecast info. rewrite Hc. cbn [negb]. rewrite Ew. cbn [mbind res_bind].
  rewrite Hsize, Z.eqb_refl. cbn [assert_fatal mbind res_bind].
  set (size := N - Z.shiftr bits 3) in *. assert (Hs : 0 < size <= N /\ size <= forecast /\ 8 * N - bits <= 8 * size).
  { unfold size, forecast. rewrite !Z.shiftr_div_pow2 by lia. change (2 ^ 3) with 8. pose proof (nacks_length (nacks r)). div_lia. }
  eexists _, (mk_tb size (take (Z.to_nat size) bytes)), ack, r. split; [done|]. split; [reflexivity|]. rsimpl. cbn [tb_size tb_bytes].
  split_and!; try done; try lia.
  - rewrite length_take. lia.
  - rewrite (get_status_ok info); [| done|by apply close_valid|apply close_chained; eapply Forall_impl; [exact G|intros n (_ & H & _); exact H]| |apply written_take; [done|lia]].
    + rewrite Hsize. unfold info, num_nack. cbn [nack_list ack_sn]. rewrite close_length. do 4 f_equal. lia.
    + unfold info, num_nack. cbn [nack_list]. rewrite close_length. pose proof (nacks_length (nacks r)). unfold RLC_AM_MAX_NACK_IN_STATUS_PDU. lia.
Qed.

(** ** The peer's loop *)

Unset Default Proof Using.

Section Peer.
Context (low ack poll : Z) (Hlow : 0 <= low < RLC_AM_SN_MODULO) (Hack : 0 <= ack < RLC_AM_SN_MODULO).

Definition sn_at (j : Z) : Z := (low + j) mod RLC_AM_SN_MODULO.
Definition in_order (n m : nack_sn_t) : Prop := offset low (nack_sn n) <= offset low (nack_sn m).

(** The calls for the PDUs from the [j]-th of the window on, given the entries [l]. *)
Definition answers (j : Z) (l : list nack_sn_t) (calls : list call) : Prop :=
  (forall s, AckPdu s ∈ calls -> exists i, j <= i < offset low ack /\ s = sn_at i /\ Forall (fun n => nack_sn n <> s) l) /\
  (forall s a b, NackPdu s a b ∈ calls -> exists n, n ∈ l /\ core n = (s, a, b)) /\
  (forall n, n ∈ l -> offset low (nack_sn n) < offset low ack -> NackPdu (nack_sn n) (so_start n) (so_end n) ∈ calls) /\
  (forall i, j <= i < offset low ack -> Forall (fun n => nack_sn n <> sn_at i) l -> AckPdu (sn_at i) ∈ calls).

Definition last_ok (j : Z) (last : option nack_sn_t) (l : list nack_sn_t) : Prop :=
  match last with
  | None => True
  | Some m => offset low (nack_sn m) < j \/ exists n rest, l = n :: rest /\ nack_sn n = nack_sn m /\ nack_sn m = sn_at j
  end.

Definition pending (j : Z) (l : list nack_sn_t) : Prop :=
  StronglySorted in_order l /\ Forall (fun n => 0 <= nack_sn n < RLC_AM_SN_MODULO /\ j <= offset low (nack_sn n)) l.

Lemma sn_at_offset j : 0 <= j < RLC_AM_SN_MODULO -> offset low (sn_at j) = j.
Proof. intros. by apply sn_offset. Qed.

Lemma next_sn_at j : next_sn (sn_at j) = sn_at (j + 1).
Proof. rewrite next_sn_mod. unfold sn_at, RLC_AM_SN_MODULO. div_lia. Qed.

(** The call of a round is put before those of the others. *)
Lemma answers_ack j l calls stop : (forall s, AckPdu s ∉ stop) -> (forall s a b, NackPdu s a b ∉ stop) -> 0 <= j < offset low ack ->
  Forall (fun n => nack_sn n <> sn_at j) l -> answers (j + 1) l calls -> answers j l (stop ++ AckPdu (sn_at j) :: calls).
Proof.
  intros Hs1 Hs2 Hj Hl (A1 & A2 & A3 & A4). split_and!.
  - intros s Hin. apply elem_of_app in Hin as [Hin|Hin]; [by destruct (Hs1 s)|]. apply elem_of_cons in Hin as [[= ->]|Hin].
    + exists j. split_and!; [lia..|done|done].
    + destruct (A1 s Hin) as (i & Hi & E). exists i. split; [lia|done].
  - intros s a b Hin. apply elem_of_app in Hin as [Hin|Hin]; [by destruct (Hs2 s a b)|]. apply elem_of_cons in Hin as [Hin|Hin]; [done|]. by apply A2.
  - intros n Hn Ho. apply elem_of_app. right. right. by apply A3.
  - intros i Hi Hf. apply elem_of_app. right. destruct (Z.eq_dec i j) as [->|]; [by left|]. right. apply A4; [lia|done].
Qed.

Lemma answers_nack j j' n l calls stop : (forall s, AckPdu s ∉ stop) -> (forall s a b, NackPdu s a b ∉ stop) -> 0 <= j < offset low ack ->
  nack_sn n = sn_at j -> (j' = j + 1 \/ (j' = j /\ Exists (fun m => nack_sn m = sn_at j) l)) -> answers j' l calls ->
  answers j (n :: l) (stop ++ NackPdu (sn_at j) (so_start n) (so_end n) :: calls).
Proof.
  intros Hs1 Hs2 Hj En Hj' (A1 & A2 & A3 & A4). pose proof (offset_range low ack) as Hr. split_and!.
  - intros s Hin. apply elem_of_app in Hin as [Hin|Hin]; [by destruct (Hs1 s)|]. apply elem_of_cons in Hin as [Hin|Hin]; [done|].
    destruct (A1 s Hin) as (i & Hi & -> & Hf). exists i. split_and!; [lia..|done|]. apply Forall_cons. split; [|done]. rewrite En. intros E.
    apply (f_equal (offset low)) in E. rewrite !sn_at_offset in E by lia. subst i. destruct Hj' as [->|[-> Hex]]; [lia|].
    apply Exists_exists in Hex as (m & Hm & Em). rewrite Forall_forall in Hf. by apply (Hf m).
  - intros s a b Hin. apply elem_of_app in Hin as [Hin|Hin]; [by destruct (Hs2 s a b)|]. apply elem_of_cons in Hin as [[= -> -> ->]|Hin].
    + exists n. split; [by left|]. unfold core. by rewrite En.
    + destruct (A2 s a b Hin) as (m & Hm & Em). exists m. split; [by right|done].
  - intros m Hm Ho. apply elem_of_app. right. apply elem_of_cons in Hm as [->|Hm]; [rewrite En; by left|]. right. by apply A3.
  - intros i Hi Hf. apply Forall_cons in Hf as [Hne Hf]. apply elem_of_app. right. right. apply A4; [|done].
    destruct (Z.eq_dec i j) as [->|]; [by rewrite En in Hne|]. destruct Hj'; lia.
Qed.

Lemma pending_later j n l : 0 <= j < RLC_AM_SN_MODULO -> pending j (n :: l) -> nack_sn n <> sn_at j -> pending (j + 1) (n :: l).
Proof.
  intros Hj [HS HF] Hne. split; [done|]. apply StronglySorted_inv in HS as [_ HS]. apply Forall_cons in HF as [[Hn Hjn] HF].
  assert (Hlt : j + 1 <= offset low (nack_sn n)).
  { destruct (Z.eq_dec (offset low (nack_sn n)) j) as [E|]; [|lia]. destruct Hne. rewrite (offset_sn low Hlow (nack_sn n) Hn), E. done. }
  apply Forall_cons. split; [done|]. apply Forall_forall. intros m Hm. rewrite Forall_forall in HS, HF. split; [by apply (HF m Hm)|].
  specialize (HS m Hm). unfold in_order in HS. lia.
Qed.

Lemma pending_tail j n l : pending j (n :: l) -> pending j l.
Proof. intros [HS HF]. apply StronglySorted_inv in HS as [HS _]. apply Forall_cons in HF as [_ HF]. by split. Qed.

Lemma pending_distinct j l : 0 <= j < RLC_AM_SN_MODULO -> pending (j + 1) l -> Forall (fun n => nack_sn n <> sn_at j) l.
Proof.
  intros Hj [_ HF]. eapply Forall_impl; [exact HF|]. cbn. intros n [_ Hn] E. rewrite E, sn_at_offset in Hn by done. lia.
Qed.

Lemma stop_calls (b : bool) : let stop := if b then [StopPollRetransmit] else [] in
  (forall s, AckPdu s ∉ stop) /\ (forall s x y, NackPdu s x y ∉ stop).
Proof. destruct b; cbn; split; intros; rewrite ?list_elem_of_singleton; (done || apply not_elem_of_nil). Qed.

Lemma control_loop_ok fuel : forall j last l, 0 <= j <= offset low ack -> (Z.to_nat (offset low ack - j) + length l <= fuel)%nat ->
  pending j l -> last_ok j last l ->
  exists calls, control_loop fuel poll ack (sn_at j) last l = Ok calls /\ answers j l calls.
Proof.
  pose proof (offset_range low ack) as Hr.
  assert (Hend : forall j, 0 <= j <= offset low ack -> sn_at j = ack <-> j = offset low ack).
  { intros j Hj. split; [intros <-; by rewrite sn_at_offset by lia|]. intros ->. symmetry. by apply offset_sn. }
  induction fuel as [|fuel IH]; intros j last l Hj Hf HP HL; cbn [control_loop]; destruct (Z.eqb_spec (sn_at j) ack) as [E|E]; rewrite Hend in E by done.
  1, 3: subst j; exists []; split; [done|]; split_and!; try (intros; exfalso; by eapply not_elem_of_nil); [|intros; lia].
  1, 2: intros n Hn Ho; exfalso; destruct HP as [_ HP]; rewrite Forall_forall in HP; destruct (HP n Hn); lia.
  { lia. }
  set (stop := if sn_at j =? poll then [StopPollRetransmit] else []). destruct (stop_calls (sn_at j =? poll)) as [Hs1 Hs2]. fold stop in Hs1, Hs2.
  destruct l as [|n rest].
  - destruct (IH (j + 1) last []) as (calls & Ec & A); [lia|cbn [length] in *; lia|by split; constructor|destruct last; [left; destruct HL as [|(?&?&?&_)]; [lia|done]|done]|].
    rewrite next_sn_at. replace (match last with Some _ => _ | None => _ end) with (sn_at (j + 1)) by (by destruct last). rewrite Ec. cbn [mbind res_bind].
    eexists. split; [reflexivity|]. apply answers_ack; try done; lia.
  - cbn [length] in Hf. destruct (Z.eqb_spec (sn_at j) (nack_sn n)) as [En|Hne].
    + pose proof (pending_tail _ _ _ HP) as HP'. destruct rest as [|m rest].
      * destruct (IH (j + 1) (Some n) []) as (calls & Ec & A); [lia|cbn; lia|by split; constructor|left; rewrite <- En, sn_at_offset; lia|].
        rewrite next_sn_at, Ec. cbn [mbind res_bind]. eexists. split; [reflexivity|]. eapply answers_nack; try done; [lia|by left].
      * destruct (Z.eqb_spec (nack_sn m) (nack_sn n)) as [Em|Hnm].
        -- destruct (IH j (Some n) (m :: rest)) as (calls & Ec & A); [lia|cbn [length] in *; lia|done|right; by exists m, rest|].
           rewrite Ec. cbn [mbind res_bind]. eexists. split; [reflexivity|]. eapply (answers_nack j j); try done; [lia|]. right. split; [done|]. left. congruence.
        -- destruct (IH (j + 1) (Some n) (m :: rest)) as (calls & Ec & A); [lia|cbn [length] in *; lia|apply pending_later; [lia|done|congruence]|left; rewrite <- En, sn_at_offset; lia|].
           rewrite next_sn_at, Ec. cbn [mbind res_bind]. eexists. split; [reflexivity|]. eapply answers_nack; try done; [lia|by left].
    + pose proof (pending_later j n rest ltac:(lia) HP ltac:(congruence)) as HP'.
      destruct (IH (j + 1) last (n :: rest)) as (calls & Ec & A); [lia|cbn [length]; lia|done| |].
      { destruct last as [m|]; [|done]. left. destruct HL as [|(n' & r' & [= <- <-] & E1 & E2)]; [lia|]. by destruct Hne; rewrite E1. }
      replace (match last with Some _ => _ | None => _ end) with (sn_at (j + 1)).
      * rewrite Ec. cbn [mbind res_bind]. eexists. split; [reflexivity|]. apply answers_ack; try done; [lia|]. apply pending_distinct; [lia|done].
      * rewrite next_sn_at. destruct last as [m|]; [|done]. destruct (Z.eqb_spec (nack_sn n) (nack_sn m)) as [Enm|]; [|done].
        destruct HL as [HL|(n' & r' & [= <- <-] & E1 & E2)]; [|by destruct Hne; rewrite E1]. rewrite <- Enm in HL.
        destruct HP as [_ HP]. apply Forall_cons in HP as [[_ HP] _]. lia.
Qed.

End Peer.

(** ** The exchange *)

Lemma sorted_map {A B} (f : A -> B) (R : B -> B -> Prop) l :
  StronglySorted (fun x y => R (f x) (f y)) l <-> StronglySorted R (map f l).
Proof.
  induction l as [|x l IH]; [split; constructor|]. split; intros H; apply StronglySorted_inv in H as [H1 H2]; constructor; try (by apply IH).
  - by apply List.Forall_map.
  - by apply List.Forall_map.
Qed.

Lemma offset_shift low base s : 0 <= offset low base + offset base s < RLC_AM_SN_MODULO -> offset low s = offset low base + offset base s.
Proof. unfold offset, RLC_AM_SN_MODULO. div_lia. Qed.

Lemma core_elem n l l' : map core l = map core l' -> n ∈ l -> exists m, m ∈ l' /\ core m = core n.
Proof.
  intros E Hn. assert (H : core n ∈ map core l') by (rewrite <- E; by apply list_elem_of_fmap_2).
  apply list_elem_of_fmap in H as (m & Em & Hm). by exists m.
Qed.

Definition core_sn (c : Z * Z * Z) : Z := c.1.1.

Lemma seen_nack_sn n : nack_sn (seen_nack n) = nack_sn n.
Proof. unfold seen_nack. by destruct (_ <? _), n. Qed.

(** The entries of a report are pending at the peer. *)
Lemma report_pending low base buffer N r l : good base buffer N r -> offset low base <= RLC_AM_WINDOW_SIZE ->
  map core l = map core (seen r) -> pending low 0 l.
Proof.
  intros (G & O & _) Hd E. pose proof (offset_range low base) as Hr. split.
  - set (Q := fun c d => offset low (core_sn c) <= offset low (core_sn d)). apply (proj2 (sorted_map core Q l)). rewrite E.
    apply (proj1 (sorted_map core Q _)), (proj1 (sorted_map seen_nack (fun n m => Q (core n) (core m)) _)).
    clear E. revert G O. generalize (nacks r) as l0. intros l0 G O. induction O as [|n l' O IH HF]; [constructor|]. apply Forall_cons in G as [Gn G]. constructor; [by apply IH|].
    rewrite Forall_forall in HF, G |- *. intros m Hm. specialize (HF m Hm). unfold nack_le in HF. unfold Q, core_sn, core. cbn [fst]. rewrite !seen_nack_sn.
    destruct Gn as (_ & _ & _ & Hn). destruct (G m Hm) as (_ & _ & _ & Hm'). pose proof (offset_range base (nack_sn n)). pose proof (offset_range base (nack_sn m)).
    unfold RLC_AM_WINDOW_SIZE in *. rewrite (offset_shift low base (nack_sn n)), (offset_shift low base (nack_sn m)) by (unfold RLC_AM_SN_MODULO; lia). lia.
  - apply Forall_forall. intros n Hn. destruct (core_elem _ _ _ E Hn) as (m & Hm & Em). unfold seen in Hm. apply list_elem_of_fmap in Hm as (x & -> & Hx).
    rewrite Forall_forall in G. destruct (G x Hx) as ((V & _) & _). unfold core in Em. injection Em as Em _ _. rewrite seen_nack_sn in Em.
    split; [rewrite <- Em; exact V|apply offset_range].
Qed.

(** The peer's transmission side; [vt_a] is not above the other's [vr_r] by
    more than a window. *)
Definition tx_ready (t e : rlc_am_entity_t) : Prop :=
  0 <= vt_a t < RLC_AM_SN_MODULO /\ vt_ms t = (vt_a t + RLC_AM_WINDOW_SIZE) mod RLC_AM_SN_MODULO /\
  offset (vt_a t) (vr_r e) <= RLC_AM_WINDOW_SIZE.

Lemma tx_window t s : 0 <= vt_a t < RLC_AM_SN_MODULO -> vt_ms t = (vt_a t + RLC_AM_WINDOW_SIZE) mod RLC_AM_SN_MODULO -> 0 <= s < RLC_AM_SN_MODULO ->
  rlc_am_in_tx_window t s = if offset (vt_a t) s <? RLC_AM_WINDOW_SIZE then 1 else 0.
Proof.
  intros Ha Hm Hs. unfold rlc_am_in_tx_window, shifted, offset, u16. rewrite (proj2 (Z.leb_gt _ _)) by lia. rewrite Hm.
  unfold RLC_AM_WINDOW_SIZE, RLC_AM_SN_MODULO in *. replace (((vt_a t + 512) mod 1024 - vt_a t) mod 2 ^ 16 mod 1024) with 512 by div_lia.
  by replace ((s - vt_a t) mod 2 ^ 16 mod 1024) with ((s - vt_a t) mod 1024) by div_lia.
Qed.

(** The peer processes a report that it decodes. *)
Lemma process_ok t e N ack r bytes size x l : tx_ready t e -> 0 <= vr_r e < RLC_AM_SN_MODULO -> N <= 1536 ->
  final (vr_r e) (receiver_buffer e) N ack r -> map core l = map core (seen r) ->
  rlc_am_get_control_pdu_infos bytes size = Ok (0, 0, mk_info 0 0 ack x l) ->
  exists calls, rlc_am_receive_process_control_pdu t bytes size = Ok (calls, 0) /\
    if rlc_am_in_tx_window t ack =? 1 then answers (vt_a t) ack 0 l calls else calls = [].
Proof.
  intros (Ha & Hm & Hd) Hr HN [G (d & Hdr & Eack & _)] E Eg. unfold rlc_am_receive_process_control_pdu. rewrite Eg. cbn [mbind res_bind ack_sn nack_list].
  assert (Hack : 0 <= ack < RLC_AM_SN_MODULO) by (rewrite Eack; apply Z.mod_pos_bound; done). cbn [Z.leb Z.compare].
  assert (Hl : length l = length (nacks r)) by (apply (f_equal length) in E; rewrite !length_map in E; exact (eq_trans E (length_map _ _))).
  pose proof G as (_ & _ & F1 & F2). pose proof (nacks_length (nacks r)) as Hn. unfold num_nack. cbn [nack_list].
  rewrite (proj2 (Z.ltb_lt ack _)), (proj2 (Nat.ltb_lt (length l) _)) by (unfold RLC_AM_MAX_NACK_IN_STATUS_PDU; lia). cbn [assert_fatal mbind res_bind].
  rewrite (tx_window t ack Ha Hm Hack). destruct (Z.ltb_spec (offset (vt_a t) ack) RLC_AM_WINDOW_SIZE) as [Hw|Hw]; cbn [Z.ltb Z.eqb Z.compare Pos.eqb]; [|by eexists].
  pose proof (offset_range (vt_a t) ack) as Ho.
  destruct (control_loop_ok (vt_a t) ack (poll_sn t) Ha Hack (Z.to_nat RLC_AM_SN_MODULO + length l) 0 None l) as (calls & Ec & A).
  - lia.
  - lia.
  - by eapply report_pending.
  - done.
  - unfold sn_at in Ec. rewrite Z.add_0_r, Z.mod_small in Ec by done. rewrite Ec. cbn [mbind res_bind]. by eexists.
Qed.

End RlcAmExchange.
