(* ===== verification/RlcAmClaims.v ===== *)
(** * Status reports of RLC AM: the properties *)

From Stdlib Require Import Sorting.Sorted.
From S2P Require Import Prelude Bits RlcUmEntity RlcAmStatus RlcAmEntity RlcAmCodec RlcAmReport RlcAmReportProofs RlcAmExchange.
Import Bits RlcAmStatus RlcAmEntity RlcAmCodec RlcAmReport RlcAmReportProofs RlcAmExchange.

Module RlcAmClaims.

(** The bytes the peer uses are those of the entries of the report. *)
Lemma decoded_core r : map core (map seen_nack (close_nacks (nacks r))) = map core (seen r).
Proof. apply close_core. Qed.

Lemma span_ack base d : 0 <= base < RLC_AM_SN_MODULO -> -1 <= d <= RLC_AM_WINDOW_SIZE -> span base ((base + d) mod RLC_AM_SN_MODULO) = d.
Proof. unfold span, RLC_AM_WINDOW_SIZE, RLC_AM_SN_MODULO. intros. div_lia. Qed.

(** Where an acknowledged PDU is. *)
Lemma acked_place low base d i : 0 <= low < RLC_AM_SN_MODULO -> 0 <= base < RLC_AM_SN_MODULO -> offset low base <= RLC_AM_WINDOW_SIZE ->
  -1 <= d <= RLC_AM_WINDOW_SIZE -> offset low ((base + d) mod RLC_AM_SN_MODULO) < RLC_AM_WINDOW_SIZE ->
  0 <= i < offset low ((base + d) mod RLC_AM_SN_MODULO) ->
  offset low (sn_at low i) < offset low base \/ exists k, 0 <= k < d /\ sn_at low i = (base + k) mod RLC_AM_SN_MODULO.
Proof.
  intros Hl Hb Hd Hdr Hw Hi. pose proof (offset_range low base) as Hr. rewrite sn_at_offset by (unfold RLC_AM_SN_MODULO, RLC_AM_WINDOW_SIZE in *; lia).
  destruct (Z.lt_ge_cases i (offset low base)) as [|Hge]; [by left|right]. exists (i - offset low base).
  unfold sn_at, offset, RLC_AM_WINDOW_SIZE, RLC_AM_SN_MODULO in *. revert Hw Hi Hge Hd Hr. div_lia.
Qed.

Lemma missing_place low base d k : 0 <= low < RLC_AM_SN_MODULO -> 0 <= base < RLC_AM_SN_MODULO -> offset low base < RLC_AM_WINDOW_SIZE ->
  -1 <= d <= RLC_AM_WINDOW_SIZE -> 0 <= k < d ->
  offset low ((base + k) mod RLC_AM_SN_MODULO) < offset low ((base + d) mod RLC_AM_SN_MODULO).
Proof.
  intros Hl Hb Hlt Hd Hk. unfold offset, RLC_AM_WINDOW_SIZE, RLC_AM_SN_MODULO in *. revert Hlt. div_lia.
Qed.

Lemma honest_decoded base buffer N r n b : good base buffer N r -> n ∈ map seen_nack (close_nacks (nacks r)) ->
  so_start n <= b <= so_end n -> b < 0x7FFF -> ~ received buffer (nack_sn n) b.
Proof.
  intros (G & _) Hn Hb Hlt. destruct (core_elem _ _ _ (decoded_core r) Hn) as (m & Hm & Em). unfold seen in Hm.
  apply list_elem_of_fmap in Hm as (x & -> & Hx). rewrite Forall_forall in G. destruct (G x Hx) as (_ & _ & Hh & _).
  unfold core in Em. injection Em as E1 E2 E3. rewrite <- E1, seen_nack_sn. apply Hh; [lia|done].
Qed.

(** C34. A STATUS PDU survives the air: what rlc_am_write_status_pdu puts into
    a zeroed block, for any acknowledged sequence number and any entries whose
    extension bits mark the last one, rlc_am_get_control_pdu_infos reads back
    - the same ACK_SN, the same entries in the same order, an entry without
    offsets standing for the whole PDU - and it consumes exactly the bytes
    that were written. *)
Theorem am_status_roundtrip size i : 0 <= ack_sn i < 2 ^ 10 -> Forall valid_nack (nack_list i) -> chained (nack_list i) ->
  (num_nack i <= RLC_AM_MAX_NACK_IN_STATUS_PDU)%nat -> (length (status_bits i) <= 8 * size)%nat ->
  exists num_bytes bytes, rlc_am_write_status_pdu (replicate size 0) i = Ok (num_bytes, bytes) /\
    0 < num_bytes <= Z.of_nat size /\ length bytes = size /\
    rlc_am_get_control_pdu_infos bytes num_bytes =
      Ok (0, 0, mk_info 0 0 (ack_sn i) (if (0 <? num_nack i)%nat then 1 else 0) (map seen_nack (nack_list i))).
Proof.
  intros Ha Hv Hc Hn Hs. destruct (write_status_ok size i Ha Hv Hs) as (bytes & E & W & L).
  exists (bytes_for (length (status_bits i))), bytes. split; [done|]. split; [|split; [done|]].
  - assert (15 <= length (status_bits i))%nat by (unfold status_bits; rewrite !length_app, !length_bits_of; lia). unfold bytes_for. div_lia.
  - rewrite (get_status_ok i bytes _ Ha Hv Hc Hn W). by rewrite Z.sub_diag.
Qed.

Definition demo_info : rlc_am_control_pdu_info_t :=
  mk_info 0 0 700 0 [mk_nack 690 1 0 0 0; mk_nack 695 1 1 20 59; mk_nack 695 0 1 100 0x7FFF].

Lemma demo_valid : Forall valid_nack (nack_list demo_info).
Proof. repeat (apply Forall_cons; split; [by unfold valid_nack; cbn|]). by apply Forall_nil. Qed.

Lemma am_status_roundtrip_witness : exists num_bytes bytes, rlc_am_write_status_pdu (replicate 20 0) demo_info = Ok (num_bytes, bytes) /\
  0 < num_bytes <= 20 /\ length bytes = 20%nat /\
  rlc_am_get_control_pdu_infos bytes num_bytes =
    Ok (0, 0, mk_info 0 0 700 1 [mk_nack 690 1 0 0 0x7FFF; mk_nack 695 1 1 20 59; mk_nack 695 0 1 100 0x7FFF]).
Proof.
  apply (am_status_roundtrip 20 demo_info); [by cbn|apply demo_valid|by cbn|by apply Nat.leb_le|by apply Nat.leb_le].
Defined.

(** C19. The status report is exact. For every reception buffer in window
    order, and when the pool has a block, rlc_am_send_status_pdu builds a STATUS
    PDU for a grant of 2 to 1536 bytes that fits the grant (no
    array bound is passed, the assertion on its size holds, the rest of the
    grant is left) and that the peer decodes. For every PDU from VR(R) up to
    ACK_SN, every byte is either received or asked for by an entry, and no
    entry anywhere asks for a byte that is received; the two cases hold also
    for PDUs received in part. *)
Theorem am_status_report_exact c e : RlcUm.mem_block_ok c = true -> rx_ready e -> 2 <= nb_bytes_requested_by_mac e <= 1536 ->
  exists e' tb info, rlc_am_send_status_pdu c e = Ok e' /\ control_pdu_list e' = tb :: control_pdu_list e /\
    0 < tb_size tb <= nb_bytes_requested_by_mac e /\ nb_bytes_requested_by_mac e' = nb_bytes_requested_by_mac e - tb_size tb /\
    Z.of_nat (length (tb_bytes tb)) = tb_size tb /\
    rlc_am_get_control_pdu_infos (tb_bytes tb) (tb_size tb) = Ok (0, 0, info) /\
    (forall k b, 0 <= k < span (vr_r e) (ack_sn info) -> 0 <= b < 0x7FFF ->
       let s := (vr_r e + k) mod RLC_AM_SN_MODULO in received (receiver_buffer e) s b \/ asked (nack_list info) s b) /\
    (forall s b, b < 0x7FFF -> asked (nack_list info) s b -> ~ received (receiver_buffer e) s b).
Proof.
  intros Hc He HN. destruct (send_ok c e Hc He HN) as (e' & tb & ack & r & Er & Es & El & Ht & En & Eb & F & Eg).
  exists e', tb. eexists. do 5 (split; [done|]). split; [exact Eg|]. cbn [ack_sn nack_list].
  destruct He as (Hr & _). destruct F as [G (d & Hd & -> & S)]. rewrite span_ack by done. split.
  - intros k b Hk Hb. destruct (S k b Hk Hb) as [H|H]; [by left|right]. eapply asked_core; [|exact H]. symmetry. apply decoded_core.
  - intros s b Hb (n & Hn & <- & Hso). by eapply honest_decoded.
Qed.

(** A context in which the pool gives blocks; entities and received PDUs with
    the fields the examples need. *)
Definition some_memory : RlcUm.protocol_ctxt_t := RlcUm.mk_ctxt 0 0 true true true.
Definition received_pdu (s l o size all : Z) : rx_pdu :=
  mk_rx (if o =? 0 then 0 else 1) 0 0 0 s l o [] size (replicate (Z.to_nat size) 0) size 4 all.
Definition receiver (r mr x ms h : Z) (buffer : list rx_pdu) (grant : Z) : rlc_am_entity_t :=
  blank <| vr_r := r |> <| vr_mr := mr |> <| vr_x := x |> <| vr_ms := ms |> <| vr_h := h |>
    <| receiver_buffer := buffer |> <| nb_bytes_requested_by_mac := grant |>.
Definition transmitter (a ms poll : Z) : rlc_am_entity_t :=
  blank <| vt_a := a |> <| vt_ms := ms |> <| poll_sn := poll |>.

(** VR(R) = 1020: 1020 is missing, 1021 complete, 1023 received in part,
    0 missing, 1 complete. *)
Definition demo_rx : rlc_am_entity_t :=
  Eval cbv in receiver 1020 508 0 0 0 [received_pdu 1021 0 0 40 1; received_pdu 1023 0 10 20 0; received_pdu 1023 0 50 5 0; received_pdu 1 0 0 30 1] 100.

(** Its peer, with VT(A) = 1018. *)
Definition demo_tx : rlc_am_entity_t := Eval cbv in transmitter 1018 506 1.

Lemma demo_rx_ready : rx_ready demo_rx.
Proof.
  split; [by cbn|]. split; [by cbn|]. split.
  - repeat (apply Forall_cons; split; [by unfold valid_rx; cbn|]). by apply Forall_nil.
  - unfold demo_rx. cbn [receiver_buffer vr_r].
    repeat match goal with
    | |- StronglySorted _ [] => apply SSorted_nil
    | |- StronglySorted _ (_ :: _) => apply SSorted_cons
    | |- Forall _ [] => apply Forall_nil_2
    | |- Forall _ (_ :: _) => apply Forall_cons_2
    end; first [by left|by right].
Qed.

Lemma am_status_report_exact_witness : exists e' tb info, rlc_am_send_status_pdu some_memory demo_rx = Ok e' /\ control_pdu_list e' = [tb] /\
  0 < tb_size tb <= 100 /\ nb_bytes_requested_by_mac e' = 100 - tb_size tb /\ Z.of_nat (length (tb_bytes tb)) = tb_size tb /\
  rlc_am_get_control_pdu_infos (tb_bytes tb) (tb_size tb) = Ok (0, 0, info) /\
  (forall k b, 0 <= k < span 1020 (ack_sn info) -> 0 <= b < 0x7FFF ->
     let s := (1020 + k) mod RLC_AM_SN_MODULO in received (receiver_buffer demo_rx) s b \/ asked (nack_list info) s b) /\
  (forall s b, b < 0x7FFF -> asked (nack_list info) s b -> ~ received (receiver_buffer demo_rx) s b).
Proof. apply (am_status_report_exact some_memory demo_rx eq_refl demo_rx_ready). split; by apply Z.leb_le. Defined.

(** C18. No byte is lost by acknowledgement. When the transmitting entity [t]
    processes the status report that its peer [e] sends in a block of the pool, every PDU it
    acknowledges is below the peer's VR(R) or has every byte received, and
    every retransmission it schedules is of bytes the peer does not have. When
    the report's ACK_SN is in its window, every byte missing from VR(R) up to
    ACK_SN is scheduled. *)
Theorem am_status_exchange c e t : RlcUm.mem_block_ok c = true -> rx_ready e -> tx_ready t e -> 2 <= nb_bytes_requested_by_mac e <= 1536 ->
  exists e' tb info calls, rlc_am_send_status_pdu c e = Ok e' /\ control_pdu_list e' = tb :: control_pdu_list e /\
    rlc_am_get_control_pdu_infos (tb_bytes tb) (tb_size tb) = Ok (0, 0, info) /\
    rlc_am_receive_process_control_pdu t (tb_bytes tb) (tb_size tb) = Ok (calls, 0) /\
    (forall s, AckPdu s ∈ calls ->
       offset (vt_a t) s < offset (vt_a t) (vr_r e) \/ forall b, 0 <= b < 0x7FFF -> received (receiver_buffer e) s b) /\
    (forall s start stop b, NackPdu s start stop ∈ calls -> start <= b <= stop -> b < 0x7FFF -> ~ received (receiver_buffer e) s b) /\
    (rlc_am_in_tx_window t (ack_sn info) = 1 -> offset (vt_a t) (vr_r e) < RLC_AM_WINDOW_SIZE -> forall k b, 0 <= k < span (vr_r e) (ack_sn info) -> 0 <= b < 0x7FFF ->
       let s := (vr_r e + k) mod RLC_AM_SN_MODULO in
       received (receiver_buffer e) s b \/ exists start stop, NackPdu s start stop ∈ calls /\ start <= b <= stop).
Proof.
  intros Hc He Ht HN. destruct (send_ok c e Hc He HN) as (e' & tb & ack & r & Er & Es & El & _ & _ & _ & F & Eg). pose proof He as (Hr & _). pose proof Ht as (Ha & Hm & Hd).
  destruct (process_ok t e _ ack r _ _ _ _ Ht Hr (proj2 HN) F (decoded_core r) Eg) as (calls & Ep & A). destruct F as [G (d & Hdr & Eack & S)].
  exists e', tb. eexists. exists calls. split; [done|]. split; [done|]. split; [exact Eg|]. split; [exact Ep|]. cbn [ack_sn nack_list].
  assert (Hack : 0 <= ack < RLC_AM_SN_MODULO) by (rewrite Eack; apply Z.mod_pos_bound; done).
  rewrite (tx_window t ack Ha Hm Hack) in A |- *. destruct (Z.ltb_spec (offset (vt_a t) ack) RLC_AM_WINDOW_SIZE) as [Hw|Hw]; cbn [Z.eqb Pos.eqb] in A.
  - destruct A as (A1 & A2 & A3 & _). split; [|split].
    + intros s Hs. destruct (A1 s Hs) as (i & Hi & -> & Hf). rewrite Eack in Hw, Hi.
      destruct (acked_place _ _ _ _ Ha Hr Hd Hdr Hw Hi) as [H|(k & Hk & Ek)]; [by left|right]. intros b Hb. rewrite Ek in Hf |- *.
      destruct (S k b Hk Hb) as [H|H]; [done|]. eapply asked_core in H as (n & Hn & En & _); [|symmetry; apply decoded_core].
      rewrite Forall_forall in Hf. by destruct (Hf n Hn).
    + intros s start stop b Hs Hb Hlt. destruct (A2 s start stop Hs) as (n & Hn & En). unfold core in En. injection En as <- <- <-. by eapply honest_decoded.
    + intros _ Hlt k b Hk Hb. rewrite Eack, span_ack in Hk by done. destruct (S k b Hk Hb) as [H|H]; [by left|right].
      eapply asked_core in H as (n & Hn & En & Hso); [|symmetry; apply decoded_core]. exists (so_start n), (so_end n). split; [|done].
      rewrite <- En. apply A3; [done|]. rewrite En, Eack. by apply missing_place.
  - subst calls. split; [|split; [|done]]; intros; exfalso; by eapply not_elem_of_nil.
Qed.

Lemma am_status_exchange_witness : exists e' tb info calls, rlc_am_send_status_pdu some_memory demo_rx = Ok e' /\ control_pdu_list e' = [tb] /\
    rlc_am_get_control_pdu_infos (tb_bytes tb) (tb_size tb) = Ok (0, 0, info) /\
    rlc_am_receive_process_control_pdu demo_tx (tb_bytes tb) (tb_size tb) = Ok (calls, 0) /\
    (forall s, AckPdu s ∈ calls ->
       offset 1018 s < offset 1018 1020 \/ forall b, 0 <= b < 0x7FFF -> received (receiver_buffer demo_rx) s b) /\
    (forall s start stop b, NackPdu s start stop ∈ calls -> start <= b <= stop -> b < 0x7FFF -> ~ received (receiver_buffer demo_rx) s b) /\
    (rlc_am_in_tx_window demo_tx (ack_sn info) = 1 -> offset 1018 1020 < RLC_AM_WINDOW_SIZE ->
       forall k b, 0 <= k < span 1020 (ack_sn info) -> 0 <= b < 0x7FFF ->
       let s := (1020 + k) mod RLC_AM_SN_MODULO in
       received (receiver_buffer demo_rx) s b \/ exists start stop, NackPdu s start stop ∈ calls /\ start <= b <= stop).
Proof. apply (am_status_exchange some_memory demo_rx demo_tx eq_refl demo_rx_ready); [by split_and!|split; by apply Z.leb_le]. Defined.

(** ** Reports the peer does not act on *)

Lemma ignored_outside t bytes size rest info : rlc_am_get_control_pdu_infos bytes size = Ok (0, rest, info) ->
  0 <= ack_sn info < RLC_AM_SN_MODULO -> (num_nack info < RLC_AM_MAX_NACK_IN_STATUS_PDU)%nat -> rlc_am_in_tx_window t (ack_sn info) = 0 ->
  rlc_am_receive_process_control_pdu t bytes size = Ok ([], rest).
Proof.
  intros Eg Ha Hn Hw. unfold rlc_am_receive_process_control_pdu. rewrite Eg. cbn [mbind res_bind Z.leb Z.compare].
  rewrite (proj2 (Z.ltb_lt (ack_sn info) RLC_AM_SN_MODULO)), (proj2 (Nat.ltb_lt (num_nack info) _)) by lia. cbn [assert_fatal mbind res_bind]. by rewrite Hw.
Qed.

(** A full window cannot be acknowledged. When the peer has received all
    of the 512 PDUs that the window allows, its report carries ACK_SN =
    VT(MS), which rlc_am_receive_process_control_pdu takes for a sequence
    number out of the window: it makes no call at all, and as VT(S) = VT(MS)
    the transmitter cannot go on. *)
Lemma am_full_window_ack_ignored c e t : RlcUm.mem_block_ok c = true -> rx_ready e -> receiver_buffer e = [] -> 2 <= nb_bytes_requested_by_mac e <= 1536 ->
  0 <= vt_a t < RLC_AM_SN_MODULO -> vt_ms t = (vt_a t + RLC_AM_WINDOW_SIZE) mod RLC_AM_SN_MODULO -> vr_r e = vt_ms t ->
  exists e' tb info, rlc_am_send_status_pdu c e = Ok e' /\ control_pdu_list e' = tb :: control_pdu_list e /\
    rlc_am_get_control_pdu_infos (tb_bytes tb) (tb_size tb) = Ok (0, 0, info) /\ ack_sn info = vt_ms t /\
    rlc_am_receive_process_control_pdu t (tb_bytes tb) (tb_size tb) = Ok ([], 0).
Proof.
  intros Hc He Hb HN Ha Hm Hr. destruct (send_ok c e Hc He HN) as (e' & tb & ack & r & Er & Es & El & _ & _ & _ & F & Eg).
  assert (ack = vr_r e /\ nacks r = []) as [-> Hnil] by (unfold make_report in Er; rewrite Hb in Er; by injection Er as <- <-).
  exists e', tb. eexists. split; [done|]. split; [done|]. split; [exact Eg|]. split; [done|]. rewrite Hnil in Eg.
  eapply ignored_outside; [exact Eg|rewrite Hr, Hm; cbn; apply Z.mod_pos_bound; done|by apply Nat.ltb_lt|]. cbn [ack_sn].
  rewrite tx_window by (done || rewrite Hr, Hm; apply Z.mod_pos_bound; done). rewrite Hr, Hm, sn_offset by (done || unfold RLC_AM_WINDOW_SIZE, RLC_AM_SN_MODULO; lia).
  by rewrite Z.ltb_irrefl.
Qed.

(** Everything up to 511 is received and delivered. *)
Definition demo_full_rx : rlc_am_entity_t := Eval cbv in receiver 512 0 512 512 512 [] 10.
Definition demo_full_tx : rlc_am_entity_t := Eval cbv in transmitter 0 512 511.

Lemma am_full_window_ack_ignored_witness : exists e' tb info, rlc_am_send_status_pdu some_memory demo_full_rx = Ok e' /\ control_pdu_list e' = [tb] /\
    rlc_am_get_control_pdu_infos (tb_bytes tb) (tb_size tb) = Ok (0, 0, info) /\ ack_sn info = 512 /\
    rlc_am_receive_process_control_pdu demo_full_tx (tb_bytes tb) (tb_size tb) = Ok ([], 0).
Proof.
  apply (am_full_window_ack_ignored some_memory demo_full_rx demo_full_tx); try done. split; [done|]. split; [done|]. split; [by apply Forall_nil|apply SSorted_nil].
Defined.

(** The report about one PDU, received in part. *)
Lemma tail_report e p : rx_ready e -> receiver_buffer e = [p] -> sn p = vr_r e -> all_segments_received p = 0 ->
  8 <= nb_bytes_requested_by_mac e -> exists r, make_report e = Ok ((vr_r e - 1) mod RLC_AM_SN_MODULO, r) /\ (length (nacks r) <= 1)%nat.
Proof.
  intros (Hr & Hm & Ho) Hb Hp Ha HN. unfold make_report. rewrite Hb. cbn [find_in_window]. rewrite (head_in_window (vr_r e) Hr (receiver_buffer e) Ho e p []) by done.
  cbn [Z.eqb mbind res_bind length]. change RLC_AM_SN_MASK with (Z.ones 10). rewrite Z.land_ones by lia. change (2 ^ 10) with RLC_AM_SN_MODULO.
  set (prev := (vr_r e - 1) mod RLC_AM_SN_MODULO). cbn [report_loop]. unfold upd. cbn [nacks nb_bits_to_transmit previous_sn_cursor].
  rewrite (proj2 (Z.leb_le 12 _)) by lia. unfold report_round. cbn [previous_sn_cursor]. rewrite Hp.
  assert (Hne : vr_r e <> prev) by (unfold prev, RLC_AM_SN_MODULO in *; div_lia). assert (Hnx : next_sn prev = vr_r e) by (rewrite next_sn_mod; unfold prev, RLC_AM_SN_MODULO in *; div_lia).
  rewrite (proj2 (Z.eqb_neq _ _) Hne). rewrite Hp. destruct (Z.to_nat RLC_AM_SN_MODULO) eqn:Ef; [done|]. cbn [push_missing previous_sn_cursor]. rewrite Hnx, Z.eqb_refl.
  cbn [mbind res_bind]. rewrite Ha. cbn [Z.eqb]. unfold push_partial. cbn [push_segments]. unfold push_gap. cbn [nb_bits_to_transmit].
  rewrite (proj2 (Z.leb_le 42 _)) by lia. destruct (0 <? so p); cbn; eexists; (split; [reflexivity|]; cbn; lia).
Qed.

(** A partly received PDU at the end of the buffer is not asked for. When
    the first PDU of the window has been received in part and nothing after
    it, the report carries ACK_SN = VR(R) - 1 (not VR(R) + 1, as the function's
    comment has it), and a peer whose VT(A) is VR(R) ignores it, whatever
    bytes are missing. *)
Theorem am_tail_segment_not_requested c e t p : RlcUm.mem_block_ok c = true -> rx_ready e -> receiver_buffer e = [p] -> sn p = vr_r e -> all_segments_received p = 0 ->
  8 <= nb_bytes_requested_by_mac e <= 1536 -> vt_a t = vr_r e -> vt_ms t = (vt_a t + RLC_AM_WINDOW_SIZE) mod RLC_AM_SN_MODULO ->
  exists e' tb info, rlc_am_send_status_pdu c e = Ok e' /\ control_pdu_list e' = tb :: control_pdu_list e /\
    rlc_am_get_control_pdu_infos (tb_bytes tb) (tb_size tb) = Ok (0, 0, info) /\ ack_sn info = (vr_r e - 1) mod RLC_AM_SN_MODULO /\
    rlc_am_receive_process_control_pdu t (tb_bytes tb) (tb_size tb) = Ok ([], 0).
Proof.
  intros Hc He Hb Hp Ha HN Ht Hm. pose proof He as (Hr & Hmr & Ho). destruct (send_ok c e Hc He ltac:(lia)) as (e' & tb & ack & r & Er & Es & El & _ & _ & _ & F & Eg).
  assert (ack = (vr_r e - 1) mod RLC_AM_SN_MODULO /\ (length (nacks r) <= 1)%nat) as [Eack Hlen].
  { destruct (tail_report e p He Hb Hp Ha ltac:(lia)) as (r' & Er' & Hl). rewrite Er in Er'. by injection Er' as -> ->. }
  exists e', tb. eexists. split; [done|]. split; [done|]. split; [exact Eg|]. split; [done|].
  assert (Hack : 0 <= ack < RLC_AM_SN_MODULO) by (rewrite Eack; apply Z.mod_pos_bound; done).
  eapply ignored_outside; [exact Eg|done| |]; cbn [ack_sn].
  - unfold num_nack. cbn [nack_list]. rewrite length_map, close_length. unfold RLC_AM_MAX_NACK_IN_STATUS_PDU. lia.
  - rewrite tx_window by (done || rewrite Ht; done). rewrite (proj2 (Z.ltb_ge _ _)); [done|]. rewrite Ht, Eack.
    unfold offset, RLC_AM_WINDOW_SIZE, RLC_AM_SN_MODULO in *. div_lia.
Qed.

(** Bytes 0 to 99 of PDU 7 are missing, 100 to 199 received. *)
Definition demo_tail_rx : rlc_am_entity_t := Eval cbv in receiver 7 519 8 7 8 [received_pdu 7 0 100 100 0] 50.
Definition demo_tail_tx : rlc_am_entity_t := Eval cbv in transmitter 7 519 7.

Lemma am_tail_segment_not_requested_witness : exists e' tb info, rlc_am_send_status_pdu some_memory demo_tail_rx = Ok e' /\ control_pdu_list e' = [tb] /\
    rlc_am_get_control_pdu_infos (tb_bytes tb) (tb_size tb) = Ok (0, 0, info) /\ ack_sn info = 6 /\
    rlc_am_receive_process_control_pdu demo_tail_tx (tb_bytes tb) (tb_size tb) = Ok ([], 0).
Proof.
  apply (am_tail_segment_not_requested some_memory demo_tail_rx demo_tail_tx (received_pdu 7 0 100 100 0)); try done. split; [done|]. split; [done|].
  split; [by apply Forall_singleton|apply SSorted_cons; [apply SSorted_nil|by apply Forall_nil]].
Defined.

(** The decoder reads past the end of the PDU. A block of two bytes whose
    E1 bit announces an entry is read beyond its end: the size of the block is
    reduced by what was read but never compared with it. *)
Lemma am_status_decoder_overreads b1 b2 size : 0 <= b1 < 16 -> Z.testbit b2 1 = true ->
  rlc_am_get_control_pdu_infos [b1; b2] size = Fault OutOfBounds.
Proof.
  intros H1 H2. unfold rlc_am_get_control_pdu_infos, rd. cbn [lookup list_lookup of_option mbind res_bind]. unfold upd. cbn [d_c cpt ack_sn info_e1 nack_list].
  assert (Z.shiftr b1 7 = 0 /\ Z.shiftr b1 4 = 0) as [-> ->] by (rewrite !Z.shiftr_div_pow2 by lia; split; div_lia). cbn [Z.eqb negb Z.land].
  change 1 with (Z.ones 1) at 2. rewrite Z.land_ones by lia. rewrite Z.shiftr_div_pow2 by lia. rewrite <- Z.testbit_spec' by lia. rewrite H2. cbn [Z.b2z Z.eqb negb].
  destruct RLC_AM_MAX_NACK_IN_STATUS_PDU as [|fuel] eqn:E; [done|]. by cbn [read_nacks].
Qed.

End RlcAmClaims.
