(* ===== verification/RlcAmRx.v ===== *)
(** * RLC AM: reception

    openair2/LAYER2/RLC/AM_v9.3.0: rlc_am_receiver.c but for the routing of
    received blocks, rlc_am_rx_list.c, rlc_am_reassembly.c and the expiry of
    t-Reordering.

    The reception buffer is the list of its PDUs; a pointer to one of them is
    its position. A cursor that walks the list forwards (backwards) is the rest
    of the list (of the reversed list) from it on, with the element visited
    before it. *)

From S2P Require Import Prelude RlcUmEntity RlcAmStatus RlcAmEntity RlcAmReport.
Import RlcAmStatus RlcAmEntity RlcAmReport.

Module RlcAmRx.

(** ** Decoding the header *)

Definition byte_at (l : list Z) (i : nat) : res Z := of_option OutOfBounds (l !! i).

Definition li1_of (b1 b2 : Z) : Z := Z.lor (Z.land (u16 (Z.shiftl b1 4)) 0x07F0) (Z.land (u8 (Z.shiftr b2 4)) 0x000F).
Definition li2_of (b2 b3 : Z) : Z := Z.lor (Z.land (u16 (Z.shiftl b2 8)) 0x0700) b3.

(** [while (li_to_read)]: [e_li] is the block from the structure read on;
    [None] is the return of -2. The result has [e_li], [li_length_in_bytes],
    the list, the header size and the sum. *)
Fixpoint li_loop (fuel : nat) (e_li : list Z) (li_length : Z) (lis : list Z) (header sum : Z)
    : res (option (list Z * Z * list Z * Z * Z)) :=
  match fuel with
  | O => Fault OutOfFuel
  | S fuel' =>
      let li_length := Z.lxor li_length 3 in
      '(li, li_to_read, e_li, header) ←
        (if li_length =? 2 then
           b1 ← byte_at e_li 0; b2 ← byte_at e_li 1;
           Ok (li1_of b1 b2, Z.land b1 0x80, e_li, header + 2)
         else
           b2 ← byte_at e_li 1; b3 ← byte_at e_li 2;
           Ok (li2_of b2 b3, Z.land b2 0x08, drop 3 e_li, header + 1));
      if RLC_AM_MAX_SDU_IN_PDU <=? Z.of_nat (length lis) then Fault OutOfBounds
      else
        let sum := s16 (sum + li) in
        let lis := lis ++ [li] in
        if RLC_AM_MAX_SDU_IN_PDU <? Z.of_nat (length lis) then Ok None
        else if li_to_read =? 0 then Ok (Some (e_li, li_length, lis, header, sum))
        else li_loop fuel' e_li li_length lis header sum
  end.

(** The result has the return code and, when it is 0, the PDU. *)
Definition rlc_am_get_data_pdu_infos (bytes : list Z) (total_sizeP : Z) : res (Z * option rx_pdu) :=
  b1 ← byte_at bytes 0;
  if Z.shiftr b1 7 =? 0 then Ok (-1, None)
  else
    b2 ← byte_at bytes 1;
    let rf := Z.land (Z.shiftr b1 6) 1 in
    let e := Z.land (Z.shiftr b1 2) 1 in
    '(lsf, so, rest, header) ←
      (if rf =? 0 then Ok (0, 0, drop 2 bytes, 2)
       else d0 ← byte_at bytes 2; d1 ← byte_at bytes 3;
            Ok (Z.land (Z.shiftr d0 7) 1, d1 + Z.shiftl (Z.land d0 0x7F) 8, drop 4 bytes, 4));
    o ← (if e =? 0 then Ok (Some (rest, [], header, 0))
         else
           o ← li_loop 33 rest 1 [] header 0;
           Ok (match o with
               | None => None
               | Some (e_li, li_length, lis, header, sum) =>
                   Some (if li_length =? 2 then drop 2 e_li else e_li, lis, header, sum)
               end));
    Ok (match o with
        | None => (-2, None)
        | Some (data, lis, header, sum) =>
            let size := s16 (s16 total_sizeP - header) in
            (0, Some (mk_rx rf (Z.land (Z.shiftr b1 5) 1) (Z.land (Z.shiftr b1 3) 3) e
                        (b2 + Z.shiftl (Z.land b1 3) 8) lsf so lis
                        (if sum <? size then s16 (size - sum) else 0) data size header 0))
        end).

(** ** The reception list *)

Definition last_byte (q : rx_pdu) : Z := so q + payload_size q - 1.

(** What a round of a walk does: the PDU goes before (after) the cursor, is
    dropped, or the walk goes on. *)
Inductive decision_t : Type := Insert | Drop | Next.

(** A round of the walk forwards; [previous] is the element before [cursor]. *)
Definition up_step (tb : rx_pdu) (previous : option rx_pdu) (cursor : rx_pdu) : decision_t :=
  if sn tb <? sn cursor then
    match previous with
    | Some p =>
        if sn p =? sn tb then
          if negb (rx_rf tb =? rx_rf p) then Drop
          else if rx_rf tb =? 1 then if so tb <=? last_byte p then Drop else Insert
          else Insert
        else Insert
    | None => Insert
    end
  else if sn tb =? sn cursor then
    if rx_rf cursor =? 0 then Drop
    else if rx_rf tb =? 1 then
      if last_byte tb <? so cursor then
        match previous with
        | Some p => if sn p =? sn cursor then if last_byte p <? so tb then Insert else Drop else Insert
        | None => Insert
        end
      else if so tb <=? so cursor then Drop
      else Next
    else Drop
  else Next.

(** A round of the walk backwards; [previous] is the element after [cursor]. *)
Definition down_step (tb : rx_pdu) (previous : option rx_pdu) (cursor : rx_pdu) : decision_t :=
  if sn cursor <? sn tb then
    match previous with
    | Some p =>
        if sn p =? sn cursor then
          if negb (rx_rf tb =? rx_rf p) then Drop
          else if rx_rf tb =? 1 then if so p <=? last_byte tb then Drop else Insert
          else Insert
        else Insert
    | None => Insert
    end
  else if sn tb =? sn cursor then
    if rx_rf cursor =? 0 then Drop
    else if rx_rf tb =? 1 then
      if last_byte cursor <? so tb then
        match previous with
        | Some p => if sn p =? sn cursor then if last_byte tb <? so p then Insert else Drop else Insert
        | None => Insert
        end
      else if so cursor <=? so tb then Drop
      else Next
    else Drop
  else Next.

(** The tests after a walk of the wrapped window that met the end of the list;
    [cursor] is the last element visited. *)
Definition at_end (tb cursor : rx_pdu) : decision_t :=
  if rx_rf cursor =? 0 then Insert
  else if (rx_rf tb =? 1) && (rx_rf cursor =? 1) && (sn tb =? sn cursor) then
    if last_byte cursor <? so tb then Insert else Drop
  else if negb (sn tb =? sn cursor) then Insert
  else Drop.

(** The walks return the position at which the PDU is inserted, [None] when it
    is dropped. [pos] is the position of the cursor, [n] the length of the
    list. *)
Fixpoint walk_simple (tb : rx_pdu) (previous : option rx_pdu) (pos : nat) (cursor : list rx_pdu) : option nat :=
  match cursor with
  | q :: rest =>
      match up_step tb previous q with
      | Insert => Some pos
      | Drop => None
      | Next => walk_simple tb (Some q) (S pos) rest
      end
  | [] =>
      match previous with
      | Some q => if sn tb =? sn q then if last_byte q <? so tb then Some pos else None else Some pos
      | None => Some pos
      end
  end.

Fixpoint walk_up (r : Z) (tb : rx_pdu) (previous : option rx_pdu) (pos : nat) (cursor : list rx_pdu) : option nat :=
  match cursor with
  | q :: rest =>
      if r <=? sn q then
        match up_step tb previous q with
        | Insert => Some pos
        | Drop => None
        | Next => walk_up r tb (Some q) (S pos) rest
        end
      else Some pos
  | [] =>
      match previous with
      | Some q => match at_end tb q with Insert => Some pos | _ => None end
      | None => Some pos
      end
  end.

(** The cursor [q] is at position [length rest]. *)
Fixpoint walk_down (r : Z) (n : nat) (tb : rx_pdu) (previous : option rx_pdu) (cursor : list rx_pdu) : option nat :=
  match cursor with
  | q :: rest =>
      if sn q <? r then
        match down_step tb previous q with
        | Insert => Some (S (length rest))
        | Drop => None
        | Next => walk_down r n tb (Some q) rest
        end
      else Some (S (length rest))
  | [] =>
      match previous with
      | Some q => match at_end tb q with Insert => Some n | _ => None end
      | None => Some n
      end
  end.

Definition insert_position (e : rlc_am_entity_t) (tb : rx_pdu) : option nat :=
  match receiver_buffer e with
  | [] => Some 0%nat
  | buffer =>
      if vr_mr e <? vr_r e then
        if vr_r e <=? sn tb then walk_up (vr_r e) tb None 0 buffer
        else walk_down (vr_r e) (length buffer) tb None (reverse buffer)
      else walk_simple tb None 0 buffer
  end.

Definition insert_at (pos : nat) (tb : rx_pdu) (l : list rx_pdu) : list rx_pdu := take pos l ++ tb :: drop pos l.

(** The result has the return code, the position of the PDU and the entity. *)
Definition rlc_am_rx_list_insert_pdu (e : rlc_am_entity_t) (tb : rx_pdu) : Z * nat * rlc_am_entity_t :=
  match insert_position e tb with
  | Some pos => (0, pos, e <| receiver_buffer ::= insert_at pos tb |>)
  | None => (-2, 0%nat, e)
  end.

Definition set_received (q : rx_pdu) : rx_pdu := q <| all_segments_received := 1 |>.

(** The leading elements of number [s] are marked. *)
Fixpoint mark_from (s : Z) (l : list rx_pdu) : list rx_pdu :=
  match l with
  | q :: rest => if sn q =? s then set_received q :: mark_from s rest else l
  | [] => []
  end.

Definition rlc_am_rx_mark_all_segments_received (first : nat) (l : list rx_pdu) : list rx_pdu :=
  match l !! first with
  | Some q => take first l ++ mark_from (sn q) (drop first l)
  | None => l
  end.

(** The number of leading elements of number [s]. *)
Fixpoint count_sn (s : Z) (l : list rx_pdu) : nat :=
  match l with q :: rest => if sn q =? s then S (count_sn s rest) else 0%nat | [] => 0%nat end.

(** [while (cursor_p->next != NULL)]: whether the segments are marked.
    [next_waited_so] is computed by the source, and not used. *)
Fixpoint contiguous (s : Z) (last_end_so : Z) (l : list rx_pdu) : bool :=
  match l with
  | [] => false
  | q :: rest =>
      if sn q =? s then
        if negb (rx_rf q =? 1) || negb (so q <=? last_end_so) then false
        else (0 <? lsf q) || contiguous s (so q + payload_size q) rest
      else false
  end.

Definition rlc_am_rx_check_all_byte_segments (pos : nat) (l : list rx_pdu) : list rx_pdu :=
  match l !! pos with
  | None => l
  | Some tb =>
      if rx_rf tb =? 0 then <[pos := set_received tb]> l
      else
        let first := (pos - count_sn (sn tb) (reverse (take pos l)))%nat in
        match l !! first with
        | None => l
        | Some q =>
            if negb (so q =? 0) then l
            else if contiguous (sn tb) (payload_size q) (drop (S first) l)
            then rlc_am_rx_mark_all_segments_received first l
            else l
        end
  end.

(** ** Reassembly *)

Definition rlc_am_clear_rx_sdu (e : rlc_am_entity_t) : rlc_am_entity_t := e <| output_sdu_size_to_write := 0 |>.

(** [src] is the memory from [src_pP] on. *)
Definition rlc_am_reassembly (c : protocol_ctxt_t) (e : rlc_am_entity_t) (src : list Z) (lengthP : Z) : res rlc_am_entity_t :=
  '(buf, size) ←
    match output_sdu_in_construction e with
    | Some buf => Ok (buf, output_sdu_size_to_write e)
    | None => _ ← assert_fatal (RlcUm.mem_block_ok c); Ok ([], 0)
    end;
  if size + lengthP <=? RLC_SDU_MAX_SIZE then
    if (lengthP <? 0) || (Z.of_nat (length src) <? lengthP) then Fault OutOfBounds
    else Ok (e <| output_sdu_in_construction := Some (take (Z.to_nat size) buf ++ take (Z.to_nat lengthP) src) |>
               <| output_sdu_size_to_write := size + lengthP |>)
  else Ok (e <| output_sdu_in_construction := Some buf |> <| output_sdu_size_to_write := 0 |>).

(** The up-call [rlc_data_ind] has the first [output_sdu_size_to_write] bytes. *)
Definition rlc_am_send_sdu (e : rlc_am_entity_t) : res rlc_am_entity_t :=
  match output_sdu_in_construction e with
  | None => Ok e
  | Some buf =>
      let size := output_sdu_size_to_write e in
      if 0 <? size then
        Ok (e <| stat_rx_pdcp_sdu ::= fun n => u32 (n + 1) |> <| stat_rx_pdcp_bytes ::= fun n => u32 (n + size) |>
              <| upper_sdus ::= fun l => l ++ [take (Z.to_nat size) buf] |>
              <| output_sdu_in_construction := None |> <| output_sdu_size_to_write := 0 |>)
      else Fault AssertFatal
  end.

(** [for (i = 0; i < pdu_info->num_li; i++)]: the result has the payload from
    [j] on. *)
Fixpoint reassemble_lis (c : protocol_ctxt_t) (e : rlc_am_entity_t) (data : list Z) (lis : list Z) : res (rlc_am_entity_t * list Z) :=
  match lis with
  | [] => Ok (e, data)
  | li :: rest =>
      e ← rlc_am_reassembly c e data li;
      e ← rlc_am_send_sdu e;
      reassemble_lis c e (drop (Z.to_nat li) data) rest
  end.

Definition rlc_am_reassemble_pdu (c : protocol_ctxt_t) (e : rlc_am_entity_t) (tb : rx_pdu) : res rlc_am_entity_t :=
  let first := Z.land (rx_fi tb) 2 =? 0 in
  let last := Z.land (rx_fi tb) 1 =? 0 in
  e ← (if first then rlc_am_send_sdu e else Ok e);
  if rx_e tb =? 0 then
    e ← rlc_am_reassembly c e (payload tb) (payload_size tb);
    if last then rlc_am_send_sdu e else Ok e
  else
    '(e, data) ← reassemble_lis c e (payload tb) (li_list tb);
    if 0 <? hidden_size tb then
      e ← rlc_am_reassembly c e data (hidden_size tb);
      if last then rlc_am_send_sdu e else Ok e
    else Ok e.

(** The [do ... while]: [l] is the list, with its first element complete or
    not; the result has the rest of the list. *)
Fixpoint reassemble_loop (c : protocol_ctxt_t) (e : rlc_am_entity_t) (l : list rx_pdu) : res (rlc_am_entity_t * list rx_pdu) :=
  match l with
  | [] => Ok (e, [])
  | q :: rest =>
      if 0 <? all_segments_received q then
        e ← rlc_am_reassemble_pdu c e q;
        match rest with
        | [] => Ok (e, [])
        | p :: _ =>
            if (sn p =? next_sn (sn q)) || ((sn p =? sn q) && (0 <? all_segments_received p))
            then reassemble_loop c e rest
            else Ok (e, rest)
        end
      else Ok (e, l)
  end.

Definition rlc_am_rx_list_reassemble_rlc_sdus (c : protocol_ctxt_t) (e : rlc_am_entity_t) : res rlc_am_entity_t :=
  '(e', l) ← reassemble_loop c e (receiver_buffer e);
  Ok (e' <| receiver_buffer := l |>).

(** ** State variables *)

(** From the PDU at the cursor on; [dflt] is the value when the list ends. *)
Fixpoint first_incomplete (dflt : Z) (l : list rx_pdu) : Z :=
  match l with
  | [] => dflt
  | q :: rest => if all_segments_received q =? 0 then sn q else first_incomplete (next_sn (sn q)) rest
  end.

Definition rlc_am_rx_update_vr_ms (e : rlc_am_entity_t) (pos : nat) : rlc_am_entity_t :=
  e <| vr_ms := first_incomplete (vr_ms e) (drop pos (receiver_buffer e)) |>.

Fixpoint advance_vr_r (r : Z) (l : list rx_pdu) : Z :=
  match l with
  | [] => r
  | q :: rest =>
      if (all_segments_received q =? 0) || negb (r =? sn q) then r
      else advance_vr_r (if rx_rf q =? 1 then if lsf q =? 1 then next_sn r else r else next_sn r) rest
  end.

Definition rlc_am_rx_update_vr_r (e : rlc_am_entity_t) (pos : nat) : rlc_am_entity_t :=
  e <| vr_r := advance_vr_r (vr_r e) (drop pos (receiver_buffer e)) |>.

(** ** A received data PDU *)

(** t-Reordering is stopped, and started again, as the variables say. *)
Definition update_reordering (c : protocol_ctxt_t) (e : rlc_am_entity_t) (tb : rx_pdu) : rlc_am_entity_t :=
  let e := if running (t_reordering e) &&
              ((vr_x e =? vr_r e) || ((rlc_am_in_rx_window e (sn tb) =? 0) && negb (vr_x e =? vr_mr e)))
           then rlc_am_stop_and_reset_timer_reordering e else e in
  if negb (running (t_reordering e)) && negb (vr_h e =? vr_r e)
  then (rlc_am_start_timer_reordering c e) <| vr_x := vr_h e |> else e.

(** The PDU is in the buffer at [pos]. *)
Definition update_placed (c : protocol_ctxt_t) (e : rlc_am_entity_t) (tb : rx_pdu) (pos : nat) : res rlc_am_entity_t :=
  let e := if 0 <? rlc_am_sn_gte_vr_h e (sn tb) then e <| vr_h := next_sn (sn tb) |> else e in
  let e := e <| receiver_buffer ::= rlc_am_rx_check_all_byte_segments pos |> in
  let complete := match receiver_buffer e !! pos with Some q => negb (all_segments_received q =? 0) | None => false end in
  let e := if (sn tb =? vr_ms e) && complete then rlc_am_rx_update_vr_ms e pos else e in
  e ← (if sn tb =? vr_r e then
         let e := if complete then
                    let e := rlc_am_rx_update_vr_r e pos in
                    e <| vr_mr := Z.land (vr_r e + RLC_AM_WINDOW_SIZE) RLC_AM_SN_MASK |>
                  else e in
         rlc_am_rx_list_reassemble_rlc_sdus c e
       else Ok e);
  Ok (update_reordering c e tb).

Definition rlc_am_receive_process_data_pdu (c : protocol_ctxt_t) (e : rlc_am_entity_t) (bytes : list Z) (tb_size_in_bytesP : Z)
    : res rlc_am_entity_t :=
  '(_, info) ← rlc_am_get_data_pdu_infos bytes (u16 tb_size_in_bytesP);
  match info with
  | None => Ok e
  | Some tb =>
      if negb (rlc_am_in_rx_window e (sn tb) =? 0) then
        let e := if negb (rx_p tb =? 0) then e <| status_requested := true |> else e in
        match rlc_am_rx_list_insert_pdu e tb with
        | (rc, pos, e) =>
            if rc <? 0 then
              Ok (e <| stat_rx_data_pdu_dropped ::= fun n => u32 (n + 1) |>
                    <| stat_rx_data_bytes_dropped ::= fun n => u32 (n + u16 tb_size_in_bytesP) |>
                    <| status_requested := true |>)
            else update_placed c e tb pos
        end
      else
        Ok (e <| stat_rx_data_pdu_out_of_window ::= fun n => u32 (n + 1) |>
              <| stat_rx_data_bytes_out_of_window ::= fun n => u32 (n + u16 tb_size_in_bytesP) |>
              <| status_requested := true |>)
  end.

(** ** Expiry of t-Reordering *)

(** The loop over the buffer, which leaves [vr_ms]. *)
Fixpoint expiry_vr_ms (e : rlc_am_entity_t) (ms : Z) (l : list rx_pdu) : Z :=
  match l with
  | [] => ms
  | q :: rest =>
      if negb (rlc_am_sn_gte_vr_x e (sn q) =? 0) && (all_segments_received q =? 0) then sn q
      else expiry_vr_ms e (next_sn (sn q)) rest
  end.

Definition rlc_am_check_timer_reordering (c : protocol_ctxt_t) (e : rlc_am_entity_t) : rlc_am_entity_t :=
  if running (t_reordering e) && expired (t_reordering e) (now c) then
    let e := e <| t_reordering ::= fun t => t <| running := false |> <| timed_out := true |> |>
               <| stat_timer_reordering_timed_out ::= fun n => u32 (n + 1) |> in
    let e := e <| vr_ms := expiry_vr_ms e (vr_ms e) (receiver_buffer e) |> in
    let e := if negb (rlc_am_sn_gt_vr_ms e (vr_h e) =? 0) then
               e <| vr_x := vr_h e |>
                 <| t_reordering ::= fun t => t <| ms_time_out := u32 (now c + ms_duration t) |> |>
             else e in
    e <| status_requested := true |>
  else e.

End RlcAmRx.
