(* ===== verification/RlcAmRxProofs.v ===== *)
(** * RLC AM reception: PDUs in any order are delivered in order

    The receiver is compared with the one that reassembles the PDUs of the
    stream in their order. PDUs are named by their index in the stream, of
    which the sequence number is the rest modulo 1024. *)

From Stdlib Require Import Sorting.Sorted.
From S2P Require Import Prelude RlcUmEntity RlcAmStatus RlcAmEntity RlcAmReport RlcAmReportProofs RlcAmExchange RlcAmRx.
Import RlcAmStatus RlcAmEntity RlcAmReport RlcAmReportProofs RlcAmExchange RlcAmRx.

Module RlcAmRxProofs.

(** ** What reassembly depends on and changes *)

Definition rsm (e : rlc_am_entity_t) := (output_sdu_in_construction e, output_sdu_size_to_write e, upper_sdus e).
Definition ctl (e : rlc_am_entity_t) :=
  (receiver_buffer e, vr_r e, vr_mr e, vr_x e, vr_ms e, vr_h e, t_reordering e, nb_bytes_requested_by_mac e).

Definition res_rel {A B} (R : A -> B -> Prop) (m : res A) (n : res B) : Prop :=
  match m, n with Ok a, Ok b => R a b | Fault f, Fault g => f = g | _, _ => False end.

Lemma res_rel_bind {A B C D} (R : A -> B -> Prop) (S : C -> D -> Prop) m n f g :
  res_rel R m n -> (forall a b, R a b -> res_rel S (f a) (g b)) -> res_rel S (m ≫= f) (n ≫= g).
Proof. destruct m, n; cbn; try done. intros H1 H2. by apply H2. Qed.

(** Two runs that agree on the SDU under construction still do, and each kept
    the rest of its entity. *)
Definition agree (e1 e2 f1 f2 : rlc_am_entity_t) : Prop := rsm f1 = rsm f2 /\ ctl f1 = ctl e1 /\ ctl f2 = ctl e2.

Lemma agree_trans e1 e2 f1 f2 g1 g2 : agree e1 e2 f1 f2 -> agree f1 f2 g1 g2 -> agree e1 e2 g1 g2.
Proof. unfold agree. intros (? & ? & ?) (? & ? & ?). split_and!; congruence. Qed.

Lemma agree_bind e1 e2 m n f g : res_rel (agree e1 e2) m n ->
  (forall a b, rsm a = rsm b -> res_rel (agree a b) (f a) (g b)) -> res_rel (agree e1 e2) (m ≫= f) (n ≫= g).
Proof.
  intros H1 H2. eapply res_rel_bind; [exact H1|]. intros a b Ha. specialize (H2 a b (proj1 Ha)).
  destruct (f a), (g b); cbn in *; try done. by eapply agree_trans.
Qed.

Unset Default Proof Using.

Section Reassembly.
Context (c1 c2 : protocol_ctxt_t) (Hc : RlcUm.mem_block_ok c1 = RlcUm.mem_block_ok c2).

Lemma reassembly_agree e1 e2 src len : rsm e1 = rsm e2 ->
  res_rel (agree e1 e2) (rlc_am_reassembly c1 e1 src len) (rlc_am_reassembly c2 e2 src len).
Proof.
  intros H. unfold rsm in H. injection H as Ho Hs Hu. unfold rlc_am_reassembly. rewrite <- Ho, <- Hs, <- Hc.
  destruct (output_sdu_in_construction e1) as [b|]; [|destruct (RlcUm.mem_block_ok c1)]; cbn [mbind res_bind assert_fatal]; try done;
    repeat case_match; try done; (split; [|by split]); unfold rsm; rproj; by rewrite Hu.
Qed.

Lemma send_agree e1 e2 : rsm e1 = rsm e2 -> res_rel (agree e1 e2) (rlc_am_send_sdu e1) (rlc_am_send_sdu e2).
Proof.
  intros H. pose proof H as H'. unfold rsm in H. injection H as Ho Hs Hu. unfold rlc_am_send_sdu. rewrite <- Ho, <- Hs.
  repeat case_match; try done; (split; [|by split]); try done. unfold rsm. rproj. by rewrite Hu.
Qed.

Lemma lis_agree lis e1 e2 data : rsm e1 = rsm e2 ->
  res_rel (fun x y => agree e1 e2 x.1 y.1 /\ x.2 = y.2) (reassemble_lis c1 e1 data lis) (reassemble_lis c2 e2 data lis).
Proof.
  revert e1 e2 data. induction lis as [|li lis IH]; intros e1 e2 data H; [done|]. cbn [reassemble_lis].
  eapply res_rel_bind; [by apply reassembly_agree|]. intros a b Ha. eapply res_rel_bind; [apply send_agree, Ha|]. intros a' b' Ha'.
  specialize (IH a' b' (drop (Z.to_nat li) data) (proj1 Ha')).
  destruct (reassemble_lis c1 a' _ _) as [[x d]|], (reassemble_lis c2 b' _ _) as [[y d']|]; cbn in *; try done.
  destruct IH as [IH E]. cbn in IH, E. subst d'. split; [|done]. eapply agree_trans; [exact Ha|]. by eapply agree_trans.
Qed.

Lemma agree_last e1 e2 (last : bool) : rsm e1 = rsm e2 ->
  res_rel (agree e1 e2) (if last then rlc_am_send_sdu e1 else Ok e1) (if last then rlc_am_send_sdu e2 else Ok e2).
Proof. intros H. destruct last; [by apply send_agree|done]. Qed.

Lemma reassemble_pdu_agree e1 e2 tb : rsm e1 = rsm e2 ->
  res_rel (agree e1 e2) (rlc_am_reassemble_pdu c1 e1 tb) (rlc_am_reassemble_pdu c2 e2 tb).
Proof.
  intros H. unfold rlc_am_reassemble_pdu. apply agree_bind; [by apply agree_last|]. intros a b Hab.
  destruct (rx_e tb =? 0).
  - apply agree_bind; [by apply reassembly_agree|]. intros. by apply agree_last.
  - eapply res_rel_bind; [by apply lis_agree|]. intros [x d] [y d'] [A E]. cbn in A, E |- *. subst d'. case_match; [|done].
    pose proof (agree_bind x y _ _ _ _ (reassembly_agree x y d (hidden_size tb) (proj1 A)) (fun a b => agree_last a b (Z.land (rx_fi tb) 1 =? 0))) as G.
    destruct (_ ≫= _), (_ ≫= _); cbn in *; try done. by eapply agree_trans.
Qed.

End Reassembly.

(** ** Indices and sequence numbers *)

Definition seq (k : Z) : Z := k mod RLC_AM_SN_MODULO.

Lemma land_mask x : Z.land x RLC_AM_SN_MASK = seq x.
Proof. apply (Z.land_ones x 10). lia. Qed.

Ltac seq_lia := unfold seq, offset, RLC_AM_SN_MODULO, RLC_AM_WINDOW_SIZE in *; Z.to_euclidean_division_equations; lia.

Lemma next_sn_seq k : next_sn (seq k) = seq (k + 1).
Proof. unfold next_sn. rewrite land_mask. unfold seq. by rewrite Zplus_mod_idemp_l. Qed.

Lemma seq_inj j k : Z.abs (j - k) < RLC_AM_SN_MODULO -> seq j = seq k -> j = k.
Proof. seq_lia. Qed.

(** The window is not wrapped: sequence numbers are in the order of the
    indices. *)
Lemma seq_same_cycle r j k : seq r < 512 -> r <= j < r + 512 -> r <= k < r + 512 -> (seq j < seq k <-> j < k).
Proof. seq_lia. Qed.

Definition cycle (k : Z) : Z := k / RLC_AM_SN_MODULO.

Ltac cyc_lia := unfold cycle, seq, RLC_AM_SN_MODULO in *; Z.to_euclidean_division_equations; lia.

Lemma seq_cycle j k : cycle j = cycle k -> (seq j < seq k <-> j < k).
Proof. cyc_lia. Qed.

(** ** The place of a PDU in the buffer *)

Section Stream.
Context (P : Z -> rx_pdu).
Context (HP : forall k, 0 <= k -> sn (P k) = seq k /\ rx_rf (P k) = 0).

Definition buffered (k : Z) : rx_pdu := set_received (P k).

(** [ks] are the indices of the buffer: increasing, from [lo] to below [hi]. *)
Fixpoint increasing (lo hi : Z) (ks : list Z) : Prop :=
  match ks with [] => True | k :: rest => lo <= k < hi /\ increasing (k + 1) hi rest end.

Fixpoint rank (k : Z) (ks : list Z) : nat :=
  match ks with [] => 0%nat | j :: rest => if j <? k then S (rank k rest) else 0%nat end.

Lemma increasing_weaken lo lo' hi hi' ks : increasing lo hi ks -> lo' <= lo -> hi <= hi' -> increasing lo' hi' ks.
Proof. revert lo lo'. induction ks as [|k ks IH]; intros lo lo' H ??; [done|]. cbn in *. split; [lia|]. eapply IH; [apply H|lia|lia]. Qed.

Lemma increasing_elem lo hi ks k : increasing lo hi ks -> k ∈ ks -> lo <= k < hi.
Proof.
  revert lo. induction ks as [|j ks IH]; intros lo H Hk; [by apply not_elem_of_nil in Hk|]. cbn in H.
  apply elem_of_cons in Hk as [->|Hk]; [lia|]. specialize (IH _ (proj2 H) Hk). lia.
Qed.

Lemma up_step_before k j prev : 0 <= k -> 0 <= j -> seq k < seq j ->
  match prev with Some p => sn p <> seq k | None => True end -> up_step (P k) prev (buffered j) = Insert.
Proof.
  intros Hk Hj H Hp. unfold up_step, buffered, set_received. rproj. destruct (HP k Hk) as [-> _], (HP j Hj) as [-> _].
  destruct (Z.ltb_spec (seq k) (seq j)); [|lia]. destruct prev as [p|]; [|done]. by destruct (Z.eqb_spec (sn p) (seq k)).
Qed.

Lemma up_step_same k prev : 0 <= k -> up_step (P k) prev (buffered k) = Drop.
Proof.
  intros Hk. unfold up_step, buffered, set_received. rproj. destruct (HP k Hk) as [-> ->]. by rewrite Z.ltb_irrefl, Z.eqb_refl.
Qed.

Lemma up_step_after k j prev : 0 <= k -> 0 <= j -> seq j < seq k -> up_step (P k) prev (buffered j) = Next.
Proof.
  intros Hk Hj H. unfold up_step, buffered, set_received. rproj. destruct (HP k Hk) as [-> _], (HP j Hj) as [-> _].
  destruct (Z.ltb_spec (seq k) (seq j)); [lia|]. destruct (Z.eqb_spec (seq k) (seq j)); [lia|done].
Qed.

Definition before (k : Z) (prev : option rx_pdu) : Prop :=
  match prev with Some p => exists j, 0 <= j /\ p = buffered j /\ seq j <> seq k | None => True end.

Lemma before_sn k prev : before k prev -> match prev with Some p => sn p <> seq k | None => True end.
Proof. destruct prev as [p|]; [|done]. intros (j & Hj & -> & Hn). unfold buffered, set_received. rproj. by destruct (HP j Hj) as [-> _]. Qed.

Lemma before_buffered k j : 0 <= j -> seq j <> seq k -> before k (Some (buffered j)).
Proof. intros. by exists j. Qed.

(** In a window that is not wrapped. *)
Lemma walk_simple_spec r k ks lo prev pos : 0 <= r -> seq r < 512 -> r <= k < r + 512 -> r <= lo -> increasing lo (r + 512) ks -> before k prev ->
  walk_simple (P k) prev pos (buffered <$> ks) = if decide (k ∈ ks) then None else Some (pos + rank k ks)%nat.
Proof.
  intros Hr Hw Hk. revert lo prev pos. induction ks as [|j ks IH]; intros lo prev pos Hlo Hi Hb.
  - cbn [fmap list_fmap walk_simple rank]. rewrite decide_False, Nat.add_0_r by apply not_elem_of_nil.
    apply before_sn in Hb. destruct prev as [p|]; [|done]. destruct (HP k ltac:(lia)) as [-> _]. by destruct (Z.eqb_spec (seq k) (sn p)).
  - destruct Hi as [Hj Hi]. cbn [fmap list_fmap walk_simple rank]. destruct (Z.lt_trichotomy k j) as [H|[->|H]].
    + rewrite up_step_before by (try lia; first [by apply (seq_same_cycle r); lia|by apply before_sn]).
      rewrite decide_False; [|intros [->|Hin]%elem_of_cons; [lia|apply (increasing_elem _ _ _ _ Hi) in Hin; lia]].
      destruct (Z.ltb_spec j k); [lia|]. by rewrite Nat.add_0_r.
    + rewrite up_step_same, decide_True by (lia || by left). done.
    + assert (seq j < seq k) by (by apply (seq_same_cycle r); lia). rewrite up_step_after by lia.
      rewrite (IH (j + 1)) by (done || lia || (apply before_buffered; lia)).
      destruct (Z.ltb_spec j k); [|lia]. destruct (decide (k ∈ ks)).
      * by rewrite decide_True by by right.
      * rewrite decide_False by (intros [->|]%elem_of_cons; [lia|done]). f_equal. lia.
Qed.

Lemma buffered_sn j : 0 <= j -> sn (buffered j) = seq j.
Proof. intros Hj. unfold buffered, set_received. rproj. apply (HP j Hj). Qed.

Lemma at_end_buffered k j : 0 <= j -> at_end (P k) (buffered j) = Insert.
Proof. intros Hj. unfold at_end, buffered, set_received. rproj. by rewrite (proj2 (HP j Hj)). Qed.

Lemma rank_head k j ks lo hi : increasing lo hi (j :: ks) -> k < j -> (if decide (k ∈ j :: ks) then None else Some (rank k (j :: ks))) = Some 0%nat.
Proof.
  intros [Hj Hi] H. rewrite decide_False; [|intros [->|Hin]%elem_of_cons; [lia|apply (increasing_elem _ _ _ _ Hi) in Hin; lia]].
  cbn. by destruct (Z.ltb_spec j k); [lia|].
Qed.

Lemma rank_tail k j ks : j < k -> (if decide (k ∈ j :: ks) then None else Some (rank k (j :: ks))) = S <$> (if decide (k ∈ ks) then None else Some (rank k ks)).
Proof.
  intros H. cbn [rank]. destruct (Z.ltb_spec j k); [|lia]. destruct (decide (k ∈ ks)).
  - by rewrite decide_True by by right.
  - by rewrite decide_False by (intros [->|]%elem_of_cons; [lia|done]).
Qed.

(** In a wrapped window, a PDU of the cycle of its lower edge. *)
Lemma walk_up_spec r k ks lo prev pos : 0 <= r -> r <= k < r + 512 -> cycle k = cycle r -> r <= lo -> increasing lo (r + 512) ks -> before k prev ->
  walk_up (seq r) (P k) prev pos (buffered <$> ks) = (Nat.add pos) <$> (if decide (k ∈ ks) then None else Some (rank k ks)).
Proof.
  intros Hr Hk Hc. revert lo prev pos. induction ks as [|j ks IH]; intros lo prev pos Hlo Hi Hb.
  - cbn [fmap list_fmap walk_up]. rewrite decide_False by apply not_elem_of_nil. cbn. rewrite Nat.add_0_r.
    destruct prev as [p|]; [|done]. destruct Hb as (j & Hj & -> & _). by rewrite at_end_buffered.
  - pose proof Hi as [Hj Hi']. cbn [fmap list_fmap walk_up]. rewrite buffered_sn by lia. destruct (Z.leb_spec (seq r) (seq j)) as [Hs|Hs].
    + assert (cycle j = cycle r) by cyc_lia. pose proof (seq_cycle k j ltac:(congruence)). pose proof (seq_cycle j k ltac:(congruence)).
      destruct (Z.lt_trichotomy k j) as [Hkj|[->|Hkj]].
      * rewrite up_step_before, (rank_head k j ks _ _ Hi Hkj) by (try lia; by apply before_sn). cbn. by rewrite Nat.add_0_r.
      * rewrite up_step_same, decide_True by (lia || by left). done.
      * rewrite up_step_after by lia. rewrite (IH (j + 1)), rank_tail by (done || lia || (apply before_buffered; lia)).
        destruct (decide (k ∈ ks)); [done|]. cbn. f_equal. lia.
    + assert (k < j) by cyc_lia. rewrite (rank_head k j ks _ _ Hi) by done. cbn. by rewrite Nat.add_0_r.
Qed.

Lemma down_step_before k j prev : 0 <= k -> 0 <= j -> seq j < seq k ->
  match prev with Some p => sn p <> seq j | None => True end -> down_step (P k) prev (buffered j) = Insert.
Proof.
  intros Hk Hj H Hp. unfold down_step. rewrite buffered_sn by done. destruct (HP k Hk) as [-> _].
  destruct (Z.ltb_spec (seq j) (seq k)); [|lia]. destruct prev as [p|]; [|done]. by destruct (Z.eqb_spec (sn p) (seq j)).
Qed.

Lemma down_step_same k prev : 0 <= k -> down_step (P k) prev (buffered k) = Drop.
Proof.
  intros Hk. unfold down_step, buffered, set_received. rproj. destruct (HP k Hk) as [-> ->]. by rewrite Z.ltb_irrefl, Z.eqb_refl.
Qed.

Lemma down_step_after k j prev : 0 <= k -> 0 <= j -> seq k < seq j -> down_step (P k) prev (buffered j) = Next.
Proof.
  intros Hk Hj H. unfold down_step. rewrite buffered_sn by done. destruct (HP k Hk) as [-> _].
  destruct (Z.ltb_spec (seq j) (seq k)); [lia|]. destruct (Z.eqb_spec (seq k) (seq j)); [lia|done].
Qed.

Lemma rank_snoc k j ks lo hi : increasing lo hi (ks ++ [j]) ->
  (if decide (k ∈ ks ++ [j]) then None else Some (rank k (ks ++ [j]))) =
  if decide (k < j) then (if decide (k ∈ ks) then None else Some (rank k ks))
  else if decide (k = j) then None else Some (S (length ks)).
Proof.
  revert lo. induction ks as [|i ks IH]; intros lo.
  - intros _. cbn [app]. destruct (decide (k < j)) as [Hd|Hd].
    + rewrite !decide_False by (rewrite ?list_elem_of_singleton; try apply not_elem_of_nil; lia). cbn. by destruct (Z.ltb_spec j k); [lia|].
    + destruct (decide (k = j)) as [->|]; [by rewrite decide_True by by left|]. rewrite decide_False by (rewrite list_elem_of_singleton; lia).
      cbn. by destruct (Z.ltb_spec j k); [|lia].
  - cbn [app]. intros [Hi H]. assert (Hij : i < j) by (pose proof (increasing_elem _ _ _ j H ltac:(set_solver)); lia).
    specialize (IH _ H). destruct (Z.lt_trichotomy k i) as [Hk|[->|Hk]].
    + rewrite (rank_head k i (ks ++ [j]) lo hi) by done. rewrite decide_True by lia.
      rewrite decide_False; [cbn; by destruct (Z.ltb_spec i k); [lia|]|].
      intros [->|Hin]%elem_of_cons; [lia|]. pose proof (increasing_elem _ _ _ k H ltac:(set_solver)). lia.
    + rewrite !decide_True by first [by left|lia]. done.
    + rewrite !rank_tail, IH by done. destruct (decide (k < j)); [done|]. by destruct (decide (k = j)).
Qed.

Lemma increasing_snoc lo hi ks j : increasing lo hi (ks ++ [j]) -> increasing lo j ks /\ lo <= j < hi.
Proof.
  revert lo. induction ks as [|i ks IH]; intros lo; cbn; [lia|]. intros [Hi H]. destruct (IH _ H). split; [|lia]. split; [lia|done].
Qed.

(** A PDU of the next cycle: the place is right unless no element of the list
    is before it. *)
Lemma walk_down_spec r k ks hi n prev : 0 <= r -> r <= k < r + 512 -> cycle k = cycle r + 1 -> r <= hi <= r + 512 -> increasing r hi ks ->
  match prev with Some p => exists i, hi <= i < r + 512 /\ p = buffered i | None => True end ->
  walk_down (seq r) n (P k) prev (reverse (buffered <$> ks)) =
  (fun p => if (p =? 0)%nat then n else p) <$> (if decide (k ∈ ks) then None else Some (rank k ks)).
Proof.
  intros Hr Hk Hc. revert hi prev. induction ks as [|j ks IH] using rev_ind; intros hi prev Hhi Hi Hp.
  - cbn. destruct prev as [p|]; [|done]. destruct Hp as (i & Hi' & ->). by rewrite at_end_buffered by lia.
  - pose proof (increasing_snoc _ _ _ _ Hi) as [Hi' Hj]. rewrite fmap_app, reverse_app. cbn [fmap list_fmap reverse rev_append app walk_down].
    rewrite (rank_snoc _ _ _ _ _ Hi), buffered_sn, length_reverse, length_fmap by lia.
    assert (Hb : match prev with Some p => sn p <> seq j | None => True end).
    { destruct prev as [p|]; [|done]. destruct Hp as (i & Hi'' & ->). rewrite buffered_sn by lia. intros E. apply seq_inj in E; [lia|unfold RLC_AM_SN_MODULO; lia]. }
    destruct (Z.ltb_spec (seq j) (seq r)) as [Hs|Hs].
    + assert (cycle j = cycle k) by cyc_lia. pose proof (seq_cycle k j ltac:(congruence)). pose proof (seq_cycle j k ltac:(congruence)).
      destruct (Z.lt_trichotomy k j) as [Hkj|[->|Hkj]].
      * rewrite down_step_after, decide_True by lia. apply (IH j); [lia|done|]. exists j. split; [lia|done].
      * rewrite down_step_same, decide_False, decide_True by lia. done.
      * by rewrite down_step_before, decide_False, decide_False by (done || lia).
    + assert (j < k) by cyc_lia. by rewrite decide_False, decide_False by lia.
Qed.

(** The one place where the insertion is wrong. *)
Definition misplaced (e : rlc_am_entity_t) (s : Z) : bool :=
  (vr_mr e <? vr_r e) && (s <? vr_r e) &&
  match receiver_buffer e with q :: _ => (s <? sn q) && (sn q <? vr_r e) | [] => false end.

Lemma insert_position_spec e r k ks : 0 <= r -> vr_r e = seq r -> vr_mr e = seq (r + 512) -> r <= k < r + 512 ->
  receiver_buffer e = buffered <$> ks -> increasing r (r + 512) ks -> misplaced e (seq k) = false ->
  insert_position e (P k) = if decide (k ∈ ks) then None else Some (rank k ks).
Proof.
  intros Hr Er Em Hk Eb Hi Hm. unfold insert_position, misplaced in *. rewrite Eb, Er, Em in *.
  destruct ks as [|j ks]; [done|]. destruct (HP k ltac:(lia)) as [Es _]. cbn [fmap list_fmap] in *. rewrite Es in *. pose proof Hi as [Hj _].
  rewrite buffered_sn in Hm by lia. destruct (Z.ltb_spec (seq (r + 512)) (seq r)) as [Hw|Hw].
  - destruct (Z.leb_spec (seq r) (seq k)) as [Hs|Hs].
    + assert (cycle k = cycle r) by cyc_lia. rewrite (walk_up_spec r k (j :: ks) r) by (done || lia).
      by destruct (decide (k ∈ j :: ks)).
    + assert (cycle k = cycle r + 1) by cyc_lia. change (buffered j :: (buffered <$> ks)) with (buffered <$> (j :: ks)).
      rewrite (walk_down_spec r k (j :: ks) (r + 512)) by (done || lia).
      destruct (Z.ltb_spec (seq k) (seq r)) as [_|]; [|lia]. cbn [andb] in Hm.
      destruct (decide (k ∈ j :: ks)) as [|Hn]; [done|]. cbn [fmap option_fmap option_map]. destruct (Nat.eqb_spec (rank k (j :: ks)) 0) as [E|]; [|done]. exfalso.
      cbn [rank] in E. destruct (Z.ltb_spec j k); [done|]. assert (k <> j) by (intros ->; apply Hn; by left).
      destruct (Z.ltb_spec (seq k) (seq j)); [|cyc_lia]. destruct (Z.ltb_spec (seq j) (seq r)); [done|cyc_lia].
  - rewrite (walk_simple_spec r k (j :: ks) r) by (done || lia || seq_lia). by destruct (decide (k ∈ j :: ks)).
Qed.

(** ** The buffer after an insertion *)

Definition ins (k : Z) (ks : list Z) : list Z := take (rank k ks) ks ++ k :: drop (rank k ks) ks.

Lemma rank_length k ks : (rank k ks <= length ks)%nat.
Proof. induction ks as [|j ks IH]; cbn; [lia|]. case_match; lia. Qed.

Lemma ins_cons k j ks : ins k (j :: ks) = if j <? k then j :: ins k ks else k :: j :: ks.
Proof. unfold ins. cbn [rank]. by destruct (j <? k). Qed.

Lemma ins_elem k ks j : j ∈ ins k ks <-> j = k \/ j ∈ ks.
Proof. induction ks as [|i ks IH]; [cbn; set_solver|]. rewrite ins_cons. case_match; set_solver. Qed.

Lemma ins_increasing lo hi k ks : increasing lo hi ks -> lo <= k < hi -> k ∉ ks -> increasing lo hi (ins k ks).
Proof.
  revert lo. induction ks as [|j ks IH]; intros lo Hi Hk Hn; [cbn; lia|]. rewrite ins_cons. cbn in Hi. apply not_elem_of_cons in Hn as [Hne Hn].
  destruct (Z.ltb_spec j k); cbn; (split; [lia|]); [apply IH; [apply Hi|lia|done]|]. split; [lia|apply Hi].
Qed.

Lemma insert_buffer k ks : 0 <= k ->
  rlc_am_rx_check_all_byte_segments (rank k ks) (insert_at (rank k ks) (P k) (buffered <$> ks)) = buffered <$> ins k ks.
Proof.
  intros Hk. unfold rlc_am_rx_check_all_byte_segments, insert_at, ins. pose proof (rank_length k ks).
  assert (El : rank k ks = length (take (rank k ks) (buffered <$> ks))) by (rewrite length_take, length_fmap; lia).
  rewrite list_lookup_middle by done. rewrite (proj2 (HP k Hk)). cbn [Z.eqb].
  rewrite El at 1. rewrite insert_app_r_alt by lia. rewrite Nat.sub_diag. cbn. rewrite fmap_app. cbn. by rewrite fmap_take, fmap_drop.
Qed.

Lemma insert_lookup k ks : (buffered <$> ins k ks) !! rank k ks = Some (buffered k).
Proof.
  unfold ins. rewrite fmap_app. apply list_lookup_middle. rewrite length_fmap, length_take. pose proof (rank_length k ks). lia.
Qed.

(** ** The PDUs that follow each other *)

Fixpoint run_from (r : Z) (ks : list Z) : Z * list Z :=
  match ks with j :: rest => if j =? r then run_from (r + 1) rest else (r, ks) | [] => (r, []) end.

Lemma run_from_spec r hi ks : increasing r hi ks -> r <= hi ->
  let '(r', ks') := run_from r ks in r <= r' <= hi /\ increasing (r' + 1) hi ks' /\ (forall j, j ∈ ks <-> r <= j < r' \/ j ∈ ks').
Proof.
  revert r. induction ks as [|j ks IH]; intros r H Hr; cbn [run_from].
  - split; [lia|]. split; [done|]. intros j. split; [|intros [|]; [lia|done]]. by right.
  - destruct H as [Hj Hi]. destruct (Z.eqb_spec j r) as [->|Hne].
    + specialize (IH (r + 1) Hi ltac:(lia)). destruct (run_from (r + 1) ks) as [r' ks']. destruct IH as (H1 & H2 & H3).
      split; [lia|]. split; [done|]. intros i. rewrite elem_of_cons, H3. assert (r <= i < r' <-> i = r \/ r + 1 <= i < r') by lia. tauto.
    + split; [lia|]. split; [split; [lia|done]|]. intros i. assert (~ r <= i < r) by lia. tauto.
Qed.

Lemma advance_spec r hi ks : 0 <= r -> increasing r hi ks -> hi <= r + 1024 ->
  advance_vr_r (seq r) (buffered <$> ks) = seq (run_from r ks).1.
Proof.
  revert r. induction ks as [|j ks IH]; intros r Hr Hi Hh; [done|]. destruct Hi as [Hj Hi]. cbn [fmap list_fmap advance_vr_r run_from].
  rewrite buffered_sn by lia. unfold buffered at 1 2. unfold set_received. rproj. rewrite (proj2 (HP j ltac:(lia))). cbn [Z.eqb orb Pos.eqb].
  destruct (Z.eqb_spec j r) as [->|Hne].
  - rewrite Z.eqb_refl. cbn [negb]. rewrite next_sn_seq. apply IH; [lia|done|lia].
  - destruct (Z.eqb_spec (seq r) (seq j)) as [E|]; [|done]. apply seq_inj in E; [lia|unfold RLC_AM_SN_MODULO; lia].
Qed.

(** ** The receiver that has the PDUs in order *)

Context (c0 : protocol_ctxt_t) (Hc0 : RlcUm.mem_block_ok c0 = true) (e0 : rlc_am_entity_t).

(** The first [n] PDUs of the stream are reassembled in their order. *)
Fixpoint in_order (n : nat) : res rlc_am_entity_t :=
  match n with
  | O => Ok e0
  | S n' => e ← in_order n'; rlc_am_reassemble_pdu c0 e (P (Z.of_nat n'))
  end.

Context (Hord : forall n, exists f, in_order n = Ok f).

(** The SDUs handed up are those of the first [r] PDUs. *)
Definition delivered (r : Z) (e : rlc_am_entity_t) : Prop := exists f, in_order (Z.to_nat r) = Ok f /\ rsm e = rsm f.

Lemma reassemble_next c r e : 0 <= r -> RlcUm.mem_block_ok c = true -> delivered r e ->
  exists e', rlc_am_reassemble_pdu c e (buffered r) = Ok e' /\ ctl e' = ctl e /\ delivered (r + 1) e'.
Proof.
  intros Hr Hc (f & Ef & Hf). destruct (Hord (Z.to_nat (r + 1))) as [g Eg]. pose proof Eg as Eg'.
  replace (Z.to_nat (r + 1)) with (S (Z.to_nat r)) in Eg by lia. cbn [in_order] in Eg. rewrite Ef in Eg. cbn [mbind res_bind] in Eg.
  rewrite Z2Nat.id in Eg by lia. pose proof (reassemble_pdu_agree c c0 ltac:(congruence) e f (P r) Hf) as A. rewrite Eg in A.
  change (rlc_am_reassemble_pdu c e (buffered r)) with (rlc_am_reassemble_pdu c e (P r)).
  destruct (rlc_am_reassemble_pdu c e (P r)) as [e'|]; [|done]. destruct A as (A1 & A2 & _). exists e'. split; [done|]. split; [done|]. by exists g.
Qed.

Lemma reassemble_loop_cons c e q p rest : reassemble_loop c e (q :: p :: rest) =
  if 0 <? all_segments_received q then
    e' ← rlc_am_reassemble_pdu c e q;
    if (sn p =? next_sn (sn q)) || ((sn p =? sn q) && (0 <? all_segments_received p)) then reassemble_loop c e' (p :: rest) else Ok (e', p :: rest)
  else Ok (e, q :: p :: rest).
Proof. done. Qed.

Lemma loop_spec c r hi ks e : 0 <= r -> RlcUm.mem_block_ok c = true -> increasing (r + 1) hi ks -> hi <= r + 1024 -> delivered r e ->
  exists e', reassemble_loop c e (buffered <$> (r :: ks)) = Ok (e', buffered <$> (run_from (r + 1) ks).2) /\
    ctl e' = ctl e /\ delivered (run_from (r + 1) ks).1 e'.
Proof.
  intros Hr Hc. revert r e Hr. induction ks as [|j ks IH]; intros r e Hr Hi Hh Hd; destruct (reassemble_next c r e Hr Hc Hd) as (e' & E & Ec & Hd').
  - cbn. rewrite E. cbn. by exists e'.
  - rewrite !fmap_cons, reassemble_loop_cons. change (all_segments_received (buffered r)) with 1. cbn [Z.ltb Z.compare]. rewrite E.
    cbn [mbind res_bind]. destruct Hi as [Hj Hi]. rewrite !buffered_sn, next_sn_seq by lia. cbn [run_from]. destruct (Z.eqb_spec j (r + 1)) as [->|Hne].
    + rewrite Z.eqb_refl. cbn [orb]. destruct (IH (r + 1) e') as (e'' & E' & Ec' & Hd''); [lia|done|lia|done|].
      rewrite <- fmap_cons, E'. exists e''. split; [done|]. split; [congruence|done].
    + destruct (Z.eqb_spec (seq j) (seq (r + 1))) as [F|_]; [apply seq_inj in F; [lia|unfold RLC_AM_SN_MODULO; lia]|].
      destruct (Z.eqb_spec (seq j) (seq r)) as [F|_]; [apply seq_inj in F; [lia|unfold RLC_AM_SN_MODULO; lia]|]. cbn. by exists e'.
Qed.

(** ** A data PDU is received *)

Definition view (e : rlc_am_entity_t) b r mr h s : Prop :=
  receiver_buffer e = b /\ vr_r e = r /\ vr_mr e = mr /\ vr_h e = h /\ rsm e = s.

Lemma reordering_view c e tb b r mr h s : view e b r mr h s -> view (update_reordering c e tb) b r mr h s.
Proof. unfold update_reordering, rlc_am_stop_and_reset_timer_reordering, rlc_am_start_timer_reordering. by repeat case_match. Qed.

Lemma seq_range k : 0 <= seq k < RLC_AM_SN_MODULO.
Proof. seq_lia. Qed.

Lemma shifted_seq r k : shifted (seq k) (seq r) = seq (k - r).
Proof. unfold shifted, u16, seq, RLC_AM_SN_MODULO. Z.to_euclidean_division_equations; lia. Qed.

Lemma window_test e r k : vr_r e = seq r -> vr_mr e = seq (r + 512) -> r - 512 <= k < r + 512 ->
  rlc_am_in_rx_window e (seq k) = if r <=? k then 1 else 0.
Proof.
  intros Er Em Hk. unfold rlc_am_in_rx_window. rewrite Er, Em, !shifted_seq. pose proof (seq_range k).
  destruct (Z.leb_spec RLC_AM_SN_MODULO (seq k)); [lia|]. destruct (Z.leb_spec r k), (Z.ltb_spec (seq (k - r)) (seq (r + 512 - r))); seq_lia || done.
Qed.

Lemma gte_vr_h_test e r h k : vr_r e = seq r -> vr_h e = seq h -> r <= h <= r + 512 -> r <= k < r + 512 ->
  rlc_am_sn_gte_vr_h e (seq k) = if h <=? k then 1 else 0.
Proof.
  intros Er Eh Hh Hk. unfold rlc_am_sn_gte_vr_h. rewrite Er, Eh, !shifted_seq. pose proof (seq_range k).
  destruct (Z.leb_spec RLC_AM_SN_MODULO (seq k)); [lia|]. destruct (Z.leb_spec h k), (Z.leb_spec (seq (h - r)) (seq (k - r))); seq_lia || done.
Qed.

Lemma delivered_view r e e' : rsm e' = rsm e -> delivered r e -> delivered r e'.
Proof. intros E (f & Ef & Hf). exists f. split; [done|congruence]. Qed.

(** A PDU that is not in the buffer yet, with all the effects of its arrival. *)
Lemma placed_spec c e r h k ks : 0 <= r -> r <= k < r + 512 -> k ∉ ks -> RlcUm.mem_block_ok c = true ->
  vr_r e = seq r -> vr_mr e = seq (r + 512) -> vr_h e = seq h -> r <= h <= r + 512 -> increasing (r + 1) (r + 512) ks ->
  receiver_buffer e = insert_at (rank k ks) (P k) (buffered <$> ks) -> delivered r e ->
  exists e', update_placed c e (P k) (rank k ks) = Ok e' /\ vr_h e' = seq (Z.max h (k + 1)) /\
    let '(r', ks') := if k =? r then run_from (r + 1) ks else (r, ins k ks) in
    vr_r e' = seq r' /\ vr_mr e' = seq (r' + 512) /\ receiver_buffer e' = buffered <$> ks' /\ delivered r' e'.
Proof.
  intros Hr Hk Hn Hc Er Em Eh Hh Hi Eb Hd. unfold update_placed. destruct (HP k ltac:(lia)) as [Es _]. rewrite Es.
  rewrite (gte_vr_h_test e r h k) by done. set (e1 := if 0 <? _ then _ else e).
  assert (E1 : view e1 (receiver_buffer e) (vr_r e) (vr_mr e) (seq (Z.max h (k + 1))) (rsm e)).
  { unfold e1, view. destruct (Z.leb_spec h k); cbn [Z.ltb Z.compare]; rproj; [by rewrite next_sn_seq, Z.max_r by lia|by rewrite Z.max_l by lia]. }
  clearbody e1. destruct E1 as (Eb1 & Er1 & Em1 & Eh1 & Es1).
  set (e2 := e1 <| receiver_buffer ::= _ |>).
  assert (E2 : view e2 (buffered <$> ins k ks) (vr_r e) (vr_mr e) (seq (Z.max h (k + 1))) (rsm e)).
  { unfold e2, view. rproj. rewrite Eb1, Eb, insert_buffer by lia. done. }
  clearbody e2. rewrite (proj1 E2), insert_lookup. change (all_segments_received (buffered k)) with 1.
  cbn [negb Z.eqb]. set (e3 := if (_ =? vr_ms e2) && true then _ else e2).
  assert (E3 : view e3 (buffered <$> ins k ks) (vr_r e) (vr_mr e) (seq (Z.max h (k + 1))) (rsm e)).
  { unfold e3, rlc_am_rx_update_vr_ms. by case_match. }
  clearbody e3. pose proof E3 as (Eb3 & Er3 & Em3 & Eh3 & Es3). rewrite Er3, Er.
  assert (Hd3 : delivered r e3) by (by eapply delivered_view).
  destruct (Z.eqb_spec k r) as [->|Hne].
  - rewrite Z.eqb_refl. unfold rlc_am_rx_list_reassemble_rlc_sdus, rlc_am_rx_update_vr_r. rproj.
    assert (Ek : ins r ks = r :: ks) by (destruct ks as [|j ks]; [done|]; rewrite ins_cons; destruct Hi; by destruct (Z.ltb_spec j r); [lia|]).
    assert (Rk : rank r ks = 0%nat) by (destruct ks as [|j ks]; [done|]; destruct Hi; cbn; by destruct (Z.ltb_spec j r); [lia|]).
    rewrite Eb3, Ek, Rk, drop_0, Er3, Er, (advance_spec r (r + 512)) by (first [lia|split; [lia|done]]). cbn [run_from]. rewrite Z.eqb_refl.
    set (e4 := _ <| vr_mr := _ |>).
    destruct (loop_spec c r (r + 512) ks e4) as (e' & E' & Ec' & Hd'); [done..|lia|by eapply delivered_view|]. rewrite E'. cbn [mbind res_bind].
    unfold ctl in Ec'. injection Ec' as X1 X2 X3 X4 X5 X6 X7 X8. destruct (run_from (r + 1) ks) as [r' ks']. cbn [fst snd] in *.
    eexists. split; [reflexivity|].
    destruct (reordering_view c (e' <| receiver_buffer := buffered <$> ks' |>) (P r) _ _ _ _ _ ltac:(unfold view; rproj; by split_and!)) as (V1 & V2 & V3 & V4 & V5).
    rewrite V1, V2, V3, V4. unfold e4 in *. rproj. rewrite Eh3. split; [done|]. split; [done|]. split; [|split; [done|]].
    + rewrite land_mask. unfold seq. by rewrite Zplus_mod_idemp_l.
    + by eapply delivered_view.
  - destruct (Z.eqb_spec (seq k) (seq r)) as [F|_]; [apply seq_inj in F; [done|unfold RLC_AM_SN_MODULO; lia]|]. cbn [mbind res_bind].
    eexists. split; [reflexivity|]. destruct (reordering_view c e3 (P k) _ _ _ _ _ E3) as (V1 & V2 & V3 & V4 & V5).
    rewrite V1, V2, V3, V4, Er, Em. do 4 (split; [done|]). eapply delivered_view; [|exact Hd]. done.
Qed.

(** ** Every arrival *)

(** [r] is the index of the first PDU that is not in [a]. *)
Definition first_missing (a : list Z) (r : Z) : Prop := 0 <= r /\ r ∉ a /\ forall j, 0 <= j < r -> j ∈ a.

Lemma first_missing_unique a r r' : first_missing a r -> first_missing a r' -> r = r'.
Proof.
  intros (H1 & H2 & H3) (H1' & H2' & H3'). destruct (Z.lt_trichotomy r r') as [H|[H|H]]; [|done|].
  - destruct H2. apply H3'. lia.
  - destruct H2'. apply H3. lia.
Qed.

(** [h] is one more than the highest index of [a]. *)
Definition highest (a : list Z) (h : Z) : Prop := (forall j, j ∈ a -> 0 <= j < h) /\ (h = 0 \/ h - 1 ∈ a).

(** The state after the arrivals [a]. *)
Definition rx_inv (a : list Z) (e : rlc_am_entity_t) : Prop := exists r h ks,
  first_missing a r /\ highest a h /\ h <= r + 512 /\ vr_r e = seq r /\ vr_mr e = seq (r + 512) /\ vr_h e = seq h /\
  increasing (r + 1) (r + 512) ks /\ (forall j, j ∈ ks <-> j ∈ a /\ r < j) /\ receiver_buffer e = buffered <$> ks /\ delivered r e.

Lemma highest_ge a r h : first_missing a r -> highest a h -> r <= h.
Proof.
  intros (H1 & H2 & H3) (H4 & H5). destruct (Z.le_gt_cases r h) as [|H]; [done|].
  assert (Hin : h ∈ a) by (apply H3; destruct H5 as [->|H5]; [lia|apply H4 in H5; lia]). apply H4 in Hin. lia.
Qed.

Lemma highest_snoc a h k : highest a h -> 0 <= k -> highest (a ++ [k]) (Z.max h (k + 1)).
Proof.
  intros [H1 H2] Hk. split.
  - intros j [Hj|Hj]%elem_of_app; [|apply list_elem_of_singleton in Hj]; [apply H1 in Hj; lia|subst; lia].
  - destruct (Z.max_spec h (k + 1)) as [(_ & ->)|(Hle & ->)]; [right; apply elem_of_app; right; apply list_elem_of_singleton; lia|].
    destruct H2 as [->|H2]; [lia|]. right. apply elem_of_app. by left.
Qed.

Lemma highest_old a h k : highest a h -> k ∈ a -> highest (a ++ [k]) h.
Proof.
  intros [H1 H2] Hk. split.
  - intros j [Hj|Hj]%elem_of_app; [by apply H1|]. apply list_elem_of_singleton in Hj. subst. by apply H1.
  - destruct H2 as [->|H2]; [by left|right]. apply elem_of_app. by left.
Qed.

Lemma first_missing_old a r k : first_missing a r -> k ∈ a -> first_missing (a ++ [k]) r.
Proof.
  intros (H1 & H2 & H3) Hk. split; [done|]. split.
  - intros [Hj|Hj]%elem_of_app; [done|]. apply list_elem_of_singleton in Hj. by subst.
  - intros j Hj. apply elem_of_app. left. by apply H3.
Qed.

(** A PDU that has already arrived leaves the state as it is. *)
Lemma old_step a e r h ks k : first_missing a r -> highest a h -> k ∈ a -> h <= r + 512 ->
  increasing (r + 1) (r + 512) ks -> (forall j, j ∈ ks <-> j ∈ a /\ r < j) ->
  forall e', vr_r e' = seq r -> vr_mr e' = seq (r + 512) -> vr_h e' = seq h -> receiver_buffer e' = buffered <$> ks -> rsm e' = rsm e -> delivered r e ->
  rx_inv (a ++ [k]) e'.
Proof.
  intros Hf Hh Hk Hle Hi Hks e' Er Em Eh Eb Es Hd. exists r, h, ks. split; [by apply first_missing_old|]. split; [by apply highest_old|].
  do 5 (split; [done|]). split; [|split; [done|by eapply delivered_view]]. intros j. rewrite Hks, elem_of_app, list_elem_of_singleton.
  split; [tauto|]. intros [[?|E] ?]; [by split|]. subst. by split.
Qed.

(** The polling bit of a copy has no influence on its place. *)
Definition with_poll (x : Z) (q : rx_pdu) : rx_pdu := q <| rx_p := x |>.

Lemma with_poll_same q : with_poll (rx_p q) q = q.
Proof using Type. by destruct q. Qed.

Lemma insert_position_poll e x q : insert_position e (with_poll x q) = insert_position e q.
Proof using Type.
  unfold insert_position. generalize (@None rx_pdu) as prev. generalize 0%nat as pos. intros pos prev.
  assert (W1 : forall l prev pos, walk_up (vr_r e) (with_poll x q) prev pos l = walk_up (vr_r e) q prev pos l).
  { induction l as [|t l IH]; intros; [done|]. cbn [walk_up]. rewrite IH. done. }
  assert (W2 : forall n l prev, walk_down (vr_r e) n (with_poll x q) prev l = walk_down (vr_r e) n q prev l).
  { induction l as [|t l IH]; intros; [done|]. cbn [walk_down]. rewrite IH. done. }
  assert (W3 : forall l prev pos, walk_simple (with_poll x q) prev pos l = walk_simple q prev pos l).
  { induction l as [|t l IH]; intros; [done|]. cbn [walk_simple]. rewrite IH. done. }
  destruct (receiver_buffer e); [done|]. by rewrite W1, W2, W3.
Qed.

(** A PDU arrives: for the first time, or a copy of it with another polling
    bit. *)
Theorem rx_step c a e k bytes size x : rx_inv a e -> RlcUm.mem_block_ok c = true -> 0 <= k -> (forall r, first_missing a r -> r - 512 <= k < r + 512) ->
  misplaced e (seq k) = false -> rlc_am_get_data_pdu_infos bytes (u16 size) = Ok (0, Some (with_poll x (P k))) -> (k ∉ a -> x = rx_p (P k)) ->
  exists e', rlc_am_receive_process_data_pdu c e bytes size = Ok e' /\ rx_inv (a ++ [k]) e'.
Proof.
  intros (r & h & ks & Hf & Hh & Hle & Er & Em & Eh & Hi & Hks & Eb & Hd) Hc Hk Hw Hm Hdec Hpoll. specialize (Hw r Hf). pose proof (highest_ge _ _ _ Hf Hh) as Hrh.
  pose proof Hf as (Hr & Hra & Hrall). unfold rlc_am_receive_process_data_pdu. rewrite Hdec. cbn [mbind res_bind].
  change (sn (with_poll x (P k))) with (sn (P k)). rewrite (proj1 (HP k Hk)). rewrite (window_test e r k) by done. destruct (Z.leb_spec r k) as [Hrk|Hrk]; cbn [negb Z.eqb].
  2:{ eexists. split; [reflexivity|]. eapply (old_step a e r h ks k); rproj; try done. apply Hrall. lia. }
  set (e1 := if _ : bool then _ else e).
  assert (E1 : view e1 (buffered <$> ks) (seq r) (seq (r + 512)) (seq h) (rsm e)) by (unfold e1; by case_match).
  clearbody e1. destruct E1 as (Eb1 & Er1 & Em1 & Eh1 & Es1). unfold rlc_am_rx_list_insert_pdu.
  rewrite insert_position_poll, (insert_position_spec e1 r k ks); [|done|done|done|lia|done|apply (increasing_weaken _ _ _ _ _ Hi); lia|].
  2:{ unfold misplaced in *. by rewrite Eb1, Er1, Em1, <- Eb, <- Er, <- Em. }
  destruct (decide (k ∈ ks)) as [Hin|Hin].
  - cbn [Z.ltb Z.compare]. eexists. split; [reflexivity|]. eapply (old_step a e1 r h ks k); rproj; try done; [by apply Hks|by eapply delivered_view].
  - assert (Hka : k ∉ a) by (intros Hka; destruct (decide (k = r)) as [->|]; [done|]; apply Hin, Hks; split; [done|lia]).
    rewrite (Hpoll Hka), with_poll_same. cbn [Z.ltb Z.compare].
    destruct (placed_spec c (e1 <| receiver_buffer ::= insert_at (rank k ks) (P k) |>) r h k ks) as (e' & E' & Eh' & Hres);
      try (rproj; done || lia); [rproj; by rewrite Eb1|by eapply delivered_view|]. exists e'. split; [done|].
    assert (Hsn : forall j, j ∈ a ++ [k] <-> j ∈ a \/ j = k) by (intros j; rewrite elem_of_app, list_elem_of_singleton; tauto).
    destruct (Z.eqb_spec k r) as [->|Hne].
    + pose proof (run_from_spec (r + 1) (r + 512) ks Hi ltac:(lia)) as Hrun. destruct (run_from (r + 1) ks) as [r' ks'].
      destruct Hrun as (R1 & R2 & R3), Hres as (Q1 & Q2 & Q3 & Q4). exists r', (Z.max h (r + 1)), ks'.
      assert (Hr' : r' ∉ ks') by (intros Hx; apply (increasing_elem _ _ _ _ R2) in Hx; lia).
      split; [split; [lia|split]|].
      * rewrite Hsn. intros [Hx|Hx]; [|lia]. assert (r' ∈ ks) as Hy by (apply Hks; split; [done|lia]). apply R3 in Hy as [Hy|Hy]; [lia|done].
      * intros j Hj. rewrite Hsn. destruct (Z.lt_trichotomy j r) as [Hx|[->|Hx]]; [left; apply Hrall; lia|by right|].
        left. apply (Hks j), R3. left. lia.
      * split; [by apply highest_snoc|]. split; [lia|]. do 3 (split; [done|]). split; [eapply increasing_weaken; [exact R2|lia..]|].
        split; [|done]. intros j. rewrite Hsn. split.
        -- intros Hj. pose proof (increasing_elem _ _ _ _ R2 Hj). split; [|lia]. left. apply (Hks j), R3. by right.
        -- intros [[Hx|Hx] Hj]; [|lia]. assert (j ∈ ks) as Hy by (apply Hks; split; [done|lia]). apply R3 in Hy as [Hy|Hy]; [lia|done].
    + destruct Hres as (Q1 & Q2 & Q3 & Q4). exists r, (Z.max h (k + 1)), (ins k ks). split; [split; [done|split]|].
      * rewrite Hsn. intros [Hx|Hx]; [done|lia].
      * intros j Hj. rewrite Hsn. left. by apply Hrall.
      * split; [by apply highest_snoc|]. split; [lia|]. do 3 (split; [done|]). split; [apply ins_increasing; [done|lia|done]|].
        split; [|done]. intros j. rewrite ins_elem, Hks, Hsn. split; [intros [->|[? ?]]; [split; [by right|lia]|by split; [left|]]|].
        intros [[?|E] ?]; [by right|by left].
Qed.

End Stream.

End RlcAmRxProofs.
