(* ===== verification/RlcAmRxClaims.v ===== *)
(** * RLC AM reception: the properties *)

From Stdlib Require Import Sorting.Sorted.
From S2P Require Import Prelude Bits RlcUmEntity RlcAmStatus RlcAmCodec RlcAmEntity RlcAmReport RlcAmReportProofs RlcAmExchange RlcAmClaims RlcAmRx RlcAmRxProofs.
Import RlcAmStatus RlcAmCodec RlcAmEntity RlcAmReport RlcAmReportProofs RlcAmExchange RlcAmClaims RlcAmRx RlcAmRxProofs.

Module RlcAmRxClaims.

(** A stream of PDUs that are not segments: the bytes [B k] of PDU [k], of size
    [Sz k], are decoded into [P k]. *)
Definition whole_pdus (P : Z -> rx_pdu) (B : Z -> list Z) (Sz : Z -> Z) : Prop := forall k, 0 <= k ->
  rlc_am_get_data_pdu_infos (B k) (u16 (Sz k)) = Ok (0, Some (P k)) /\ sn (P k) = seq k /\ rx_rf (P k) = 0 /\
  so (P k) = 0 /\ lsf (P k) = 0 /\ 0 < payload_size (P k) < 0x7FFF.

(** Nothing was received yet. *)
Definition fresh (e : rlc_am_entity_t) : Prop :=
  vr_r e = 0 /\ vr_mr e = RLC_AM_WINDOW_SIZE /\ vr_h e = 0 /\ receiver_buffer e = [].

(** PDUs of the stream arrive: in any order, some never, some again and again,
    but within 512 of the first one that is missing, which is what the
    transmitter's window allows. *)
Inductive arrivals (c : protocol_ctxt_t) (B : Z -> list Z) (Sz : Z -> Z) (e0 : rlc_am_entity_t) : list Z -> rlc_am_entity_t -> Prop :=
| no_arrival : arrivals c B Sz e0 [] e0
| one_more a e k e' : arrivals c B Sz e0 a e -> 0 <= k -> (forall r, first_missing a r -> r - 512 <= k < r + 512) ->
    misplaced e (seq k) = false -> rlc_am_receive_process_data_pdu c e (B k) (Sz k) = Ok e' ->
    arrivals c B Sz e0 (a ++ [k]) e'.

Section Receiver.
Context (P : Z -> rx_pdu) (B : Z -> list Z) (Sz : Z -> Z) (HP : whole_pdus P B Sz).
Context (c : protocol_ctxt_t) (Hc : RlcUm.mem_block_ok c = true) (e0 : rlc_am_entity_t) (H0 : fresh e0).
Context (Hord : forall n, exists f, in_order P c e0 n = Ok f).

Lemma stream_facts : forall k, 0 <= k -> sn (P k) = seq k /\ rx_rf (P k) = 0.
Proof using HP. intros k Hk. destruct (HP k Hk) as (_ & ? & ? & _). done. Qed.

Lemma stream_decoded : forall k, 0 <= k -> rlc_am_get_data_pdu_infos (B k) (u16 (Sz k)) = Ok (0, Some (with_poll (rx_p (P k)) (P k))).
Proof using HP. intros k Hk. rewrite with_poll_same. by destruct (HP k Hk). Qed.

Lemma arrivals_inv a e : arrivals c B Sz e0 a e -> rx_inv P c e0 a e.
Proof using HP Hc H0 Hord.
  induction 1 as [|a e k e' _ IH Hk Hw Hm E].
  - destruct H0 as (E1 & E2 & E3 & E4). exists 0, 0, []. split; [|split; [|split]].
    + split; [done|]. split; [apply not_elem_of_nil|lia].
    + split; [|by left]. intros j Hj. by apply not_elem_of_nil in Hj.
    + lia.
    + do 4 (split; [done|]). split; [|split; [done|]]; [|by exists e0]. intros j. split; [intros Hj; by apply not_elem_of_nil in Hj|intros [Hj _]; by apply not_elem_of_nil in Hj].
  - destruct (rx_step P stream_facts c Hc e0 Hord c a e k (B k) (Sz k) _ IH Hc Hk Hw Hm (stream_decoded k Hk)) as (e'' & E'' & I); [done|congruence].
Qed.

(** The buffer is in window order, which the status report relies on. *)
Lemma buffer_sorted r lo hi ks : 0 <= r <= lo -> increasing lo hi ks -> hi <= r + 512 -> StronglySorted (follows (seq r)) (buffered P <$> ks).
Proof using HP.
  intros Hr Hi Hh. revert lo Hr Hi. induction ks as [|j ks IH]; intros lo Hr Hi; [apply SSorted_nil|].
  destruct Hi as [Hj Hi]. rewrite fmap_cons. apply SSorted_cons; [by apply (IH (j + 1)); [lia|]|].
  apply Forall_fmap, Forall_forall. intros i Hin. apply (increasing_elem _ _ _ _ Hi) in Hin. left.
  rewrite !(buffered_sn P stream_facts) by lia. unfold offset, seq, RLC_AM_SN_MODULO. div_lia.
Qed.

Lemma buffer_ordered r ks : 0 <= r -> increasing (r + 1) (r + 512) ks -> rx_ordered (seq r) (buffered P <$> ks).
Proof using HP.
  intros Hr Hi. split; [|by apply (buffer_sorted r (r + 1) (r + 512)); [lia|done|lia]].
  apply Forall_fmap, Forall_forall. intros j Hj. apply (increasing_elem _ _ _ _ Hi) in Hj. destruct (HP j ltac:(lia)) as (_ & E1 & E2 & E3 & E4 & E5).
  unfold compose, valid_rx, buffered, set_received. rproj. rewrite E1, E3, E4. pose proof (seq_range j).
  assert (offset (seq r) (seq j) < RLC_AM_WINDOW_SIZE) by (unfold offset, seq, RLC_AM_WINDOW_SIZE, RLC_AM_SN_MODULO; div_lia). split_and!; lia.
Qed.

(** What is in the buffer is what arrived beyond the first missing PDU. *)
Lemma received_arrived a r ks k b : first_missing a r -> increasing (r + 1) (r + 512) ks -> (forall j, j ∈ ks <-> j ∈ a /\ r < j) ->
  r <= k < r + 512 -> received (buffered P <$> ks) (seq k) b <-> k ∈ a.
Proof using HP.
  intros (Hr & Hra & _) Hi Hks Hk. split.
  - intros (q & Hq & Es & _). apply list_elem_of_fmap in Hq as (j & -> & Hj). pose proof (increasing_elem _ _ _ _ Hi Hj).
    rewrite (buffered_sn P stream_facts) in Es by lia. apply seq_inj in Es; [|unfold RLC_AM_SN_MODULO; lia]. subst. by apply Hks.
  - intros Hka. assert (k <> r) by (intros ->; done). exists (buffered P k). split; [apply list_elem_of_fmap_2, Hks; split; [done|lia]|].
    split; [apply (buffered_sn P stream_facts); lia|]. left. unfold buffered, set_received. by rproj.
Qed.

End Receiver.

(** C10. Acknowledged mode delivers whole PDUs in order, once each. The PDUs
    of a stream of unsegmented PDUs arrive at a fresh receiver in any order,
    with losses and repetitions, under these conditions: a PDU arrives only
    within 512 of the first missing one, its insertion is not one that the
    walk of a wrapped window misplaces ([misplaced]; rlc_am_rx_list.c:340,
    where [am_wrap_duplicates] shows wrong delivery), memory is available, and
    reassembling the stream in order meets no fault. Then at every moment the
    SDUs handed to PDCP are exactly those that reassembling the PDUs of the
    stream in order, up to the first one that has not arrived, hands up:
    nothing is reordered, duplicated, or held back; VR(R) is that PDU, the
    reception buffer is in window order, and the next PDU that arrives under
    the same conditions is processed without a fault. *)
Theorem am_in_order_delivery P B Sz c e0 a e : whole_pdus P B Sz -> RlcUm.mem_block_ok c = true -> fresh e0 ->
  (forall n, exists f, in_order P c e0 n = Ok f) -> arrivals c B Sz e0 a e ->
  exists r f, first_missing a r /\ in_order P c e0 (Z.to_nat r) = Ok f /\ upper_sdus e = upper_sdus f /\ vr_r e = seq r /\ rx_ready e /\
    (forall k, 0 <= k -> r - 512 <= k < r + 512 -> misplaced e (seq k) = false ->
       exists e', rlc_am_receive_process_data_pdu c e (B k) (Sz k) = Ok e').
Proof.
  intros HP Hc H0 Hord Ha. pose proof (arrivals_inv P B Sz HP c Hc e0 H0 Hord a e Ha) as I. pose proof I as (r & h & ks & Hf & _ & _ & Er & Em & _ & Hi & _ & Eb & f & Ef & Es).
  exists r, f. split; [done|]. split; [done|]. split; [unfold rsm in Es; by injection Es|]. split; [done|]. split.
  - split; [rewrite Er; apply seq_range|]. split; [rewrite Em, Er; unfold seq; by rewrite Zplus_mod_idemp_l|]. rewrite Er, Eb. apply (buffer_ordered P B Sz HP); [apply Hf|done].
  - intros k Hk Hw Hm. destruct (rx_step P (stream_facts P B Sz HP) c Hc e0 Hord c a e k (B k) (Sz k) (rx_p (P k)) I Hc Hk) as (e' & E' & _);
      [|done|by apply (stream_decoded P B Sz HP)|done|by exists e']. intros r' Hf'. by rewrite (first_missing_unique a r' r).
Qed.

(** C16. The status report names exactly the PDUs that did not arrive. After
    arrivals under the conditions of C10 (whole PDUs, each within 512 of the
    first missing one and not misplaced by the walk of a wrapped window), with
    a grant of 2 to 1536 bytes and a block of the pool, the STATUS PDU the
    receiver builds fits the grant and is decoded by the peer, and from VR(R)
    up to its ACK_SN every byte of a PDU is asked for if and only if the PDU
    has not arrived. *)
Theorem am_report_names_missing P B Sz c e0 a e : whole_pdus P B Sz -> RlcUm.mem_block_ok c = true -> fresh e0 ->
  (forall n, exists f, in_order P c e0 n = Ok f) -> arrivals c B Sz e0 a e -> 2 <= nb_bytes_requested_by_mac e <= 1536 ->
  exists r e' tb info, first_missing a r /\ rlc_am_send_status_pdu c e = Ok e' /\ control_pdu_list e' = tb :: control_pdu_list e /\
    0 < tb_size tb <= nb_bytes_requested_by_mac e /\ rlc_am_get_control_pdu_infos (tb_bytes tb) (tb_size tb) = Ok (0, 0, info) /\
    forall k b, r <= k < r + span (seq r) (ack_sn info) -> 0 <= b < 0x7FFF -> (k ∉ a <-> asked (nack_list info) (seq k) b).
Proof.
  intros HP Hc H0 Hord Ha HN. pose proof (arrivals_inv P B Sz HP c Hc e0 H0 Hord a e Ha) as (r & h & ks & Hf & _ & _ & Er & Em & _ & Hi & Hks & Eb & _).
  assert (Hr : rx_ready e).
  { split; [rewrite Er; apply seq_range|]. split; [rewrite Em, Er; unfold seq; by rewrite Zplus_mod_idemp_l|]. rewrite Er, Eb. apply (buffer_ordered P B Sz HP); [apply Hf|done]. }
  destruct (send_ok c e Hc Hr HN) as (e' & tb & ack & rep & _ & Es & El & Ht & _ & _ & F & Eg). exists r, e', tb. eexists. do 4 (split; [done|]). split; [exact Eg|].
  cbn [ack_sn nack_list]. destruct F as [G (d & Hd & -> & S)]. rewrite Er, Eb in *. rewrite span_ack by (done || apply seq_range). intros k b Hk Hb.
  assert (Hkw : r <= k < r + 512) by (unfold RLC_AM_WINDOW_SIZE in Hd; lia). rewrite <- (received_arrived P B Sz HP a r ks k b Hf Hi Hks Hkw).
  assert (Ek : (seq r + (k - r)) mod RLC_AM_SN_MODULO = seq k) by (unfold seq; rewrite Zplus_mod_idemp_l; f_equal; lia). split.
  - intros Hn. destruct (S (k - r) b ltac:(lia) Hb) as [H|H]; rewrite Ek in H; [done|]. eapply asked_core; [|exact H]. symmetry. apply decoded_core.
  - intros (n & Hn & En & Hso). rewrite <- En. eapply honest_decoded; [exact G|exact Hn|exact Hso|lia].
Qed.

(** ** A stream of one-byte SDUs *)

Definition demo_bytes (k : Z) : list Z := [0x80 + seq k / 256; k mod 256; k mod 251].
Definition demo_pdu (k : Z) : rx_pdu := mk_rx 0 0 0 0 (seq k) 0 0 [] 1 [k mod 251] 1 2 0.
Definition demo_ctxt : protocol_ctxt_t := RlcUm.mk_ctxt 0 0 true true true.
Definition demo_e0 : rlc_am_entity_t := Eval cbv in blank <| vr_mr := 512 |> <| nb_bytes_requested_by_mac := 100 |>.

Lemma demo_stream : whole_pdus demo_pdu demo_bytes (fun _ => 3).
Proof.
  intros k Hk. split; [|by unfold demo_pdu].
  assert (Hq : seq k / 256 = 0 \/ seq k / 256 = 1 \/ seq k / 256 = 2 \/ seq k / 256 = 3) by (pose proof (seq_range k); unfold RLC_AM_SN_MODULO in *; div_lia).
  assert (Es : seq k = k mod 256 + 256 * (seq k / 256)) by (unfold seq, RLC_AM_SN_MODULO; div_lia).
  unfold rlc_am_get_data_pdu_infos, demo_bytes, demo_pdu. rewrite Es at 2. by destruct Hq as [E|[E|[E|E]]]; rewrite E.
Qed.

(** A stream of complete SDUs is reassembled. *)
Lemma demo_in_order n : exists f, in_order demo_pdu demo_ctxt demo_e0 n = Ok f /\ output_sdu_in_construction f = None /\
  upper_sdus f = (fun i => [Z.of_nat i mod 251]) <$> List.seq 0 n.
Proof.
  induction n as [|n (f & Ef & Eo & Eu)]; [by exists demo_e0|]. cbn [in_order]. rewrite Ef. cbn [mbind res_bind].
  unfold rlc_am_reassemble_pdu. change (rx_fi (demo_pdu (Z.of_nat n))) with 0. change (Z.land 0 2 =? 0) with true. change (Z.land 0 1 =? 0) with true.
  assert (E1 : rlc_am_send_sdu f = Ok f) by (unfold rlc_am_send_sdu; by rewrite Eo). cbv zeta iota. rewrite E1. cbn [mbind res_bind demo_pdu rx_e Z.eqb].
  unfold rlc_am_reassembly. rewrite Eo. change (RlcUm.mem_block_ok demo_ctxt) with true. cbn [assert_fatal mbind res_bind payload payload_size length Z.add Z.leb Z.compare Z.ltb orb].
  cbv [RLC_SDU_MAX_SIZE Z.leb Z.compare Pos.compare Pos.compare_cont Z.of_nat Pos.of_succ_nat Z.ltb].
  unfold rlc_am_send_sdu. rproj. cbn [Z.ltb Z.compare]. eexists. split; [reflexivity|]. rproj.
  split; [done|]. rewrite Eu, seq_S, fmap_app. done.
Qed.

Lemma demo_ord : forall n, exists f, in_order demo_pdu demo_ctxt demo_e0 n = Ok f.
Proof. intros n. destruct (demo_in_order n) as (f & Ef & _). by exists f. Qed.

(** PDUs 1 and 2 arrive before PDU 0, PDU 1 arrives twice, PDU 4 without 3. *)
Definition demo_arrivals : list Z := [1; 2; 1; 0; 4].

Lemma window_small a k : (forall r, first_missing a r -> r <= 100) -> 0 <= k <= 100 -> forall r, first_missing a r -> r - 512 <= k < r + 512.
Proof. intros H Hk r Hr. specialize (H r Hr). destruct Hr. lia. Qed.

Lemma missing_small a : 5 ∉ a -> forall r, first_missing a r -> r <= 100.
Proof. intros Hn r (_ & _ & H). destruct (Z.le_gt_cases r 100); [done|]. destruct Hn. apply H. lia. Qed.

Ltac arrive k :=
  match goal with
  | A : arrivals ?c ?B ?Sz ?e0 ?a ?e |- _ =>
      let E := eval vm_compute in (rlc_am_receive_process_data_pdu c e (B k) (Sz k)) in
      match E with
      | Ok ?e' =>
          let A' := fresh in
          assert (A' : arrivals c B Sz e0 (a ++ [k]) e')
            by (apply (one_more c B Sz e0 a e k e' A); [lia|apply window_small; [apply missing_small; set_solver|lia]|by vm_compute|by vm_compute]);
          clear A; rename A' into A
      end
  end.

Lemma demo_arrived : exists e, arrivals demo_ctxt demo_bytes (fun _ => 3) demo_e0 demo_arrivals e /\ nb_bytes_requested_by_mac e = 100 /\
  upper_sdus e = [[0]; [1]; [2]].
Proof.
  pose proof (no_arrival demo_ctxt demo_bytes (fun _ => 3) demo_e0) as A. arrive 1. arrive 2. arrive 1. arrive 0. arrive 4.
  eexists. split; [exact A|]. by split.
Qed.

Lemma am_in_order_delivery_witness : exists e r f, arrivals demo_ctxt demo_bytes (fun _ => 3) demo_e0 demo_arrivals e /\
  first_missing demo_arrivals r /\ in_order demo_pdu demo_ctxt demo_e0 (Z.to_nat r) = Ok f /\ upper_sdus e = upper_sdus f /\ vr_r e = seq r /\ rx_ready e /\
  (forall k, 0 <= k -> r - 512 <= k < r + 512 -> misplaced e (seq k) = false ->
     exists e', rlc_am_receive_process_data_pdu demo_ctxt e (demo_bytes k) 3 = Ok e').
Proof.
  destruct demo_arrived as (e & A & _). exists e.
  destruct (am_in_order_delivery demo_pdu demo_bytes (fun _ => 3) demo_ctxt demo_e0 demo_arrivals e demo_stream eq_refl ltac:(by split) demo_ord A) as (r & f & H).
  by exists r, f.
Defined.

Lemma am_report_names_missing_witness : exists e r e' tb info, first_missing demo_arrivals r /\ rlc_am_send_status_pdu demo_ctxt e = Ok e' /\
  control_pdu_list e' = tb :: control_pdu_list e /\ 0 < tb_size tb <= nb_bytes_requested_by_mac e /\
  rlc_am_get_control_pdu_infos (tb_bytes tb) (tb_size tb) = Ok (0, 0, info) /\
  forall k b, r <= k < r + span (seq r) (ack_sn info) -> 0 <= b < 0x7FFF -> (k ∉ demo_arrivals <-> asked (nack_list info) (seq k) b).
Proof.
  destruct demo_arrived as (e & A & N & _). exists e.
  apply (am_report_names_missing demo_pdu demo_bytes (fun _ => 3) demo_ctxt demo_e0 demo_arrivals e demo_stream eq_refl ltac:(by split) demo_ord A).
  rewrite N. lia.
Defined.

(** ** What goes wrong *)

Fixpoint receive_all (c : protocol_ctxt_t) (e : rlc_am_entity_t) (l : list (list Z)) : res rlc_am_entity_t :=
  match l with
  | [] => Ok e
  | bytes :: rest => e ← rlc_am_receive_process_data_pdu c e bytes (Z.of_nat (length bytes)); receive_all c e rest
  end.

Definition sdu_of (k : Z) : list Z := [k mod 251].

(** Around the wrap of the sequence numbers the order is lost. A freshly
    initialised receiver gets PDUs 0 to 1021 in order, then 1025, 1024, 1023
    and 1022, then 1024 once more, as its status report asks (PDU 1024 is in
    the buffer, behind 1025), then 1026 and 1027. It hands SDU 1024 to PDCP
    twice, the second time after SDU 1025. *)
Lemma am_wrap_duplicates :
  let arrived := (Z.of_nat <$> List.seq 0 1022) ++ [1025; 1024; 1023; 1022; 1024; 1026; 1027] in
  upper_sdus <$> receive_all demo_ctxt (rlc_am_configure (rlc_am_init blank) 4 4 100 40 35 20) (demo_bytes <$> arrived) =
  Ok (sdu_of <$> (Z.of_nat <$> List.seq 0 1022) ++ [1022; 1023; 1024; 1025; 1024; 1026; 1027]).
Proof. vm_compute. reflexivity. Qed.

Lemma byte_header s : 0 <= s < RLC_AM_SN_MODULO ->
  rlc_am_get_data_pdu_infos [0x80 + s / 256; s mod 256] 2 = Ok (0, Some (mk_rx 0 0 0 0 s 0 0 [] 0 [] 0 2 0)).
Proof.
  intros Hs. assert (Hq : s / 256 = 0 \/ s / 256 = 1 \/ s / 256 = 2 \/ s / 256 = 3) by (unfold RLC_AM_SN_MODULO in *; div_lia).
  assert (Es : s = s mod 256 + 256 * (s / 256)) by div_lia. unfold rlc_am_get_data_pdu_infos. cbn [byte_at of_option lookup list_lookup mbind res_bind].
  rewrite Es at 5. by destruct Hq as [E|[E|[E|E]]]; rewrite E.
Qed.

(** A data PDU without data stops the receiver. A block of two bytes, the
    header of a PDU with the number VR(R) that claims to hold one whole SDU,
    makes the receiver hand up an SDU of no bytes, and rlc_am_send_sdu aborts:
    the peer can stop the process with one PDU. *)
Lemma am_empty_pdu_aborts c e : 0 <= vr_r e < RLC_AM_SN_MODULO -> vr_mr e = (vr_r e + RLC_AM_WINDOW_SIZE) mod RLC_AM_SN_MODULO ->
  receiver_buffer e = [] -> output_sdu_in_construction e = None -> RlcUm.mem_block_ok c = true ->
  rlc_am_receive_process_data_pdu c e [0x80 + vr_r e / 256; vr_r e mod 256] 2 = Fault AssertFatal.
Proof.
  intros Hr Em Eb Eo Hc. unfold rlc_am_receive_process_data_pdu. change (u16 2) with 2. rewrite (byte_header _ Hr). cbn [mbind res_bind sn].
  assert (Es : vr_r e = seq (vr_r e)) by (unfold seq; by rewrite Z.mod_small).
  rewrite Es at 1. rewrite (window_test e (vr_r e)), Z.leb_refl by first [done|unfold seq; rewrite Em; done|lia]. cbn [Z.eqb negb rx_p].
  unfold rlc_am_rx_list_insert_pdu, insert_position. rewrite Eb. cbn [Z.ltb Z.compare]. unfold update_placed.
  set (e1 := if 0 <? _ then _ else _). assert (E1 : vr_r e1 = vr_r e /\ receiver_buffer e1 = [mk_rx 0 0 0 0 (vr_r e) 0 0 [] 0 [] 0 2 0] /\ output_sdu_in_construction e1 = None).
  { unfold e1. case_match; rproj; by rewrite Eb. }
  clearbody e1. destruct E1 as (E1 & E2 & E3). rproj. rewrite E2. cbn [rlc_am_rx_check_all_byte_segments lookup list_lookup rx_rf Z.eqb insert list_insert set_received].
  set (q := set_received _). change (all_segments_received q) with 1. cbn [Z.eqb negb]. set (e2 := if (_ =? vr_ms e1) && true then _ else _).
  assert (F1 : vr_r e2 = vr_r e /\ receiver_buffer e2 = [q] /\ output_sdu_in_construction e2 = None).
  { unfold e2, rlc_am_rx_update_vr_ms. case_match; rproj; by rewrite E2. }
  clearbody e2. destruct F1 as (F1 & F2 & F3). cbn [sn]. rewrite F1, Z.eqb_refl. unfold rlc_am_rx_list_reassemble_rlc_sdus, rlc_am_rx_update_vr_r. rproj. rewrite F2.
  cbn [drop reassemble_loop]. change (all_segments_received q) with 1. cbn [Z.ltb Z.compare]. unfold rlc_am_reassemble_pdu. change (rx_fi q) with 0.
  change (Z.land 0 2 =? 0) with true. cbv zeta iota. set (e3 := e2 <| vr_r := _ |> <| vr_mr := _ |>).
  assert (G3 : rlc_am_send_sdu e3 = Ok e3) by (unfold rlc_am_send_sdu, e3; rproj; by rewrite F3). rewrite G3. cbn [mbind res_bind]. change (rx_e q) with 0. cbn [Z.eqb].
  unfold rlc_am_reassembly, e3. rproj. rewrite F3, Hc. reflexivity.
Qed.

Lemma am_empty_pdu_aborts_witness : rlc_am_receive_process_data_pdu demo_ctxt demo_e0 [0x80; 0] 2 = Fault AssertFatal.
Proof. by apply (am_empty_pdu_aborts demo_ctxt demo_e0). Defined.

End RlcAmRxClaims.
