(* ===== verification/RlcAmTx.v ===== *)
(** * RLC AM: acknowledgement and retransmission requests

    openair2/LAYER2/RLC/AM_v9.3.0: rlc_am_in_sdu.c, rlc_am_segments_holes.c,
    [rlc_am_nack_pdu] and [rlc_am_ack_pdu] of rlc_am_retransmit.c, and the
    effect of a STATUS PDU. An index outside an array is [Fault OutOfBounds];
    an [assert] that fails is [Fault AssertFatal]. *)

From S2P Require Import Prelude RlcUmEntity RlcAmStatus RlcAmEntity RlcAmReport.
Import RlcAmStatus RlcAmEntity RlcAmReport.

Module RlcAmTx.

Definition s8 (x : Z) : Z := (x + 2 ^ 7) mod 2 ^ 8 - 2 ^ 7.

Definition get_sdu (e : rlc_am_entity_t) (i : Z) : res rlc_am_tx_sdu_management_t :=
  if i <? 0 then Fault OutOfBounds else of_option OutOfBounds (input_sdus e !! Z.to_nat i).
Definition put_sdu (i : Z) (s : rlc_am_tx_sdu_management_t) (e : rlc_am_entity_t) : rlc_am_entity_t :=
  e <| input_sdus ::= <[Z.to_nat i := s]> |>.
Definition get_pdu (e : rlc_am_entity_t) (i : Z) : res rlc_am_tx_data_pdu_management_t :=
  if i <? 0 then Fault OutOfBounds else of_option OutOfBounds (pdu_retrans_buffer e !! Z.to_nat i).
Definition put_pdu (i : Z) (q : rlc_am_tx_data_pdu_management_t) (e : rlc_am_entity_t) : rlc_am_entity_t :=
  e <| pdu_retrans_buffer ::= <[Z.to_nat i := q]> |>.

(** ** rlc_am_in_sdu.c *)

Definition next_index (i : Z) : Z := Z.rem (i + 1) RLC_AM_SDU_CONTROL_BUFFER_SIZE.

(** [while ((current_sdu_index != next_sdu_index) && ...)] *)
Fixpoint skip_transmitted (fuel : nat) (e : rlc_am_entity_t) : res rlc_am_entity_t :=
  if current_sdu_index e =? next_sdu_index e then Ok e
  else
    s ← get_sdu e (current_sdu_index e);
    if transmitted_successfully s =? 1 then
      match fuel with
      | O => Fault OutOfFuel
      | S fuel' => skip_transmitted fuel' (e <| current_sdu_index ::= next_index |>)
      end
    else Ok e.

Definition rlc_am_free_in_sdu (e : rlc_am_entity_t) (index_in_bufferP : Z) : res rlc_am_entity_t :=
  if index_in_bufferP <=? RLC_AM_SDU_CONTROL_BUFFER_SIZE then
    s ← get_sdu e index_in_bufferP;
    let e := match sdu_block s with Some _ => e <| nb_sdu_no_segmented ::= fun n => n - 1 |> | None => e end in
    let e := put_sdu index_in_bufferP (zero_sdu <| transmitted_successfully := 1 |>) (e <| nb_sdu ::= fun n => n - 1 |>) in
    let e := if current_sdu_index e =? index_in_bufferP then e <| current_sdu_index ::= next_index |> else e in
    skip_transmitted (Z.to_nat RLC_AM_SDU_CONTROL_BUFFER_SIZE) e
  else Ok e.

Definition rlc_am_free_in_sdu_data (e : rlc_am_entity_t) (index_in_bufferP : Z) : res rlc_am_entity_t :=
  if index_in_bufferP <=? RLC_AM_SDU_CONTROL_BUFFER_SIZE then
    s ← get_sdu e index_in_bufferP;
    Ok (match sdu_block s with
        | Some _ => put_sdu index_in_bufferP (s <| sdu_block := None |> <| sdu_remaining_size := 0 |>)
                      (e <| nb_sdu_no_segmented ::= fun n => n - 1 |>)
        | None => e
        end)
  else Ok e.

Definition rlc_am_in_sdu_is_empty (e : rlc_am_entity_t) : Z := if nb_sdu e =? 0 then 1 else 0.

(** ** rlc_am_segments_holes.c *)

Definition rlc_am_clear_holes (q : rlc_am_tx_data_pdu_management_t) : rlc_am_tx_data_pdu_management_t := q <| holes := [] |>.

(** [num_holes - 1] entries remain. *)
Definition rlc_am_shift_down_holes (i : nat) (l : list (Z * Z)) : list (Z * Z) := delete i l.

(** An entry is opened at [i], with what was there; the caller writes it. *)
Definition rlc_am_shift_up_holes (i : nat) (l : list (Z * Z)) : res (list (Z * Z)) :=
  let l' := take i l ++ default (0, 0) (l !! i) :: drop i l in
  _ ← assert_fatal (Z.of_nat (length l) + 1 <? RLC_AM_MAX_HOLES_REPORT_PER_PDU);
  Ok l'.

(** The [nack_so_start], [nack_so_stop] of a list of holes. *)
Definition nack_window (q : rlc_am_tx_data_pdu_management_t) : rlc_am_tx_data_pdu_management_t :=
  match holes q, last (holes q) with
  | (start, _) :: _, Some (_, stop) => q <| nack_so_start := start |> <| nack_so_stop := stop |>
  | _, _ => q <| nack_so_start := 0 |> <| nack_so_stop := 0x7FFF |>
  end.

(** The loop over the holes; the boolean is the return in the middle of it. A
    round removes an entry, goes to the next one, or splits one. *)
Fixpoint remove_loop (fuel : nat) (so_startP so_stopP : Z) (i : nat) (l : list (Z * Z)) : res (list (Z * Z) * bool) :=
  match l !! i with
  | None => Ok (l, false)
  | Some (start, stop) =>
      match fuel with
      | O => Fault OutOfFuel
      | S fuel' =>
          if so_startP <=? start then
            if stop <=? so_stopP then remove_loop fuel' so_startP so_stopP i (rlc_am_shift_down_holes i l)
            else Ok (<[i := (so_stopP, stop)]> l, true)
          else if so_startP <=? stop then
            if so_stopP <? stop then
              l' ← rlc_am_shift_up_holes (S i) l;
              remove_loop fuel' so_startP so_stopP (S i) (<[i := (start, so_startP - 1)]> (<[S i := (so_startP + 1, stop)]> l'))
            else remove_loop fuel' so_startP so_stopP (S i) (<[i := (start, so_startP)]> l)
          else remove_loop fuel' so_startP so_stopP (S i) l
      end
  end.

Definition rlc_am_remove_hole (q : rlc_am_tx_data_pdu_management_t) (so_startP so_stopP : Z) : res rlc_am_tx_data_pdu_management_t :=
  _ ← assert_fatal (so_startP <=? so_stopP);
  '(q, early) ←
    match holes q with
    | [] =>
        _ ← assert_fatal (so_startP =? nack_so_start q);
        _ ← assert_fatal (so_stopP <=? nack_so_stop q);
        Ok (if nack_so_stop q <=? so_stopP + 1 then q <| nack_so_start := 0 |> <| nack_so_stop := 0x7FFF |>
            else q <| nack_so_start := so_stopP + 1 |>, false)
    | l =>
        '(l', early) ← remove_loop (2 * length l + 2) so_startP so_stopP 0 l;
        Ok (nack_window (q <| holes := l' |>), early)
    end;
  _ ← assert_fatal (early || (nack_so_start q <? tx_payload_size q));
  Ok q.

Definition rlc_am_get_next_hole (q : rlc_am_tx_data_pdu_management_t) : Z * Z :=
  match holes q with [] => (nack_so_start q, nack_so_stop q) | h :: _ => h end.

(** [while (hole_index < num_holes)]: the index of the first hole behind the
    new one. The [for] that shifts the entries also moves the one before the
    place of the new hole, which is written next. *)
Fixpoint hole_index (so_stopP : Z) (l : list (Z * Z)) : nat :=
  match l with (start, _) :: rest => if so_stopP <? start then 0%nat else S (hole_index so_stopP rest) | [] => 0%nat end.

Definition rlc_am_add_hole (q : rlc_am_tx_data_pdu_management_t) (so_startP so_stopP : Z) : res rlc_am_tx_data_pdu_management_t :=
  _ ← assert_fatal (so_startP <=? so_stopP);
  _ ← assert_fatal (so_startP <? 0x7FFF);
  _ ← assert_fatal (so_stopP <=? 0x7FFF);
  if (so_startP =? 0) && ((so_stopP =? 0x7FFF) || (so_stopP =? tx_payload_size q - 1)) then
    let q := q <| holes := [] |> <| nack_so_start := so_startP |> <| nack_so_stop := so_stopP |> in
    _ ← assert_fatal (nack_so_start q <? tx_payload_size q);
    Ok q
  else
    let so_stopP := if so_stopP =? 0x7FFF then tx_payload_size q - 1 else so_stopP in
    match holes q with
    | [] =>
        let q := q <| holes := [(so_startP, so_stopP)] |> <| nack_so_start := so_startP |> <| nack_so_stop := so_stopP |> in
        _ ← assert_fatal (nack_so_start q <? tx_payload_size q);
        Ok q
    | l =>
        let i := hole_index so_stopP l in
        if (i <? length l)%nat then
          _ ← assert_fatal (Z.of_nat (length l) <? RLC_AM_MAX_HOLES_REPORT_PER_PDU);
          _ ← assert_fatal (match i with O => true | S j => match l !! j with Some (_, stop) => stop <? so_startP | None => true end end);
          let q := q <| holes := take i l ++ (so_startP, so_stopP) :: drop i l |> in
          let q := if (i =? 0)%nat then q <| nack_so_start := so_startP |> else q in
          _ ← assert_fatal (nack_so_start q <? tx_payload_size q);
          _ ← assert_fatal (Z.of_nat (length l) + 1 <? RLC_AM_MAX_HOLES_REPORT_PER_PDU);
          Ok q
        else
          _ ← assert_fatal (match last l with Some (_, stop) => stop <? so_startP | None => true end);
          _ ← assert_fatal (Z.of_nat (length l) <? RLC_AM_MAX_HOLES_REPORT_PER_PDU);
          let q := q <| holes := l ++ [(so_startP, so_stopP)] |> <| nack_so_stop := so_stopP |> in
          _ ← assert_fatal (Z.of_nat (length l) + 1 <? RLC_AM_MAX_HOLES_REPORT_PER_PDU);
          _ ← assert_fatal (nack_so_start q <? tx_payload_size q);
          Ok q
    end.

(** ** rlc_am_retransmit.c: negative and positive acknowledgement *)

(** The SDUs of a PDU that was sent too often. *)
Fixpoint drop_sdus (e : rlc_am_entity_t) (l : list Z) : res rlc_am_entity_t :=
  match l with
  | [] => Ok e
  | i :: rest =>
      _ ← assert_fatal (i <? RLC_AM_SDU_CONTROL_BUFFER_SIZE);
      s ← get_sdu e i;
      let s := s <| nb_pdus_ack ::= fun n => u8 (n + 1) |> in
      let e := put_sdu i s e in
      e ← (if nb_pdus_ack s =? nb_pdus s then
             rlc_am_free_in_sdu
               (e <| data_confs ::= fun l => l ++ [(mui s, RLC_SDU_CONFIRM_NO)] |>
                  <| stat_tx_pdcp_sdu_discarded ::= fun n => u32 (n + 1) |>
                  <| stat_tx_pdcp_bytes_discarded ::= fun n => u32 (n + sdu_size s) |>) i
           else Ok e);
      drop_sdus e rest
  end.

Definition rlc_am_nack_pdu (c : protocol_ctxt_t) (e : rlc_am_entity_t) (snP so_startP so_endP : Z) : res rlc_am_entity_t :=
  q ← get_pdu e snP;
  match pdu_block q with
  | None => Ok e
  | Some _ =>
      _ ← assert_fatal (so_startP <=? so_endP);
      let q := if negb (last_nack_time q =? RlcUm.frame c) then rlc_am_clear_holes (q <| last_nack_time := RlcUm.frame c |>) else q in
      q ← rlc_am_add_hole q so_startP so_endP;
      let e := e <| num_nack_sn ::= fun n => u32 (n + 1) |> in
      let e := if negb ((so_startP =? 0) && (so_endP =? 0x7FFF)) then e <| num_nack_so ::= fun n => u32 (n + 1) |> else e in
      let e := if (first_retrans_pdu_sn e <? 0) || negb (rlc_am_tx_sn1_gt_sn2 e (first_retrans_pdu_sn e) snP =? 0)
               then e <| first_retrans_pdu_sn := snP |> else e in
      let first := retx_count q =? -1 in
      let q := q <| retransmit := 1 |> <| retx_count := if first then 0 else s8 (retx_count q + 1) |> in
      let e := put_pdu snP q e in
      let e := if first then e <| retrans_num_bytes_to_retransmit ::= fun n => n + header_and_payload_size q |> else e in
      if max_retx_threshold e <=? retx_count q then drop_sdus e (sdus_index q) else Ok e
  end.

(** The SDUs of a PDU that is acknowledged. *)
Fixpoint confirm_sdus (e : rlc_am_entity_t) (l : list Z) : res rlc_am_entity_t :=
  match l with
  | [] => Ok e
  | i :: rest =>
      _ ← assert_fatal (0 <=? i);
      _ ← assert_fatal (i <? RLC_AM_SDU_CONTROL_BUFFER_SIZE);
      s ← get_sdu e i;
      let s := s <| nb_pdus_ack ::= fun n => u8 (n + 1) |> in
      let e := put_sdu i s e in
      e ← (if (nb_pdus_ack s =? nb_pdus s) && (sdu_remaining_size s =? 0) then
             rlc_am_free_in_sdu (e <| data_confs ::= fun l => l ++ [(mui s, RLC_SDU_CONFIRM_YES)] |>) i
           else Ok e);
      confirm_sdus e rest
  end.

(** [do ... while ((pdu_retrans_buffer[vt_a].flags.ack == 1) && (vt_a != vt_s))] *)
Fixpoint advance_vt_a (fuel : nat) (e : rlc_am_entity_t) : res rlc_am_entity_t :=
  match fuel with
  | O => Fault OutOfFuel
  | S fuel' =>
      let a := vt_a e in
      _ ← get_pdu e a;
      let e := put_pdu a zero_pdu e in
      let e := if a =? first_retrans_pdu_sn e then e <| first_retrans_pdu_sn := next_sn a |> else e in
      let e := e <| vt_a := next_sn a |> in
      q ← get_pdu e (next_sn a);
      if (ack q =? 1) && negb (next_sn a =? vt_s e) then advance_vt_a fuel' e else Ok e
  end.

Definition move_window (e : rlc_am_entity_t) : res rlc_am_entity_t :=
  e ← advance_vt_a (Z.to_nat RLC_AM_SN_MODULO) e;
  Ok (e <| vt_ms := Z.land (vt_a e + RLC_AM_WINDOW_SIZE) RLC_AM_SN_MASK |>).

(** [do ... while (first_retrans_pdu_sn != vt_s)]: the next PDU that was
    asked for. *)
Fixpoint next_retrans (fuel : nat) (e : rlc_am_entity_t) (s : Z) : res Z :=
  match fuel with
  | O => Fault OutOfFuel
  | S fuel' =>
      let s := next_sn s in
      q ← get_pdu e s;
      if 0 <=? retx_count q then Ok s
      else if s =? vt_s e then Ok s
      else next_retrans fuel' e s
  end.

Definition rlc_am_ack_pdu (e : rlc_am_entity_t) (snP : Z) : res rlc_am_entity_t :=
  q ← get_pdu e snP;
  let q := q <| retransmit := 0 |> in
  match pdu_block q with
  | Some _ =>
      if ack q =? 0 then
        let e := put_pdu snP (q <| pdu_block := None |>) e in
        let e := e <| retrans_num_pdus ::= fun n => n - 1 |> <| retrans_num_bytes ::= fun n => n - header_and_payload_size q |> in
        let e := if 0 <=? retx_count q then e <| retrans_num_bytes_to_retransmit ::= fun n => n - header_and_payload_size q |> else e in
        e ← confirm_sdus e (sdus_index q);
        let e := put_pdu snP (q <| pdu_block := None |> <| ack := 1 |>) e in
        e ← (if snP =? vt_a e then move_window e else Ok e);
        if snP =? first_retrans_pdu_sn e then
          s ← next_retrans (Z.to_nat RLC_AM_SN_MODULO) e (first_retrans_pdu_sn e);
          Ok (e <| first_retrans_pdu_sn := if vt_s e =? s then -1 else s |>)
        else Ok e
      else
        let e := put_pdu snP (q <| pdu_block := None |>) e in
        if (0 <? ack q) && (snP =? vt_a e) then move_window e else Ok e
  | None =>
      let e := put_pdu snP q e in
      if (0 <? ack q) && (snP =? vt_a e) then move_window e else Ok e
  end.

(** ** The effect of a STATUS PDU *)

Definition perform (c : protocol_ctxt_t) (e : rlc_am_entity_t) (k : call) : res rlc_am_entity_t :=
  match k with
  | StopPollRetransmit => Ok (rlc_am_stop_and_reset_timer_poll_retransmit e)
  | AckPdu s => rlc_am_ack_pdu e s
  | NackPdu s start stop => rlc_am_nack_pdu c e s start stop
  end.

Fixpoint perform_all (c : protocol_ctxt_t) (e : rlc_am_entity_t) (l : list call) : res rlc_am_entity_t :=
  match l with [] => Ok e | k :: rest => e ← perform c e k; perform_all c e rest end.

(** The counters of the entries are reset when the report is in the window.
    The result has [*tb_size_in_bytes_pP]. *)
Definition process_control_pdu (c : protocol_ctxt_t) (e : rlc_am_entity_t) (bytes : list Z) (tb_size_in_bytes : Z)
    : res (rlc_am_entity_t * Z) :=
  '(rc, _, info) ← rlc_am_get_control_pdu_infos bytes tb_size_in_bytes;
  '(calls, rest) ← rlc_am_receive_process_control_pdu e bytes tb_size_in_bytes;
  let e := if (0 <=? rc) && (0 <? rlc_am_in_tx_window e (ack_sn info)) then e <| num_nack_so := 0 |> <| num_nack_sn := 0 |> else e in
  e ← perform_all c e calls;
  Ok (e, rest).

End RlcAmTx.
