(* ===== verification/RlcAmSegment.v ===== *)
(** * RLC AM: segmentation, polling and retransmission

    openair2/LAYER2/RLC/AM_v9.3.0: rlc_am_segment.c and the rest of
    rlc_am_retransmit.c. The PDU under construction is a buffer written by
    index, as in RLC UM, whose buffer operations and writer of length
    indicators are used: the first bytes are cleared by the [memset], the
    others hold what the memory pool left there ([garbage]). *)

From S2P Require Import Prelude RlcUmEntity RlcUmSegment RlcAmStatus RlcAmEntity RlcAmReport RlcAmRx RlcAmTx.
Import RlcAmStatus RlcAmEntity RlcAmReport RlcAmTx.

Module RlcAmSegment.

Import RlcUmSegment.

(** ** Polling *)

(** [pdu_pP->b1] is in and out. *)
Definition rlc_am_pdu_polling (c : protocol_ctxt_t) (e : rlc_am_entity_t) (b1 : Z) (payload_sizeP : Z) : rlc_am_entity_t * Z :=
  let e := e <| c_pdu_without_poll ::= fun n => u32 (n + 1) |> <| c_byte_without_poll ::= fun n => u32 (n + payload_sizeP) |> in
  if (poll_pdu e <=? c_pdu_without_poll e) || (poll_byte e <=? c_byte_without_poll e) ||
     ((sdu_buffer_occupancy e =? 0) && (retrans_num_bytes_to_retransmit e =? 0)) ||
     (vt_s e =? vt_ms e) || force_poll e
  then
    let e := e <| force_poll := false |> <| c_pdu_without_poll := 0 |> <| c_byte_without_poll := 0 |>
               <| poll_sn := Z.land (vt_s e - 1) RLC_AM_SN_MASK |> in
    (rlc_am_start_timer_poll_retransmit c e, Z.lor b1 0x20)
  else (e, Z.land b1 0xDF).

(** The polling bit of a PDU in a block. *)
Definition poll_block (c : protocol_ctxt_t) (e : rlc_am_entity_t) (bytes : list Z) (payload_sizeP : Z) : res (rlc_am_entity_t * list Z) :=
  b1 ← rd bytes 0;
  let '(e, b1) := rlc_am_pdu_polling c e b1 (s16 payload_sizeP) in
  bytes ← wr bytes 0 b1;
  Ok (e, bytes).

(** ** A copy of a PDU *)

(** [None] is the NULL of a PDU that is not in the buffer. *)
Definition rlc_am_retransmit_get_copy (c : protocol_ctxt_t) (e : rlc_am_entity_t) (snP : Z) : res (rlc_am_entity_t * option mac_tb) :=
  q ← get_pdu e snP;
  match pdu_block q with
  | None => Ok (e, None)
  | Some bytes =>
      if RlcUm.mem_block_ok c then
        let e := put_pdu snP (q <| retransmit := 0 |>) e in
        '(e, bytes) ← poll_block c e (take (Z.to_nat (header_and_payload_size q)) bytes) (tx_payload_size q);
        Ok (e, Some (mk_tb (header_and_payload_size q) bytes))
      else Fault OutOfBounds
  end.

(** ** Segmentation *)

Definition choose_pdu_size (e : rlc_am_entity_t) (nb_bytes_to_transmit : Z) : Z :=
  let need := sdu_buffer_occupancy e + RLC_AM_HEADER_MIN_SIZE + max_li_overhead (nb_sdu_no_segmented e) in
  if need <=? nb_bytes_to_transmit then need else nb_bytes_to_transmit.

(** The counting pass. The PDU's [sdus_index] and each SDU's [pdus_index] are
    written on the way; [cur] is [vt_s]. *)
Record count_state : Type := mk_count {
  test_num_li : Z; test_pdu_remaining_size : Z; test_li_length_in_bytes : Z;
  test_remaining_size_to_substract : Z; test_remaining_num_li_to_substract : Z;
  c_pdu_remaining_size : Z; c_sdus_index : list Z
}.
#[export] Instance count_settable : Settable count_state := fun s =>
  mk_count (test_num_li s) (test_pdu_remaining_size s) (test_li_length_in_bytes s) (test_remaining_size_to_substract s)
    (test_remaining_num_li_to_substract s) (c_pdu_remaining_size s) (c_sdus_index s).

Definition count_stop (st : count_state) : count_state :=
  st <| test_pdu_remaining_size := 0 |> <| test_remaining_size_to_substract := 0 |> <| test_remaining_num_li_to_substract := 0 |>.

(** The boolean is [continue_fill_pdu_with_sdu]. *)
Definition count_step (sz : Z) (st : count_state) : count_state * bool :=
  let li := Z.lxor (test_li_length_in_bytes st) 3 in
  let t := test_pdu_remaining_size st in
  if (t <? sz) || (sz =? t) then (count_stop st, false)
  else if sz + li =? t then ((count_stop st) <| c_pdu_remaining_size ::= fun x => x - li |>, false)
  else if sz + li <? t then
    if RLC_AM_MAX_SDU_IN_PDU - 1 <=? Z.of_nat (length (c_sdus_index st)) then
      ((count_stop st) <| c_pdu_remaining_size ::= fun x => x - 1 |>, false)
    else
      (st <| test_num_li ::= fun n => n + 1 |> <| test_pdu_remaining_size := t - (sz + li) |>
          <| test_remaining_size_to_substract := li |> <| test_remaining_num_li_to_substract := 1 |>
          <| test_li_length_in_bytes := li |>, true)
  else ((count_stop st) <| c_pdu_remaining_size ::= fun x => x - 1 |>, false).

(** Fuel: every round uses an entry of [sdus_index]. *)
Fixpoint count_pass (fuel : nat) (cur : Z) (i : Z) (e : rlc_am_entity_t) (st : count_state) : res (rlc_am_entity_t * count_state) :=
  s ← get_sdu e i;
  match sdu_block s with
  | None => Ok (e, st)
  | Some _ =>
      match fuel with
      | O => Fault OutOfFuel
      | S fuel' =>
          let '(st, continue) := count_step (sdu_remaining_size s) st in
          if RLC_AM_MAX_SDU_IN_PDU <=? Z.of_nat (length (c_sdus_index st)) then Fault OutOfBounds
          else if RLC_AM_MAX_SDU_FRAGMENTS <=? nb_pdus s then Fault OutOfBounds
          else
            let st := st <| c_sdus_index ::= fun l => l ++ [i] |> in
            let s := s <| pdus_index ::= fun l => l ++ [cur] |> <| nb_pdus ::= fun n => u8 (n + 1) |> in
            _ ← assert_fatal (nb_pdus s <? RLC_AM_MAX_SDU_FRAGMENTS);
            let e := put_sdu i s e in
            if continue then count_pass fuel' cur (next_index i) e st else Ok (e, st)
      end
  end.

Definition count_finish (st : count_state) : count_state :=
  if 0 <? test_remaining_num_li_to_substract st then
    st <| test_num_li ::= fun n => n - 1 |> <| c_pdu_remaining_size ::= fun x => x - test_remaining_size_to_substract st |>
  else st.

(** The filling pass, on the current SDU of the entity; [f_buffer_occupancy]
    of the state is not used. The result has [pdu_mngt_p->payload_size]. *)
Definition finish_sdu (e : rlc_am_entity_t) (size : Z) : res rlc_am_entity_t :=
  e ← rlc_am_free_in_sdu_data (e <| sdu_buffer_occupancy ::= fun n => n - size |>) (current_sdu_index e);
  Ok (e <| current_sdu_index ::= next_index |>).

Fixpoint fill_pass (fuel : nat) (test_num_li : Z) (e : rlc_am_entity_t) (st : fill_state) (size : Z)
    : res (rlc_am_entity_t * fill_state * Z) :=
  s ← get_sdu e (current_sdu_index e);
  match sdu_block s with
  | None => Ok (e, st, size)
  | Some bytes =>
      match fuel with
      | O => Fault OutOfFuel
      | S fuel' =>
          let sz := sdu_remaining_size s in
          let p := f_pdu_remaining_size st in
          if p <? sz then
            buf ← copy (f_buf st) (f_data st) bytes (sdu_segmented_size s) p;
            let e := put_sdu (current_sdu_index e)
                       (s <| sdu_remaining_size := sz - p |> <| sdu_segmented_size ::= fun x => x + p |>) e in
            Ok (e <| sdu_buffer_occupancy ::= fun n => n - p |>,
                st <| f_buf := buf |> <| f_last_byte := false |> <| f_pdu_remaining_size := 0 |>, size + p)
          else if sz =? p then
            buf ← copy (f_buf st) (f_data st) bytes (sdu_segmented_size s) p;
            e ← finish_sdu e sz;
            Ok (e, st <| f_buf := buf |> <| f_last_byte := true |> <| f_pdu_remaining_size := 0 |>, size + p)
          else if sz + Z.lxor (f_li_length st) 3 <? p then
            buf ← copy (f_buf st) (f_data st) bytes (sdu_segmented_size s) sz;
            if f_num_li st =? RLC_AM_MAX_SDU_IN_PDU - 1 then
              e ← finish_sdu e sz;
              Ok (e, st <| f_buf := buf |> <| f_last_byte := true |> <| f_pdu_remaining_size := 0 |>, size + sz)
            else
              let li := Z.lxor (f_li_length st) 3 in
              st ← write_li test_num_li
                     (st <| f_buf := buf |> <| f_data ::= fun d => d + sz |> <| f_li_length := li |> <| f_num_li ::= fun n => n + 1 |>) sz;
              e ← finish_sdu e sz;
              fill_pass fuel' test_num_li e (st <| f_pdu_remaining_size := p - (sz + li) |>) (size + sz)
          else
            buf ← copy (f_buf st) (f_data st) bytes (sdu_segmented_size s) sz;
            e ← finish_sdu e sz;
            Ok (e, st <| f_buf := buf |> <| f_last_byte := true |> <| f_pdu_remaining_size := p - sz |>, size + sz)
      end
  end.

(** One PDU: the body of [while ((input_sdus[current_sdu_index].mem_block) &&
    (nb_bytes_to_transmit > 0))], which runs once ("1 PDU only"). *)
Definition build_pdu (c : protocol_ctxt_t) (garbage : list Z) (e : rlc_am_entity_t) (data_pdu_size : Z) : res rlc_am_entity_t :=
  let s := vt_s e in
  '(e, st) ← count_pass 33 s (current_sdu_index e) e (mk_count 0 (data_pdu_size - RLC_AM_HEADER_MIN_SIZE) 1 0 0 (data_pdu_size - RLC_AM_HEADER_MIN_SIZE) []);
  let st := count_finish st in
  head ← get_sdu e (current_sdu_index e);
  let data := 2 + Z.shiftr (test_num_li st * 3 + 1) 1 in
  '(e, fs, payload_size) ← fill_pass (Z.to_nat RLC_AM_SDU_CONTROL_BUFFER_SIZE) (test_num_li st) e
    (mk_fill (fresh_buffer data_pdu_size garbage) data 2 1 0 (c_pdu_remaining_size st) 0 false) 0;
  let fi := framing_info (sdu_remaining_size head =? sdu_size head) (f_last_byte fs) in
  let b1 := Z.lor (Z.lor (Z.lor (Z.shiftl fi 3) (if 0 <? f_num_li fs then 0x04 else 0)) 0x80) (Z.shiftr s 8) in
  buf ← wr (f_buf fs) 0 b1;
  buf ← wr buf 1 (Z.land s 0xFF);
  let tb := data_pdu_size - f_pdu_remaining_size fs in
  _ ← assert_fatal (tb <? RLC_SDU_MAX_SIZE);
  let e := e <| stat_tx_data_pdu ::= fun n => u32 (n + 1) |> <| stat_tx_data_bytes ::= fun n => u32 (n + tb) |>
             <| vt_s := next_sn s |> in
  '(e, buf) ← poll_block c e buf payload_size;
  let e := put_pdu s (zero_pdu <| pdu_block := Some buf |> <| payload_at := data |> <| sdus_index := c_sdus_index st |>
                        <| header_and_payload_size := tb |> <| tx_payload_size := payload_size |> <| retx_count := -1 |>) e in
  let e := e <| retrans_num_pdus ::= fun n => n + 1 |> <| retrans_num_bytes ::= fun n => n + tb |> in
  '(e, copy) ← rlc_am_retransmit_get_copy c e s;
  Ok (match copy with Some tb => e <| segmentation_pdu_list ::= fun l => l ++ [tb] |> | None => e end).

Definition rlc_am_segment_10 (c : protocol_ctxt_t) (garbage : list Z) (e : rlc_am_entity_t) : res rlc_am_entity_t :=
  if sdu_buffer_occupancy e <=? 0 then Ok e
  else
    s ← get_sdu e (current_sdu_index e);
    match sdu_block s with
    | None => Ok e
    | Some _ =>
        if nb_bytes_requested_by_mac e <=? 0 then Ok e
        else if RlcUm.mem_block_ok c then
          _ ← get_pdu e (vt_s e);
          build_pdu c garbage e (choose_pdu_size e (nb_bytes_requested_by_mac e))
        else Ok e
    end.

End RlcAmSegment.
