(* ===== verification/RlcAmRetransmit.v ===== *)
(** * RLC AM: retransmission, and the interface to MAC and PDCP

    openair2/LAYER2/RLC/AM_v9.3.0: [rlc_am_retransmit_get_subsegment] and
    [rlc_am_retransmit_any_pdu] of rlc_am_retransmit.c, the routing of received
    blocks of rlc_am_receiver.c, and the handlers of rlc_am.c. *)

From S2P Require Import Prelude RlcUmEntity RlcUmSegment RlcAmStatus RlcAmEntity RlcAmReport RlcAmRx RlcAmTx RlcAmSegment.
Import RlcAmStatus RlcAmEntity RlcAmReport RlcAmRx RlcAmTx RlcAmSegment.

Module RlcAmRetransmit.

Import RlcUmSegment.

(** ** A segment of a PDU *)

(** The local variables of [rlc_am_retransmit_get_subsegment]. *)
Record reseg : Type := mk_reseg {
  test_pdu_copy_size : Z; test_start_offset : Z; not_test_fi : Z; max_copy_payload_size : Z; r_remaining_size : Z;
  test_li_sum : Z; test_li_list : list Z; r_li_length : Z; continue_fill : bool
}.
#[export] Instance reseg_settable : Settable reseg := fun s =>
  mk_reseg (test_pdu_copy_size s) (test_start_offset s) (not_test_fi s) (max_copy_payload_size s) (r_remaining_size s)
    (test_li_sum s) (test_li_list s) (r_li_length s) (continue_fill s).

Definition cut_max (st : reseg) : reseg :=
  if r_remaining_size st <? max_copy_payload_size st then st <| max_copy_payload_size := r_remaining_size st |> else st.

(** The segment ends in the data field of the length indicator. *)
Definition copy_max (fi : Z) (st : reseg) : reseg :=
  st <| continue_fill := false |> <| test_pdu_copy_size ::= fun n => n + max_copy_payload_size st |>
     <| test_start_offset ::= fun n => n + max_copy_payload_size st |> <| not_test_fi := fi |> <| max_copy_payload_size := 0 |>.

(** A round of the loop over the length indicators of the PDU. *)
Definition reseg_step (li : Z) (st : reseg) : res reseg :=
  let st := cut_max st in
  _ ← assert_fatal (0 <=? max_copy_payload_size st);
  _ ← assert_fatal (0 <=? r_remaining_size st);
  let sum := test_li_sum st + li in
  let st := st <| test_li_sum := sum |> in
  let start := test_start_offset st in
  let m := max_copy_payload_size st in
  if start <? sum then
    if m + start <? sum then
      _ ← assert_fatal (0 <? m); Ok (copy_max (Z.land (not_test_fi st) 2) st)
    else if m + start =? sum then
      _ ← assert_fatal (0 <? m); Ok (copy_max (Z.lor (not_test_fi st) 1) st)
    else if sum <? u32 (m + start - Z.lxor (r_li_length st) 3) then
      let l := Z.lxor (r_li_length st) 3 in
      Ok (st <| test_li_list ::= fun lis => lis ++ [s16 (sum - start)] |> <| test_pdu_copy_size ::= fun n => n + sum - start |>
             <| r_li_length := l |> <| r_remaining_size ::= fun n => n - sum + start - l |>
             <| max_copy_payload_size := m - sum + start - l |> <| test_start_offset := sum |>)
    else
      Ok (st <| continue_fill := false |> <| test_pdu_copy_size ::= fun n => n + sum - start |>
             <| r_remaining_size ::= fun n => n - sum + start |> <| max_copy_payload_size := m - sum + start |>
             <| test_start_offset := sum |> <| not_test_fi := Z.lor (not_test_fi st) 1 |>)
  else if start =? sum then
    match test_li_list st with
    | [] => if test_pdu_copy_size st =? 0 then Ok (st <| not_test_fi := Z.lor (not_test_fi st) 2 |>) else Ok st
    | _ => Ok st
    end
  else Ok st.

Fixpoint reseg_lis (lis : list Z) (st : reseg) : res reseg :=
  match lis with
  | [] => Ok st
  | li :: rest => if continue_fill st then st ← reseg_step li st; reseg_lis rest st else Ok st
  end.

(** The data field after the last length indicator. *)
Definition reseg_hidden (hidden not_fi_original : Z) (st : reseg) : reseg :=
  if continue_fill st && (0 <? hidden) && (0 <? r_remaining_size st) && (0 <? max_copy_payload_size st) then
    let st := cut_max st in
    let all := hidden + test_li_sum st in
    if all <=? max_copy_payload_size st + test_start_offset st then
      st <| test_pdu_copy_size ::= fun n => n + (all - test_start_offset st) |> <| test_start_offset := all |>
         <| not_test_fi := Z.lor (Z.land (not_test_fi st) 2) (Z.land not_fi_original 1) |>
    else
      st <| test_pdu_copy_size ::= fun n => n + max_copy_payload_size st |>
         <| test_start_offset ::= fun n => n + max_copy_payload_size st |> <| not_test_fi := Z.land (not_test_fi st) 2 |>
  else st.

(** The length indicators are written from byte 4 on. *)
Fixpoint write_lis (n : Z) (lis : list Z) (fs : fill_state) : res fill_state :=
  match lis with
  | [] => Ok fs
  | li :: rest =>
      fs ← write_li n (fs <| f_li_length ::= fun l => Z.lxor l 3 |> <| f_num_li ::= fun k => k + 1 |>) li;
      write_lis n rest fs
  end.

(** [*sizeP] is in and out. A PDU that cannot be decoded gives NULL. *)
Definition rlc_am_retransmit_get_subsegment (c : protocol_ctxt_t) (garbage : list Z) (e : rlc_am_entity_t) (snP sizeP : Z)
    : res (rlc_am_entity_t * option mac_tb * Z) :=
  q ← get_pdu e snP;
  match pdu_block q with
  | None => Fault AssertFatal
  | Some original =>
      if negb (RlcUm.mem_block_ok c) then Fault OutOfBounds
      else
        '(_, info) ← rlc_am_get_data_pdu_infos original (header_and_payload_size q);
        match info with
        | None => Ok (e, None, sizeP)
        | Some info =>
            o1 ← rd original 0;
            o2 ← rd original 1;
            let so := nack_so_start q in
            let q := if nack_so_stop q =? 0x7FFF then q <| nack_so_stop := tx_payload_size q - 1 |> else q in
            let size := sizeP - 4 in
            let not_fi_original := Z.lxor (Z.shiftr (Z.land o1 0x18) 3) 3 in
            let '(start, stop) := rlc_am_get_next_hole q in
            let hole := stop - start + 1 in
            _ ← assert_fatal (0 <? hole);
            _ ← assert_fatal (0 <? size);
            let st := cut_max (mk_reseg 0 start (if start =? 0 then Z.land not_fi_original 2 else 0) hole size 0 [] 1 true) in
            st ← match li_list info with
                 | [] =>
                     let m := max_copy_payload_size st in
                     let fi := Z.land (not_test_fi st) 2 in
                     Ok (st <| test_pdu_copy_size := m |>
                            <| not_test_fi := if (stop =? start + m - 1) && (stop =? tx_payload_size q - 1)
                                              then Z.lor fi (Z.land not_fi_original 1) else fi |>)
                 | lis => st ← reseg_lis lis st; Ok (reseg_hidden (hidden_size info) not_fi_original st)
                 end;
            let n := Z.of_nat (length (test_li_list st)) in
            let b1 := Z.lor (Z.lor (Z.lor (Z.land o1 0x83) 0x40) (Z.land (Z.lxor (Z.shiftl (not_test_fi st) 3) 0x18) 0x18))
                        (if 0 <? n then 0x04 else 0) in
            let copied := test_pdu_copy_size st in
            let last := copied + start =? tx_payload_size q in
            let buf := take (Z.to_nat sizeP) (garbage ++ replicate (Z.to_nat sizeP) 0) in
            buf ← wr buf 0 b1; buf ← wr buf 1 o2;
            buf ← wr buf 2 (Z.lor (u8 (Z.shiftr so 8)) (if last then 0x80 else 0)); buf ← wr buf 3 (u8 (Z.land so 0xFF));
            fs ← write_lis n (test_li_list st) (mk_fill buf 0 4 1 0 0 0 false);
            let data := 4 + Z.shiftr (n * 3 + 1) 1 in
            buf ← copy (f_buf fs) data original (payload_at q + start) copied;
            let size := size - Z.shiftr (n * 3 + 1) 1 - copied in
            let q := if last then q <| retransmit := 0 |> else q in
            q ← rlc_am_remove_hole q start (copied + start - 1);
            '(e, bytes) ← poll_block c (put_pdu snP q e) (take (Z.to_nat (data + copied)) buf) copied;
            Ok (e, Some (mk_tb (data + copied) bytes), size)
        end
  end.

(** ** Any PDU, when a poll is due and there is nothing to send *)

(** The PDU is handed to MAC with its polling bit set. *)
Definition send_polled (c : protocol_ctxt_t) (e : rlc_am_entity_t) (tb : mac_tb) (snP : Z) : res rlc_am_entity_t :=
  q ← get_pdu e snP;
  '(e, bytes) ← poll_block c e (tb_bytes tb) (header_and_payload_size q);
  b1 ← rd bytes 0;
  bytes ← wr bytes 0 (Z.lor b1 0x20);
  let e := rlc_am_start_timer_poll_retransmit c (e <| c_pdu_without_poll := 0 |> <| c_byte_without_poll := 0 |>) in
  Ok (e <| stat_tx_data_pdu ::= fun n => u32 (n + 1) |> <| stat_tx_retransmit_pdu ::= fun n => u32 (n + 1) |>
        <| stat_tx_data_bytes ::= fun n => u32 (n + tb_size tb) |> <| stat_tx_retransmit_bytes ::= fun n => u32 (n + tb_size tb) |>
        <| pdus_to_mac_layer ::= fun l => l ++ [mk_tb (tb_size tb) bytes] |>).

(** [while (sn != sn_end)]: the first PDU, from the newest on, that fits, or
    else the first there is. *)
Fixpoint find_pdu (fuel : nat) (e : rlc_am_entity_t) (s s_end : Z) (found : option Z) : res (bool * option Z) :=
  if s =? s_end then Ok (false, found)
  else match fuel with
  | O => Fault OutOfFuel
  | S fuel' =>
      q ← get_pdu e s;
      match pdu_block q with
      | Some _ =>
          if header_and_payload_size q <=? nb_bytes_requested_by_mac e then Ok (true, Some s)
          else find_pdu fuel' e (Z.land (s - 1) RLC_AM_SN_MASK) s_end (match found with None => Some s | _ => found end)
      | None => find_pdu fuel' e (Z.land (s - 1) RLC_AM_SN_MASK) s_end found
      end
  end.

Definition rlc_am_retransmit_any_pdu (c : protocol_ctxt_t) (garbage : list Z) (e : rlc_am_entity_t) : res rlc_am_entity_t :=
  o ← find_pdu (Z.to_nat RLC_AM_SN_MODULO) e (Z.land (vt_s e - 1) RLC_AM_SN_MASK) (Z.land (vt_a e - 1) RLC_AM_SN_MASK) None;
  match o with
  | (true, Some s) =>
      e ← rlc_am_nack_pdu c e s 0 0x7FFF;
      '(e, tb) ← rlc_am_retransmit_get_copy c e s;
      match tb with Some tb => send_polled c e tb s | None => Fault OutOfBounds end
  | (false, Some s) =>
      if 4 <? nb_bytes_requested_by_mac e then
        e ← rlc_am_nack_pdu c e s 0 0x7FFF;
        '(e, tb, size) ← rlc_am_retransmit_get_subsegment c garbage e s (nb_bytes_requested_by_mac e);
        match tb with
        | Some tb => send_polled c (e <| nb_bytes_requested_by_mac := size |>) tb s
        | None => Fault OutOfBounds
        end
      else Ok e
  | _ => Ok e
  end.

(** ** rlc_am.c *)

Definition rlc_am_get_buffer_occupancy_in_bytes (e : rlc_am_entity_t) : Z :=
  if status_requested e && negb (running (t_status_prohibit e)) then
    Z.shiftr (u32 (15 + num_nack_sn e * 11 + num_nack_so e * 31 + 7)) 3
  else
    u32 (status_buffer_occupancy e + retrans_num_bytes_to_retransmit e + sdu_buffer_occupancy e +
         max_li_overhead (nb_sdu_no_segmented e) + (if sdu_buffer_occupancy e =? 0 then 0 else 2)).

(** [while ((first_retrans_pdu_sn != vt_s) && (!flags.retransmit))] *)
Fixpoint skip_sent (fuel : nat) (e : rlc_am_entity_t) (s : Z) : res Z :=
  if s =? vt_s e then Ok s
  else
    q ← get_pdu e s;
    if retransmit q =? 0 then
      match fuel with O => Fault OutOfFuel | S fuel' => skip_sent fuel' e (next_sn s) end
    else Ok s.

Definition count_retransmitted (n : Z) (e : rlc_am_entity_t) : rlc_am_entity_t :=
  e <| stat_tx_data_pdu ::= fun k => u32 (k + 1) |> <| stat_tx_retransmit_pdu ::= fun k => u32 (k + 1) |>
    <| stat_tx_retransmit_pdu_by_status ::= fun k => u32 (k + 1) |> <| stat_tx_data_bytes ::= fun k => u32 (k + n) |>
    <| stat_tx_retransmit_bytes ::= fun k => u32 (k + n) |> <| stat_tx_retransmit_bytes_by_status ::= fun k => u32 (k + n) |>.

(** The boolean says that the handler returns. [list_add_tail_eurecom] adds
    nothing for NULL. *)
Definition send_retransmission (c : protocol_ctxt_t) (garbage : list Z) (e : rlc_am_entity_t) : res (rlc_am_entity_t * bool) :=
  let s := first_retrans_pdu_sn e in
  if (2 <? nb_bytes_requested_by_mac e) && (0 <=? s) && negb (s =? vt_s e) then
    q ← get_pdu e s;
    if (header_and_payload_size q <=? nb_bytes_requested_by_mac e) && (0 <=? retx_count q) &&
       (nack_so_start q =? 0) && (nack_so_stop q =? 0x7FFF) then
      '(e, tb) ← rlc_am_retransmit_get_copy c e s;
      q ← get_pdu e s;
      let e := count_retransmitted (header_and_payload_size q) e in
      Ok (put_pdu s (q <| retx_count ::= fun n => s8 (n + 1) |>)
            (e <| pdus_to_mac_layer ::= fun l => l ++ option_list tb |>
               <| nb_bytes_requested_by_mac ::= fun n => n - header_and_payload_size q |>), true)
    else if (0 <=? retx_count q) && (RLC_AM_MIN_SEGMENT_SIZE_REQUEST <=? nb_bytes_requested_by_mac e) then
      '(e, tb, size) ← rlc_am_retransmit_get_subsegment c garbage e s (nb_bytes_requested_by_mac e);
      match tb with
      | None => Fault OutOfBounds
      | Some tb =>
          let e := count_retransmitted (tb_size tb) e in
          let e := e <| nb_bytes_requested_by_mac := size |> <| pdus_to_mac_layer ::= fun l => l ++ [tb] |> in
          s' ← skip_sent (Z.to_nat RLC_AM_SN_MODULO) e s;
          Ok (e <| first_retrans_pdu_sn := if s' =? vt_s e then -1 else s' |>, true)
      end
    else Ok (e, false)
  else Ok (e, false).

Definition rlc_am_get_pdus (c : protocol_ctxt_t) (garbage : list Z) (e : rlc_am_entity_t) : res rlc_am_entity_t :=
  if protocol_state e =? RLC_DATA_TRANSFER_READY_STATE then
    '(e, sent) ←
      (if (2 <? nb_bytes_requested_by_mac e) && status_requested e && negb (running (t_status_prohibit e)) then
         e ← rlc_am_send_status_pdu c e;
         match control_pdu_list e with
         | tb :: rest =>
             Ok (rlc_am_start_timer_status_prohibit c
                   (e <| control_pdu_list := rest |> <| pdus_to_mac_layer ::= fun l => l ++ [tb] |> <| status_requested := false |>), true)
         | [] => Ok (e, false)
         end
       else Ok (e, false));
    if sent : bool then Ok e
    else
      '(e, sent) ← send_retransmission c garbage e;
      if sent : bool then Ok e
      else
        '(e, sent) ←
          (if (2 <? nb_bytes_requested_by_mac e) && negb (vt_s e =? vt_ms e) then
             e ← rlc_am_segment_10 c garbage e;
             let e := e <| pdus_to_mac_layer ::= fun l => l ++ segmentation_pdu_list e |> <| segmentation_pdu_list := [] |> in
             match pdus_to_mac_layer e with
             | tb :: _ => Ok (e <| stat_tx_data_pdu ::= fun n => u32 (n + 1) |> <| stat_tx_data_bytes ::= fun n => u32 (n + tb_size tb) |>, true)
             | [] => Ok (e, false)
             end
           else Ok (e, false));
        if sent : bool then Ok e
        else
          match pdus_to_mac_layer e with
          | [] => if rlc_am_is_timer_poll_retransmit_timed_out e && (2 <? nb_bytes_requested_by_mac e)
                  then rlc_am_retransmit_any_pdu c garbage e else Ok e
          | _ => Ok e
          end
  else Ok e.

(** The blocks that have arrived, in order. *)
Fixpoint rlc_am_receive_routing (c : protocol_ctxt_t) (e : rlc_am_entity_t) (data : list mac_tb) : res rlc_am_entity_t :=
  match data with
  | [] => Ok e
  | tb :: rest =>
      let size := tb_size tb in
      e ← (if 0 <? size then
             b ← byte_at (tb_bytes tb) 0;
             if Z.land b 0x80 =? 0x80 then
               rlc_am_receive_process_data_pdu c
                 (e <| stat_rx_data_bytes ::= fun n => u32 (n + size) |> <| stat_rx_data_pdu ::= fun n => u32 (n + 1) |>)
                 (tb_bytes tb) size
             else
               '(e, remaining) ← process_control_pdu c
                 (e <| stat_rx_control_bytes ::= fun n => u32 (n + size) |> <| stat_rx_control_pdu ::= fun n => u32 (n + 1) |>)
                 (tb_bytes tb) size;
               _ ← assert_fatal (remaining =? 0);
               Ok e
           else Ok e);
      rlc_am_receive_routing c e rest
  end.

Definition rlc_am_rx (c : protocol_ctxt_t) (e : rlc_am_entity_t) (data : list mac_tb) : res rlc_am_entity_t :=
  if protocol_state e =? RLC_DATA_TRANSFER_READY_STATE then rlc_am_receive_routing c e data else Ok e.

Definition rlc_am_mac_data_indication (c : protocol_ctxt_t) (e : rlc_am_entity_t) (data : list mac_tb) : res rlc_am_entity_t :=
  rlc_am_rx c e data.

(** The result has the PDUs for MAC, [data_req.buffer_occupancy_in_bytes] and
    the entity. *)
Definition rlc_am_mac_data_request (c : protocol_ctxt_t) (garbage : list Z) (e : rlc_am_entity_t) : res (list mac_tb * Z * rlc_am_entity_t) :=
  e ← rlc_am_get_pdus c garbage e;
  let data := pdus_to_mac_layer e in
  let e := e <| pdus_to_mac_layer := [] |> in
  Ok (data, rlc_am_get_buffer_occupancy_in_bytes e, e).

(** [struct mac_status_resp], but for what is read of the head SDU: the source
    takes it from the bytes of the SDU's block, as if they were the
    management structure. *)
Record mac_status_resp : Type := mk_resp { buffer_occupancy_in_bytes : Z; buffer_occupancy_in_pdus : Z; rlc_protocol_state : Z }.

Definition rlc_am_mac_status_indication (c : protocol_ctxt_t) (e : rlc_am_entity_t) (tb_sizeP : Z) : res (mac_status_resp * rlc_am_entity_t) :=
  let state := protocol_state e in
  let e := if negb (last_frame_status_indication e =? RlcUm.frame c) then
             rlc_am_check_timer_status_prohibit c (rlc_am_check_timer_reordering c (rlc_am_check_timer_poll_retransmit c e))
           else e in
  let e := e <| last_frame_status_indication := RlcUm.frame c |> <| nb_bytes_requested_by_mac := u16 tb_sizeP |> in
  let bo := rlc_am_get_buffer_occupancy_in_bytes e in
  s ← get_sdu e (current_sdu_index e);
  match sdu_block s with
  | Some _ => Ok (mk_resp bo (if bo =? 0 then 0 else nb_sdu e) state, e)
  | None =>
      if rlc_am_is_timer_poll_retransmit_timed_out e && (bo =? 0) && (0 <? nb_sdu e) then
        let s := Z.land (vt_s e - 1) RLC_AM_SN_MASK in
        if s =? Z.land (vt_a e - 1) RLC_AM_SN_MASK then Ok (mk_resp bo 0 state, e)
        else
          q ← get_pdu e s;
          match pdu_block q with
          | Some _ => Ok (mk_resp (header_and_payload_size q) (nb_sdu e) state, e)
          | None => Fault OutOfFuel   (* while (sn != sn_end): nothing changes sn *)
          end
      else Ok (mk_resp bo 0 state, e)
  end.

(** [sdu] are the bytes of the SDU, [data_size] of them. *)
Definition rlc_am_data_req (c : protocol_ctxt_t) (e : rlc_am_entity_t) (muiP : Z) (sdu : list Z) : res rlc_am_entity_t :=
  let data_size := u16 (Z.of_nat (length sdu)) in
  let i := next_sdu_index e in
  s ← get_sdu e i;
  if match sdu_block s with None => true | Some _ => false end && (segmented s =? 0) && negb (next_index i =? current_sdu_index e) then
    let s := mk_tx_sdu (Some sdu) (RlcUm.frame c) muiP data_size 0 data_size [] 0 0 0 0 in
    Ok (put_sdu i s
          (e <| stat_tx_pdcp_sdu ::= fun n => u32 (n + 1) |> <| stat_tx_pdcp_bytes ::= fun n => u32 (n + data_size) |>
             <| sdu_buffer_occupancy ::= fun n => n + data_size |> <| nb_sdu ::= fun n => n + 1 |>
             <| nb_sdu_no_segmented ::= fun n => n + 1 |> <| next_sdu_index := next_index i |>))
  else
    Ok (e <| stat_tx_pdcp_sdu_discarded ::= fun n => u32 (n + 1) |>
          <| stat_tx_pdcp_bytes_discarded ::= fun n => u32 (n + data_size) |>).

(** ** Configuration *)

(** [rlc_am_info_t] *)
Record rlc_am_info_t : Type := mk_am_info {
  i_max_retx_threshold : Z; i_poll_pdu : Z; i_poll_byte : Z; i_t_poll_retransmit : Z; i_t_reordering : Z; i_t_status_prohibit : Z
}.

(** [rlc_p] is the entity the collection holds for the bearer. *)
Definition config_req_rlc_am (srb_flagP : bool) (i : rlc_am_info_t) (rb_idP : Z) (rlc_p : option rlc_am_entity_t) : option rlc_am_entity_t :=
  (fun e => rlc_am_configure (rlc_am_set_debug_infos (rlc_am_init e) srb_flagP rb_idP)
     (i_max_retx_threshold i) (i_poll_pdu i) (i_poll_byte i) (i_t_poll_retransmit i) (i_t_reordering i) (i_t_status_prohibit i)) <$> rlc_p.

Definition pollPDU_tab : list Z := [4;8;16;32;64;128;256;1024].
Definition maxRetxThreshold_tab : list Z := [1;2;3;4;6;8;16;32].
Definition pollByte_tab : list Z := [25;50;75;100;125;250;375;500;750;1000;1250;1500;2000;3000;10000].
Definition steps_of_5 (from : Z) (n : nat) : list Z := (fun i => from + 5 * Z.of_nat i) <$> seq 0 n.
Definition PollRetransmit_tab : list Z := steps_of_5 5 50 ++ [300;350;400;450;500].
Definition am_t_Reordering_tab : list Z := steps_of_5 0 21 ++ [110;120;130;140;150;160;170;180;190;200].
Definition t_StatusProhibit_tab : list Z := steps_of_5 0 51 ++ [300;350;400;450;500].

(** The fields are the enumerations of the ASN.1 configuration, not negative;
    a value beyond its table leaves the entity as it is. *)
Definition config_req_rlc_am_asn1 (srb_flagP : bool) (i : rlc_am_info_t) (rb_idP : Z) (rlc_p : option rlc_am_entity_t) : option rlc_am_entity_t :=
  match rlc_p with
  | None => None
  | Some e =>
      match maxRetxThreshold_tab !! Z.to_nat (i_max_retx_threshold i), pollPDU_tab !! Z.to_nat (i_poll_pdu i),
            pollByte_tab !! Z.to_nat (i_poll_byte i), PollRetransmit_tab !! Z.to_nat (i_t_poll_retransmit i),
            am_t_Reordering_tab !! Z.to_nat (i_t_reordering i), t_StatusProhibit_tab !! Z.to_nat (i_t_status_prohibit i) with
      | Some a, Some b, Some d, Some t, Some r, Some p =>
          Some (rlc_am_configure (rlc_am_set_debug_infos (rlc_am_init e) srb_flagP rb_idP) a b d t r p)
      | _, _, _, _, _, _ => Some e
      end
  end.

End RlcAmRetransmit.
