(* ===== verification/RlcAmQueue.v ===== *)
(** * RLC AM: the queue of SDUs and the two passes of the segmentation

    The ring of [RLC_AM_SDU_CONTROL_BUFFER_SIZE] slots, read from the current
    SDU on, is a queue. The counting and the filling pass of
    [rlc_am_segment_10] do to the ring what the passes of RLC UM do to its list
    of SDUs, so that what is proved of the latter holds here. *)

From S2P Require Import Prelude RlcUmEntity RlcUmDar RlcUmReasm RlcUmSegment RlcUmTx RlcAmStatus RlcAmEntity RlcAmReport RlcAmTx RlcAmSegment.
Import RlcUmSegment RlcAmStatus RlcAmEntity RlcAmTx RlcAmSegment.

Module RlcAmQueue.

Notation um_count_state := RlcUmSegment.count_state.
Notation slots := (list rlc_am_tx_sdu_management_t).

(** ** The ring *)

Lemma next_index_mod i : 0 <= i -> next_index i = (i + 1) mod 128.
Proof. intros. unfold next_index, RLC_AM_SDU_CONTROL_BUFFER_SIZE. apply Z.rem_mod_nonneg; lia. Qed.

Lemma next_index_range i : 0 <= i -> 0 <= next_index i < 128.
Proof. intros. rewrite next_index_mod by done. apply Z.mod_pos_bound. lia. Qed.

(** The slots from [i] on hold the SDUs [q], and the one after them no data. *)
Fixpoint ring (l : slots) (i : Z) (q : slots) : Prop :=
  match q with
  | [] => exists s, l !! Z.to_nat i = Some s /\ sdu_block s = None
  | s :: q' => l !! Z.to_nat i = Some s /\ is_Some (sdu_block s) /\ ring l (next_index i) q'
  end.

(** The slots from [i] on, [n] of them, and [j]. *)
Definition apart (i : Z) (n : nat) (j : Z) : Prop := forall k, 0 <= k <= Z.of_nat n -> (i + k) mod 128 <> j.

Lemma apart_next i n j : 0 <= i -> apart i (S n) j -> apart (next_index i) n j.
Proof.
  intros Hi H k Hk. rewrite next_index_mod by done. rewrite Zplus_mod_idemp_l. replace (i + 1 + k) with (i + (k + 1)) by lia. apply H. lia.
Qed.

Lemma apart_self i n : 0 <= i < 128 -> (n < 127)%nat -> apart (next_index i) n i.
Proof. intros Hi Hn k Hk. rewrite next_index_mod by lia. rewrite Zplus_mod_idemp_l. Z.to_euclidean_division_equations. lia. Qed.

Lemma ring_insert l i q j x : 0 <= i < 128 -> 0 <= j -> apart i (length q) j -> ring l i q -> ring (<[Z.to_nat j := x]> l) i q.
Proof.
  revert i. induction q as [|s q IH]; intros i Hi Hj Ha; cbn [ring].
  - intros (s & E & B). exists s. split; [|done]. rewrite list_lookup_insert_ne; [done|]. specialize (Ha 0 ltac:(cbn; lia)).
    rewrite Z.add_0_r, Z.mod_small in Ha by lia. lia.
  - intros (E & B & R). split; [|split; [done|apply IH; [by apply next_index_range; lia|done|by apply apart_next; [lia|]|done]]].
    rewrite list_lookup_insert_ne; [done|]. specialize (Ha 0 ltac:(cbn; lia)). rewrite Z.add_0_r, Z.mod_small in Ha by lia. lia.
Qed.

(** Two queues at one place are the same. *)
Lemma ring_unique l i q q' : ring l i q -> ring l i q' -> q = q'.
Proof.
  revert i q'. induction q as [|s q IH]; intros i [|s' q'] H H'; cbn [ring] in *; [done|..].
  - destruct H as (x & E & B), H' as (E' & [b B'] & _). congruence.
  - destruct H' as (x & E & B), H as (E' & [b B'] & _). congruence.
  - destruct H as (E & _ & H), H' as (E' & _ & H'). f_equal; [congruence|by apply (IH (next_index i))].
Qed.

Lemma get_slot e i s : 0 <= i -> input_sdus e !! Z.to_nat i = Some s -> get_sdu e i = Ok s.
Proof. intros Hi E. unfold get_sdu. destruct (Z.ltb_spec i 0); [lia|]. by rewrite E. Qed.

(** ** An SDU of the ring as one of RLC UM *)

Definition um_sdu (s : rlc_am_tx_sdu_management_t) : RlcUm.rlc_um_tx_sdu_t :=
  RlcUm.mk_tx_sdu (default [] (sdu_block s)) (sdu_creation_time s) (sdu_remaining_size s) (sdu_segmented_size s) (sdu_size s).

(** The counters of acknowledgement and the flags are the same. *)
Definition same_account (s s' : rlc_am_tx_sdu_management_t) : Prop :=
  nb_pdus s' = nb_pdus s /\ nb_pdus_ack s' = nb_pdus_ack s /\ mui s' = mui s /\ sdu_size s' = sdu_size s /\ pdus_index s' = pdus_index s /\
  segmented s' = segmented s /\ transmitted_successfully s' = transmitted_successfully s /\
  (is_Some (sdu_block s') -> is_Some (sdu_block s) /\ (1 <= sdu_remaining_size s -> 1 <= sdu_remaining_size s')).

#[export] Instance same_account_refl : Reflexive same_account.
Proof. by intros s. Qed.
#[export] Instance same_account_trans : Transitive same_account.
Proof. intros s s' s'' (?&?&?&?&?&?&?&?) (?&?&?&?&?&?&?&?). unfold same_account. split_and!; try congruence. naive_solver. Qed.

Lemma same_insert (l : slots) (i : nat) s s' : l !! i = Some s -> same_account s s' -> Forall2 same_account l (<[i := s']> l).
Proof.
  intros E H. apply Forall2_lookup. intros j. destruct (decide (i = j)) as [->|Hne].
  - rewrite E, list_lookup_insert_eq by by apply (lookup_lt_Some _ _ _ E). by constructor.
  - rewrite list_lookup_insert_ne by done. destruct (l !! j); by constructor.
Qed.

(** ** The counting pass *)

Definition touch (cur : Z) (s : rlc_am_tx_sdu_management_t) : rlc_am_tx_sdu_management_t :=
  s <| pdus_index ::= fun l => l ++ [cur] |> <| nb_pdus ::= fun n => u8 (n + 1) |>.

(** The first [m] slots from [i] on get one more PDU. *)
Fixpoint mark (cur : Z) (m : nat) (i : Z) (l : slots) : slots :=
  match m with O => l | S m' => mark cur m' (next_index i) (alter (touch cur) (Z.to_nat i) l) end.

Fixpoint indices (m : nat) (i : Z) : list Z := match m with O => [] | S m' => i :: indices m' (next_index i) end.

Definition um_count (n d : Z) (st : count_state) : um_count_state :=
  RlcUmSegment.mk_count n (test_num_li st) (test_pdu_remaining_size st) (test_li_length_in_bytes st)
    (test_remaining_size_to_substract st) (test_remaining_num_li_to_substract st) (c_pdu_remaining_size st) d.

Lemma count_step_um n d st s : (Z.of_nat (length (c_sdus_index st)) < 31) ->
  let '(st', b) := count_step (sdu_remaining_size s) st in
  RlcUmSegment.count_step false (um_count n d st) (um_sdu s) = (um_count (n + 1) d st', b) /\ c_sdus_index st' = c_sdus_index st.
Proof.
  intros Hl. unfold count_step, RlcUmSegment.count_step. destruct st as [a t li r1 r2 p l]. cbn -[Z.leb Z.lxor] in *.
  assert ((RLC_AM_MAX_SDU_IN_PDU - 1 <=? Z.of_nat (length l)) = false) as -> by (apply Z.leb_gt; unfold RLC_AM_MAX_SDU_IN_PDU; lia).
  destruct (t <? _); [done|]. destruct (_ =? t); [done|]. cbn [orb]. destruct (_ + _ =? t); [done|]. by destruct (_ + _ <? t).
Qed.

Lemma alter_insert (l : slots) (i : nat) s (f : rlc_am_tx_sdu_management_t -> rlc_am_tx_sdu_management_t) : l !! i = Some s -> alter f i l = <[i := f s]> l.
Proof.
  intros E. apply list_eq. intros j. destruct (decide (i = j)) as [->|Hne].
  - rewrite list_lookup_alter_eq, list_lookup_insert_eq, E by by apply (lookup_lt_Some _ _ _ E). done.
  - by rewrite list_lookup_alter_ne, list_lookup_insert_ne.
Qed.

(** The length indicators of the SDUs counted so far; the last one is taken
    back when the SDUs run out. *)
Definition lis_counted (st : count_state) : Z := test_num_li (count_finish st).

Lemma lis_counted_flag st : test_remaining_num_li_to_substract st = 0 \/ test_remaining_num_li_to_substract st = 1 ->
  lis_counted st = test_num_li st - test_remaining_num_li_to_substract st.
Proof. unfold lis_counted, count_finish. intros [->| ->]; cbn; lia. Qed.

Lemma count_step_flag sz st : let '(st', b) := count_step sz st in
  if b : bool then test_num_li st' = test_num_li st + 1 /\ test_remaining_num_li_to_substract st' = 1
  else test_num_li st' = test_num_li st /\ test_remaining_num_li_to_substract st' = 0.
Proof. unfold count_step. repeat case_match; simplify_eq; by destruct st. Qed.

Lemma count_pass_um q : forall fuel cur i e st n d, 0 <= i < 128 -> ring (input_sdus e) i q -> (length q <= 127)%nat -> (length q <= fuel)%nat ->
  (length (c_sdus_index st) + length q <= 31)%nat -> Forall (fun s => 0 <= nb_pdus s < 31) q ->
  test_remaining_num_li_to_substract st = 1 \/ test_remaining_num_li_to_substract st = 0 /\ q <> [] ->
  exists m st', (m <= length q)%nat /\ Z.of_nat m = lis_counted st' - test_num_li st + 1 /\
    count_pass fuel cur i e st = Ok (e <| input_sdus := mark cur m i (input_sdus e) |>, st') /\
    RlcUmSegment.count_pass false (um_sdu <$> q) (um_count n d st) = um_count (n + Z.of_nat m) d st' /\
    c_sdus_index st' = c_sdus_index st ++ indices m i.
Proof.
  induction q as [|s q IH]; intros fuel cur i e st n d Hi R Hq Hf Hl Hn Hg.
  - destruct R as (s & E & B). exists 0%nat, st. split; [done|]. split.
    { destruct Hg as [Hg|[_ Hg]]; [|done]. rewrite lis_counted_flag by by right. lia. }
    destruct fuel; cbn [count_pass]; rewrite (get_slot e i s) by (lia || done);
      cbn [mbind res_bind]; rewrite B; cbn [mark indices]; rewrite app_nil_r, Z.add_0_r; (split; [by destruct e|done]).
  - destruct R as (E & [b B] & R). destruct fuel as [|fuel]; [cbn in Hf; lia|]. cbn [length] in *. apply Forall_cons in Hn as [Hs Hn].
    cbn [count_pass]. rewrite (get_slot e i s) by (lia || done). cbn [mbind res_bind]. rewrite B.
    pose proof (count_step_um n d st s ltac:(lia)) as HS. pose proof (count_step_flag (sdu_remaining_size s) st) as HF. destruct (count_step (sdu_remaining_size s) st) as [st1 cont]. destruct HS as [HS HI].
    rewrite HI. assert ((RLC_AM_MAX_SDU_IN_PDU <=? Z.of_nat (length (c_sdus_index st))) = false) as -> by (apply Z.leb_gt; unfold RLC_AM_MAX_SDU_IN_PDU; lia).
    assert ((RLC_AM_MAX_SDU_FRAGMENTS <=? nb_pdus s) = false) as -> by (apply Z.leb_gt; unfold RLC_AM_MAX_SDU_FRAGMENTS; lia).
    cbv zeta. rproj. rewrite u8_small by lia.
    assert ((nb_pdus s + 1 <? RLC_AM_MAX_SDU_FRAGMENTS) = true) as -> by (apply Z.ltb_lt; unfold RLC_AM_MAX_SDU_FRAGMENTS; lia).
    cbn [assert_fatal mbind res_bind fmap list_fmap RlcUmSegment.count_pass]. rewrite HS.
    set (e1 := put_sdu _ _ _). assert (Ee1 : e1 = e <| input_sdus := alter (touch cur) (Z.to_nat i) (input_sdus e) |>).
    { unfold e1, put_sdu, touch. by rewrite (alter_insert _ _ s) by done. }
    destruct cont.
    + set (st2 := upd _ _ st1). assert (Hst2 : um_count (n + 1) d st1 = um_count (n + 1) d st2) by done. rewrite Hst2.
      destruct (IH fuel cur (next_index i) e1 st2 (n + 1) d) as (m & st' & Hm & Hm' & E1 & E2 & E3).
      * apply next_index_range. lia.
      * rewrite Ee1. rproj. rewrite (alter_insert _ _ s) by done. apply ring_insert; [by apply next_index_range; lia|lia|apply apart_self; lia|done].
      * lia.
      * lia.
      * unfold st2. rproj. rewrite HI, length_app. cbn. lia.
      * done.
      * left. apply HF.
      * exists (S m), st'. split; [lia|]. split.
        { rewrite Nat2Z.inj_succ, Hm'. destruct HF as [HF _]. change (test_num_li st2) with (test_num_li st1). lia. }
        rewrite E1, E2, E3, Ee1. rproj. split; [by destruct e|]. split; [f_equal; lia|].
        unfold st2. rproj. rewrite HI, <- app_assoc. done.
    + exists 1%nat, (st1 <| c_sdus_index ::= fun l => l ++ [i] |>). split; [lia|]. split.
      { rewrite lis_counted_flag by (left; rproj; apply HF). destruct HF as [HF1 HF2]. rproj. rewrite HF1, HF2. lia. }
      cbn [mark indices]. split; [by rewrite Ee1|]. split; [by change (Z.of_nat 1) with 1|].
      rproj. by rewrite HI.
Qed.

(** ** The filling pass *)

Definition finished (s : rlc_am_tx_sdu_management_t) : rlc_am_tx_sdu_management_t := s <| sdu_block := None |> <| sdu_remaining_size := 0 |>.

Lemma finished_same s : same_account s (finished s).
Proof. unfold same_account, finished. rproj. split_and!; by try intros []. Qed.

(** The entity with another queue: slots, current slot, bytes and SDUs waiting. *)
Definition with_queue (l : slots) (i b n : Z) (e : rlc_am_entity_t) : rlc_am_entity_t :=
  e <| input_sdus := l |> <| current_sdu_index := i |> <| sdu_buffer_occupancy := b |> <| nb_sdu_no_segmented := n |>.

Lemma with_queue_twice l i b n l' i' b' n' e : with_queue l' i' b' n' (with_queue l i b n e) = with_queue l' i' b' n' e.
Proof. by destruct e. Qed.

Lemma with_queue_self e : with_queue (input_sdus e) (current_sdu_index e) (sdu_buffer_occupancy e) (nb_sdu_no_segmented e) e = e.
Proof. by destruct e. Qed.

Lemma finish_sdu_spec e s size : 0 <= current_sdu_index e < 128 -> input_sdus e !! Z.to_nat (current_sdu_index e) = Some s -> is_Some (sdu_block s) ->
  finish_sdu e size = Ok (with_queue (<[Z.to_nat (current_sdu_index e) := finished s]> (input_sdus e)) (next_index (current_sdu_index e))
                            (sdu_buffer_occupancy e - size) (nb_sdu_no_segmented e - 1) e).
Proof.
  intros Hi E [b B]. unfold finish_sdu, rlc_am_free_in_sdu_data. rewrite (proj2 (Z.leb_le _ _)) by (unfold RLC_AM_SDU_CONTROL_BUFFER_SIZE; lia).
  rewrite (get_slot _ _ s) by (rproj; lia || done). cbn [mbind res_bind]. rewrite B. by destruct e.
Qed.

(** UM's own account of the buffer occupancy has no counterpart here. *)
Definition with_bo (b : Z) (st : fill_state) : fill_state := st <| f_buffer_occupancy := b |>.

Lemma write_li_bo n b st sz st' : write_li n st sz = Ok st' -> write_li n (with_bo b st) sz = Ok (with_bo b st') /\ f_buffer_occupancy st' = f_buffer_occupancy st.
Proof.
  unfold write_li. destruct st as [buf dt li ll nl pr bo la]. cbn -[wr rd Z.lor Z.shiftr Z.shiftl Z.land u8]. destruct (ll =? 2).
  - intros (b1 & E1 & H)%bind_Ok. apply bind_Ok in H as (b2 & E2 & H). injection H as <-. rewrite E1. cbn [mbind res_bind]. by rewrite E2.
  - intros (b0 & E0 & H)%bind_Ok. apply bind_Ok in H as (b1 & E1 & H). apply bind_Ok in H as (b2 & E2 & H). injection H as <-.
    rewrite E0. cbn [mbind res_bind]. rewrite E1. cbn [mbind res_bind]. by rewrite E2.
Qed.

(** What a filling pass leaves in the ring. *)
Record filled (e : rlc_am_entity_t) (q : slots) (sdus : list RlcUm.rlc_um_tx_sdu_t) (used : Z) (l' : slots) (i' n' : Z) (q' : slots) : Prop := {
  fl_ring : ring l' i' q';
  fl_queue : um_sdu <$> q' = sdus;
  fl_accounts : Forall2 same_account (input_sdus e) l';
  fl_index : i' = (current_sdu_index e + (Z.of_nat (length q) - Z.of_nat (length q'))) mod 128;
  fl_count : n' = nb_sdu_no_segmented e - (Z.of_nat (length q) - Z.of_nat (length q'));
  fl_nb : (length q' <= length q)%nat;
  fl_head : tail q' = drop (S (length q - length q')) q;
  fl_range : 0 <= i' < 128
}.

(** The current SDU is sent in part. *)
Lemma filled_partial e s s' q used sdu : 0 <= current_sdu_index e < 128 -> (S (length q) <= 127)%nat ->
  input_sdus e !! Z.to_nat (current_sdu_index e) = Some s -> ring (input_sdus e) (next_index (current_sdu_index e)) q ->
  is_Some (sdu_block s') -> same_account s s' -> um_sdu s' = sdu ->
  filled e (s :: q) (sdu :: (um_sdu <$> q)) used (<[Z.to_nat (current_sdu_index e) := s']> (input_sdus e)) (current_sdu_index e) (nb_sdu_no_segmented e) (s' :: q).
Proof.
  intros Hi Hq Es R Bs Hs Hu. split; try done.
  - cbn [ring]. rewrite list_lookup_insert_eq by by apply (lookup_lt_Some _ _ _ Es). split; [done|]. split; [done|].
    apply ring_insert; [apply next_index_range; lia|lia|apply apart_self; lia|done].
  - cbn. by rewrite Hu.
  - by apply (same_insert _ _ s).
  - cbn. rewrite Z.sub_diag, Z.add_0_r, Z.mod_small; lia.
  - cbn. lia.
  - cbn. by rewrite Nat.sub_diag.
Qed.

(** The current SDU is sent to its end. *)
Lemma filled_whole e s q used : 0 <= current_sdu_index e < 128 -> (S (length q) <= 127)%nat ->
  input_sdus e !! Z.to_nat (current_sdu_index e) = Some s -> ring (input_sdus e) (next_index (current_sdu_index e)) q ->
  filled e (s :: q) (um_sdu <$> q) used (<[Z.to_nat (current_sdu_index e) := finished s]> (input_sdus e)) (next_index (current_sdu_index e))
    (nb_sdu_no_segmented e - 1) q.
Proof.
  intros Hi Hq Es R. split; try done.
  - apply ring_insert; [apply next_index_range; lia|lia|apply apart_self; lia|done].
  - apply (same_insert _ _ s); [done|apply finished_same].
  - rewrite next_index_mod by lia. cbn [length]. do 2 f_equal. lia.
  - cbn [length]. lia.
  - cbn [length]. lia.
  - cbn [length]. replace (S (length q) - length q)%nat with 1%nat by lia. destruct q; [done|]. cbn. by rewrite drop_0.
  - apply next_index_range; lia.
Qed.

(** The current SDU is sent to its end, and the rest of the pass follows. *)
Lemma filled_cons e s q sdus used used' b l' i' n' q' : 0 <= current_sdu_index e < 128 ->
  input_sdus e !! Z.to_nat (current_sdu_index e) = Some s ->
  filled (with_queue (<[Z.to_nat (current_sdu_index e) := finished s]> (input_sdus e)) (next_index (current_sdu_index e)) b (nb_sdu_no_segmented e - 1) e)
    q sdus used l' i' n' q' ->
  filled e (s :: q) sdus used' l' i' n' q'.
Proof.
  intros Hi Es [F1 F2 F3 F4 F5 F6 F7 F8]. unfold with_queue in *. rproj_in F3. rproj_in F4. rproj_in F5. split; try done.
  - etransitivity; [|exact F3]. apply (same_insert _ _ s); [done|apply finished_same].
  - rewrite F4, next_index_mod, Zplus_mod_idemp_l by lia. cbn [length]. f_equal. lia.
  - rewrite F5. cbn [length]. lia.
  - cbn [length]. lia.
  - cbn [length]. by replace (S (length q) - length q')%nat with (S (length q - length q')) by lia.
Qed.

Lemma write_li_num n st sz st' : write_li n st sz = Ok st' -> f_num_li st' = f_num_li st.
Proof.
  unfold write_li. destruct (f_li_length st =? 2).
  - intros (b1 & E1 & H)%bind_Ok. apply bind_Ok in H as (b2 & E2 & H). by injection H as <-.
  - intros (b0 & E0 & H)%bind_Ok. apply bind_Ok in H as (b1 & E1 & H). apply bind_Ok in H as (b2 & E2 & H). by injection H as <-.
Qed.

Lemma fill_pass_um tnl b q : forall fuel e st size sdus fs, 0 <= current_sdu_index e < 128 -> ring (input_sdus e) (current_sdu_index e) q ->
  (length q <= 127)%nat -> (length q <= fuel)%nat -> f_num_li st + Z.of_nat (length q) <= 31 -> 0 <= f_num_li st ->
  Forall (fun s => RlcUmTx.sdu_ok (um_sdu s)) q -> 0 <= f_pdu_remaining_size st ->
  RlcUmSegment.fill_pass tnl (um_sdu <$> q) st = Ok (sdus, fs) ->
  let used := f_buffer_occupancy st - f_buffer_occupancy fs in
  exists l' i' n' q', fill_pass fuel tnl e (with_bo b st) size = Ok (with_queue l' i' (sdu_buffer_occupancy e - used) n' e, with_bo b fs, size + used) /\
    filled e q sdus used l' i' n' q'.
Proof.
  induction q as [|s q IH]; intros fuel e st size sdus fs Hi R Hq Hf Hl Hn Hok Hp E.
  - destruct R as (s & Es & B). cbn in E. injection E as <- <-. cbv zeta. rewrite Z.sub_diag, Z.sub_0_r, Z.add_0_r.
    exists (input_sdus e), (current_sdu_index e), (nb_sdu_no_segmented e), []. split.
    + rewrite with_queue_self. destruct fuel; cbn [fill_pass]; rewrite (get_slot _ _ s) by (lia || done); cbn [mbind res_bind]; by rewrite B.
    + split; try done; [by exists s|cbn; rewrite Z.add_0_r, Z.mod_small; lia|cbn; lia].
  - destruct R as (Es & Bs & R). destruct fuel as [|fuel]; [cbn in Hf; lia|]. cbn [length] in *. apply Forall_cons in Hok as [Ho Hok].
    cbn [fill_pass]. rewrite (get_slot _ _ s) by (lia || done). cbn [mbind res_bind]. pose proof Bs as [bytes B]. rewrite B.
    cbn [fmap list_fmap RlcUmSegment.fill_pass] in E. change (RlcUm.sdu_remaining_size (um_sdu s)) with (sdu_remaining_size s) in E.
    change (RlcUm.sdu_segmented_size (um_sdu s)) with (sdu_segmented_size s) in E. change (RlcUm.sdu_bytes (um_sdu s)) with (default [] (sdu_block s)) in E.
    rewrite B in E. cbn [default from_option id] in E. cbv zeta.
    change (f_pdu_remaining_size (with_bo b st)) with (f_pdu_remaining_size st). change (f_buf (with_bo b st)) with (f_buf st).
    change (f_data (with_bo b st)) with (f_data st). change (f_li_length (with_bo b st)) with (f_li_length st). change (f_num_li (with_bo b st)) with (f_num_li st).
    destruct (f_pdu_remaining_size st <? sdu_remaining_size s) eqn:E1; [|destruct (sdu_remaining_size s =? f_pdu_remaining_size st) eqn:E2;
      [|destruct (sdu_remaining_size s + Z.lxor (f_li_length st) 3 <? f_pdu_remaining_size st) eqn:E3]];
      apply bind_Ok in E as (buf & Ec & E); rewrite Ec; cbn [mbind res_bind].
    + injection E as <- <-. rsimpl.
      set (s' := s <| sdu_remaining_size := _ |> <| sdu_segmented_size ::= _ |>).
      exists (<[Z.to_nat (current_sdu_index e) := s']> (input_sdus e)), (current_sdu_index e), (nb_sdu_no_segmented e), (s' :: q). split.
      * replace (f_buffer_occupancy st - (f_buffer_occupancy st - f_pdu_remaining_size st)) with (f_pdu_remaining_size st) by lia. by destruct e.
      * apply filled_partial; try done.
        { unfold same_account, s'. rproj. split_and!; try done. intros _. split; [done|]. intros _. apply Z.ltb_lt in E1. lia. }
        unfold um_sdu, s'. rproj. unfold upd. cbn. destruct Ho as [? ? ? ? ?]. cbn in *. apply Z.ltb_lt in E1.
        by rewrite !u16_small by lia.
    + injection E as <- <-. rsimpl. replace (f_buffer_occupancy st - (f_buffer_occupancy st - sdu_remaining_size s)) with (sdu_remaining_size s) by lia.
      rewrite (finish_sdu_spec e s) by done. cbn [mbind res_bind]. apply Z.eqb_eq in E2. rewrite <- E2.
      do 4 eexists. split; [reflexivity|]. by apply filled_whole.
    + set (st1 := _ <| f_num_li ::= _ |>) in E. apply bind_Ok in E as (st2 & Ew & E).
      assert ((f_num_li st =? RLC_AM_MAX_SDU_IN_PDU - 1) = false) as -> by (apply Z.eqb_neq; unfold RLC_AM_MAX_SDU_IN_PDU; lia).
      destruct (write_li_bo tnl b st1 _ _ Ew) as [Ew' Hbo]. pose proof (write_li_num _ _ _ _ Ew) as Hnum.
      match goal with |- context [write_li tnl ?x _] => change x with (with_bo b st1) end. rewrite Ew'. cbn [mbind res_bind].
      rewrite (finish_sdu_spec e s) by done. cbn [mbind res_bind]. set (e1 := with_queue _ _ _ _ e).
      set (st3 := _ <| f_buffer_occupancy ::= _ |>) in E. change (_ <| f_pdu_remaining_size := _ |>) with (with_bo b st3).
      apply Z.ltb_lt in E3. destruct (IH fuel e1 st3 (size + sdu_remaining_size s) sdus fs) as (l' & i' & n' & q' & EF & F).
      * unfold e1, with_queue. rproj. apply next_index_range. lia.
      * unfold e1, with_queue. rproj. apply ring_insert; [apply next_index_range; lia|lia|apply apart_self; lia|done].
      * lia.
      * lia.
      * change (f_num_li st3) with (f_num_li st2). rewrite Hnum. change (f_num_li st1) with (f_num_li st + 1). lia.
      * change (f_num_li st3) with (f_num_li st2). rewrite Hnum. change (f_num_li st1) with (f_num_li st + 1). lia.
      * done.
      * unfold st3. rsimpl. lia.
      * done.
      * exists l', i', n', q'. assert (Hu : f_buffer_occupancy st3 = f_buffer_occupancy st - sdu_remaining_size s) by (unfold st3; rsimpl; rewrite Hbo; done).
        rewrite Hu in EF. rewrite EF.
        assert (Hb : sdu_buffer_occupancy e1 = sdu_buffer_occupancy e - sdu_remaining_size s) by (unfold e1, with_queue; by rproj).
        rewrite Hb. unfold e1 at 1. rewrite with_queue_twice. split; [f_equal; f_equal; [f_equal; f_equal; lia|lia]|]. by apply (filled_cons _ _ _ _ _ _ _ _ _ _ _ Hi Es F).
    + injection E as <- <-. rsimpl. replace (f_buffer_occupancy st - (f_buffer_occupancy st - sdu_remaining_size s)) with (sdu_remaining_size s) by lia.
      rewrite (finish_sdu_spec e s) by done. cbn [mbind res_bind].
      do 4 eexists. split; [reflexivity|]. by apply filled_whole.
Qed.

End RlcAmQueue.
