(* ===== verification/RlcAmSegProofs.v ===== *)
(** * RLC AM: what the segmentation puts into a PDU *)

From S2P Require Import Prelude Bits RlcUmEntity RlcUmDar RlcUmReasm RlcUmSegment RlcUmTx RlcAmStatus RlcAmEntity RlcAmReport RlcAmTx RlcAmSegment RlcAmQueue.
Import RlcUmReasm RlcUmSegment RlcUmTx RlcAmStatus RlcAmEntity RlcAmReport RlcAmTx RlcAmSegment RlcAmQueue.

Module RlcAmSegProofs.

(** ** The bytes of a data PDU *)

(** The first byte: D/C, P, FI, E and the high bits of the number. *)
Definition am_b1 (x fi : Z) (e : bool) (s : Z) : Z := 0x80 + 0x20 * x + 8 * fi + (if e then 4 else 0) + s / 256.

(** [x] is the polling bit. *)
Definition am_pdu (x fi : Z) (lis : list Z) (s : Z) (body : list Z) : list Z :=
  am_b1 x fi (negb (length lis =? 0)%nat) s :: s mod 256 :: enc_lis None lis ++ body.

Definition bit (x : Z) : Prop := x = 0 \/ x = 1.

Lemma sn_high s : 0 <= s < RLC_AM_SN_MODULO -> s / 256 = 0 \/ s / 256 = 1 \/ s / 256 = 2 \/ s / 256 = 3.
Proof. unfold RLC_AM_SN_MODULO. intros. div_lia. Qed.

(** The cases of the fields of the first byte. *)
Ltac b1_cases :=
  unfold am_b1;
  repeat match goal with
  | H : bit ?x |- _ => destruct H as [->| ->]
  | H : 0 <= ?fi <= 3 |- _ => let H' := fresh in assert (H' : fi = 0 \/ fi = 1 \/ fi = 2 \/ fi = 3) by lia; clear H; destruct H' as [->|[->|[->| ->]]]
  | H : 0 <= ?s < RLC_AM_SN_MODULO |- _ => let H' := fresh in pose proof (sn_high s H) as H'; clear H; destruct H' as [H'|[H'|[H'|H']]]; rewrite ?H'
  | e : bool |- _ => destruct e
  end.

Lemma poll_set x fi e s : bit x -> 0 <= fi <= 3 -> 0 <= s < RLC_AM_SN_MODULO -> Z.lor (am_b1 x fi e s) 0x20 = am_b1 1 fi e s.
Proof. intros. by b1_cases. Qed.

Lemma poll_clear x fi e s : bit x -> 0 <= fi <= 3 -> 0 <= s < RLC_AM_SN_MODULO -> Z.land (am_b1 x fi e s) 0xDF = am_b1 0 fi e s.
Proof. intros. by b1_cases. Qed.

Lemma built_b1 fi (e : bool) s : 0 <= fi <= 3 -> 0 <= s < RLC_AM_SN_MODULO ->
  Z.lor (Z.lor (Z.lor (Z.shiftl fi 3) (if e then 0x04 else 0)) 0x80) (Z.shiftr s 8) = am_b1 0 fi e s.
Proof. intros. rewrite Z.shiftr_div_pow2 by lia. change (2 ^ 8) with 256. by b1_cases. Qed.

(** ** Polling *)

(** The entity but for the fields polling writes. *)
Definition unpolled (e : rlc_am_entity_t) : rlc_am_entity_t :=
  e <| force_poll := false |> <| c_pdu_without_poll := 0 |> <| c_byte_without_poll := 0 |> <| poll_sn := 0 |> <| t_poll_retransmit := zero_timer |>.
Definition polled (e e' : rlc_am_entity_t) : Prop := unpolled e' = unpolled e.

Lemma unpolled_force f e : unpolled (e <| force_poll ::= f |>) = unpolled e.
Proof. done. Qed.
Lemma unpolled_pdus f e : unpolled (e <| c_pdu_without_poll ::= f |>) = unpolled e.
Proof. done. Qed.
Lemma unpolled_bytes f e : unpolled (e <| c_byte_without_poll ::= f |>) = unpolled e.
Proof. done. Qed.
Lemma unpolled_sn f e : unpolled (e <| poll_sn ::= f |>) = unpolled e.
Proof. done. Qed.
Lemma unpolled_timer f e : unpolled (e <| t_poll_retransmit ::= f |>) = unpolled e.
Proof. done. Qed.

(** Whether a PDU of [n] bytes gets a poll. *)
Definition poll_due (e : rlc_am_entity_t) (n : Z) : bool :=
  (poll_pdu e <=? u32 (c_pdu_without_poll e + 1)) || (poll_byte e <=? u32 (c_byte_without_poll e + n)) ||
  ((sdu_buffer_occupancy e =? 0) && (retrans_num_bytes_to_retransmit e =? 0)) || (vt_s e =? vt_ms e) || force_poll e.

Lemma polling_spec c e b1 n :
  exists e', rlc_am_pdu_polling c e b1 n = (e', if poll_due e n then Z.lor b1 0x20 else Z.land b1 0xDF) /\ polled e e' /\
    (poll_due e n = true -> force_poll e' = false /\ c_pdu_without_poll e' = 0 /\ c_byte_without_poll e' = 0).
Proof.
  unfold rlc_am_pdu_polling. cbv zeta. rproj. fold (poll_due e n). destruct (poll_due e n).
  - eexists. split; [reflexivity|]. unfold rlc_am_start_timer_poll_retransmit. rproj. split; [|done].
    unfold polled. by rewrite unpolled_timer, unpolled_sn, unpolled_bytes, unpolled_pdus, unpolled_force, unpolled_bytes, unpolled_pdus.
  - eexists. split; [reflexivity|]. split; [|done]. unfold polled. by rewrite unpolled_bytes, unpolled_pdus.
Qed.

Lemma poll_block_spec c e x fi (h : bool) s rest n : bit x -> 0 <= fi <= 3 -> 0 <= s < RLC_AM_SN_MODULO ->
  exists e', poll_block c e (am_b1 x fi h s :: rest) n = Ok (e', am_b1 (if poll_due e (s16 n) then 1 else 0) fi h s :: rest) /\ polled e e' /\
    (poll_due e (s16 n) = true -> force_poll e' = false /\ c_pdu_without_poll e' = 0 /\ c_byte_without_poll e' = 0).
Proof.
  intros Hx Hf Hs. destruct (polling_spec c e (am_b1 x fi h s) (s16 n)) as (e' & E & P & Z). exists e'. split; [|done].
  unfold poll_block. change (RlcUmSegment.rd (am_b1 x fi h s :: rest) 0) with (Ok (am_b1 x fi h s)). cbn [mbind res_bind]. rewrite E, wr_0. cbn [mbind res_bind].
  rewrite poll_set, poll_clear by done. by case_match.
Qed.

(** ** The queue of the transmitter *)

Definition slot_ok (s : rlc_am_tx_sdu_management_t) : Prop :=
  0 <= nb_pdus s /\ segmented s = 0 /\ (is_Some (sdu_block s) -> transmitted_successfully s = 0 /\ 1 <= sdu_remaining_size s).

Record tx_queue (e : rlc_am_entity_t) (q : slots) : Prop := {
  tq_len : length (input_sdus e) = 128%nat;
  tq_index : 0 <= current_sdu_index e < 128;
  tq_ring : ring (input_sdus e) (current_sdu_index e) q;
  tq_max : (length q <= 127)%nat;
  tq_next : next_sdu_index e = (current_sdu_index e + Z.of_nat (length q)) mod 128;
  tq_sdus : Forall (fun s => sdu_ok (um_sdu s)) q;
  tq_tail : Forall (fun s => sdu_segmented_size s = 0 /\ nb_pdus s = 0) (tail q);
  tq_slots : Forall slot_ok (input_sdus e);
  tq_bo : sdu_buffer_occupancy e = remaining (um_sdu <$> q);
  tq_n : nb_sdu_no_segmented e = Z.of_nat (length q);
  tq_pdus : length (pdu_retrans_buffer e) = Z.to_nat RLC_AM_SN_MODULO;
  tq_vt_s : 0 <= vt_s e < RLC_AM_SN_MODULO
}.

(** What a transmission leaves alone. *)
Definition tx_frame (e : rlc_am_entity_t) :=
  (vt_a e, vt_ms e, protocol_state e, next_sdu_index e, nb_sdu e, first_retrans_pdu_sn e, pdus_to_mac_layer e,
   poll_pdu e, poll_byte e, retrans_num_bytes_to_retransmit e, status_requested e).

(** The PDU that takes [full] and [p] bytes of [s], with the polling bit [x]. *)
Definition pdu_bytes (x : Z) (q full : list RlcUm.rlc_um_tx_sdu_t) (s : RlcUm.rlc_um_tx_sdu_t) (p vt : Z) (trail : list Z) : list Z :=
  am_pdu x (framing_info (is_first q) (p =? RlcUm.sdu_remaining_size s)) (RlcUm.sdu_remaining_size <$> full) vt
    (RlcUmTx.payload full s p ++ trail).

(** The slot of the transmitted PDU. *)
Definition stored_pdu (bytes : list Z) (at_ : Z) (sdus : list Z) (size n : Z) : rlc_am_tx_data_pdu_management_t :=
  zero_pdu <| pdu_block := Some bytes |> <| payload_at := at_ |> <| sdus_index := sdus |>
    <| header_and_payload_size := size |> <| tx_payload_size := n |> <| retx_count := -1 |>.

(** A PDU was made: [x1] is the polling bit of the stored PDU, [x2] that of the
    copy that is sent. *)
Record emitted (e e' : rlc_am_entity_t) (q q' : slots) (size : Z) (full : list RlcUm.rlc_um_tx_sdu_t) (s : RlcUm.rlc_um_tx_sdu_t)
    (rest : list RlcUm.rlc_um_tx_sdu_t) (p : Z) (trail : list Z) (x1 x2 : Z) : Prop := {
  em_queue : tx_queue e' q';
  em_rest : um_sdu <$> q' = queue_after s p rest;
  em_vt_s : vt_s e' = next_sn (vt_s e);
  em_frame : tx_frame e' = tx_frame e;
  em_bits : bit x1 /\ bit x2;
  em_sent : segmentation_pdu_list e' = segmentation_pdu_list e ++ [mk_tb size (pdu_bytes x2 (um_sdu <$> q) full s p (vt_s e) trail)];
  em_stored : exists at_, pdu_retrans_buffer e' =
    <[Z.to_nat (vt_s e) := stored_pdu (pdu_bytes x1 (um_sdu <$> q) full s p (vt_s e) trail) at_ (indices (S (length full)) (current_sdu_index e))
                             size (remaining full + p)]> (pdu_retrans_buffer e);
  em_forced : force_poll e = true -> x1 = 1;
  em_again : x1 = 1 -> x2 = 1 -> poll_pdu e <= 1 \/ poll_byte e <= u32 (s16 (remaining full + p)) \/
    (sdu_buffer_occupancy e' = 0 /\ retrans_num_bytes_to_retransmit e = 0) \/ vt_s e' = vt_ms e;
  em_forgets : force_poll e = true -> force_poll e' = false;
  em_accounts : exists l, l = mark (vt_s e) (S (length full)) (current_sdu_index e) (input_sdus e) /\ Forall2 same_account l (input_sdus e')
}.

Lemma pdu_bytes_length x q full s p vt trail : Forall sdu_ok full -> sdu_ok s -> 0 <= p <= RlcUm.sdu_remaining_size s ->
  Z.of_nat (length (pdu_bytes x q full s p vt trail)) = 2 + li_cost 1 (length full) + remaining full + p + Z.of_nat (length trail).
Proof.
  intros Hf Hs Hp. unfold pdu_bytes, am_pdu. cbn [length]. rewrite !length_app, !Nat2Z.inj_succ, !Nat2Z.inj_add, payload_length by done.
  rewrite (proj1 (enc_lis_length _)), length_fmap. lia.
Qed.

(** ** The ring after the counting pass *)

Lemma touch_um cur s : um_sdu (touch cur s) = um_sdu s.
Proof. done. Qed.

Lemma mark_length cur m i l : length (mark cur m i l) = length l.
Proof. revert i l. induction m as [|m IH]; intros i l; [done|]. cbn [mark]. by rewrite IH, length_alter. Qed.

Lemma ring_mark cur m : forall i q (l : slots), 0 <= i < 128 -> (m <= length q)%nat -> (length q <= 127)%nat -> ring l i q ->
  ring (mark cur m i l) i ((touch cur <$> take m q) ++ drop m q).
Proof.
  induction m as [|m IH]; intros i q l Hi Hm Hq R; [cbn; by rewrite drop_0|].
  destruct q as [|s q]; [cbn in Hm; lia|]. destruct R as (E & B & R). cbn [length take fmap list_fmap drop app mark] in *.
  assert (R' : ring (alter (touch cur) (Z.to_nat i) l) (next_index i) q).
  { rewrite (alter_insert _ _ s) by done. apply ring_insert; [apply next_index_range; lia|lia|apply apart_self; lia|done]. }
  specialize (IH (next_index i) q _ ltac:(apply next_index_range; lia) ltac:(lia) ltac:(lia) R'). cbn [ring]. split; [|split; [done|exact IH]].
  assert (H : forall m j (l : slots), 0 <= j < 128 -> (m <= 127)%nat -> apart j (m - 1) i -> (mark cur m j l) !! Z.to_nat i = l !! Z.to_nat i).
  { clear - Hi. intros m. induction m as [|m IH]; intros j l Hj Hm Ha; [done|]. cbn [mark].
    assert (Hne : Z.to_nat j <> Z.to_nat i) by (specialize (Ha 0 ltac:(lia)); rewrite Z.add_0_r, Z.mod_small in Ha by lia; lia).
    destruct m as [|m]; [cbn [mark]; by rewrite list_lookup_alter_ne|].
    rewrite IH; [by rewrite list_lookup_alter_ne|apply next_index_range; lia|lia|]. apply apart_next; [lia|]. by replace (S (S m - 1)) with (S (S m) - 1)%nat by lia. }
  rewrite H; [|by apply next_index_range; lia|lia|apply apart_self; lia].
  rewrite (alter_insert _ _ s) by done. by rewrite list_lookup_insert_eq by by apply (lookup_lt_Some _ _ _ E).
Qed.

Lemma mark_slots cur m i l : Forall slot_ok l -> Forall slot_ok (mark cur m i l).
Proof.
  revert i l. induction m as [|m IH]; intros i l Hl; [done|]. cbn [mark]. apply IH. apply Forall_alter; [done|].
  intros s _ (H1 & H2 & H3). unfold slot_ok, touch. rproj. pose proof (u8_range (nb_pdus s + 1)). split_and!; [lia|done|done].
Qed.

Lemma same_slots l l' : Forall2 same_account l l' -> Forall slot_ok l -> Forall slot_ok l'.
Proof.
  induction 1 as [|s s' l l' H _ IH]; [done|]. intros [(H1 & H2 & H3) H4]%Forall_cons. apply Forall_cons. split; [|by apply IH].
  destruct H as (E1 & _ & _ & _ & _ & E2 & E3 & E4). unfold slot_ok. rewrite E1, E2, E3. naive_solver.
Qed.

Lemma ring_slots (l : slots) i q P : ring l i q -> Forall P l -> Forall P q.
Proof.
  revert i. induction q as [|s q IH]; intros i R H; [done|]. destruct R as (E & _ & R). apply Forall_cons. split; [by eapply Forall_lookup_1|by apply (IH _ R)].
Qed.

Lemma count_finish_um n d st : RlcUmSegment.count_finish (um_count n d st) = um_count n d (count_finish st).
Proof.
  unfold RlcUmSegment.count_finish, count_finish.
  change (RlcUmSegment.test_remaining_num_li_to_substract (um_count n d st)) with (test_remaining_num_li_to_substract st). by case_match.
Qed.

(** ** Both passes *)

Definition first_count (size : Z) : count_state := mk_count 0 (size - RLC_AM_HEADER_MIN_SIZE) 1 0 0 (size - RLC_AM_HEADER_MIN_SIZE) [].

(** The bytes the counting pass gives back. *)
Definition gives_back (e : rlc_am_entity_t) (size : Z) : res Z :=
  '(_, st) ← count_pass 33 (vt_s e) (current_sdu_index e) e (first_count size);
  Ok (size - 2 - c_pdu_remaining_size (count_finish st)).

Section Passes.
Context (g : list Z) (e : rlc_am_entity_t) (q : slots) (size : Z).
Context (HQ : tx_queue e q) (Hne : q <> []) (H31 : (length q <= 31)%nat) (Hn : Forall (fun s => nb_pdus s < 31) q).
Context (Hsize : 1 <= size - 2 <= remaining (um_sdu <$> q) + li_cost 1 (length q - 1)).

Definition counted (m : nat) : rlc_am_entity_t := e <| input_sdus := mark (vt_s e) m (current_sdu_index e) (input_sdus e) |>.
Definition touched (m : nat) : slots := (touch (vt_s e) <$> take m q) ++ drop m q.

Lemma touched_um m : um_sdu <$> touched m = um_sdu <$> q.
Proof using Type.
  unfold touched. rewrite fmap_app, <- list_fmap_compose. rewrite <- (take_drop m q) at 3. rewrite fmap_app. f_equal.
Qed.

Lemma touched_length m : length (touched m) = length q.
Proof using Type. unfold touched. by rewrite length_app, length_fmap, <- length_app, take_drop. Qed.

Lemma passes_am : exists full s rest p slack st fs X trail l' i' n' q',
  cut (um_sdu <$> q) 1 (size - 2) full s rest p slack /\
  count_pass 33 (vt_s e) (current_sdu_index e) e (first_count size) = Ok (counted (S (length full)), st) /\ gives_back e size = Ok slack /\
  test_num_li (count_finish st) = Z.of_nat (length full) /\ c_sdus_index (count_finish st) = indices (S (length full)) (current_sdu_index e) /\
  fill_pass (Z.to_nat RLC_AM_SDU_CONTROL_BUFFER_SIZE) (test_num_li (count_finish st)) (counted (S (length full)))
    (mk_fill (fresh_buffer size g) (2 + Z.shiftr (test_num_li (count_finish st) * 3 + 1) 1) 2 1 0 (c_pdu_remaining_size (count_finish st)) 0 false) 0 =
    Ok (with_queue l' i' (sdu_buffer_occupancy e - (remaining full + p)) n' (counted (S (length full))), fs, remaining full + p) /\
  f_buf fs = X ++ enc_lis None (RlcUm.sdu_remaining_size <$> full) ++ RlcUmTx.payload full s p ++ trail /\
  Z.of_nat (length X) = 2 /\ Z.of_nat (length trail) = slack /\ f_num_li fs = Z.of_nat (length full) /\ f_pdu_remaining_size fs = 0 /\
  f_last_byte fs = (p =? RlcUm.sdu_remaining_size s) /\
  filled (counted (S (length full))) (touched (S (length full))) (queue_after s p rest) (remaining full + p) l' i' n' q'.
Proof using HQ Hne H31 Hn Hsize.
  destruct HQ as [Q1 Q2 Q3 Q4 Q5 Q6 Q7 Q8 Q9 Q10 Q11 Q12]. assert (Hne' : um_sdu <$> q <> []) by by destruct q.
  assert (Hok : Forall sdu_ok (um_sdu <$> q)) by by apply Forall_fmap.
  assert (Hr : Forall (fun s => 0 <= nb_pdus s < 31) q).
  { pose proof (ring_slots _ _ _ _ Q3 Q8) as H. rewrite Forall_forall in *. intros x Hx. split; [by apply (H x Hx)|by apply Hn]. }
  destruct (count_pass_um q 33 (vt_s e) (current_sdu_index e) e (first_count size) 0 size Q2 Q3 Q4 ltac:(lia) ltac:(cbn; lia) Hr ltac:(by right))
    as (m & st & Hm & Hm' & Ec & Eu & Ei).
  destruct (passes_spec false 2 (um_sdu <$> q) 0 size g Hok Hne' ltac:(lia)) as (full & s & rest & p & slack & fs & X & trail & C & E & B & HX & HT & Nf & Pf & Of & Lf & _ & N & R);
    [by rewrite length_fmap|]. cbv zeta in *.
  change (count_init (size - 2) size) with (um_count 0 size (first_count size)) in *. rewrite Eu in *. rewrite count_finish_um in *.
  change (RlcUmSegment.test_num_li (um_count _ _ (count_finish st))) with (test_num_li (count_finish st)) in *.
  change (RlcUmSegment.c_pdu_remaining_size (um_count _ _ (count_finish st))) with (c_pdu_remaining_size (count_finish st)) in *.
  assert (m = S (length full)) as ->. { unfold lis_counted in Hm'. rewrite N in Hm'. change (test_num_li (first_count size)) with 0 in Hm'. lia. }
  rewrite <- (touched_um (S (length full))) in E. set (fs0 := mk_fill _ _ _ _ _ _ _ _) in E.
  pose proof (ring_mark (vt_s e) (S (length full)) (current_sdu_index e) q _ Q2 Hm Q4 Q3) as R'. fold (touched (S (length full))) in R'.
  assert (Hrem : 0 <= f_pdu_remaining_size fs0).
  { cbn. rewrite R. destruct C as [Eq Hp _ _ Sz]. rewrite Eq in Hok. apply Forall_app in Hok as [Hok _]. pose proof (remaining_ge full Hok).
    pose proof (li_cost_ge 1 (length full) (or_introl eq_refl)). lia. }
  assert (Hok' : Forall (sdu_ok ∘ um_sdu) (touched (S (length full)))) by (apply Forall_fmap; by rewrite touched_um).
  destruct (fill_pass_um (test_num_li (count_finish st)) 0 (touched (S (length full))) (Z.to_nat RLC_AM_SDU_CONTROL_BUFFER_SIZE) (counted (S (length full)))
    fs0 0 _ _ Q2 R' ltac:(by rewrite touched_length) ltac:(rewrite touched_length; unfold RLC_AM_SDU_CONTROL_BUFFER_SIZE; lia)
    ltac:(rewrite touched_length; cbn; lia) ltac:(done)
    Hok' Hrem E) as (l' & i' & n' & q' & EF & F).
  rewrite Of in EF, F. change (f_buffer_occupancy fs0) with 0 in EF, F. replace (0 - (0 - (remaining full + p))) with (remaining full + p) in EF, F by lia.
  exists full, s, rest, p, slack, st, (with_bo 0 fs), X, trail, l', i', n', q'. split_and!; try done.
  { unfold gives_back. rewrite Ec. step_ok. f_equal. lia. }
  unfold count_finish. case_match; by rewrite ?Ei.
Qed.

End Passes.

(** ** The queue after a PDU *)

Lemma Forall_drop_tail {A} (P : A -> Prop) k (l : list A) : (1 <= k)%nat -> Forall P (tail l) -> Forall P (drop k l).
Proof. intros Hk H. destruct k as [|k]; [lia|]. destruct l as [|x l]; [done|]. cbn in *. by apply Forall_drop. Qed.

Lemma queue_after_sdus full s rest p : Forall sdu_ok (full ++ s :: rest) -> 1 <= p <= RlcUm.sdu_remaining_size s -> Forall sdu_ok (queue_after s p rest).
Proof.
  intros [_ [Hs Hr]%Forall_cons]%Forall_app Hp. unfold queue_after. destruct (Z.eqb_spec p (RlcUm.sdu_remaining_size s)); [done|].
  apply Forall_cons. split; [|done]. apply advance_sdu_ok; [done|lia].
Qed.

Lemma queue_after_remaining s p rest : remaining (queue_after s p rest) = RlcUm.sdu_remaining_size s + remaining rest - p.
Proof.
  unfold queue_after. destruct (Z.eqb_spec p (RlcUm.sdu_remaining_size s)); [lia|]. rewrite remaining_cons. unfold advance_sdu. rsimpl. lia.
Qed.

Lemma queue_after_length s p rest : (length (queue_after s p rest) = length rest \/ length (queue_after s p rest) = S (length rest)).
Proof. unfold queue_after. case_match; [by left|by right]. Qed.

Lemma queue_after_tx e q full s rest p slack l' i' n' q' t : tx_queue e q -> cut (um_sdu <$> q) 1 t full s rest p slack ->
  filled (counted e (S (length full))) (touched e q (S (length full))) (queue_after s p rest) (remaining full + p) l' i' n' q' ->
  forall e', input_sdus e' = l' -> current_sdu_index e' = i' -> sdu_buffer_occupancy e' = sdu_buffer_occupancy e - (remaining full + p) ->
  nb_sdu_no_segmented e' = n' -> next_sdu_index e' = next_sdu_index e -> length (pdu_retrans_buffer e') = length (pdu_retrans_buffer e) ->
  0 <= vt_s e' < RLC_AM_SN_MODULO -> tx_queue e' q'.
Proof.
  intros [Q1 Q2 Q3 Q4 Q5 Q6 Q7 Q8 Q9 Q10 Q11 Q12] [C1 C2 C3 C4 C5] [F1 F2 F3 F4 F5 F6 F7 F8] e' E1 E2 E3 E4 E5 E6 E7.
  unfold counted in *. rproj_in F3. rproj_in F4. rproj_in F5. rewrite touched_length in *.
  assert (Hl : length q = (length full + S (length rest))%nat) by (rewrite <- (length_fmap um_sdu q), C1, length_app; done).
  assert (Hl' : length q' = length rest \/ length q' = S (length rest)) by (rewrite <- (length_fmap um_sdu q'), F2; apply queue_after_length).
  assert (Hok : Forall sdu_ok (full ++ s :: rest)) by (rewrite <- C1; by apply Forall_fmap).
  split.
  - rewrite E1, <- (Forall2_length _ _ _ F3), mark_length. done.
  - rewrite E2. done.
  - by rewrite E1, E2.
  - lia.
  - rewrite E5, Q5, E2, F4, Zplus_mod_idemp_l. f_equal. lia.
  - apply (Forall_fmap um_sdu). rewrite F2. by apply queue_after_sdus with full.
  - rewrite F7. unfold touched. rewrite drop_app, length_fmap, length_take.
    rewrite drop_ge by (rewrite length_fmap, length_take; lia). cbn [app]. rewrite drop_drop. apply Forall_drop_tail; [lia|done].
  - rewrite E1. eapply same_slots; [exact F3|]. by apply mark_slots.
  - rewrite E3, Q9, F2, queue_after_remaining, C1, remaining_app, remaining_cons. lia.
  - rewrite E4, F5, Q10. lia.
  - by rewrite E6.
  - done.
Qed.

(** ** The PDU *)

Lemma tx_pdu_ok e s : length (pdu_retrans_buffer e) = Z.to_nat RLC_AM_SN_MODULO -> 0 <= s < RLC_AM_SN_MODULO ->
  exists q, pdu_retrans_buffer e !! Z.to_nat s = Some q /\ get_pdu e s = Ok q.
Proof.
  intros Hl Hs. destruct (lookup_lt_is_Some_2 (pdu_retrans_buffer e) (Z.to_nat s)) as [q E]; [lia|]. exists q. split; [done|].
  unfold get_pdu. rewrite (proj2 (Z.ltb_ge _ _)) by lia. by rewrite E.
Qed.

Lemma get_put_pdu e s q : length (pdu_retrans_buffer e) = Z.to_nat RLC_AM_SN_MODULO -> 0 <= s < RLC_AM_SN_MODULO -> get_pdu (put_pdu s q e) s = Ok q.
Proof.
  intros Hl Hs. unfold get_pdu, put_pdu. rewrite (proj2 (Z.ltb_ge _ _)) by lia. rproj. by rewrite list_lookup_insert_eq by lia.
Qed.

Lemma framing_range a b : 0 <= framing_info a b <= 3.
Proof. destruct a, b; done. Qed.

(** The copy of a stored PDU. *)
Lemma get_copy_spec c e s q x fi (h : bool) rest : get_pdu e s = Ok q -> pdu_block q = Some (am_b1 x fi h s :: rest) ->
  header_and_payload_size q = 1 + Z.of_nat (length rest) -> bit x -> 0 <= fi <= 3 -> 0 <= s < RLC_AM_SN_MODULO -> RlcUm.mem_block_ok c = true ->
  let e1 := put_pdu s (q <| retransmit := 0 |>) e in
  exists e', rlc_am_retransmit_get_copy c e s =
      Ok (e', Some (mk_tb (header_and_payload_size q) (am_b1 (if poll_due e1 (s16 (tx_payload_size q)) then 1 else 0) fi h s :: rest))) /\ polled e1 e'.
Proof.
  intros Eq Eb Hsz Hx Hf Hs Hm e1. destruct (poll_block_spec c e1 x fi h s rest (tx_payload_size q) Hx Hf Hs) as (e' & E & P & _). exists e'. split; [|done].
  unfold rlc_am_retransmit_get_copy. rewrite Eq. cbn [mbind res_bind]. rewrite Eb, Hm. fold e1.
  rewrite take_ge by (cbn [length]; lia). rewrite E. done.
Qed.

Lemma polling_force c e b1 n : force_poll e = false -> force_poll (fst (rlc_am_pdu_polling c e b1 n)) = false.
Proof. intros H. unfold rlc_am_pdu_polling. cbv zeta. case_match; cbn [fst]; [|done]. unfold rlc_am_start_timer_poll_retransmit. by rproj. Qed.

Lemma get_copy_force c e s e' o : rlc_am_retransmit_get_copy c e s = Ok (e', o) -> force_poll e = false -> force_poll e' = false.
Proof.
  unfold rlc_am_retransmit_get_copy. destruct (get_pdu e s) as [q|]; [|done]. step_ok. destruct (pdu_block q) as [b|]; [|by intros [= <- _]].
  destruct (RlcUm.mem_block_ok c); [|done]. unfold poll_block. destruct (RlcUmSegment.rd _ _) as [b1|]; [|done]. step_ok. set (e1 := put_pdu _ _ e).
  destruct (polling_spec c e1 b1 (s16 (tx_payload_size q))) as (e2 & E & _ & _). rewrite E. intros H Hf.
  assert (H2 : force_poll e2 = false).
  { pose proof (polling_force c e1 b1 (s16 (tx_payload_size q)) Hf) as Hp. by rewrite E in Hp. }
  destruct (wr _ _ _) as [bs|]; [|done]. rewrite !res_bind_Ok in H. by injection H as <- _.
Qed.

Lemma polled_field {A} (f : rlc_am_entity_t -> A) e e' : polled e e' -> (forall r, f (unpolled r) = f r) -> f e' = f e.
Proof. intros H Hf. rewrite <- (Hf e'), <- (Hf e). by rewrite H. Qed.

(** [pfield f H] rewrites the field [f] of a polled entity. *)
Ltac pfield f H := rewrite (polled_field f _ _ H) by done.

Definition queue_step (e : rlc_am_entity_t) (m : nat) (l' : slots) (i' b' n' size : Z) : rlc_am_entity_t :=
  (with_queue l' i' b' n' (counted e m)) <| stat_tx_data_pdu ::= fun n => u32 (n + 1) |> <| stat_tx_data_bytes ::= fun n => u32 (n + size) |>
    <| vt_s := next_sn (vt_s e) |>.

Lemma build_pdu_steps c g e q size : tx_queue e q -> q <> [] -> (length q <= 31)%nat -> Forall (fun s => nb_pdus s < 31) q ->
  1 <= size - 2 <= remaining (um_sdu <$> q) + li_cost 1 (length q - 1) -> size < RLC_SDU_MAX_SIZE ->
  exists full s rest p slack trail l' i' n' q' at_,
    cut (um_sdu <$> q) 1 (size - 2) full s rest p slack /\ (gives_back e size = Ok slack /\ Z.of_nat (length trail) = slack) /\
    filled (counted e (S (length full))) (touched e q (S (length full))) (queue_after s p rest) (remaining full + p) l' i' n' q' /\
    build_pdu c g e size =
      ('(e2, buf) ← poll_block c (queue_step e (S (length full)) l' i' (sdu_buffer_occupancy e - (remaining full + p)) n' size)
                      (pdu_bytes 0 (um_sdu <$> q) full s p (vt_s e) trail) (remaining full + p);
       let e3 := (put_pdu (vt_s e) (stored_pdu buf at_ (indices (S (length full)) (current_sdu_index e)) size (remaining full + p)) e2)
                   <| retrans_num_pdus ::= fun n => n + 1 |> <| retrans_num_bytes ::= fun n => n + size |> in
       '(e4, copy) ← rlc_am_retransmit_get_copy c e3 (vt_s e);
       Ok (match copy with Some tb => e4 <| segmentation_pdu_list ::= fun l => l ++ [tb] |> | None => e4 end)).
Proof.
  intros HQ Hne H31 Hn Hsize Hmax. destruct (passes_am g e q size HQ Hne H31 Hn Hsize)
    as (full & s & rest & p & slack & st & fs & X & trail & l' & i' & n' & q' & C & Ec & Eg & En & Ei & EF & B & HX & HT & Nf & Pf & Lf & F).
  exists full, s, rest, p, slack, trail, l', i', n', q', (2 + Z.shiftr (test_num_li (count_finish st) * 3 + 1) 1).
  do 3 (split; [done|]). pose proof HQ as [Q1 Q2 Q3 Q4 Q5 Q6 Q7 Q8 Q9 Q10 Q11 Q12]. unfold build_pdu. fold (first_count size). cbv zeta. rewrite Ec. step_ok.
  destruct q as [|s0 q0]; [done|]. assert (Hm : (S (length full) <= length (s0 :: q0))%nat).
  { rewrite <- (length_fmap um_sdu), (cut_queue _ _ _ _ _ _ _ _ C), length_app. cbn. lia. }
  pose proof (ring_mark (vt_s e) (S (length full)) _ _ _ Q2 Hm Q4 Q3) as (Eh & _ & _).
  rewrite (get_slot _ _ (touch (vt_s e) s0)) by (unfold counted; rproj; lia || exact Eh). step_ok.
  change (sdu_remaining_size (touch (vt_s e) s0)) with (sdu_remaining_size s0). change (sdu_size (touch (vt_s e) s0)) with (sdu_size s0).
  rewrite EF. step_ok. rewrite Pf, Nf, Ei, Lf, B, Z.sub_0_r. destruct X as [|a [|b [|? X]]]; cbn in HX; try lia.
  cbn [app]. rewrite wr_0. step_ok. rewrite wr_1. step_ok.
  rewrite length_zero_eq, built_b1 by (done || apply framing_range). rewrite (proj2 (Z.ltb_lt _ _)) by done. cbn [assert_fatal]; step_ok.
  assert (Eb : am_b1 0 (framing_info (sdu_remaining_size s0 =? sdu_size s0) (p =? RlcUm.sdu_remaining_size s)) (negb (length full =? 0)%nat) (vt_s e)
     :: Z.land (vt_s e) 255 :: enc_lis None (RlcUm.sdu_remaining_size <$> full) ++ RlcUmTx.payload full s p ++ trail =
     pdu_bytes 0 (um_sdu <$> s0 :: q0) full s p (vt_s e) trail).
  { unfold pdu_bytes, am_pdu. rewrite length_fmap. by rewrite (Z.land_ones (vt_s e) 8 ltac:(lia) : Z.land (vt_s e) 255 = _). }
  rewrite Eb. unfold queue_step, stored_pdu. reflexivity.
Qed.

Lemma next_sn_in_range s : 0 <= next_sn s < RLC_AM_SN_MODULO.
Proof. unfold next_sn, RLC_AM_SN_MASK, RLC_AM_SN_MODULO. change 1023 with (Z.ones 10). rewrite Z.land_ones by lia. apply Z.mod_pos_bound. lia. Qed.

Lemma bit_of (b : bool) : bit (if b then 1 else 0).
Proof. destruct b; [by right|by left]. Qed.

(** A field of the entity after the two polls of a transmission. *)
Ltac chase f P4 P2 e' e3' e3 e1 :=
  unfold e'; rproj; pfield f P4; unfold e3', e3, put_pdu; rproj; pfield f P2; unfold e1, queue_step, with_queue, counted; rproj; reflexivity.

Lemma build_pdu_emitted c g e q size : tx_queue e q -> q <> [] -> (length q <= 31)%nat -> Forall (fun s => nb_pdus s < 31) q -> RlcUm.mem_block_ok c = true ->
  1 <= size - 2 <= remaining (um_sdu <$> q) + li_cost 1 (length q - 1) -> size < RLC_SDU_MAX_SIZE ->
  exists e' q' full s rest p slack trail x1 x2, build_pdu c g e size = Ok e' /\ cut (um_sdu <$> q) 1 (size - 2) full s rest p slack /\
    (gives_back e size = Ok slack /\ Z.of_nat (length trail) = slack) /\ emitted e e' q q' size full s rest p trail x1 x2.
Proof.
  intros HQ Hne H31 Hn Hm Hsize Hmax.
  destruct (build_pdu_steps c g e q size HQ Hne H31 Hn Hsize Hmax) as (full & s & rest & p & slack & trail & l' & i' & n' & q' & at_ & C & HT & F & E).
  pose proof HQ as [Q1 Q2 Q3 Q4 Q5 Q6 Q7 Q8 Q9 Q10 Q11 Q12].
  set (e1 := queue_step _ _ _ _ _ _ _) in E. set (fi := framing_info (is_first (um_sdu <$> q)) (p =? RlcUm.sdu_remaining_size s)).
  set (has := negb (length (RlcUm.sdu_remaining_size <$> full) =? 0)%nat).
  set (body := (vt_s e) mod 256 :: enc_lis None (RlcUm.sdu_remaining_size <$> full) ++ RlcUmTx.payload full s p ++ trail).
  assert (Hb : forall x, pdu_bytes x (um_sdu <$> q) full s p (vt_s e) trail = am_b1 x fi has (vt_s e) :: body) by done.
  assert (Hf : 0 <= fi <= 3) by apply framing_range.
  assert (Hok : Forall sdu_ok (full ++ s :: rest)) by (rewrite <- (cut_queue _ _ _ _ _ _ _ _ C); by apply Forall_fmap).
  apply Forall_app in Hok as [Hfull [Hs _]%Forall_cons].
  assert (Hlen : 1 + Z.of_nat (length body) = size).
  { pose proof (pdu_bytes_length 0 (um_sdu <$> q) full s p (vt_s e) trail Hfull Hs ltac:(destruct C; lia)) as HL. rewrite Hb in HL. cbn [length] in HL. destruct C. lia. }
  destruct (poll_block_spec c e1 0 fi has (vt_s e) body (remaining full + p) (or_introl eq_refl) Hf Q12) as (e2 & E2 & P2 & Z2).
  set (x1 := if poll_due e1 (s16 (remaining full + p)) then 1 else 0) in *. rewrite Hb, E2 in E. rewrite res_bind_Ok in E. cbv beta iota zeta in E.
  set (st := stored_pdu _ _ _ _ _) in E. set (e3 := _ <| retrans_num_bytes ::= _ |>) in E.
  assert (L2 : length (pdu_retrans_buffer e2) = Z.to_nat RLC_AM_SN_MODULO) by (pfield pdu_retrans_buffer P2; unfold e1, queue_step, with_queue, counted; by rproj).
  assert (G3 : get_pdu e3 (vt_s e) = Ok st) by (change (get_pdu e3 (vt_s e)) with (get_pdu (put_pdu (vt_s e) st e2) (vt_s e)); by apply get_put_pdu).
  destruct (get_copy_spec c e3 (vt_s e) st x1 fi has body G3 eq_refl) as (e4 & E4 & P4); [unfold st, stored_pdu; rproj; lia|apply bit_of|done..|].
  change (st <| retransmit := 0 |>) with st in *. set (e3' := put_pdu _ _ e3) in *. rewrite E4 in E. rewrite res_bind_Ok in E. cbv beta iota zeta in E.
  set (x2 := if poll_due _ _ then 1 else 0) in E. set (e' := _ <| segmentation_pdu_list ::= _ |>) in E.
  assert (Hput : pdu_retrans_buffer e' = <[Z.to_nat (vt_s e) := st]> (pdu_retrans_buffer e)).
  { unfold e'. rproj. pfield pdu_retrans_buffer P4. unfold e3', e3, put_pdu. rproj. rewrite list_insert_insert_eq.
    pfield pdu_retrans_buffer P2. unfold e1, queue_step, with_queue, counted. by rproj. }
  assert (Hvt : vt_s e' = next_sn (vt_s e)) by chase vt_s P4 P2 e' e3' e3 e1.
  assert (Hbo : sdu_buffer_occupancy e' = sdu_buffer_occupancy e - (remaining full + p)) by chase sdu_buffer_occupancy P4 P2 e' e3' e3 e1.
  assert (Hin : input_sdus e' = l') by chase input_sdus P4 P2 e' e3' e3 e1.
  exists e', q', full, s, rest, p, slack, trail, x1, x2. split; [exact E|]. do 2 (split; [done|]). split.
  - apply (queue_after_tx e q full s rest p slack l' i' n' q' _ HQ C F).
    + done.
    + chase current_sdu_index P4 P2 e' e3' e3 e1.
    + done.
    + chase nb_sdu_no_segmented P4 P2 e' e3' e3 e1.
    + chase next_sdu_index P4 P2 e' e3' e3 e1.
    + by rewrite Hput, length_insert.
    + rewrite Hvt. apply next_sn_in_range.
  - apply F.
  - done.
  - assert (H4 : tx_frame e4 = tx_frame e3') by (apply (polled_field tx_frame _ _ P4); done).
    assert (H2 : tx_frame e2 = tx_frame e1) by (apply (polled_field tx_frame _ _ P2); done).
    change (tx_frame e') with (tx_frame e4). rewrite H4. change (tx_frame e3') with (tx_frame e2). rewrite H2. done.
  - split; apply bit_of.
  - unfold e'. rproj. assert (segmentation_pdu_list e4 = segmentation_pdu_list e) as ->; [|done].
    pfield segmentation_pdu_list P4. unfold e3', e3, put_pdu. rproj. by pfield segmentation_pdu_list P2.
  - by exists at_.
  - intros Hforce. unfold x1, poll_due. assert (force_poll e1 = true) as -> by done. by rewrite orb_true_r.
  - intros H1 H2. assert (D1 : poll_due e1 (s16 (remaining full + p)) = true) by (unfold x1 in H1; by case_match).
    destruct (Z2 D1) as (Zf & Zp & Zb). assert (D2 : poll_due e3' (s16 (tx_payload_size st)) = true) by (unfold x2 in H2; by case_match).
    change (tx_payload_size st) with (remaining full + p) in D2. unfold poll_due in D2.
    change (poll_pdu e3') with (poll_pdu e2) in D2. change (poll_byte e3') with (poll_byte e2) in D2.
    change (c_pdu_without_poll e3') with (c_pdu_without_poll e2) in D2. change (c_byte_without_poll e3') with (c_byte_without_poll e2) in D2.
    change (force_poll e3') with (force_poll e2) in D2. rewrite Zf, Zp, Zb, !Z.add_0_l in D2.
    assert (Hp : poll_pdu e2 = poll_pdu e /\ poll_byte e2 = poll_byte e) by (split; [by pfield poll_pdu P2|by pfield poll_byte P2]). destruct Hp as [Hp1 Hp2].
    rewrite Hp1, Hp2 in D2. rewrite !orb_true_iff, !andb_true_iff, !Z.leb_le, !Z.eqb_eq in D2.
    assert (V3 : vt_s e3' = vt_s e' /\ vt_ms e3' = vt_ms e /\ sdu_buffer_occupancy e3' = sdu_buffer_occupancy e' /\
                 retrans_num_bytes_to_retransmit e3' = retrans_num_bytes_to_retransmit e).
    { split_and!; [symmetry; unfold e'; rproj; by pfield vt_s P4| |symmetry; unfold e'; rproj; by pfield sdu_buffer_occupancy P4|].
      - change (vt_ms e3') with (vt_ms e2). by pfield vt_ms P2.
      - change (retrans_num_bytes_to_retransmit e3') with (retrans_num_bytes_to_retransmit e2). by pfield retrans_num_bytes_to_retransmit P2. }
    destruct V3 as (V1 & V2 & V3 & V4). rewrite V1, V2, V3, V4 in D2. change (u32 1) with 1 in D2.
    destruct D2 as [[[[D|D]|D]|D]|D]; [left; done|right; left; done|right; right; left; done|right; right; right; done|done].
  - intros Hforce. assert (D1 : poll_due e1 (s16 (remaining full + p)) = true) by (unfold poll_due; assert (force_poll e1 = true) as -> by done; by rewrite orb_true_r).
    exact (get_copy_force _ _ _ _ _ E4 (proj1 (Z2 D1))).
  - eexists. split; [reflexivity|]. rewrite Hin. apply (fl_accounts _ _ _ _ _ _ _ _ F).
Qed.

(** ** [rlc_am_segment_10] *)

Lemma choose_size e q nb : tx_queue e q -> q <> [] -> 2 < nb ->
  let size := choose_pdu_size e nb in 2 < size <= nb /\ size - 2 <= remaining (um_sdu <$> q) + li_cost 1 (length q - 1).
Proof.
  intros [Q1 Q2 Q3 Q4 Q5 Q6 Q7 Q8 Q9 Q10 Q11 Q12] Hne Hnb. unfold choose_pdu_size. cbv zeta. rewrite Q9, Q10.
  assert (Hl : (0 < length q)%nat) by (destruct q; [done|cbn; lia]). rewrite max_li_overhead_eq by done.
  assert (Hr : Z.of_nat (length (um_sdu <$> q)) <= remaining (um_sdu <$> q)) by (apply remaining_ge; by apply Forall_fmap). rewrite length_fmap in Hr.
  pose proof (li_cost_ge 1 (length q - 1) (or_introl eq_refl)). unfold RLC_AM_HEADER_MIN_SIZE.
  destruct (Z.leb_spec (remaining (um_sdu <$> q) + 2 + li_cost 1 (length q - 1)) nb); lia.
Qed.

Theorem segment_emitted c g e q : tx_queue e q -> q <> [] -> (length q <= 31)%nat -> Forall (fun s => nb_pdus s < 31) q -> RlcUm.mem_block_ok c = true ->
  2 < nb_bytes_requested_by_mac e < RLC_SDU_MAX_SIZE ->
  let size := choose_pdu_size e (nb_bytes_requested_by_mac e) in
  exists e' q' full s rest p slack trail x1 x2, rlc_am_segment_10 c g e = Ok e' /\ cut (um_sdu <$> q) 1 (size - 2) full s rest p slack /\
    (gives_back e size = Ok slack /\ Z.of_nat (length trail) = slack) /\ emitted e e' q q' size full s rest p trail x1 x2.
Proof.
  intros HQ Hne H31 Hn Hm Hnb size. pose proof (choose_size e q _ HQ Hne (proj1 Hnb)) as [Hs1 Hs2]. fold size in Hs1, Hs2.
  destruct (build_pdu_emitted c g e q size HQ Hne H31 Hn Hm ltac:(lia) ltac:(lia)) as (e' & q' & full & s & rest & p & slack & trail & x1 & x2 & E & H).
  exists e', q', full, s, rest, p, slack, trail, x1, x2. split; [|done]. destruct HQ as [Q1 Q2 Q3 Q4 Q5 Q6 Q7 Q8 Q9 Q10 Q11 Q12].
  unfold rlc_am_segment_10. destruct q as [|s0 q0]; [done|].
  assert (Hr : Z.of_nat (length (um_sdu <$> s0 :: q0)) <= remaining (um_sdu <$> s0 :: q0)) by (apply remaining_ge; by apply Forall_fmap).
  assert ((sdu_buffer_occupancy e <=? 0) = false) as -> by (apply Z.leb_gt; rewrite Q9; cbn [fmap list_fmap length] in Hr |- *; lia).
  destruct Q3 as (E0 & [b B] & _). rewrite (get_slot e _ s0) by (lia || done). step_ok. rewrite B.
  rewrite (proj2 (Z.leb_gt _ _)) by lia. rewrite Hm. destruct (tx_pdu_ok e (vt_s e) Q11 Q12) as (? & _ & ->). step_ok. exact E.
Qed.

End RlcAmSegProofs.
