(* ===== verification/RlcAmDecode.v ===== *)
(** * RLC AM: a transmitted PDU at the receiver

    The header and the length indicators of a PDU are read as they were
    written, and reassembling it gives back the SDUs and the part of an SDU it
    carries. *)

From S2P Require Import Prelude Bits RlcUmEntity RlcUmDar RlcUmReasm RlcUmSegment RlcUmTx RlcUmPdu RlcUmSem RlcAmStatus RlcAmEntity RlcAmReport RlcAmRx RlcAmRxProofs RlcAmTx RlcAmSegment RlcAmQueue RlcAmSegProofs.
Import RlcUmReasm RlcUmSegment RlcUmTx RlcUmPdu RlcUmSem RlcAmStatus RlcAmEntity RlcAmReport RlcAmRx RlcAmRxProofs RlcAmSegProofs.

Module RlcAmDecode.

(** ** Length indicators *)

(** A fact about bytes, by cases. *)
Lemma byte_forall (P : Z -> bool) : forallb P (Z.of_nat <$> List.seq 0 256) = true -> forall b, 0 <= b < 256 -> P b = true.
Proof.
  intros H b Hb. rewrite forallb_forall in H. apply H. apply list_elem_of_In, list_elem_of_fmap. exists (Z.to_nat b). split; [lia|]. apply elem_of_seq. lia.
Qed.

Lemma li1_arith b1 b2 : 0 <= b1 < 256 -> 0 <= b2 < 256 -> RlcAmRx.li1_of b1 b2 = (b1 mod 128) * 16 + b2 / 16.
Proof.
  intros H1 H2. unfold RlcAmRx.li1_of.
  assert (E1 : Z.land (u16 (Z.shiftl b1 4)) 0x07F0 = (b1 mod 128) * 16).
  { apply Z.eqb_eq. revert b1 H1. apply byte_forall. vm_compute. reflexivity. }
  assert (E2 : Z.land (u8 (Z.shiftr b2 4)) 0x000F = b2 / 16).
  { apply Z.eqb_eq. revert b2 H2. apply byte_forall. vm_compute. reflexivity. }
  rewrite E1, E2. apply (lor_disjoint _ _ 4); [lia|div_lia|]. change (2 ^ 4) with 16. apply Z.mod_mul. lia.
Qed.

Lemma li2_arith b2 b3 : 0 <= b2 < 256 -> 0 <= b3 < 256 -> RlcAmRx.li2_of b2 b3 = (b2 mod 8) * 256 + b3.
Proof.
  intros H1 H2. unfold RlcAmRx.li2_of.
  assert (E1 : Z.land (u16 (Z.shiftl b2 8)) 0x0700 = (b2 mod 8) * 256).
  { apply Z.eqb_eq. revert b2 H1. apply byte_forall. vm_compute. reflexivity. }
  rewrite E1. apply (lor_disjoint _ _ 8); [lia|done|]. change (2 ^ 8) with 256. apply Z.mod_mul. lia.
Qed.

Lemma e1_test b : 0 <= b < 256 -> (Z.land b 0x80 =? 0) = (b <? 128).
Proof. intros H. apply Bool.eqb_prop. revert b H. apply byte_forall. vm_compute. reflexivity. Qed.
Lemma e2_test b : 0 <= b < 256 -> (Z.land b 0x08 =? 0) = (b mod 16 <? 8).
Proof. intros H. apply Bool.eqb_prop. revert b H. apply byte_forall. vm_compute. reflexivity. Qed.

(** Results of the loop are equal when the sums are. *)
Ltac same_sums := match goal with |- Ok (Some (_, ?h, ?s)) = Ok (Some (_, ?h', ?s')) => replace h' with h by lia; replace s' with s by lia end; reflexivity.

Lemma li_loop_enc n : forall fuel lis d acc header sum, (length lis <= n)%nat -> lis <> [] -> Forall li_ok lis ->
  (length acc + length lis <= 32)%nat -> (length lis <= fuel)%nat -> 0 <= sum -> sum + sum_li lis < 2 ^ 15 ->
  exists e_li ll, li_loop fuel (enc_lis None lis ++ d) 1 acc header sum =
      Ok (Some (e_li, ll, acc ++ lis, header + li_cost 1 (length lis), sum + sum_li lis)) /\ (if ll =? 2 then drop 2 e_li else e_li) = d.
Proof.
  induction n as [|n IH]; intros fuel lis d acc header sum Hn Hne HF H32 Hf H0 Hs; [destruct lis; [done|cbn in Hn; lia]|].
  destruct lis as [|a lis]; [done|]. apply Forall_cons in HF as [Ha HF]. unfold li_ok in Ha. destruct fuel as [|fuel]; [cbn in Hf; lia|].
  pose proof (sum_li_bound lis HF) as Hb. cbn [sum_li foldr length] in *. fold (sum_li lis) in *. cbn [li_loop]. change (Z.lxor 1 3) with 2. cbn [Z.eqb Pos.eqb].
  destruct lis as [|b lis].
  - cbn [enc_lis app byte_at lookup list_lookup of_option mbind res_bind]. rewrite (enc_b1 false a Ha), enc_b2.
    assert (B1 : 0 <= 0 + a / 16 < 256) by div_lia. assert (B2 : 0 <= a mod 16 * 16 < 256) by div_lia. rewrite li1_arith, e1_test by done.
    replace ((0 + a / 16) mod 128 * 16 + a mod 16 * 16 / 16) with a by div_lia.
    assert ((RLC_AM_MAX_SDU_IN_PDU <=? Z.of_nat (length acc)) = false) as -> by (apply Z.leb_gt; unfold RLC_AM_MAX_SDU_IN_PDU; cbn in H32; lia).
    rewrite length_app. cbn [length].
    assert ((RLC_AM_MAX_SDU_IN_PDU <? Z.of_nat (length acc + 1)) = false) as -> by (apply Z.ltb_ge; unfold RLC_AM_MAX_SDU_IN_PDU; cbn in H32; lia).
    assert ((0 + a / 16 <? 128) = true) as -> by (apply Z.ltb_lt; div_lia). rewrite s16_small by (cbn in Hs; lia).
    eexists _, 2. split; [cbn [li_cost sum_li foldr]; rewrite lxor13; same_sums|]. done.
  - apply Forall_cons in HF as [Hb2 HF]. unfold li_ok in Hb2. cbn [enc_lis app byte_at lookup list_lookup of_option mbind res_bind].
    rewrite (enc_b1 true a Ha), enc_b2, enc_b3.
    replace (if lis is [] then a mod 16 * 16 else Z.lor (a mod 16 * 16) 8) with
      (if (if lis is [] then false else true) then Z.lor (a mod 16 * 16) 8 else a mod 16 * 16) by by destruct lis.
    rewrite enc_b2' by div_lia. set (more := if lis is [] then false else true).
    set (c1 := 128 + a / 16). set (c2 := a mod 16 * 16 + (if more then 8 else 0) + b / 256).
    assert (B1 : 128 <= c1 < 256) by (unfold c1; div_lia). assert (B2 : 0 <= c2 < 256) by (unfold c2; destruct more; div_lia).
    rewrite li1_arith, e1_test by lia. replace (c1 mod 128 * 16 + c2 / 16) with a by (unfold c1, c2; destruct more; div_lia).
    assert ((RLC_AM_MAX_SDU_IN_PDU <=? Z.of_nat (length acc)) = false) as -> by (apply Z.leb_gt; unfold RLC_AM_MAX_SDU_IN_PDU; cbn in H32; lia).
    rewrite length_app. cbn [length].
    assert ((RLC_AM_MAX_SDU_IN_PDU <? Z.of_nat (length acc + 1)) = false) as -> by (apply Z.ltb_ge; unfold RLC_AM_MAX_SDU_IN_PDU; cbn in H32; lia).
    assert ((c1 <? 128) = false) as -> by (apply Z.ltb_ge; lia). cbn [sum_li foldr] in *. fold (sum_li lis) in *.
    pose proof (sum_li_bound lis HF) as Hb'. rewrite (s16_small (sum + a)) by lia.
    destruct fuel as [|fuel]; [cbn in Hf; lia|]. cbn [li_loop]. change (Z.lxor 2 3) with 1. cbn [Z.eqb Pos.eqb byte_at lookup list_lookup of_option mbind res_bind].
    rewrite li2_arith, e2_test by (lia || div_lia). replace (c2 mod 8 * 256 + b mod 256) with b by (unfold c2; destruct more; div_lia).
    rewrite length_app. cbn [length].
    assert ((RLC_AM_MAX_SDU_IN_PDU <=? Z.of_nat (length acc + 1)) = false) as -> by (apply Z.leb_gt; unfold RLC_AM_MAX_SDU_IN_PDU; cbn in H32; lia).
    rewrite length_app. cbn [length]. rewrite length_app. cbn [length].
    assert ((RLC_AM_MAX_SDU_IN_PDU <? Z.of_nat (length acc + 1 + 1)) = false) as -> by (apply Z.ltb_ge; unfold RLC_AM_MAX_SDU_IN_PDU; cbn in H32; lia).
    assert ((c2 mod 16 <? 8) = negb more) as ->.
    { unfold c2. destruct more; [apply Z.ltb_ge|apply Z.ltb_lt]; div_lia. }
    rewrite (s16_small (sum + a + b)) by lia. cbn [li_cost]. rewrite lxor13, lxor23. destruct lis as [|x lis].
    + cbn [negb more]. eexists _, 1. split; [|reflexivity]. cbn [sum_li foldr enc_lis app drop length li_cost]. rewrite <- app_assoc. same_sums.
    + cbn [negb more]. change (drop 3 (c1 :: c2 :: b mod 256 :: enc_lis None (x :: lis) ++ d)) with (enc_lis None (x :: lis) ++ d).
      destruct (IH fuel (x :: lis) d ((acc ++ [a]) ++ [b]) (header + 2 + 1) (sum + a + b)) as (e_li & ll & E & D);
        [cbn in *; lia|done|done|rewrite !length_app; cbn in *; lia|cbn in *; lia|lia|lia|].
      exists e_li, ll. split; [|done]. rewrite E. rewrite <- !app_assoc. cbn [app length li_cost]. same_sums.
Qed.

(** ** The header *)

Lemma b1_fields x fi (h : bool) s : bit x -> 0 <= fi <= 3 -> 0 <= s < RLC_AM_SN_MODULO ->
  let b := am_b1 x fi h s in
  (Z.shiftr b 7 =? 0) = false /\ Z.land (Z.shiftr b 6) 1 = 0 /\ Z.land (Z.shiftr b 5) 1 = x /\ Z.land (Z.shiftr b 3) 3 = fi /\
  Z.land (Z.shiftr b 2) 1 = (if h then 1 else 0) /\ Z.shiftl (Z.land b 3) 8 = s / 256 * 256.
Proof. intros Hx Hf Hs. cbv zeta. by b1_cases. Qed.

(** The PDU as the receiver sees it. *)
Definition rx_of (x fi : Z) (lis : list Z) (s : Z) (body : list Z) : rx_pdu :=
  let size := Z.of_nat (length body) in
  mk_rx 0 x fi (if (length lis =? 0)%nat then 0 else 1) s 0 0 lis (if sum_li lis <? size then size - sum_li lis else 0) body size
    (2 + li_cost 1 (length lis)) 0.

Lemma decode_pdu x fi lis s body : bit x -> 0 <= fi <= 3 -> 0 <= s < RLC_AM_SN_MODULO -> Forall li_ok lis -> (length lis <= 31)%nat ->
  sum_li lis < 2 ^ 15 -> Z.of_nat (length (am_pdu x fi lis s body)) < 2 ^ 15 ->
  rlc_am_get_data_pdu_infos (am_pdu x fi lis s body) (Z.of_nat (length (am_pdu x fi lis s body))) = Ok (0, Some (rx_of x fi lis s body)).
Proof.
  intros Hx Hf Hs HF H31 Hsum Hlen. unfold am_pdu in *. set (h := negb (length lis =? 0)%nat) in *. set (b1 := am_b1 x fi h s) in *.
  destruct (b1_fields x fi h s Hx Hf Hs) as (F1 & F2 & F3 & F4 & F5 & F6). fold b1 in F1, F2, F3, F4, F5, F6.
  assert (HL : Z.of_nat (length (b1 :: s mod 256 :: enc_lis None lis ++ body)) = 2 + li_cost 1 (length lis) + Z.of_nat (length body)).
  { cbn [length]. rewrite length_app, !Nat2Z.inj_succ, Nat2Z.inj_add, (proj1 (enc_lis_length lis)). lia. }
  rewrite HL in *. pose proof (li_cost_ge 1 (length lis) (or_introl eq_refl)) as Hc. pose proof (sum_li_bound lis HF) as Hb.
  unfold rlc_am_get_data_pdu_infos. cbn [byte_at lookup list_lookup of_option]. step_ok. rewrite F1. step_ok. cbv zeta. rewrite F2, F5. cbn [Z.eqb]. step_ok.
  change (drop 2 (b1 :: s mod 256 :: enc_lis None lis ++ body)) with (enc_lis None lis ++ body). unfold h, rx_of. rewrite F3, F4, F6, (s16_small (2 + _ + _)) by lia.
  replace (s mod 256 + s / 256 * 256) with s by div_lia.
  remember (li_cost 1 (length lis)) as k eqn:Ek. destruct lis as [|a lis].
  - cbn in Ek. subst k. cbn [length Nat.eqb negb Z.eqb]. step_ok. cbn [enc_lis app li_cost sum_li foldr length Nat.eqb]. rewrite s16_small by lia.
    replace (2 + 0 + Z.of_nat (length body) - 2) with (Z.of_nat (length body)) by lia. rewrite (s16_small (_ - 0)) by lia. done.
  - cbn [length Nat.eqb negb]. cbn [Z.eqb].
    destruct (li_loop_enc (length (a :: lis)) 33 (a :: lis) body [] 2 0) as (e_li & ll & E & D); [done|done|done|cbn [length] in *; lia|cbn [length] in *; lia|lia|lia|].
    rewrite E. rewrite (res_bind_Ok _ (Some _)). cbv beta iota. rewrite D. step_ok. rewrite Z.add_0_l.
    rewrite <- Ek. rewrite s16_small by lia. replace (2 + k + Z.of_nat (length body) - (2 + k)) with (Z.of_nat (length body)) by lia.
    cbn [app]. destruct (Z.ltb_spec (sum_li (a :: lis)) (Z.of_nat (length body))); [rewrite s16_small by lia|]; done.
Qed.

(** ** Reassembly *)

(** [cur] is the SDU under construction, [up] what was handed to PDCP. *)
Definition holds (e : rlc_am_entity_t) (cur : list Z) (up : list (list Z)) : Prop :=
  rsm e = (match cur with [] => None | _ => Some cur end, Z.of_nat (length cur), up).

Section Reassembly.
Context (c : protocol_ctxt_t) (Hmem : RlcUm.mem_block_ok c = true).

Lemma reassembly_holds e cur up src len : holds e cur up -> 0 < len <= Z.of_nat (length src) -> Z.of_nat (length cur) + len <= RLC_SDU_MAX_SIZE ->
  exists e', rlc_am_reassembly c e src len = Ok e' /\ holds e' (cur ++ take (Z.to_nat len) src) up.
Proof using Hmem.
  intros H Hl Hm. unfold holds, rsm in H. injection H as H1 H2 H3. unfold rlc_am_reassembly.
  assert (E : match output_sdu_in_construction e with Some buf => Ok (buf, output_sdu_size_to_write e) | None => _ ← assert_fatal (RlcUm.mem_block_ok c); Ok ([], 0) end
            = Ok (cur, Z.of_nat (length cur))).
  { rewrite H1. destruct cur; [by rewrite Hmem|by rewrite H2]. }
  rewrite E. step_ok. rewrite (proj2 (Z.leb_le _ _)) by done. rewrite (proj2 (Z.ltb_ge len 0)) by lia. rewrite (proj2 (Z.ltb_ge (Z.of_nat (length src)) len)) by lia.
  cbn [orb]. eexists. split; [reflexivity|]. unfold holds, rsm. rproj. rewrite Nat2Z.id, take_ge by lia. rewrite H3, length_app, length_take.
  replace (Z.of_nat (length cur + Z.to_nat len `min` length src)) with (Z.of_nat (length cur) + len) by lia.
  destruct (cur ++ take (Z.to_nat len) src) eqn:E'; [|done]. apply app_eq_nil in E' as [_ E']. apply (f_equal length) in E'. rewrite length_take in E'. cbn in E'. lia.
Qed.

Lemma send_holds e cur up : holds e cur up -> exists e', rlc_am_send_sdu e = Ok e' /\ holds e' [] (up ++ match cur with [] => [] | _ => [cur] end).
Proof using Type.
  intros H. unfold holds, rsm in H. injection H as H1 H2 H3. unfold rlc_am_send_sdu. rewrite H1, H2. destruct cur as [|b cur].
  - exists e. split; [done|]. unfold holds, rsm. by rewrite H1, H2, H3, app_nil_r.
  - cbv zeta. rewrite (proj2 (Z.ltb_lt _ _)) by (cbn; lia). eexists. split; [reflexivity|]. unfold holds, rsm. rproj. by rewrite Nat2Z.id, take_ge, H3.
Qed.

(** An SDU comes to its end. *)
Lemma complete_holds e u up d : sdu_ok u -> RlcUm.sdu_size u <= RLC_SDU_MAX_SIZE -> holds e (sent_prefix [u]) up ->
  exists e1 e', rlc_am_reassembly c e (sdu_rest u ++ d) (RlcUm.sdu_remaining_size u) = Ok e1 /\ rlc_am_send_sdu e1 = Ok e' /\
    holds e' [] (up ++ [RlcUm.sdu_bytes u]).
Proof using Hmem.
  intros Hu Hs H. pose proof (sdu_rest_length u Hu) as Hr. pose proof Hu as [L1 L2 L3 L4 L5].
  destruct (reassembly_holds e _ up (sdu_rest u ++ d) (RlcUm.sdu_remaining_size u) H) as (e1 & E1 & H1).
  { rewrite length_app. lia. }
  { cbn [sent_prefix]. rewrite length_take. lia. }
  rewrite take_app_le, take_ge in H1 by lia. cbn [sent_prefix] in H1. rewrite prefix_rest in H1 by done.
  destruct (send_holds e1 _ up H1) as (e' & E' & H'). exists e1, e'. do 2 (split; [done|]).
  destruct (RlcUm.sdu_bytes u) eqn:Eb; [cbn in *; lia|done].
Qed.

Lemma lis_holds full : forall e up d, Forall sdu_ok full -> Forall unsegmented (tail full) -> Forall (fun u => RlcUm.sdu_size u <= RLC_SDU_MAX_SIZE) full ->
  holds e (sent_prefix full) up ->
  exists e', RlcAmRx.reassemble_lis c e (concat (sdu_rest <$> full) ++ d) (RlcUm.sdu_remaining_size <$> full) = Ok (e', d) /\
    holds e' [] (up ++ (RlcUm.sdu_bytes <$> full)).
Proof using Hmem.
  induction full as [|u full IH]; intros e up d Hok Hun Hsz H.
  - exists e. cbn. split; [done|]. by rewrite app_nil_r.
  - apply Forall_cons in Hok as [Hu Hok]. apply Forall_cons in Hsz as [Hus Hsz]. cbn [tail] in Hun.
    cbn [fmap list_fmap concat RlcAmRx.reassemble_lis]. rewrite <- app_assoc.
    destruct (complete_holds e u up (concat (sdu_rest <$> full) ++ d) Hu Hus H) as (e1 & e2 & E1 & E2 & H2). rewrite E1. step_ok. rewrite E2. step_ok.
    pose proof (sdu_rest_length u Hu) as Hr. rewrite drop_app_le, drop_ge by lia. cbn [app].
    destruct (IH e2 (up ++ [RlcUm.sdu_bytes u]) d Hok) as (e' & E' & H'); [by destruct Hun|done|by rewrite unsegmented_prefix by done|].
    exists e'. split; [exact E'|]. by rewrite <- app_assoc in H'.
Qed.

(** The part of [s] that ends the PDU. *)
Lemma last_holds e s p rest up : sdu_ok s -> RlcUm.sdu_size s <= RLC_SDU_MAX_SIZE -> 1 <= p <= RlcUm.sdu_remaining_size s -> Forall unsegmented rest ->
  holds e (sent_prefix [s]) up ->
  exists e', (e ← rlc_am_reassembly c e (take (Z.to_nat p) (sdu_rest s)) p; if p =? RlcUm.sdu_remaining_size s then rlc_am_send_sdu e else Ok e) = Ok e' /\
    holds e' (sent_prefix (queue_after s p rest)) (up ++ if p =? RlcUm.sdu_remaining_size s then [RlcUm.sdu_bytes s] else []).
Proof using Hmem.
  intros Hs Hsz Hp Hun H. pose proof (sdu_rest_length s Hs) as Hr. pose proof Hs as [L1 L2 L3 L4 L5]. unfold queue_after.
  destruct (Z.eqb_spec p (RlcUm.sdu_remaining_size s)) as [->|Hne].
  - destruct (complete_holds e s up [] Hs Hsz H) as (e1 & e' & E1 & E2 & H'). rewrite app_nil_r in E1. rewrite take_ge by lia. rewrite E1. step_ok.
    exists e'. split; [done|]. by rewrite unsegmented_prefix.
  - destruct (reassembly_holds e _ up (take (Z.to_nat p) (sdu_rest s)) p H) as (e1 & E1 & H1).
    { rewrite length_take. lia. }
    { cbn [sent_prefix]. rewrite length_take. lia. }
    rewrite E1. step_ok. exists e1. split; [done|]. rewrite app_nil_r. rewrite take_take, Nat.min_id in H1. cbn [sent_prefix] in H1 |- *.
    unfold advance_sdu. rsimpl. unfold sdu_rest in H1. rewrite Z2Nat.inj_add by lia. by rewrite take_take_drop in H1.
Qed.

Lemma framing_first a b : (Z.land (framing_info a b) 2 =? 0) = a.
Proof using Type. by destruct a, b. Qed.
Lemma framing_last a b : (Z.land (framing_info a b) 1 =? 0) = b.
Proof using Type. by destruct a, b. Qed.

Lemma reassemble_holds e x full s rest p vt up : let q := full ++ s :: rest in
  Forall sdu_ok q -> Forall unsegmented (tail q) -> Forall (fun u => RlcUm.sdu_size u <= RLC_SDU_MAX_SIZE) q -> 1 <= p <= RlcUm.sdu_remaining_size s ->
  holds e (sent_prefix q) up ->
  exists e', rlc_am_reassemble_pdu c e (rx_of x (framing_info (is_first q) (p =? RlcUm.sdu_remaining_size s)) (RlcUm.sdu_remaining_size <$> full) vt (RlcUmTx.payload full s p)) = Ok e' /\
    holds e' (sent_prefix (queue_after s p rest)) (up ++ delivered_by full s p).
Proof using Hmem.
  intros q Hok Hun Hsz Hp H. pose proof Hok as [Hfull [Hs _]%Forall_cons]%Forall_app. pose proof Hsz as [Fsz [Ssz _]%Forall_cons]%Forall_app.
  assert (Hrest : Forall unsegmented rest).
  { unfold q in Hun. destruct full; cbn in Hun; [done|]. apply Forall_app in Hun as [_ Hun]. by apply Forall_cons in Hun as [_ Hun]. }
  unfold rlc_am_reassemble_pdu, rx_of. cbn [rx_fi rx_e payload payload_size li_list hidden_size]. rewrite framing_first, framing_last. cbv zeta.
  assert (H0 : exists e0, (if is_first q then rlc_am_send_sdu e else Ok e) = Ok e0 /\ holds e0 (sent_prefix q) up).
  { destruct (is_first q) eqn:Ef; [|by exists e]. assert (E0 : sent_prefix q = []).
    { unfold is_first, q in *. destruct full as [|u full]; cbn in Ef |- *; apply Z.eqb_eq in Ef; [destruct Hs|apply Forall_cons in Hfull as [[] _]];
        (rewrite (proj2 (Z.eqb_eq _ 0)) || idtac); replace (RlcUm.sdu_segmented_size _) with 0 by lia; done. }
    rewrite E0 in *. destruct (send_holds e [] up H) as (e0 & E1 & H1). exists e0. split; [done|]. by rewrite app_nil_r in H1. }
  destruct H0 as (e0 & E0 & H0). rewrite E0. step_ok. unfold delivered_by. pose proof (payload_length full s p Hfull Hs ltac:(lia)) as HL. rewrite length_fmap.
  destruct full as [|u full].
  - cbn [length Nat.eqb Z.eqb]. rewrite HL. change (remaining [] + p) with p. unfold RlcUmTx.payload. cbn [fmap list_fmap concat app].
    apply last_holds; done.
  - cbn [length Nat.eqb Z.eqb]. rewrite HL. unfold RlcUmTx.payload.
    destruct (lis_holds (u :: full) e0 up (take (Z.to_nat p) (sdu_rest s)) Hfull) as (e1 & E1 & H1); [|done|done|].
    { unfold q in Hun. cbn [app tail] in *. by apply Forall_app in Hun as [Hun _]. }
    rewrite E1. step_ok. unfold remaining. set (rr := sum_li _). rewrite (proj2 (Z.ltb_lt rr (rr + p))) by lia.
    replace (rr + p - rr) with p by lia. rewrite (proj2 (Z.ltb_lt 0 p)) by lia.
    assert (Hus : unsegmented s). { unfold q in Hun. cbn [app tail] in Hun. apply Forall_app in Hun as [_ Hun]. by apply Forall_cons in Hun as [Hun _]. }
    destruct (last_holds e1 s p rest (up ++ (RlcUm.sdu_bytes <$> u :: full)) Hs Ssz Hp Hrest) as (e' & E' & H').
    { rewrite (unsegmented_prefix [s]); [done|by apply Forall_singleton]. }
    exists e'. split; [exact E'|]. by rewrite <- app_assoc in H'.
Qed.

End Reassembly.

End RlcAmDecode.
