(* ===== verification/RlcAmAck.v ===== *)
(** * RLC AM: acknowledgement

    What [rlc_am_ack_pdu] does to the transmission window, to the stored PDUs
    and to the queue of SDUs. Numbers are counted from the start of the entity
    on: PDU [k] has the sequence number [seq k]. *)

From S2P Require Import Prelude RlcUmEntity RlcUmDar RlcUmReasm RlcUmSegment RlcUmTx RlcAmStatus RlcAmEntity RlcAmReport RlcAmRx RlcAmRxProofs RlcAmTx RlcAmSegment RlcAmQueue RlcAmSegProofs.
Import RlcUmSegment RlcUmTx RlcAmStatus RlcAmEntity RlcAmReport RlcAmRxProofs RlcAmTx RlcAmSegment RlcAmQueue RlcAmSegProofs.

Module RlcAmAck.

(** ** SDUs *)

(** A slot without data changes. *)
Lemma ring_free (l : slots) i q j s x : ring l i q -> l !! j = Some s -> sdu_block s = None -> sdu_block x = None -> ring (<[j := x]> l) i q.
Proof.
  intros R Ej Bs Bx. revert i R. induction q as [|u q IH]; intros i R; cbn [ring] in *.
  - destruct R as (u & E & B). destruct (decide (j = Z.to_nat i)) as [->|Hne].
    + exists x. by rewrite list_lookup_insert_eq by by apply (lookup_lt_Some _ _ _ Ej).
    + exists u. by rewrite list_lookup_insert_ne.
  - destruct R as (E & [b B] & R). split; [|split; [by exists b|by apply IH]]. rewrite list_lookup_insert_ne; [done|]. intros ->. congruence.
Qed.

(** A slot changes, but not what it holds. *)
Lemma ring_same (l : slots) q : forall i j s s', 0 <= i < 128 -> (length q <= 127)%nat -> ring l i q -> l !! j = Some s -> um_sdu s' = um_sdu s ->
  sdu_block s' = sdu_block s -> nb_pdus s' = nb_pdus s ->
  exists q', ring (<[j := s']> l) i q' /\ Forall2 (fun u u' => um_sdu u' = um_sdu u /\ nb_pdus u' = nb_pdus u) q q'.
Proof.
  induction q as [|u q IH]; intros i j s s' Hi Hq R Ej Hu Hb Hn; cbn [ring] in *.
  - destruct R as (u & E & B). exists []. split; [|done]. cbn. destruct (decide (j = Z.to_nat i)) as [->|Hne].
    + exists s'. rewrite list_lookup_insert_eq by by apply (lookup_lt_Some _ _ _ Ej). split; [done|]. congruence.
    + exists u. by rewrite list_lookup_insert_ne.
  - destruct R as (E & B & R). cbn [length] in Hq. destruct (decide (j = Z.to_nat i)) as [->|Hne].
    + exists (s' :: q). assert (s = u) as -> by congruence. split.
      * split; [by rewrite list_lookup_insert_eq by by apply (lookup_lt_Some _ _ _ Ej)|]. split; [by rewrite Hb|].
        apply ring_insert; [apply next_index_range; lia|lia|apply apart_self; lia|done].
      * constructor; [done|]. by apply Forall2_same_length_lookup_2; [|intros; simplify_eq].
    + destruct (IH (next_index i) j s s' ltac:(apply next_index_range; lia) ltac:(lia) R Ej Hu Hb Hn) as (q' & R' & F).
      exists (u :: q'). split; [|by constructor]. split; [by rewrite list_lookup_insert_ne|done].
Qed.

(** The entity with other SDU slots, count of SDUs and confirmations. *)
Definition with_sdus (l : slots) (n : Z) (d : list (Z * rlc_tx_status_t)) (e : rlc_am_entity_t) : rlc_am_entity_t :=
  e <| input_sdus := l |> <| nb_sdu := n |> <| data_confs := d |>.

Lemma with_sdus_twice l n d l' n' d' e : with_sdus l' n' d' (with_sdus l n d e) = with_sdus l' n' d' e.
Proof. by destruct e. Qed.

Lemma with_sdus_confs l n d f e : with_sdus l n d (e <| data_confs ::= f |>) = with_sdus l n d e.
Proof. by destruct e. Qed.

Lemma tx_queue_sdus e q l n d q' : tx_queue e q -> length l = 128%nat -> ring l (current_sdu_index e) q' -> Forall slot_ok l ->
  Forall2 (fun u u' => um_sdu u' = um_sdu u /\ nb_pdus u' = nb_pdus u) q q' -> tx_queue (with_sdus l n d e) q' /\ um_sdu <$> q' = um_sdu <$> q.
Proof.
  intros [Q1 Q2 Q3 Q4 Q5 Q6 Q7 Q8 Q9 Q10 Q11 Q12] Hl R Hs F. pose proof (Forall2_length _ _ _ F) as HL.
  assert (Hum : um_sdu <$> q' = um_sdu <$> q).
  { clear - F. induction F as [|u u' q q' [H _] _ IH]; [done|]. cbn. by rewrite H, IH. }
  split; [|done]. unfold with_sdus. split; rproj; try done; rewrite <- ?HL; try done; [| |by rewrite Hum].
  - apply (Forall_fmap um_sdu). rewrite Hum. by apply (Forall_fmap um_sdu).
  - clear - F Q7. destruct F as [|u u' q q' _ F]; [done|]. cbn in *. induction F as [|u1 u1' q q' [H1 H2] _ IH]; [done|].
    apply Forall_cons in Q7 as [[E1 E2] Q7]. constructor; [|by apply IH]. rewrite H2. split; [|done].
    apply (f_equal RlcUm.sdu_segmented_size) in H1. cbn in H1. congruence.
Qed.

Lemma skip_transmitted_ok e q fuel : tx_queue e q -> skip_transmitted fuel e = Ok e.
Proof.
  intros [Q1 Q2 Q3 Q4 Q5 Q6 Q7 Q8 Q9 Q10 Q11 Q12]. assert (E : if current_sdu_index e =? next_sdu_index e then True else
    exists s, get_sdu e (current_sdu_index e) = Ok s /\ transmitted_successfully s = 0).
  { destruct q as [|s q]; cbn [ring length] in *.
    - rewrite Q5, Z.add_0_r, Z.mod_small, Z.eqb_refl by lia. done.
    - destruct Q3 as (E & B & _). destruct (_ =? _); [done|]. exists s. split; [by apply get_slot; [lia|]|].
      eapply Forall_lookup_1 in Q8 as (_ & _ & H); [|exact E]. by apply H. }
  destruct fuel; cbn [skip_transmitted]; destruct (_ =? _); try done; destruct E as (s & -> & H); cbn [mbind res_bind]; by rewrite H.
Qed.

Lemma Forall2_um_refl q : Forall2 (fun u u' => um_sdu u' = um_sdu u /\ nb_pdus u' = nb_pdus u) q q.
Proof. by apply Forall2_same_length_lookup_2; [|intros; simplify_eq]. Qed.

(** An SDU whose data is gone is released. *)
Lemma free_in_sdu_ok e q i s : tx_queue e q -> 0 <= i < 128 -> i <> next_sdu_index e -> input_sdus e !! Z.to_nat i = Some s -> sdu_block s = None ->
  let l' := <[Z.to_nat i := zero_sdu <| transmitted_successfully := 1 |>]> (input_sdus e) in
  rlc_am_free_in_sdu e i = Ok (with_sdus l' (nb_sdu e - 1) (data_confs e) e) /\ tx_queue (with_sdus l' (nb_sdu e - 1) (data_confs e) e) q.
Proof.
  intros HQ Hi Hn Es Bs l'. pose proof HQ as [Q1 Q2 Q3 Q4 Q5 Q6 Q7 Q8 Q9 Q10 Q11 Q12].
  assert (HQ' : tx_queue (with_sdus l' (nb_sdu e - 1) (data_confs e) e) q).
  { apply (tx_queue_sdus e q); [done|by unfold l'; rewrite length_insert|by apply (ring_free _ _ _ _ s)| |apply Forall2_um_refl].
    apply Forall_insert; [done|]. split; [done|]. split; [done|]. by intros [? ?]. }
  split; [|done]. unfold rlc_am_free_in_sdu. rewrite (proj2 (Z.leb_le _ _)) by (unfold RLC_AM_SDU_CONTROL_BUFFER_SIZE; lia).
  rewrite (get_slot e i s) by (lia || done). step_ok. rewrite Bs. cbv zeta.
  set (e1 := put_sdu _ _ _). assert (E1 : e1 = with_sdus l' (nb_sdu e - 1) (data_confs e) e) by (unfold e1, put_sdu, with_sdus; by destruct e).
  rewrite E1. assert (Hc : (current_sdu_index (with_sdus l' (nb_sdu e - 1) (data_confs e) e) =? i) = false).
  { apply Z.eqb_neq. unfold with_sdus. rproj. intros <-. destruct q as [|u q]; cbn [ring length] in *.
    - rewrite Z.add_0_r, Z.mod_small in Q5 by lia. congruence.
    - destruct Q3 as (E & [b B] & _). congruence. }
  rewrite Hc. by apply (skip_transmitted_ok _ q).
Qed.

Lemma confirm_sdus_ok l : forall e q, tx_queue e q -> Forall (fun i => 0 <= i < 128 /\ i <> next_sdu_index e) l ->
  exists l' n d q', confirm_sdus e l = Ok (with_sdus l' n d e) /\ tx_queue (with_sdus l' n d e) q' /\ um_sdu <$> q' = um_sdu <$> q /\
    Forall2 (fun u u' => um_sdu u' = um_sdu u /\ nb_pdus u' = nb_pdus u) q q'.
Proof.
  induction l as [|i l IH]; intros e q HQ Hl.
  - exists (input_sdus e), (nb_sdu e), (data_confs e), q. assert (with_sdus (input_sdus e) (nb_sdu e) (data_confs e) e = e) as -> by by destruct e.
    split; [done|]. split; [done|]. split; [done|apply Forall2_um_refl].
  - apply Forall_cons in Hl as [[Hi Hne] Hl]. pose proof HQ as [Q1 Q2 Q3 Q4 Q5 Q6 Q7 Q8 Q9 Q10 Q11 Q12].
    destruct (lookup_lt_is_Some_2 (input_sdus e) (Z.to_nat i)) as [s Es]; [lia|]. cbn [confirm_sdus].
    rewrite (proj2 (Z.leb_le _ _)) by lia. cbn [assert_fatal]. step_ok. rewrite (proj2 (Z.ltb_lt _ _)) by (unfold RLC_AM_SDU_CONTROL_BUFFER_SIZE; lia).
    cbn [assert_fatal]. step_ok. rewrite (get_slot e i s) by (lia || done). step_ok. cbv zeta. rproj.
    set (s' := s <| nb_pdus_ack ::= _ |>). set (l1 := <[Z.to_nat i := s']> (input_sdus e)).
    assert (E1 : put_sdu i s' e = with_sdus l1 (nb_sdu e) (data_confs e) e) by by destruct e. rewrite E1.
    destruct (ring_same (input_sdus e) q (current_sdu_index e) (Z.to_nat i) s s' Q2 Q4 Q3 Es) as (q1 & R1 & F1); [done..|].
    pose proof (Forall_lookup_1 _ _ _ _ Q8 Es) as Hso.
    assert (HS : Forall slot_ok l1) by by apply Forall_insert.
    destruct (tx_queue_sdus e q l1 (nb_sdu e) (data_confs e) q1 HQ) as [HQ1 U1]; [by unfold l1; rewrite length_insert|done..|].
    set (e1 := with_sdus l1 _ _ e) in *.
    assert (Hstep : exists l2 n2 d2, (if (u8 (nb_pdus_ack s + 1) =? nb_pdus s) && (sdu_remaining_size s =? 0) then
        rlc_am_free_in_sdu (e1 <| data_confs ::= fun l => l ++ [(mui s, RLC_SDU_CONFIRM_YES)] |>) i else Ok e1) = Ok (with_sdus l2 n2 d2 e) /\
        tx_queue (with_sdus l2 n2 d2 e) q1).
    { destruct (_ && _) eqn:Ec.
      - apply andb_true_iff in Ec as [_ Er%Z.eqb_eq]. set (e2 := e1 <| data_confs ::= _ |>).
        assert (HQ2 : tx_queue e2 q1) by (destruct HQ1; unfold e2; split; rproj; done).
        assert (Es2 : input_sdus e2 !! Z.to_nat i = Some s') by (unfold e2, e1, with_sdus; rproj; unfold l1; by rewrite list_lookup_insert_eq by lia).
        assert (Bs : sdu_block s' = None).
        { destruct (sdu_block s') eqn:B; [|done]. destruct Hso as (_ & _ & H). change (sdu_block s') with (sdu_block s) in B. rewrite B in H. destruct H as [_ H]; [done|]. lia. }
        destruct (free_in_sdu_ok e2 q1 i s' HQ2 Hi Hne Es2 Bs) as [E2 HQ3]. rewrite E2. exists (<[Z.to_nat i := zero_sdu <| transmitted_successfully := 1 |>]> (input_sdus e2)), (nb_sdu e2 - 1), (data_confs e2).
        assert (Ew : forall l n d, with_sdus l n d e2 = with_sdus l n d e) by (intros; unfold e2; rewrite with_sdus_confs; apply with_sdus_twice).
        rewrite Ew in HQ3 |- *. done.
      - do 3 eexists. split; [reflexivity|done]. }
    destruct Hstep as (l2 & n2 & d2 & E2 & HQ2). rewrite E2. step_ok.
    destruct (IH (with_sdus l2 n2 d2 e) q1 HQ2) as (l' & n & d & q' & E' & HQ' & U' & F'); [done|]. rewrite with_sdus_twice in E', HQ'.
    exists l', n, d, q'. split; [done|]. split; [done|]. split; [congruence|]. clear - F1 F'. revert q' F'. induction F1 as [|a b q q1 [A1 A2] _ IH]; intros q' F'; [by inversion F'|].
    inversion F' as [|? c ? q2 [B1 B2] F2]; subst. constructor; [split; congruence|by apply IH].
Qed.

(** ** The window *)

Notation buffer := (list rlc_am_tx_data_pdu_management_t).

Definition stored (e : rlc_am_entity_t) (k : Z) : option rlc_am_tx_data_pdu_management_t := pdu_retrans_buffer e !! Z.to_nat (seq k).

Lemma get_stored e k p : stored e k = Some p -> get_pdu e (seq k) = Ok p.
Proof. intros E. unfold get_pdu. pose proof (seq_range k). rewrite (proj2 (Z.ltb_ge _ _)) by lia. unfold stored in E. by rewrite E. Qed.

Lemma stored_put e j q k : length (pdu_retrans_buffer e) = 1024%nat -> Z.abs (j - k) < 1024 ->
  stored (put_pdu (seq j) q e) k = if j =? k then Some q else stored e k.
Proof.
  intros Hl Hk. unfold stored, put_pdu. rproj. pose proof (seq_range j). pose proof (seq_range k). unfold RLC_AM_SN_MODULO in *.
  destruct (Z.eqb_spec j k) as [->|Hne]; [by rewrite list_lookup_insert_eq by lia|]. rewrite list_lookup_insert_ne; [done|]. intros E.
  apply Hne, seq_inj; [done|]. lia.
Qed.

Definition with_window (b : buffer) (f a : Z) (e : rlc_am_entity_t) : rlc_am_entity_t :=
  e <| pdu_retrans_buffer := b |> <| first_retrans_pdu_sn := f |> <| vt_a := a |>.

Lemma with_window_twice b f a b' f' a' e : with_window b' f' a' (with_window b f a e) = with_window b' f' a' e.
Proof. by destruct e. Qed.

(** VT(A) moves past [A] and the acknowledged PDUs that follow it. *)
Lemma advance_ok fuel : forall e A N, 0 <= A < N -> N <= A + 512 -> N - A <= Z.of_nat fuel -> vt_a e = seq A -> vt_s e = seq N ->
  length (pdu_retrans_buffer e) = 1024%nat -> (forall k, A < k <= N -> exists p, stored e k = Some p) ->
  exists b f A', advance_vt_a fuel e = Ok (with_window b f (seq A') e) /\ A < A' <= N /\ length b = 1024%nat /\
    (forall k, A <= k < A' -> b !! Z.to_nat (seq k) = Some zero_pdu) /\ (forall k, A' <= k < A + 1024 -> b !! Z.to_nat (seq k) = stored e k) /\
    (forall k, A < k < A' -> exists p, stored e k = Some p /\ ack p = 1) /\ (A' < N -> exists p, stored e A' = Some p /\ ack p <> 1).
Proof.
  induction fuel as [|fuel IH]; intros e A N HA HN Hf Ea Es Hl Hin; [lia|]. cbn [advance_vt_a]. rewrite Ea.
  destruct (lookup_lt_is_Some_2 (pdu_retrans_buffer e) (Z.to_nat (seq A))) as [p0 E0]; [pose proof (seq_range A); unfold RLC_AM_SN_MODULO in *; lia|].
  rewrite (get_stored e A p0) by done. step_ok. rewrite next_sn_seq. cbv zeta. set (e1 := put_pdu (seq A) zero_pdu e).
  set (e2 := _ <| vt_a := seq (A + 1) |>). set (f2 := first_retrans_pdu_sn e2).
  assert (E2 : e2 = with_window (pdu_retrans_buffer e1) f2 (seq (A + 1)) e) by (unfold f2, e2; case_match; by destruct e). clearbody e2 f2.
  assert (S1 : forall k, A <= k < A + 1024 -> pdu_retrans_buffer e1 !! Z.to_nat (seq k) = if A =? k then Some zero_pdu else stored e k)
    by (intros; apply stored_put; [done|lia]).
  assert (L1 : length (pdu_retrans_buffer e1) = 1024%nat) by (unfold e1, put_pdu; rproj; by rewrite length_insert).
  destruct (Hin (A + 1) ltac:(lia)) as [p1 E1].
  assert (G1 : get_pdu e2 (seq (A + 1)) = Ok p1).
  { apply get_stored. rewrite E2. unfold stored, with_window. rproj. rewrite S1 by lia. by rewrite (proj2 (Z.eqb_neq A (A + 1))) by lia. }
  rewrite G1. step_ok. assert (Es2 : vt_s e2 = seq N) by (rewrite E2; unfold with_window; by rproj). rewrite Es2.
  destruct ((ack p1 =? 1) && negb (seq (A + 1) =? seq N)) eqn:Ec.
  - apply andb_true_iff in Ec as [Ec1%Z.eqb_eq Ec2]. assert (A + 1 < N).
    { destruct (Z.eq_dec (A + 1) N) as [<-|]; [by rewrite Z.eqb_refl in Ec2|lia]. }
    destruct (IH e2 (A + 1) N) as (b & f & A' & E & HA' & Lb & Z1 & Z2 & Z3 & Z4); try lia.
    { rewrite E2. unfold with_window. by rproj. }
    { rewrite E2. unfold with_window. rproj. done. }
    { intros k Hk. destruct (Hin k ltac:(lia)) as [p Ep]. exists p. rewrite E2. unfold stored, with_window. rproj. rewrite S1 by lia.
      by rewrite (proj2 (Z.eqb_neq A k)) by lia. }
    assert (S2 : forall k, A < k < A + 1024 -> stored e2 k = stored e k).
    { intros k Hk. rewrite E2. unfold stored at 1, with_window. rproj. rewrite S1 by lia. by rewrite (proj2 (Z.eqb_neq A k)) by lia. }
    exists b, f, A'. rewrite E, E2, with_window_twice. split; [done|]. split; [lia|]. split; [done|]. split_and!.
    + intros k Hk. destruct (Z.eq_dec k A) as [->|]; [|apply Z1; lia].
      (* the slot of A is the one of A + 1024 *)
      replace (seq A) with (seq (A + 1024)) by (unfold seq, RLC_AM_SN_MODULO; rewrite <- (Z_mod_plus_full A 1 1024); f_equal; lia).
      rewrite Z2 by lia. rewrite E2. unfold stored, with_window. rproj.
      replace (seq (A + 1024)) with (seq A) by (unfold seq, RLC_AM_SN_MODULO; rewrite <- (Z_mod_plus_full A 1 1024); f_equal; lia).
      rewrite S1 by lia. by rewrite Z.eqb_refl.
    + intros k Hk. rewrite Z2 by lia. apply S2. lia.
    + intros k Hk. destruct (Z.eq_dec k (A + 1)) as [->|]; [by exists p1|]. rewrite <- S2 by lia. apply Z3. lia.
    + intros HN'. rewrite <- S2 by lia. by apply Z4.
  - exists (pdu_retrans_buffer e1), f2, (A + 1). rewrite E2. split; [done|]. split; [lia|]. split; [done|]. split_and!.
    + intros k Hk. assert (k = A) as -> by lia. rewrite S1 by lia. by rewrite Z.eqb_refl.
    + intros k Hk. rewrite S1 by lia. by rewrite (proj2 (Z.eqb_neq A k)) by lia.
    + lia.
    + intros HN'. exists p1. split; [done|]. intros Ha. rewrite Ha, Z.eqb_refl in Ec. cbn [andb] in Ec. apply negb_false_iff, Z.eqb_eq, seq_inj in Ec; [lia|].
      unfold RLC_AM_SN_MODULO. lia.
Qed.

(** The search for the next PDU to retransmit ends at VT(S) at the latest. *)
Lemma next_retrans_ok fuel : forall e k N, length (pdu_retrans_buffer e) = 1024%nat -> vt_s e = seq N -> k < N -> N - k <= Z.of_nat fuel ->
  exists s, next_retrans fuel e (seq k) = Ok s.
Proof.
  induction fuel as [|fuel IH]; intros e k N Hl Es Hk Hf; [lia|]. cbn [next_retrans]. rewrite next_sn_seq. cbv zeta.
  destruct (lookup_lt_is_Some_2 (pdu_retrans_buffer e) (Z.to_nat (seq (k + 1)))) as [p E]; [pose proof (seq_range (k + 1)); unfold RLC_AM_SN_MODULO in *; lia|].
  rewrite (get_stored e (k + 1) p) by done. step_ok. destruct (0 <=? retx_count p); [by eexists|]. rewrite Es.
  destruct (Z.eqb_spec (seq (k + 1)) (seq N)); [by eexists|]. apply (IH e (k + 1) N); try done; [|lia]. destruct (Z.eq_dec (k + 1) N) as [E1|]; [by rewrite E1 in *|lia].
Qed.

(** PDUs [A] to [N - 1] are stored until they are acknowledged; [A] is the
    first that is not, and the other slots are empty. No PDU waits for the slot
    the next SDU will be put into. *)
Record tx_window (e : rlc_am_entity_t) (A N : Z) : Prop := {
  tw_range : 0 <= A <= N /\ N <= A + 512;
  tw_vt_a : vt_a e = seq A;
  tw_vt_s : vt_s e = seq N;
  tw_vt_ms : vt_ms e = seq (A + 512);
  tw_len : length (pdu_retrans_buffer e) = 1024%nat;
  tw_in : forall k, A <= k < N -> exists p, stored e k = Some p /\
    (is_Some (pdu_block p) /\ ack p = 0 /\ Forall (fun i => 0 <= i < 128 /\ i <> next_sdu_index e) (sdus_index p) \/ pdu_block p = None /\ ack p = 1);
  tw_first : A < N -> exists p, stored e A = Some p /\ ack p = 0;
  tw_out : forall k, N <= k < A + 1024 -> stored e k = Some zero_pdu
}.

(** What an acknowledgement of PDU [k] does to the window. *)
Record acked (e e' : rlc_am_entity_t) (A A' N k : Z) : Prop := {
  ak_window : tx_window e' A' N;
  ak_moves : A <= A' <= N;
  ak_others : forall j, A' <= j < N -> j <> k -> stored e' j = stored e j;
  ak_passed : forall j, A <= j < A' -> j = k \/ exists p, stored e j = Some p /\ ack p = 1;
  ak_this : A' <= k -> exists p, stored e' k = Some p /\ ack p = 1
}.

(** The window when the slot of [k] has become [qa]. *)
Section Acknowledged.
Context (e e5 : rlc_am_entity_t) (A N k : Z) (qa : rlc_am_tx_data_pdu_management_t).
Context (HW : tx_window e A N) (Hk : A <= k < N) (Hqa : pdu_block qa = None /\ ack qa = 1).
Context (E1 : pdu_retrans_buffer e5 = <[Z.to_nat (seq k) := qa]> (pdu_retrans_buffer e)) (E2 : vt_a e5 = vt_a e) (E3 : vt_s e5 = vt_s e)
  (E4 : vt_ms e5 = vt_ms e) (E5 : next_sdu_index e5 = next_sdu_index e).

Lemma stored5 j : A <= j < A + 1024 -> stored e5 j = if k =? j then Some qa else stored e j.
Proof using HW Hk E1.
  intros Hj. unfold stored at 1. rewrite E1. change (<[Z.to_nat (seq k):=qa]> (pdu_retrans_buffer e)) with (pdu_retrans_buffer (put_pdu (seq k) qa e)).
  apply stored_put; [apply HW|destruct (tw_range _ _ _ HW); lia].
Qed.

Lemma acked_later : k <> A -> acked e e5 A A N k.
Proof using HW Hk Hqa E1 E2 E3 E4 E5.
  intros Hne. destruct HW as [W1 W2 W3 W4 W5 W6 W7 W8]. split; [split|lia| |lia|].
  - done.
  - congruence.
  - congruence.
  - congruence.
  - by rewrite E1, length_insert.
  - intros j Hj. rewrite stored5 by lia. destruct (Z.eqb_spec k j); [exists qa; split; [done|by right]|]. rewrite E5. by apply W6.
  - intros HA. rewrite stored5 by lia. rewrite (proj2 (Z.eqb_neq k A)) by lia. by apply W7.
  - intros j Hj. rewrite stored5 by lia. rewrite (proj2 (Z.eqb_neq k j)) by lia. by apply W8.
  - intros j Hj Hjk. rewrite stored5 by lia. by rewrite (proj2 (Z.eqb_neq k j)) by lia.
  - intros _. exists qa. rewrite stored5 by lia. rewrite Z.eqb_refl. split; [done|apply Hqa].
Qed.

Lemma acked_first : k = A -> exists e6 A', move_window e5 = Ok e6 /\ acked e e6 A A' N k /\
  exists b f a m, e6 = (with_window b f a e5) <| vt_ms := m |> /\ length b = 1024%nat.
Proof using HW Hk Hqa E1 E2 E3 E4 E5.
  intros EA. destruct HW as [W1 W2 W3 W4 W5 W6 W7 W8].
  destruct (advance_ok (Z.to_nat RLC_AM_SN_MODULO) e5 A N) as (b & f & A' & E & HA & Lb & Z1 & Z2 & Z3 & Z4); [lia|lia|unfold RLC_AM_SN_MODULO; lia|congruence|congruence|by rewrite E1, length_insert| |].
  { intros j Hj. rewrite stored5 by lia. rewrite (proj2 (Z.eqb_neq k j)) by lia. destruct (Z.eq_dec j N) as [->|]; [exists zero_pdu; apply W8; lia|].
    destruct (W6 j ltac:(lia)) as (p & Ep & _). by exists p. }
  unfold move_window. rewrite E. step_ok. change (vt_a (with_window b f (seq A') e5)) with (seq A'). rewrite land_mask.
  assert (Hms : seq (seq A' + RLC_AM_WINDOW_SIZE) = seq (A' + 512)) by (unfold seq, RLC_AM_WINDOW_SIZE; by rewrite Zplus_mod_idemp_l). rewrite Hms.
  set (e6 := _ <| vt_ms := _ |>). assert (S6 : forall j, stored e6 j = b !! Z.to_nat (seq j)) by (intros; unfold stored, e6, with_window; by rproj).
  exists e6, A'. split; [done|]. split; [|exists b, f, (seq A'), (seq (A' + 512)); done]. split; [split| | | |].
  - lia.
  - unfold e6, with_window. by rproj.
  - unfold e6, with_window. rproj. congruence.
  - unfold e6. by rproj.
  - unfold e6, with_window. by rproj.
  - intros j Hj. rewrite S6, Z2, stored5 by lia. rewrite (proj2 (Z.eqb_neq k j)) by lia. unfold e6, with_window. rproj. rewrite E5. apply W6. lia.
  - intros HN. destruct (Z4 HN) as (p & Ep & Hp). rewrite stored5 in Ep by lia. rewrite (proj2 (Z.eqb_neq k A')) in Ep by lia. exists p. rewrite S6, Z2, stored5 by lia.
    rewrite (proj2 (Z.eqb_neq k A')) by lia. split; [done|]. destruct (W6 A' ltac:(lia)) as (p' & Ep' & H). rewrite Ep in Ep'. injection Ep' as <-.
    destruct H as [(_ & H & _)|(_ & H)]; [done|congruence].
  - intros j Hj. rewrite S6. destruct (Z.lt_ge_cases j (A + 1024)).
    + rewrite Z2, stored5 by lia. rewrite (proj2 (Z.eqb_neq k j)) by lia. apply W8. lia.
    + replace (seq j) with (seq (j - 1024)) by (unfold seq, RLC_AM_SN_MODULO; rewrite <- (Z_mod_plus_full (j - 1024) 1 1024); f_equal; lia).
      apply Z1. lia.
  - lia.
  - intros j Hj Hjk. rewrite S6, Z2, stored5 by lia. by rewrite (proj2 (Z.eqb_neq k j)) by lia.
  - intros j Hj. destruct (Z.eq_dec j A) as [Ej|]; [left; lia|right]. destruct (Z3 j ltac:(lia)) as (p & Ep & Hp). exists p. rewrite stored5 in Ep by lia.
    by rewrite (proj2 (Z.eqb_neq k j)) in Ep by lia.
  - lia.
Qed.

End Acknowledged.

(** The fields the queue is made of. *)
Definition queue_fields (e : rlc_am_entity_t) :=
  (input_sdus e, current_sdu_index e, next_sdu_index e, sdu_buffer_occupancy e, nb_sdu_no_segmented e, length (pdu_retrans_buffer e), vt_s e).

Lemma tx_queue_fields e e' q : queue_fields e' = queue_fields e -> tx_queue e q -> tx_queue e' q.
Proof.
  unfold queue_fields. intros E [Q1 Q2 Q3 Q4 Q5 Q6 Q7 Q8 Q9 Q10 Q11 Q12]. injection E as E1 E2 E3 E4 E5 E6 E7.
  split; rewrite ?E1, ?E2, ?E3, ?E4, ?E5, ?E6, ?E7; done.
Qed.

Lemma length_put_pdu k q e : length (pdu_retrans_buffer (put_pdu k q e)) = length (pdu_retrans_buffer e).
Proof. unfold put_pdu. rproj. apply length_insert. Qed.

(** ** An acknowledgement *)

Theorem ack_ok e q A N k : tx_queue e q -> tx_window e A N -> A <= k < N ->
  exists e' q' A', rlc_am_ack_pdu e (seq k) = Ok e' /\ tx_queue e' q' /\ um_sdu <$> q' = um_sdu <$> q /\ acked e e' A A' N k /\
    Forall2 (fun u u' => um_sdu u' = um_sdu u /\ nb_pdus u' = nb_pdus u) q q'.
Proof.
  intros HQ HW Hk. pose proof HW as [W1 W2 W3 W4 W5 W6 W7 W8]. destruct (W6 k Hk) as (p & Ep & Hp).
  unfold rlc_am_ack_pdu. rewrite (get_stored e k p) by done. step_ok. rproj. destruct Hp as [([b B] & Ha & HF)|[B Ha]]; rewrite B; cbv zeta; rproj.
  - rewrite Ha. cbn [Z.eqb].
    set (e1 := put_pdu (seq k) _ e). set (e2 := _ <| retrans_num_bytes ::= _ |>). set (e3 := if 0 <=? _ then _ else _).
    assert (HQ3 : tx_queue e3 q).
    { apply (tx_queue_fields e); [|done]. transitivity (queue_fields e1); [unfold e3, e2; by case_match|]. unfold queue_fields.
      unfold e1. rewrite length_put_pdu. done. }
    assert (HF3 : Forall (fun i => 0 <= i < 128 /\ i <> next_sdu_index e3) (sdus_index p)) by (unfold e3, e2, e1; by case_match).
    destruct (confirm_sdus_ok (sdus_index p) e3 q HQ3 HF3) as (l' & n & d & q' & E4 & HQ4 & U & F). rewrite E4. step_ok. set (e4 := with_sdus l' n d e3) in *.
    set (qa := p <| retransmit := 0 |> <| pdu_block := None |> <| ack := 1 |>). set (e5 := put_pdu (seq k) qa e4).
    assert (B5 : pdu_retrans_buffer e5 = <[Z.to_nat (seq k) := qa]> (pdu_retrans_buffer e)).
    { unfold e5, put_pdu. rproj. assert (pdu_retrans_buffer e4 = pdu_retrans_buffer e1) as -> by (unfold e4, with_sdus, e3, e2; by case_match).
      unfold e1, put_pdu. rproj. apply list_insert_insert_eq. }
    assert (V5 : vt_a e5 = vt_a e /\ vt_s e5 = vt_s e /\ vt_ms e5 = vt_ms e /\ next_sdu_index e5 = next_sdu_index e) by (unfold e5, e4, with_sdus, e3, e2, e1; by case_match).
    destruct V5 as (V1 & V2 & V3 & V4). assert (Hqa : pdu_block qa = None /\ ack qa = 1) by done.
    assert (HQ5 : tx_queue e5 q') by (apply (tx_queue_fields e4); [unfold queue_fields, e5; by rewrite length_put_pdu|done]).
    clearbody e4 e5. clear E4 HQ4.
    assert (H6 : exists e6 A', (if seq k =? vt_a e5 then move_window e5 else Ok e5) = Ok e6 /\ acked e e6 A A' N k /\ tx_queue e6 q').
    { rewrite V1, W2. destruct (Z.eqb_spec (seq k) (seq A)) as [Es|Es].
      - apply seq_inj in Es; [|unfold RLC_AM_SN_MODULO; lia].
        destruct (acked_first e e5 A N k qa HW Hk Hqa B5 V1 V2 V3 V4 Es) as (e6 & A' & E6 & HA & b' & f & a & m & E6' & Lb). exists e6, A'. split; [done|]. split; [done|].
        apply (tx_queue_fields e5); [|done]. rewrite E6'. unfold queue_fields, with_window. rproj. rewrite Lb, B5, length_insert, W5. done.
      - exists e5, A. split; [done|]. split; [|done]. apply (acked_later e e5 A N k qa HW Hk Hqa B5 V1 V2 V3 V4). intros ->. done. }
    destruct H6 as (e6 & A' & E6 & HA & HQ6). rewrite E6. step_ok. destruct (Z.eqb_spec (seq k) (first_retrans_pdu_sn e6)) as [Ef|]; [|by exists e6, q', A'].
    rewrite <- Ef. destruct (next_retrans_ok (Z.to_nat RLC_AM_SN_MODULO) e6 k N) as [s Es]; [apply HA|apply HA|lia|unfold RLC_AM_SN_MODULO; lia|].
    rewrite Es. step_ok. eexists _, q', A'. split; [reflexivity|]. split; [by apply (tx_queue_fields e6)|]. split; [done|]. split; [|done].
    destruct HA as [[X1 X2 X3 X4 X5 X6 X7 X8] Y1 Y2 Y3 Y4]. by split; [split|..].
  - rewrite Ha. cbn [Z.ltb Z.compare andb]. set (qa := p <| retransmit := 0 |>). set (e5 := put_pdu (seq k) qa e).
    assert (HkA : k <> A). { intros ->. destruct (W7 ltac:(lia)) as (p' & Ep' & Hp'). rewrite Ep in Ep'. injection Ep' as <-. lia. }
    change (vt_a e5) with (vt_a e). rewrite W2, (proj2 (Z.eqb_neq _ _)); [|intros E; apply HkA, seq_inj; [unfold RLC_AM_SN_MODULO; lia|done]].
    exists e5, q, A. split; [done|]. split; [apply (tx_queue_fields e); [unfold queue_fields, e5; by rewrite length_put_pdu|done]|]. split; [done|].
    split; [|apply Forall2_um_refl]. apply (acked_later e e5 A N k qa HW Hk); done.
Qed.

End RlcAmAck.
