(* ===== verification/RlcAmStream.v ===== *)
(** * RLC AM: the stream of PDUs of a transmitter

    A transmitter cuts its queue into PDUs; [desc] says what a PDU carries. The
    receiver that has the first PDUs of the stream in order has handed up
    exactly the SDUs that end in them. *)

From S2P Require Import Prelude RlcUmEntity RlcUmDar RlcUmReasm RlcUmSegment RlcUmTx RlcUmSem RlcAmStatus RlcAmEntity RlcAmReport RlcAmRx RlcAmRxProofs RlcAmTx RlcAmSegment RlcAmQueue RlcAmSegProofs RlcAmDecode.
Import RlcUmReasm RlcUmSegment RlcUmTx RlcUmSem RlcAmStatus RlcAmEntity RlcAmReport RlcAmRx RlcAmRxProofs RlcAmSegProofs RlcAmDecode.

Module RlcAmStream.

Notation um_sdus := (list RlcUm.rlc_um_tx_sdu_t).

(** ** What a PDU carries *)

Record desc : Type := mk_desc { d_full : um_sdus; d_sdu : RlcUm.rlc_um_tx_sdu_t; d_rest : um_sdus; d_bytes_of_sdu : Z }.

(** The queue before and after. *)
Definition d_queue (d : desc) : um_sdus := d_full d ++ d_sdu d :: d_rest d.
Definition d_after (d : desc) : um_sdus := queue_after (d_sdu d) (d_bytes_of_sdu d) (d_rest d).
Definition d_out (d : desc) : list (list Z) := delivered_by (d_full d) (d_sdu d) (d_bytes_of_sdu d).

(** The bytes of PDU [k], with the polling bit [x]. *)
Definition d_bytes (x k : Z) (d : desc) : list Z := pdu_bytes x (d_queue d) (d_full d) (d_sdu d) (d_bytes_of_sdu d) (seq k) [].
Definition d_size (d : desc) : Z := 2 + li_cost 1 (length (d_full d)) + remaining (d_full d) + d_bytes_of_sdu d.

Definition sdu_fits (u : RlcUm.rlc_um_tx_sdu_t) : Prop := RlcUm.sdu_size u <= 2047.

Record desc_ok (d : desc) : Prop := {
  do_sdus : Forall sdu_ok (d_queue d);
  do_tail : Forall unsegmented (tail (d_queue d));
  do_fits : Forall sdu_fits (d_queue d);
  do_part : 1 <= d_bytes_of_sdu d <= RlcUm.sdu_remaining_size (d_sdu d);
  do_lis : (length (d_full d) <= 31)%nat;
  do_size : d_size d < RLC_SDU_MAX_SIZE
}.

Lemma do_parts d : desc_ok d -> Forall sdu_ok (d_full d) /\ sdu_ok (d_sdu d).
Proof. intros [H _ _ _ _ _]. by apply Forall_app in H as [? [? _]%Forall_cons]. Qed.

Lemma d_bytes_length x k d : desc_ok d -> Z.of_nat (length (d_bytes x k d)) = d_size d.
Proof.
  intros H. destruct (do_parts d H) as [Hf Hs]. unfold d_bytes. rewrite pdu_bytes_length by (done || destruct (do_part d H); lia). unfold d_size. cbn. lia.
Qed.

(** The PDU at the receiver. *)
Definition d_rx (x k : Z) (d : desc) : rx_pdu :=
  rx_of x (framing_info (is_first (d_queue d)) (d_bytes_of_sdu d =? RlcUm.sdu_remaining_size (d_sdu d))) (RlcUm.sdu_remaining_size <$> d_full d) (seq k)
    (RlcUmTx.payload (d_full d) (d_sdu d) (d_bytes_of_sdu d)).

Lemma d_lis d : desc_ok d -> Forall li_ok (RlcUm.sdu_remaining_size <$> d_full d).
Proof.
  intros H. destruct (do_parts d H) as [Hf _]. apply Forall_fmap. pose proof (do_fits d H) as [Hz _]%Forall_app. unfold compose.
  rewrite Forall_forall in *. intros u Hu. specialize (Hf u Hu). specialize (Hz u Hu). destruct Hf. unfold li_ok, sdu_fits in *. lia.
Qed.

Lemma d_decode x k d : desc_ok d -> bit x -> rlc_am_get_data_pdu_infos (d_bytes x k d) (u16 (d_size d)) = Ok (0, Some (d_rx x k d)).
Proof.
  intros H Hx. pose proof (d_bytes_length x k d H) as HL. pose proof (do_size d H) as Hs. unfold RLC_SDU_MAX_SIZE in Hs. rewrite u16_small by lia. rewrite <- HL.
  unfold d_bytes, pdu_bytes, d_rx in *. rewrite app_nil_r in *. pose proof (d_lis d H) as Hl. destruct (do_parts d H) as [Hf Hu].
  apply decode_pdu; [done|apply framing_range|apply seq_range|done|rewrite length_fmap; apply H| |lia].
  fold (remaining (d_full d)). unfold d_size in Hs. pose proof (li_cost_ge 1 (length (d_full d)) (or_introl eq_refl)). destruct (do_part d H). lia.
Qed.

(** ** The stream *)

Fixpoint last_prefix (pre : list Z) (ds : list desc) : list Z :=
  match ds with [] => pre | d :: rest => last_prefix (sent_prefix (d_after d)) rest end.

(** Each PDU goes on where the one before it ended. *)
Fixpoint chained (pre : list Z) (ds : list desc) : Prop :=
  match ds with [] => True | d :: rest => desc_ok d /\ sent_prefix (d_queue d) = pre /\ chained (sent_prefix (d_after d)) rest end.

Lemma last_prefix_snoc pre ds d : last_prefix pre (ds ++ [d]) = sent_prefix (d_after d).
Proof. revert pre. induction ds as [|x ds IH]; intros pre; [done|]. cbn. apply IH. Qed.

Lemma chained_snoc pre ds d : chained pre ds -> desc_ok d -> sent_prefix (d_queue d) = last_prefix pre ds -> chained pre (ds ++ [d]).
Proof.
  revert pre. induction ds as [|x ds IH]; intros pre H Hd Hp; [done|]. destruct H as (H1 & H2 & H3). split; [done|]. split; [done|]. by apply IH.
Qed.

Lemma chained_lookup pre ds k d : chained pre ds -> ds !! k = Some d -> desc_ok d /\ sent_prefix (d_queue d) = last_prefix pre (take k ds).
Proof.
  revert pre k. induction ds as [|x ds IH]; intros pre [|k] H Hk; try done; destruct H as (H1 & H2 & H3); cbn in Hk.
  - injection Hk as <-. done.
  - cbn. by apply IH.
Qed.

(** A PDU of one byte without a beginning or an end of an SDU: the numbers the
    stream has not reached. *)
Definition filler (x k : Z) : rx_pdu := mk_rx 0 x 3 0 (seq k) 0 0 [] 1 [0] 1 2 0.

Definition stream (x : Z -> Z) (ds : list desc) (k : Z) : rx_pdu :=
  match ds !! Z.to_nat k with Some d => d_rx (x k) k d | None => filler (x k) k end.

Lemma stream_known x ds : forall k, 0 <= k -> sn (stream x ds k) = seq k /\ rx_rf (stream x ds k) = 0.
Proof. intros k _. unfold stream. by destruct (ds !! Z.to_nat k). Qed.

Lemma stream_poll x ds k : rx_p (stream x ds k) = x k.
Proof. unfold stream. by destruct (ds !! Z.to_nat k). Qed.

Lemma filler_ok c e x k : RlcUm.mem_block_ok c = true -> exists e', rlc_am_reassemble_pdu c e (filler x k) = Ok e'.
Proof.
  intros Hc. unfold rlc_am_reassemble_pdu, filler. cbn [rx_fi rx_e payload payload_size]. change (Z.land 3 2 =? 0) with false. change (Z.land 3 1 =? 0) with false.
  cbv zeta iota. step_ok. cbn [Z.eqb]. unfold rlc_am_reassembly. rewrite Hc. cbn [assert_fatal length].
  destruct (output_sdu_in_construction e); rewrite ?res_bind_Ok; (destruct (_ <=? RLC_SDU_MAX_SIZE); by eexists).
Qed.

Section InOrder.
Context (x : Z -> Z) (ds : list desc) (Hds : chained [] ds) (c0 : protocol_ctxt_t) (Hc0 : RlcUm.mem_block_ok c0 = true) (e0 : rlc_am_entity_t) (H0 : holds e0 [] []).

Lemma stream_in_order n : exists f, in_order (stream x ds) c0 e0 n = Ok f /\
  ((n <= length ds)%nat -> holds f (last_prefix [] (take n ds)) (concat (d_out <$> take n ds))).
Proof using Hds Hc0 H0.
  induction n as [|n (f & Ef & Hf)]; [exists e0; by rewrite take_0|]. cbn [in_order]. rewrite Ef. step_ok.
  destruct (ds !! n) as [d|] eqn:E.
  - destruct (chained_lookup _ _ _ _ Hds E) as [Hd Hp]. pose proof (lookup_lt_Some _ _ _ E) as Hl. specialize (Hf ltac:(lia)). rewrite <- Hp in Hf.
    unfold stream. rewrite Nat2Z.id, E. destruct Hd as [D1 D2 D3 D4 D5 D6].
    destruct (reassemble_holds c0 Hc0 f (x (Z.of_nat n)) (d_full d) (d_sdu d) (d_rest d) (d_bytes_of_sdu d) (seq (Z.of_nat n)) (concat (d_out <$> take n ds)) D1 D2) as (f' & Ef' & Hf');
      [|done|exact Hf|].
    { eapply Forall_impl; [exact D3|]. unfold sdu_fits, RLC_SDU_MAX_SIZE. lia. }
    exists f'. split; [exact Ef'|]. intros _. erewrite take_S_r by done. rewrite last_prefix_snoc, fmap_app, concat_app. cbn [fmap list_fmap concat]. by rewrite app_nil_r.
  - unfold stream. rewrite Nat2Z.id, E. destruct (filler_ok c0 f (x (Z.of_nat n)) (Z.of_nat n) Hc0) as [f' Ef']. exists f'. split; [done|].
    apply lookup_ge_None in E. lia.
Qed.

Lemma stream_ord : forall n, exists f, in_order (stream x ds) c0 e0 n = Ok f.
Proof using Hds Hc0 H0. intros n. destruct (stream_in_order n) as (f & Ef & _). by exists f. Qed.

End InOrder.

(** Only the PDUs that have arrived matter. *)
Lemma in_order_ext P P' c e n : (forall k, 0 <= k < Z.of_nat n -> P' k = P k) -> in_order P' c e n = in_order P c e n.
Proof.
  induction n as [|n IH]; intros H; [done|]. cbn [in_order]. rewrite IH by (intros; apply H; lia). by rewrite H by lia.
Qed.

Lemma rx_inv_ext P P' c e0 a e : (forall k, k ∈ a -> P' k = P k) -> rx_inv P c e0 a e -> rx_inv P' c e0 a e.
Proof.
  intros H (r & h & ks & Hf & Hh & Hle & Er & Em & Eh & Hi & Hks & Eb & f & Ef & Hr). exists r, h, ks. do 8 (split; [done|]). split.
  - rewrite Eb. apply list_fmap_ext. intros i j Hj. unfold buffered. rewrite H; [done|]. apply Hks. by eapply list_elem_of_lookup_2.
  - exists f. split; [|done]. rewrite <- Ef. apply in_order_ext. intros k Hk. apply H. destruct Hf as (_ & _ & Hf). apply Hf. lia.
Qed.

End RlcAmStream.
