(* ===== verification/RlcAmLink.v ===== *)
(** * RLC AM: a transmitter and a receiver

    The functions of a transmitting entity that take SDUs, make PDUs, copy them
    for retransmission and process acknowledgements, and the reception of data
    PDUs, are composed over a channel that loses, repeats and reorders. *)

From S2P Require Import Prelude RlcUmEntity RlcUmDar RlcUmReasm RlcUmSegment RlcUmTx RlcUmSem RlcAmStatus RlcAmEntity RlcAmReport RlcAmRx RlcAmRxProofs RlcAmTx RlcAmSegment RlcAmRetransmit RlcAmQueue RlcAmSegProofs RlcAmDecode RlcAmAck RlcAmStream.
Import RlcUmReasm RlcUmSegment RlcUmTx RlcUmSem RlcAmStatus RlcAmEntity RlcAmReport RlcAmRx RlcAmRxProofs RlcAmTx RlcAmSegment RlcAmRetransmit RlcAmQueue RlcAmSegProofs RlcAmDecode RlcAmAck RlcAmStream.

Module RlcAmLink.

(** ** A new SDU *)

(** The slot after the one the next SDU is put into holds no data, and no PDU
    that is not acknowledged has a part of its SDU. *)
Definition room (e : rlc_am_entity_t) : bool :=
  let i := next_index (next_sdu_index e) in
  match get_sdu e i with Ok s => match sdu_block s with None => true | Some _ => false end | Fault _ => false end &&
  forallb (fun p => negb (ack p =? 0) || negb (bool_decide (i ∈ sdus_index p))) (pdu_retrans_buffer e).

Definition new_sdu (c : protocol_ctxt_t) (m : Z) (sdu : list Z) : rlc_am_tx_sdu_management_t :=
  mk_tx_sdu (Some sdu) (RlcUm.frame c) m (Z.of_nat (length sdu)) 0 (Z.of_nat (length sdu)) [] 0 0 0 0.

Lemma ring_end (l : slots) i q : 0 <= i < 128 -> ring l i q -> exists s, l !! Z.to_nat ((i + Z.of_nat (length q)) mod 128) = Some s /\ sdu_block s = None.
Proof.
  revert i. induction q as [|u q IH]; intros i Hi R; cbn [ring length] in *.
  - rewrite Z.add_0_r, Z.mod_small by lia. exact R.
  - destruct R as (_ & _ & R). destruct (IH (next_index i)) as (s & E & B); [apply next_index_range; lia|done|]. exists s. split; [|done].
    rewrite next_index_mod, Zplus_mod_idemp_l in E by lia. by replace (i + Z.of_nat (S (length q))) with (i + 1 + Z.of_nat (length q)) by lia.
Qed.

Lemma ring_snoc (l : slots) i q u s : 0 <= i < 128 -> (length q <= 126)%nat -> length l = 128%nat -> ring l i q -> is_Some (sdu_block u) ->
  let j := (i + Z.of_nat (length q)) mod 128 in
  l !! Z.to_nat (next_index j) = Some s -> sdu_block s = None -> ring (<[Z.to_nat j := u]> l) i (q ++ [u]).
Proof.
  revert i. induction q as [|v q IH]; intros i Hi Hq Hl R Bu j Es Bs; cbn [ring app length] in *.
  - unfold j in *. rewrite Z.add_0_r, Z.mod_small in * by lia. rewrite list_lookup_insert_eq by lia. split; [done|]. split; [done|]. exists s. split; [|done].
    rewrite list_lookup_insert_ne; [done|]. rewrite next_index_mod by lia. Z.to_euclidean_division_equations. lia.
  - destruct R as (E & B & R). assert (Hj : j = (next_index i + Z.of_nat (length q)) mod 128).
    { unfold j. rewrite next_index_mod, Zplus_mod_idemp_l by lia. f_equal. lia. }
    split; [|split; [done|]].
    + rewrite list_lookup_insert_ne; [done|]. unfold j. Z.to_euclidean_division_equations. lia.
    + rewrite Hj in *. apply IH; [apply next_index_range; lia|lia|done|done|done|done|done].
Qed.

Lemma remaining_fmap_snoc q u : remaining (um_sdu <$> q ++ [u]) = remaining (um_sdu <$> q) + sdu_remaining_size u.
Proof. rewrite fmap_app, remaining_app. cbn [fmap list_fmap]. rewrite remaining_cons. change (remaining []) with 0. cbn. lia. Qed.

Lemma room_spec e q : tx_queue e q -> room e = true ->
  exists s, get_sdu e (next_sdu_index e) = Ok s /\ sdu_block s = None /\ segmented s = 0 /\ next_index (next_sdu_index e) <> current_sdu_index e /\
    exists t, input_sdus e !! Z.to_nat (next_index (next_sdu_index e)) = Some t /\ sdu_block t = None.
Proof.
  intros [Q1 Q2 Q3 Q4 Q5 Q6 Q7 Q8 Q9 Q10 Q11 Q12] Hroom. unfold room in Hroom. apply andb_true_iff in Hroom as [H1 H2].
  destruct (ring_end _ _ _ Q2 Q3) as (s & Es & Bs). rewrite <- Q5 in Es.
  assert (Hn : 0 <= next_sdu_index e < 128) by (rewrite Q5; apply Z.mod_pos_bound; lia).
  exists s. split; [by apply get_slot; [lia|]|]. split; [done|]. split; [by eapply Forall_lookup_1 in Q8 as (_ & ? & _); [|exact Es]|].
  destruct (get_sdu e (next_index (next_sdu_index e))) as [t|] eqn:Et; [|done]. destruct (sdu_block t) eqn:Bt; [done|].
  assert (Ht : input_sdus e !! Z.to_nat (next_index (next_sdu_index e)) = Some t).
  { unfold get_sdu in Et. pose proof (next_index_range (next_sdu_index e) (proj1 Hn)). rewrite (proj2 (Z.ltb_ge _ _)) in Et by lia. by apply of_option_Ok in Et. }
  split; [|by exists t]. intros Ec. rewrite Ec in Ht. destruct q as [|u q]; cbn [ring length] in *.
  - rewrite Q5, Z.add_0_r, Z.mod_small, next_index_mod in Ec by lia. Z.to_euclidean_division_equations. lia.
  - destruct Q3 as (E & [b B] & _). congruence.
Qed.

Lemma data_req_queue c m e q sdu : tx_queue e q -> room e = true -> 1 <= Z.of_nat (length sdu) < 2 ^ 16 ->
  exists e', rlc_am_data_req c e m sdu = Ok e' /\ tx_queue e' (q ++ [new_sdu c m sdu]) /\ next_sdu_index e' = next_index (next_sdu_index e) /\
    pdu_retrans_buffer e' = pdu_retrans_buffer e /\ vt_a e' = vt_a e /\ vt_s e' = vt_s e /\ vt_ms e' = vt_ms e.
Proof.
  intros HQ Hroom Hl. destruct (room_spec e q HQ Hroom) as (s & Es & Bs & Hseg & Hne & t & Et & Bt). pose proof HQ as [Q1 Q2 Q3 Q4 Q5 Q6 Q7 Q8 Q9 Q10 Q11 Q12].
  unfold rlc_am_data_req. rewrite u16_small by lia. cbv zeta. rewrite Es. step_ok. rewrite Bs, Hseg, (proj2 (Z.eqb_neq _ _) Hne). cbn [andb negb Z.eqb].
  fold (new_sdu c m sdu). eexists. split; [reflexivity|]. unfold put_sdu.
  assert (Hn : 0 <= next_sdu_index e < 128) by (rewrite Q5; apply Z.mod_pos_bound; lia).
  assert (H126 : (length q <= 126)%nat).
  { destruct (decide (length q = 127%nat)) as [E|]; [|lia]. destruct Hne. rewrite next_index_mod by lia.
    rewrite Q5, E, Zplus_mod_idemp_l. Z.to_euclidean_division_equations. lia. }
  split; [split|]; rproj; try done.
  - by rewrite length_insert.
  - rewrite Q5. apply (ring_snoc _ _ _ _ t); try done. by rewrite <- Q5.
  - rewrite length_app. cbn. lia.
  - rewrite length_app. cbn [length]. rewrite next_index_mod, Q5, Zplus_mod_idemp_l by lia. f_equal. lia.
  - apply Forall_app. split; [done|]. apply Forall_singleton. split; cbn; lia.
  - destruct q as [|u q]; [done|]. cbn [tail app] in *. apply Forall_app. split; [done|]. by apply Forall_singleton.
  - apply Forall_insert; [done|]. split; [done|]. split; [done|]. intros _. split; [done|]. cbn. lia.
  - rewrite Q9, remaining_fmap_snoc. done.
  - rewrite Q10, length_app. cbn. lia.
Qed.

Lemma room_window e : room e = true -> forall k p, pdu_retrans_buffer e !! k = Some p -> ack p = 0 -> next_index (next_sdu_index e) ∉ sdus_index p.
Proof.
  unfold room. rewrite andb_true_iff, forallb_forall. intros [_ H] k p E Ha. specialize (H p ltac:(apply list_elem_of_In; by eapply list_elem_of_lookup_2)).
  rewrite Ha in H. cbn in H. by apply negb_true_iff, bool_decide_eq_false in H.
Qed.

Lemma data_req_window e e' A N : tx_window e A N -> room e = true -> next_sdu_index e' = next_index (next_sdu_index e) ->
  pdu_retrans_buffer e' = pdu_retrans_buffer e -> vt_a e' = vt_a e -> vt_s e' = vt_s e -> vt_ms e' = vt_ms e -> tx_window e' A N.
Proof.
  intros [W1 W2 W3 W4 W5 W6 W7 W8] Hroom E1 E2 E3 E4 E5. assert (S : forall k, stored e' k = stored e k) by (intros; unfold stored; by rewrite E2).
  split; try congruence.
  - intros k Hk. destruct (W6 k Hk) as (p & Ep & H). exists p. rewrite S. split; [done|]. destruct H as [(H1 & H2 & H3)|H]; [left|by right].
    do 2 (split; [done|]). rewrite Forall_forall in *. intros i Hi. specialize (H3 i Hi) as [H3 _]. split; [done|]. rewrite E1. intros ->.
    by apply (room_window e Hroom (Z.to_nat (seq k)) p).
  - intros H. rewrite S. by apply W7.
  - intros k Hk. rewrite S. by apply W8.
Qed.

(** ** A new PDU *)

Lemma indices_elem m : forall i j, 0 <= i < 128 -> j ∈ indices m i -> exists d, 0 <= d < Z.of_nat m /\ j = (i + d) mod 128.
Proof.
  induction m as [|m IH]; intros i j Hi Hj; cbn [indices] in Hj; [by apply not_elem_of_nil in Hj|]. apply elem_of_cons in Hj as [->|Hj].
  - exists 0. rewrite Z.add_0_r, Z.mod_small by lia. lia.
  - destruct (IH (next_index i) j) as (d & Hd & ->); [apply next_index_range; lia|done|]. exists (d + 1). split; [lia|].
    rewrite next_index_mod, Zplus_mod_idemp_l by lia. f_equal. lia.
Qed.

Lemma emitted_window e e' q q' size full s rest p trail x1 x2 A N : tx_queue e q -> tx_window e A N -> N < A + 512 -> (length full < length q)%nat ->
  emitted e e' q q' size full s rest p trail x1 x2 ->
  tx_window e' A (N + 1) /\ exists at_, forall k, A <= k < A + 1024 -> stored e' k =
    if N =? k then Some (stored_pdu (pdu_bytes x1 (um_sdu <$> q) full s p (seq N) trail) at_ (indices (S (length full)) (current_sdu_index e)) size (remaining full + p))
    else stored e k.
Proof.
  intros HQ [W1 W2 W3 W4 W5 W6 W7 W8] HN Hf [M1 M2 M3 M4 M5 M6 [at_ M7] M8 M9 M10]. destruct HQ as [Q1 Q2 Q3 Q4 Q5 Q6 Q7 Q8 Q9 Q10 Q11 Q12].
  rewrite W3 in M7. set (st := stored_pdu _ _ _ _ _) in M7.
  assert (HS : forall k, A <= k < A + 1024 -> stored e' k = if N =? k then Some st else stored e k).
  { intros k Hk. change (stored e' k) with (pdu_retrans_buffer e' !! Z.to_nat (seq k)). rewrite M7.
    change (<[Z.to_nat (seq N):=st]> (pdu_retrans_buffer e)) with (pdu_retrans_buffer (put_pdu (seq N) st e)). apply stored_put; [done|lia]. }
  split; [|by exists at_]. assert (Hfr : vt_a e' = vt_a e /\ vt_ms e' = vt_ms e /\ next_sdu_index e' = next_sdu_index e).
  { unfold tx_frame in M4. split_and!; congruence. }
  destruct Hfr as (F1 & F2 & F3). split.
  - lia.
  - congruence.
  - rewrite M3, W3. apply next_sn_seq.
  - congruence.
  - rewrite M7, length_insert. done.
  - intros k Hk. rewrite HS by lia. rewrite F3. destruct (Z.eqb_spec N k) as [<-|]; [|apply W6; lia]. exists st. split; [done|]. left. split; [done|]. split; [done|].
    apply Forall_forall. intros i Hi. change (sdus_index st) with (indices (S (length full)) (current_sdu_index e)) in Hi.
    destruct (indices_elem _ _ _ Q2 Hi) as (d & Hd & ->). split; [apply Z.mod_pos_bound; lia|]. rewrite Q5. Z.to_euclidean_division_equations. lia.
  - intros _. rewrite HS by lia. destruct (Z.eqb_spec N A) as [->|]; [by exists st|]. apply W7. lia.
  - intros k Hk. rewrite HS by lia. rewrite (proj2 (Z.eqb_neq N k)) by lia. apply W8. lia.
Qed.

(** ** A copy of a stored PDU *)

Lemma copy_window e e' A N k p : tx_window e A N -> A <= k < N -> stored e k = Some p -> polled (put_pdu (seq k) (p <| retransmit := 0 |>) e) e' ->
  tx_window e' A N /\ forall j, A <= j < A + 1024 -> stored e' j = if k =? j then Some (p <| retransmit := 0 |>) else stored e j.
Proof.
  intros [W1 W2 W3 W4 W5 W6 W7 W8] Hk Ep P. set (e1 := put_pdu _ _ e) in P.
  assert (B : pdu_retrans_buffer e' = pdu_retrans_buffer e1) by by pfield pdu_retrans_buffer P.
  assert (HS : forall j, A <= j < A + 1024 -> stored e' j = if k =? j then Some (p <| retransmit := 0 |>) else stored e j).
  { intros j Hj. unfold stored at 1. rewrite B. apply stored_put; [done|lia]. }
  split; [|done]. split; try done.
  - pfield vt_a P. done.
  - pfield vt_s P. done.
  - pfield vt_ms P. done.
  - rewrite B. unfold e1. by rewrite length_put_pdu.
  - intros j Hj. rewrite HS by lia. assert (next_sdu_index e' = next_sdu_index e) as -> by by pfield next_sdu_index P.
    destruct (W6 j Hj) as (p' & Ep' & H). destruct (Z.eqb_spec k j) as [<-|]; [|by exists p']. rewrite Ep in Ep'. injection Ep' as <-.
    exists (p <| retransmit := 0 |>). by split.
  - intros HA. rewrite HS by lia. destruct (W7 HA) as (p' & Ep' & H). destruct (Z.eqb_spec k A) as [->|]; [|by exists p'].
    rewrite Ep in Ep'. injection Ep' as <-. by exists (p <| retransmit := 0 |>).
  - intros j Hj. rewrite HS by lia. rewrite (proj2 (Z.eqb_neq k j)) by lia. by apply W8.
Qed.

Lemma polled_queue e e' k p q : polled (put_pdu k p e) e' -> tx_queue e q -> tx_queue e' q.
Proof.
  intros P. apply tx_queue_fields. rewrite (polled_field queue_fields _ _ P) by done. unfold queue_fields. by rewrite length_put_pdu.
Qed.

End RlcAmLink.
