(* ===== verification/RlcAmSystem.v ===== *)
(** * RLC AM: reliable delivery over a channel that loses and reorders

    The link, its invariant, and the theorems about it. *)

From S2P Require Import Prelude RlcUmEntity RlcUmDar RlcUmReasm RlcUmSegment RlcUmTx RlcUmSem RlcAmStatus RlcAmEntity RlcAmReport RlcAmReportProofs RlcAmRx RlcAmRxProofs RlcAmTx RlcAmSegment RlcAmRetransmit RlcAmQueue RlcAmSegProofs RlcAmDecode RlcAmAck RlcAmStream RlcAmLink.
Import RlcUmReasm RlcUmSegment RlcUmTx RlcUmSem RlcAmStatus RlcAmEntity RlcAmReport RlcAmReportProofs RlcAmRx RlcAmRxProofs RlcAmTx RlcAmSegment RlcAmRetransmit RlcAmQueue RlcAmSegProofs RlcAmDecode RlcAmAck RlcAmStream RlcAmLink.

Module RlcAmSystem.

(** ** The link *)

(** Two entities, the blocks that were handed to MAC, each with the number of
    its PDU counted from the start, the number of PDUs made, the PDUs that
    arrived, and the SDUs submitted. *)
Record am_link : Type := mk_am_link {
  al_tx : rlc_am_entity_t; al_rx : rlc_am_entity_t; al_air : list (Z * mac_tb); al_made : Z; al_arrived : list Z; al_submitted : list (list Z)
}.

(** A grant for a new PDU: the window is open, there is data, in at most 31
    SDUs, the first of them in fewer than 31 PDUs so far, and the PDU is filled
    exactly (where it is not, the block ends with bytes nobody wrote). *)
Definition am_grant_ok (e : rlc_am_entity_t) : bool :=
  (2 <? nb_bytes_requested_by_mac e) && (nb_bytes_requested_by_mac e <? RLC_SDU_MAX_SIZE) && negb (vt_s e =? vt_ms e) &&
  (0 <? sdu_buffer_occupancy e) && (nb_sdu_no_segmented e <=? 31) &&
  match get_sdu e (current_sdu_index e) with Ok s => nb_pdus s <? 31 | Fault _ => false end &&
  match gives_back e (choose_pdu_size e (nb_bytes_requested_by_mac e)) with Ok n => n =? 0 | Fault _ => false end.

(** PDU [k] is in the window of the transmitter. *)
Definition am_outstanding (l : am_link) (k : Z) : Prop :=
  al_made l - 512 <= k < al_made l /\ offset (vt_a (al_tx l)) (seq k) < offset (vt_a (al_tx l)) (vt_s (al_tx l)).

Inductive am_step : am_link -> am_link -> Prop :=
| AL_submit tx rx air n a sub c m sdu tx' :
    1 <= Z.of_nat (length sdu) <= 2047 -> room tx = true -> rlc_am_data_req c tx m sdu = Ok tx' ->
    am_step (mk_am_link tx rx air n a sub) (mk_am_link tx' rx air n a (sub ++ [sdu]))
| AL_send tx rx air n a sub c garbage grant tx' :
    let tx0 := tx <| nb_bytes_requested_by_mac := grant |> <| segmentation_pdu_list := [] |> in
    RlcUm.mem_block_ok c = true -> am_grant_ok tx0 = true -> rlc_am_segment_10 c garbage tx0 = Ok tx' ->
    am_step (mk_am_link tx rx air n a sub) (mk_am_link tx' rx (air ++ (pair n <$> segmentation_pdu_list tx')) (n + 1) a sub)
| AL_copy tx rx air n a sub c k tb tx' :
    RlcUm.mem_block_ok c = true -> am_outstanding (mk_am_link tx rx air n a sub) k ->
    rlc_am_retransmit_get_copy c tx (seq k) = Ok (tx', tb) ->
    am_step (mk_am_link tx rx air n a sub) (mk_am_link tx' rx (air ++ (pair k <$> option_list tb)) n a sub)
| AL_arrive tx rx air n a sub c k tb rx' :
    RlcUm.mem_block_ok c = true -> (k, tb) ∈ air -> (forall r, first_missing a r -> r - 512 <= k) -> misplaced rx (seq k) = false ->
    rlc_am_receive_process_data_pdu c rx (tb_bytes tb) (tb_size tb) = Ok rx' ->
    am_step (mk_am_link tx rx air n a sub) (mk_am_link tx rx' air n (a ++ [k]) sub)
| AL_ack tx rx air n a sub k tx' :
    k ∈ a -> am_outstanding (mk_am_link tx rx air n a sub) k -> rlc_am_ack_pdu tx (seq k) = Ok tx' ->
    am_step (mk_am_link tx rx air n a sub) (mk_am_link tx' rx air n a sub).

(** Both entities configured, for the first time. *)
Inductive am_init : am_link -> Prop :=
| AM_init srb i j rb t0 r0 tx rx : initialized t0 = false -> initialized r0 = false -> upper_sdus r0 = [] ->
    config_req_rlc_am srb i rb (Some t0) = Some tx -> config_req_rlc_am srb j rb (Some r0) = Some rx ->
    am_init (mk_am_link tx rx [] 0 [] []).

Inductive am_reach : am_link -> Prop :=
| AM_start l : am_init l -> am_reach l
| AM_step l l' : am_reach l -> am_step l l' -> am_reach l'.

(** ** The invariant *)

Definition c0 : protocol_ctxt_t := RlcUm.mk_ctxt 0 0 true true true.

(** The transmitter: [ds] are the PDUs it made. *)
Record tx_inv (tx : rlc_am_entity_t) (q : slots) (A : Z) (ds : list desc) (arrived : list Z) (sub : list (list Z)) : Prop := {
  ti_queue : tx_queue tx q;
  ti_window : tx_window tx A (Z.of_nat (length ds));
  ti_fits : Forall sdu_fits (um_sdu <$> q);
  ti_chain : chained [] ds;
  ti_last : last_prefix [] ds = sent_prefix (um_sdu <$> q);
  ti_sub : sub = concat (d_out <$> ds) ++ (RlcUm.sdu_bytes <$> (um_sdu <$> q));
  ti_stored : forall k p d, A <= k < Z.of_nat (length ds) -> stored tx k = Some p -> ack p = 0 -> ds !! Z.to_nat k = Some d ->
    exists x, bit x /\ pdu_block p = Some (d_bytes x k d) /\ header_and_payload_size p = d_size d;
  ti_passed : forall k, 0 <= k < A -> k ∈ arrived;
  ti_acked : forall k p, A <= k < Z.of_nat (length ds) -> stored tx k = Some p -> ack p = 1 -> k ∈ arrived
}.

(** The channel has copies of PDUs that were made. *)
Definition air_inv (air : list (Z * mac_tb)) (ds : list desc) : Prop := forall k tb, (k, tb) ∈ air ->
  0 <= k /\ exists d x, ds !! Z.to_nat k = Some d /\ bit x /\ tb = mk_tb (d_size d) (d_bytes x k d).

(** The receiver has what arrived; [x k] is the polling bit of the copy of PDU
    [k] that came first. *)
Definition rx_side (rx : rlc_am_entity_t) (ds : list desc) (a : list Z) : Prop := exists e0 x,
  holds e0 [] [] /\ (forall k, bit (x k)) /\ rx_inv (stream x ds) c0 e0 a rx /\ forall k, k ∈ a -> 0 <= k < Z.of_nat (length ds).

Definition al_inv (l : am_link) : Prop := exists q A ds,
  al_made l = Z.of_nat (length ds) /\ tx_inv (al_tx l) q A ds (al_arrived l) (al_submitted l) /\ air_inv (al_air l) ds /\ rx_side (al_rx l) ds (al_arrived l).

(** *** Start *)

Lemma configured_tx srb i rb t0 tx : initialized t0 = false -> config_req_rlc_am srb i rb (Some t0) = Some tx -> tx_inv tx [] 0 [] [] [].
Proof.
  intros Hi E. unfold config_req_rlc_am in E. cbn in E. injection E as <-. unfold rlc_am_init. rewrite Hi.
  set (e := rlc_am_configure _ _ _ _ _ _ _). assert (E1 : input_sdus e = replicate 128 zero_sdu) by done.
  assert (E2 : pdu_retrans_buffer e = replicate 1024 zero_pdu) by done.
  assert (HS : forall k, stored e k = Some zero_pdu).
  { intros k. unfold stored. rewrite E2. pose proof (seq_range k). unfold RLC_AM_SN_MODULO in *. apply lookup_replicate_2. lia. }
  assert (E3 : current_sdu_index e = 0 /\ next_sdu_index e = 0 /\ sdu_buffer_occupancy e = 0 /\ nb_sdu_no_segmented e = 0 /\ vt_s e = 0 /\ vt_a e = 0 /\ vt_ms e = 512) by done.
  clearbody e. destruct E3 as (F1 & F2 & F3 & F4 & F5 & F6 & F7). split; try done.
  - split; rewrite ?E1, ?E2, ?F1, ?F2, ?F3, ?F4, ?F5; try done; try (cbn; lia); try (by exists zero_sdu).
    apply Forall_replicate. split; [done|]. split; [done|]. by intros [? ?].
  - split; rewrite ?E2, ?F5, ?F6, ?F7; try done; try (cbn; lia).
  - lia.
  - intros k p Hk. cbn in Hk. lia.
Qed.

Lemma configured_rx srb i rb r0 rx : initialized r0 = false -> upper_sdus r0 = [] -> config_req_rlc_am srb i rb (Some r0) = Some rx -> rx_side rx [] [].
Proof.
  intros Hi Hu E. unfold config_req_rlc_am in E. cbn in E. injection E as <-. unfold rlc_am_init. rewrite Hi. set (e := rlc_am_configure _ _ _ _ _ _ _).
  assert (E1 : receiver_buffer e = [] /\ vr_r e = 0 /\ vr_mr e = 512 /\ vr_h e = 0 /\ rsm e = (None, 0, upper_sdus r0)) by done. clearbody e.
  destruct E1 as (F1 & F2 & F3 & F4 & F5). exists e, (fun _ => 0). split; [unfold holds; rewrite F5, Hu; done|]. split; [by left|]. split; [|intros k Hk; by apply not_elem_of_nil in Hk].
  exists 0, 0, []. split; [split; [done|]; split; [apply not_elem_of_nil|lia]|]. split; [split; [intros j Hj; by apply not_elem_of_nil in Hj|by left]|]. split; [lia|].
  rewrite F1, F2, F3, F4. do 4 (split; [done|]). split; [|split; [done|by exists e]]. intros j. split; [intros Hj; by apply not_elem_of_nil in Hj|intros [Hj _]; by apply not_elem_of_nil in Hj].
Qed.

Lemma start_inv l : am_init l -> al_inv l.
Proof.
  intros [srb i j rb t0 r0 tx rx Ht Hr Hu Et Er]. exists [], 0, []. split; [done|]. split; [exact (configured_tx srb i rb t0 tx Ht Et)|]. split; [intros k tb Hk; by apply not_elem_of_nil in Hk|].
  exact (configured_rx srb j rb r0 rx Hr Hu Er).
Qed.

(** *** Steps of the transmitter *)

Lemma sent_prefix_snoc q u : unsegmented u -> sent_prefix (q ++ [u]) = sent_prefix q.
Proof. intros Hu. destruct q; [|done]. cbn. unfold unsegmented in Hu. by rewrite Hu. Qed.

Lemma submit_inv c m tx q A ds a sub sdu : tx_inv tx q A ds a sub -> 1 <= Z.of_nat (length sdu) <= 2047 -> room tx = true ->
  exists tx' q', rlc_am_data_req c tx m sdu = Ok tx' /\ tx_inv tx' q' A ds a (sub ++ [sdu]).
Proof.
  intros [I1 I2 I3 I4 I5 I6 I7 I8 I9] Hl Hroom. destruct (data_req_queue c m tx q sdu I1 Hroom ltac:(lia)) as (tx' & E & HQ & E1 & E2 & E3 & E4 & E5).
  exists tx', (q ++ [new_sdu c m sdu]). split; [done|]. assert (HS : forall k, stored tx' k = stored tx k) by (intros; unfold stored; by rewrite E2).
  split; try done.
  - by apply (data_req_window tx).
  - rewrite fmap_app. apply Forall_app. split; [done|]. apply Forall_singleton. unfold sdu_fits. cbn. lia.
  - rewrite fmap_app. change (um_sdu <$> [new_sdu c m sdu]) with [um_sdu (new_sdu c m sdu)]. by rewrite sent_prefix_snoc.
  - rewrite I6, !fmap_app, <- app_assoc. done.
  - intros k p d. rewrite HS. apply I7.
  - intros k p. rewrite HS. apply I9.
Qed.

(** The queue of the transmitter, cut. *)
Lemma grant_queue tx q : tx_queue tx q -> am_grant_ok tx = true -> q <> [] /\ (length q <= 31)%nat /\ Forall (fun s => nb_pdus s < 31) q /\
  2 < nb_bytes_requested_by_mac tx < RLC_SDU_MAX_SIZE /\ vt_s tx <> vt_ms tx /\ gives_back tx (choose_pdu_size tx (nb_bytes_requested_by_mac tx)) = Ok 0.
Proof.
  intros [Q1 Q2 Q3 Q4 Q5 Q6 Q7 Q8 Q9 Q10 Q11 Q12] H. unfold am_grant_ok in H. rewrite !andb_true_iff, !Z.ltb_lt, Z.leb_le, negb_true_iff, Z.eqb_neq in H.
  destruct H as ((((((H1 & H2) & H3) & H4) & H5) & H6) & H7). assert (Hne : q <> []) by (intros ->; rewrite Q9 in H4; cbn in H4; lia).
  split; [done|]. split; [lia|]. split; [|split; [done|split; [done|]]].
  - destruct q as [|s q]; [done|]. destruct Q3 as (E & _ & _). rewrite (get_slot tx _ s) in H6 by (lia || done). apply Z.ltb_lt in H6.
    constructor; [done|]. cbn [tail] in Q7. eapply Forall_impl; [exact Q7|]. cbn. intros u [_ ->]. lia.
  - destruct (gives_back _ _); [|done]. apply Z.eqb_eq in H7. by rewrite H7.
Qed.

Lemma send_inv c g grant tx q A ds a sub : let tx0 := tx <| nb_bytes_requested_by_mac := grant |> <| segmentation_pdu_list := [] |> in
  tx_inv tx q A ds a sub -> RlcUm.mem_block_ok c = true -> am_grant_ok tx0 = true ->
  exists tx' q' d x, rlc_am_segment_10 c g tx0 = Ok tx' /\ bit x /\ segmentation_pdu_list tx' = [mk_tb (d_size d) (d_bytes x (Z.of_nat (length ds)) d)] /\ d_size d <= grant /\
    tx_inv tx' q' A (ds ++ [d]) a sub.
Proof.
  intros tx0 [I1 I2 I3 I4 I5 I6 I7 I8 I9] Hm Hg. assert (HQ : tx_queue tx0 q) by by apply (tx_queue_fields tx).
  assert (HW : tx_window tx0 A (Z.of_nat (length ds))) by by destruct I2.
  destruct (grant_queue tx0 q HQ Hg) as (Hne & H31 & Hn & Hnb & Hvt & Hgb).
  destruct (segment_emitted c g tx0 q HQ Hne H31 Hn Hm Hnb) as (tx' & q' & full & s & rest & p & slack & trail & x1 & x2 & E & C & [HG HT] & M).
  rewrite Hgb in HG. injection HG as <-. destruct trail; [|cbn in HT; lia].
  pose proof (tw_range _ _ _ HW) as HR. set (N := Z.of_nat (length ds)) in *. set (size := choose_pdu_size _ _) in *. pose proof C as [C1 C2 C3 C4 C5].
  assert (Hok : Forall sdu_ok (um_sdu <$> q)) by (apply Forall_fmap; apply HQ).
  assert (Hlen : (length full < length q)%nat) by (rewrite <- (length_fmap um_sdu q), C1, length_app; cbn; lia).
  assert (HN : N < A + 512).
  { destruct HW as [W1 W2 W3 W4 _ _ _ _]. destruct (Z.eq_dec N (A + 512)) as [EN|]; [|lia]. destruct Hvt. by rewrite W3, W4, EN. }
  destruct (emitted_window _ _ _ _ _ _ _ _ _ _ _ _ A N HQ HW HN Hlen M) as (HW' & at_ & HS). destruct M as [M1 M2 M3 M4 M5 M6 M7 M8 M9 _ M10].
  set (d := mk_desc full s rest p). assert (Hq : d_queue d = um_sdu <$> q) by done.
  assert (Hsz : size = d_size d) by (unfold d_size, d; cbn [d_full d_bytes_of_sdu]; lia).
  assert (Hb : forall x, pdu_bytes x (um_sdu <$> q) full s p (seq N) [] = d_bytes x N d) by (intros; unfold d_bytes; by rewrite Hq).
  rewrite (tw_vt_s _ _ _ HW) in M6. rewrite Hb, Hsz in M6.
  assert (Hd : desc_ok d).
  { split; rewrite ?Hq; try done; [|cbn; lia|rewrite <- Hsz; destruct (choose_size tx0 q _ HQ Hne (proj1 Hnb)) as [Hc _]; fold size in Hc; lia].
    clear - HQ. destruct HQ as [_ _ _ _ _ _ Q7 _ _ _ _ _]. destruct q as [|u q]; [done|]. cbn [tail fmap list_fmap] in *. apply Forall_fmap.
    eapply Forall_impl; [exact Q7|]. by intros v [H _]. }
  exists tx', q', d, x2. split; [done|]. split; [apply M5|]. split; [exact M6|].
  split; [rewrite <- Hsz; destruct (choose_size tx0 q _ HQ Hne (proj1 Hnb)) as [Hc _]; fold size in Hc; change (nb_bytes_requested_by_mac tx0) with grant in Hc; lia|].
  assert (HL : Z.of_nat (length (ds ++ [d])) = N + 1) by (rewrite length_app; cbn; lia). split.
  - done.
  - by rewrite HL.
  - rewrite M2. rewrite C1 in I3. apply Forall_app in I3 as [_ [I3 I3']%Forall_cons]. unfold queue_after. destruct (p =? _); [done|]. by apply Forall_cons.
  - apply chained_snoc; [done|done|]. rewrite Hq. by symmetry.
  - rewrite last_prefix_snoc, M2. done.
  - rewrite I6, fmap_app, concat_app, M2. rewrite <- app_assoc. f_equal. cbn [fmap list_fmap concat]. rewrite app_nil_r. unfold d_out, delivered_by. cbn [d_full d_sdu d_bytes_of_sdu].
    rewrite C1, fmap_app. cbn [fmap list_fmap]. rewrite <- app_assoc. f_equal. unfold queue_after, d. cbn [d_bytes_of_sdu d_sdu]. by destruct (p =? _).
  - intros k p' d' Hk Ep' Ha Hd'. rewrite HL in Hk. rewrite HS in Ep' by lia. destruct (Z.eqb_spec N k) as [<-|Hne'].
    + rewrite list_lookup_middle in Hd' by (unfold N; lia). injection Hd' as <-. injection Ep' as <-. exists x1. split; [apply M5|]. by rewrite Hb, Hsz.
    + rewrite lookup_app_l in Hd' by (unfold N in *; lia). apply (I7 k p' d'); [unfold N in *; lia|done..].
  - done.
  - intros k p' Hk Ep' Ha. rewrite HL in Hk. rewrite HS in Ep' by lia. destruct (Z.eqb_spec N k) as [<-|Hne']; [injection Ep' as <-; done|].
    apply (I9 k p'); [unfold N in *; lia|done..].
Qed.

(** The window of the transmitter, in absolute numbers. *)
Lemma outstanding_window tx A N k : tx_window tx A N -> N - 512 <= k < N -> offset (vt_a tx) (seq k) < offset (vt_a tx) (vt_s tx) -> A <= k < N.
Proof. intros [W1 W2 W3 W4 W5 W6 W7 W8] Hk H. rewrite W2, W3 in H. unfold offset, seq, RLC_AM_SN_MODULO in H. Z.to_euclidean_division_equations. lia. Qed.

Lemma copy_inv c tx q A ds a sub k : tx_inv tx q A ds a sub -> RlcUm.mem_block_ok c = true -> A <= k < Z.of_nat (length ds) ->
  exists tx' tb, rlc_am_retransmit_get_copy c tx (seq k) = Ok (tx', tb) /\ tx_inv tx' q A ds a sub /\
    match tb with None => True | Some tb => exists d x, ds !! Z.to_nat k = Some d /\ bit x /\ tb = mk_tb (d_size d) (d_bytes x k d) end.
Proof.
  intros I Hm Hk. pose proof I as [I1 I2 I3 I4 I5 I6 I7 I8 I9]. pose proof I2 as [W1 W2 W3 W4 W5 W6 W7 W8]. destruct (W6 k Hk) as (p & Ep & [(HB & Ha & _)|(HB & Ha)]).
  - destruct (lookup_lt_is_Some_2 ds (Z.to_nat k)) as [d Ed]; [lia|]. destruct (I7 k p d Hk Ep Ha Ed) as (x & Hx & Eb & Esz).
    destruct (chained_lookup _ _ _ _ I4 Ed) as [Hd _]. pose proof (d_bytes_length x k d Hd) as HL.
    unfold d_bytes, pdu_bytes, am_pdu in Eb. set (fi := framing_info _ _) in Eb. set (h := negb _) in Eb. set (rest := seq k mod 256 :: _) in Eb.
    assert (Hb : forall y, d_bytes y k d = am_b1 y fi h (seq k) :: rest) by done.
    destruct (get_copy_spec c tx (seq k) p x fi h rest (get_stored tx k p Ep) Eb) as (tx' & E & P).
    { rewrite Esz, <- HL, Hb. cbn [length]. lia. }
    { done. }
    { apply framing_range. }
    { apply seq_range. }
    { done. }
    exists tx', (Some (mk_tb (d_size d) (d_bytes (if poll_due (put_pdu (seq k) (p <| retransmit := 0 |>) tx) (s16 (tx_payload_size p)) then 1 else 0) k d))).
    split; [by rewrite E, Esz, Hb|]. destruct (copy_window tx tx' A _ k p I2 Hk Ep P) as [HW HS]. split.
    + split; try done; [by eapply polled_queue| |].
      * intros j p' d' Hj Ep'. rewrite HS in Ep' by lia. destruct (Z.eqb_spec k j) as [<-|]; [|by apply I7]. injection Ep' as <-. intros _ Ed'. by apply (I7 k p d').
      * intros j p' Hj Ep'. rewrite HS in Ep' by lia. destruct (Z.eqb_spec k j) as [<-|]; [|by apply I9]. injection Ep' as <-. intros Ha'. by apply (I9 k p).
    + exists d. eexists. split; [done|]. split; [|reflexivity]. apply bit_of.
  - exists tx, None. split; [|done]. unfold rlc_am_retransmit_get_copy. rewrite (get_stored tx k p Ep). step_ok. by rewrite HB.
Qed.

Lemma ack_inv tx q A ds a sub k : tx_inv tx q A ds a sub -> A <= k < Z.of_nat (length ds) -> k ∈ a ->
  exists tx' q' A', rlc_am_ack_pdu tx (seq k) = Ok tx' /\ tx_inv tx' q' A' ds a sub.
Proof.
  intros [I1 I2 I3 I4 I5 I6 I7 I8 I9] Hk Ha. destruct (ack_ok tx q A _ k I1 I2 Hk) as (tx' & q' & A' & E & HQ & U & [K1 K2 K3 K4 K5] & _).
  exists tx', q', A'. split; [done|]. split; try done; try (by rewrite U).
  - intros j p d Hj Ep Hp Hd. destruct (Z.eq_dec j k) as [->|Hne].
    + destruct (K5 ltac:(lia)) as (p' & Ep' & Hp'). rewrite Ep in Ep'. injection Ep' as <-. lia.
    + apply (I7 j p d); [lia| |done..]. by rewrite <- K3.
  - intros j Hj. destruct (Z.lt_ge_cases j A); [apply I8; lia|]. destruct (K4 j ltac:(lia)) as [->|(p & Ep & Hp)]; [done|]. apply (I9 j p); [lia|done..].
  - intros j p Hj Ep Hp. destruct (Z.eq_dec j k) as [->|Hne]; [done|]. apply (I9 j p); [lia| |done]. by rewrite <- K3.
Qed.

(** *** The receiver *)

Lemma rx_side_grows rx ds a d : rx_side rx ds a -> rx_side rx (ds ++ [d]) a.
Proof.
  intros (e0 & x & H0 & Hx & HI & Ha). exists e0, x. split; [done|]. split; [done|]. split.
  - eapply rx_inv_ext; [|exact HI]. intros k Hk. specialize (Ha k Hk). unfold stream. by rewrite lookup_app_l by lia.
  - intros k Hk. specialize (Ha k Hk). rewrite length_app. lia.
Qed.

Lemma arrive_inv c rx ds a A k d y : rx_side rx ds a -> chained [] ds -> (forall j, 0 <= j < A -> j ∈ a) -> 0 <= A -> Z.of_nat (length ds) <= A + 512 ->
  RlcUm.mem_block_ok c = true -> 0 <= k -> ds !! Z.to_nat k = Some d -> bit y -> (forall r, first_missing a r -> r - 512 <= k) -> misplaced rx (seq k) = false ->
  exists rx', rlc_am_receive_process_data_pdu c rx (d_bytes y k d) (d_size d) = Ok rx' /\ rx_side rx' ds (a ++ [k]).
Proof.
  intros (e0 & x & H0 & Hx & HI & Ha) Hch HA H0A HN Hm Hk Hd Hy Hw Hmis. destruct (chained_lookup _ _ _ _ Hch Hd) as [Hok _].
  pose proof (lookup_lt_Some _ _ _ Hd) as Hlt.
  set (x' := fun j => if decide (k ∈ a) then x j else if j =? k then y else x j).
  assert (Hx' : forall j, bit (x' j)) by (intros j; unfold x'; by repeat case_match).
  assert (HI' : rx_inv (stream x' ds) c0 e0 a rx).
  { eapply rx_inv_ext; [|exact HI]. intros j Hj. unfold stream, x'. destruct (decide (k ∈ a)) as [|Hka]; [done|].
    destruct (Z.eqb_spec j k) as [->|]; [done|]. done. }
  destruct (rx_step (stream x' ds) (stream_known x' ds) c0 eq_refl e0 (stream_ord x' ds Hch c0 eq_refl e0 H0) c a rx k (d_bytes y k d) (d_size d) y HI' Hm Hk)
    as (rx' & E & HI'').
  - intros r Hr. specialize (Hw r Hr). split; [done|]. assert (A <= r); [|lia]. destruct (Z.le_gt_cases A r); [done|]. destruct Hr as (R1 & R2 & _). destruct R2. apply HA. lia.
  - done.
  - rewrite (d_decode y k d Hok Hy). unfold stream. rewrite Hd. done.
  - intros Hka. rewrite stream_poll. unfold x'. rewrite decide_False by done. by rewrite Z.eqb_refl.
  - exists rx'. split; [done|]. exists e0, x'. split; [done|]. split; [done|]. split; [done|]. intros j [Hj|Hj]%elem_of_app; [by apply Ha|].
    apply list_elem_of_singleton in Hj. subst. lia.
Qed.

(** *** Every step *)

Lemma tx_inv_arrived tx q A ds a b sub : tx_inv tx q A ds a sub -> tx_inv tx q A ds (a ++ b) sub.
Proof.
  intros [I1 I2 I3 I4 I5 I6 I7 I8 I9]. split; try done.
  - intros k Hk. apply elem_of_app. left. by apply I8.
  - intros k p Hk Ep Hp. apply elem_of_app. left. by apply (I9 k p).
Qed.

Lemma air_snoc air ds k d x : air_inv air ds -> 0 <= k -> ds !! Z.to_nat k = Some d -> bit x -> air_inv (air ++ [(k, mk_tb (d_size d) (d_bytes x k d))]) ds.
Proof.
  intros H Hk Hd Hx j tb [Hj|Hj]%elem_of_app; [by apply H|]. apply list_elem_of_singleton in Hj. injection Hj as -> ->. split; [done|]. by exists d, x.
Qed.

Lemma air_grows air ds d : air_inv air ds -> air_inv air (ds ++ [d]).
Proof.
  intros H j tb Hj. destruct (H j tb Hj) as (Hk & d' & x & Hd' & Hx & E). split; [done|]. exists d', x. split; [|done]. by apply lookup_app_l_Some.
Qed.

Lemma am_step_inv l l' : al_inv l -> am_step l l' -> al_inv l'.
Proof.
  intros (q & A & ds & Hn & HT & HA & HR) St. destruct St as [tx rx air n a sub c m sdu tx' Hl Hroom E|tx rx air n a sub c g grant tx' tx0 Hm Hg E|
    tx rx air n a sub c k tb tx' Hm [Hk Ho] E|tx rx air n a sub c k tb rx' Hm Hin Hw Hmis E|tx rx air n a sub k tx' Ha [Hk Ho] E];
    cbn [al_tx al_rx al_air al_made al_arrived al_submitted] in *; subst n.
  - destruct (submit_inv c m tx q A ds a sub sdu HT Hl Hroom) as (tx'' & q' & E' & HT'). assert (tx'' = tx') as -> by congruence. by exists q', A, ds.
  - destruct (send_inv c g grant tx q A ds a sub HT Hm Hg) as (tx'' & q' & d & x & E' & Hx & Es & _ & HT'). fold tx0 in E'. assert (tx'' = tx') as -> by congruence.
    exists q', A, (ds ++ [d]). cbn [al_tx al_rx al_air al_made al_arrived al_submitted]. split; [rewrite length_app; cbn; lia|]. split; [done|]. split; [|by apply rx_side_grows].
    rewrite Es. cbn [fmap list_fmap]. apply air_snoc; [by apply air_grows|lia| |done]. by rewrite list_lookup_middle by lia.
  - pose proof (outstanding_window _ _ _ _ (ti_window _ _ _ _ _ _ HT) Hk Ho) as HkA.
    destruct (copy_inv c tx q A ds a sub k HT Hm HkA) as (tx'' & tb' & E' & HT' & Htb). assert (tx'' = tx' /\ tb' = tb) as [-> ->] by (split; congruence).
    exists q, A, ds. split; [done|]. split; [done|]. split; [|done]. destruct tb as [tb|]; cbn [option_list fmap list_fmap al_air]; [|by rewrite app_nil_r].
    destruct Htb as (d & x & Hd & Hx & ->). apply air_snoc; try done. pose proof (tw_range _ _ _ (ti_window _ _ _ _ _ _ HT)). lia.
  - destruct (HA k tb Hin) as (Hk & d & y & Hd & Hy & ->). pose proof (tw_range _ _ _ (ti_window _ _ _ _ _ _ HT)) as HRg.
    destruct (arrive_inv c rx ds a A k d y HR (ti_chain _ _ _ _ _ _ HT) (ti_passed _ _ _ _ _ _ HT)) as (rx'' & E' & HR'); [lia|lia|done..|].
    cbn [tb_bytes tb_size] in E. assert (rx'' = rx') as -> by congruence. exists q, A, ds. split; [done|]. split; [by apply tx_inv_arrived|]. by split.
  - pose proof (outstanding_window _ _ _ _ (ti_window _ _ _ _ _ _ HT) Hk Ho) as HkA.
    destruct (ack_inv tx q A ds a sub k HT HkA Ha) as (tx'' & q' & A' & E' & HT'). assert (tx'' = tx') as -> by congruence. by exists q', A', ds.
Qed.

Lemma am_reach_inv l : am_reach l -> al_inv l.
Proof. induction 1 as [l H|l l' _ IH St]; [by apply start_inv|by eapply am_step_inv]. Qed.

(** ** The theorems *)

(** C2. Acknowledged mode is reliable. Two entities are configured; SDUs are
    submitted, PDUs made and copied for retransmission, blocks are lost,
    repeated and reordered by the channel, and PDUs that arrived are
    acknowledged, in any interleaving of steps that satisfy the following. An
    SDU has 1 to 2047 bytes and its slot in the ring is free ([room]). A new
    PDU is made for a grant as in [am_grant_ok]: more than 2 bytes and below
    RLC_SDU_MAX_SIZE, the window open, data in at most 31 SDUs, the first of
    them in fewer than 31 PDUs so far, the PDU filled exactly (otherwise see
    [am_trailing_bytes]); the pool has blocks for it, for a copy and for an
    arrival. A PDU arrives when it is at most 512 before the first missing one
    and the insertion is not the one rlc_am_rx_list.c:340 misplaces
    ([misplaced], see [am_wrap_duplicates]). Acknowledgements are of single
    whole PDUs of the window that arrived. Then, at every moment, the SDUs
    handed to PDCP are the first ones submitted, each once and unchanged; and
    when all PDUs made have arrived and no data is waiting they are all that
    were submitted. *)
Theorem am_link_reliable l : am_reach l ->
  prefix (upper_sdus (al_rx l)) (al_submitted l) /\
  ((forall k, 0 <= k < al_made l -> k ∈ al_arrived l) -> sdu_buffer_occupancy (al_tx l) = 0 -> upper_sdus (al_rx l) = al_submitted l).
Proof.
  intros (q & A & ds & Hn & HT & HA & (e0 & x & H0 & Hx & HI & Ha))%am_reach_inv. destruct HI as (r & h & ks & Hf & _ & _ & _ & _ & _ & _ & _ & _ & f & Ef & Hr).
  destruct HT as [I1 I2 I3 I4 I5 I6 I7 I8 I9]. destruct (stream_in_order x ds I4 c0 eq_refl e0 H0 (Z.to_nat r)) as (f' & Ef' & Hh). assert (f' = f) as -> by congruence.
  assert (Hrn : r <= Z.of_nat (length ds)).
  { destruct Hf as (_ & _ & Hf). destruct (Z.le_gt_cases r (Z.of_nat (length ds))); [done|]. pose proof (Ha _ (Hf (Z.of_nat (length ds)) ltac:(lia))). lia. }
  specialize (Hh ltac:(lia)). assert (Eu : upper_sdus (al_rx l) = concat (d_out <$> take (Z.to_nat r) ds)).
  { unfold holds, rsm in Hh, Hr. congruence. }
  rewrite Eu, I6. split.
  - rewrite <- (take_drop (Z.to_nat r) ds) at 2. rewrite fmap_app, concat_app, <- app_assoc. by apply prefix_app_r.
  - intros Hall Hbo. assert (r = Z.of_nat (length ds)) as ->.
    { destruct (Z.eq_dec r (Z.of_nat (length ds))); [done|]. destruct Hf as (R1 & R2 & _). destruct R2. apply Hall. lia. }
    rewrite Nat2Z.id, take_ge by done. rewrite (tq_bo _ _ I1) in Hbo. destruct q as [|s q]; [by rewrite app_nil_r|].
    pose proof (remaining_ge (um_sdu <$> s :: q)) as Hge. cbn [fmap list_fmap length] in Hge.
    assert (Hs : Forall sdu_ok (um_sdu <$> s :: q)) by (apply Forall_fmap; apply I1). specialize (Hge Hs). cbn [fmap list_fmap] in Hbo. lia.
Qed.

(** The one more PDU an SDU of 31 PDUs cannot be cut into: the source counts
    it and then asserts that there are fewer than 32. *)
Lemma fragment_limit tx q c g s : tx_queue tx q -> RlcUm.mem_block_ok c = true -> 0 < nb_bytes_requested_by_mac tx ->
  0 < sdu_buffer_occupancy tx -> get_sdu tx (current_sdu_index tx) = Ok s -> nb_pdus s = 31 ->
  rlc_am_segment_10 c g tx = Fault AssertFatal.
Proof.
  intros [Q1 Q2 Q3 Q4 Q5 Q6 Q7 Q8 Q9 Q10 Q11 Q12] Hm Hg Hbo Es Hn.
  destruct q as [|s' q]; [rewrite Q9 in Hbo; cbn in Hbo; lia|]. destruct Q3 as (E & [b B] & _).
  rewrite (get_slot tx _ s') in Es by (lia || done). injection Es as ->.
  unfold rlc_am_segment_10. rewrite (proj2 (Z.leb_gt _ 0) Hbo), (get_slot tx _ s) by (lia || done). step_ok.
  rewrite B, (proj2 (Z.leb_gt _ 0) Hg), Hm. destruct (tx_pdu_ok tx (vt_s tx) Q11 Q12) as (? & _ & ->). step_ok.
  unfold build_pdu. cbn [count_pass]. rewrite (get_slot tx _ s) by (lia || done). step_ok. rewrite B.
  match goal with |- context [count_step ?sz ?st] => assert (C : c_sdus_index (fst (count_step sz st)) = []) by (unfold count_step; by repeat case_match);
    destruct (count_step sz st) as [st' continue] end.
  cbn [fst] in C. rewrite C, Hn. cbn [length]. rproj. by rewrite Hn.
Qed.

(** C9. What does and does not fail on the link of C2. In every state it can
    reach: the submission of an SDU of 1 to 2047 bytes that the ring has room
    for; a new PDU for a grant as in [am_grant_ok]; a copy of an outstanding
    PDU; the arrival of a block at most 512 before the first missing PDU whose
    insertion is not misplaced; and the acknowledgement of an outstanding PDU
    that arrived all return, given blocks of the pool: no assertion fails,
    nothing is read or written outside an array or a block, and no loop runs
    out of fuel. The limit on the number of PDUs of an SDU in [am_grant_ok] is
    needed: when data waits and the SDU at the head of the queue has been cut
    into 31 PDUs, every grant (of a byte at least, with a block of the pool)
    makes assert(nb_pdus < RLC_AM_MAX_SDU_FRAGMENTS)
    of rlc_am_segment.c:298 fail. *)
Theorem am_link_no_fault l : am_reach l ->
  (forall c m sdu, 1 <= Z.of_nat (length sdu) <= 2047 -> room (al_tx l) = true -> exists tx', rlc_am_data_req c (al_tx l) m sdu = Ok tx') /\
  (forall c g grant, RlcUm.mem_block_ok c = true -> let tx0 := (al_tx l) <| nb_bytes_requested_by_mac := grant |> <| segmentation_pdu_list := [] |> in
     am_grant_ok tx0 = true -> exists tx' tb, rlc_am_segment_10 c g tx0 = Ok tx' /\ segmentation_pdu_list tx' = [tb] /\ tb_size tb <= grant) /\
  (forall c k, RlcUm.mem_block_ok c = true -> am_outstanding l k -> exists tx' tb, rlc_am_retransmit_get_copy c (al_tx l) (seq k) = Ok (tx', tb)) /\
  (forall c k tb, RlcUm.mem_block_ok c = true -> (k, tb) ∈ al_air l -> (forall r, first_missing (al_arrived l) r -> r - 512 <= k) ->
     misplaced (al_rx l) (seq k) = false -> exists rx', rlc_am_receive_process_data_pdu c (al_rx l) (tb_bytes tb) (tb_size tb) = Ok rx') /\
  (forall k, k ∈ al_arrived l -> am_outstanding l k -> exists tx', rlc_am_ack_pdu (al_tx l) (seq k) = Ok tx') /\
  (forall c g grant s, RlcUm.mem_block_ok c = true -> 0 < grant -> 0 < sdu_buffer_occupancy (al_tx l) ->
     get_sdu (al_tx l) (current_sdu_index (al_tx l)) = Ok s -> nb_pdus s = 31 ->
     rlc_am_segment_10 c g ((al_tx l) <| nb_bytes_requested_by_mac := grant |> <| segmentation_pdu_list := [] |>) = Fault AssertFatal).
Proof.
  intros (q & A & ds & Hn & HT & HA & HR)%am_reach_inv. pose proof (ti_window _ _ _ _ _ _ HT) as HW. pose proof (tw_range _ _ _ HW) as HRg. split_and!.
  - intros c m sdu Hl Hroom. destruct (submit_inv c m _ _ _ _ _ _ sdu HT Hl Hroom) as (tx' & q' & E & _). by exists tx'.
  - intros c g grant Hm tx0 Hg. destruct (send_inv c g grant _ _ _ _ _ _ HT Hm Hg) as (tx' & q' & d & x & E & _ & Es & Hs & HT'). exists tx'. eexists. split; [exact E|]. split; [exact Es|].
    done.
  - intros c k Hm [Hk Ho]. rewrite Hn in Hk. destruct (copy_inv c _ _ _ _ _ _ k HT Hm (outstanding_window _ _ _ _ HW Hk Ho)) as (tx' & tb & E & _). by exists tx', tb.
  - intros c k tb Hm Hin Hw Hmis. destruct (HA k tb Hin) as (Hk & d & y & Hd & Hy & ->).
    destruct (arrive_inv c _ ds _ A k d y HR (ti_chain _ _ _ _ _ _ HT) (ti_passed _ _ _ _ _ _ HT)) as (rx'' & E' & _); [lia|lia|done..|]. by exists rx''.
  - intros k Ha [Hk Ho]. rewrite Hn in Hk. destruct (ack_inv _ _ _ _ _ _ k HT (outstanding_window _ _ _ _ HW Hk Ho) Ha) as (tx' & q' & A' & E & _). by exists tx'.
  - intros c g grant s Hm Hg Hbo Es Hnb. set (tx0 := (al_tx l) <| nb_bytes_requested_by_mac := grant |> <| segmentation_pdu_list := [] |>).
    assert (HQ : tx_queue tx0 q) by (apply (tx_queue_fields (al_tx l)); try done; apply HT). by apply (fragment_limit tx0 q c g s HQ).
Qed.

(** ** Runs *)

(** A scheduler: each move is made if its conditions hold. *)
Inductive am_move : Type :=
| Submit (m : Z) (sdu : list Z) | Send (grant : Z) | Copy (k : Z) | Arrive (i : nat) | Ack (k : Z).

Definition am_outstandingb (l : am_link) (k : Z) : bool :=
  (al_made l - 512 <=? k) && (k <? al_made l) && (offset (vt_a (al_tx l)) (seq k) <? offset (vt_a (al_tx l)) (vt_s (al_tx l))).

Definition arrivesb (l : am_link) (k : Z) : bool :=
  (0 <=? k) && forallb (fun j => j <? k + 512) (al_arrived l) && negb (misplaced (al_rx l) (seq k)).

Definition am_try (l : am_link) (mv : am_move) : am_link :=
  let '(mk_am_link tx rx air n a sub) := l in
  match mv with
  | Submit m sdu =>
      if (1 <=? Z.of_nat (length sdu)) && (Z.of_nat (length sdu) <=? 2047) && room tx then
        match rlc_am_data_req c0 tx m sdu with Ok tx' => mk_am_link tx' rx air n a (sub ++ [sdu]) | Fault _ => l end
      else l
  | Send grant =>
      let tx0 := tx <| nb_bytes_requested_by_mac := grant |> <| segmentation_pdu_list := [] |> in
      if am_grant_ok tx0 then
        match rlc_am_segment_10 c0 [] tx0 with Ok tx' => mk_am_link tx' rx (air ++ (pair n <$> segmentation_pdu_list tx')) (n + 1) a sub | Fault _ => l end
      else l
  | Copy k =>
      if am_outstandingb l k then
        match rlc_am_retransmit_get_copy c0 tx (seq k) with Ok (tx', tb) => mk_am_link tx' rx (air ++ (pair k <$> option_list tb)) n a sub | Fault _ => l end
      else l
  | Arrive i =>
      match air !! i with
      | Some (k, tb) =>
          if arrivesb l k then
            match rlc_am_receive_process_data_pdu c0 rx (tb_bytes tb) (tb_size tb) with Ok rx' => mk_am_link tx rx' air n (a ++ [k]) sub | Fault _ => l end
          else l
      | None => l
      end
  | Ack k =>
      if bool_decide (k ∈ a) && am_outstandingb l k then
        match rlc_am_ack_pdu tx (seq k) with Ok tx' => mk_am_link tx' rx air n a sub | Fault _ => l end
      else l
  end.

Lemma outstandingb_spec l k : am_outstandingb l k = true -> am_outstanding l k.
Proof. unfold am_outstandingb, am_outstanding. rewrite !andb_true_iff, !Z.ltb_lt, Z.leb_le. lia. Qed.

Lemma arrivesb_spec l k : arrivesb l k = true -> (forall r, first_missing (al_arrived l) r -> r - 512 <= k) /\ misplaced (al_rx l) (seq k) = false.
Proof.
  unfold arrivesb. rewrite !andb_true_iff, negb_true_iff, Z.leb_le, forallb_forall. intros [[Hk Ha] Hm]. split; [|done]. intros r (Hr & _ & Hb).
  destruct (Z.eq_dec r 0) as [->|]; [lia|]. pose proof (Ha _ (proj1 (list_elem_of_In _ _) (Hb (r - 1) ltac:(lia)))) as Hlt. apply Z.ltb_lt in Hlt. lia.
Qed.

Lemma am_try_reach l mv : am_reach l -> am_reach (am_try l mv).
Proof.
  intros H. destruct l as [tx rx air n a sub], mv as [m sdu|grant|k|i|k]; cbn [am_try].
  - destruct (_ && _) eqn:G; [|done]. rewrite !andb_true_iff, !Z.leb_le in G. case_match eqn:E; [|done]. eapply AM_step; [exact H|]. eapply AL_submit; [..|exact E]; tauto.
  - destruct (am_grant_ok _) eqn:G; [|done]. case_match eqn:E; [|done]. eapply AM_step; [exact H|]. by eapply (AL_send _ _ _ _ _ _ c0 [] grant).
  - destruct (am_outstandingb _ _) eqn:G; [|done]. destruct (rlc_am_retransmit_get_copy _ _ _) as [[tx' tb]|] eqn:E; [|done].
    eapply AM_step; [exact H|]. eapply (AL_copy _ _ _ _ _ _ c0 k); [done|by apply outstandingb_spec|exact E].
  - destruct (air !! i) as [[k tb]|] eqn:Ei; [|done]. destruct (arrivesb _ _) eqn:G; [|done]. apply arrivesb_spec in G as [G1 G2]. case_match eqn:E; [|done].
    eapply AM_step; [exact H|]. eapply (AL_arrive _ _ _ _ _ _ c0 k tb); [done|by eapply list_elem_of_lookup_2|exact G1|exact G2|exact E].
  - destruct (_ && _) eqn:G; [|done]. apply andb_true_iff in G as [G1%bool_decide_eq_true G2]. case_match eqn:E; [|done].
    eapply AM_step; [exact H|]. eapply AL_ack; [exact G1|by apply outstandingb_spec|exact E].
Qed.

Definition demo_info : rlc_am_info_t := mk_am_info 4 8 1000 50 40 40.
Definition fresh_tx : rlc_am_entity_t := default blank (config_req_rlc_am false demo_info 1 (Some blank)).

Lemma run_reach mvs : am_reach (foldl am_try (mk_am_link fresh_tx fresh_tx [] 0 [] []) mvs).
Proof.
  induction mvs as [|mv mvs IH] using rev_ind.
  - apply AM_start. assert (E : config_req_rlc_am false demo_info 1 (Some blank) = Some fresh_tx) by by vm_compute.
    exact (AM_init false demo_info demo_info 1 blank blank fresh_tx fresh_tx eq_refl eq_refl eq_refl E E).
  - rewrite foldl_app. by apply am_try_reach.
Qed.

(** Two SDUs in three PDUs; the second PDU is lost, the third comes first, and
    the second is copied after the others were acknowledged. *)
Definition demo_run : list am_move :=
  [Submit 7 [1; 2; 3; 4; 5]; Submit 8 [6; 7; 8; 9; 10; 11]; Send 5; Send 7; Send 60; Arrive 2; Arrive 0; Ack 2; Ack 0; Copy 1; Arrive 3; Arrive 3; Ack 1].

Definition demo_link : am_link := foldl am_try (mk_am_link fresh_tx fresh_tx [] 0 [] []) demo_run.

Lemma am_link_reliable_witness : al_made demo_link = 3 /\ al_arrived demo_link = [2; 0; 1; 1] /\ vt_a (al_tx demo_link) = 3 /\
  upper_sdus (al_rx demo_link) = [[1; 2; 3; 4; 5]; [6; 7; 8; 9; 10; 11]].
Proof.
  split; [by vm_compute|]. split; [by vm_compute|]. split; [by vm_compute|].
  rewrite (proj2 (am_link_reliable demo_link (run_reach demo_run))); [by vm_compute| |by vm_compute].
  assert (E : al_made demo_link = 3) by by vm_compute. assert (Ea : al_arrived demo_link = [2; 0; 1; 1]) by by vm_compute.
  rewrite E, Ea. intros k Hk. assert (Hc : k = 0 \/ k = 1 \/ k = 2) by lia. clear - Hc. destruct Hc as [->|[->| ->]]; rewrite !elem_of_cons; tauto.
Defined.

(** An SDU of 40 bytes and 31 grants of 3 bytes. *)
Definition fragments_link : am_link :=
  foldl am_try (mk_am_link fresh_tx fresh_tx [] 0 [] []) (Submit 7 (replicate 40 5) :: replicate 31 (Send 3)).

Lemma am_link_no_fault_witness : let l := foldl am_try (mk_am_link fresh_tx fresh_tx [] 0 [] []) (take 7 demo_run) in
  (exists tx' tb, rlc_am_retransmit_get_copy c0 (al_tx l) 1 = Ok (tx', tb)) /\ (exists tx', rlc_am_ack_pdu (al_tx l) 2 = Ok tx') /\
  (exists tx', rlc_am_data_req c0 (al_tx l) 9 [1] = Ok tx') /\
  al_made fragments_link = 31 /\
  rlc_am_segment_10 c0 [] ((al_tx fragments_link) <| nb_bytes_requested_by_mac := 3 |> <| segmentation_pdu_list := [] |>) = Fault AssertFatal.
Proof.
  intros l. destruct (am_link_no_fault l (run_reach (take 7 demo_run))) as (H1 & _ & H3 & _ & H5 & _). split_and!.
  - apply (H3 c0 1); [done|]. apply outstandingb_spec. by vm_compute.
  - apply (H5 2); [|apply outstandingb_spec; by vm_compute]. assert (Ea : al_arrived l = [2; 0]) by by vm_compute. rewrite Ea, elem_of_cons. by left.
  - apply (H1 c0 9 [1]); [cbn; lia|by vm_compute].
  - by vm_compute.
  - destruct (am_link_no_fault fragments_link (run_reach _)) as (_ & _ & _ & _ & _ & H6).
    destruct (get_sdu (al_tx fragments_link) (current_sdu_index (al_tx fragments_link))) as [s|] eqn:E; [|by vm_compute in E].
    apply (H6 c0 [] 3 s); [done|lia|by vm_compute|reflexivity|]. assert (Hn : nb_pdus <$> get_sdu (al_tx fragments_link) (current_sdu_index (al_tx fragments_link)) = Ok 31) by by vm_compute.
    rewrite E in Hn. by injection Hn.
Defined.

End RlcAmSystem.
