(* ===== verification/RlcAmTxClaims.v ===== *)
(** * RLC AM: where the transmitter goes wrong

    Polls that are lost, blocks with bytes nobody wrote, a PDU that is repeated
    at every opportunity, and an SDU that is confirmed in place of another. *)

From S2P Require Import Prelude RlcUmEntity RlcUmSegment RlcUmTx RlcAmStatus RlcAmEntity RlcAmReport RlcAmRx RlcAmTx RlcAmSegment RlcAmRetransmit RlcAmQueue RlcAmSegProofs RlcAmAck RlcAmLink RlcAmSystem.
Import RlcUmSegment RlcUmTx RlcAmStatus RlcAmEntity RlcAmReport RlcAmRx RlcAmTx RlcAmSegment RlcAmRetransmit RlcAmQueue RlcAmSegProofs RlcAmAck RlcAmLink RlcAmSystem.

Module RlcAmTxClaims.

Definition tx_ctxt : protocol_ctxt_t := RlcUm.mk_ctxt 0 0 true true true.
Definition tx_info : rlc_am_info_t := mk_am_info 4 8 1000 50 40 40.
Definition tx_entity : rlc_am_entity_t := default blank (config_req_rlc_am false tx_info 1 (Some blank)).

Definition value_of (r : res rlc_am_entity_t) : rlc_am_entity_t := match r with Ok e => e | Fault _ => blank end.

Fixpoint submit (e : rlc_am_entity_t) (m : Z) (sdus : list (list Z)) : res rlc_am_entity_t :=
  match sdus with [] => Ok e | s :: rest => e ← rlc_am_data_req tx_ctxt e m s; submit e (m + 1) rest end.

(** A transmission opportunity of [grant] bytes. *)
Definition opportunity (g : list Z) (e : rlc_am_entity_t) (grant : Z) : res (list mac_tb * rlc_am_entity_t) :=
  '(data, _, e) ← rlc_am_mac_data_request tx_ctxt g (e <| nb_bytes_requested_by_mac := grant |>);
  Ok (data, e).

Fixpoint opportunities (g : list Z) (e : rlc_am_entity_t) (grants : list Z) : res (list (list mac_tb) * rlc_am_entity_t) :=
  match grants with
  | [] => Ok ([], e)
  | n :: rest =>
      '(data, e) ← opportunity g e n;
      '(more, e) ← opportunities g e rest;
      Ok (data :: more, e)
  end.

(** ** Bytes nobody wrote *)

(** A block can end with bytes nobody wrote, and they become part of the
    SDU. A freshly configured transmitter has one SDU of five bytes and another
    of any length behind it, and a grant of nine bytes. The counting pass gives
    two bytes back, but the size of the block still has them: the block of nine
    bytes ends with what the memory pool left there, and a freshly configured
    receiver hands up an SDU of seven bytes. *)
Theorem am_trailing_bytes a b c d f x y g0 g1 g2 g3 g4 :
  exists tx tb rx, submit tx_entity 1 [[a; b; c; d; f]; [x; y]] = Ok tx /\
    fst <$> opportunity [g0; g1; g2; g3; g4] tx 9 = Ok [tb] /\ tb = mk_tb 9 [0x80; 0; a; b; c; d; f; g3; g4] /\
    rlc_am_mac_data_indication tx_ctxt tx_entity [tb] = Ok rx /\ upper_sdus rx = [[a; b; c; d; f; g3; g4]].
Proof.
  eexists _, _, _. split; [by vm_compute|]. split; [by vm_compute|]. split; [by vm_compute|]. split; [by vm_compute|by vm_compute].
Qed.

(** ** A poll that is lost *)

Lemma remaining_after s p rest : remaining (queue_after s p rest) = RlcUm.sdu_remaining_size s - p + remaining rest.
Proof. unfold queue_after. destruct (Z.eqb_spec p (RlcUm.sdu_remaining_size s)); rewrite ?remaining_cons; cbn; lia. Qed.

Lemma poll_bit x fi (h : bool) s : bit x -> 0 <= fi <= 3 -> 0 <= s < RLC_AM_SN_MODULO -> Z.land (am_b1 x fi h s) 0x20 = 0x20 * x.
Proof. intros. by b1_cases. Qed.

(** The poll the poll timer asks for is not sent when more data waits. The
    timer has expired ([force_poll]) and a new PDU is made, of a part of the
    data. Polling is called twice for it: for the stored PDU, which gets the
    poll and clears the request, and for the copy that is sent, which does not
    get it, unless the thresholds are met by this PDU alone or the window is
    full. The block for MAC has P = 0 and the request is forgotten. *)
Lemma am_forced_poll_lost c g e q : tx_queue e q -> q <> [] -> (length q <= 31)%nat -> Forall (fun s => nb_pdus s < 31) q -> RlcUm.mem_block_ok c = true ->
  2 < nb_bytes_requested_by_mac e < RLC_SDU_MAX_SIZE -> segmentation_pdu_list e = [] -> force_poll e = true ->
  1 < poll_pdu e -> nb_bytes_requested_by_mac e <= poll_byte e -> nb_bytes_requested_by_mac e <= sdu_buffer_occupancy e -> next_sn (vt_s e) <> vt_ms e ->
  exists e' tb b p b', rlc_am_segment_10 c g e = Ok e' /\ segmentation_pdu_list e' = [tb] /\ tb_bytes tb !! 0%nat = Some b /\ Z.land b 0x20 = 0 /\
    force_poll e' = false /\ pdu_retrans_buffer e' !! Z.to_nat (vt_s e) = Some p /\ (pdu_block p ≫= lookup 0%nat) = Some b' /\ Z.land b' 0x20 = 0x20.
Proof.
  intros HQ Hne H31 Hn Hm Hnb Hseg Hforce Hpp Hpb Hbo Hvt.
  destruct (segment_emitted c g e q HQ Hne H31 Hn Hm Hnb) as (e' & q' & full & s & rest & p & slack & trail & x1 & x2 & E & C & HT & M).
  set (size := choose_pdu_size _ _) in *. pose proof (choose_size e q _ HQ Hne (proj1 Hnb)) as [Hs1 _]. fold size in Hs1. pose proof C as [C1 C2 C3 C4 C5].
  pose proof HQ as [Q1 Q2 Q3 Q4 Q5 Q6 Q7 Q8 Q9 Q10 Q11 Q12]. destruct M as [M1 M2 M3 M4 M5 M6 (at_ & M7) M8 M9 M10 M11].
  assert (Hok : Forall sdu_ok (um_sdu <$> q)) by by apply Forall_fmap.
  pose proof (li_cost_ge 1 (length full) (or_introl eq_refl)) as Hli.
  assert (H0 : 0 <= remaining full).
  { rewrite C1 in Hok. apply Forall_app in Hok as [Hok _]. pose proof (remaining_ge _ Hok). lia. }
  assert (Hx2 : x2 = 0).
  { destruct (proj2 M5) as [Hx|Hx]; [done|]. destruct (M9 (M8 Hforce) Hx) as [H|[H|[[H _]|H]]]; [lia| |exfalso|by rewrite M3 in H].
    - unfold RLC_SDU_MAX_SIZE in Hnb. rewrite s16_small, u32_small in H by lia. lia.
    - rewrite (tq_bo _ _ M1), M2, remaining_after in H. rewrite Q9, C1, remaining_app, remaining_cons in Hbo. lia. }
  assert (Hb : forall x, bit x -> exists b, pdu_bytes x (um_sdu <$> q) full s p (vt_s e) trail !! 0%nat = Some b /\ Z.land b 0x20 = 0x20 * x).
  { intros x Hx. eexists. split; [reflexivity|]. apply poll_bit; [done|apply framing_range|done]. }
  destruct (Hb x1 (proj1 M5)) as (b1 & B1 & L1). destruct (Hb x2 (proj2 M5)) as (b2 & B2 & L2). rewrite (M8 Hforce) in L1. rewrite Hx2 in L2.
  exists e'. do 2 eexists. eexists. exists b1. split; [exact E|]. split; [rewrite M6, Hseg; reflexivity|]. split; [exact B2|]. split; [exact L2|]. split; [by apply M10|].
  split; [rewrite M7; apply list_lookup_insert_eq; rewrite Q11; lia|]. by split.
Qed.

Definition one_sdu : rlc_am_entity_t := value_of (rlc_am_data_req tx_ctxt tx_entity 1 (replicate 20 7)).
Definition poll_now : rlc_am_entity_t := one_sdu <| nb_bytes_requested_by_mac := 10 |> <| force_poll := true |>.

Lemma granted_queue e q n b : tx_queue e q -> tx_queue (e <| nb_bytes_requested_by_mac := n |> <| force_poll := b |>) q.
Proof. by apply tx_queue_fields. Qed.

Lemma poll_now_queue : tx_queue poll_now [new_sdu tx_ctxt 1 (replicate 20 7)].
Proof.
  assert (H : tx_queue tx_entity []).
  { apply (ti_queue _ _ 0 [] [] []). apply (configured_tx false tx_info 1 blank); [done|by vm_compute]. }
  destruct (data_req_queue tx_ctxt 1 tx_entity [] (replicate 20 7) H) as (e & E & HQ & _); [by vm_compute|by vm_compute|].
  unfold poll_now. apply granted_queue. assert (one_sdu = e) as ->; [|done]. unfold one_sdu. by rewrite E.
Qed.

Lemma am_forced_poll_lost_witness : exists e' tb b, rlc_am_segment_10 tx_ctxt [] poll_now = Ok e' /\ segmentation_pdu_list e' = [tb] /\
  tb_bytes tb !! 0%nat = Some b /\ Z.land b 0x20 = 0 /\ force_poll e' = false.
Proof.
  destruct (am_forced_poll_lost tx_ctxt [] poll_now _ poll_now_queue) as (e' & tb & b & p & b' & H1 & H2 & H3 & H4 & H5 & _); [done|cbn; lia|by repeat constructor|done|..].
  1,4,5,6: vm_compute; done. 1,2: by vm_compute. 1: by vm_compute. by exists e', tb, b.
Defined.

(** ** A PDU that is repeated *)

(** PDU [s] is the first to retransmit, as a whole; its retransmissions can be
    counted [n] more times; no status report is due. *)
Record repeating (e : rlc_am_entity_t) (s : Z) (fi : Z) (h : bool) (rest : list Z) (n : nat) : Prop := {
  rp_state : protocol_state e = RLC_DATA_TRANSFER_READY_STATE;
  rp_status : status_requested e = false;
  rp_first : first_retrans_pdu_sn e = s;
  rp_range : 0 <= s < RLC_AM_SN_MODULO /\ s <> vt_s e /\ 0 <= fi <= 3;
  rp_buffer : length (pdu_retrans_buffer e) = Z.to_nat RLC_AM_SN_MODULO;
  rp_mac : pdus_to_mac_layer e = [];
  rp_pdu : exists x q, bit x /\ get_pdu e s = Ok q /\ pdu_block q = Some (am_b1 x fi h s :: rest) /\ header_and_payload_size q = 1 + Z.of_nat (length rest) /\
    nack_so_start q = 0 /\ nack_so_stop q = 0x7FFF /\ 0 <= retx_count q /\ retx_count q + Z.of_nat n <= 127
}.

Lemma s8_small x : 0 <= x <= 127 -> s8 x = x.
Proof. intros. unfold s8. rewrite Z.mod_small by lia. lia. Qed.

Lemma get_pdu_eq e e' s : pdu_retrans_buffer e' = pdu_retrans_buffer e -> get_pdu e' s = get_pdu e s.
Proof. intros E. unfold get_pdu. by rewrite E. Qed.

Lemma send_whole c g e q e2 tb q2 : 2 < nb_bytes_requested_by_mac e -> 0 <= first_retrans_pdu_sn e -> first_retrans_pdu_sn e <> vt_s e ->
  get_pdu e (first_retrans_pdu_sn e) = Ok q -> header_and_payload_size q <= nb_bytes_requested_by_mac e -> 0 <= retx_count q -> nack_so_start q = 0 -> nack_so_stop q = 0x7FFF ->
  rlc_am_retransmit_get_copy c e (first_retrans_pdu_sn e) = Ok (e2, tb) -> get_pdu e2 (first_retrans_pdu_sn e) = Ok q2 ->
  send_retransmission c g e = Ok (put_pdu (first_retrans_pdu_sn e) (q2 <| retx_count ::= fun n => s8 (n + 1) |>)
    ((count_retransmitted (header_and_payload_size q2) e2) <| pdus_to_mac_layer ::= fun l => l ++ option_list tb |>
       <| nb_bytes_requested_by_mac ::= fun n => n - header_and_payload_size q2 |>), true).
Proof.
  intros H1 H2 H3 Eq Hs Hc E0 E1 Ec E2. unfold send_retransmission. apply Z.ltb_lt in H1. apply Z.leb_le in H2, Hs, Hc. apply Z.eqb_neq in H3.
  apply Z.eqb_eq in E0, E1. cbv zeta. rewrite H1, H2, H3. change (true && true && negb false) with true. cbv iota. rewrite Eq. step_ok. rewrite Hs, Hc, E0, E1.
  change (true && true && true && true) with true. cbv iota. rewrite Ec. step_ok. rewrite E2. step_ok. reflexivity.
Qed.

Lemma opportunity_retransmits g e grant e' : protocol_state e = RLC_DATA_TRANSFER_READY_STATE -> status_requested e = false ->
  send_retransmission tx_ctxt g (e <| nb_bytes_requested_by_mac := grant |>) = Ok (e', true) ->
  opportunity g e grant = Ok (pdus_to_mac_layer e', e' <| pdus_to_mac_layer := [] |>).
Proof.
  intros R1 R2 E. unfold opportunity, rlc_am_mac_data_request, rlc_am_get_pdus. rproj. rewrite R1, R2, Z.eqb_refl, andb_false_r, andb_false_l. cbv iota. step_ok.
  rewrite E. by repeat step_ok.
Qed.

(** What a copy leaves alone. *)
Lemma copy_keeps e1 e2 : polled e1 e2 -> (protocol_state e2, status_requested e2, first_retrans_pdu_sn e2, vt_s e2, sdu_buffer_occupancy e2, pdus_to_mac_layer e2, pdu_retrans_buffer e2) =
  (protocol_state e1, status_requested e1, first_retrans_pdu_sn e1, vt_s e1, sdu_buffer_occupancy e1, pdus_to_mac_layer e1, pdu_retrans_buffer e1).
Proof.
  intros P. pfield protocol_state P. pfield status_requested P. pfield first_retrans_pdu_sn P. pfield vt_s P. pfield sdu_buffer_occupancy P. pfield pdus_to_mac_layer P.
  by pfield pdu_retrans_buffer P.
Qed.

Lemma opportunity_repeats g e s fi h rest n grant : repeating e s fi h rest (S n) -> 2 < grant -> 1 + Z.of_nat (length rest) <= grant ->
  exists e' x, bit x /\ opportunity g e grant = Ok ([mk_tb (1 + Z.of_nat (length rest)) (am_b1 x fi h s :: rest)], e') /\ repeating e' s fi h rest n /\
    vt_s e' = vt_s e /\ sdu_buffer_occupancy e' = sdu_buffer_occupancy e.
Proof.
  intros [R1 R2 R3 (R4 & R5 & R6) R7 R8 (x & q & Hx & Eq & Eb & Esz & E0 & E1 & Hc & Hn)] Hg Hsz. remember (e <| nb_bytes_requested_by_mac := grant |>) as e0 eqn:H0.
  assert (K0 : (protocol_state e0, status_requested e0, first_retrans_pdu_sn e0, vt_s e0, sdu_buffer_occupancy e0, pdus_to_mac_layer e0, pdu_retrans_buffer e0, nb_bytes_requested_by_mac e0) =
    (protocol_state e, status_requested e, s, vt_s e, sdu_buffer_occupancy e, [], pdu_retrans_buffer e, grant)) by (rewrite H0; rproj; by rewrite R3, R8).
  injection K0 as K1 K2 K3 K4 K5 K6 K7 K8.
  assert (Eq0 : get_pdu e0 s = Ok q) by by rewrite (get_pdu_eq e). destruct (get_copy_spec tx_ctxt e0 s q x fi h rest Eq0 Eb Esz Hx R6 R4 eq_refl) as (e2 & E2 & P).
  set (b := if poll_due _ _ then 1 else 0) in E2. assert (Hb : bit b) by apply bit_of. clearbody b. apply copy_keeps in P. unfold put_pdu in P. rproj_in P.
  rewrite K1, K2, K3, K4, K5, K6, K7 in P. injection P as P1 P2 P3 P4 P5 P6 P7.
  set (q1 := q <| retransmit := 0 |>) in P7. assert (Q1 : retx_count q1 = retx_count q /\ header_and_payload_size q1 = header_and_payload_size q) by done.
  assert (Q2 : pdu_block q1 = pdu_block q /\ nack_so_start q1 = nack_so_start q /\ nack_so_stop q1 = nack_so_stop q) by done. clearbody q1. destruct Q1 as [Q1 Q1'].
  assert (G2 : get_pdu e2 s = Ok q1).
  { unfold get_pdu. rewrite P7. rewrite list_lookup_insert_eq by (rewrite R7; lia). by rewrite (proj2 (Z.ltb_ge _ _)) by lia. }
  pose proof (send_whole tx_ctxt g e0 q e2 (Some (mk_tb (header_and_payload_size q) (am_b1 b fi h s :: rest))) q1) as E. rewrite K3, K4, K8 in E. specialize (E Hg (proj1 R4) R5 Eq0 ltac:(lia) Hc E0 E1 E2 G2). rewrite H0 in E.
  apply opportunity_retransmits in E; [|done..]. rewrite Q1' in E. clear H0 Eq0 E2 G2 K1 K2 K3 K4 K5 K6 K7 K8.
  set (q2 := q1 <| retx_count ::= _ |>) in E. assert (Q3 : retx_count q2 = retx_count q + 1) by (unfold q2; rproj; rewrite Q1; apply s8_small; lia).
  assert (Q4 : header_and_payload_size q2 = header_and_payload_size q /\ pdu_block q2 = pdu_block q /\ nack_so_start q2 = nack_so_start q /\ nack_so_stop q2 = nack_so_stop q) by (unfold q2; rproj; tauto).
  clearbody q2. destruct Q4 as (Q4 & Q5 & Q6 & Q7). set (e3 := put_pdu s q2 _) in E.
  assert (K3 : (protocol_state e3, status_requested e3, first_retrans_pdu_sn e3, vt_s e3, sdu_buffer_occupancy e3, pdus_to_mac_layer e3, pdu_retrans_buffer e3) =
    (protocol_state e, false, s, vt_s e, sdu_buffer_occupancy e, [mk_tb (1 + Z.of_nat (length rest)) (am_b1 b fi h s :: rest)], <[Z.to_nat s := q2]> (pdu_retrans_buffer e))).
  { unfold e3, put_pdu, count_retransmitted. rproj. rewrite P1, P2, P3, P4, P5, P6, P7, R2, <- Esz, list_insert_insert_eq. done. }
  clearbody e3. injection K3 as F1 F2 F3 F4 F5 F6 F7. rewrite F6 in E. eexists _, b. split; [done|]. split; [exact E|]. rproj. split; [|done].
  split; rproj; rewrite ?F1, ?F2, ?F3, ?F4, ?F7, ?length_insert; try done.
  exists x, q2. split; [done|]. split; [|rewrite Q3, Q4, Q5, Q6, Q7; do 4 (split; [done|]); lia].
  unfold get_pdu. rproj. rewrite F7. rewrite list_lookup_insert_eq by (rewrite R7; lia). by rewrite (proj2 (Z.ltb_ge _ _)) by lia.
Qed.

(** C39. A PDU the peer asks for starves everything else. The whole PDU [s] was
    reported missing and is the first to retransmit. At every one of the next
    opportunities that can hold it, as many as its counter allows (up to 127),
    that PDU is sent again and nothing else: not the other PDUs reported
    missing, not new data. *)
Theorem am_retransmission_starves g e s fi h rest grants : repeating e s fi h rest (length grants) ->
  Forall (fun grant => 2 < grant /\ 1 + Z.of_nat (length rest) <= grant) grants ->
  exists blocks e', opportunities g e grants = Ok (blocks, e') /\ length blocks = length grants /\
    Forall (fun data => exists x, bit x /\ data = [mk_tb (1 + Z.of_nat (length rest)) (am_b1 x fi h s :: rest)]) blocks /\
    first_retrans_pdu_sn e' = s /\ vt_s e' = vt_s e /\ sdu_buffer_occupancy e' = sdu_buffer_occupancy e.
Proof.
  revert e. induction grants as [|grant grants IH]; intros e R HG.
  - exists [], e. split; [done|]. split; [done|]. split; [constructor|]. split; [apply R|done].
  - apply Forall_cons in HG as [[H1 H2] HG]. destruct (opportunity_repeats g e s fi h rest _ grant R H1 H2) as (e1 & x & Hx & E & R' & V & B).
    destruct (IH e1 R' HG) as (blocks & e' & E' & HL & HF & H3 & H4 & H5). cbn [opportunities]. rewrite E. step_ok. rewrite E'. step_ok.
    do 2 eexists. split; [reflexivity|]. split; [cbn; lia|]. split; [constructor; [by exists x|done]|]. split; [done|]. by rewrite H4, H5.
Qed.

(** Three SDUs of two bytes; two PDUs are sent and a STATUS PDU with ACK_SN 2
    asks for both of them. *)
Definition both_missing : rlc_am_entity_t := value_of (
  e ← submit tx_entity 1 [[1; 2]; [3; 4]; [5; 6]];
  '(_, e) ← opportunities [] e [4; 4];
  rlc_am_mac_data_indication tx_ctxt e [mk_tb 5 [0; 10; 0; 64; 8]]).

Lemma both_missing_repeating : repeating both_missing 0 0 false [0; 1; 2] 3.
Proof.
  split; [by vm_compute|by vm_compute|by vm_compute| |by vm_compute|by vm_compute|].
  - split; [done|]. split; [by vm_compute|done].
  - exists 0, (match get_pdu both_missing 0 with Ok q => q | Fault _ => zero_pdu end). split; [by left|].
    split; [by vm_compute|]. split; [by vm_compute|]. split; [by vm_compute|]. split; [by vm_compute|]. split; [by vm_compute|]. split; by vm_compute.
Qed.

Lemma am_retransmission_starves_witness : exists blocks e', opportunities [] both_missing [4; 100; 20] = Ok (blocks, e') /\ length blocks = 3%nat /\
  Forall (fun data => exists x, bit x /\ data = [mk_tb 4 (am_b1 x 0 false 0 :: [0; 1; 2])]) blocks.
Proof.
  destruct (am_retransmission_starves [] both_missing 0 0 false [0; 1; 2] [4; 100; 20] both_missing_repeating) as (blocks & e' & E & HL & HF & _).
  - repeat constructor; cbn; lia.
  - exists blocks, e'. exact (conj E (conj HL HF)).
Defined.

(** ** The wrong SDU is confirmed *)

(** SDU [m] has one byte and is sent in a PDU of its own. *)
Fixpoint send_each (n : nat) (m : Z) (e : rlc_am_entity_t) : res rlc_am_entity_t :=
  match n with
  | O => Ok e
  | S n' => e ← rlc_am_data_req tx_ctxt e m [m]; '(_, e) ← opportunity [] e 3; send_each n' (m + 1) e
  end.

(** After 128 SDUs that were sent and not acknowledged, the next one takes
    the slot of the first. SDUs 0 to 128 are sent, each in its own PDU, and the
    peer acknowledges PDU 0 only: PDCP is told that SDU 128 was delivered, and
    is not told of SDU 0; when all other PDUs are acknowledged, SDU 0 is still
    not confirmed. *)
Lemma am_wrong_sdu_confirmed :
  (e ← send_each 129 0 tx_entity; e ← rlc_am_mac_data_indication tx_ctxt e [mk_tb 2 [0; 4]]; Ok (vt_a e, data_confs e)) = Ok (1, [(128, RLC_SDU_CONFIRM_YES)]) /\
  (e ← send_each 129 0 tx_entity; e ← rlc_am_mac_data_indication tx_ctxt e [mk_tb 2 [0; 4]]; e ← rlc_am_mac_data_indication tx_ctxt e [mk_tb 2 [2; 4]];
   Ok (vt_a e, fst <$> data_confs e)) = Ok (129, 128 :: (Z.of_nat <$> List.seq 1 127)).
Proof. split; vm_compute; reflexivity. Qed.

End RlcAmTxClaims.
