(* ===== verification/RlcTm.v ===== *)
(** * RLC TM: transparent mode

    openair2/LAYER2/RLC/TM_v9.3.0: rlc_tm.c and rlc_tm_init.c. An SDU is handed
    to MAC as it is, one per request. Sizes are in bits in these files; the
    callers pass bytes. *)

From S2P Require Import Prelude RlcUmEntity RlcAmEntity.

Module RlcTm.

Notation protocol_ctxt_t := RlcUm.protocol_ctxt_t.
Notation mac_tb := RlcAmEntity.mac_tb.

(** A block of the queue: [struct rlc_tm_tx_sdu_management], and the memory
    from [first_byte] to the end of the block. *)
Record tm_sdu : Type := mk_tm_sdu { tm_memory : list Z; tm_sdu_size : Z }.

(** [tm_input_sdus] is [None] while [input_sdus_alloc] is NULL. [tm_upper]
    records the up-calls [rlc_data_ind], oldest first. *)
Record rlc_tm_entity_t : Type := mk_tm {
  tm_allocation : Z; tm_protocol_state : Z; tm_is_uplink_downlink : Z; tm_is_data_plane : bool; tm_rb_id : Z;
  tm_input_sdus : option (list (option tm_sdu)); tm_size_input_sdus_buffer : Z; tm_nb_sdu : Z; tm_next_sdu_index : Z; tm_current_sdu_index : Z;
  tm_pdus_to_mac_layer : list mac_tb; tm_rlc_pdu_size : Z; tm_buffer_occupancy : Z;
  tm_output_sdu_size_to_write : Z; tm_output_sdu_in_construction : option (list Z);
  tm_upper : list (list Z)
}.
#[export] Instance tm_settable : Settable rlc_tm_entity_t := fun e =>
  mk_tm (tm_allocation e) (tm_protocol_state e) (tm_is_uplink_downlink e) (tm_is_data_plane e) (tm_rb_id e)
    (tm_input_sdus e) (tm_size_input_sdus_buffer e) (tm_nb_sdu e) (tm_next_sdu_index e) (tm_current_sdu_index e)
    (tm_pdus_to_mac_layer e) (tm_rlc_pdu_size e) (tm_buffer_occupancy e) (tm_output_sdu_size_to_write e) (tm_output_sdu_in_construction e) (tm_upper e).

(** [memset(rlcP, 0, sizeof(rlc_tm_entity_t))] *)
Definition tm_zero (e : rlc_tm_entity_t) : rlc_tm_entity_t := mk_tm 0 0 0 false 0 None 0 0 0 0 [] 0 0 0 None (tm_upper e).
Definition tm_blank : rlc_tm_entity_t := mk_tm 0 0 0 false 0 None 0 0 0 0 [] 0 0 0 None [].

(** ** rlc_tm_init.c *)

(** The buffer of the queue is a block of the pool, read without a test. *)
Definition rlc_tm_init (c : protocol_ctxt_t) (e : rlc_tm_entity_t) : res rlc_tm_entity_t :=
  if RlcUm.mem_block_ok c then
    Ok ((tm_zero e) <| tm_allocation := tm_allocation e |> <| tm_protocol_state := RlcAmEntity.RLC_NULL_STATE |>
          <| tm_size_input_sdus_buffer := 16 |> <| tm_input_sdus := Some (replicate 16 None) |>)
  else Fault OutOfBounds.

Definition rlc_tm_reset_state_variables (e : rlc_tm_entity_t) : rlc_tm_entity_t :=
  e <| tm_output_sdu_size_to_write := 0 |> <| tm_buffer_occupancy := 0 |> <| tm_nb_sdu := 0 |> <| tm_next_sdu_index := 0 |> <| tm_current_sdu_index := 0 |>.

(** Every block the entity owns is released, then the object is cleared. *)
Definition rlc_tm_cleanup (e : rlc_tm_entity_t) : rlc_tm_entity_t := tm_zero e.

Definition rlc_tm_configure (e : rlc_tm_entity_t) (is_uplink_downlinkP : Z) : rlc_tm_entity_t :=
  rlc_tm_reset_state_variables (e <| tm_is_uplink_downlink := is_uplink_downlinkP |>).

Definition rlc_tm_set_debug_infos (e : rlc_tm_entity_t) (srb_flagP rb_idP : Z) : rlc_tm_entity_t :=
  e <| tm_rb_id := rb_idP |> <| tm_is_data_plane := srb_flagP =? 0 |>.

(** The identity of the bearer and the flag are passed in the wrong order.
    [rlc_p] is the entity the collection holds. *)
Definition config_req_rlc_tm (c : protocol_ctxt_t) (srb_flagP : bool) (is_uplink_downlink rb_idP : Z) (rlc_p : option rlc_tm_entity_t)
    : res (option rlc_tm_entity_t) :=
  match rlc_p with
  | None => Ok None
  | Some e =>
      e ← rlc_tm_init c e;
      let e := e <| tm_protocol_state := RlcAmEntity.RLC_DATA_TRANSFER_READY_STATE |> in
      Ok (Some (rlc_tm_configure (rlc_tm_set_debug_infos e rb_idP (Z.b2z srb_flagP)) is_uplink_downlink))
  end.

(** ** rlc_tm.c *)

(** [srcP] is the memory from there on. The SDU is copied behind the first
    [output_sdu_size_to_write] bytes, and handed up with the length of the
    copy. *)
Definition rlc_tm_send_sdu (c : protocol_ctxt_t) (e : rlc_tm_entity_t) (srcP : list Z) (length_in_bitsP : Z) : res rlc_tm_entity_t :=
  let n := Z.shiftr (length_in_bitsP + 7) 3 in
  match match tm_output_sdu_in_construction e with Some b => Some b | None => if RlcUm.mem_block_ok c then Some [] else None end with
  | None => Ok e
  | Some block =>
      if (n <? 0) || (Z.of_nat (length srcP) <? n) then Fault OutOfBounds
      else
        let sdu := take (Z.to_nat n) (take (Z.to_nat (tm_output_sdu_size_to_write e)) block ++ take (Z.to_nat n) srcP) in
        Ok (e <| tm_upper ::= fun l => l ++ [sdu] |> <| tm_output_sdu_in_construction := None |>)
  end.

(** [while ((input_sdus[current_sdu_index]) && (nb_pdu_to_transmit > 0))]: the
    counter is never changed, so all SDUs of the queue are taken. *)
Fixpoint no_segment_loop (fuel : nat) (c : protocol_ctxt_t) (e : rlc_tm_entity_t) : res rlc_tm_entity_t :=
  match tm_input_sdus e with
  | None => Fault OutOfBounds
  | Some q =>
      o ← of_option OutOfBounds (q !! Z.to_nat (tm_current_sdu_index e));
      match o with
      | None => Ok e
      | Some s =>
          match fuel with
          | O => Fault OutOfFuel
          | S fuel' =>
              if negb (RlcUm.mem_block_ok c) then Ok e
              else
                let n := Z.shiftr (tm_rlc_pdu_size e + 7) 3 in
                if (n <? 0) || (Z.of_nat (length (tm_memory s)) <? n) then Fault OutOfBounds
                else
                  let tb := RlcAmEntity.mk_tb (Z.shiftr (tm_rlc_pdu_size e) 3) (take (Z.to_nat n) (tm_memory s)) in
                  no_segment_loop fuel' c
                    (e <| tm_pdus_to_mac_layer ::= fun l => l ++ [tb] |>
                       <| tm_buffer_occupancy ::= fun b => s32 (b - Z.shiftr (tm_sdu_size s) 3) |>
                       <| tm_input_sdus := Some (<[Z.to_nat (tm_current_sdu_index e) := None]> q) |>
                       <| tm_current_sdu_index ::= fun i => Z.rem (i + 1) (tm_size_input_sdus_buffer e) |>
                       <| tm_nb_sdu ::= fun k => u16 (k - 1) |>)
          end
      end
  end.

(** Fuel: a round empties a slot. *)
Definition rlc_tm_no_segment (c : protocol_ctxt_t) (e : rlc_tm_entity_t) : res rlc_tm_entity_t := no_segment_loop 17 c e.

(** [struct mac_data_ind]: the blocks and [tb_size], in bits. *)
Fixpoint rx_loop (c : protocol_ctxt_t) (e : rlc_tm_entity_t) (data : list mac_tb) (tb_size : Z) : res rlc_tm_entity_t :=
  match data with
  | [] => Ok e
  | tb :: rest => e ← rlc_tm_send_sdu c e (RlcAmEntity.tb_bytes tb) tb_size; rx_loop c e rest tb_size
  end.

Definition rlc_tm_rx (c : protocol_ctxt_t) (e : rlc_tm_entity_t) (data : list mac_tb) (tb_size : Z) : res rlc_tm_entity_t :=
  rx_loop c (e <| tm_output_sdu_size_to_write := 0 |>) data tb_size.

(** The result has the occupancy in bytes and in PDUs, and the state. *)
Definition rlc_tm_mac_status_indication (e : rlc_tm_entity_t) (tb_sizeP : Z) : res (Z * Z * Z * rlc_tm_entity_t) :=
  let e := e <| tm_rlc_pdu_size := tb_sizeP |> in
  if tb_sizeP =? 0 then Fault DivByZero
  else Ok (tm_buffer_occupancy e, Z.quot (tm_buffer_occupancy e) tb_sizeP, tm_protocol_state e, e).

Definition rlc_tm_mac_data_request (c : protocol_ctxt_t) (e : rlc_tm_entity_t) : res (list mac_tb * rlc_tm_entity_t) :=
  e ← rlc_tm_no_segment c e;
  let data := tm_pdus_to_mac_layer e in
  let e := e <| tm_pdus_to_mac_layer := [] |> in
  if tm_rlc_pdu_size e =? 0 then Fault DivByZero else Ok (data, e).

Definition rlc_tm_mac_data_indication (c : protocol_ctxt_t) (e : rlc_tm_entity_t) (data : list mac_tb) (tb_size : Z) : res rlc_tm_entity_t :=
  rlc_tm_rx c e data tb_size.

(** [memory] is the block of the SDU from its first byte on, [data_size] the
    size the caller wrote. *)
Definition rlc_tm_data_req (e : rlc_tm_entity_t) (memory : list Z) (data_size : Z) : res rlc_tm_entity_t :=
  match tm_input_sdus e with
  | None => Fault OutOfBounds
  | Some q =>
      o ← of_option OutOfBounds (q !! Z.to_nat (tm_next_sdu_index e));
      match o with
      | None =>
          let size := u16 data_size in
          Ok (e <| tm_buffer_occupancy ::= fun b => s32 (b + Z.shiftr size 3) |> <| tm_nb_sdu ::= fun k => u16 (k + 1) |>
                <| tm_input_sdus := Some (<[Z.to_nat (tm_next_sdu_index e) := Some (mk_tm_sdu memory size)]> q) |>
                <| tm_next_sdu_index ::= fun i => Z.rem (i + 1) (tm_size_input_sdus_buffer e) |>)
      | Some _ => Ok e
      end
  end.

End RlcTm.
