(* ===== verification/RlcLayer.v ===== *)
(** * The RLC layer: the entities of the bearers

    openair2/LAYER2/RLC: rlc.c, rlc_mac.c and rlc_rrc.c, with [Rel10]. The
    entities are kept in a collection keyed by [RLC_COLL_KEY_VALUE], used
    through the interface [Collection.CollectionOps]; the arrays of MBMS
    channels are the rest of the state. The handlers of the entities are those
    of the models of UM, AM and TM.

    A call takes the identity of the UE and the context the entities are given
    ([layer_ctxt]). An object of the union that is used as another member than
    the one it was made for is [Fault OutOfBounds]. What a handler hands to
    PDCP and RRC is recorded in the entity; [indications] and [confirmations]
    are the calls that makes. *)

From S2P Require Import Prelude HashTable Collection RlcUmEntity RlcUmTop RlcAmEntity RlcAmRetransmit RlcTm.
Import Collection RlcTm.

Module RlcLayer.

(** [maxDRB] (11), [maxSessionPerPMCH] (29), [maxServiceCount] (16) and
    [max_val_DRB_Identity] (32) are constants of TS 36.331, in the generated
    asn1_constants.h. *)
Definition NB_RB_MAX : Z := 14.                       (* maxDRB + 3 *)
Definition maxDRB : Z := 11.
Definition maxSessionPerPMCH : Z := 29.
Definition NB_RB_MBMS_MAX : Z := 464.                 (* maxSessionPerPMCH * maxServiceCount *)
Definition RLC_MAX_MBMS_LC : Z := 464.
Definition NUMBER_OF_UE_MAX : Z := 16.
Definition NUMBER_OF_eNB_MAX : Z := 7.
Definition RLC_MAX_LC : Z := 33 * NUMBER_OF_UE_MAX.   (* (max_val_DRB_Identity + 1) * NUMBER_OF_UE_MAX *)

Definition RLC_OP_STATUS_OK : Z := 1.
Definition RLC_OP_STATUS_BAD_PARAMETER : Z := 22.
Definition RLC_OP_STATUS_INTERNAL_ERROR : Z := 2.

Inductive rlc_mode_t : Type := RLC_MODE_NONE | RLC_MODE_AM | RLC_MODE_UM | RLC_MODE_TM.
#[export] Instance rlc_mode_eq_dec : EqDecision rlc_mode_t.
Proof. solve_decision. Defined.

(** [rlc_union_t] *)
Inductive rlc_union_t : Type :=
| U_none
| U_am (am : RlcAmEntity.rlc_am_entity_t)
| U_um (um : RlcUm.rlc_um_entity_t)
| U_tm (tm : rlc_tm_entity_t).

Definition mode (u : rlc_union_t) : rlc_mode_t :=
  match u with U_none => RLC_MODE_NONE | U_am _ => RLC_MODE_AM | U_um _ => RLC_MODE_UM | U_tm _ => RLC_MODE_TM end.

(** The object [calloc] makes, with its mode. *)
Definition um_blank : RlcUm.rlc_um_entity_t :=
  RlcUm.mk_entity false 0 false 0 0 0 0 0 0 RlcUm.zero_timer 0 0 0 0 0 0 0 0 [] 0 0 [] None 0 [] 0 0
    false false 0 0 0 0 0 0 0 0 0 0 0 0 0 0 0 0 0 [].
Definition new_union (m : rlc_mode_t) : rlc_union_t :=
  match m with
  | RLC_MODE_NONE => U_none | RLC_MODE_AM => U_am RlcAmEntity.blank | RLC_MODE_UM => U_um um_blank | RLC_MODE_TM => U_tm tm_blank
  end.

Record layer_ctxt : Type := mk_lctxt { module_id : Z; rnti : Z; entity_ctxt : RlcUm.protocol_ctxt_t }.
Definition enb (c : layer_ctxt) : bool := RlcUm.enb_flag (entity_ctxt c).

(** [RLC_COLL_KEY_VALUE] and [RLC_COLL_KEY_MBMS_VALUE], on [hash_key_t] (64
    bits). *)
Definition RLC_COLL_KEY_VALUE (eNB_iD rNTI : Z) (iS_eNB : bool) (rB_iD : Z) (iS_sRB : bool) : Z :=
  Z.lor (Z.lor (Z.lor (Z.lor eNB_iD (u64 (Z.shiftl rNTI 8))) (u64 (Z.shiftl (Z.b2z iS_eNB) 24)))
    (u64 (Z.shiftl rB_iD 25))) (u64 (Z.shiftl (Z.b2z iS_sRB) 33)).
Definition RLC_COLL_KEY_MBMS_VALUE (eNB_iD rNTI : Z) (iS_eNB : bool) (sERVICE_ID sESSION_ID : Z) : Z :=
  Z.lor (Z.lor (Z.lor (Z.lor (Z.lor eNB_iD (u64 (Z.shiftl rNTI 8))) (u64 (Z.shiftl (Z.b2z iS_eNB) 24)))
    (u64 (Z.shiftl sERVICE_ID 32))) (u64 (Z.shiftl sESSION_ID 37))) (2 ^ 63).

Definition key_of (c : layer_ctxt) (rb : Z) (srb : bool) : Z := RLC_COLL_KEY_VALUE (module_id c) (rnti c) (enb c) rb srb.

(** The MBMS arrays, by both indices; an entry that was never written is 0. *)
Record rlc_layer (T : Type) : Type := mk_layer {
  rlc_coll : T;
  lcid2service_session_ue : gmap (Z * Z) (Z * Z);
  lcid2service_session_eNB : gmap (Z * Z) (Z * Z);
  rbid2lcid_ue : gmap (Z * Z) Z;
  rbid2lcid_eNB : gmap (Z * Z) Z;
  rrc_registered : bool
}.
Arguments mk_layer {_} _ _ _ _ _ _.
Arguments rlc_coll {_} _.
Arguments lcid2service_session_ue {_} _.
Arguments lcid2service_session_eNB {_} _.
Arguments rbid2lcid_ue {_} _.
Arguments rbid2lcid_eNB {_} _.
Arguments rrc_registered {_} _.
#[export] Instance layer_settable {T} : Settable (rlc_layer T) := fun l =>
  mk_layer (rlc_coll l) (lcid2service_session_ue l) (lcid2service_session_eNB l) (rbid2lcid_ue l) (rbid2lcid_eNB l) (rrc_registered l).

(** The element of an array of [m] rows and [n] columns. *)
Definition element {A} (m n : Z) (d : A) (a : gmap (Z * Z) A) (i j : Z) : res A :=
  if (0 <=? i) && (i <? m) && (0 <=? j) && (j <? n) then Ok (default d (a !! (i, j))) else Fault OutOfBounds.

(** ** The calls to the upper layers *)

Inductive up_call : Type :=
| PdcpDataInd (srb mbms : bool) (rb : Z) (sdu : list Z)
| RrcDataConf (rb mui status : Z).

Definition rlc_data_ind (srb_flagP MBMS_flagP : bool) (rb_idP : Z) (sdu : list Z) : list up_call := [PdcpDataInd srb_flagP MBMS_flagP rb_idP sdu].

(** [registered]: [rlc_rrc_data_conf] is not NULL. *)
Definition rlc_data_conf (registered : bool) (srb_flagP rb_idP muiP statusP : Z) : list up_call :=
  if negb (srb_flagP =? 0) then if registered then [RrcDataConf rb_idP muiP statusP] else [] else [].

(** The arguments with which each mode makes the calls. AM calls
    [rlc_data_conf (rb_id, mui, status, is_data_plane)]. *)
Definition indications (u : rlc_union_t) : list up_call :=
  match u with
  | U_none => []
  | U_am e => RlcAmEntity.upper_sdus e ≫= rlc_data_ind (negb (RlcAmEntity.is_data_plane e)) false (RlcAmEntity.rb_id e)
  | U_um e => RlcUm.upper_sdus e ≫= rlc_data_ind (negb (RlcUm.is_data_plane e)) (negb (RlcUm.is_mxch e =? 0)) (RlcUm.rb_id e)
  | U_tm e => tm_upper e ≫= rlc_data_ind (negb (tm_is_data_plane e)) false (tm_rb_id e)
  end.

Definition status_code (s : RlcAmEntity.rlc_tx_status_t) : Z :=
  match s with RlcAmEntity.RLC_SDU_CONFIRM_NO => 0 | RlcAmEntity.RLC_SDU_CONFIRM_YES => 1 end.

Definition confirmations (registered : bool) (u : rlc_union_t) : list up_call :=
  match u with
  | U_am e => RlcAmEntity.data_confs e ≫= fun '(mui, s) =>
      rlc_data_conf registered (RlcAmEntity.rb_id e) mui (status_code s) (Z.b2z (RlcAmEntity.is_data_plane e))
  | _ => []
  end.

(** ** Serialisation of blocks *)

(** The bytes written to the buffer; their number is the result. *)
Fixpoint mac_rlc_serialize_tb (blocks : list (Z * list Z)) : res (list Z) :=
  match blocks with
  | [] => Ok []
  | (size, bytes) :: rest =>
      if (size <? 0) || (Z.of_nat (length bytes) <? size) then Fault OutOfBounds
      else tail ← mac_rlc_serialize_tb rest; Ok (take (Z.to_nat size) bytes ++ tail)
  end.

(** [None] is a block the pool did not give: nothing is read for it. *)
Fixpoint deserialize_loop (buffer : list Z) (tb_sizeP : Z) (mem_ok : bool) (num_tbP : nat) : res (list (Z * list Z)) :=
  match num_tbP with
  | O => Ok []
  | S n =>
      if mem_ok then
        if (tb_sizeP <? 0) || (Z.of_nat (length buffer) <? tb_sizeP) then Fault OutOfBounds
        else rest ← deserialize_loop (drop (Z.to_nat tb_sizeP) buffer) tb_sizeP mem_ok n;
             Ok ((u16 tb_sizeP, take (Z.to_nat tb_sizeP) buffer) :: rest)
      else deserialize_loop buffer tb_sizeP mem_ok n
  end.

(** [data_ind.data] and [data_ind.tb_size], an [unsigned short]. *)
Definition mac_rlc_deserialize_tb (buffer : list Z) (tb_sizeP : Z) (mem_ok : bool) (num_tbP : Z) : res (list (Z * list Z) * Z) :=
  data ← deserialize_loop buffer tb_sizeP mem_ok (Z.to_nat num_tbP);
  Ok (data, u16 (Z.shiftl tb_sizeP 3)).

Definition am_tb (b : Z * list Z) : RlcAmEntity.mac_tb := RlcAmEntity.mk_tb (fst b) (snd b).
Definition um_tb (b : Z * list Z) : RlcUm.mac_tb := RlcUm.mk_tb (snd b) (fst b).
Definition of_am_tb (tb : RlcAmEntity.mac_tb) : Z * list Z := (RlcAmEntity.tb_size tb, RlcAmEntity.tb_bytes tb).
Definition of_um_tb (tb : RlcUm.mac_tb) : Z * list Z := (RlcUm.tb_size tb, RlcUm.data_ptr tb).

(** ** Statistics *)

(** [rlc_am_stat_req], in the order of the parameters. No handler writes the
    two counters of duplicates. *)
Definition rlc_am_stat_req (e : RlcAmEntity.rlc_am_entity_t) : list Z :=
  let open f := f e in
  open <$> [RlcAmEntity.stat_tx_pdcp_sdu; RlcAmEntity.stat_tx_pdcp_bytes; RlcAmEntity.stat_tx_pdcp_sdu_discarded;
    RlcAmEntity.stat_tx_pdcp_bytes_discarded; RlcAmEntity.stat_tx_data_pdu; RlcAmEntity.stat_tx_data_bytes;
    RlcAmEntity.stat_tx_retransmit_pdu_by_status; RlcAmEntity.stat_tx_retransmit_bytes_by_status;
    RlcAmEntity.stat_tx_retransmit_pdu; RlcAmEntity.stat_tx_retransmit_bytes;
    RlcAmEntity.stat_tx_control_pdu; RlcAmEntity.stat_tx_control_bytes;
    RlcAmEntity.stat_rx_pdcp_sdu; RlcAmEntity.stat_rx_pdcp_bytes; (fun _ => 0); (fun _ => 0);
    RlcAmEntity.stat_rx_data_pdu; RlcAmEntity.stat_rx_data_bytes;
    RlcAmEntity.stat_rx_data_pdu_dropped; RlcAmEntity.stat_rx_data_bytes_dropped;
    RlcAmEntity.stat_rx_data_pdu_out_of_window; RlcAmEntity.stat_rx_data_bytes_out_of_window;
    RlcAmEntity.stat_rx_control_pdu; RlcAmEntity.stat_rx_control_bytes;
    RlcAmEntity.stat_timer_reordering_timed_out; RlcAmEntity.stat_timer_poll_retransmit_timed_out;
    RlcAmEntity.stat_timer_status_prohibit_timed_out].

Definition mode_code (m : rlc_mode_t) : Z :=
  match m with RLC_MODE_NONE => 0 | RLC_MODE_AM => 1 | RLC_MODE_UM => 2 | RLC_MODE_TM => 4 end.

(** The 27 values [rlc_stat_req] writes for an entity; [None] is one it does
    not write. *)
Definition stat_values (u : rlc_union_t) : Z * list (option Z) :=
  match u with
  | U_none | U_tm _ => (RLC_OP_STATUS_BAD_PARAMETER, replicate 27 (Some 0))
  | U_am e => (RLC_OP_STATUS_OK, Some <$> rlc_am_stat_req e)
  | U_um e =>
      let v := Some <$> RlcUmTop.rlc_um_stat_req e in
      (RLC_OP_STATUS_OK, take 6 v ++ replicate 6 (Some 0) ++ take 10 (drop 6 v) ++ [None; None] ++ drop 16 v ++ [Some 0; Some 0])
  end.

(** ** The messages of RRC *)

(** What the code reads of an [RLC_Config]: the enumerations of the AM
    parameters, the field length of UL, the field length and [t_Reordering] of
    DL. *)
Inductive RLC_Config_t : Type :=
| RLC_Config_PR_NOTHING
| RLC_Config_PR_am (am : RlcAmRetransmit.rlc_am_info_t)
| RLC_Config_PR_um_Bi_Directional (ul : Z) (dl : Z * Z)
| RLC_Config_PR_um_Uni_Directional_UL (ul : Z)
| RLC_Config_PR_um_Uni_Directional_DL (dl : Z * Z)
| RLC_Config_PR_other.

Inductive SRB_rlc_Config_t : Type :=
| SRB_rlc_Config_NOTHING
| SRB_rlc_Config_explicitValue (cfg : RLC_Config_t)
| SRB_rlc_Config_defaultValue
| SRB_rlc_Config_other.

Record SRB_ToAddMod_t : Type := mk_srb { srb_Identity : Z; srb_rlc_Config : option SRB_rlc_Config_t }.
Record DRB_ToAddMod_t : Type := mk_drb { drb_Identity : Z; drb_rlc_Config : option RLC_Config_t }.

(** [sessionId_r9->buf[0]] and [serviceId_r9.buf[2]] of a session: bytes. *)
Record MBMS_SessionInfo_r9_t : Type := mk_session { sessionId_r9 : Z; serviceId_r9 : Z }.

(** The element written. *)
Definition set_element {A} (m n : Z) (a : gmap (Z * Z) A) (i j : Z) (v : A) : res (gmap (Z * Z) A) :=
  if (0 <=? i) && (i <? m) && (0 <=? j) && (j <? n) then Ok (<[(i, j) := v]> a) else Fault OutOfBounds.

Inductive config_action_t : Type := CONFIG_ACTION_ADD | CONFIG_ACTION_MODIFY | CONFIG_ACTION_REMOVE | CONFIG_ACTION_other.

(** [rlc_info_t]. Of [rlc_tm_info] the code reads [is_uplink_downlink]. *)
Inductive rlc_info_t : Type :=
| info_none
| info_am (am : RlcAmRetransmit.rlc_am_info_t)
| info_um (um : RlcUm.rlc_um_info_t)
| info_tm (is_uplink_downlink : Z).
Definition info_mode (i : rlc_info_t) : rlc_mode_t :=
  match i with info_none => RLC_MODE_NONE | info_am _ => RLC_MODE_AM | info_um _ => RLC_MODE_UM | info_tm _ => RLC_MODE_TM end.

(** [mac_rlc_status_resp_t]. The fields of the head SDU are [None] for AM: the
    handler takes them from the bytes of the SDU. *)
Record mac_rlc_status_resp_t : Type := mk_mac_resp {
  bytes_in_buffer : Z; pdus_in_buffer : Z; head_sdu : option (Z * Z * bool)
}.

(** [&rlc_union_p->rlc.am] and the like, of an object made for that mode. *)
Definition as_am (u : rlc_union_t) : res RlcAmEntity.rlc_am_entity_t := match u with U_am e => Ok e | _ => Fault OutOfBounds end.
Definition as_um (u : rlc_union_t) : res RlcUm.rlc_um_entity_t := match u with U_um e => Ok e | _ => Fault OutOfBounds end.
Definition as_tm (u : rlc_union_t) : res rlc_tm_entity_t := match u with U_tm e => Ok e | _ => Fault OutOfBounds end.

(** ** The handlers of an entity, by its mode *)

(** [memcpy] of the SDU to a block of the pool. *)
Definition copy_sdu (sdu : list Z) (sdu_sizeP : Z) : res (list Z) :=
  if (sdu_sizeP <? 0) || (Z.of_nat (length sdu) <? sdu_sizeP) then Fault OutOfBounds else Ok (take (Z.to_nat sdu_sizeP) sdu).

(** [sdu] is the memory of the block [sdu_pP], [rest] what the block of the
    copy holds behind it. *)
Definition entity_data_req (c : protocol_ctxt_t) (muiP : Z) (sdu rest : list Z) (sdu_sizeP : Z) (u : rlc_union_t) : res (Z * rlc_union_t) :=
  match u with
  | U_none => Ok (RLC_OP_STATUS_BAD_PARAMETER, u)
  | U_am e =>
      if RlcUm.mem_block_ok c then
        bytes ← copy_sdu sdu sdu_sizeP; e' ← RlcAmRetransmit.rlc_am_data_req c e muiP bytes; Ok (RLC_OP_STATUS_OK, U_am e')
      else Ok (RLC_OP_STATUS_INTERNAL_ERROR, u)
  | U_um e =>
      if RlcUm.mem_block_ok c then
        bytes ← copy_sdu sdu sdu_sizeP; Ok (RLC_OP_STATUS_OK, U_um (RlcUmTop.rlc_um_data_req c e bytes))
      else Ok (RLC_OP_STATUS_INTERNAL_ERROR, u)
  | U_tm e =>
      if RlcUm.mem_block_ok c then
        bytes ← copy_sdu sdu sdu_sizeP; e' ← rlc_tm_data_req e (bytes ++ rest) sdu_sizeP; Ok (RLC_OP_STATUS_OK, U_tm e')
      else Ok (RLC_OP_STATUS_INTERNAL_ERROR, u)
  end.

Definition entity_mac_data_req (c : protocol_ctxt_t) (garbage : list Z) (u : rlc_union_t) : res (list Z * rlc_union_t) :=
  match u with
  | U_none => Ok ([], u)
  | U_am e =>
      '(data, _, e') ← RlcAmRetransmit.rlc_am_mac_data_request c garbage e;
      bytes ← mac_rlc_serialize_tb (of_am_tb <$> data); Ok (bytes, U_am e')
  | U_um e =>
      '(req, e') ← RlcUmTop.rlc_um_mac_data_request c garbage e;
      bytes ← mac_rlc_serialize_tb (of_um_tb <$> RlcUmTop.dr_data req); Ok (bytes, U_um e')
  | U_tm e =>
      '(data, e') ← rlc_tm_mac_data_request c e;
      bytes ← mac_rlc_serialize_tb (of_am_tb <$> data); Ok (bytes, U_tm e')
  end.

Definition entity_mac_data_ind (c : protocol_ctxt_t) (data : list (Z * list Z)) (tb_size : Z) (u : rlc_union_t) : res rlc_union_t :=
  match u with
  | U_none => Ok u
  | U_am e => U_am <$> RlcAmRetransmit.rlc_am_mac_data_indication c e (am_tb <$> data)
  | U_um e => U_um <$> RlcUmTop.rlc_um_mac_data_indication c e (um_tb <$> data)
  | U_tm e => U_tm <$> rlc_tm_mac_data_indication c e (am_tb <$> data) tb_size
  end.

Definition entity_mac_status_ind (c : protocol_ctxt_t) (tb_sizeP : Z) (u : rlc_union_t) : res (mac_rlc_status_resp_t * rlc_union_t) :=
  match u with
  | U_none => Ok (mk_mac_resp 0 0 (Some (0, 0, false)), u)
  | U_am e =>
      '(r, e') ← RlcAmRetransmit.rlc_am_mac_status_indication c e tb_sizeP;
      Ok (mk_mac_resp (RlcAmRetransmit.buffer_occupancy_in_bytes r) 0 None, U_am e')
  | U_um e =>
      '(r, e') ← RlcUmTop.rlc_um_mac_status_indication c (Some e) tb_sizeP;
      e' ← of_option OutOfBounds e';
      Ok (mk_mac_resp (RlcUmTop.buffer_occupancy_in_bytes r) (RlcUmTop.buffer_occupancy_in_pdus r)
            (Some (RlcUmTop.head_sdu_creation_time r, RlcUmTop.head_sdu_remaining_size_to_send r, RlcUmTop.head_sdu_is_segmented r)), U_um e')
  | U_tm e =>
      '(bytes, pdus, _, e') ← rlc_tm_mac_status_indication e tb_sizeP;
      Ok (mk_mac_resp bytes pdus (Some (0, 0, false)), U_tm e')
  end.

(** The object is cleared and not released. *)
Definition rb_free_rlc_union (u : rlc_union_t) : rlc_union_t :=
  match u with
  | U_none => U_none
  | U_am e => U_am (RlcAmEntity.rlc_am_cleanup e)
  | U_um e => U_um (RlcUm.rlc_um_cleanup e)
  | U_tm e => U_tm (rlc_tm_cleanup e)
  end.

(** ** The operations of the layer *)

Section Layer.
Context {T : Type} `{O : CollectionOps T rlc_union_t}.
Notation layer := (rlc_layer T).

Definition store (l : layer) (k : Z) (u : rlc_union_t) : res layer :=
  t ← coll_store (rlc_coll l) k u; Ok (l <| rlc_coll := t |>).

(** [rlc_mbms_lcid2service_session_id_eNB[i][j]] and the like. *)
Definition mbms_id_eNB (l : layer) (i j : Z) : res (Z * Z) :=
  element NUMBER_OF_eNB_MAX RLC_MAX_MBMS_LC (0, 0) (lcid2service_session_eNB l) i j.
Definition mbms_id_ue (l : layer) (i j : Z) : res (Z * Z) :=
  element NUMBER_OF_UE_MAX RLC_MAX_MBMS_LC (0, 0) (lcid2service_session_ue l) i j.
Definition rlc_mbms_enb_get_lcid_by_rb_id (l : layer) (i rb : Z) : res Z :=
  element NUMBER_OF_eNB_MAX NB_RB_MBMS_MAX 0 (rbid2lcid_eNB l) i rb.
Definition rlc_mbms_ue_get_lcid_by_rb_id (l : layer) (i rb : Z) : res Z :=
  element NUMBER_OF_UE_MAX NB_RB_MBMS_MAX 0 (rbid2lcid_ue l) i rb.

Definition mbms_key (c : layer_ctxt) (id : Z * Z) : Z :=
  RLC_COLL_KEY_MBMS_VALUE (module_id c) (rnti c) (enb c) (fst id) (snd id).

(** *** rlc.c *)

(** The key of [rlc_data_req]: a UE indexes its arrays by the RNTI. *)
Definition data_req_key (c : layer_ctxt) (srb_flagP MBMS_flagP : bool) (rb_idP : Z) (l : layer) : res Z :=
  if MBMS_flagP then
    if enb c then
      log_ch_id ← rlc_mbms_enb_get_lcid_by_rb_id l (module_id c) rb_idP;
      id ← mbms_id_eNB l (module_id c) log_ch_id; Ok (mbms_key c id)
    else
      log_ch_id ← rlc_mbms_ue_get_lcid_by_rb_id l (rnti c) rb_idP;
      id ← mbms_id_ue l (rnti c) log_ch_id; Ok (mbms_key c id)
  else Ok (key_of c rb_idP srb_flagP).

(** The parameter [confirmP] is not used by the modes. *)
Definition rlc_data_req (c : layer_ctxt) (srb_flagP MBMS_flagP : bool) (rb_idP muiP sdu_sizeP : Z) (sdu rest : list Z) (l : layer)
    : res (Z * layer) :=
  _ ← assert_fatal (rb_idP <? if MBMS_flagP then NB_RB_MBMS_MAX else NB_RB_MAX);
  _ ← assert_fatal (0 <? sdu_sizeP);
  key ← data_req_key c srb_flagP MBMS_flagP rb_idP l;
  o ← coll_get (rlc_coll l) key;
  match o with
  | None => Fault AssertFatal
  | Some u =>
      if MBMS_flagP then
        e ← as_um u;
        if RlcUm.mem_block_ok (entity_ctxt c) then
          bytes ← copy_sdu sdu sdu_sizeP;
          l' ← store l key (U_um (RlcUmTop.rlc_um_data_req (entity_ctxt c) e bytes)); Ok (RLC_OP_STATUS_OK, l')
        else Ok (RLC_OP_STATUS_BAD_PARAMETER, l)
      else
        '(status, u') ← entity_data_req (entity_ctxt c) muiP sdu rest sdu_sizeP u;
        l' ← store l key u'; Ok (status, l')
  end.

(** rlc_mpls.c *)
Definition mpls_rlc_data_req (c : layer_ctxt) (rb_idP sdu_sizeP : Z) (sdu rest : list Z) (l : layer) : res (Z * layer) :=
  rlc_data_req c false false rb_idP 0 sdu_sizeP sdu rest l.

Definition rlc_stat_req (c : layer_ctxt) (srb_flagP : bool) (rb_idP : Z) (l : layer) : res (Z * Z * list (option Z)) :=
  _ ← assert_fatal (rb_idP <? NB_RB_MAX);
  o ← coll_get (rlc_coll l) (key_of c rb_idP srb_flagP);
  let u := default U_none o in
  let '(status, values) := stat_values u in
  Ok (status, mode_code (mode u), values).

Definition rlc_module_init : layer := mk_layer coll_empty ∅ ∅ ∅ ∅ false.

(** *** rlc_mac.c *)

Definition srb_of_channel (channel_idP : Z) : bool := channel_idP <=? 2.
Definition rb_of_channel (channel_idP : Z) : Z := if 2 <? channel_idP then channel_idP - 2 else channel_idP.
Definition channel_key (c : layer_ctxt) (channel_idP : Z) : Z := key_of c (rb_of_channel channel_idP) (srb_of_channel channel_idP).

(** The bytes written to MAC's buffer; the result of the call is their
    number. *)
Definition mac_rlc_data_req (c : layer_ctxt) (MBMS_flagP : bool) (channel_idP : Z) (garbage : list Z) (l : layer) : res (list Z * layer) :=
  _ ← assert_fatal (channel_idP <? if MBMS_flagP then RLC_MAX_MBMS_LC else NB_RB_MAX);
  if MBMS_flagP && negb (enb c) then Ok ([], l)
  else
    key ← (if MBMS_flagP then id ← mbms_id_eNB l (module_id c) channel_idP; Ok (mbms_key c id) else Ok (channel_key c channel_idP));
    o ← coll_get (rlc_coll l) key;
    match o with
    | None => Fault AssertFatal
    | Some u =>
        '(bytes, u') ← entity_mac_data_req (entity_ctxt c) garbage u;
        l' ← store l key u'; Ok (bytes, l')
    end.

(** Without an entity the blocks are read and not released. *)
Definition mac_rlc_data_ind (c : layer_ctxt) (MBMS_flagP : bool) (channel_idP : Z) (buffer : list Z) (tb_sizeP num_tbP : Z) (l : layer) : res layer :=
  if MBMS_flagP && enb c then Ok l
  else
    key ← (if MBMS_flagP then id ← mbms_id_ue l (module_id c) channel_idP; Ok (mbms_key c id) else Ok (channel_key c channel_idP));
    o ← coll_get (rlc_coll l) key;
    '(data, tb_size) ← mac_rlc_deserialize_tb buffer tb_sizeP (RlcUm.mem_block_ok (entity_ctxt c)) num_tbP;
    match o with
    | None => Ok l
    | Some u => u' ← entity_mac_data_ind (entity_ctxt c) data tb_size u; store l key u'
    end.

Definition mac_rlc_status_ind (c : layer_ctxt) (MBMS_flagP : bool) (channel_idP tb_sizeP : Z) (l : layer) : res (mac_rlc_status_resp_t * layer) :=
  key ← (if MBMS_flagP then
           id ← (if enb c then mbms_id_eNB l (module_id c) channel_idP else mbms_id_ue l (module_id c) channel_idP); Ok (mbms_key c id)
         else Ok (channel_key c channel_idP));
  o ← coll_get (rlc_coll l) key;
  match o with
  | None => Ok (mk_mac_resp 0 0 (Some (0, 0, false)), l)
  | Some u => '(resp, u') ← entity_mac_status_ind (entity_ctxt c) tb_sizeP u; l' ← store l key u'; Ok (resp, l')
  end.

(** *** rlc_rrc.c *)

(** [Some]: the object the call gives is the one the collection now holds. *)
Definition rrc_rlc_add_rlc (c : layer_ctxt) (srb_flagP MBMS_flagP : bool) (rb_idP chan_idP : Z) (rlc_modeP : rlc_mode_t) (l : layer) : res layer :=
  _ ← (if MBMS_flagP then Ok tt else _ ← assert_fatal (rb_idP <? NB_RB_MAX); assert_fatal (chan_idP <? RLC_MAX_LC));
  key ← (if MBMS_flagP then
           if enb c then
             lcid ← rlc_mbms_enb_get_lcid_by_rb_id l (module_id c) rb_idP;
             id ← mbms_id_eNB l (module_id c) lcid; Ok (mbms_key c id)
           else
             lcid ← rlc_mbms_ue_get_lcid_by_rb_id l (module_id c) rb_idP;
             id ← mbms_id_ue l (module_id c) lcid; Ok (mbms_key c id)
         else Ok (key_of c rb_idP srb_flagP));
  o ← coll_get (rlc_coll l) key;
  match o with
  | Some u => _ ← assert_fatal (bool_decide (mode u = rlc_modeP)); Ok l
  | None => t ← coll_insert (rlc_coll l) key (new_union rlc_modeP); Ok (l <| rlc_coll := t |>)
  end.

(** The identity of the MBMS channel is cleared before it is read for the key
    on the eNB side; on the UE side the arrays of the eNB are cleared. *)
Definition rrc_rlc_remove_rlc (c : layer_ctxt) (srb_flagP MBMS_flagP : bool) (rb_idP : Z) (l : layer) : res (Z * layer) :=
  '(key, l) ← (if MBMS_flagP then
      lcid ← (if enb c then rlc_mbms_enb_get_lcid_by_rb_id l (module_id c) rb_idP else rlc_mbms_ue_get_lcid_by_rb_id l (module_id c) rb_idP);
      ids ← set_element NUMBER_OF_eNB_MAX RLC_MAX_MBMS_LC (lcid2service_session_eNB l) (module_id c) lcid (0, 0);
      rbs ← set_element NUMBER_OF_UE_MAX NB_RB_MBMS_MAX (rbid2lcid_ue l) (module_id c) rb_idP 0;
      let l := l <| lcid2service_session_eNB := ids |> <| rbid2lcid_ue := rbs |> in
      id ← (if enb c then mbms_id_eNB l (module_id c) lcid else mbms_id_ue l (module_id c) lcid);
      Ok (mbms_key c id, l)
    else Ok (key_of c rb_idP srb_flagP, l));
  _ ← assert_fatal (rb_idP <? NB_RB_MAX);
  o ← coll_get (rlc_coll l) key;
  match o with
  | Some _ => '(_, t) ← coll_remove (rlc_coll l) key; Ok (RLC_OP_STATUS_OK, l <| rlc_coll := t |>)
  | None => Ok (RLC_OP_STATUS_OK, l)
  end.

Fixpoint remove_rbs (c : layer_ctxt) (srb_flagP : bool) (rbs : list Z) (l : layer) : res layer :=
  match rbs with
  | [] => Ok l
  | rb :: rbs => '(_, l) ← rrc_rlc_remove_rlc c srb_flagP false rb l; remove_rbs c srb_flagP rbs l
  end.

Definition rrc_rlc_remove_ue (c : layer_ctxt) (l : layer) : res (Z * layer) :=
  l ← remove_rbs c true [1; 2] l;
  l ← remove_rbs c false [1; 2; 3; 4; 5; 6; 7; 8; 9; 10; 11] l;
  Ok (RLC_OP_STATUS_OK, l).

(** The four configuration requests look the entity up themselves. *)
Definition config_am_at (c : layer_ctxt) (srb_flagP asn1 : bool) (i : RlcAmRetransmit.rlc_am_info_t) (rb_idP : Z) (l : layer) : res layer :=
  let key := key_of c rb_idP srb_flagP in
  o ← coll_get (rlc_coll l) key;
  match o with
  | None => Ok l
  | Some u =>
      e ← as_am u;
      match (if asn1 then RlcAmRetransmit.config_req_rlc_am_asn1 else RlcAmRetransmit.config_req_rlc_am) srb_flagP i rb_idP (Some e) with
      | Some e' => store l key (U_am e')
      | None => Ok l
      end
  end.

Definition config_um_asn1_at (c : layer_ctxt) (srb_flagP mbms_flagP : bool) (session_id service_id : Z) (ul : option Z) (dl : option (Z * Z)) (rb_idP : Z)
    (l : layer) : res layer :=
  _ ← (if mbms_flagP then _ ← assert_fatal (bool_decide (is_Some dl)); assert_fatal (bool_decide (ul = None)) else Ok tt);
  let key := if mbms_flagP then mbms_key c (service_id, session_id) else key_of c rb_idP srb_flagP in
  o ← coll_get (rlc_coll l) key;
  match o with
  | None => Fault AssertFatal
  | Some u =>
      e ← as_um u;
      e' ← RlcUm.config_req_rlc_um_asn1 (enb c) srb_flagP (Z.b2z mbms_flagP) ul dl rb_idP (Some e);
      store l key (U_um e')
  end.

Definition config_um_at (c : layer_ctxt) (srb_flagP : bool) (i : RlcUm.rlc_um_info_t) (rb_idP : Z) (l : layer) : res layer :=
  let key := key_of c rb_idP srb_flagP in
  o ← coll_get (rlc_coll l) key;
  match o with
  | None => Ok l
  | Some u =>
      e ← as_um u;
      match RlcUm.config_req_rlc_um srb_flagP i rb_idP (Some e) with Some e' => store l key (U_um e') | None => Ok l end
  end.

Definition config_tm_at (c : layer_ctxt) (srb_flagP : bool) (is_uplink_downlink rb_idP : Z) (l : layer) : res layer :=
  let key := key_of c rb_idP srb_flagP in
  o ← coll_get (rlc_coll l) key;
  match o with
  | None => Ok l
  | Some u =>
      e ← as_tm u;
      r ← config_req_rlc_tm (entity_ctxt c) srb_flagP is_uplink_downlink rb_idP (Some e);
      match r with Some e' => store l key (U_tm e') | None => Ok l end
  end.

(** An element of the lists: [UM] with the UL and DL parameters given, [AM]. *)
Definition add_um (c : layer_ctxt) (srb_flagP : bool) (rb_idP lc_id : Z) (ul : option Z) (dl : option (Z * Z)) (l : layer) : res layer :=
  l ← rrc_rlc_add_rlc c srb_flagP false rb_idP lc_id RLC_MODE_UM l;
  config_um_asn1_at c srb_flagP false 0 0 ul dl rb_idP l.
Definition add_am (c : layer_ctxt) (srb_flagP : bool) (rb_idP lc_id : Z) (i : RlcAmRetransmit.rlc_am_info_t) (l : layer) : res layer :=
  l ← rrc_rlc_add_rlc c srb_flagP false rb_idP lc_id RLC_MODE_AM l;
  config_am_at c srb_flagP true i rb_idP l.

Definition add_rb (c : layer_ctxt) (srb_flagP : bool) (rb_idP lc_id : Z) (cfg : RLC_Config_t) (l : layer) : res layer :=
  match cfg with
  | RLC_Config_PR_NOTHING | RLC_Config_PR_other => Ok l
  | RLC_Config_PR_am i => add_am c srb_flagP rb_idP lc_id i l
  | RLC_Config_PR_um_Bi_Directional ul dl => add_um c srb_flagP rb_idP lc_id (Some ul) (Some dl) l
  | RLC_Config_PR_um_Uni_Directional_UL ul => add_um c srb_flagP rb_idP lc_id (Some ul) None l
  | RLC_Config_PR_um_Uni_Directional_DL dl => add_um c srb_flagP rb_idP lc_id None (Some dl) l
  end.

Definition add_srb (c : layer_ctxt) (l : layer) (s : SRB_ToAddMod_t) : res layer :=
  let rb_id := u16 (srb_Identity s) in
  let lc_id := u32 (rb_id + 2) in
  match srb_rlc_Config s with
  | Some (SRB_rlc_Config_explicitValue cfg) => add_rb c true rb_id lc_id cfg l
  | Some SRB_rlc_Config_defaultValue => add_um c true rb_id lc_id None None l
  | _ => Ok l
  end.

Definition add_drb (c : layer_ctxt) (l : layer) (d : DRB_ToAddMod_t) : res layer :=
  match drb_rlc_Config d with
  | Some cfg => add_rb c false (u16 (drb_Identity d)) (u32 (drb_Identity d + 2)) cfg l
  | None => Ok l
  end.

Definition release_drb (c : layer_ctxt) (l : layer) (drb_id : Z) : res layer :=
  '(_, l) ← rrc_rlc_remove_rlc c false false (u16 drb_id) l; Ok l.

(** A session of the PMCH list. The entity is looked up with the module in
    the place of the RNTI. *)
Definition add_session (c : layer_ctxt) (l : layer) (s : MBMS_SessionInfo_r9_t) : res layer :=
  let session_id := sessionId_r9 s in
  let service_id := serviceId_r9 s in
  let lc_id := session_id in
  let rb_id := u16 (service_id * maxSessionPerPMCH + session_id) in
  l ← (if enb c then
         ids ← set_element NUMBER_OF_eNB_MAX RLC_MAX_MBMS_LC (lcid2service_session_eNB l) (module_id c) lc_id (service_id, session_id);
         rbs ← set_element NUMBER_OF_eNB_MAX NB_RB_MBMS_MAX (rbid2lcid_eNB l) (module_id c) rb_id lc_id;
         Ok (l <| lcid2service_session_eNB := ids |> <| rbid2lcid_eNB := rbs |>)
       else
         ids ← set_element NUMBER_OF_UE_MAX RLC_MAX_MBMS_LC (lcid2service_session_ue l) (module_id c) lc_id (service_id, session_id);
         _ ← assert_fatal (rb_id <? NB_RB_MAX);
         rbs ← set_element NUMBER_OF_UE_MAX NB_RB_MBMS_MAX (rbid2lcid_ue l) (module_id c) rb_id lc_id;
         Ok (l <| lcid2service_session_ue := ids |> <| rbid2lcid_ue := rbs |>));
  o ← coll_get (rlc_coll l) (RLC_COLL_KEY_MBMS_VALUE (module_id c) (module_id c) (enb c) service_id session_id);
  l ← match o with Some _ => Ok l | None => rrc_rlc_add_rlc c false true rb_id lc_id RLC_MODE_UM l end;
  config_um_asn1_at c false true session_id service_id None (Some (0, 0)) rb_id l.

Fixpoint each {A} (f : layer -> A -> res layer) (xs : list A) (l : layer) : res layer :=
  match xs with [] => Ok l | x :: xs => l ← f l x; each f xs l end.
Definition each_of {A} (f : layer -> A -> res layer) (xs : option (list A)) (l : layer) : res layer :=
  match xs with None => Ok l | Some xs => each f xs l end.

(** [None] is a NULL list. *)
Definition rrc_rlc_config_asn1_req (c : layer_ctxt) (srb2add : option (list SRB_ToAddMod_t)) (drb2add : option (list DRB_ToAddMod_t))
    (drb2release : option (list Z)) (pmch : option (list (list MBMS_SessionInfo_r9_t))) (l : layer) : res (Z * layer) :=
  l ← each_of (add_srb c) srb2add l;
  l ← each_of (add_drb c) drb2add l;
  l ← each_of (release_drb c) drb2release l;
  l ← each_of (fun l sessions => each (add_session c) sessions l) pmch l;
  Ok (RLC_OP_STATUS_OK, l).

(** An addition that succeeds is reported as an error, with nothing
    configured; the calls give an object or fail an assertion. *)
Definition rrc_rlc_config_req (c : layer_ctxt) (srb_flagP mbms_flagP : bool) (actionP : config_action_t) (rb_idP : Z) (i : rlc_info_t) (l : layer)
    : res (Z * layer) :=
  _ ← assert_fatal (rb_idP <? NB_RB_MAX);
  match actionP with
  | CONFIG_ACTION_ADD => l ← rrc_rlc_add_rlc c srb_flagP false rb_idP rb_idP (info_mode i) l; Ok (RLC_OP_STATUS_INTERNAL_ERROR, l)
  | CONFIG_ACTION_MODIFY =>
      match i with
      | info_am i => l ← config_am_at c srb_flagP false i rb_idP l; Ok (RLC_OP_STATUS_OK, l)
      | info_um i => l ← config_um_at c srb_flagP i rb_idP l; Ok (RLC_OP_STATUS_OK, l)
      | info_tm i => l ← config_tm_at c srb_flagP i rb_idP l; Ok (RLC_OP_STATUS_OK, l)
      | info_none => Ok (RLC_OP_STATUS_BAD_PARAMETER, l)
      end
  | CONFIG_ACTION_REMOVE => rrc_rlc_remove_rlc c srb_flagP mbms_flagP rb_idP l
  | CONFIG_ACTION_other => Ok (RLC_OP_STATUS_BAD_PARAMETER, l)
  end.

(** [sduP] is the memory the SDU is copied from. *)
Definition rrc_rlc_data_req (c : layer_ctxt) (MBMS_flagP : bool) (rb_idP muiP sdu_sizeP : Z) (sduP rest : list Z) (l : layer) : res (Z * layer) :=
  if RlcUm.mem_block_ok (entity_ctxt c) then
    sdu ← copy_sdu sduP sdu_sizeP; rlc_data_req c true MBMS_flagP rb_idP muiP sdu_sizeP sdu rest l
  else Ok (RLC_OP_STATUS_INTERNAL_ERROR, l).

Definition rrc_rlc_register_rrc (data_conf : bool) (l : layer) : layer := l <| rrc_registered := data_conf |>.

End Layer.

(** [rlc_module_cleanup] destroys the table: the objects [rb_free_rlc_union]
    is called on. *)
Definition rlc_module_cleanup (l : rlc_layer (objects rlc_union_t)) : list rlc_union_t :=
  omap (fun a => heap (rlc_coll l) !! a) (snd (HashTable.hashtable_destroy (Some (table (rlc_coll l))))).

End RlcLayer.
