(* ===== verification/RlcLayerProofs.v ===== *)
(** * The RLC layer: which entities an operation touches

    The keys of the collection, and for every operation of the layer the
    bearers it may change: [run_call] is the operation, [addressed] the bearers
    it names. An MBMS channel has a key of its own range. *)

From S2P Require Import Prelude HashTable Collection RlcUmEntity RlcUmTop RlcAmEntity RlcAmRetransmit RlcTm RlcLayer.
Import Collection RlcTm.

Module RlcLayerProofs.
Import RlcLayer.

(** ** Keys *)

Record ctxt_range (c : layer_ctxt) : Prop := {
  cr_module : 0 <= module_id c < 2 ^ 8;
  cr_rnti : 0 <= rnti c < 2 ^ 16
}.

Lemma layer_key_sum c rb srb : ctxt_range c -> 0 <= rb < 2 ^ 8 ->
  key_of c rb srb = module_id c + rnti c * 2 ^ 8 + Z.b2z (enb c) * 2 ^ 24 + rb * 2 ^ 25 + Z.b2z srb * 2 ^ 33.
Proof.
  intros [M R] Hrb. unfold key_of, RLC_COLL_KEY_VALUE. rewrite !Z.shiftl_mul_pow2 by lia.
  assert (B : forall b : bool, 0 <= Z.b2z b <= 1) by (intros []; simpl; lia).
  pose proof (B (enb c)). pose proof (B srb). rewrite !u64_small by lia.
  assert (J : forall a x k, 0 <= k -> 0 <= a < 2 ^ k -> Z.lor a (x * 2 ^ k) = a + x * 2 ^ k).
  { intros a x k Hk Ha. rewrite Z.lor_comm, (lor_disjoint _ a k) by (done || apply Z.mod_mul; lia). lia. }
  rewrite (J (module_id c) (rnti c) 8), (J _ (Z.b2z (enb c)) 24), (J _ rb 25), (J _ (Z.b2z srb) 33) by lia. done.
Qed.

Definition same_ue (c c' : layer_ctxt) : Prop := module_id c = module_id c' /\ rnti c = rnti c' /\ enb c = enb c'.

Lemma key_same_ue c c' rb srb : same_ue c c' -> key_of c rb srb = key_of c' rb srb.
Proof. intros (E1 & E2 & E3). unfold key_of. by rewrite E1, E2, E3. Qed.

Lemma layer_key_inj c c' rb rb' srb srb' : ctxt_range c -> ctxt_range c' -> 0 <= rb < 2 ^ 8 -> 0 <= rb' < 2 ^ 8 ->
  key_of c rb srb = key_of c' rb' srb' -> same_ue c c' /\ rb = rb' /\ srb = srb'.
Proof.
  intros C C' R R'. rewrite !layer_key_sum by done. destruct C, C'.
  assert (B : forall b : bool, 0 <= Z.b2z b <= 1) by (intros []; simpl; lia).
  pose proof (B (enb c)). pose proof (B srb). pose proof (B (enb c')). pose proof (B srb').
  intros E. assert (module_id c = module_id c' /\ rnti c = rnti c' /\ Z.b2z (enb c) = Z.b2z (enb c') /\
    rb = rb' /\ Z.b2z srb = Z.b2z srb') as (? & ? & E1 & ? & E2) by lia.
  unfold same_ue. split_and!; try done; [by destruct (enb c), (enb c')|by destruct srb, srb'].
Qed.

(** Bit 63 tells an MBMS channel from a bearer. *)
Lemma mbms_key_bit c id : Z.testbit (mbms_key c id) 63 = true.
Proof. unfold mbms_key, RLC_COLL_KEY_MBMS_VALUE. rewrite Z.lor_spec. apply orb_true_r. Qed.

Lemma bearer_key_bit c rb srb : ctxt_range c -> 0 <= rb < 2 ^ 8 -> Z.testbit (key_of c rb srb) 63 = false.
Proof.
  intros C R. rewrite layer_key_sum by done. destruct C.
  assert (B : forall b : bool, 0 <= Z.b2z b <= 1) by (intros []; simpl; lia).
  pose proof (B (enb c)). pose proof (B srb).
  match goal with |- Z.testbit ?x 63 = false => assert (R' : 0 <= x < 2 ^ 63) by lia; revert R'; generalize x end.
  intros x [H1 H2]. by apply (proj1 (Z.bounded_iff_bits_nonneg 63 x ltac:(lia) H1) H2).
Qed.

(** ** What an operation may change *)

Section Frame.
Context {T : Type} `{O : CollectionOps T rlc_union_t} `{!CollectionLaws T rlc_union_t}.
Notation layer := (rlc_layer T).

Definition layer_ok (l : layer) : Prop := coll_ok (rlc_coll l).
Definition entities (l : layer) : gmap Z rlc_union_t := coll_map (rlc_coll l).

(** The entities of [l] and [l'] differ at the keys of [P] only. *)
Definition only (P : Z -> Prop) (l l' : layer) : Prop :=
  layer_ok l' /\ forall k, ~ P k -> entities l' !! k = entities l !! k.

Lemma only_refl P l : layer_ok l -> only P l l.
Proof. done. Qed.
Lemma only_trans P l1 l2 l3 : only P l1 l2 -> only P l2 l3 -> only P l1 l3.
Proof. intros [_ H1] [K H2]. split; [done|]. intros k Hk. by rewrite H2, H1. Qed.
Lemma only_weaken (P Q : Z -> Prop) l l' : (forall k, P k -> Q k) -> only P l l' -> only Q l l'.
Proof. intros W [K H]. split; [done|]. intros k Hk. apply H. auto. Qed.

(** The arrays do not matter. *)
Lemma only_same_coll P l l' : layer_ok l -> rlc_coll l' = rlc_coll l -> only P l l'.
Proof. intros K E. unfold only, layer_ok, entities. rewrite E. done. Qed.

Lemma get_entity l k : layer_ok l -> coll_get (rlc_coll l) k = Ok (entities l !! k).
Proof. apply coll_get_ok. Qed.

Lemma store_entity l k u w : layer_ok l -> entities l !! k = Some w ->
  exists l', store l k u = Ok l' /\ layer_ok l' /\ entities l' = <[k := u]> (entities l).
Proof.
  intros K E. destruct (coll_store_ok (rlc_coll l) k u w K E) as (t & Et & Kt & Mt).
  unfold store. rewrite Et. step_ok. eexists. split; [reflexivity|]. done.
Qed.

Lemma insert_only (P : Z -> Prop) l l' k u : P k -> layer_ok l' -> entities l' = <[k := u]> (entities l) -> only P l l'.
Proof. intros Pk K E. split; [done|]. intros k' H'. rewrite E. apply lookup_insert_ne. by intros ->. Qed.

(** What the handlers do to the collection: look an entity up, store it. *)
Lemma stored_only (P : Z -> Prop) l k u w l' : P k -> layer_ok l -> entities l !! k = Some w -> store l k u = Ok l' -> only P l l'.
Proof.
  intros Pk K E S. destruct (store_entity l k u w K E) as (l1 & E1 & K1 & M1).
  assert (l1 = l') as -> by congruence. by eapply insert_only.
Qed.

Lemma inserted_only (P : Z -> Prop) l k u t : P k -> layer_ok l -> entities l !! k = None ->
  coll_insert (rlc_coll l) k u = Ok t -> only P l (l <| rlc_coll := t |>).
Proof.
  intros Pk K E S. destruct (coll_insert_ok (rlc_coll l) k u K E) as (t1 & E1 & K1 & M1).
  assert (t1 = t) as -> by congruence. by eapply insert_only.
Qed.

Lemma removed_only (P : Z -> Prop) l k o t : P k -> layer_ok l ->
  coll_remove (rlc_coll l) k = Ok (o, t) -> only P l (l <| rlc_coll := t |>).
Proof.
  intros Pk K S. destruct (coll_remove_ok (rlc_coll l) k K) as (t1 & E1 & K1 & M1).
  rewrite E1 in S. injection S as _ <-. split; [exact K1|]. intros k' H'.
  change (coll_map t1 !! k' = coll_map (rlc_coll l) !! k'). rewrite M1. apply lookup_delete_ne. by intros ->.
Qed.

End Frame.

Create HintDb rlc_layer.
Create HintDb rlc_typed.
#[export] Hint Resolve only_refl stored_only inserted_only removed_only : rlc_layer.

(** Inverts a computation that returned: binds, pairs and tests. *)
Ltac run_inv :=
  repeat match goal with
  | H : (_ ≫= _) = Ok _ |- _ => apply bind_Ok in H as (? & ? & H)
  | H : Ok _ = Ok _ |- _ => injection H; clear H; intros; subst
  | H : Fault _ = Ok _ |- _ => discriminate H
  | p : (_ * _)%type |- _ => destruct p
  | H : assert_fatal _ = Ok _ |- _ => clear H
  | K : layer_ok ?l, H : coll_get (rlc_coll ?l) _ = Ok _ |- _ => rewrite (get_entity l _ K) in H
  | H : (match ?o with Some _ => _ | None => _ end) = Ok _ |- _ => destruct o eqn:?
  | H : (if ?b then _ else _) = Ok _ |- _ => destruct b eqn:?
  end.

(** ** The operations *)

Section Calls.
Context {T : Type} `{O : CollectionOps T rlc_union_t} `{!CollectionLaws T rlc_union_t}.
Notation layer := (rlc_layer T).

(** The keys of the bearers [bs] of a UE, and those of MBMS channels. *)
Definition keys_of (c : layer_ctxt) (bs : list (Z * bool)) (k : Z) : Prop :=
  (exists rb srb, (rb, srb) ∈ bs /\ k = key_of c rb srb) \/ Z.testbit k 63 = true.

Lemma keys_of_bearer c rb srb bs : (rb, srb) ∈ bs -> keys_of c bs (key_of c rb srb).
Proof. intros H. left. eauto. Qed.
Lemma keys_of_mbms c id bs : keys_of c bs (mbms_key c id).
Proof. right. apply mbms_key_bit. Qed.
Hint Resolve keys_of_bearer keys_of_mbms : rlc_layer.

Lemma data_req_only c srb mbms rb mui n sdu rest (l l' : layer) st bs : layer_ok l -> (mbms = false -> (rb, srb) ∈ bs) ->
  rlc_data_req c srb mbms rb mui n sdu rest l = Ok (st, l') -> only (keys_of c bs) l l'.
Proof.
  intros K B E. unfold rlc_data_req, data_req_key in E. destruct mbms; run_inv; eauto with rlc_layer.
Qed.

Lemma mac_data_req_only c mbms ch g (l l' : layer) bytes bs : layer_ok l -> (mbms = false -> (rb_of_channel ch, srb_of_channel ch) ∈ bs) ->
  mac_rlc_data_req c mbms ch g l = Ok (bytes, l') -> only (keys_of c bs) l l'.
Proof.
  intros K B E. unfold mac_rlc_data_req, channel_key in E. destruct mbms; run_inv; eauto with rlc_layer.
Qed.

Lemma mac_data_ind_only c mbms ch buf n num (l l' : layer) bs : layer_ok l -> (mbms = false -> (rb_of_channel ch, srb_of_channel ch) ∈ bs) ->
  mac_rlc_data_ind c mbms ch buf n num l = Ok l' -> only (keys_of c bs) l l'.
Proof.
  intros K B E. unfold mac_rlc_data_ind, channel_key in E. destruct mbms; run_inv; eauto with rlc_layer.
Qed.

Lemma mac_status_ind_only c mbms ch n (l l' : layer) resp bs : layer_ok l -> (mbms = false -> (rb_of_channel ch, srb_of_channel ch) ∈ bs) ->
  mac_rlc_status_ind c mbms ch n l = Ok (resp, l') -> only (keys_of c bs) l l'.
Proof.
  intros K B E. unfold mac_rlc_status_ind, channel_key in E. destruct mbms; run_inv; eauto with rlc_layer.
Qed.

Lemma add_rlc_only c srb mbms rb ch m (l l' : layer) bs : layer_ok l -> (mbms = false -> (rb, srb) ∈ bs) ->
  rrc_rlc_add_rlc c srb mbms rb ch m l = Ok l' -> only (keys_of c bs) l l'.
Proof.
  intros K B E. unfold rrc_rlc_add_rlc in E. destruct mbms; run_inv; eauto with rlc_layer.
Qed.

Lemma remove_rlc_only c srb mbms rb (l l' : layer) st bs : layer_ok l -> (mbms = false -> (rb, srb) ∈ bs) ->
  rrc_rlc_remove_rlc c srb mbms rb l = Ok (st, l') -> only (keys_of c bs) l l'.
Proof.
  intros K B E. unfold rrc_rlc_remove_rlc in E. apply bind_Ok in E as ([k l1] & E1 & E).
  assert (layer_ok l1 /\ only (keys_of c bs) l l1 /\ keys_of c bs k) as (K1 & F1 & Pk).
  { destruct mbms; run_inv; split_and!; eauto using only_same_coll with rlc_layer. }
  eapply only_trans; [exact F1|]. run_inv; eauto with rlc_layer.
Qed.

Lemma config_um_asn1_only c srb mbms session service ul dl rb (l l' : layer) bs : layer_ok l -> (mbms = false -> (rb, srb) ∈ bs) ->
  config_um_asn1_at c srb mbms session service ul dl rb l = Ok l' -> only (keys_of c bs) l l'.
Proof.
  intros K B E. unfold config_um_asn1_at in E. destruct mbms; run_inv; eauto with rlc_layer.
Qed.

Lemma config_am_only c srb asn1 i rb (l l' : layer) bs : layer_ok l -> (rb, srb) ∈ bs ->
  config_am_at c srb asn1 i rb l = Ok l' -> only (keys_of c bs) l l'.
Proof. intros K B E. unfold config_am_at in E. run_inv; eauto with rlc_layer. Qed.
Lemma config_um_only c srb i rb (l l' : layer) bs : layer_ok l -> (rb, srb) ∈ bs ->
  config_um_at c srb i rb l = Ok l' -> only (keys_of c bs) l l'.
Proof. intros K B E. unfold config_um_at in E. run_inv; eauto with rlc_layer. Qed.
Lemma config_tm_only c srb i rb (l l' : layer) bs : layer_ok l -> (rb, srb) ∈ bs ->
  config_tm_at c srb i rb l = Ok l' -> only (keys_of c bs) l l'.
Proof. intros K B E. unfold config_tm_at in E. run_inv; eauto with rlc_layer. Qed.

Lemma each_only {A} (P : Z -> Prop) (f : layer -> A -> res layer) xs (l l' : layer) : layer_ok l ->
  (forall l x l', x ∈ xs -> layer_ok l -> f l x = Ok l' -> only P l l') -> each f xs l = Ok l' -> only P l l'.
Proof.
  revert l. induction xs as [|x xs IH]; intros l K F E; cbn [each] in E; run_inv; [by apply only_refl|].
  assert (F1 : only P l x0) by (eapply F; [left|..]; done).
  eapply only_trans; [exact F1|]. apply IH; [apply F1| |done]. intros. eapply F; [by right|..]; done.
Qed.

Lemma remove_rbs_only c srb rbs (l l' : layer) bs : layer_ok l -> (forall rb, rb ∈ rbs -> (rb, srb) ∈ bs) ->
  remove_rbs c srb rbs l = Ok l' -> only (keys_of c bs) l l'.
Proof.
  revert l. induction rbs as [|rb rbs IH]; intros l K B E; cbn [remove_rbs] in E; run_inv; [by apply only_refl|].
  assert (F : only (keys_of c bs) l r) by (eapply remove_rlc_only; [done| |done]; intros _; apply B; left).
  eapply only_trans; [exact F|]. apply IH; [apply F| |done]. intros. apply B. by right.
Qed.

Lemma add_um_only c srb rb lc ul dl (l l' : layer) bs : layer_ok l -> (rb, srb) ∈ bs ->
  add_um c srb rb lc ul dl l = Ok l' -> only (keys_of c bs) l l'.
Proof.
  intros K B E. unfold add_um in E. apply bind_Ok in E as (l1 & E1 & E2).
  assert (F : only (keys_of c bs) l l1) by by eapply add_rlc_only.
  eapply only_trans; [exact F|]. eapply config_um_asn1_only; [apply F|done|exact E2].
Qed.

Lemma add_rb_only c srb rb lc cfg (l l' : layer) bs : layer_ok l -> (rb, srb) ∈ bs ->
  add_rb c srb rb lc cfg l = Ok l' -> only (keys_of c bs) l l'.
Proof.
  intros K B E. destruct cfg; cbn [add_rb] in E; try (by injection E as <-; apply only_refl); eauto using add_um_only.
  unfold add_am in E. apply bind_Ok in E as (l1 & E1 & E2).
  assert (F : only (keys_of c bs) l l1) by by eapply add_rlc_only.
  eapply only_trans; [exact F|]. eapply config_am_only; [apply F|done|exact E2].
Qed.

Lemma add_session_only c (l l' : layer) s bs : layer_ok l -> add_session c l s = Ok l' -> only (keys_of c bs) l l'.
Proof.
  intros K E. unfold add_session in E. cbv zeta in E. apply bind_Ok in E as (l1 & E1 & E).
  assert (layer_ok l1 /\ only (keys_of c bs) l l1) as [K1 F1].
  { destruct (enb c); run_inv; split; eauto using only_same_coll. }
  eapply only_trans; [exact F1|]. apply bind_Ok in E as (o & _ & E). apply bind_Ok in E as (l2 & E2 & E).
  assert (F2 : only (keys_of c bs) l1 l2).
  { destruct o; [injection E2 as <-; by apply only_refl|]. eapply add_rlc_only; [done| |exact E2]; done. }
  eapply only_trans; [exact F2|]. eapply config_um_asn1_only; [apply F2| |exact E]; done.
Qed.

(** *** The calls *)

(** The calls of the layer that change its state, with their arguments. *)
Inductive call : Type :=
| Call_rlc_data_req (srb mbms : bool) (rb mui size : Z) (sdu rest : list Z)
| Call_mac_rlc_data_req (mbms : bool) (channel : Z) (garbage : list Z)
| Call_mac_rlc_data_ind (mbms : bool) (channel : Z) (buffer : list Z) (tb_size num_tb : Z)
| Call_mac_rlc_status_ind (mbms : bool) (channel tb_size : Z)
| Call_rrc_rlc_config_asn1_req (srbs : option (list SRB_ToAddMod_t)) (drbs : option (list DRB_ToAddMod_t)) (release : option (list Z))
    (pmch : option (list (list MBMS_SessionInfo_r9_t)))
| Call_rrc_rlc_config_req (srb mbms : bool) (action : config_action_t) (rb : Z) (info : rlc_info_t)
| Call_rrc_rlc_remove_ue
| Call_rrc_rlc_data_req (mbms : bool) (rb mui size : Z) (sdu rest : list Z).

Definition run_call (c : layer_ctxt) (a : call) (l : layer) : res layer :=
  match a with
  | Call_rlc_data_req srb mbms rb mui size sdu rest => snd <$> rlc_data_req c srb mbms rb mui size sdu rest l
  | Call_mac_rlc_data_req mbms ch g => snd <$> mac_rlc_data_req c mbms ch g l
  | Call_mac_rlc_data_ind mbms ch buf n num => mac_rlc_data_ind c mbms ch buf n num l
  | Call_mac_rlc_status_ind mbms ch n => snd <$> mac_rlc_status_ind c mbms ch n l
  | Call_rrc_rlc_config_asn1_req srbs drbs rel pmch => snd <$> rrc_rlc_config_asn1_req c srbs drbs rel pmch l
  | Call_rrc_rlc_config_req srb mbms action rb i => snd <$> rrc_rlc_config_req c srb mbms action rb i l
  | Call_rrc_rlc_remove_ue => snd <$> rrc_rlc_remove_ue c l
  | Call_rrc_rlc_data_req mbms rb mui size sdu rest => snd <$> rrc_rlc_data_req c mbms rb mui size sdu rest l
  end.

(** The bearers a call names, for the UE of its context: (identity, is it a
    signalling bearer). A call with the MBMS flag names none. *)
Definition bearer (mbms : bool) (rb : Z) (srb : bool) : list (Z * bool) := if mbms then [] else [(rb, srb)].
Definition UE_bearers : list (Z * bool) :=
  ((fun rb => (rb, true)) <$> [1; 2]) ++ ((fun rb => (rb, false)) <$> [1; 2; 3; 4; 5; 6; 7; 8; 9; 10; 11]).
Definition addressed (a : call) : list (Z * bool) :=
  match a with
  | Call_rlc_data_req srb mbms rb _ _ _ _ => bearer mbms rb srb
  | Call_mac_rlc_data_req mbms ch _ | Call_mac_rlc_data_ind mbms ch _ _ _ | Call_mac_rlc_status_ind mbms ch _ =>
      bearer mbms (rb_of_channel ch) (srb_of_channel ch)
  | Call_rrc_rlc_config_asn1_req srbs drbs rel _ =>
      ((fun s => (u16 (srb_Identity s), true)) <$> default [] srbs) ++
      ((fun d => (u16 (drb_Identity d), false)) <$> default [] drbs) ++ ((fun d => (u16 d, false)) <$> default [] rel)
  | Call_rrc_rlc_config_req srb mbms action rb _ =>
      bearer (match action with CONFIG_ACTION_REMOVE => mbms | _ => false end) rb srb
  | Call_rrc_rlc_remove_ue => UE_bearers
  | Call_rrc_rlc_data_req mbms rb _ _ _ _ => bearer mbms rb true
  end.

Lemma bearer_elem mbms rb srb : mbms = false -> (rb, srb) ∈ bearer mbms rb srb.
Proof. intros ->. by left. Qed.

Lemma config_asn1_only c srbs drbs rel pmch (l l' : layer) st bs : layer_ok l ->
  (forall x, x ∈ addressed (Call_rrc_rlc_config_asn1_req srbs drbs rel pmch) -> x ∈ bs) ->
  rrc_rlc_config_asn1_req c srbs drbs rel pmch l = Ok (st, l') -> only (keys_of c bs) l l'.
Proof.
  intros K B E. unfold rrc_rlc_config_asn1_req in E. cbn [addressed] in B.
  apply bind_Ok in E as (l1 & E1 & E). apply bind_Ok in E as (l2 & E2 & E). apply bind_Ok in E as (l3 & E3 & E).
  apply bind_Ok in E as (l4 & E4 & E). injection E as _ <-.
  assert (F1 : only (keys_of c bs) l l1).
  { destruct srbs as [xs|]; cbn [each_of] in E1; [|injection E1 as <-; by apply only_refl].
    eapply each_only; [exact K| |exact E1]. intros m x m' Hx Km Em. unfold add_srb in Em. cbv zeta in Em.
    assert ((u16 (srb_Identity x), true) ∈ bs) by (apply B, elem_of_app; left; apply list_elem_of_fmap; by exists x).
    destruct (srb_rlc_Config x) as [[| | |]|]; run_inv; eauto using add_rb_only, add_um_only, only_refl. }
  eapply only_trans; [exact F1|].
  assert (F2 : only (keys_of c bs) l1 l2).
  { destruct drbs as [xs|]; cbn [each_of] in E2; [|injection E2 as <-; apply only_refl, F1].
    eapply each_only; [apply F1| |exact E2]. intros m x m' Hx Km Em. unfold add_drb in Em.
    assert ((u16 (drb_Identity x), false) ∈ bs) by (apply B; rewrite !elem_of_app; right; left; apply list_elem_of_fmap; by exists x).
    destruct (drb_rlc_Config x); run_inv; eauto using add_rb_only, only_refl. }
  eapply only_trans; [exact F2|].
  assert (F3 : only (keys_of c bs) l2 l3).
  { destruct rel as [xs|]; cbn [each_of] in E3; [|injection E3 as <-; apply only_refl, F2].
    eapply each_only; [apply F2| |exact E3]. intros m x m' Hx Km Em. unfold release_drb in Em. run_inv.
    eapply remove_rlc_only; [done| |done]. intros _. apply B. rewrite !elem_of_app. right; right. apply list_elem_of_fmap. by exists x. }
  eapply only_trans; [exact F3|].
  destruct pmch as [xs|]; cbn [each_of] in E4; [|injection E4 as <-; apply only_refl, F3].
  eapply each_only; [apply F3| |exact E4]. intros m x m' Hx Km Em.
  eapply each_only; [exact Km| |exact Em]. eauto using add_session_only.
Qed.

Lemma config_req_only c srb mbms action rb i (l l' : layer) st bs : layer_ok l ->
  (forall x, x ∈ addressed (Call_rrc_rlc_config_req srb mbms action rb i) -> x ∈ bs) ->
  rrc_rlc_config_req c srb mbms action rb i l = Ok (st, l') -> only (keys_of c bs) l l'.
Proof.
  intros K B E. unfold rrc_rlc_config_req in E. cbn [addressed] in B. apply bind_Ok in E as (u & _ & E).
  destruct action.
  - run_inv. eapply add_rlc_only; [done| |done]. intros _. apply B. by left.
  - assert ((rb, srb) ∈ bs) by (apply B; by left).
    destruct i; run_inv; eauto using config_am_only, config_um_only, config_tm_only, only_refl.
  - eapply remove_rlc_only; [done| |done]. intros ->. apply B. by left.
  - injection E as _ <-. by apply only_refl.
Qed.

Lemma remove_ue_only c (l l' : layer) st bs : layer_ok l -> (forall x, x ∈ UE_bearers -> x ∈ bs) ->
  rrc_rlc_remove_ue c l = Ok (st, l') -> only (keys_of c bs) l l'.
Proof.
  intros K B E. unfold rrc_rlc_remove_ue in E. apply bind_Ok in E as (l1 & E1 & E). apply bind_Ok in E as (l2 & E2 & E).
  injection E as _ <-.
  assert (F : only (keys_of c bs) l l1).
  { eapply remove_rbs_only; [done| |exact E1]. intros rb H. apply B, elem_of_app. left. apply list_elem_of_fmap. by exists rb. }
  eapply only_trans; [exact F|]. eapply remove_rbs_only; [apply F| |exact E2].
  intros rb H. apply B, elem_of_app. right. apply list_elem_of_fmap. by exists rb.
Qed.

(** A call touches no entity but those of the bearers it names and of MBMS
    channels. *)
Lemma call_only c a (l l' : layer) : layer_ok l -> run_call c a l = Ok l' -> only (keys_of c (addressed a)) l l'.
Proof.
  intros K E. destruct a; cbn [run_call addressed] in E |- *;
    try (unfold fmap, res_fmap in E; match type of E with context [match ?m with _ => _ end] => destruct m as [[? ?]|] eqn:Em; [|discriminate E] end;
         injection E as <-).
  all: eauto using data_req_only, mac_data_req_only, mac_data_ind_only, mac_status_ind_only, config_asn1_only, config_req_only, remove_ue_only, bearer_elem.
  unfold rrc_rlc_data_req in Em. destruct (RlcUm.mem_block_ok (entity_ctxt c)); run_inv; eauto using data_req_only, bearer_elem, only_refl.
Qed.

End Calls.

End RlcLayerProofs.
