(* ===== verification/RlcLayerType.v ===== *)
(** * The RLC layer: the member of the union

    An object of the collection is a union with a tag. The handlers keep the
    tag, no call makes another member of an object the layer holds, the keys
    of MBMS channels hold UM objects, and requests for another mode fail. *)

From S2P Require Import Prelude HashTable Collection RlcUmEntity RlcUmTop RlcAmEntity RlcAmRetransmit RlcTm RlcLayer RlcLayerProofs.
Import Collection RlcTm RlcLayer RlcLayerProofs.

Module RlcLayerType.

#[local] Strategy opaque [no_segment_loop rlc_tm_no_segment rlc_tm_mac_data_request].

(** ** The handlers of an entity *)

Lemma entity_data_req_mode c mui sdu rest n u st u' : entity_data_req c mui sdu rest n u = Ok (st, u') -> mode u' = mode u.
Proof. intros E. destruct u; unfold entity_data_req in E; run_inv; reflexivity. Qed.
Lemma entity_mac_data_req_mode c g u bytes u' : entity_mac_data_req c g u = Ok (bytes, u') -> mode u' = mode u.
Proof. intros E. destruct u; unfold entity_mac_data_req in E; run_inv; reflexivity. Qed.
Lemma fmap_Ok {A B} (f : A -> B) (m : res A) b : f <$> m = Ok b -> exists a, m = Ok a /\ b = f a.
Proof. destruct m; [|done]. intros [= <-]. eauto. Qed.
Lemma entity_mac_data_ind_mode c data n u u' : entity_mac_data_ind c data n u = Ok u' -> mode u' = mode u.
Proof.
  intros E. destruct u; unfold entity_mac_data_ind in E; [by injection E as <-|..];
    apply fmap_Ok in E as (e & _ & ->); reflexivity.
Qed.
Lemma entity_mac_status_ind_mode c n u r u' : entity_mac_status_ind c n u = Ok (r, u') -> mode u' = mode u.
Proof. intros E. destruct u; unfold entity_mac_status_ind in E; run_inv; reflexivity. Qed.
Lemma as_am_mode u e : as_am u = Ok e -> mode u = RLC_MODE_AM.
Proof. by destruct u. Qed.
Lemma as_um_mode u e : as_um u = Ok e -> mode u = RLC_MODE_UM.
Proof. by destruct u. Qed.
Lemma as_tm_mode u e : as_tm u = Ok e -> mode u = RLC_MODE_TM.
Proof. by destruct u. Qed.
Lemma rb_free_mode u : mode (rb_free_rlc_union u) = mode u.
Proof. by destruct u. Qed.

Section Typed.
Context {T : Type} `{O : CollectionOps T rlc_union_t} `{!CollectionLaws T rlc_union_t}.
Notation layer := (rlc_layer T).

(** Every object of [l] is in [l'], as the same member. *)
Definition keeps (l l' : layer) : Prop :=
  layer_ok l' /\ forall k u, entities l !! k = Some u -> exists u', entities l' !! k = Some u' /\ mode u' = mode u.

Lemma keeps_refl l : layer_ok l -> keeps l l.
Proof. split; eauto. Qed.
Lemma keeps_trans l1 l2 l3 : keeps l1 l2 -> keeps l2 l3 -> keeps l1 l3.
Proof.
  intros [_ H1] [K H2]. split; [done|]. intros k u E. destruct (H1 k u E) as (u1 & E1 & M1).
  destruct (H2 k u1 E1) as (u2 & E2 & M2). exists u2. split; [done|congruence].
Qed.
Lemma keeps_same_coll l l' : layer_ok l -> rlc_coll l' = rlc_coll l -> keeps l l'.
Proof. intros K E. unfold keeps, layer_ok, entities in *. rewrite E. eauto. Qed.

Lemma stored_keeps l k u w l' : layer_ok l -> entities l !! k = Some w -> mode u = mode w -> store l k u = Ok l' -> keeps l l'.
Proof.
  intros K E M S. destruct (store_entity l k u w K E) as (l1 & E1 & K1 & M1). assert (l1 = l') as -> by congruence.
  split; [done|]. intros k' u' E'. rewrite M1. destruct (decide (k' = k)) as [->|].
  - rewrite lookup_insert_eq. exists u. split; [done|congruence].
  - rewrite lookup_insert_ne by done. eauto.
Qed.

Lemma inserted_keeps l k u t : layer_ok l -> entities l !! k = None -> coll_insert (rlc_coll l) k u = Ok t -> keeps l (l <| rlc_coll := t |>).
Proof.
  intros K E S. destruct (coll_insert_ok (rlc_coll l) k u K E) as (t1 & E1 & K1 & M1). assert (t1 = t) as -> by congruence.
  split; [done|]. intros k' u' E'. exists u'. split; [|done]. unfold entities in *. change (coll_map t !! k' = Some u').
  rewrite M1, lookup_insert_ne; [done|]. intros ->. congruence.
Qed.

Hint Resolve keeps_refl stored_keeps inserted_keeps : rlc_layer.
Hint Resolve entity_data_req_mode entity_mac_data_req_mode entity_mac_data_ind_mode entity_mac_status_ind_mode : rlc_layer.

Lemma um_stored l k u e e' l' : layer_ok l -> entities l !! k = Some u -> as_um u = Ok e -> store l k (U_um e') = Ok l' -> keeps l l'.
Proof. intros K E A S. eapply stored_keeps; [done|done| |done]. by rewrite (as_um_mode _ _ A). Qed.
Lemma am_stored l k u e e' l' : layer_ok l -> entities l !! k = Some u -> as_am u = Ok e -> store l k (U_am e') = Ok l' -> keeps l l'.
Proof. intros K E A S. eapply stored_keeps; [done|done| |done]. by rewrite (as_am_mode _ _ A). Qed.
Lemma tm_stored l k u e e' l' : layer_ok l -> entities l !! k = Some u -> as_tm u = Ok e -> store l k (U_tm e') = Ok l' -> keeps l l'.
Proof. intros K E A S. eapply stored_keeps; [done|done| |done]. by rewrite (as_tm_mode _ _ A). Qed.
Hint Resolve um_stored am_stored tm_stored : rlc_layer.

(** ** The operations *)

Lemma data_req_keeps c srb mbms rb mui n sdu rest (l l' : layer) st : layer_ok l ->
  rlc_data_req c srb mbms rb mui n sdu rest l = Ok (st, l') -> keeps l l'.
Proof. intros K E. unfold rlc_data_req in E. destruct mbms; run_inv; eauto with rlc_layer. Qed.
Lemma mac_data_req_keeps c mbms ch g (l l' : layer) bytes : layer_ok l -> mac_rlc_data_req c mbms ch g l = Ok (bytes, l') -> keeps l l'.
Proof. intros K E. unfold mac_rlc_data_req in E. run_inv; eauto with rlc_layer. Qed.
Lemma mac_data_ind_keeps c mbms ch buf n num (l l' : layer) : layer_ok l -> mac_rlc_data_ind c mbms ch buf n num l = Ok l' -> keeps l l'.
Proof. intros K E. unfold mac_rlc_data_ind in E. run_inv; eauto with rlc_layer. Qed.
Lemma mac_status_ind_keeps c mbms ch n (l l' : layer) resp : layer_ok l -> mac_rlc_status_ind c mbms ch n l = Ok (resp, l') -> keeps l l'.
Proof. intros K E. unfold mac_rlc_status_ind in E. run_inv; eauto with rlc_layer. Qed.
Lemma add_rlc_keeps c srb mbms rb ch m (l l' : layer) : layer_ok l -> rrc_rlc_add_rlc c srb mbms rb ch m l = Ok l' -> keeps l l'.
Proof. intros K E. unfold rrc_rlc_add_rlc in E. run_inv; eauto with rlc_layer. Qed.
Lemma config_um_asn1_keeps c srb mbms x y ul dl rb (l l' : layer) : layer_ok l -> config_um_asn1_at c srb mbms x y ul dl rb l = Ok l' -> keeps l l'.
Proof. intros K E. unfold config_um_asn1_at in E. cbv zeta in E. run_inv; eauto with rlc_layer. Qed.
Lemma config_am_keeps c srb asn1 i rb (l l' : layer) : layer_ok l -> config_am_at c srb asn1 i rb l = Ok l' -> keeps l l'.
Proof. intros K E. unfold config_am_at in E. run_inv; eauto with rlc_layer. Qed.
Lemma config_um_keeps c srb i rb (l l' : layer) : layer_ok l -> config_um_at c srb i rb l = Ok l' -> keeps l l'.
Proof. intros K E. unfold config_um_at in E. run_inv; eauto with rlc_layer. Qed.
Lemma config_tm_keeps c srb i rb (l l' : layer) : layer_ok l -> config_tm_at c srb i rb l = Ok l' -> keeps l l'.
Proof. intros K E. unfold config_tm_at in E. run_inv; eauto with rlc_layer. Qed.

Lemma each_keeps {A} (f : layer -> A -> res layer) xs (l l' : layer) : layer_ok l ->
  (forall l x l', layer_ok l -> f l x = Ok l' -> keeps l l') -> each f xs l = Ok l' -> keeps l l'.
Proof.
  intros K F. revert l K. induction xs as [|x xs IH]; intros l K E; cbn [each] in E; [injection E as <-; by apply keeps_refl|].
  apply bind_Ok in E as (l1 & E1 & E2). pose proof (F l x l1 K E1) as F1. eapply keeps_trans; [exact F1|]. apply IH; [apply F1|done].
Qed.
Lemma each_of_keeps {A} (f : layer -> A -> res layer) xs (l l' : layer) : layer_ok l ->
  (forall l x l', layer_ok l -> f l x = Ok l' -> keeps l l') -> each_of f xs l = Ok l' -> keeps l l'.
Proof. intros K F E. destruct xs; [by eapply each_keeps|]. injection E as <-. by apply keeps_refl. Qed.

Lemma add_um_keeps c srb rb lc ul dl (l l' : layer) : layer_ok l -> add_um c srb rb lc ul dl l = Ok l' -> keeps l l'.
Proof.
  intros K E. apply bind_Ok in E as (l1 & E1 & E2). pose proof (add_rlc_keeps _ _ _ _ _ _ _ _ K E1) as F.
  eapply keeps_trans; [exact F|]. eapply config_um_asn1_keeps; [apply F|done].
Qed.
Lemma add_rb_keeps c srb rb lc cfg (l l' : layer) : layer_ok l -> add_rb c srb rb lc cfg l = Ok l' -> keeps l l'.
Proof.
  intros K E. destruct cfg; cbn [add_rb] in E; try (by injection E as <-; apply keeps_refl); eauto using add_um_keeps.
  apply bind_Ok in E as (l1 & E1 & E2). pose proof (add_rlc_keeps _ _ _ _ _ _ _ _ K E1) as F.
  eapply keeps_trans; [exact F|]. eapply config_am_keeps; [apply F|done].
Qed.
Lemma add_srb_keeps c (l : layer) s (l' : layer) : layer_ok l -> add_srb c l s = Ok l' -> keeps l l'.
Proof.
  intros K E. unfold add_srb in E. cbv zeta in E.
  destruct (srb_rlc_Config s) as [[| | |]|]; run_inv; eauto using add_rb_keeps, add_um_keeps, keeps_refl.
Qed.
Lemma add_drb_keeps c (l : layer) d (l' : layer) : layer_ok l -> add_drb c l d = Ok l' -> keeps l l'.
Proof. intros K E. unfold add_drb in E. destruct (drb_rlc_Config d); run_inv; eauto using add_rb_keeps, keeps_refl. Qed.

Lemma add_session_keeps c (l : layer) s (l' : layer) : layer_ok l -> add_session c l s = Ok l' -> keeps l l'.
Proof.
  intros K E. unfold add_session in E. cbv zeta in E. apply bind_Ok in E as (l1 & E1 & E).
  assert (layer_ok l1 /\ keeps l l1) as [K1 F1].
  { destruct (enb c); run_inv; split; eauto using keeps_same_coll. }
  eapply keeps_trans; [exact F1|]. apply bind_Ok in E as (o & _ & E). apply bind_Ok in E as (l2 & E2 & E).
  assert (F2 : keeps l1 l2) by (destruct o; [injection E2 as <-; by apply keeps_refl|by eapply add_rlc_keeps]).
  eapply keeps_trans; [exact F2|]. eapply config_um_asn1_keeps; [apply F2|done].
Qed.

(** The calls that release no bearer. *)
Definition releases (a : call) : bool :=
  match a with
  | Call_rrc_rlc_config_asn1_req _ _ (Some (_ :: _)) _ | Call_rrc_rlc_config_req _ _ CONFIG_ACTION_REMOVE _ _ | Call_rrc_rlc_remove_ue => true
  | _ => false
  end.

Lemma call_keeps c a (l l' : layer) : layer_ok l -> releases a = false -> run_call c a l = Ok l' -> keeps l l'.
Proof.
  intros K R E. destruct a; cbn [run_call] in E; try discriminate R; try (apply fmap_Ok in E as ([? ?] & E & ->); cbn [snd]);
    eauto using data_req_keeps, mac_data_req_keeps, mac_data_ind_keeps, mac_status_ind_keeps.
  - unfold rrc_rlc_config_asn1_req in E.
    apply bind_Ok in E as (l1 & E1 & E). apply bind_Ok in E as (l2 & E2 & E). apply bind_Ok in E as (l3 & E3 & E).
    apply bind_Ok in E as (l4 & E4 & E). injection E as _ <-.
    assert (l3 = l2) as -> by (destruct release as [[|]|]; [by injection E3|done|by injection E3]).
    pose proof (each_of_keeps _ _ _ _ K (add_srb_keeps c) E1) as F1.
    pose proof (each_of_keeps _ _ _ _ (proj1 F1) (add_drb_keeps c) E2) as F2.
    eapply keeps_trans; [exact F1|]. eapply keeps_trans; [exact F2|].
    eapply each_of_keeps; [apply F2| |exact E4]. intros m x m1 Km Em. eapply each_keeps; [exact Km|apply (add_session_keeps c)|exact Em].
  - unfold rrc_rlc_config_req in E. apply bind_Ok in E as (u & _ & E). destruct action; try discriminate R; [| |run_inv; by apply keeps_refl].
    + run_inv; eauto using add_rlc_keeps.
    + destruct info; run_inv; eauto using config_am_keeps, config_um_keeps, config_tm_keeps, keeps_refl.
  - unfold rrc_rlc_data_req in E. destruct (RlcUm.mem_block_ok (entity_ctxt c)); run_inv; eauto using data_req_keeps, keeps_refl.
Qed.

(** ** MBMS channels *)

(** The keys of MBMS channels, which have bit 63, hold UM objects only. *)
Definition mbms_um (l : layer) : Prop := forall k u, entities l !! k = Some u -> Z.testbit k 63 = true -> mode u = RLC_MODE_UM.

(** Every object of [l'] is one of [l] with its mode, or is allowed where it is. *)
Definition typed (l l' : layer) : Prop :=
  layer_ok l' /\ forall k u', entities l' !! k = Some u' ->
    (exists u, entities l !! k = Some u /\ mode u' = mode u) \/ (Z.testbit k 63 = true -> mode u' = RLC_MODE_UM).

Lemma typed_refl l : layer_ok l -> typed l l.
Proof. split; eauto. Qed.
Lemma typed_trans l1 l2 l3 : typed l1 l2 -> typed l2 l3 -> typed l1 l3.
Proof.
  intros [_ H1] [K H2]. split; [done|]. intros k u E. destruct (H2 k u E) as [(u2 & E2 & M2)|M2]; [|by right].
  destruct (H1 k u2 E2) as [(u1 & E1 & M1)|M1]; [left; exists u1; split; [done|congruence]|right; intros B; by rewrite M2, M1].
Qed.
Lemma typed_same_coll l l' : layer_ok l -> rlc_coll l' = rlc_coll l -> typed l l'.
Proof. intros K E. unfold typed, layer_ok, entities in *. rewrite E. eauto. Qed.
Lemma typed_mbms l l' : mbms_um l -> typed l l' -> mbms_um l'.
Proof. intros M [_ H] k u E B. destruct (H k u E) as [(u1 & E1 & ->)|M1]; [by apply (M k)|by apply M1]. Qed.

Lemma stored_typed l k u w l' : layer_ok l -> entities l !! k = Some w -> mode u = mode w -> store l k u = Ok l' -> typed l l'.
Proof.
  intros K E M S. destruct (store_entity l k u w K E) as (l1 & E1 & K1 & M1). assert (l1 = l') as -> by congruence.
  split; [done|]. intros k' u' E'. left. rewrite M1 in E'. destruct (decide (k' = k)) as [->|].
  - rewrite lookup_insert_eq in E'. injection E' as <-. eauto.
  - rewrite lookup_insert_ne in E' by done. eauto.
Qed.

Lemma inserted_typed l k m t : layer_ok l -> entities l !! k = None -> (Z.testbit k 63 = true -> m = RLC_MODE_UM) ->
  coll_insert (rlc_coll l) k (new_union m) = Ok t -> typed l (l <| rlc_coll := t |>).
Proof.
  intros K E M S. destruct (coll_insert_ok (rlc_coll l) k (new_union m) K E) as (t1 & E1 & K1 & M1). assert (t1 = t) as -> by congruence.
  split; [done|]. intros k' u' E'. change (coll_map t !! k' = Some u') in E'. rewrite M1 in E'. destruct (decide (k' = k)) as [->|].
  - rewrite lookup_insert_eq in E'. injection E' as <-. right. intros B. by rewrite (M B).
  - rewrite lookup_insert_ne in E' by done. left. eauto.
Qed.

Lemma removed_typed l k o t : layer_ok l -> coll_remove (rlc_coll l) k = Ok (o, t) -> typed l (l <| rlc_coll := t |>).
Proof.
  intros K S. destruct (coll_remove_ok (rlc_coll l) k K) as (t1 & E1 & K1 & M1). rewrite E1 in S. injection S as _ <-.
  split; [exact K1|]. intros k' u' E'. change (coll_map t1 !! k' = Some u') in E'. rewrite M1 in E'.
  apply lookup_delete_Some in E' as [_ E']. left. eauto.
Qed.

Lemma um_typed l k u e e' l' : layer_ok l -> entities l !! k = Some u -> as_um u = Ok e -> store l k (U_um e') = Ok l' -> typed l l'.
Proof. intros K E A S. eapply stored_typed; [done|done| |done]. by rewrite (as_um_mode _ _ A). Qed.
Lemma am_typed l k u e e' l' : layer_ok l -> entities l !! k = Some u -> as_am u = Ok e -> store l k (U_am e') = Ok l' -> typed l l'.
Proof. intros K E A S. eapply stored_typed; [done|done| |done]. by rewrite (as_am_mode _ _ A). Qed.
Lemma tm_typed l k u e e' l' : layer_ok l -> entities l !! k = Some u -> as_tm u = Ok e -> store l k (U_tm e') = Ok l' -> typed l l'.
Proof. intros K E A S. eapply stored_typed; [done|done| |done]. by rewrite (as_tm_mode _ _ A). Qed.
Hint Resolve typed_refl stored_typed removed_typed um_typed am_typed tm_typed typed_same_coll : rlc_typed.
Hint Resolve entity_data_req_mode entity_mac_data_req_mode entity_mac_data_ind_mode entity_mac_status_ind_mode : rlc_typed.

Lemma data_req_typed c srb mbms rb mui n sdu rest (l l' : layer) st : layer_ok l ->
  rlc_data_req c srb mbms rb mui n sdu rest l = Ok (st, l') -> typed l l'.
Proof. intros K E. unfold rlc_data_req in E. destruct mbms; run_inv; eauto with rlc_typed. Qed.
Lemma mac_data_req_typed c mbms ch g (l l' : layer) bytes : layer_ok l -> mac_rlc_data_req c mbms ch g l = Ok (bytes, l') -> typed l l'.
Proof. intros K E. unfold mac_rlc_data_req in E. run_inv; eauto with rlc_typed. Qed.
Lemma mac_data_ind_typed c mbms ch buf n num (l l' : layer) : layer_ok l -> mac_rlc_data_ind c mbms ch buf n num l = Ok l' -> typed l l'.
Proof. intros K E. unfold mac_rlc_data_ind in E. run_inv; eauto with rlc_typed. Qed.
Lemma mac_status_ind_typed c mbms ch n (l l' : layer) resp : layer_ok l -> mac_rlc_status_ind c mbms ch n l = Ok (resp, l') -> typed l l'.
Proof. intros K E. unfold mac_rlc_status_ind in E. run_inv; eauto with rlc_typed. Qed.
Lemma config_um_asn1_typed c srb mbms x y ul dl rb (l l' : layer) : layer_ok l -> config_um_asn1_at c srb mbms x y ul dl rb l = Ok l' -> typed l l'.
Proof. intros K E. unfold config_um_asn1_at in E. cbv zeta in E. run_inv; eauto with rlc_typed. Qed.
Lemma config_am_typed c srb asn1 i rb (l l' : layer) : layer_ok l -> config_am_at c srb asn1 i rb l = Ok l' -> typed l l'.
Proof. intros K E. unfold config_am_at in E. run_inv; eauto with rlc_typed. Qed.
Lemma config_um_typed c srb i rb (l l' : layer) : layer_ok l -> config_um_at c srb i rb l = Ok l' -> typed l l'.
Proof. intros K E. unfold config_um_at in E. run_inv; eauto with rlc_typed. Qed.
Lemma config_tm_typed c srb i rb (l l' : layer) : layer_ok l -> config_tm_at c srb i rb l = Ok l' -> typed l l'.
Proof. intros K E. unfold config_tm_at in E. run_inv; eauto with rlc_typed. Qed.

(** New objects: a bearer of any mode, an MBMS channel with UM. *)
Lemma add_rlc_typed c srb rb ch m (l l' : layer) : layer_ok l -> ctxt_range c -> 0 <= rb < 2 ^ 8 ->
  rrc_rlc_add_rlc c srb false rb ch m l = Ok l' -> typed l l'.
Proof.
  intros K C R E. unfold rrc_rlc_add_rlc in E. run_inv; eauto with rlc_typed.
  eapply inserted_typed; [done|done| |done]. rewrite bearer_key_bit by done. done.
Qed.
Lemma add_mbms_typed c srb rb ch (l l' : layer) : layer_ok l -> rrc_rlc_add_rlc c srb true rb ch RLC_MODE_UM l = Ok l' -> typed l l'.
Proof. intros K E. unfold rrc_rlc_add_rlc in E. run_inv; eauto using inserted_typed with rlc_typed. Qed.

Lemma remove_rlc_typed c srb mbms rb (l l' : layer) st : layer_ok l -> rrc_rlc_remove_rlc c srb mbms rb l = Ok (st, l') -> typed l l'.
Proof.
  intros K E. unfold rrc_rlc_remove_rlc in E. apply bind_Ok in E as ([k l1] & E1 & E).
  assert (layer_ok l1 /\ typed l l1) as [K1 F1] by (destruct mbms; run_inv; split; eauto with rlc_typed).
  eapply typed_trans; [exact F1|]. run_inv; eauto with rlc_typed.
Qed.
Lemma remove_rbs_typed c srb rbs (l l' : layer) : layer_ok l -> remove_rbs c srb rbs l = Ok l' -> typed l l'.
Proof.
  revert l. induction rbs as [|rb rbs IH]; intros l K E; cbn [remove_rbs] in E; run_inv; [by apply typed_refl|].
  assert (F : typed l r) by by eapply remove_rlc_typed. eapply typed_trans; [exact F|]. apply IH; [apply F|done].
Qed.

Lemma each_typed {A} (f : layer -> A -> res layer) xs (l l' : layer) : layer_ok l ->
  (forall l x l', x ∈ xs -> layer_ok l -> f l x = Ok l' -> typed l l') -> each f xs l = Ok l' -> typed l l'.
Proof.
  revert l. induction xs as [|x xs IH]; intros l K F E; cbn [each] in E; run_inv; [by apply typed_refl|].
  assert (F1 : typed l x0) by (eapply F; [left|..]; done).
  eapply typed_trans; [exact F1|]. apply IH; [apply F1| |done]. intros. eapply F; [by right|..]; done.
Qed.
Lemma each_of_typed {A} (f : layer -> A -> res layer) xs (l l' : layer) : layer_ok l ->
  (forall l x l', x ∈ default [] xs -> layer_ok l -> f l x = Ok l' -> typed l l') -> each_of f xs l = Ok l' -> typed l l'.
Proof. intros K F E. destruct xs; [by eapply each_typed|]. injection E as <-. by apply typed_refl. Qed.

Lemma add_um_typed c srb rb lc ul dl (l l' : layer) : layer_ok l -> ctxt_range c -> 0 <= rb < 2 ^ 8 -> add_um c srb rb lc ul dl l = Ok l' -> typed l l'.
Proof.
  intros K C R E. apply bind_Ok in E as (l1 & E1 & E2). pose proof (add_rlc_typed _ _ _ _ _ _ _ K C R E1) as F.
  eapply typed_trans; [exact F|]. eapply config_um_asn1_typed; [apply F|done].
Qed.
Lemma add_rb_typed c srb rb lc cfg (l l' : layer) : layer_ok l -> ctxt_range c -> 0 <= rb < 2 ^ 8 -> add_rb c srb rb lc cfg l = Ok l' -> typed l l'.
Proof.
  intros K C R E. destruct cfg; cbn [add_rb] in E; try (by injection E as <-; apply typed_refl); eauto using add_um_typed.
  apply bind_Ok in E as (l1 & E1 & E2). pose proof (add_rlc_typed _ _ _ _ _ _ _ K C R E1) as F.
  eapply typed_trans; [exact F|]. eapply config_am_typed; [apply F|done].
Qed.
Lemma add_session_typed c (l : layer) s (l' : layer) : layer_ok l -> add_session c l s = Ok l' -> typed l l'.
Proof.
  intros K E. unfold add_session in E. cbv zeta in E. apply bind_Ok in E as (l1 & E1 & E).
  assert (layer_ok l1 /\ typed l l1) as [K1 F1] by (destruct (enb c); run_inv; split; eauto with rlc_typed).
  eapply typed_trans; [exact F1|]. apply bind_Ok in E as (o & _ & E). apply bind_Ok in E as (l2 & E2 & E).
  assert (F2 : typed l1 l2) by (destruct o; [injection E2 as <-; by apply typed_refl|by eapply add_mbms_typed]).
  eapply typed_trans; [exact F2|]. eapply config_um_asn1_typed; [apply F2|done].
Qed.

Lemma config_asn1_typed c srbs drbs rel pmch (l l' : layer) st : layer_ok l -> ctxt_range c ->
  Forall (fun b => 0 <= fst b < 2 ^ 8) (addressed (Call_rrc_rlc_config_asn1_req srbs drbs rel pmch)) ->
  rrc_rlc_config_asn1_req c srbs drbs rel pmch l = Ok (st, l') -> typed l l'.
Proof.
  intros K C R E. unfold rrc_rlc_config_asn1_req in E. cbn [addressed] in R. rewrite !Forall_app, !Forall_fmap in R.
  destruct R as (R1 & R2 & _). rewrite Forall_forall in R1. rewrite Forall_forall in R2.
  apply bind_Ok in E as (l1 & E1 & E). apply bind_Ok in E as (l2 & E2 & E). apply bind_Ok in E as (l3 & E3 & E).
  apply bind_Ok in E as (l4 & E4 & E). injection E as _ <-.
  assert (F1 : typed l l1).
  { eapply each_of_typed; [exact K| |exact E1]. intros m x m' Hx Km Em. pose proof (R1 x Hx) as Rx. cbn in Rx.
    unfold add_srb in Em. cbv zeta in Em. destruct (srb_rlc_Config x) as [[| | |]|]; run_inv; eauto using add_rb_typed, add_um_typed, typed_refl. }
  assert (F2 : typed l1 l2).
  { eapply each_of_typed; [apply F1| |exact E2]. intros m x m' Hx Km Em. pose proof (R2 x Hx) as Rx. cbn in Rx.
    unfold add_drb in Em. destruct (drb_rlc_Config x); run_inv; eauto using add_rb_typed, typed_refl. }
  assert (F3 : typed l2 l3).
  { eapply each_of_typed; [apply F2| |exact E3]. intros m x m' _ Km Em. unfold release_drb in Em. run_inv. by eapply remove_rlc_typed. }
  eapply typed_trans; [exact F1|]. eapply typed_trans; [exact F2|]. eapply typed_trans; [exact F3|].
  eapply each_of_typed; [apply F3| |exact E4]. intros m x m' _ Km Em. eapply each_typed; [exact Km| |exact Em]. eauto using add_session_typed.
Qed.

(** The calls the theorems are about: the module has 8 bits, the RNTI 16, and
    the bearers named are in the 8 bits the key has for them. *)
Definition call_range (x : layer_ctxt * call) : Prop :=
  ctxt_range (fst x) /\ Forall (fun b => 0 <= fst b < 2 ^ 8) (addressed (snd x)).

Lemma call_typed c a (l l' : layer) : layer_ok l -> call_range (c, a) -> run_call c a l = Ok l' -> typed l l'.
Proof.
  intros K [C R] E. cbn [fst snd] in C, R. destruct a; cbn [run_call] in E; try (apply fmap_Ok in E as ([? ?] & E & ->); cbn [snd]);
    eauto using data_req_typed, mac_data_req_typed, mac_data_ind_typed, mac_status_ind_typed, config_asn1_typed.
  - unfold rrc_rlc_config_req in E. apply bind_Ok in E as (u & _ & E). destruct action; [| |by eapply remove_rlc_typed|run_inv; by apply typed_refl].
    + cbn in R. apply Forall_cons in R as [R _]. run_inv. by eapply add_rlc_typed.
    + destruct info; run_inv; eauto using config_am_typed, config_um_typed, config_tm_typed, typed_refl.
  - unfold rrc_rlc_remove_ue in E. apply bind_Ok in E as (l1 & E1 & E). apply bind_Ok in E as (l2 & E2 & E). injection E as _ <-.
    pose proof (remove_rbs_typed _ _ _ _ _ K E1) as F. eapply typed_trans; [exact F|]. eapply remove_rbs_typed; [apply F|done].
  - unfold rrc_rlc_data_req in E. destruct (RlcUm.mem_block_ok (entity_ctxt c)); run_inv; eauto using data_req_typed, typed_refl.
Qed.

(** ** Requests for another mode *)

Lemma add_other_mode c srb rb ch m (l : layer) u : layer_ok l -> entities l !! key_of c rb srb = Some u -> m <> mode u ->
  rrc_rlc_add_rlc c srb false rb ch m l = Fault AssertFatal.
Proof.
  intros K E M. unfold rrc_rlc_add_rlc. destruct (rb <? NB_RB_MAX); cbn [assert_fatal]; [step_ok|done].
  destruct (ch <? RLC_MAX_LC); cbn [assert_fatal]; [|done]. repeat step_ok. rewrite (get_entity l _ K), E. step_ok.
  rewrite bool_decide_false by congruence. done.
Qed.

(** The mode an RLC-Config asks for. *)
Definition cfg_mode (cfg : RLC_Config_t) : option rlc_mode_t :=
  match cfg with
  | RLC_Config_PR_NOTHING | RLC_Config_PR_other => None
  | RLC_Config_PR_am _ => Some RLC_MODE_AM
  | _ => Some RLC_MODE_UM
  end.

Lemma add_rb_other_mode c srb rb lc cfg m (l : layer) u : layer_ok l -> entities l !! key_of c rb srb = Some u ->
  cfg_mode cfg = Some m -> m <> mode u -> add_rb c srb rb lc cfg l = Fault AssertFatal.
Proof.
  intros K E Hc M. destruct cfg; cbn [cfg_mode] in Hc; try discriminate Hc; injection Hc as <-; cbn [add_rb]; unfold add_am, add_um;
    by rewrite (add_other_mode c srb rb lc _ l u K E M).
Qed.

Lemma drb_other_mode c d ds rel pmch cfg m (l : layer) u : layer_ok l -> entities l !! key_of c (u16 (drb_Identity d)) false = Some u ->
  drb_rlc_Config d = Some cfg -> cfg_mode cfg = Some m -> m <> mode u ->
  rrc_rlc_config_asn1_req c None (Some (d :: ds)) rel pmch l = Fault AssertFatal.
Proof.
  intros K E Hd Hc M. unfold rrc_rlc_config_asn1_req. cbn [each_of each]. step_ok. unfold add_drb. rewrite Hd.
  by rewrite (add_rb_other_mode c false _ _ cfg m l u K E Hc M).
Qed.

Lemma srb_other_mode c x xs drbs rel pmch cfg m (l : layer) u : layer_ok l -> entities l !! key_of c (u16 (srb_Identity x)) true = Some u ->
  srb_rlc_Config x = Some (SRB_rlc_Config_explicitValue cfg) -> cfg_mode cfg = Some m -> m <> mode u ->
  rrc_rlc_config_asn1_req c (Some (x :: xs)) drbs rel pmch l = Fault AssertFatal.
Proof.
  intros K E Hd Hc M. unfold rrc_rlc_config_asn1_req. cbn [each_of each]. unfold add_srb. rewrite Hd. cbv zeta.
  by rewrite (add_rb_other_mode c true _ _ cfg m l u K E Hc M).
Qed.

Lemma modify_other_mode c srb mbms rb i (l : layer) u : layer_ok l -> entities l !! key_of c rb srb = Some u -> rb < NB_RB_MAX ->
  info_mode i <> RLC_MODE_NONE -> info_mode i <> mode u ->
  rrc_rlc_config_req c srb mbms CONFIG_ACTION_MODIFY rb i l = Fault OutOfBounds.
Proof.
  intros K E R N M. unfold rrc_rlc_config_req. rewrite (proj2 (Z.ltb_lt _ _) R). cbn [assert_fatal]. step_ok.
  destruct i; cbn [info_mode] in *; [done| | |]; unfold config_am_at, config_um_at, config_tm_at; cbv zeta;
    rewrite (get_entity l _ K), E; step_ok; destruct u; cbn [mode] in M; done.
Qed.

End Typed.

End RlcLayerType.
