(* ===== verification/RlcBearer.v ===== *)
(** * A UM bearer through the RLC layers of an eNB and of a UE

    Two layers, each with whatever other bearers it has, whose MACs exchange
    buffers. The steps are calls of the layers: on the bearer, and any other
    call that does not name it. A state of this system is one of
    [RlcUmSystem.link] for the bearer, so that what was proved there of two
    entities holds of the layers: [bearer_inv] is the simulation relation. *)

From S2P Require Import Prelude HashTable Collection RlcUmEntity RlcUmDar RlcUmReasm RlcUmTx RlcUmTop RlcUmSystem.
From S2P Require Import RlcTm RlcLayer RlcLayerProofs.
Import Collection RlcLayer RlcLayerProofs.

Module RlcBearer.
Import RlcUm RlcUmReasm RlcUmTx RlcUmTop RlcUmSystem.

(** ** Two facts on the link *)

(** What the transmitter hands to MAC is nothing, or one block of as many
    bytes as it says, below 32 KiB. *)
Lemma request_block c g l : link_reach l -> mem_block_ok c = true -> grant_ok (l_tx l) = true ->
  exists req tx', rlc_um_mac_data_request c g (l_tx l) = Ok (req, tx') /\
    (dr_data req = [] \/ exists pdu, dr_data req = [mk_tb pdu (Z.of_nat (length pdu))] /\ 1 <= Z.of_nat (length pdu) < 2 ^ 15).
Proof.
  intros (rx & _ & [T Rd Ti Ou Nb R Ln Sn Cu Fi Da])%reach_inv Hm Hg. set (tx := l_tx l) in *. clearbody tx.
  unfold rlc_um_mac_data_request.
  destruct (decide (input_sdus tx = [] \/ nb_bytes_requested_by_mac tx <= tx_header_min_length_in_bytes tx)) as [H|H].
  { rewrite (get_pdus_idle c g tx T Rd Nb H). step_ok. rewrite Ou. cbn [count_tx_pdus]. step_ok. eexists _, _. split; [reflexivity|by left]. }
  destruct (segment_spec c g tx T ltac:(tauto) Hm ltac:(lia))
    as (full & s & rest & p & slack & trail & C & Ht & Hs & Hl & N & P & D & E). cbv zeta in *.
  set (pdu := pdu_of _ _ _ _ _ _ trail) in *.
  destruct (after_segment_frame tx full s rest p pdu) as (F1 & F2 & F3 & F4 & F5 & F6 & F7).
  set (r1 := after_segment tx full s rest p pdu) in *. clearbody r1.
  rewrite (get_pdus_segment c g tx _ T Rd E F1). step_ok. rewrite F7, Ou. cbn [app count_tx_pdus tb_size]. rewrite s16_small by lia.
  rewrite (proj2 (Z.ltb_lt 0 (Z.of_nat (length pdu)))) by lia. cbn [assert_fatal]. repeat step_ok.
  eexists _, _. split; [reflexivity|]. right. exists pdu. split; [done|lia].
Qed.

(** The receiver stays the entity of its bearer. *)
Lemma indicate_bearer c l tb ch rx : link_reach l -> mem_block_ok c = true -> l_ch l = tb :: ch ->
  rlc_um_mac_data_indication c (l_rx l) [tb] = Ok rx -> bearer_id rx = bearer_id (l_rx l).
Proof.
  intros (rx' & Ch & _)%reach_inv Hm El E. rewrite El in Ch. inversion Ch as [|? ? ? rx2 ? Hi _ [_ B] _]; subst.
  rewrite (Hi c Hm) in E. by injection E as <-.
Qed.

(** What the layer indicates to PDCP for the entity of a data bearer. *)
Lemma bearer_indications e rb : bearer_id e = (true, 0, rb) ->
  indications (U_um e) = PdcpDataInd false false rb <$> upper_sdus e.
Proof.
  unfold bearer_id. intros [= E1 E2 E3]. unfold indications. rewrite E1, E2, E3. cbn [negb Z.eqb].
  induction (upper_sdus e) as [|s ss IH]; [done|]. by rewrite bind_cons, IH.
Qed.

(** The ASN.1 configuration with one field length for both directions is that
    of [config_req_rlc_um]. *)
Lemma asn1_same_length enb srb rb v t r : v = 0 \/ v = 1 -> 0 <= t < 31 -> initialized r = false ->
  exists ms e, t_Reordering_tab !! Z.to_nat t = Some ms /\ config_req_rlc_um_asn1 enb srb 0 (Some v) (Some (v, t)) rb (Some r) = Ok e /\
    config_req_rlc_um srb (mk_um_info ms (if v =? 1 then 10 else 5) 0) rb (Some r) = Some e /\
    bearer_id e = (negb srb, 0, rb).
Proof.
  intros Hv Ht H0.
  destruct (lookup_lt_is_Some_2 t_Reordering_tab (Z.to_nat t)) as [ms Hms]; [simpl; lia|].
  exists ms. rewrite (config_req_init _ _ _ _ H0). unfold config_req_rlc_um_asn1, rlc_um_fsm_notify_event.
  assert (protocol_state (rlc_um_init r) = RLC_NULL_STATE) as -> by (unfold rlc_um_init; rewrite H0; reflexivity).
  eexists. rewrite Hms. split; [done|]. split; [|split; [reflexivity|]]; unfold rlc_um_init; rewrite H0; destruct Hv as [-> | ->]; destruct enb; reflexivity.
Qed.

(** ** The calls on the bearer *)

Section Bearer.
Context {T : Type} `{O : CollectionOps T rlc_union_t} `{!CollectionLaws T rlc_union_t}.
Notation layer := (rlc_layer T).

(** The layer [l'] is [l] with the entity at [k] replaced. *)
Definition replaced (l : layer) (k : Z) (e : rlc_um_entity_t) (l' : layer) : Prop :=
  layer_ok l' /\ entities l' = <[k := U_um e]> (entities l).

Lemma store_replaced l k e w : layer_ok l -> entities l !! k = Some w -> exists l', store l k (U_um e) = Ok l' /\ replaced l k e l'.
Proof. intros K E. destruct (store_entity l k (U_um e) w K E) as (l' & E' & R). by exists l'. Qed.

Lemma replaced_at l k e l' : replaced l k e l' -> entities l' !! k = Some (U_um e).
Proof. intros [_ ->]. apply lookup_insert_eq. Qed.

Lemma bearer_data_req c rb mui sdu more rest l e : layer_ok l -> mem_block_ok (entity_ctxt c) = true -> rb < NB_RB_MAX -> sdu <> [] ->
  entities l !! key_of c rb false = Some (U_um e) ->
  exists l', rlc_data_req c false false rb mui (Z.of_nat (length sdu)) (sdu ++ more) rest l = Ok (RLC_OP_STATUS_OK, l') /\
    replaced l (key_of c rb false) (rlc_um_data_req (entity_ctxt c) e sdu) l'.
Proof.
  intros K M Hrb Hs E. unfold rlc_data_req, data_req_key. rewrite (proj2 (Z.ltb_lt _ _) Hrb).
  rewrite (proj2 (Z.ltb_lt 0 (Z.of_nat (length sdu)))) by (destruct sdu; simpl; [done|lia]). cbn [assert_fatal]. repeat step_ok.
  rewrite (get_entity l _ K), E. step_ok. unfold entity_data_req. rewrite M. unfold copy_sdu.
  rewrite (proj2 (orb_false_iff _ _)) by (rewrite !Z.ltb_ge, length_app; lia). rewrite Nat2Z.id, take_app_length. repeat step_ok.
  destruct (store_replaced l (key_of c rb false) (rlc_um_data_req (entity_ctxt c) e sdu) _ K E) as (l' & -> & R). by exists l'.
Qed.

Lemma add_fresh c srb rb ch m l : layer_ok l -> entities l !! key_of c rb srb = None -> rb < NB_RB_MAX -> ch < RLC_MAX_LC ->
  exists l', rrc_rlc_add_rlc c srb false rb ch m l = Ok l' /\ layer_ok l' /\ entities l' = <[key_of c rb srb := new_union m]> (entities l).
Proof.
  intros K E H1 H2. unfold rrc_rlc_add_rlc. rewrite (proj2 (Z.ltb_lt _ _) H1), (proj2 (Z.ltb_lt _ _) H2). cbn [assert_fatal]. repeat step_ok.
  rewrite (get_entity l _ K), E. step_ok.
  destruct (coll_insert_ok (rlc_coll l) (key_of c rb srb) (new_union m) K E) as (t & -> & Kt & Mt). step_ok. by eexists.
Qed.

Lemma channel_bearer c rb : 1 <= rb -> channel_key c (rb + 2) = key_of c rb false.
Proof.
  intros H. unfold channel_key, rb_of_channel, srb_of_channel. rewrite (proj2 (Z.ltb_lt _ _)), (proj2 (Z.leb_gt _ _)) by lia.
  by replace (rb + 2 - 2) with rb by lia.
Qed.

Lemma bearer_status c rb tbs l e resp e' : layer_ok l -> 1 <= rb -> entities l !! key_of c rb false = Some (U_um e) ->
  rlc_um_mac_status_indication (entity_ctxt c) (Some e) tbs = Ok (resp, Some e') ->
  exists r l', mac_rlc_status_ind c false (rb + 2) tbs l = Ok (r, l') /\ replaced l (key_of c rb false) e' l'.
Proof.
  intros K H E Es. unfold mac_rlc_status_ind. rewrite (channel_bearer c rb H). step_ok. rewrite (get_entity l _ K), E. step_ok.
  unfold entity_mac_status_ind. rewrite Es. step_ok. cbn [of_option]. repeat step_ok.
  destruct (store_replaced l _ e' _ K E) as (l' & -> & R). eexists _, l'. done.
Qed.

(** The bytes in MAC's buffer. *)
Definition block_bytes (data : list mac_tb) : list Z := concat (data_ptr <$> data).

Lemma data_req_mac_um c rb g l e req e' : layer_ok l -> 1 <= rb < 12 -> entities l !! key_of c rb false = Some (U_um e) ->
  rlc_um_mac_data_request (entity_ctxt c) g e = Ok (req, e') ->
  (dr_data req = [] \/ exists pdu, dr_data req = [mk_tb pdu (Z.of_nat (length pdu))] /\ 1 <= Z.of_nat (length pdu) < 2 ^ 15) ->
  exists l', mac_rlc_data_req c false (rb + 2) g l = Ok (block_bytes (dr_data req), l') /\ replaced l (key_of c rb false) e' l'.
Proof.
  intros K H E Es D. unfold mac_rlc_data_req. rewrite (proj2 (Z.ltb_lt _ _)) by (unfold NB_RB_MAX; lia). cbn [assert_fatal]. step_ok.
  cbn [andb]. rewrite (channel_bearer c rb) by lia. step_ok. rewrite (get_entity l _ K), E. step_ok.
  unfold entity_mac_data_req. rewrite Es. step_ok.
  assert (mac_rlc_serialize_tb (of_um_tb <$> dr_data req) = Ok (block_bytes (dr_data req))) as ->.
  { destruct D as [-> |(pdu & -> & Hp)]; [done|]. unfold block_bytes, of_um_tb.
    cbn [fmap list_fmap mac_rlc_serialize_tb tb_size data_ptr concat].
    rewrite (proj2 (orb_false_iff _ _)) by (rewrite !Z.ltb_ge; lia). step_ok. by rewrite Nat2Z.id, firstn_all. }
  repeat step_ok. destruct (store_replaced l _ e' _ K E) as (l' & -> & R). by exists l'.
Qed.

Lemma data_ind_um c rb buf l e e' : layer_ok l -> 1 <= rb -> entities l !! key_of c rb false = Some (U_um e) ->
  mem_block_ok (entity_ctxt c) = true -> Z.of_nat (length buf) < 2 ^ 15 ->
  rlc_um_mac_data_indication (entity_ctxt c) e [mk_tb buf (Z.of_nat (length buf))] = Ok e' ->
  exists l', mac_rlc_data_ind c false (rb + 2) buf (Z.of_nat (length buf)) 1 l = Ok l' /\ replaced l (key_of c rb false) e' l'.
Proof.
  intros K H E M Hb Es. unfold mac_rlc_data_ind. cbn [andb]. rewrite (channel_bearer c rb H). step_ok.
  rewrite (get_entity l _ K), E. step_ok. unfold mac_rlc_deserialize_tb.
  change (Z.to_nat 1) with 1%nat. cbn [deserialize_loop]. rewrite M.
  rewrite (proj2 (orb_false_iff _ _)) by (rewrite !Z.ltb_ge; lia). repeat step_ok. rewrite Nat2Z.id, firstn_all.
  unfold entity_mac_data_ind, um_tb. cbn [fmap list_fmap fst snd]. rewrite u16_small by lia. rewrite Es. cbn [fmap res_fmap].
  step_ok. by eapply store_replaced.
Qed.

(** ** The system *)

(** [ct] and [cr]: the UE as the eNB and as the UE know it; [rb]: the bearer,
    a DRB. *)
Variables (ct cr : layer_ctxt) (rb : Z).
Notation kt := (key_of ct rb false).
Notation kr := (key_of cr rb false).

Record net : Type := mk_net { n_tx : layer; n_ch : list (list Z); n_rx : layer; n_submitted : list (list Z) }.

(** Both layers, each with any bearers but this one, get the request that sets
    it up: bidirectional UM with one field length and timer. *)
Inductive net_init : net -> Prop :=
| Net_init v t c c' l0 l0' l l' :
    v = 0 \/ v = 1 -> 0 <= t < 31 -> same_ue c ct -> same_ue c' cr ->
    layer_ok l0 -> layer_ok l0' -> entities l0 !! kt = None -> entities l0' !! kr = None ->
    let drbs := Some [mk_drb rb (Some (RLC_Config_PR_um_Bi_Directional v (v, t)))] in
    rrc_rlc_config_asn1_req c None drbs None None l0 = Ok (RLC_OP_STATUS_OK, l) ->
    rrc_rlc_config_asn1_req c' None drbs None None l0' = Ok (RLC_OP_STATUS_OK, l') ->
    net_init (mk_net l [] l' []).

(** A call on other bearers, or for another UE. *)
Definition elsewhere (c0 c : layer_ctxt) (a : call) : Prop :=
  ctxt_range c /\ Forall (fun b => 0 <= fst b < 2 ^ 8) (addressed a) /\ ~ (same_ue c c0 /\ (rb, false) ∈ addressed a).

Inductive net_step : net -> net -> Prop :=
| N_submit n c mui sdu more rest e e' st l :
    same_ue c ct -> mem_block_ok (entity_ctxt c) = true ->
    entities (n_tx n) !! kt = Some (U_um e) -> entities (n_rx n) !! kr = Some (U_um e') -> sdu_accepted (mk_link e [] e' []) sdu ->
    rlc_data_req c false false rb mui (Z.of_nat (length sdu)) (sdu ++ more) rest (n_tx n) = Ok (st, l) ->
    net_step n (mk_net l (n_ch n) (n_rx n) (n_submitted n ++ [sdu]))
| N_status n c tbs resp l :
    same_ue c ct -> 0 <= tbs < 2 ^ 15 ->
    mac_rlc_status_ind c false (rb + 2) tbs (n_tx n) = Ok (resp, l) ->
    net_step n (mk_net l (n_ch n) (n_rx n) (n_submitted n))
| N_request n c g e bytes l :
    same_ue c ct -> mem_block_ok (entity_ctxt c) = true ->
    entities (n_tx n) !! kt = Some (U_um e) -> grant_ok e = true ->
    mac_rlc_data_req c false (rb + 2) g (n_tx n) = Ok (bytes, l) ->
    net_step n (mk_net l (n_ch n ++ if bytes is [] then [] else [bytes]) (n_rx n) (n_submitted n))
| N_indicate n c buf ch l :
    same_ue c cr -> mem_block_ok (entity_ctxt c) = true -> n_ch n = buf :: ch ->
    mac_rlc_data_ind c false (rb + 2) buf (Z.of_nat (length buf)) 1 (n_rx n) = Ok l ->
    net_step n (mk_net (n_tx n) ch l (n_submitted n))
| N_other_tx n c a l : elsewhere ct c a -> run_call c a (n_tx n) = Ok l -> net_step n (mk_net l (n_ch n) (n_rx n) (n_submitted n))
| N_other_rx n c a l : elsewhere cr c a -> run_call c a (n_rx n) = Ok l -> net_step n (mk_net (n_tx n) (n_ch n) l (n_submitted n)).

Inductive net_reach : net -> Prop :=
| Net_reach_init n : net_init n -> net_reach n
| Net_reach_step n n' : net_reach n -> net_step n n' -> net_reach n'.

(** ** The simulation *)

Definition block (buf : list Z) : mac_tb := mk_tb buf (Z.of_nat (length buf)).

Definition bearer_inv (n : net) : Prop :=
  exists e e', layer_ok (n_tx n) /\ layer_ok (n_rx n) /\
    entities (n_tx n) !! kt = Some (U_um e) /\ entities (n_rx n) !! kr = Some (U_um e') /\
    link_reach (mk_link e (block <$> n_ch n) e' (n_submitted n)) /\
    bearer_id e' = (true, 0, rb) /\ Forall (fun buf => Z.of_nat (length buf) < 2 ^ 15) (n_ch n).

Hypothesis Ct : ctxt_range ct.
Hypothesis Cr : ctxt_range cr.
Hypothesis Rb : 1 <= rb < 12.

Lemma config_drb c l0 v t : layer_ok l0 -> entities l0 !! key_of c rb false = None -> v = 0 \/ v = 1 -> 0 <= t < 31 ->
  exists l ms e, rrc_rlc_config_asn1_req c None (Some [mk_drb rb (Some (RLC_Config_PR_um_Bi_Directional v (v, t)))]) None None l0
      = Ok (RLC_OP_STATUS_OK, l) /\
    layer_ok l /\ entities l !! key_of c rb false = Some (U_um e) /\
    t_Reordering_tab !! Z.to_nat t = Some ms /\
    config_req_rlc_um false (mk_um_info ms (if v =? 1 then 10 else 5) 0) rb (Some um_blank) = Some e /\ bearer_id e = (true, 0, rb).
Proof using All.
  intros K E0 Hv Ht.
  destruct (asn1_same_length (enb c) false rb v t um_blank Hv Ht eq_refl) as (ms & e & Hms & Ee & Ei & Eb).
  destruct (add_fresh c false rb (u32 (rb + 2)) RLC_MODE_UM l0 K E0) as (l1 & E1 & K1 & M1).
  { unfold NB_RB_MAX. lia. }
  { rewrite u32_small; unfold RLC_MAX_LC, NUMBER_OF_UE_MAX; lia. }
  unfold rrc_rlc_config_asn1_req. cbn [each_of each]. repeat step_ok.
  unfold add_drb. cbn [drb_rlc_Config drb_Identity add_rb]. rewrite u16_small by lia. unfold add_um. rewrite E1. step_ok.
  unfold config_um_asn1_at. cbv zeta. step_ok. rewrite (get_entity l1 _ K1), M1, lookup_insert_eq. step_ok. cbn [new_union as_um]. step_ok.
  change (Z.b2z false) with 0. rewrite Ee. step_ok.
  destruct (store_replaced l1 (key_of c rb false) e (U_um um_blank) K1) as (l & El & R); [rewrite M1; apply lookup_insert_eq|].
  rewrite El. repeat step_ok. exists l, ms, e. split_and!; try done; [apply R|by eapply replaced_at].
Qed.

Lemma init_bearer n : net_init n -> bearer_inv n.
Proof using All.
  intros [v t c c' l0 l0' l l' Hv Ht Sc Sc' K K' E E' drbs El El'].
  destruct (config_drb c l0 v t K) as (l1 & ms & e & E1 & K1 & M1 & Hms & C1 & B1); [by rewrite (key_same_ue c ct)|done|done|].
  destruct (config_drb c' l0' v t K') as (l2 & ms' & e' & E2 & K2 & M2 & Hms' & C2 & B2); [by rewrite (key_same_ue c' cr)|done|done|].
  unfold drbs in El, El'. rewrite E1 in El. rewrite E2 in El'. injection El as ->. injection El' as ->.
  assert (ms' = ms) as -> by congruence. rewrite (key_same_ue c ct) in M1 by done. rewrite (key_same_ue c' cr) in M2 by done.
  exists e, e'. split_and!; try done.
  apply Reach_init. eapply (Link_init false (mk_um_info ms (if v =? 1 then 10 else 5) 0) rb um_blank um_blank); try done.
  destruct Hv as [-> | ->]; cbn; auto.
Qed.

Lemma elsewhere_key c0 c a l l' : ctxt_range c0 -> layer_ok l -> elsewhere c0 c a -> run_call c a l = Ok l' ->
  layer_ok l' /\ entities l' !! key_of c0 rb false = entities l !! key_of c0 rb false.
Proof using All.
  intros C0 K (C & F & N) E. destruct (call_only c a l l' K E) as [K' H]. split; [done|]. apply H.
  intros [(rb' & srb & Hb & Ek)|Hb]; [|by rewrite bearer_key_bit in Hb by (done || lia)].
  rewrite Forall_forall in F. pose proof (F _ Hb) as R. cbn [fst] in R.
  destruct (layer_key_inj c0 c rb rb' false srb C0 C ltac:(lia) R Ek) as (S & <- & <-). apply N. split; [|done].
  destruct S as (? & ? & ?). by split_and!.
Qed.

Lemma step_bearer n n' : bearer_inv n -> net_step n n' -> bearer_inv n'.
Proof using All.
  intros (e & e' & K & K' & M & M' & L & B & F) St.
  destruct St as [n c mui sdu more rest e1 e1' st l Sc Hm E1 E1' A E|n c tbs resp l Sc Ht E|n c g e1 bytes l Sc Hm E1 Hg E
    |n c buf ch l Sc Hm Ec E|n c a l El E|n c a l El E]; cbn [n_tx n_ch n_rx n_submitted] in *.
  - assert (e1 = e) as -> by congruence. assert (e1' = e') as -> by congruence.
    assert (sdu <> []) by (destruct A as [A _]; destruct sdu; simpl in A; [lia|done]).
    destruct (bearer_data_req c rb mui sdu more rest (n_tx n) e K Hm) as (l1 & E2 & R); [unfold NB_RB_MAX; lia|done|by rewrite (key_same_ue c ct)|].
    rewrite (key_same_ue c ct) in R by done. rewrite E2 in E. injection E as _ <-.
    exists (rlc_um_data_req (entity_ctxt c) e sdu), e'. split_and!; try done; [apply R|by eapply replaced_at|].
    eapply Reach_step; [exact L|]. exact (L_submit (mk_link e (block <$> n_ch n) e' (n_submitted n)) (entity_ctxt c) sdu A).
  - destruct (proj1 (link_progress _ L) (entity_ctxt c) tbs Ht) as (r & tx' & Es). cbn [l_tx] in Es.
    destruct (bearer_status c rb tbs (n_tx n) e r tx' K) as (r' & l1 & E2 & R); [lia|by rewrite (key_same_ue c ct)|done|].
    rewrite (key_same_ue c ct) in R by done. rewrite E2 in E. injection E as _ <-.
    exists tx', e'. split_and!; try done; [apply R|by eapply replaced_at|].
    eapply Reach_step; [exact L|]. exact (L_status (mk_link e (block <$> n_ch n) e' (n_submitted n)) (entity_ctxt c) tbs r tx' Ht Es).
  - assert (e1 = e) as -> by congruence.
    destruct (request_block (entity_ctxt c) g _ L Hm Hg) as (req & tx' & Es & D). cbn [l_tx] in Es.
    destruct (data_req_mac_um c rb g (n_tx n) e req tx' K Rb) as (l1 & E2 & R); [by rewrite (key_same_ue c ct)|done|done|].
    rewrite (key_same_ue c ct) in R by done. rewrite E2 in E. injection E as <- <-.
    pose proof (L_request (mk_link e (block <$> n_ch n) e' (n_submitted n)) (entity_ctxt c) g req tx' Hm Hg Es) as St.
    cbn [l_ch l_rx l_submitted] in St.
    exists tx', e'. cbn [n_tx n_ch n_rx n_submitted]. split_and!; try done; [apply R|by eapply replaced_at| |].
    + destruct D as [D|(pdu & D & Hp)]; rewrite D in St |- *; cbn [block_bytes concat fmap list_fmap data_ptr].
      * rewrite app_nil_r in *. by eapply Reach_step.
      * rewrite app_nil_r. destruct pdu; [simpl in Hp; lia|]. rewrite fmap_app. by eapply Reach_step.
    + apply Forall_app. split; [done|]. destruct D as [-> |(pdu & -> & Hp)]; [constructor|].
      unfold block_bytes. cbn [concat fmap list_fmap data_ptr]. rewrite app_nil_r. destruct pdu; constructor; [lia|constructor].
  - rewrite Ec in *. apply Forall_cons in F as [Fb F]. cbn [fmap list_fmap] in L.
    destruct (proj2 (proj2 (link_progress _ L)) (entity_ctxt c) (block buf) (block <$> ch) Hm eq_refl) as (rx & Es). cbn [l_rx] in Es.
    destruct (data_ind_um c rb buf (n_rx n) e' rx K') as (l1 & E2 & R); [lia|by rewrite (key_same_ue c cr)|done|done|exact Es|].
    rewrite (key_same_ue c cr) in R by done. rewrite E2 in E. injection E as <-.
    exists e, rx. split_and!; try done; [apply R|by eapply replaced_at| |].
    + eapply Reach_step; [exact L|]. exact (L_indicate (mk_link e (block buf :: (block <$> ch)) e' (n_submitted n)) (entity_ctxt c) (block buf) (block <$> ch) rx Hm eq_refl Es).
    + rewrite <- B. by apply (indicate_bearer _ _ _ _ _ L Hm eq_refl Es).
  - destruct (elsewhere_key ct c a (n_tx n) l Ct K El E) as [K1 M1]. exists e, e'. cbn [n_tx n_ch n_rx n_submitted]. rewrite M1. done.
  - destruct (elsewhere_key cr c a (n_rx n) l Cr K' El E) as [K1 M1]. exists e, e'. cbn [n_tx n_ch n_rx n_submitted]. rewrite M1. done.
Qed.

Lemma reach_bearer n : net_reach n -> bearer_inv n.
Proof using All. induction 1; [by apply init_bearer|by eapply step_bearer]. Qed.

End Bearer.

End RlcBearer.
