(* ===== verification/RlcLayerClaims.v ===== *)
(** * The RLC layer: theorems

    Isolation of the bearers, delivery over a UM bearer from one layer to the
    other, removal of a UE, and behaviours off the intended path. *)

From S2P Require Import Prelude HashTable Collection RlcUmEntity RlcUmReasm RlcUmTx RlcUmTop RlcUmSystem.
From S2P Require Import RlcAmEntity RlcAmRetransmit RlcTm RlcLayer RlcLayerProofs RlcLayerType RlcBearer.
Import Collection RlcTm RlcLayer RlcLayerProofs RlcLayerType RlcBearer RlcUmReasm.

Module RlcLayerClaims.

Section Claims.
Context {T : Type} `{O : CollectionOps T rlc_union_t} `{!CollectionLaws T rlc_union_t}.
Notation layer := (rlc_layer T).

(** ** Isolation *)

(** C11. Isolation of the bearers: a call of the layer that returns, whatever
    its arguments and whatever the layer holds, leaves the entity of every
    bearer it does not name as it was: those of other UEs, of the other side,
    the other bearers of the UE. The calls of MBMS channels, which name no
    bearer, change none. *)
Theorem rlc_layer_isolated (c c' : layer_ctxt) (a : call) (l l' : layer) rb srb :
  layer_ok l -> ctxt_range c -> ctxt_range c' -> 0 <= rb < 2 ^ 8 -> Forall (fun b => 0 <= fst b < 2 ^ 8) (addressed a) ->
  run_call c a l = Ok l' -> ~ (same_ue c' c /\ (rb, srb) ∈ addressed a) ->
  layer_ok l' /\ entities l' !! key_of c' rb srb = entities l !! key_of c' rb srb.
Proof.
  intros K C C' R F E N. destruct (call_only c a l l' K E) as [K' H]. split; [done|]. apply H.
  intros [(rb' & srb' & Hb & Ek)|Hb]; [|by rewrite bearer_key_bit in Hb].
  rewrite Forall_forall in F. pose proof (F _ Hb) as R'. cbn [fst] in R'.
  destruct (layer_key_inj c' c rb rb' srb srb' C' C R R' Ek) as (S & <- & <-). by apply N.
Qed.

(** ** The member of the union *)

(** A run of calls, each for a UE. *)
Fixpoint run_calls (calls : list (layer_ctxt * call)) (l : layer) : res layer :=
  match calls with
  | [] => Ok l
  | (c, a) :: rest => l ← run_call c a l; run_calls rest l
  end.

Lemma run_keeps calls (l l' : layer) : layer_ok l -> Forall (fun x => releases (snd x) = false) calls ->
  run_calls calls l = Ok l' -> keeps l l'.
Proof.
  revert l. induction calls as [|[c a] calls IH]; intros l K F E; cbn [run_calls] in E; [injection E as <-; by apply keeps_refl|].
  apply Forall_cons in F as [Fa F]. apply bind_Ok in E as (l1 & E1 & E2).
  pose proof (call_keeps c a l l1 K Fa E1) as H1. exact (keeps_trans l l1 l' H1 (IH l1 (proj1 H1) F E2)).
Qed.

Lemma run_typed calls (l l' : layer) : layer_ok l -> Forall call_range calls -> run_calls calls l = Ok l' -> typed l l'.
Proof.
  revert l. induction calls as [|[c a] calls IH]; intros l K F E; cbn [run_calls] in E; [injection E as <-; by apply typed_refl|].
  apply Forall_cons in F as [Fa F]. apply bind_Ok in E as (l1 & E1 & E2).
  pose proof (call_typed c a l l1 K Fa E1) as H1. exact (typed_trans l l1 l' H1 (IH l1 (proj1 H1) F E2)).
Qed.

(** C12. The members of the union. Take any run of calls that returns, for UEs
    of any module (8 bits) and RNTI (16 bits), naming bearers 0 to 255, with
    any other arguments, from a layer whose MBMS channels are UM (the empty
    one, for instance). Then in the
    layer it ends in: every object of an MBMS channel is UM, so that the casts
    of the MBMS branches, which do not look at the mode, are right; if no call
    released a bearer, every object is still there with its mode; and for
    every bearer, a request to add it with another mode (direct, or by the
    ASN.1 lists of SRBs or DRBs that name it first) fails the assertion of
    rrc_rlc_add_rlc, while CONFIG_ACTION_MODIFY with another mode, which makes
    no check, uses a member of the union the object was not made for (an
    access out of bounds in the model). *)
Theorem rlc_union_typed calls (l l' : layer) : layer_ok l -> mbms_um l -> Forall call_range calls ->
  run_calls calls l = Ok l' ->
  layer_ok l' /\
  (forall c id u, entities l' !! mbms_key c id = Some u -> exists e, u = U_um e) /\
  (Forall (fun x => releases (snd x) = false) calls ->
     forall k u, entities l !! k = Some u -> exists u', entities l' !! k = Some u' /\ mode u' = mode u) /\
  (forall c rb srb u m, entities l' !! key_of c rb srb = Some u -> m <> mode u ->
     (forall ch, rrc_rlc_add_rlc c srb false rb ch m l' = Fault AssertFatal) /\
     (forall x xs drbs rel pmch cfg, srb = true -> u16 (srb_Identity x) = rb ->
        srb_rlc_Config x = Some (SRB_rlc_Config_explicitValue cfg) -> cfg_mode cfg = Some m ->
        rrc_rlc_config_asn1_req c (Some (x :: xs)) drbs rel pmch l' = Fault AssertFatal) /\
     (forall d ds rel pmch cfg, srb = false -> u16 (drb_Identity d) = rb ->
        drb_rlc_Config d = Some cfg -> cfg_mode cfg = Some m ->
        rrc_rlc_config_asn1_req c None (Some (d :: ds)) rel pmch l' = Fault AssertFatal) /\
     (forall mbms i, rb < NB_RB_MAX -> info_mode i = m -> m <> RLC_MODE_NONE ->
        rrc_rlc_config_req c srb mbms CONFIG_ACTION_MODIFY rb i l' = Fault OutOfBounds)).
Proof.
  intros K M R E. pose proof (run_typed calls l l' K R E) as H. pose proof (typed_mbms l l' M H) as M'.
  destruct H as [K' _]. split; [done|]. split; [|split].
  - intros c id u Eu. pose proof (M' _ u Eu (mbms_key_bit c id)) as Hm. destruct u as [|e|e|e]; try discriminate Hm. eauto.
  - intros F. apply (run_keeps calls l l' K F E).
  - intros c rb srb u m Eu Hm. split_and!.
    + intros ch. by eapply add_other_mode.
    + intros x xs drbs rel pmch cfg -> <- Hc Hcm. by eapply srb_other_mode.
    + intros d ds rel pmch cfg -> <- Hc Hcm. by eapply drb_other_mode.
    + intros mbms i Hr <- Hn. by eapply modify_other_mode.
Qed.

(** ** A UM bearer *)

(** C5. A UM bearer between two RLC layers, over a channel that loses and
    reorders nothing. An eNB and a UE, each with whatever other bearers it
    has, receive the RRC request that sets up a new UM data bearer (1 to 11),
    bidirectional, with the same SN length both ways; then PDCP submits SDUs,
    the MACs ask, fetch and deliver, and calls that do not name the bearer
    (but bearers 0 to 255 of any UE) happen in between. The SDUs are those [sdu_accepted] takes (1 to 2047
    bytes, no longer than the receiver's maximum, at most 2^29 bytes queued);
    a PDU is fetched only for a grant as in [grant_ok] (fewer than 24 length
    indicators, and a PDU the counting pass fills exactly; otherwise see
    [um10_trailing_bytes_delivered]); memory is available to submissions,
    fetches and receptions. At any time both layers hold the bearer's entity,
    what the UE has indicated to PDCP is, in order and byte for byte, a prefix
    of what was submitted, with the identity of the bearer, and all of it once
    nothing is queued or on the way; and no request for a status (below 2^15
    bytes), fetch for such a grant, or reception of the next block faults. *)
Theorem rlc_bearer_in_order ct cr rb (n : net (T := T)) :
  ctxt_range ct -> ctxt_range cr -> 1 <= rb < 12 -> net_reach ct cr rb n ->
  exists e e', entities (n_tx n) !! key_of ct rb false = Some (U_um e) /\ entities (n_rx n) !! key_of cr rb false = Some (U_um e') /\
    indications (U_um e') `prefix_of` (PdcpDataInd false false rb <$> n_submitted n) /\
    (n_ch n = [] -> RlcUm.input_sdus e = [] -> indications (U_um e') = (PdcpDataInd false false rb <$> n_submitted n)) /\
    (forall c tbs, same_ue c ct -> 0 <= tbs < 2 ^ 15 -> exists r l, mac_rlc_status_ind c false (rb + 2) tbs (n_tx n) = Ok (r, l)) /\
    (forall c g, same_ue c ct -> RlcUm.mem_block_ok (entity_ctxt c) = true -> RlcUmSystem.grant_ok e = true ->
       exists bytes l, mac_rlc_data_req c false (rb + 2) g (n_tx n) = Ok (bytes, l)) /\
    (forall c buf ch, same_ue c cr -> RlcUm.mem_block_ok (entity_ctxt c) = true -> n_ch n = buf :: ch ->
       exists l, mac_rlc_data_ind c false (rb + 2) buf (Z.of_nat (length buf)) 1 (n_rx n) = Ok l).
Proof.
  intros Ct Cr Rb H. destruct (reach_bearer ct cr rb Ct Cr Rb n H) as (e & e' & K & K' & M & M' & L & B & F).
  exists e, e'. rewrite (bearer_indications e' rb B). destruct (RlcUmSystem.link_prefix _ L) as [P A].
  destruct (RlcUmSystem.link_progress _ L) as (G1 & G2 & G3). cbn [RlcUmSystem.l_tx RlcUmSystem.l_rx RlcUmSystem.l_ch RlcUmSystem.l_submitted] in *.
  split_and!; try done.
  - destruct P as [xs ->]. exists (fmap (M:=list) (PdcpDataInd false false rb) xs). by rewrite fmap_app.
  - intros Ec Eq. by rewrite (A ltac:(by rewrite Ec) Eq).
  - intros c tbs Sc Ht. destruct (G1 (entity_ctxt c) tbs Ht) as (r & tx' & Es).
    destruct (bearer_status c rb tbs (n_tx n) e r tx' K) as (r' & l & E & _); [lia|by rewrite (key_same_ue c ct)|done|eauto].
  - intros c g Sc Hm Hg. destruct (request_block (entity_ctxt c) g _ L Hm Hg) as (req & tx' & Es & D).
    destruct (data_req_mac_um c rb g (n_tx n) e req tx' K Rb) as (l & E & _); [by rewrite (key_same_ue c ct)|done|done|eauto].
  - intros c buf ch Sc Hm Ec. rewrite Ec in F, G3. apply Forall_cons in F as [Fb F].
    destruct (G3 (entity_ctxt c) (block buf) (fmap (M:=list) block ch) Hm eq_refl) as (rx & Es).
    destruct (data_ind_um c rb buf (n_rx n) e' rx K') as (l & E & _); [lia|by rewrite (key_same_ue c cr)|done|done|exact Es|eauto].
Qed.

(** ** Removal of a UE *)

(** Of an MBMS channel on the eNB side the identity is cleared before the key
    is made of it: what is removed is the channel of service 0 and session 0. *)
Lemma mbms_removal_misses c srb rb (l l' : layer) st k : layer_ok l -> enb c = true ->
  rrc_rlc_remove_rlc c srb true rb l = Ok (st, l') -> k <> mbms_key c (0, 0) -> entities l' !! k = entities l !! k.
Proof.
  intros K En E Hk. unfold rrc_rlc_remove_rlc in E. rewrite En in E. apply bind_Ok in E as ([key l1] & E1 & E).
  assert (key = mbms_key c (0, 0) /\ rlc_coll l1 = rlc_coll l) as [-> C].
  { apply bind_Ok in E1 as (lcid & _ & E1). apply bind_Ok in E1 as (ids & Ei & E1). apply bind_Ok in E1 as (rbs & _ & E1).
    apply bind_Ok in E1 as (id & Ed & E1). injection E1 as <- <-. split; [|done]. do 2 f_equal.
    unfold set_element in Ei. unfold mbms_id_eNB, element in Ed. rproj_in Ed.
    destruct (_ && _) in Ei; [|discriminate Ei]. injection Ei as <-. rewrite lookup_insert_eq in Ed.
    destruct (_ && _) in Ed; [|discriminate Ed]. by injection Ed as <-. }
  assert (K1 : layer_ok l1) by (unfold layer_ok; by rewrite C).
  assert (F : only (fun k => k = mbms_key c (0, 0)) l1 l') by (apply bind_Ok in E as (u & _ & E); run_inv; eauto with rlc_layer).
  rewrite (proj2 F k Hk). unfold entities. by rewrite C.
Qed.

#[local] Instance same_ue_dec c c' : Decision (same_ue c c').
Proof. unfold same_ue. apply _. Defined.

Lemma remove_rlc_one c srb rb (l : layer) : layer_ok l -> rb < NB_RB_MAX ->
  exists l', rrc_rlc_remove_rlc c srb false rb l = Ok (RLC_OP_STATUS_OK, l') /\ layer_ok l' /\
    entities l' = delete (key_of c rb srb) (entities l).
Proof.
  intros K H. unfold rrc_rlc_remove_rlc. step_ok. rewrite (proj2 (Z.ltb_lt _ _) H). cbn [assert_fatal]. step_ok.
  rewrite (get_entity l _ K). step_ok. destruct (entities l !! key_of c rb srb) as [u|] eqn:E.
  - destruct (coll_remove_ok (rlc_coll l) (key_of c rb srb) K) as (t & Et & Kt & Mt). rewrite Et. step_ok. by eexists.
  - exists l. split_and!; try done. by rewrite delete_id.
Qed.

Lemma remove_rbs_exact c srb rbs (l : layer) : layer_ok l -> Forall (fun rb => rb < NB_RB_MAX) rbs ->
  exists l', remove_rbs c srb rbs l = Ok l' /\ layer_ok l' /\
    forall k, entities l' !! k = if decide (k ∈ (fun rb => key_of c rb srb) <$> rbs) then None else entities l !! k.
Proof.
  revert l. induction rbs as [|rb rbs IH]; intros l K F; cbn [remove_rbs].
  { by exists l. }
  apply Forall_cons in F as [F1 F].
  destruct (remove_rlc_one c srb rb l K F1) as (l1 & -> & K1 & M1). step_ok.
  destruct (IH l1 K1 F) as (l' & -> & K' & M'). exists l'. split_and!; try done. intros k. rewrite M', M1. rewrite fmap_cons.
  destruct (decide (k = key_of c rb srb)) as [->|Hn].
  - rewrite lookup_delete_eq. rewrite (decide_True (P := _ ∈ _ :: _)) by left. by case_decide.
  - rewrite lookup_delete_ne by done. apply decide_ext. rewrite elem_of_cons. naive_solver.
Qed.

(** C26. [rrc_rlc_remove_ue] releases the entities of SRB 1 and 2 and of DRB 1
    to 11 of the UE, and no other bearer of any UE. *)
Theorem rlc_remove_ue_exact (c : layer_ctxt) (l : layer) : layer_ok l -> ctxt_range c ->
  exists l', rrc_rlc_remove_ue c l = Ok (RLC_OP_STATUS_OK, l') /\ layer_ok l' /\
    forall c' rb srb, ctxt_range c' -> 0 <= rb < 2 ^ 8 ->
      entities l' !! key_of c' rb srb =
      if decide (same_ue c' c /\ (rb, srb) ∈ UE_bearers) then None else entities l !! key_of c' rb srb.
Proof.
  intros K C. unfold rrc_rlc_remove_ue.
  destruct (remove_rbs_exact c true [1; 2] l K) as (l1 & -> & K1 & M1); [by repeat constructor|]. step_ok.
  destruct (remove_rbs_exact c false [1; 2; 3; 4; 5; 6; 7; 8; 9; 10; 11] l1 K1) as (l2 & -> & K2 & M2); [by repeat constructor|]. step_ok.
  exists l2. split_and!; try done. intros c' rb srb C' R. rewrite M2, M1.
  assert (Q : forall s rbs, Forall (fun r => 0 <= r < 2 ^ 8) rbs ->
    key_of c' rb srb ∈ ((fun r => key_of c r s) <$> rbs) <-> same_ue c' c /\ srb = s /\ rb ∈ rbs).
  { intros s rbs F. rewrite list_elem_of_fmap, Forall_forall in *. split.
    - intros (r & E & Hr). destruct (layer_key_inj c' c rb r srb s C' C R (F r Hr) E) as (S & -> & ->). done.
    - intros (S & -> & Hr). exists rb. split; [by apply key_same_ue|done]. }
  pose proof (Q true [1; 2] ltac:(repeat constructor; lia)) as Q1.
  pose proof (Q false [1; 2; 3; 4; 5; 6; 7; 8; 9; 10; 11] ltac:(repeat constructor; lia)) as Q2.
  assert (Q3 : (rb, srb) ∈ UE_bearers <-> srb = true /\ rb ∈ [1; 2] \/ srb = false /\ rb ∈ [1; 2; 3; 4; 5; 6; 7; 8; 9; 10; 11]).
  { unfold UE_bearers. rewrite elem_of_app, !list_elem_of_fmap. naive_solver. }
  repeat case_decide; tauto.
Qed.

End Claims.

(** ** Off the intended path *)

(** The entity [config_req_rlc_tm] makes of a new object. *)
Definition tm_configured (srb : bool) (ud rb : Z) : rlc_tm_entity_t :=
  mk_tm 0 1 ud (rb =? 0) (Z.b2z srb) (Some (replicate 16 None)) 16 0 0 0 [] 0 0 0 None [].

(** The bearer of a TM entity is mistaken: the identity is the SRB flag, and
    an SDU is indicated for a signalling bearer whatever the bearer is. *)
Lemma tm_bearer_swapped c srb ud rb : RlcUm.mem_block_ok c = true ->
  config_req_rlc_tm c srb ud rb (Some tm_blank) = Ok (Some (tm_configured srb ud rb)).
Proof. intros M. unfold config_req_rlc_tm, rlc_tm_init. rewrite M. reflexivity. Qed.

(** A queue of one SDU, of which [n] bits are asked for. *)
Definition tm_one (ud : Z) (plane : bool) (id : Z) (mem : list Z) (n : Z) : rlc_tm_entity_t :=
  mk_tm 0 1 ud plane id (Some (Some (mk_tm_sdu mem n) :: replicate 15 None)) 16 1 1 0 [] n (n / 8) 0 None [].
Definition tm_none (ud : Z) (plane : bool) (id : Z) (n : Z) (tbs : list RlcAmEntity.mac_tb) : rlc_tm_entity_t :=
  mk_tm 0 1 ud plane id (Some (replicate 16 None)) 16 0 1 1 tbs n 0 0 None [].

Lemma no_segment_stop f c e q : tm_input_sdus e = Some q -> q !! Z.to_nat (tm_current_sdu_index e) = Some None -> no_segment_loop f c e = Ok e.
Proof. intros E1 E2. destruct f; cbn [no_segment_loop]; rewrite E1, E2; reflexivity. Qed.

Lemma no_segment_take f c e q s : tm_input_sdus e = Some q -> q !! Z.to_nat (tm_current_sdu_index e) = Some (Some s) ->
  RlcUm.mem_block_ok c = true -> 0 <= Z.shiftr (tm_rlc_pdu_size e + 7) 3 <= Z.of_nat (length (tm_memory s)) ->
  no_segment_loop (S f) c e = no_segment_loop f c
    (e <| tm_pdus_to_mac_layer ::= fun l => l ++ [RlcAmEntity.mk_tb (Z.shiftr (tm_rlc_pdu_size e) 3)
             (take (Z.to_nat (Z.shiftr (tm_rlc_pdu_size e + 7) 3)) (tm_memory s))] |>
       <| tm_buffer_occupancy ::= fun b => s32 (b - Z.shiftr (tm_sdu_size s) 3) |>
       <| tm_input_sdus := Some (<[Z.to_nat (tm_current_sdu_index e) := None]> q) |>
       <| tm_current_sdu_index ::= fun i => Z.rem (i + 1) (tm_size_input_sdus_buffer e) |>
       <| tm_nb_sdu ::= fun k => u16 (k - 1) |>).
Proof.
  intros E1 E2 M H. cbn [no_segment_loop]. rewrite E1, E2. cbn [of_option]. step_ok. rewrite M. cbn [negb].
  by rewrite (proj2 (orb_false_iff _ _)) by (rewrite !Z.ltb_ge; lia).
Qed.

Lemma tm_one_round c ud plane id mem n : RlcUm.mem_block_ok c = true -> 0 <= n -> (n + 7) / 8 <= Z.of_nat (length mem) ->
  no_segment_loop 17 c (tm_one ud plane id mem n) =
    Ok (tm_none ud plane id n [RlcAmEntity.mk_tb (n / 8) (take (Z.to_nat ((n + 7) / 8)) mem)]).
Proof.
  intros M H0 Hn. assert (0 <= (n + 7) / 8) by (apply Z.div_pos; lia).
  rewrite (no_segment_take 16 c _ (Some (mk_tm_sdu mem n) :: replicate 15 None) (mk_tm_sdu mem n)); try done.
  2:{ cbn [tm_one tm_rlc_pdu_size tm_memory]. rewrite Z.shiftr_div_pow2 by lia. change (2 ^ 3) with 8. lia. }
  cbn [tm_one tm_rlc_pdu_size tm_memory tm_sdu_size]. rewrite !Z.shiftr_div_pow2 by lia. change (2 ^ 3) with 8.
  match goal with |- no_segment_loop 16 c ?e = _ =>
    assert (e = tm_none ud plane id n [RlcAmEntity.mk_tb (n / 8) (take (Z.to_nat ((n + 7) / 8)) mem)]) as -> end.
  - transitivity (mk_tm 0 1 ud plane id (Some (replicate 16 None)) 16 0 1 1 [RlcAmEntity.mk_tb (n / 8) (take (Z.to_nat ((n + 7) / 8)) mem)] n
      (s32 (n / 8 - n / 8)) 0 None []); [reflexivity|]. by rewrite Z.sub_diag.
  - by apply (no_segment_stop _ _ _ (replicate 16 None)).
Qed.

(** C40. The sizes of TM are in bits, those of its callers in bytes. Of an SDU
    of [n] bytes given to a configured TM entity, when MAC grants [n] bytes,
    the first [n / 8] bytes are sent; the rest of it is lost, as the queue is
    empty after that. *)
Theorem tm_sends_an_eighth c srb ud rb sdu rest garbage :
  RlcUm.mem_block_ok c = true -> 8 <= Z.of_nat (length sdu) < 2 ^ 16 ->
  let n := Z.of_nat (length sdu) in
  exists e u1 u2 e3 r, config_req_rlc_tm c srb ud rb (Some tm_blank) = Ok (Some e) /\
    entity_data_req c 0 sdu rest n (U_tm e) = Ok (RLC_OP_STATUS_OK, u1) /\
    entity_mac_status_ind c n u1 = Ok (r, u2) /\
    entity_mac_data_req c garbage u2 = Ok (take (Z.to_nat (n / 8)) sdu, U_tm e3) /\
    tm_input_sdus e3 = Some (replicate 16 None) /\ tm_pdus_to_mac_layer e3 = [].
Proof.
  intros M Hn n. exists (tm_configured srb ud rb).
  assert (Hd : 0 <= n / 8 <= n) by (unfold n in *; split; [apply Z.div_pos; lia|apply Z.div_le_upper_bound; lia]).
  assert (H7 : n / 8 <= (n + 7) / 8 <= n) by (unfold n in *; Z.to_euclidean_division_equations; lia).
  unfold entity_data_req. rewrite M. unfold copy_sdu.
  rewrite (proj2 (orb_false_iff _ _)) by (rewrite !Z.ltb_ge; unfold n in *; lia).
  unfold n at 2. rewrite Nat2Z.id, firstn_all. step_ok.
  set (e1 := mk_tm 0 1 ud (rb =? 0) (Z.b2z srb) (Some (Some (mk_tm_sdu (sdu ++ rest) n) :: replicate 15 None)) 16 1 1 0 [] 0 (n / 8) 0 None []).
  assert (rlc_tm_data_req (tm_configured srb ud rb) (sdu ++ rest) n = Ok e1) as ->.
  { transitivity (Ok (mk_tm 0 1 ud (rb =? 0) (Z.b2z srb) (Some (Some (mk_tm_sdu (sdu ++ rest) (u16 n)) :: replicate 15 None)) 16
      (u16 (0 + 1)) 1 0 [] 0 (s32 (0 + Z.shiftr (u16 n) 3)) 0 None [])); [reflexivity|].
    rewrite u16_small, Z.shiftr_div_pow2 by (unfold n; lia). change (2 ^ 3) with 8. by rewrite s32_small by lia. }
  step_ok. set (e2 := e1 <| tm_rlc_pdu_size := n |>).
  exists (U_tm e1), (U_tm e2).
  set (e3 := mk_tm 0 1 ud (rb =? 0) (Z.b2z srb) (Some (replicate 16 None)) 16 0 1 1 [] n 0 0 None []).
  exists e3. eexists. split; [by apply tm_bearer_swapped|]. split; [done|]. split.
  { unfold entity_mac_status_ind, rlc_tm_mac_status_indication. fold e2. rewrite (proj2 (Z.eqb_neq n 0)) by (unfold n in *; lia). reflexivity. }
  split; [|done]. unfold entity_mac_data_req, rlc_tm_mac_data_request, rlc_tm_no_segment.
  change e2 with (tm_one ud (rb =? 0) (Z.b2z srb) (sdu ++ rest) n).
  rewrite tm_one_round by (rewrite ?length_app; unfold n in *; done || lia).
  step_ok. rproj. cbn [tm_none tm_pdus_to_mac_layer tm_rlc_pdu_size].
  rewrite (proj2 (Z.eqb_neq n 0)) by (unfold n in *; lia). step_ok.
  unfold of_am_tb. cbn [fmap list_fmap mac_rlc_serialize_tb RlcAmEntity.tb_size RlcAmEntity.tb_bytes].
  rewrite (proj2 (orb_false_iff _ _)) by (rewrite !Z.ltb_ge, length_take, length_app; unfold n in *; lia). repeat step_ok.
  rewrite app_nil_r, take_take, take_app_le by (unfold n in *; lia). f_equal. f_equal.
  replace (Z.to_nat (n / 8) `min` Z.to_nat ((n + 7) / 8))%nat with (Z.to_nat (n / 8)) by lia. reflexivity.
Qed.

(** AM gives the arguments of [rlc_data_conf] in another order: RRC is told
    that the bearer of the number of the SDU has confirmed the SDU of the
    number of the status, also of a data bearer. *)
Lemma am_confirmation_misrouted e : RlcAmEntity.rb_id e <> 0 ->
  confirmations true (U_am e) =
    (fun '(mui, s) => RrcDataConf mui (status_code s) (Z.b2z (RlcAmEntity.is_data_plane e))) <$> RlcAmEntity.data_confs e.
Proof.
  intros H. unfold confirmations, rlc_data_conf. rewrite (proj2 (Z.eqb_neq _ _) H). cbn [negb].
  induction (RlcAmEntity.data_confs e) as [|[mui s] l IH]; [done|]. by rewrite bind_cons, IH.
Qed.

(** [CONFIG_ACTION_ADD] reports an error when it has added the bearer. *)
Lemma config_add_reports_error {T} `{O : CollectionOps T rlc_union_t} c srb mbms rb i (l l' : rlc_layer T) st :
  rrc_rlc_config_req c srb mbms CONFIG_ACTION_ADD rb i l = Ok (st, l') -> st = RLC_OP_STATUS_INTERNAL_ERROR.
Proof. intros E. unfold rrc_rlc_config_req in E. apply bind_Ok in E as (u & _ & E). apply bind_Ok in E as (l1 & _ & E). by injection E. Qed.

(** ** A concrete run *)

(** The layers on the hash table; UE 0x1234 of eNB 0, with SRB 1 in TM and
    DRB 3 in UM. *)
Notation hlayer := (rlc_layer (objects rlc_union_t)).
Definition ue_at_enb : layer_ctxt := mk_lctxt 0 0x1234 (RlcUm.mk_ctxt 0 0 true true true).
Definition ue_at_ue : layer_ctxt := mk_lctxt 0 0x1234 (RlcUm.mk_ctxt 0 0 false true true).
Definition second {A} (r : res (A * hlayer)) : hlayer := match r with Ok (_, l) => l | Fault _ => rlc_module_init end.
Definition drb3 : option (list DRB_ToAddMod_t) := Some [mk_drb 3 (Some (RLC_Config_PR_um_Bi_Directional 1 (1, 7)))].
Definition add_srb1 : call := Call_rrc_rlc_config_req true false CONFIG_ACTION_ADD 1 (info_tm 0).
Definition layer_tx0 : hlayer := second (rrc_rlc_config_asn1_req ue_at_enb None drb3 None None rlc_module_init).
Definition layer_rx0 : hlayer := second (rrc_rlc_config_asn1_req ue_at_ue None drb3 None None rlc_module_init).
Definition ret (r : res hlayer) : hlayer := match r with Ok l => l | Fault _ => rlc_module_init end.
Definition layer_tx1 : hlayer := ret (run_call ue_at_enb add_srb1 layer_tx0).
Definition layer_tx2 : hlayer := second (rlc_data_req ue_at_enb false false 3 0 (Z.of_nat (length [1; 2; 3])) ([1; 2; 3] ++ []) [] layer_tx1).
Definition layer_tx3 : hlayer := second (mac_rlc_status_ind ue_at_enb false (3 + 2) 9 layer_tx2).
Definition layer_tx4 : hlayer := second (mac_rlc_data_req ue_at_enb false (3 + 2) [] layer_tx3).
Definition layer_rx1 : hlayer := ret (mac_rlc_data_ind ue_at_ue false (3 + 2) [0; 0; 1; 2; 3] (Z.of_nat (length [0; 0; 1; 2; 3])) 1 layer_rx0).

Definition returned {A} (r : res A) : bool := match r with Ok _ => true | Fault _ => false end.
Definition value {A} `{EqDecision A} (r : res (A * hlayer)) (a : A) : bool := match r with Ok (b, _) => bool_decide (a = b) | Fault _ => false end.
Lemma second_Ok {A} `{EqDecision A} (r : res (A * hlayer)) a : value r a = true -> r = Ok (a, second r).
Proof. destruct r as [[b l]|]; [|done]. unfold value. intros ->%bool_decide_eq_true. done. Qed.
Lemma ret_Ok (r : res hlayer) : returned r = true -> r = Ok (ret r).
Proof. by destruct r. Qed.
#[export] Instance mac_rlc_status_resp_eq_dec : EqDecision mac_rlc_status_resp_t.
Proof. solve_decision. Defined.

Definition um_of (l : hlayer) (k : Z) : RlcUm.rlc_um_entity_t := match entities l !! k with Some (U_um e) => e | _ => um_blank end.

Lemma um_of_at l k : match entities l !! k with Some (U_um _) => true | _ => false end = true -> entities l !! k = Some (U_um (um_of l k)).
Proof. unfold um_of. by destruct (entities l !! k) as [[]|]. Qed.

Lemma init_layer_ok : layer_ok (rlc_module_init : hlayer).
Proof. apply coll_empty_ok. Qed.

Lemma ue_at_enb_range : ctxt_range ue_at_enb.
Proof. split; simpl; lia. Qed.
Lemma ue_at_ue_range : ctxt_range ue_at_ue.
Proof. split; simpl; lia. Qed.

Lemma tx0_eq : rrc_rlc_config_asn1_req ue_at_enb None drb3 None None rlc_module_init = Ok (RLC_OP_STATUS_OK, layer_tx0).
Proof. unfold layer_tx0 at 1. apply second_Ok. vm_compute. reflexivity. Qed.
Lemma rx0_eq : rrc_rlc_config_asn1_req ue_at_ue None drb3 None None rlc_module_init = Ok (RLC_OP_STATUS_OK, layer_rx0).
Proof. unfold layer_rx0 at 1. apply second_Ok. vm_compute. reflexivity. Qed.
Lemma tx1_eq : run_call ue_at_enb add_srb1 layer_tx0 = Ok layer_tx1.
Proof. unfold layer_tx1. apply ret_Ok. vm_compute. reflexivity. Qed.
Lemma tx2_eq : rlc_data_req ue_at_enb false false 3 0 (Z.of_nat (length [1; 2; 3])) ([1; 2; 3] ++ []) [] layer_tx1 = Ok (RLC_OP_STATUS_OK, layer_tx2).
Proof. unfold layer_tx2 at 1. apply second_Ok. vm_compute. reflexivity. Qed.
Lemma tx3_eq : mac_rlc_status_ind ue_at_enb false (3 + 2) 9 layer_tx2 = Ok (mk_mac_resp 5 1 (Some (0xffffffff, 3, false)), layer_tx3).
Proof. unfold layer_tx3 at 1. apply second_Ok. vm_compute. reflexivity. Qed.
Lemma tx4_eq : mac_rlc_data_req ue_at_enb false (3 + 2) [] layer_tx3 = Ok ([0; 0; 1; 2; 3], layer_tx4).
Proof. unfold layer_tx4 at 1. apply second_Ok. vm_compute. reflexivity. Qed.
Lemma rx1_eq : mac_rlc_data_ind ue_at_ue false (3 + 2) [0; 0; 1; 2; 3] (Z.of_nat (length [0; 0; 1; 2; 3])) 1 layer_rx0 = Ok layer_rx1.
Proof. unfold layer_rx1. apply ret_Ok. vm_compute. reflexivity. Qed.

Lemma tx0_ok : layer_ok layer_tx0.
Proof.
  apply (call_only ue_at_enb (Call_rrc_rlc_config_asn1_req None drb3 None None) rlc_module_init layer_tx0 init_layer_ok).
  cbn [run_call]. by rewrite tx0_eq.
Qed.
Lemma tx1_ok : layer_ok layer_tx1.
Proof. exact (proj1 (call_only _ _ _ _ tx0_ok tx1_eq)). Qed.

Definition net0 : net := mk_net layer_tx0 [] layer_rx0 [].
Definition net4 : net := mk_net layer_tx4 [[0; 0; 1; 2; 3]] layer_rx0 [[1; 2; 3]].
Definition net5 : net := mk_net layer_tx4 [] layer_rx1 [[1; 2; 3]].
Notation reach3 := (net_reach ue_at_enb ue_at_ue 3).

Lemma net0_init : net_init ue_at_enb ue_at_ue 3 net0.
Proof.
  refine (Net_init ue_at_enb ue_at_ue 3 1 7 ue_at_enb ue_at_ue rlc_module_init rlc_module_init layer_tx0 layer_rx0
    (or_intror eq_refl) _ _ _ init_layer_ok init_layer_ok _ _ tx0_eq rx0_eq); [lia|done|done|vm_compute; reflexivity|vm_compute; reflexivity].
Qed.
Lemma net0_reach : reach3 net0.
Proof. apply Net_reach_init, net0_init. Qed.

Lemma net1_reach : reach3 (mk_net layer_tx1 [] layer_rx0 []).
Proof.
  refine (Net_reach_step _ _ _ net0 _ net0_reach (N_other_tx _ _ _ net0 ue_at_enb add_srb1 layer_tx1 _ tx1_eq)).
  split; [apply ue_at_enb_range|]. split; [by repeat constructor|]. intros [_ H]. apply list_elem_of_singleton in H. discriminate H.
Qed.

Lemma net2_reach : reach3 (mk_net layer_tx2 [] layer_rx0 [[1; 2; 3]]).
Proof.
  refine (Net_reach_step _ _ _ _ _ net1_reach (N_submit _ _ _ (mk_net layer_tx1 [] layer_rx0 []) ue_at_enb 0 [1; 2; 3] [] []
    (um_of layer_tx1 (key_of ue_at_enb 3 false)) (um_of layer_rx0 (key_of ue_at_ue 3 false)) 1 layer_tx2 _ eq_refl _ _ _ tx2_eq)).
  - done.
  - apply um_of_at. vm_compute. reflexivity.
  - apply um_of_at. vm_compute. reflexivity.
  - vm_compute. repeat split; discriminate.
Qed.

Lemma net3_reach : reach3 (mk_net layer_tx3 [] layer_rx0 [[1; 2; 3]]).
Proof.
  refine (Net_reach_step _ _ _ _ _ net2_reach (N_status _ _ _ (mk_net layer_tx2 [] layer_rx0 [[1; 2; 3]]) ue_at_enb 9 _ layer_tx3 _ _ tx3_eq)); [done|lia].
Qed.

Lemma net4_reach : reach3 net4.
Proof.
  refine (Net_reach_step _ _ _ _ _ net3_reach (N_request _ _ _ (mk_net layer_tx3 [] layer_rx0 [[1; 2; 3]]) ue_at_enb []
    (um_of layer_tx3 (key_of ue_at_enb 3 false)) [0; 0; 1; 2; 3] layer_tx4 _ eq_refl _ _ tx4_eq)).
  - done.
  - apply um_of_at. vm_compute. reflexivity.
  - vm_compute. reflexivity.
Qed.

Lemma net5_reach : reach3 net5.
Proof.
  refine (Net_reach_step _ _ _ _ _ net4_reach (N_indicate _ _ _ net4 ue_at_ue [0; 0; 1; 2; 3] [] layer_rx1 _ eq_refl eq_refl rx1_eq)). done.
Qed.

Lemma rlc_bearer_in_order_witness :
  indications (U_um (um_of layer_rx1 (key_of ue_at_ue 3 false))) = [PdcpDataInd false false 3 [1; 2; 3]] /\
  exists l, mac_rlc_data_ind ue_at_ue false 5 [0; 0; 1; 2; 3] 5 1 layer_rx0 = Ok l.
Proof.
  split.
  - destruct (rlc_bearer_in_order ue_at_enb ue_at_ue 3 net5 ue_at_enb_range ue_at_ue_range ltac:(lia) net5_reach)
      as (e & e' & E & E' & _ & A & _).
    unfold um_of. change layer_rx1 with (n_rx net5). rewrite E'. apply A; [done|].
    assert (Q : RlcUm.input_sdus (um_of layer_tx4 (key_of ue_at_enb 3 false)) = []) by (vm_compute; reflexivity).
    unfold um_of in Q. change layer_tx4 with (n_tx net5) in Q. by rewrite E in Q.
  - destruct (rlc_bearer_in_order ue_at_enb ue_at_ue 3 net4 ue_at_enb_range ue_at_ue_range ltac:(lia) net4_reach)
      as (e & e' & _ & _ & _ & _ & _ & _ & G).
    by apply (G ue_at_ue [0; 0; 1; 2; 3] []).
Defined.

(** Releasing the UE of another RNTI leaves the bearer. *)
Definition other_ue : layer_ctxt := mk_lctxt 0 0x1235 (RlcUm.mk_ctxt 0 0 true true true).
Definition layer_tx5 : hlayer := ret (run_call other_ue Call_rrc_rlc_remove_ue layer_tx0).
Lemma tx5_eq : run_call other_ue Call_rrc_rlc_remove_ue layer_tx0 = Ok layer_tx5.
Proof. unfold layer_tx5. apply ret_Ok. vm_compute. reflexivity. Qed.

Lemma rlc_layer_isolated_witness :
  run_call other_ue Call_rrc_rlc_remove_ue layer_tx0 = Ok layer_tx5 /\
  entities layer_tx5 !! key_of ue_at_enb 3 false = entities layer_tx0 !! key_of ue_at_enb 3 false.
Proof.
  split; [exact tx5_eq|].
  refine (proj2 (rlc_layer_isolated other_ue ue_at_enb Call_rrc_rlc_remove_ue layer_tx0 layer_tx5 3 false tx0_ok _ ue_at_enb_range _ _ tx5_eq _)).
  - split; simpl; lia.
  - lia.
  - by repeat constructor.
  - intros [(_ & H & _) _]. discriminate H.
Defined.

(** From the empty layer: DRB 3 in UM and SRB 1 in TM, an SDU, a status. *)
Definition calls6 : list (layer_ctxt * call) :=
  [(ue_at_enb, Call_rrc_rlc_config_asn1_req None drb3 None None); (ue_at_enb, add_srb1);
   (ue_at_enb, Call_rlc_data_req false false 3 0 3 [1; 2; 3] []); (ue_at_enb, Call_mac_rlc_status_ind false 5 9)].
Definition layer_tx6 : hlayer := ret (run_calls calls6 rlc_module_init).
Lemma tx6_eq : run_calls calls6 rlc_module_init = Ok layer_tx6.
Proof. unfold layer_tx6. apply ret_Ok. vm_compute. reflexivity. Qed.

Lemma module_init_ok : layer_ok (rlc_module_init : hlayer) /\ mbms_um (rlc_module_init : hlayer).
Proof.
  destruct (coll_empty_ok (T := objects rlc_union_t)) as [K M]. split; [exact K|].
  intros k u E. unfold entities, rlc_module_init in E. cbn [rlc_coll] in E. rewrite M in E. by rewrite lookup_empty in E.
Qed.

Lemma calls6_range : Forall call_range calls6.
Proof.
  unfold calls6. repeat (apply Forall_cons; split;
    [split; [apply ue_at_enb_range|cbn [snd addressed default app fmap list_fmap bearer];
       repeat (apply Forall_cons; split; [vm_compute; intuition discriminate|]); by apply Forall_nil]|]).
  by apply Forall_nil.
Qed.

Definition am_for_drb3 : list DRB_ToAddMod_t := [mk_drb 3 (Some (RLC_Config_PR_am (RlcAmRetransmit.mk_am_info 4 8 1000 50 40 40)))].

Lemma rlc_union_typed_witness :
  run_calls calls6 rlc_module_init = Ok layer_tx6 /\
  (exists e, entities layer_tx6 !! key_of ue_at_enb 3 false = Some (U_um e)) /\
  rrc_rlc_config_asn1_req ue_at_enb None (Some am_for_drb3) None None layer_tx6 = Fault AssertFatal /\
  rrc_rlc_config_req ue_at_enb false false CONFIG_ACTION_MODIFY 3 (info_tm 0) layer_tx6 = Fault OutOfBounds.
Proof.
  assert (E : entities layer_tx6 !! key_of ue_at_enb 3 false = Some (U_um (um_of layer_tx6 (key_of ue_at_enb 3 false))))
    by (apply um_of_at; vm_compute; reflexivity).
  destruct (rlc_union_typed calls6 rlc_module_init layer_tx6 (proj1 module_init_ok) (proj2 module_init_ok) calls6_range tx6_eq)
    as (_ & _ & _ & H).
  split; [exact tx6_eq|]. split; [eauto|]. split.
  - refine (proj1 (proj2 (proj2 (H ue_at_enb 3 false _ RLC_MODE_AM E _))) (hd (mk_drb 0 None) am_for_drb3) [] None None _ _ _ _ _); reflexivity || done.
  - refine (proj2 (proj2 (proj2 (H ue_at_enb 3 false _ RLC_MODE_TM E _))) false (info_tm 0) _ _ _); reflexivity || done.
Defined.

Lemma rlc_remove_ue_exact_witness :
  exists l', rrc_rlc_remove_ue ue_at_enb layer_tx1 = Ok (RLC_OP_STATUS_OK, l') /\ entities l' !! key_of ue_at_enb 3 false = None.
Proof.
  destruct (rlc_remove_ue_exact ue_at_enb layer_tx1 tx1_ok ue_at_enb_range) as (l' & E & _ & H). exists l'. split; [exact E|].
  rewrite (H ue_at_enb 3 false ue_at_enb_range ltac:(lia)). apply decide_True. split; [by split_and!|].
  apply (bool_decide_unpack _). vm_compute. exact I.
Defined.

Lemma tm_sends_an_eighth_witness :
  exists e u1 u2 e3 r, config_req_rlc_tm (entity_ctxt ue_at_enb) true 0 1 (Some tm_blank) = Ok (Some e) /\
    entity_data_req (entity_ctxt ue_at_enb) 0 [1; 2; 3; 4; 5; 6; 7; 8; 9; 10; 11; 12; 13; 14; 15; 16] [] 16 (U_tm e) = Ok (RLC_OP_STATUS_OK, u1) /\
    entity_mac_status_ind (entity_ctxt ue_at_enb) 16 u1 = Ok (r, u2) /\
    entity_mac_data_req (entity_ctxt ue_at_enb) [] u2 = Ok ([1; 2], U_tm e3).
Proof.
  destruct (tm_sends_an_eighth (entity_ctxt ue_at_enb) true 0 1 [1; 2; 3; 4; 5; 6; 7; 8; 9; 10; 11; 12; 13; 14; 15; 16] [] [] eq_refl ltac:(simpl; lia))
    as (e & u1 & u2 & e3 & r & E0 & E1 & E2 & E3 & _).
  exists e, u1, u2, e3, r. exact (conj E0 (conj E1 (conj E2 E3))).
Defined.

End RlcLayerClaims.
