(* ===== verification/PdcpRlc.v ===== *)
(** * PDCP over RLC UM

    The layers of both sides together: [pdcp_data_req] calls [rlc_data_req]
    with what it has made of the SDU; the RLC layers and MAC carry it
    ([RlcBearer.net_step], with any calls on other bearers); each
    [PdcpDataInd] of the receiving layer is a call of [pdcp_data_ind]. *)

From S2P Require Import Prelude HashTable Collection Osa Pdcp PdcpLayer PdcpSecurity PdcpLink PdcpSystem.
From S2P Require Import RlcUmEntity RlcUmReasm RlcUmSystem RlcLayer RlcLayerProofs RlcBearer.
Import Osa Collection Pdcp PdcpLayer PdcpSecurity PdcpLink PdcpSystem.

Module PdcpRlc.
Import RlcLayerProofs RlcBearer.

Section Stack.
Context `{AesLib} {T1 : Type} `{O1 : CollectionOps T1 pdcp_t} `{!CollectionLaws T1 pdcp_t}.
Context {T2 : Type} `{O2 : CollectionOps T2 RlcLayer.rlc_union_t} `{!CollectionLaws T2 RlcLayer.rlc_union_t}.

(** [ct], [cr]: the UE at the eNB and at the UE; [rb]: the data bearer;
    [alg] and [active]: the ciphering algorithm of the bearer and whether
    security is activated. *)
Variables (ct cr : RlcLayer.layer_ctxt) (rb : Z) (m : pdcp_transmission_mode_t) (link_gtpu : bool) (alg active : Z).

Definition pdcp_ctxt (c : RlcLayer.layer_ctxt) : protocol_ctxt_t := mk_ctxt (RlcLayer.module_id c) (RlcLayer.enb c) (RlcLayer.rnti c).
Notation cA := (pdcp_ctxt ct).
Notation cB := (pdcp_ctxt cr).
Notation kt := (RlcLayer.key_of ct rb false).
Notation kr := (RlcLayer.key_of cr rb false).

(** [s_taken]: how many of the indications PDCP has handled. *)
Record stack : Type := mk_stack {
  s_tx : pdcp_layer T1; s_net : net (T := T2); s_rx : pdcp_layer T1;
  s_taken : nat; s_sdus : list (list Z); s_handed : list (list Z)
}.

(** An SDU, and the sender's block for its PDU. *)
Definition sdu_fits (sdu block : list Z) : Prop :=
  (1 <= length sdu)%nat /\ Z.of_nat (length sdu) <= MAX_IP_PACKET_SIZE /\ Forall is_byte sdu /\ Forall is_byte block /\
  2 + cipher_room false alg active (length sdu) <= Z.of_nat (length block).

(** What follows a PDU in the receiver's block. *)
Definition slack_fits (pdu slack : list Z) : Prop :=
  Forall is_byte slack /\ cipher_room false alg active (length pdu - 2) <= Z.of_nat (length pdu - 2) + Z.of_nat (length slack).

Inductive stack_init : stack -> Prop :=
| Stack_init A B n R :
    bearer_ok cA cB false rb link_gtpu A B -> coll_map (pdcp_coll_p B) !! key_of cB rb false = Some R ->
    cipheringAlgorithm R = alg -> security_activated R = active -> net_init ct cr rb n ->
    stack_init (mk_stack A n B 0 [] []).

Inductive stack_step : stack -> stack -> Prop :=
| S_submit s c sdu block rest e e' ok A l sr mb rb' mui cf k b :
    same_ue c ct -> RlcUm.mem_block_ok (RlcLayer.entity_ctxt c) = true ->
    entities (n_tx (s_net s)) !! kt = Some (RlcLayer.U_um e) -> entities (n_rx (s_net s)) !! kr = Some (RlcLayer.U_um e') ->
    sdu_fits sdu block ->
    pdcp_data_req (s_tx s) cA false rb 0 0 sdu m (Some block) RLC_OP_STATUS_OK = Ok (ok, A, [RlcDataReq sr mb rb' mui cf k b]) ->
    RlcUmSystem.sdu_accepted (RlcUmSystem.mk_link e [] e' []) (take (Z.to_nat k) b) ->
    RlcLayer.rlc_data_req c sr mb rb' mui k b rest (n_tx (s_net s)) = Ok (RLC_OP_STATUS_OK, l) ->
    stack_step s (mk_stack A (mk_net l (n_ch (s_net s)) (n_rx (s_net s)) (n_submitted (s_net s) ++ [take (Z.to_nat k) b]))
                    (s_rx s) (s_taken s) (s_sdus s ++ [sdu]) (s_handed s))
| S_net s n' :
    net_step ct cr rb (s_net s) n' -> n_submitted n' = n_submitted (s_net s) ->
    stack_step s (mk_stack (s_tx s) n' (s_rx s) (s_taken s) (s_sdus s) (s_handed s))
| S_deliver s u sr mb rb' pdu slack ok B out :
    entities (n_rx (s_net s)) !! kr = Some u -> RlcLayer.indications u !! s_taken s = Some (RlcLayer.PdcpDataInd sr mb rb' pdu) ->
    slack_fits pdu slack ->
    pdcp_data_ind false link_gtpu true (s_rx s) cB sr mb rb' (Z.of_nat (length pdu)) (pdu ++ slack) = Ok (ok, B, out) ->
    stack_step s (mk_stack (s_tx s) (s_net s) B (S (s_taken s)) (s_sdus s) (s_handed s ++ handed (s_rx s) B out)).

Inductive stack_reach : stack -> Prop :=
| Stack_reach_init s : stack_init s -> stack_reach s
| Stack_reach_step s s' : stack_reach s -> stack_step s s' -> stack_reach s'.

(** ** The SDUs on the way *)

(** From [A], the requests that made the PDUs of [ps] lead to [A']. *)
Inductive pending : pdcp_layer T1 -> list (list Z * list Z) -> pdcp_layer T1 -> Prop :=
| pending_nil A : pending A [] A
| pending_cons A A1 A' sdu block k b ps :
    sdu_fits sdu block ->
    pdcp_data_req A cA false rb 0 0 sdu m (Some block) RLC_OP_STATUS_OK = Ok (true, A1, [RlcDataReq false false rb 0 0 k b]) ->
    pending A1 ps A' -> pending A ((sdu, take (Z.to_nat k) b) :: ps) A'.

Lemma pending_snoc A ps A' A2 sdu block k b : pending A ps A' -> sdu_fits sdu block ->
  pdcp_data_req A' cA false rb 0 0 sdu m (Some block) RLC_OP_STATUS_OK = Ok (true, A2, [RlcDataReq false false rb 0 0 k b]) ->
  pending A (ps ++ [(sdu, take (Z.to_nat k) b)]) A2.
Proof.
  induction 1 as [|A A1 A' sdu' block' k' b' ps F E P IH]; intros F2 E2; [by eapply pending_cons; [| |constructor]|].
  simpl. eapply pending_cons; eauto.
Qed.

(** The receiver's entity has the algorithms of the bearer. *)
Definition algorithms (B : pdcp_layer T1) : Prop :=
  exists R, coll_map (pdcp_coll_p B) !! key_of cB rb false = Some R /\ cipheringAlgorithm R = alg /\ security_activated R = active.

Definition stack_inv (s : stack) : Prop :=
  net_reach ct cr rb (s_net s) /\
  exists Ak ps done B', bearer_ok cA cB false rb link_gtpu Ak (s_rx s) /\ algorithms (s_rx s) /\
    pending Ak ps (s_tx s) /\ bearer_ok cA cB false rb link_gtpu (s_tx s) B' /\ algorithms B' /\
    s_sdus s = s_handed s ++ ps.*1 /\ n_submitted (s_net s) = done ++ ps.*2 /\ length done = s_taken s.

Hypothesis Ct : RlcLayerProofs.ctxt_range ct.
Hypothesis Cr : RlcLayerProofs.ctxt_range cr.
Hypothesis Rb : 0 < rb < 11.
Hypothesis Mode : m <> PDCP_TRANSMISSION_MODE_TRANSPARENT.

(** One SDU between synchronised ends, whatever follows it in the block. *)
Lemma one_sdu A B sdu block : bearer_ok cA cB false rb link_gtpu A B -> algorithms B -> sdu_fits sdu block ->
  exists A' b, let k := Z.of_nat (2 + length sdu) in
    pdcp_data_req A cA false rb 0 0 sdu m (Some block) RLC_OP_STATUS_OK = Ok (true, A', [RlcDataReq false false rb 0 0 k b]) /\
    (2 + length sdu <= length b)%nat /\
    forall slack, slack_fits (take (Z.to_nat k) b) slack ->
      exists B' out, pdcp_data_ind false link_gtpu true B cB false false rb k (take (Z.to_nat k) b ++ slack) = Ok (true, B', out) /\
        handed B B' out = [sdu] /\ bearer_ok cA cB false rb link_gtpu A' B' /\ algorithms B'.
Proof using Rb Mode.
  intros Hb (R & HR & Ea & Es) (L1 & L2 & By & Bb & Rm).
  destruct (transfer_ok cA cB false rb m link_gtpu ltac:(unfold maxDRB; lia) Mode A B R sdu block Hb HR L1 L2 By Bb ltac:(rewrite Ea, Es; exact Rm))
    as (A' & b & E & Hl & Hd). cbn [header_len tailer_len] in *. rewrite Nat.add_0_r in *. exists A', b. split; [exact E|]. split; [done|].
  rewrite Nat2Z.id. intros slack [Bs Rs]. rewrite length_take in Rs. replace (_ `min` _ - 2)%nat with (length sdu) in Rs by lia.
  destruct (Hd slack Bs ltac:(rewrite Ea, Es; cbn [tailer_len]; lia)) as (B' & out & R' & E' & Hh & Hb' & HR' & Ec). exists B', out. split_and!; try done.
  { by rewrite Nat.add_0_r in E'. }
  exists R'. split; [done|]. injection Ec as _ E2 _ _ _ _ E7 _ _. by rewrite E2, E7.
Qed.

Lemma same_algorithms B B' : algorithms B -> coll_map (pdcp_coll_p B') = coll_map (pdcp_coll_p B) -> algorithms B'.
Proof using Type. intros (R & E & Al) M. exists R. by rewrite M. Qed.

Lemma init_stack s : stack_init s -> stack_inv s.
Proof using Type.
  intros [A B n R Hb HR Ha Hs Hn]. split; [by apply Net_reach_init|].
  assert (algorithms B) by (exists R; done).
  exists A, [], [], B. cbn [s_tx s_rx s_sdus s_handed s_net s_taken]. split_and!; try done; [constructor|].
  by destruct Hn.
Qed.

Lemma room_slack pdu : exists slack, slack_fits pdu slack.
Proof using Type.
  exists (replicate (Z.to_nat (cipher_room false alg active (length pdu - 2))) 0). split; [by apply Forall_replicate|]. rewrite length_replicate. lia.
Qed.

(** What the receiver's layer indicates. *)
Lemma net_indications n u i x : net_reach ct cr rb n -> entities (n_rx n) !! kr = Some u -> RlcLayer.indications u !! i = Some x ->
  exists pdu, x = RlcLayer.PdcpDataInd false false rb pdu /\ n_submitted n !! i = Some pdu.
Proof using Ct Cr Rb.
  intros Hn E L. destruct (reach_bearer ct cr rb Ct Cr ltac:(lia) n Hn) as (e & e' & _ & _ & _ & M & Lk & B & _).
  rewrite E in M. injection M as ->. rewrite (bearer_indications e' rb B) in L.
  destruct (RlcUmSystem.link_prefix _ Lk) as [P _]. cbn [RlcUmSystem.l_rx RlcUmSystem.l_submitted] in P.
  apply list_lookup_fmap_Some in L as (pdu & -> & L). exists pdu. split; [done|]. by eapply prefix_lookup_Some.
Qed.

(** The next request: what PDCP makes of the SDU, and what it leads to when
    RLC has taken it. *)
Lemma next_request s sdu block : stack_inv s -> sdu_fits sdu block ->
  exists A b, let k := (2 + length sdu)%nat in
    pdcp_data_req (s_tx s) cA false rb 0 0 sdu m (Some block) RLC_OP_STATUS_OK = Ok (true, A, [RlcDataReq false false rb 0 0 (Z.of_nat k) b]) /\
    (k <= length b)%nat /\
    forall n', net_reach ct cr rb n' -> n_submitted n' = n_submitted (s_net s) ++ [take k b] ->
      stack_inv (mk_stack A n' (s_rx s) (s_taken s) (s_sdus s ++ [sdu]) (s_handed s)).
Proof using Rb Mode.
  intros (N & Ak & ps & dn & B' & Hk & Al & P & Hv & Alv & Es & En & Ed) F.
  destruct (one_sdu (s_tx s) B' sdu block Hv Alv F) as (A & b & E & Hb & Hd). cbv zeta in *. rewrite Nat2Z.id in Hd.
  destruct (room_slack (take (2 + length sdu) b)) as (slack & Fs). destruct (Hd slack Fs) as (B2 & out & _ & _ & Hv2 & Alv2).
  exists A, b. split; [exact E|]. split; [done|]. intros n' N' Hs. split; [exact N'|].
  exists Ak, (ps ++ [(sdu, take (2 + length sdu) b)]), dn, B2. cbn [s_tx s_net s_rx s_taken s_sdus s_handed].
  rewrite Hs, !fmap_app, Es, En, <- !app_assoc. split_and!; try done.
  pose proof (pending_snoc Ak ps (s_tx s) A sdu block (Z.of_nat (2 + length sdu)) b P F E) as Q. by rewrite Nat2Z.id in Q.
Qed.

(** The next indication: the PDU of the next SDU, which PDCP hands over. *)
Lemma next_indication s u x : stack_inv s -> entities (n_rx (s_net s)) !! kr = Some u -> RlcLayer.indications u !! s_taken s = Some x ->
  exists pdu sdu, x = RlcLayer.PdcpDataInd false false rb pdu /\
    forall slack, slack_fits pdu slack ->
      exists B out, pdcp_data_ind false link_gtpu true (s_rx s) cB false false rb (Z.of_nat (length pdu)) (pdu ++ slack) = Ok (true, B, out) /\
        handed (s_rx s) B out = [sdu] /\
        stack_inv (mk_stack (s_tx s) (s_net s) B (S (s_taken s)) (s_sdus s) (s_handed s ++ [sdu])).
Proof using Ct Cr Rb Mode.
  intros (N & Ak & ps & dn & B' & Hk & Al & P & Hv & Alv & Es & En & Ed) E L.
  destruct (net_indications _ _ _ _ N E L) as (pdu & -> & Lp).
  rewrite En, <- Ed in Lp. rewrite lookup_app_r, Nat.sub_diag in Lp by done.
  destruct P as [|Ak A1 A' sdu block k b ps Fs Er P]; [done|]. cbn [fmap list_fmap fst snd] in *. injection Lp as <-.
  destruct (one_sdu Ak (s_rx s) sdu block Hk Al Fs) as (A2 & b2 & E2 & Hb & Hd). cbv zeta in *. rewrite E2 in Er.
  assert (A1 = A2 /\ k = Z.of_nat (2 + length sdu) /\ b = b2) as (-> & -> & ->) by (split_and!; congruence).
  exists (take (Z.to_nat (Z.of_nat (2 + length sdu))) b2), sdu. split; [done|]. intros slack F.
  destruct (Hd slack F) as (B2 & out2 & E3 & Hh & Hb2 & Al2). exists B2, out2.
  split; [rewrite <- E3; do 2 f_equal; rewrite Nat2Z.id, length_take; lia|]. split; [done|]. split; [done|].
  exists A2, ps, (dn ++ [take (Z.to_nat (Z.of_nat (2 + length sdu))) b2]), B'. cbn [s_tx s_net s_rx s_taken s_sdus s_handed].
  rewrite Es, En, length_app, <- !app_assoc. cbn [length app]. split_and!; try done. lia.
Qed.

Lemma step_stack s s' : stack_inv s -> stack_step s s' -> stack_inv s'.
Proof using Ct Cr Rb Mode.
  intros I St.
  destruct St as [s c sdu block rest e e' ok A l sr mb rb' mui cf k b Sc Hm E E' F Er Ac El|s n' Hn Hs|s u sr mb rb' pdu slack ok B out E L F Ei].
  - destruct (next_request s sdu block I F) as (A2 & b2 & E2 & Hb & Hd). cbv zeta in *. rewrite E2 in Er. set (n := (2 + length sdu)%nat) in *.
    assert (A = A2 /\ b = b2 /\ k = Z.of_nat n /\ sr = false /\ mb = false /\ rb' = rb /\ mui = 0) as (-> & -> & -> & -> & -> & -> & ->)
      by (split_and!; congruence).
    rewrite Nat2Z.id in *. apply Hd; [|done]. apply (Net_reach_step _ _ _ _ _ (proj1 I)).
    rewrite <- (take_drop n b2) in El. replace (Z.of_nat n) with (Z.of_nat (length (take n b2))) in El by (rewrite length_take; lia).
    by eapply (N_submit _ _ _ (s_net s) c 0 _ (drop n b2) rest).
  - destruct I as (N & Ak & ps & dn & B' & I). split; [by eapply Net_reach_step|]. exists Ak, ps, dn, B'.
    cbn [s_tx s_net s_rx s_taken s_sdus s_handed]. by rewrite Hs.
  - destruct (next_indication s u _ I E L) as (pdu' & sdu & Ex & Hd). injection Ex as -> -> -> ->.
    destruct (Hd slack F) as (B2 & out2 & E3 & Hh & I2). rewrite E3 in Ei. injection Ei as <- <- <-. by rewrite Hh.
Qed.

Lemma reach_stack s : stack_reach s -> stack_inv s.
Proof using Ct Cr Rb Mode. induction 1; [by apply init_stack|by eapply step_stack]. Qed.

End Stack.

End PdcpRlc.
