(* ===== verification/PdcpRlcClaims.v ===== *)
(** * PDCP over RLC UM: the theorem

    An SDU between the PDCP layers of an eNB and a UE, carried by their RLC
    layers, and a run on the concrete layers of [PdcpClaims] and
    [RlcLayerClaims]. *)

From S2P Require Import Prelude Snow3g HashTable Collection Osa Pdcp PdcpLayer PdcpSecurity PdcpLink PdcpSystem PdcpClaims.
From S2P Require Import RlcUmEntity RlcUmReasm RlcUmSystem RlcLayer RlcLayerProofs RlcBearer RlcLayerClaims PdcpRlc.
Import Osa Collection Pdcp PdcpLayer PdcpSystem PdcpClaims.

Module PdcpRlcClaims.
Import RlcLayerProofs RlcBearer RlcLayerClaims PdcpRlc.
Notation DataInd := RlcLayer.PdcpDataInd.
Notation U_um := RlcLayer.U_um.

Section Claims.
Context `{AesLib} {T1 : Type} `{O1 : CollectionOps T1 pdcp_t} `{!CollectionLaws T1 pdcp_t}.
Context {T2 : Type} `{O2 : CollectionOps T2 RlcLayer.rlc_union_t} `{!CollectionLaws T2 RlcLayer.rlc_union_t}.

(** C1. The stack end to end, for a UM data bearer over a channel that loses
    and reorders nothing: PDCP over RLC, with both layers of the eNB and of
    the UE as the code has them. The bearer (1 to 10) is new in the RLC
    layers, which RRC sets up bidirectionally with one SN length, and is
    configured and synchronised in the PDCP layers ([bearer_ok], 12-bit SNs,
    any ciphering algorithm). Then SDUs are given to [pdcp_data_req], what it
    makes of them to [rlc_data_req], the MACs ask, fetch and deliver RLC PDUs,
    RLC calls that do not name the bearer happen, and the RLC SDUs indicated
    at the UE are given to [pdcp_data_ind], at once or later. The steps are
    those of C5: SDUs that RLC accepts (here 1 to 1500 bytes before PDCP,
    within the receiver's maximum and the queue within 2^29 bytes), PDUs
    fetched only for grants that are filled exactly with fewer than 24 length
    indicators, memory available; and the blocks have room for the words the
    ciphering touches ([sdu_fits], [slack_fits]). At any time the SDUs handed
    over at the UE are a prefix of those submitted, unchanged and in order;
    they are all of them once RLC has nothing queued or on the way and PDCP
    has taken every indication; the next indication is accepted and hands over
    exactly the next SDU; and the next SDU is made into one request, which RLC
    takes when it has memory. *)
Theorem stack_in_order ct cr rb m link_gtpu alg active (s : stack (T1 := T1) (T2 := T2)) :
  ctxt_range ct -> ctxt_range cr -> 0 < rb < maxDRB -> m <> PDCP_TRANSMISSION_MODE_TRANSPARENT ->
  stack_reach ct cr rb m link_gtpu alg active s ->
  s_handed s `prefix_of` s_sdus s /\
  exists e e', entities (n_tx (s_net s)) !! RlcLayer.key_of ct rb false = Some (U_um e) /\
    entities (n_rx (s_net s)) !! RlcLayer.key_of cr rb false = Some (U_um e') /\
    (n_ch (s_net s) = [] -> RlcUm.input_sdus e = [] -> s_taken s = length (RlcLayer.indications (U_um e')) -> s_handed s = s_sdus s) /\
    (forall x, RlcLayer.indications (U_um e') !! s_taken s = Some x ->
       exists pdu sdu, x = DataInd false false rb pdu /\ s_handed s ++ [sdu] `prefix_of` s_sdus s /\
         forall slack, slack_fits alg active pdu slack ->
           exists B out, pdcp_data_ind false link_gtpu true (s_rx s) (pdcp_ctxt cr) false false rb (Z.of_nat (length pdu)) (pdu ++ slack)
               = Ok (true, B, out) /\ handed (s_rx s) B out = [sdu]) /\
    (forall sdu block, sdu_fits alg active sdu block ->
       exists A b, pdcp_data_req (s_tx s) (pdcp_ctxt ct) false rb 0 0 sdu m (Some block) RLC_OP_STATUS_OK
           = Ok (true, A, [RlcDataReq false false rb 0 0 (Z.of_nat (2 + length sdu)) b]) /\
         forall c rest, same_ue c ct -> RlcUm.mem_block_ok (RlcLayer.entity_ctxt c) = true ->
           exists l, RlcLayer.rlc_data_req c false false rb 0 (Z.of_nat (2 + length sdu)) b rest (n_tx (s_net s)) = Ok (RLC_OP_STATUS_OK, l)).
Proof.
  unfold maxDRB. intros Ct Cr Rb Mode Hr. pose proof (reach_stack ct cr rb m link_gtpu alg active Ct Cr Rb Mode s Hr) as I.
  pose proof I as (N & Ak & ps & dn & B' & _ & _ & P & _ & _ & Es & En & Ed).
  destruct (reach_bearer ct cr rb Ct Cr ltac:(lia) _ N) as (e & e' & K & _ & M & M' & L & B & _).
  destruct (RlcUmSystem.link_prefix _ L) as [_ All]. cbn [RlcUmSystem.l_tx RlcUmSystem.l_rx RlcUmSystem.l_ch RlcUmSystem.l_submitted] in *.
  split; [rewrite Es; by apply prefix_app_r|]. exists e, e'. split_and!; try done.
  - rewrite (bearer_indications e' rb B). intros Ec Eq Et. rewrite length_fmap, (All ltac:(by rewrite Ec) Eq), En, length_app, Ed in Et.
    rewrite Es. destruct ps; [by rewrite app_nil_r|simpl in Et; lia].
  - intros x L'. destruct (next_indication ct cr rb m link_gtpu alg active Ct Cr Rb Mode s _ x I M' L') as (pdu & sdu & -> & Hd).
    exists pdu, sdu. split; [done|]. split; [|intros slack F; destruct (Hd slack F) as (B2 & out & E & Hh & _); eauto].
    destruct (room_slack alg active pdu) as (slack & F). destruct (Hd slack F) as (B2 & out & _ & _ & _ & ? & ps' & ? & ? & _ & _ & _ & _ & _ & E & _).
    cbn [s_sdus s_handed] in E. rewrite E. by apply prefix_app_r.
  - intros sdu block F. destruct (next_request ct cr rb m link_gtpu alg active Rb Mode s sdu block I F) as (A & b & E & Hb & _).
    exists A, b. split; [exact E|]. intros c rest Sc Hm.
    destruct (bearer_data_req c rb 0 (take (2 + length sdu) b) (drop (2 + length sdu) b) rest (n_tx (s_net s)) e K Hm) as (l & El & _).
    + unfold RlcLayer.NB_RB_MAX. lia.
    + intros Q%(f_equal length). rewrite length_take in Q. cbn [length] in Q. lia.
    + by rewrite (key_same_ue c ct).
    + exists l. rewrite take_drop, length_take in El. by rewrite Nat.min_l in El by done.
Qed.

End Claims.
(** ** A concrete run

    The eNB and the UE of [PdcpClaims] with DRB 3 over UM, EEA1 and the toy
    AES, over the RLC layers of [RlcLayerClaims]. *)

#[local] Existing Instance toy_aes.
Notation player := (pdcp_layer (objects pdcp_t)).

Definition bearer3 (c : protocol_ctxt_t) : player := layer_of (setup_bearer demo_layer c DRB_UM 3 demo_security).

Lemma bearer3_ok c : coll_ok (pdcp_coll_p (bearer3 c)) /\
  coll_map (pdcp_coll_p (bearer3 c)) = <[key_of c 3 false := added c DRB_UM 3 demo_security]> (coll_map (pdcp_coll_p demo_layer)).
Proof.
  destruct (setup_ok demo_layer c DRB_UM 3 demo_security) as (l & E & H); [apply demo_empty|apply demo_absent|done|].
  unfold bearer3. rewrite E. exact H.
Qed.

(** What a call returned, without the layer, and the layer. *)
Definition seen (r : res (bool * player * list output)) : option (bool * list output) :=
  match r with Ok (b, _, o) => Some (b, o) | Fault _ => None end.
Definition after (r : res (bool * player * list output)) : player := match r with Ok (_, l, _) => l | Fault _ => demo_layer end.
Lemma seen_Ok r b o : seen r = Some (b, o) -> r = Ok (b, after r, o).
Proof. destruct r as [[[b' l] o']|]; [|done]. by intros [= -> ->]. Qed.

(** The PDU, and the sender's block after it. *)
Definition pdu3 : list Z := [128; 0; 85; 184; 43].
Definition block3 : list Z := pdu3 ++ [97; 0; 0].

Definition stack0 := mk_stack (bearer3 demo_enb) net0 (bearer3 demo_ue) 0 [] [].
Definition sender1 : player :=
  after (pdcp_data_req (s_tx stack0) (pdcp_ctxt ue_at_enb) false 3 0 0 [1; 2; 3] PDCP_TRANSMISSION_MODE_DATA (Some (replicate 8 0)) RLC_OP_STATUS_OK).
Definition receiver1 : player :=
  after (pdcp_data_ind false false true (bearer3 demo_ue) (pdcp_ctxt ue_at_ue) false false 3 (Z.of_nat (length pdu3)) (pdu3 ++ [9])).
Definition rlc_tx1 : hlayer := second (RlcLayer.rlc_data_req ue_at_enb false false 3 0 (Z.of_nat 5) block3 [] layer_tx0).
Definition rlc_tx2 : hlayer := second (RlcLayer.mac_rlc_status_ind ue_at_enb false (3 + 2) 9 rlc_tx1).
Definition rlc_tx3 : hlayer := second (RlcLayer.mac_rlc_data_req ue_at_enb false (3 + 2) [] rlc_tx2).
Definition rlc_pdu3 : list Z := 0 :: 0 :: pdu3.
Definition rlc_rx1 : hlayer := ret (RlcLayer.mac_rlc_data_ind ue_at_ue false (3 + 2) rlc_pdu3 (Z.of_nat (length rlc_pdu3)) 1 layer_rx0).

Lemma sender1_eq : pdcp_data_req (s_tx stack0) (pdcp_ctxt ue_at_enb) false 3 0 0 [1; 2; 3] PDCP_TRANSMISSION_MODE_DATA (Some (replicate 8 0)) RLC_OP_STATUS_OK
  = Ok (true, sender1, [RlcDataReq false false 3 0 0 5 block3]).
Proof. unfold sender1 at 1. apply seen_Ok. vm_compute. reflexivity. Qed.
Lemma receiver1_eq : pdcp_data_ind false false true (bearer3 demo_ue) (pdcp_ctxt ue_at_ue) false false 3 (Z.of_nat (length pdu3)) (pdu3 ++ [9])
  = Ok (true, receiver1, []).
Proof. unfold receiver1 at 1. apply seen_Ok. vm_compute. reflexivity. Qed.
Lemma rlc_tx1_eq : RlcLayer.rlc_data_req ue_at_enb false false 3 0 (Z.of_nat 5) block3 [] layer_tx0 = Ok (RlcLayer.RLC_OP_STATUS_OK, rlc_tx1).
Proof. unfold rlc_tx1 at 1. apply second_Ok. vm_compute. reflexivity. Qed.
Lemma rlc_tx2_eq : RlcLayer.mac_rlc_status_ind ue_at_enb false (3 + 2) 9 rlc_tx1 = Ok (RlcLayer.mk_mac_resp 7 1 (Some (0xffffffff, 5, false)), rlc_tx2).
Proof. unfold rlc_tx2 at 1. apply second_Ok. vm_compute. reflexivity. Qed.
Lemma rlc_tx3_eq : RlcLayer.mac_rlc_data_req ue_at_enb false (3 + 2) [] rlc_tx2 = Ok (rlc_pdu3, rlc_tx3).
Proof. unfold rlc_tx3 at 1. apply second_Ok. vm_compute. reflexivity. Qed.
Lemma rlc_rx1_eq : RlcLayer.mac_rlc_data_ind ue_at_ue false (3 + 2) rlc_pdu3 (Z.of_nat (length rlc_pdu3)) 1 layer_rx0 = Ok rlc_rx1.
Proof. unfold rlc_rx1. apply ret_Ok. vm_compute. reflexivity. Qed.

Notation reach := (stack_reach ue_at_enb ue_at_ue 3 PDCP_TRANSMISSION_MODE_DATA false 1 1).
Notation kt := (RlcLayer.key_of ue_at_enb 3 false).
Notation kr := (RlcLayer.key_of ue_at_ue 3 false).

Definition net1 := mk_net rlc_tx1 [] layer_rx0 [pdu3].
Definition net2 := mk_net rlc_tx2 [] layer_rx0 [pdu3].
Definition net3 := mk_net rlc_tx3 [rlc_pdu3] layer_rx0 [pdu3].
Definition net4 := mk_net rlc_tx3 [] rlc_rx1 [pdu3].
Definition with_net (n : net (T := objects RlcLayer.rlc_union_t)) := mk_stack sender1 n (bearer3 demo_ue) 0 [[1; 2; 3]] [].
Definition stack5 := mk_stack sender1 net4 receiver1 1 [[1; 2; 3]] (handed (bearer3 demo_ue) receiver1 []).

Lemma stack0_reach : reach stack0.
Proof.
  apply Stack_reach_init. destruct (bearer3_ok demo_enb) as [HA MA]. destruct (bearer3_ok demo_ue) as [HB MB].
  refine (Stack_init ue_at_enb ue_at_ue 3 false 1 1 (bearer3 demo_enb) (bearer3 demo_ue) net0 (added demo_ue DRB_UM 3 demo_security) _ _ _ _ _).
  - apply (bearer_established demo_layer _ demo_layer _ demo_enb demo_ue DRB_UM 3 demo_security false HA HB MA MB (demo_keys DRB_UM)); done.
  - change (pdcp_ctxt ue_at_ue) with demo_ue. rewrite MB. apply lookup_insert_eq.
  - reflexivity.
  - reflexivity.
  - apply net0_init.
Qed.

Lemma stack1_reach : reach (with_net net1).
Proof.
  refine (Stack_reach_step ue_at_enb ue_at_ue 3 PDCP_TRANSMISSION_MODE_DATA false 1 1 _ _ stack0_reach
    (S_submit _ _ _ _ _ _ _ stack0 ue_at_enb [1; 2; 3] (replicate 8 0) [] (um_of layer_tx0 kt) (um_of layer_rx0 kr) true sender1 rlc_tx1
       false false 3 0 0 5 block3 _ eq_refl _ _ _ sender1_eq _ rlc_tx1_eq)).
  - done.
  - apply um_of_at. vm_compute. reflexivity.
  - apply um_of_at. vm_compute. reflexivity.
  - split_and!; [simpl; lia|done|apply (bool_decide_unpack _); vm_compute; exact I|apply (bool_decide_unpack _); vm_compute; exact I|done].
  - vm_compute. repeat split; discriminate.
Qed.

Lemma net_reach_step s n : reach (with_net s) -> net_step ue_at_enb ue_at_ue 3 s n -> n_submitted n = n_submitted s -> reach (with_net n).
Proof. intros R St E. exact (Stack_reach_step _ _ _ _ _ _ _ _ _ R (S_net _ _ _ _ _ _ _ (with_net s) n St E)). Qed.

Lemma net2_step : net_step ue_at_enb ue_at_ue 3 net1 net2.
Proof. refine (N_status _ _ _ net1 ue_at_enb 9 _ rlc_tx2 _ _ rlc_tx2_eq); [done|lia]. Qed.

Lemma net3_step : net_step ue_at_enb ue_at_ue 3 net2 net3.
Proof.
  refine (N_request _ _ _ net2 ue_at_enb [] (um_of rlc_tx2 kt) rlc_pdu3 rlc_tx3 _ eq_refl _ _ rlc_tx3_eq).
  - done.
  - apply um_of_at. vm_compute. reflexivity.
  - vm_compute. reflexivity.
Qed.

Lemma net4_step : net_step ue_at_enb ue_at_ue 3 net3 net4.
Proof. refine (N_indicate _ _ _ net3 ue_at_ue rlc_pdu3 [] rlc_rx1 _ eq_refl eq_refl rlc_rx1_eq). done. Qed.

Lemma stack4_reach : reach (with_net net4).
Proof.
  exact (net_reach_step net3 net4 (net_reach_step net2 net3 (net_reach_step net1 net2 stack1_reach net2_step eq_refl) net3_step eq_refl) net4_step eq_refl).
Qed.

Lemma stack5_reach : reach stack5.
Proof.
  refine (Stack_reach_step _ _ _ _ _ _ _ _ _ stack4_reach
    (S_deliver _ _ _ _ _ _ _ (with_net net4) (U_um (um_of rlc_rx1 kr)) false false 3 pdu3 [9] true receiver1 [] _ _ _ receiver1_eq)).
  - apply um_of_at. vm_compute. reflexivity.
  - vm_compute. reflexivity.
  - split; [apply (bool_decide_unpack _); vm_compute; exact I|vm_compute; discriminate].
Qed.

(** The UE hands over the SDU. *)
Lemma stack_in_order_witness : s_handed stack5 = [[1; 2; 3]].
Proof.
  destruct (stack_in_order ue_at_enb ue_at_ue 3 PDCP_TRANSMISSION_MODE_DATA false 1 1 stack5 ue_at_enb_range ue_at_ue_range
    ltac:(unfold maxDRB; lia) ltac:(discriminate) stack5_reach) as (_ & e & e' & E & E' & All & _).
  change (s_sdus stack5) with [[1; 2; 3]] in All. apply All; [reflexivity| |].
  - assert (Q : RlcUm.input_sdus (um_of rlc_tx3 kt) = []) by (vm_compute; reflexivity).
    unfold um_of in Q. change rlc_tx3 with (n_tx (s_net stack5)) in Q. by rewrite E in Q.
  - assert (Q : length (RlcLayer.indications (U_um (um_of rlc_rx1 kr))) = 1%nat) by (vm_compute; reflexivity).
    unfold um_of in Q. change rlc_rx1 with (n_rx (s_net stack5)) in Q. by rewrite E' in Q.
Defined.

End PdcpRlcClaims.
