(* ===== verification/MacHeader.v ===== *)
(** * The headers of MAC PDUs

    [generate_dlsch_header] (eNB_scheduler_dlsch.c), [generate_ulsch_header],
    [parse_header], [parse_mch_header] (ue_procedures.c) and
    [parse_ulsch_header] (eNB_scheduler_ulsch.c) of
    openair2/LAYER2/MAC, on a buffer that is the list of its bytes. The
    subheaders of defs.h are bit fields of a byte: LCID in the bits 0 to 4, E
    bit 5, R bits 6 and 7; then F and the length. *)

From S2P Require Import Prelude.

Module MacHeader.

(** ** Logical channels and control elements *)

Definition CCCH : Z := 0.
Definition DCCH : Z := 1.
Definition DCCH1 : Z := 2.
Definition DTCH : Z := 3.
Definition UE_CONT_RES : Z := 28.
Definition TIMING_ADV_CMD : Z := 29.
Definition DRX_CMD : Z := 30.
Definition SHORT_PADDING : Z := 31.
Definition EXTENDED_POWER_HEADROOM : Z := 25.
Definition POWER_HEADROOM : Z := 26.
Definition CRNTI : Z := 27.
Definition TRUNCATED_BSR : Z := 28.
Definition SHORT_BSR : Z := 29.
Definition LONG_BSR : Z := 30.
Definition MAX_NUM_CE : Z := 5.
Definition NB_RB_MAX : Z := 14.
(** The size of [BSR_LONG], which has a byte of padding. *)
Definition BSR_LONG_SIZE : Z := 4.

(** ** Writing *)

Definition get (buf : list Z) (p : nat) : res Z := of_option OutOfBounds (buf !! p).
Definition put (buf : list Z) (p : nat) (v : Z) : res (list Z) :=
  if (p <? length buf)%nat then Ok (<[p := v]> buf) else Fault OutOfBounds.

(** A function that writes a header, with its local variables [mac_header],
    [mac_header_ptr], [first_element] and [last_size]. *)
Record writer : Type := mk_writer { mac_header : list Z; header_ptr : nat; first_element : bool; last_size : nat }.
#[export] Instance settable_writer : Settable writer := 
  fun w => mk_writer (mac_header w) (header_ptr w) (first_element w) (last_size w).

(** [R = 0; E = 0; LCID = lcid] at the pointer. *)
Definition put_fixed (lcid : Z) (w : writer) : res writer :=
  b ← put (mac_header w) (header_ptr w) (Z.land lcid 0x1f); Ok (w <| mac_header := b |>).

(** [E = 1] at the pointer. *)
Definition set_E (w : writer) : res writer :=
  v ← get (mac_header w) (header_ptr w);
  b ← put (mac_header w) (header_ptr w) (Z.lor v 0x20); Ok (w <| mac_header := b |>).

Definition skip (n : nat) (w : writer) : writer := w <| header_ptr ::= fun p => (p + n)%nat |>.

Definition short_padding_subheaders (short_padding : Z) (w : writer) : res writer :=
  w ← (if (short_padding =? 1) || (short_padding =? 2) then
         w ← put_fixed SHORT_PADDING w; Ok (w <| first_element := true |> <| last_size := 1%nat |>)
       else Ok w);
  if short_padding =? 2 then
    w ← set_E w;
    w ← put_fixed SHORT_PADDING (skip 1 w);
    Ok (w <| last_size := 1%nat |>)
  else Ok w.

(** The subheader of a control element. *)
Definition ce_subheader (lcid : Z) (w : writer) : res writer :=
  w ← (if first_element w then w ← set_E w; Ok (skip 1 w) else Ok (w <| first_element := true |>));
  w ← put_fixed lcid w;
  Ok (w <| last_size := 1%nat |>).

(** The subheader of an SDU. [SCH_SUBHEADER_LONG] has a fourth byte, which is
    cleared and written over by what follows. *)
Definition sdu_subheader (sdu : Z * Z) (w : writer) : res writer :=
  let '(lcid, len) := sdu in
  w ← (if first_element w then w ← set_E w; Ok (skip (last_size w) w) else Ok (w <| first_element := true |>));
  w ← put_fixed lcid w;
  let p := header_ptr w in
  if len <? 128 then
    b ← put (mac_header w) (p + 1) (Z.land len 0x7f);
    Ok (w <| mac_header := b |> <| last_size := 2%nat |>)
  else
    b ← put (mac_header w) (p + 1) (Z.lor 0x80 (Z.land (Z.shiftr len 8) 0x7f));
    b ← put b (p + 2) (Z.land len 0xff);
    b ← put b (p + 3) 0;
    Ok (w <| mac_header := b |> <| last_size := 3%nat |>).

Fixpoint sdu_subheaders (sdus : list (Z * Z)) (w : writer) : res writer :=
  match sdus with
  | [] => Ok w
  | sdu :: rest => w ← sdu_subheader sdu w; sdu_subheaders rest w
  end.

(** The end of the header: a subheader for the padding of the block, or the
    last subheader cut to its first byte. *)
Definition end_of_header (post_padding : Z) (w : writer) : res writer :=
  if 0 <? post_padding then
    w ← set_E w;
    w ← put_fixed SHORT_PADDING (skip (last_size w) w);
    Ok (skip 1 w)
  else Ok (skip 1 w).

(** [memcpy] to the pointer. *)
Fixpoint put_bytes (bytes buf : list Z) (p : nat) : res (list Z) :=
  match bytes with
  | [] => Ok buf
  | v :: rest => b ← put buf p v; put_bytes rest b (S p)
  end.

(** The control elements go behind the subheaders; the length of all this is
    returned as an [unsigned char]. *)
Definition copy_control_elements (ces : list Z) (w : writer) : res (Z * list Z) :=
  b ← put_bytes ces (mac_header w) (header_ptr w);
  Ok (u8 (Z.of_nat (header_ptr w + length ces)), b).

Definition start_header (header : list Z) : writer := mk_writer header 0 false 0.

(** [when b f]: [f] is executed if [b]. *)
Definition when {A} (b : bool) (f : A -> res A) (a : A) : res A := if b then f a else Ok a.

(** The [num_sdus] entries of [sdu_lcids] and [sdu_lengths] are [sdus];
    [ue_cont_res_id] is [None] for [NULL]. *)
Definition generate_dlsch_header (header : list Z) (sdus : list (Z * Z)) (drx_cmd timing_advance_cmd : Z)
    (ue_cont_res_id : option (list Z)) (short_padding post_padding : Z) : res (Z * list Z) :=
  let ta := negb (timing_advance_cmd =? 0) in
  w ← short_padding_subheaders short_padding (start_header header);
  w ← when (negb (drx_cmd =? 255)) (ce_subheader DRX_CMD) w;
  w ← when ta (ce_subheader TIMING_ADV_CMD) w;
  w ← when (bool_decide (is_Some ue_cont_res_id)) (ce_subheader UE_CONT_RES) w;
  w ← sdu_subheaders sdus w;
  w ← end_of_header post_padding w;
  copy_control_elements
    ((if ta then [Z.land (timing_advance_cmd + 31) 0x3f] else []) ++
     match ue_cont_res_id with Some id => take 6 id | None => [] end) w.

(** The fields of [BSR_SHORT] and [POWER_HEADROOM_CMD] as one byte. *)
Definition bsr_short_byte (lcgid size : Z) : Z := Z.lor (Z.shiftl (Z.land lcgid 3) 6) (Z.land size 0x3f).

(** The four bytes written for a [BSR_LONG], with the fields as they are in
    the structure (6 bits). *)
Definition bsr_long_bytes (sizes : Z * Z * Z * Z) : list Z :=
  let '(b0, b1, b2, b3) := sizes in
  [u8 (Z.lor (Z.shiftl b0 2) (Z.shiftr (Z.land b1 0x30) 4));
   u8 (Z.lor (Z.shiftl (Z.land b1 0x0f) 4) (Z.shiftr (Z.land b2 0x3c) 2));
   u8 (Z.lor (Z.shiftl (Z.land b2 0x03) 2) (Z.land b3 0x3f));
   0].

(** What the arguments [truncated_bsr], [short_bsr] and [long_bsr] ask for: the
    first of them that is not [NULL]. *)
Inductive bsr_arg : Type :=
| No_bsr
| Truncated_bsr (byte : Z)
| Short_bsr (byte : Z)
| Long_bsr (sizes : Z * Z * Z * Z).

Definition bsr_subheader (bsr : bsr_arg) (w : writer) : res writer :=
  match bsr with
  | No_bsr => Ok w
  | Truncated_bsr _ => ce_subheader TRUNCATED_BSR w
  | Short_bsr _ => ce_subheader SHORT_BSR w
  | Long_bsr _ => ce_subheader LONG_BSR w
  end.

Definition bsr_bytes (bsr : bsr_arg) : list Z :=
  match bsr with
  | No_bsr => []
  | Truncated_bsr b | Short_bsr b => [b]
  | Long_bsr sizes => bsr_long_bytes sizes
  end.

(** [power_headroom] is the byte of the control element; [crnti] is stored in
    the order of the host, little endian. *)
Definition generate_ulsch_header (header : list Z) (sdus : list (Z * Z)) (short_padding : Z) (power_headroom crnti : option Z)
    (bsr : bsr_arg) (post_padding : Z) : res (Z * list Z) :=
  w ← short_padding_subheaders short_padding (start_header header);
  w ← when (bool_decide (is_Some power_headroom)) (ce_subheader POWER_HEADROOM) w;
  w ← when (bool_decide (is_Some crnti)) (ce_subheader CRNTI) w;
  w ← bsr_subheader bsr w;
  w ← sdu_subheaders sdus w;
  w ← end_of_header post_padding w;
  copy_control_elements
    (match power_headroom with Some b => [b] | None => [] end ++
     match crnti with Some r => [Z.land r 0xff; Z.land (Z.shiftr r 8) 0xff] | None => [] end ++ bsr_bytes bsr) w.

(** ** Reading *)

(** What a parser has found: the pointer, [rx_ces], and [rx_lcids] with
    [rx_lengths]. *)
Record parsed : Type := mk_parsed { parsed_ptr : nat; rx_ces : list Z; rx_sdus : list (Z * Z); ce_len : Z }.
#[export] Instance settable_parsed : Settable parsed := 
  fun s => mk_parsed (parsed_ptr s) (rx_ces s) (rx_sdus s) (ce_len s).

(** The length of the last SDU, when it has no length field. *)
Definition implicit_length (tb_length : Z) (p : nat) (ce_len : Z) (sdus : list (Z * Z)) : Z :=
  fold_left (fun len sdu => u16 (len - snd sdu)) sdus (u16 (tb_length - Z.of_nat p - ce_len)).

(** The length of an SDU that is not the last, and the size of its
    subheader. *)
Definition explicit_length (header : list Z) (p : nat) : res (Z * nat) :=
  f ← get header (p + 1);
  if Z.testbit f 7 then
    lsb ← get header (p + 2);
    Ok (Z.lor (Z.shiftl (Z.land f 0x7f) 8) (Z.land lsb 0xff), 3%nat)
  else Ok (Z.land f 0x7f, 2%nat).

(** The parsers differ in the first LCID that is no SDU ([limit]) and in the
    sizes of the control elements ([ce_size], which may stop the program). The
    callers' arrays have [MAX_NUM_CE] and [NB_RB_MAX] elements. Every turn
    moves the pointer, so that the length of the buffer is enough fuel. *)
Fixpoint parse_loop (fuel : nat) (limit : Z) (ce_size : Z -> res Z) (header : list Z) (tb_length : Z) (s : parsed) : res parsed :=
  match fuel with
  | O => Fault OutOfFuel
  | S fuel' =>
      v ← get header (parsed_ptr s);
      let last := negb (Z.testbit v 5) in
      let lcid := Z.land v 0x1f in
      s ← (if lcid <? limit then
             '(len, size) ← (if last
                             then Ok (implicit_length tb_length (parsed_ptr s + 1) (ce_len s) (rx_sdus s), 1%nat)
                             else explicit_length header (parsed_ptr s));
             if Z.of_nat (length (rx_sdus s)) <? NB_RB_MAX then
               Ok (s <| parsed_ptr ::= fun p => (p + size)%nat |> <| rx_sdus ::= fun l => l ++ [(lcid, len)] |>)
             else Fault OutOfBounds
           else if lcid =? SHORT_PADDING then Ok (s <| parsed_ptr ::= S |>)
           else if Z.of_nat (length (rx_ces s)) <? MAX_NUM_CE then
             n ← ce_size lcid;
             Ok (s <| parsed_ptr ::= S |> <| rx_ces ::= fun l => l ++ [lcid] |> <| ce_len ::= fun c => u16 (c + n) |>)
           else Fault OutOfBounds);
      if last then Ok s else parse_loop fuel' limit ce_size header tb_length s
  end.

Definition parse (limit : Z) (ce_size : Z -> res Z) (header : list Z) (tb_length : Z) : res parsed :=
  parse_loop (S (length header)) limit ce_size header tb_length (mk_parsed 0 [] [] 0).

Definition dlsch_ce_size (lcid : Z) : res Z :=
  Ok (if lcid =? TIMING_ADV_CMD then 1 else if lcid =? UE_CONT_RES then 6 else 0).

Definition ulsch_ce_size (lcid : Z) : res Z :=
  if lcid =? LONG_BSR then Ok 3
  else if lcid =? CRNTI then Ok 2
  else if (lcid =? POWER_HEADROOM) || (lcid =? TRUNCATED_BSR) || (lcid =? SHORT_BSR) then Ok 1
  else Fault AssertFatal.

Definition parse_header (header : list Z) (tb_length : Z) : res parsed := parse UE_CONT_RES dlsch_ce_size header tb_length.
Definition parse_ulsch_header (header : list Z) (tb_length : Z) : res parsed :=
  parse EXTENDED_POWER_HEADROOM ulsch_ce_size header tb_length.
Definition parse_mch_header (header : list Z) (tb_length : Z) : res parsed :=
  parse SHORT_PADDING (fun _ => Ok 0) header tb_length.

(** ** What the users of the headers share *)

(** The [n] bytes at [p]. *)
Definition bytes_at (block : list Z) (p : nat) (n : Z) : res (list Z) :=
  if (n <? 0) || (Z.of_nat (length block) <? Z.of_nat p + n) then Fault OutOfBounds
  else Ok (take (Z.to_nat n) (drop p block)).

(** The sizes that a buffer status report can name, in bytes (vars.h). *)
Definition BSR_TABLE : list Z :=
  [0; 10; 12; 14; 17; 19; 22; 26; 31; 36; 42; 49; 57; 67; 78; 91;
   105; 125; 146; 171; 200; 234; 274; 321; 376; 440; 515; 603; 706; 826; 967; 1132;
   1326; 1552; 1817; 2127; 2490; 2915; 3413; 3995; 4677; 5467; 6411; 7505; 8787; 10287; 12043; 14099;
   16507; 19325; 22624; 26487; 31009; 36304; 42502; 49759; 58255; 68201; 79846; 93479; 109439; 128125; 150000; 300000].

End MacHeader.
