(* ===== verification/MacHeaderProofs.v ===== *)
(** * The headers of MAC PDUs: proofs

    A header is a list of subheaders ([item]). [writes_items] relates the
    writer's buffer to the items written so far, [parse_items] is the parser
    on their bytes. *)

From S2P Require Import Prelude MacHeader.

Module MacHeaderProofs.
Import MacHeader.

(** The fields of a record that is written out. *)
Ltac wsimpl := unfold upd; cbn [mac_header header_ptr first_element last_size].

(** ** Subheaders *)

Inductive item : Type :=
| I_fixed (lcid : Z)
| I_sdu (lcid len : Z).

Definition item_bytes (it : item) : list Z :=
  match it with
  | I_fixed lcid => [Z.land lcid 0x1f]
  | I_sdu lcid len =>
      Z.land lcid 0x1f ::
      (if len <? 128 then [Z.land len 0x7f] else [Z.lor 0x80 (Z.land (Z.shiftr len 8) 0x7f); Z.land len 0xff])
  end.

(** The subheader when another one follows. *)
Definition marked (it : item) : list Z :=
  match item_bytes it with v :: rest => Z.lor v 0x20 :: rest | [] => [] end.

Definition flat (items : list item) : list Z := items ≫= marked.

Lemma length_marked it : length (marked it) = length (item_bytes it).
Proof. by destruct it. Qed.

Lemma flat_app xs ys : flat (xs ++ ys) = flat xs ++ flat ys.
Proof. apply bind_app. Qed.

Lemma flat_snoc xs x : flat (xs ++ [x]) = flat xs ++ marked x.
Proof. rewrite flat_app. cbn. by rewrite app_nil_r. Qed.

(** ** The buffer *)

Lemma get_at pre x rest p : p = length pre -> get (pre ++ x :: rest) p = Ok x.
Proof. intros ->. unfold get. by rewrite list_lookup_middle. Qed.

Lemma put_at pre x rest p v : p = length pre -> put (pre ++ x :: rest) p v = Ok (pre ++ v :: rest).
Proof.
  intros ->. unfold put. rewrite (proj2 (Nat.ltb_lt _ _)) by (rewrite length_app; simpl; lia).
  f_equal. rewrite insert_app_r_alt, Nat.sub_diag by lia. done.
Qed.

Lemma put_bytes_at bytes pre rest p : p = length pre -> (length bytes <= length rest)%nat ->
  put_bytes bytes (pre ++ rest) p = Ok (pre ++ bytes ++ drop (length bytes) rest).
Proof.
  revert pre rest p. induction bytes as [|v bytes IH]; intros pre rest p -> H; [done|].
  destruct rest as [|x rest]; [simpl in H; lia|]. cbn [put_bytes]. rewrite (put_at pre x) by done. step_ok.
  replace (pre ++ v :: rest) with ((pre ++ [v]) ++ rest) by (by rewrite <- app_assoc).
  rewrite IH by (rewrite ?length_app; simpl in *; lia). by rewrite <- app_assoc.
Qed.

(** ** The writer *)

Inductive wrote : list item -> list Z -> writer -> Prop :=
| wrote_none rest : wrote [] rest (mk_writer rest 0 false 0)
| wrote_some items it rest :
    wrote (items ++ [it]) rest (mk_writer (flat items ++ item_bytes it ++ rest) (length (flat items)) true (length (item_bytes it))).

(** [op] writes the subheader [it]: [n] bytes from the pointer are touched. *)
Definition writes (op : writer -> res writer) (it : item) (n : nat) (ok : list item -> Prop) : Prop :=
  forall items rest w, wrote items rest w -> ok items -> (n <= length rest)%nat ->
    exists w' rest', op w = Ok w' /\ wrote (items ++ [it]) rest' w' /\ length rest = (length (item_bytes it) + length rest')%nat.

Definition only_fixed (items : list item) : Prop := Forall (fun it => exists l, it = I_fixed l) items.

Lemma set_E_at items it rest : set_E (mk_writer (flat items ++ item_bytes it ++ rest) (length (flat items)) true (length (item_bytes it))) =
  Ok (mk_writer (flat items ++ marked it ++ rest) (length (flat items)) true (length (item_bytes it))).
Proof.
  unfold set_E. cbn [mac_header header_ptr]. unfold marked. destruct (item_bytes it) as [|v r] eqn:E; [by destruct it|].
  cbn [app]. rewrite get_at by done. step_ok. rewrite put_at by done. step_ok. wsimpl. done.
Qed.

Lemma put_fixed_at pre x rest f s lcid : put_fixed lcid (mk_writer (pre ++ x :: rest) (length pre) f s) =
  Ok (mk_writer (pre ++ Z.land lcid 0x1f :: rest) (length pre) f s).
Proof. unfold put_fixed. cbn [mac_header header_ptr]. rewrite put_at by done. step_ok. by wsimpl. Qed.

(** To the next subheader, by the size of the last. *)
Lemma advance items it rest : skip (length (item_bytes it)) (mk_writer (flat items ++ marked it ++ rest) (length (flat items)) true (length (item_bytes it))) =
  mk_writer (flat (items ++ [it]) ++ rest) (length (flat (items ++ [it]))) true (length (item_bytes it)).
Proof. unfold skip. wsimpl. by rewrite flat_snoc, length_app, length_marked, app_assoc. Qed.

Lemma writes_ce lcid : writes (ce_subheader lcid) (I_fixed lcid) 1 only_fixed.
Proof.
  intros items rest w [r|ds it r] F Hn; unfold ce_subheader; (destruct r as [|x r]; [simpl in Hn; lia|]).
  - cbn [first_element]. step_ok. wsimpl. pose proof (put_fixed_at [] x r true 0 lcid) as E. cbn [app length] in E. rewrite E. step_ok. wsimpl. eexists _, r.
    split; [reflexivity|]. split; [exact (wrote_some [] (I_fixed lcid) r)|done].
  - cbn [first_element]. rewrite set_E_at. step_ok. apply Forall_app in F as [_ [[l ->] _]%Forall_cons].
    rewrite (advance ds (I_fixed l)). step_ok. rewrite put_fixed_at. step_ok. wsimpl. eexists _, r.
    split; [reflexivity|]. split; [exact (wrote_some (ds ++ [I_fixed l]) (I_fixed lcid) r)|done].
Qed.

Lemma writes_sdu lcid len : writes (sdu_subheader (lcid, len)) (I_sdu lcid len) 4 (fun _ => True).
Proof.
  intros items rest w Hw _ Hn.
  assert (exists f s pre, (if first_element w then w' ← set_E w; Ok (skip (last_size w') w') else Ok (w <| first_element := true |>)) =
    Ok (mk_writer (pre ++ rest) (length pre) f s) /\ f = true /\ pre = flat items) as (f & s & pre & E & -> & ->).
  { destruct Hw as [r|ds it r].
    - exists true, 0%nat, []. done.
    - cbn [first_element]. rewrite set_E_at. step_ok. cbn [last_size]. rewrite advance. eexists true, _, _. done. }
  unfold sdu_subheader. rewrite E. step_ok. destruct rest as [|x0 [|x1 [|x2 [|x3 r]]]]; try (simpl in Hn; lia).
  rewrite put_fixed_at. step_ok. cbn [header_ptr mac_header].
  pose proof (wrote_some items (I_sdu lcid len)) as Q. unfold item_bytes in *. destruct (len <? 128).
  - replace (flat items ++ Z.land lcid 31 :: x1 :: x2 :: x3 :: r) with ((flat items ++ [Z.land lcid 31]) ++ x1 :: x2 :: x3 :: r)
      by (by rewrite <- app_assoc).
    rewrite put_at by (rewrite length_app; done). step_ok. wsimpl. eexists _, (x2 :: x3 :: r).
    split; [reflexivity|]. rewrite <- app_assoc. split; [apply Q|done].
  - replace (flat items ++ Z.land lcid 31 :: x1 :: x2 :: x3 :: r) with ((flat items ++ [Z.land lcid 31]) ++ x1 :: x2 :: x3 :: r)
      by (by rewrite <- app_assoc).
    rewrite put_at by (rewrite length_app; done). step_ok. set (y := Z.lor 128 _).
    replace ((flat items ++ [Z.land lcid 31]) ++ y :: x2 :: x3 :: r) with ((flat items ++ [Z.land lcid 31; y]) ++ x2 :: x3 :: r)
      by (by rewrite <- !app_assoc).
    rewrite put_at by (rewrite length_app; done). step_ok. set (z := Z.land len 255).
    replace ((flat items ++ [Z.land lcid 31; y]) ++ z :: x3 :: r) with ((flat items ++ [Z.land lcid 31; y; z]) ++ x3 :: r)
      by (by rewrite <- !app_assoc).
    rewrite put_at by (rewrite length_app; done). step_ok. wsimpl. eexists _, (0 :: r).
    split; [reflexivity|]. rewrite <- app_assoc. split; [apply Q|done].
Qed.

(** [op] writes the subheaders [its]. Three bytes more than they take are
    enough room, because of the fourth byte of the long subheader. *)
Definition writes_all (op : writer -> res writer) (its : list item) : Prop :=
  forall items rest w, wrote items rest w -> only_fixed items -> (length (flat its) + 3 <= length rest)%nat ->
    exists w' rest', op w = Ok w' /\ wrote (items ++ its) rest' w' /\ length rest = (length (flat its) + length rest')%nat.

Lemma writes_all_nil op : (forall w, op w = Ok w) -> writes_all op [].
Proof. intros H items rest w Hw _ _. exists w, rest. rewrite app_nil_r. by split_and!. Qed.

Lemma writes_all_ce lcid : writes_all (ce_subheader lcid) [I_fixed lcid].
Proof.
  intros items rest w Hw F Hn. destruct (writes_ce lcid items rest w Hw F ltac:(simpl in Hn; lia)) as (w' & rest' & E & Hw' & Hl). eauto.
Qed.

Lemma writes_all_bind op1 op2 its1 its2 : writes_all op1 its1 -> only_fixed its1 -> writes_all op2 its2 ->
  writes_all (fun w => w ← op1 w; op2 w) (its1 ++ its2).
Proof.
  intros H1 F1 H2 items rest w Hw F Hn. rewrite flat_app, length_app in Hn.
  destruct (H1 items rest w Hw F ltac:(lia)) as (w1 & rest1 & E1 & Hw1 & L1). rewrite E1. step_ok.
  destruct (H2 (items ++ its1) rest1 w1 Hw1) as (w2 & rest2 & E2 & Hw2 & L2); [by apply Forall_app|lia|].
  exists w2, rest2. rewrite app_assoc, flat_app, length_app. split_and!; [done|done|lia].
Qed.

Definition when_item (b : bool) (lcid : Z) : list item := if b then [I_fixed lcid] else [].

Lemma writes_all_when b lcid : writes_all (when b (ce_subheader lcid)) (when_item b lcid).
Proof. destruct b; [apply writes_all_ce|by apply writes_all_nil]. Qed.

Lemma only_fixed_when b lcid : only_fixed (when_item b lcid).
Proof. destruct b; repeat constructor. by eexists. Qed.

Definition sdu_items (sdus : list (Z * Z)) : list item := (fun s => I_sdu (fst s) (snd s)) <$> sdus.

Lemma writes_sdus sdus items rest w : wrote items rest w -> (length (flat (sdu_items sdus)) + 3 <= length rest)%nat ->
  exists w' rest', sdu_subheaders sdus w = Ok w' /\ wrote (items ++ sdu_items sdus) rest' w' /\
    length rest = (length (flat (sdu_items sdus)) + length rest')%nat.
Proof.
  revert items rest w. induction sdus as [|[lcid len] sdus IH]; intros items rest w Hw Hn.
  { exists w, rest. cbn [sdu_items fmap list_fmap]. rewrite app_nil_r. by split_and!. }
  cbn [sdu_items fmap list_fmap fst snd flat mbind list_bind] in *. rewrite length_app, length_marked in *.
  destruct (writes_sdu lcid len items rest w Hw I) as (w1 & rest1 & E1 & Hw1 & L1); [cbn [item_bytes length] in Hn; case_match; simpl in *; lia|].
  cbn [sdu_subheaders]. rewrite E1. step_ok. destruct (IH _ rest1 w1 Hw1) as (w2 & rest2 & E2 & Hw2 & L2); [unfold flat, sdu_items; lia|].
  exists w2, rest2. rewrite E2, <- app_assoc in *. split_and!; [done|done|unfold flat, sdu_items in *; lia].
Qed.

Definition pad_items (short_padding : Z) : list item :=
  if short_padding =? 1 then [I_fixed SHORT_PADDING] else if short_padding =? 2 then [I_fixed SHORT_PADDING; I_fixed SHORT_PADDING] else [].

Lemma only_fixed_pads n : only_fixed (pad_items n).
Proof. unfold pad_items. repeat case_match; repeat constructor; by eexists. Qed.

Lemma writes_pads n rest : (length (flat (pad_items n)) + 3 <= length rest)%nat ->
  exists w' rest', short_padding_subheaders n (start_header rest) = Ok w' /\ wrote (pad_items n) rest' w' /\
    length rest = (length (flat (pad_items n)) + length rest')%nat.
Proof.
  intros H. unfold short_padding_subheaders, pad_items, start_header in *. destruct (Z.eqb_spec n 1) as [->|H1]; [|destruct (Z.eqb_spec n 2) as [->|H2]].
  - destruct rest as [|x r]; [simpl in H; lia|]. cbn [orb]. pose proof (put_fixed_at [] x r false 0 SHORT_PADDING) as E. cbn [app length] in E.
    rewrite E. repeat step_ok. cbn [Z.eqb]. eexists _, r. split; [reflexivity|]. split; [exact (wrote_some [] (I_fixed SHORT_PADDING) r)|done].
  - destruct rest as [|x [|y r]]; try (simpl in H; lia). cbn [orb]. pose proof (put_fixed_at [] x (y :: r) false 0 SHORT_PADDING) as E. cbn [app length] in E.
    rewrite E. repeat step_ok. cbn [Z.eqb Pos.eqb].
    wsimpl. change (mk_writer (Z.land SHORT_PADDING 31 :: y :: r) 0 true 1) with
      (mk_writer (flat [] ++ item_bytes (I_fixed SHORT_PADDING) ++ y :: r) (length (flat [])) true (length (item_bytes (I_fixed SHORT_PADDING)))).
    rewrite set_E_at. step_ok. rewrite (advance [] (I_fixed SHORT_PADDING)).
    rewrite put_fixed_at. repeat step_ok. wsimpl. eexists _, r.
    split; [reflexivity|]. split; [exact (wrote_some [I_fixed SHORT_PADDING] (I_fixed SHORT_PADDING) r)|done].
  - cbn [orb]. step_ok. eexists _, rest. split; [reflexivity|]. split; [constructor|done].
Qed.

(** The subheaders of a header, and how it ends. *)
Definition header_bytes (items : list item) (it : item) (post_padding : Z) : list Z :=
  if 0 <? post_padding then flat (items ++ [it]) ++ [31] else flat items ++ take 1 (item_bytes it).

Lemma end_spec items it rest w post : wrote (items ++ [it]) rest w -> (1 <= length rest)%nat ->
  exists rest', end_of_header post w = Ok (mk_writer (header_bytes items it post ++ rest') (length (header_bytes items it post)) true (length (item_bytes it))) /\
    (length (header_bytes items it post) + length rest' = length (flat items) + length (item_bytes it) + length rest)%nat.
Proof.
  intros Hw Hn. inversion Hw as [? Q|items' it' rest' Q]; [by apply app_cons_not_nil in Q|].
  apply app_inj_tail in Q as [-> ->]. subst. unfold end_of_header, header_bytes. destruct (0 <? post).
  - destruct rest as [|x r]; [simpl in Hn; lia|]. rewrite set_E_at. step_ok. cbn [last_size]. rewrite advance, put_fixed_at. step_ok.
    exists r. unfold skip. wsimpl. change (Z.land SHORT_PADDING 31) with 31. rewrite length_app, <- app_assoc. split; [done|].
    rewrite flat_snoc, !length_app, length_marked. cbn [length]. lia.
  - exists (drop 1 (item_bytes it) ++ rest). unfold skip. wsimpl.
    assert (L : length (take 1 (item_bytes it)) = 1%nat) by (by destruct it).
    rewrite !length_app, L, <- app_assoc, (app_assoc (take 1 _)), take_drop. split; [done|].
    rewrite length_drop. assert (1 <= length (item_bytes it))%nat by (destruct it; simpl; lia). lia.
Qed.

(** From the control elements on: the rest of both generators. *)
Lemma generate_rest fixed sdus post ces items it rest w : wrote fixed rest w -> fixed ++ sdu_items sdus = items ++ [it] ->
  (length (flat (sdu_items sdus)) + 4 + length ces <= length rest)%nat ->
  exists rest', (w ← sdu_subheaders sdus w; w ← end_of_header post w; copy_control_elements ces w) =
      Ok (u8 (Z.of_nat (length (header_bytes items it post ++ ces))), header_bytes items it post ++ ces ++ rest') /\
    (length (header_bytes items it post ++ ces) + length rest' = length (flat fixed) + length rest)%nat.
Proof.
  intros Hw Ei Hn. destruct (writes_sdus sdus fixed rest w Hw ltac:(lia)) as (w1 & rest1 & E1 & Hw1 & L1). rewrite E1. step_ok.
  rewrite Ei in Hw1. destruct (end_spec items it rest1 w1 post Hw1 ltac:(lia)) as (rest2 & E2 & L2). rewrite E2. step_ok.
  unfold copy_control_elements. wsimpl.
  assert (Ef : (length (flat items) + length (item_bytes it) = length (flat fixed) + length (flat (sdu_items sdus)))%nat).
  { rewrite <- length_marked, <- !length_app, <- flat_snoc, <- Ei, flat_app. done. }
  assert (Hh : (length (header_bytes items it post) <= length (flat items) + length (item_bytes it) + 1)%nat).
  { unfold header_bytes. case_match; rewrite !length_app, ?flat_snoc, ?length_app, ?length_marked, ?length_take; cbn [length]; lia. }
  rewrite put_bytes_at by (done || lia). step_ok. exists (drop (length ces) rest2). rewrite length_app. split; [done|].
  rewrite length_drop. lia.
Qed.

(** The paddings in front and three possible control elements: the part before
    the SDUs of both generators. *)
Lemma generate_fixed {A} sp op1 op2 op3 its1 its2 its3 header (k : writer -> res A) :
  writes_all op1 its1 -> writes_all op2 its2 -> writes_all op3 its3 -> only_fixed its1 -> only_fixed its2 -> only_fixed its3 ->
  let fixed := pad_items sp ++ its1 ++ its2 ++ its3 in
  (length (flat fixed) + 3 <= length header)%nat ->
  exists w rest, (w ← short_padding_subheaders sp (start_header header); w ← op1 w; w ← op2 w; w ← op3 w; k w) = k w /\
    wrote fixed rest w /\ length header = (length (flat fixed) + length rest)%nat.
Proof.
  intros H1 H2 H3 F1 F2 F3 fixed Hn. unfold fixed in *. set (ps := pad_items sp) in *. rewrite !flat_app, !length_app in *.
  pose proof (only_fixed_pads sp) as F0. fold ps in F0.
  destruct (writes_pads sp header) as (w1 & r1 & E1 & W1 & L1); [fold ps; lia|]. rewrite E1. step_ok. fold ps in W1, L1.
  destruct (H1 ps r1 w1 W1 F0 ltac:(lia)) as (w2 & r2 & E2 & W2 & L2). rewrite E2. step_ok.
  destruct (H2 _ r2 w2 W2) as (w3 & r3 & E3 & W3 & L3); [by apply Forall_app|lia|]. rewrite E3. step_ok.
  destruct (H3 _ r3 w3 W3) as (w4 & r4 & E4 & W4 & L4); [by unfold only_fixed; rewrite !Forall_app|lia|]. rewrite E4. step_ok.
  exists w4, r4. rewrite <- !app_assoc in W4. split_and!; [done|done|lia].
Qed.

Definition dlsch_fixed (drx_cmd timing_advance_cmd : Z) (ue_cont_res_id : option (list Z)) (short_padding : Z) : list item :=
  pad_items short_padding ++ when_item (negb (drx_cmd =? 255)) DRX_CMD ++
  when_item (negb (timing_advance_cmd =? 0)) TIMING_ADV_CMD ++ when_item (bool_decide (is_Some ue_cont_res_id)) UE_CONT_RES.

Definition dlsch_ces (timing_advance_cmd : Z) (ue_cont_res_id : option (list Z)) : list Z :=
  (if negb (timing_advance_cmd =? 0) then [Z.land (timing_advance_cmd + 31) 0x3f] else []) ++
  match ue_cont_res_id with Some id => take 6 id | None => [] end.

Definition bsr_item (bsr : bsr_arg) : list item :=
  match bsr with
  | No_bsr => []
  | Truncated_bsr _ => [I_fixed TRUNCATED_BSR]
  | Short_bsr _ => [I_fixed SHORT_BSR]
  | Long_bsr _ => [I_fixed LONG_BSR]
  end.

Definition ulsch_fixed (power_headroom crnti : option Z) (bsr : bsr_arg) (short_padding : Z) : list item :=
  pad_items short_padding ++ when_item (bool_decide (is_Some power_headroom)) POWER_HEADROOM ++
  when_item (bool_decide (is_Some crnti)) CRNTI ++ bsr_item bsr.

Definition ulsch_ces (power_headroom crnti : option Z) (bsr : bsr_arg) : list Z :=
  match power_headroom with Some b => [b] | None => [] end ++
  match crnti with Some r => [Z.land r 0xff; Z.land (Z.shiftr r 8) 0xff] | None => [] end ++ bsr_bytes bsr.

(** What a generator makes: the header, the control elements, and the rest of
    the buffer, changed. *)
Definition generates (r : res (Z * list Z)) (header : list Z) (items : list item) (it : item) (post : Z) (ces : list Z) : Prop :=
  let h := header_bytes items it post ++ ces in
  exists rest, r = Ok (u8 (Z.of_nat (length h)), h ++ rest) /\ (length h + length rest = length header)%nat.

Lemma generates_rest fixed sdus post ces items it rest w header : wrote fixed rest w -> fixed ++ sdu_items sdus = items ++ [it] ->
  length header = (length (flat fixed) + length rest)%nat -> (length (flat (items ++ [it])) + 4 + length ces <= length header)%nat ->
  generates (w ← sdu_subheaders sdus w; w ← end_of_header post w; copy_control_elements ces w) header items it post ces.
Proof.
  intros Hw Ei Hl Hn. rewrite <- Ei, flat_app, length_app in Hn.
  destruct (generate_rest fixed sdus post ces items it rest w Hw Ei ltac:(lia)) as (r & E & L). exists r. rewrite E, <- app_assoc. split; [done|lia].
Qed.

Lemma generate_dlsch_spec header sdus drx ta cr sp post items it :
  dlsch_fixed drx ta cr sp ++ sdu_items sdus = items ++ [it] ->
  (length (flat (items ++ [it])) + 4 + length (dlsch_ces ta cr) <= length header)%nat ->
  generates (generate_dlsch_header header sdus drx ta cr sp post) header items it post (dlsch_ces ta cr).
Proof.
  intros Ei Hn. unfold generate_dlsch_header. pose proof Hn as Hn'. rewrite <- Ei, flat_app, length_app in Hn'.
  edestruct (generate_fixed (A := Z * list Z) sp) as (w & rest & E & W & L);
    [apply writes_all_when|apply writes_all_when|apply writes_all_when|apply only_fixed_when|apply only_fixed_when|apply only_fixed_when| |rewrite E].
  - unfold dlsch_fixed in Hn'. lia.
  - by eapply generates_rest.
Qed.

Lemma generate_ulsch_spec header sdus phr crnti bsr sp post items it :
  ulsch_fixed phr crnti bsr sp ++ sdu_items sdus = items ++ [it] ->
  (length (flat (items ++ [it])) + 4 + length (ulsch_ces phr crnti bsr) <= length header)%nat ->
  generates (generate_ulsch_header header sdus sp phr crnti bsr post) header items it post (ulsch_ces phr crnti bsr).
Proof.
  intros Ei Hn. unfold generate_ulsch_header. pose proof Hn as Hn'. rewrite <- Ei, flat_app, length_app in Hn'.
  assert (B : writes_all (bsr_subheader bsr) (bsr_item bsr) /\ only_fixed (bsr_item bsr)).
  { destruct bsr; split; first [apply writes_all_ce|by apply writes_all_nil|repeat constructor; by eexists]. }
  edestruct (generate_fixed (A := Z * list Z) sp) as (w & rest & E & W & L);
    [apply writes_all_when|apply writes_all_when|apply B|apply only_fixed_when|apply only_fixed_when|apply B| |rewrite E].
  - unfold ulsch_fixed in Hn'. lia.
  - by eapply generates_rest.
Qed.

(** ** The parser *)

Lemma subheader_byte l : 0 <= l < 32 ->
  Z.testbit (Z.lor (Z.land l 31) 32) 5 = true /\ Z.land (Z.lor (Z.land l 31) 32) 31 = l /\
  Z.testbit (Z.land l 31) 5 = false /\ Z.land (Z.land l 31) 31 = l.
Proof.
  intros H. assert (A : Forall (fun l => Z.testbit (Z.lor (Z.land l 31) 32) 5 = true /\ Z.land (Z.lor (Z.land l 31) 32) 31 = l /\
    Z.testbit (Z.land l 31) 5 = false /\ Z.land (Z.land l 31) 31 = l) (seqZ 0 32)) by (apply (bool_decide_unpack _); vm_compute; exact I).
  rewrite Forall_forall in A. apply A, elem_of_seqZ. lia.
Qed.

Lemma length_byte v : 0 <= v < 128 ->
  Z.land v 127 = v /\ Z.testbit v 7 = false /\ Z.testbit (Z.lor 128 v) 7 = true /\ Z.land (Z.lor 128 v) 127 = v.
Proof.
  intros H. assert (A : Forall (fun v => Z.land v 127 = v /\ Z.testbit v 7 = false /\ Z.testbit (Z.lor 128 v) 7 = true /\ Z.land (Z.lor 128 v) 127 = v)
    (seqZ 0 128)) by (apply (bool_decide_unpack _); vm_compute; exact I).
  rewrite Forall_forall in A. apply A, elem_of_seqZ. lia.
Qed.

Lemma explicit_length_at pre l len more : 0 <= len < 2 ^ 15 ->
  explicit_length (pre ++ marked (I_sdu l len) ++ more) (length pre) = Ok (len, length (item_bytes (I_sdu l len))).
Proof.
  intros H. unfold explicit_length, marked, item_bytes. destruct (Z.ltb_spec len 128) as [Hs|Hs]; cbn [app].
  - destruct (length_byte len ltac:(lia)) as (-> & B & _ & _). set (v := Z.lor _ 32).
    replace (pre ++ v :: len :: more) with ((pre ++ [v]) ++ len :: more) by (by rewrite <- app_assoc).
    rewrite (get_at _ _ _ (length pre + 1)) by (rewrite length_app; done). step_ok. rewrite B. destruct (length_byte len ltac:(lia)) as (-> & _). done.
  - assert (Hq : 0 <= Z.shiftr len 8 < 128) by (rewrite Z.shiftr_div_pow2 by lia; div_lia).
    destruct (length_byte _ Hq) as (-> & _ & B & M). set (v := Z.lor _ 32). set (f := Z.lor 128 _) in *. set (lsb := Z.land len 255).
    replace (pre ++ v :: f :: lsb :: more) with ((pre ++ [v]) ++ f :: lsb :: more) by (by rewrite <- app_assoc).
    rewrite (get_at _ _ _ (length pre + 1)) by (rewrite length_app; done). step_ok. rewrite B.
    replace ((pre ++ [v]) ++ f :: lsb :: more) with ((pre ++ [v; f]) ++ lsb :: more) by (by rewrite <- !app_assoc).
    rewrite get_at by (rewrite length_app; done). step_ok. rewrite M. do 2 f_equal. unfold lsb.
    rewrite <- Z.land_assoc. change (Z.land 255 255) with (Z.ones 8). rewrite Z.land_ones by lia.
    rewrite (lor_disjoint _ _ 8), Z.shiftl_mul_pow2, Z.shiftr_div_pow2 by (try lia; rewrite ?Z.shiftl_mul_pow2 by lia; div_lia). div_lia.
Qed.

(** What a parser finds in the subheaders [items]. *)
Definition ces_of (items : list item) : list Z :=
  omap (fun it => match it with I_fixed l => if l =? SHORT_PADDING then None else Some l | I_sdu _ _ => None end) items.
Definition sdus_of (items : list item) : list (Z * Z) :=
  omap (fun it => match it with I_fixed _ => None | I_sdu l len => Some (l, len) end) items.

Lemma ces_of_app xs ys : ces_of (xs ++ ys) = ces_of xs ++ ces_of ys.
Proof. apply omap_app. Qed.
Lemma sdus_of_app xs ys : sdus_of (xs ++ ys) = sdus_of xs ++ sdus_of ys.
Proof. apply omap_app. Qed.

Lemma foldr_add_app xs ys : foldr Z.add 0 (xs ++ ys) = foldr Z.add 0 xs + foldr Z.add 0 ys.
Proof. induction xs; simpl; lia. Qed.

Lemma implicit_u16 (lens : list (Z * Z)) v :
  fold_left (fun len sdu => u16 (len - snd sdu)) lens (u16 v) = u16 (v - foldr Z.add 0 (snd <$> lens)).
Proof.
  revert v. induction lens as [|[l n] lens IH]; intros v; cbn [fold_left fmap list_fmap foldr snd]; [by rewrite Z.sub_0_r|].
  replace (u16 (u16 v - n)) with (u16 (v - n)) by (unfold u16; by rewrite Zminus_mod_idemp_l). rewrite IH. f_equal. lia.
Qed.

Definition sdus_size (sdus : list (Z * Z)) : Z := foldr Z.add 0 (snd <$> sdus).

Section Parser.
Context (limit : Z) (ce_size : Z -> res Z) (size : Z -> Z).
Hypothesis Limit : 0 <= limit < 32.

Definition item_ok (it : item) : Prop :=
  match it with
  | I_fixed l => limit <= l < 32 /\ (l <> SHORT_PADDING -> ce_size l = Ok (size l) /\ 0 <= size l)
  | I_sdu l len => 0 <= l < limit /\ 0 <= len < 2 ^ 15
  end.

Definition ces_size (items : list item) : Z := foldr Z.add 0 (size <$> ces_of items).

Lemma parse_item f pre it more tb ces sdus cl : item_ok it -> 0 <= cl -> cl + ces_size [it] < 2 ^ 16 ->
  Z.of_nat (length ces + length (ces_of [it])) <= MAX_NUM_CE -> Z.of_nat (length sdus + length (sdus_of [it])) <= NB_RB_MAX ->
  let buf := pre ++ marked it ++ more in
  parse_loop (S f) limit ce_size buf tb (mk_parsed (length pre) ces sdus cl) =
  parse_loop f limit ce_size buf tb (mk_parsed (length (pre ++ marked it)) (ces ++ ces_of [it]) (sdus ++ sdus_of [it]) (cl + ces_size [it])).
Proof using All.
  intros Hit H0 H1 H2 H3 buf. rewrite length_app, length_marked. cbn [parse_loop parsed_ptr].
  assert (G : get buf (length pre) = Ok (Z.lor (Z.land (match it with I_fixed l | I_sdu l _ => l end) 31) 32))
    by (unfold buf, marked; destruct it; cbn [item_bytes app]; by rewrite get_at).
  destruct it as [l|l len].
  - destruct Hit as [Hl Hs]. rewrite G. step_ok.
    destruct (subheader_byte l ltac:(lia)) as (-> & -> & _). cbn [negb]. rewrite (proj2 (Z.ltb_ge _ _)) by lia.
    unfold ces_of, sdus_of, ces_size, ces_of in *. cbn [omap list_omap length] in *. rewrite !app_nil_r.
    destruct (Z.eqb_spec l SHORT_PADDING) as [->|Hn]; cbn [length fmap list_fmap foldr] in *.
    + step_ok. unfold upd. cbn [parsed_ptr rx_ces rx_sdus ce_len]. by rewrite app_nil_r, Z.add_0_r, Nat.add_1_r.
    + destruct (Hs Hn) as [E Hp]. cbn [rx_ces]. rewrite (proj2 (Z.ltb_lt _ _)) by lia. rewrite E. repeat step_ok. unfold upd.
      cbn [parsed_ptr rx_ces rx_sdus ce_len]. by rewrite Z.add_0_r in *; rewrite Nat.add_1_r, u16_small by lia.
  - destruct Hit as [Hl Hs]. rewrite G. step_ok.
    destruct (subheader_byte l ltac:(lia)) as (-> & -> & _). cbn [negb]. rewrite (proj2 (Z.ltb_lt _ _)) by lia.
    assert (X : explicit_length buf (length pre) = Ok (len, length (item_bytes (I_sdu l len)))) by (by apply explicit_length_at).
    rewrite X. step_ok. unfold ces_of, sdus_of, ces_size, ces_of in *.
    cbn [omap list_omap length rx_sdus fmap list_fmap foldr] in *.
    rewrite (proj2 (Z.ltb_lt _ _)) by lia. repeat step_ok. unfold upd. cbn [parsed_ptr rx_ces rx_sdus ce_len].
    by rewrite Z.add_0_r, app_nil_r.
Qed.

Lemma ces_size_app xs ys : ces_size (xs ++ ys) = ces_size xs + ces_size ys.
Proof using Type. unfold ces_size. by rewrite ces_of_app, fmap_app, foldr_add_app. Qed.

Lemma ces_size_nonneg items : Forall item_ok items -> 0 <= ces_size items.
Proof using All.
  induction 1 as [|it items H _ IH]; [done|]. change (it :: items) with ([it] ++ items). rewrite ces_size_app.
  enough (0 <= ces_size [it]) by lia. unfold ces_size, ces_of. cbn [omap list_omap]. destruct it as [l|]; [|done].
  destruct (Z.eqb_spec l SHORT_PADDING) as [|N]; [done|]. destruct H as [_ H]. destruct (H N) as [_ ?]. simpl. lia.
Qed.

Lemma parse_items f items pre more tb ces sdus cl : Forall item_ok items -> 0 <= cl -> cl + ces_size items < 2 ^ 16 ->
  Z.of_nat (length ces + length (ces_of items)) <= MAX_NUM_CE -> Z.of_nat (length sdus + length (sdus_of items)) <= NB_RB_MAX ->
  let buf := pre ++ flat items ++ more in
  parse_loop (length items + f) limit ce_size buf tb (mk_parsed (length pre) ces sdus cl) =
  parse_loop f limit ce_size buf tb (mk_parsed (length (pre ++ flat items)) (ces ++ ces_of items) (sdus ++ sdus_of items) (cl + ces_size items)).
Proof using All.
  intros F. revert pre ces sdus cl. induction F as [|it items Hit F IH]; intros pre ces sdus cl H0 H1 H2 H3 buf.
  { unfold ces_size. cbn. by rewrite !app_nil_r, Z.add_0_r. }
  pose proof (ces_size_nonneg [it] ltac:(by constructor)) as N1. pose proof (ces_size_nonneg items F) as N2.
  change (it :: items) with ([it] ++ items) in *. unfold buf in *. rewrite ces_size_app, ces_of_app, sdus_of_app, !length_app in *. cbn [length Nat.add].
  rewrite flat_app, <- app_assoc. change (flat [it]) with (marked it ++ []). rewrite app_nil_r.
  rewrite parse_item by (done || lia).
  replace (pre ++ marked it ++ flat items ++ more) with ((pre ++ marked it) ++ flat items ++ more) by (by rewrite <- app_assoc).
  rewrite IH by (rewrite ?length_app; lia). rewrite !length_app, <- !app_assoc, Z.add_assoc, !Nat.add_assoc. done.
Qed.

(** A header is read back as it was written: the control elements, and the
    SDUs with their lengths, the last of which may be that of the rest of the
    block. *)
Lemma parse_header_bytes items it post tail tb :
  let all := items ++ [it] in
  let h := header_bytes items it post in
  Forall item_ok all -> ces_size all < 2 ^ 16 ->
  Z.of_nat (length (ces_of all)) <= MAX_NUM_CE -> Z.of_nat (length (sdus_of all)) <= NB_RB_MAX ->
  (0 < post \/ (exists l len, it = I_sdu l len) /\ tb = Z.of_nat (length h) + ces_size all + sdus_size (sdus_of all)) ->
  parse limit ce_size (h ++ tail) tb = Ok (mk_parsed (length h) (ces_of all) (sdus_of all) (ces_size all)).
Proof using All.
  intros all h F Hc He Hs Hp. unfold parse, h, header_bytes in *.
  assert (Fi : Forall item_ok items) by (by apply Forall_app in F as [? _]).
  assert (Ln : forall its, (length its <= length (flat its))%nat).
  { induction its as [|x its IH]; [done|]. change (x :: its) with ([x] ++ its). rewrite flat_app, !length_app. unfold flat at 1.
    cbn [mbind list_bind]. rewrite app_nil_r, length_marked. assert (1 <= length (item_bytes x))%nat by (destruct x; simpl; lia). cbn [length]. lia. }
  destruct (Z.ltb_spec 0 post) as [Hpost|Hpost].
  - fold all. set (buf := (flat all ++ [31]) ++ tail).
    assert (exists f, S (length buf) = (length all + S f)%nat) as [f ->].
    { exists (length buf - length all)%nat. pose proof (Ln all). unfold buf. rewrite !length_app. lia. }
    unfold buf. rewrite <- app_assoc. change (flat all ++ [31] ++ tail) with ([] ++ flat all ++ [31] ++ tail). change 0%nat with (@length Z []).
    rewrite parse_items by (done || lia). cbn [app]. cbn [parse_loop parsed_ptr]. rewrite get_at by done. step_ok.
    change (Z.testbit 31 5) with false. change (Z.land 31 31) with SHORT_PADDING. cbn [negb]. rewrite (proj2 (Z.ltb_ge _ _)) by (unfold SHORT_PADDING; lia).
    change (SHORT_PADDING =? SHORT_PADDING) with true. cbv iota. step_ok. unfold upd. cbn [parsed_ptr rx_ces rx_sdus ce_len]. by rewrite length_app, Nat.add_1_r.
  - destruct Hp as [|[(l & len & ->) Et]]; [lia|]. set (buf := (flat items ++ take 1 (item_bytes (I_sdu l len))) ++ tail).
    assert (exists f, S (length buf) = (length items + S f)%nat) as [f ->].
    { exists (length buf - length items)%nat. pose proof (Ln items). unfold buf. rewrite !length_app. lia. }
    unfold buf. rewrite <- app_assoc. set (rest := take 1 _ ++ tail). change (flat items ++ rest) with ([] ++ flat items ++ rest). change 0%nat with (@length Z []).
    unfold all in *. rewrite ces_size_app, ces_of_app, sdus_of_app, !length_app in *. change (ces_size [I_sdu l len]) with 0 in *.
    change (ces_of [I_sdu l len]) with (@nil Z) in *. change (sdus_of [I_sdu l len]) with [(l, len)] in *. cbn [length] in *.
    assert (take 1 (item_bytes (I_sdu l len)) = [Z.land l 31]) as Q by (cbn; by case_match). unfold rest. rewrite Q in *.
    apply Forall_app in F as [_ [[Hl Hlen] _]%Forall_cons].
    rewrite parse_items by (done || (cbn [length]; lia)). cbn [app]. cbn [parse_loop parsed_ptr rx_sdus ce_len]. rewrite get_at by done. step_ok.
    destruct (subheader_byte l ltac:(lia)) as (_ & _ & -> & ->). cbn [negb]. rewrite (proj2 (Z.ltb_lt _ _)) by lia. step_ok.
    unfold implicit_length. rewrite implicit_u16. rewrite (proj2 (Z.ltb_lt _ _)) by lia. step_ok. unfold upd. cbn [parsed_ptr rx_ces rx_sdus ce_len].
    unfold sdus_size in Et. rewrite fmap_app, foldr_add_app in Et. cbn [fmap list_fmap foldr snd length] in Et.
    rewrite app_nil_r, Z.add_0_r, Z.add_0_l. cbn [length] in *. rewrite u16_small by lia. do 5 f_equal. lia.
Qed.

End Parser.

End MacHeaderProofs.
