(* ===== verification/MacUe.v ===== *)
(** * MAC of the UE: transport blocks and buffer status

    ue_procedures.c of openair2/LAYER2/MAC: [ue_send_sdu], [ue_send_mch_sdu],
    [ue_get_sdu] and what they call, on the fields of [UE_MAC_INST] they use,
    over the RLC layer of [RlcLayer]. Calls of RRC and of the physical layer
    are listed. The contention based access (CBA) is not compiled in. *)

From S2P Require Import Prelude HashTable Collection RlcUmEntity RlcLayer MacHeader.

Module MacUe.
Import Collection RlcLayer MacHeader.

Definition MAX_NUM_LCGID : Z := 4.
Definition LCID_EMPTY : Z := 0.
Definition LCID_NOT_EMPTY : Z := 1.
Definition PHR_MAPPING_OFFSET : Z := 23.
Definition MAX_ULSCH_PAYLOAD_BYTES : Z := 16 * 768.

(** *** The instance *)

(** [UE_SCHEDULING_INFO]. *)
Record UE_SCHEDULING_INFO : Type := mk_sched {
  BSR : list Z; BSR_bytes : list Z; LCID_status : list Z; LCGID : list Z; SR_pending : Z; SR_COUNTER : Z;
  periodicPHR_Timer : Z; prohibitPHR_Timer : Z; periodicPHR_SF : Z; prohibitPHR_SF : Z
}.
#[export] Instance settable_sched : Settable UE_SCHEDULING_INFO := fun s =>
  mk_sched (BSR s) (BSR_bytes s) (LCID_status s) (LCGID s) (SR_pending s) (SR_COUNTER s)
    (periodicPHR_Timer s) (prohibitPHR_Timer s) (periodicPHR_SF s) (prohibitPHR_SF s).

Record UE_MAC_INST : Type := mk_ue {
  RA_active : Z; RA_contention_resolution_timer_active : Z; CCCH_pdu : list Z; mcch_status : Z; msi_status : Z;
  ul_active : Z; PHR_reporting_active : Z; scheduling_info : UE_SCHEDULING_INFO
}.
#[export] Instance settable_ue : Settable UE_MAC_INST := fun u =>
  mk_ue (RA_active u) (RA_contention_resolution_timer_active u) (CCCH_pdu u) (mcch_status u) (msi_status u)
    (ul_active u) (PHR_reporting_active u) (scheduling_info u).

(** What MAC calls above and below, but for RLC. *)
Inductive mac_call : Type :=
| Ra_failed
| Ra_succeeded
| Process_timing_advance (ta : Z)
| Mac_rrc_data_ind (channel : Z) (sdu : list Z).

(** ** Downlink: ue_send_sdu *)

(** The loop over [rx_ces], with [payload_ptr]. The comparison of the
    contention resolution identity uses the loop variable, which ends the loop;
    [None]: contention, the function returns. *)
Fixpoint ue_control_elements (block : list Z) (ces : list Z) (p : nat) (ue : UE_MAC_INST) (out : list mac_call) :
    res (option nat * UE_MAC_INST * list mac_call) :=
  match ces with
  | [] => Ok (Some p, ue, out)
  | ce :: rest =>
      if ce =? UE_CONT_RES then
        if RA_active ue =? 1 then
          id ← bytes_at block p 6;
          mine ← bytes_at (CCCH_pdu ue) 3 6;
          let ue := ue <| RA_active := 0 |> <| RA_contention_resolution_timer_active := 0 |> in
          if decide (mine = id) then Ok (Some (p + 6)%nat, ue, out ++ [Ra_succeeded])
          else Ok (None, ue, out ++ [Ra_failed])
        else ue_control_elements block rest (p + 6) ue out
      else if ce =? TIMING_ADV_CMD then
        v ← get block p; ue_control_elements block rest (S p) ue (out ++ [Process_timing_advance v])
      else if ce =? DRX_CMD then ue_control_elements block rest (S p) ue out
      else ue_control_elements block rest p ue out
  end.

Section Layer.
Context {T : Type} `{O : CollectionOps T rlc_union_t}.
Notation layer := (rlc_layer T).

(** The loop over [rx_lcids] and [rx_lengths]. *)
Fixpoint ue_deliver_sdus (c : layer_ctxt) (block : list Z) (sdus : list (Z * Z)) (p : nat) (l : layer) (out : list mac_call) :
    res (layer * list mac_call) :=
  match sdus with
  | [] => Ok (l, out)
  | (lcid, len) :: rest =>
      '(l, out) ← (if lcid =? CCCH then
                     sdu ← bytes_at block p len; Ok (l, out ++ [Mac_rrc_data_ind CCCH sdu])
                   else if (lcid =? DCCH) || (lcid =? DCCH1) || (lcid =? DTCH) then
                     l ← mac_rlc_data_ind c false lcid (drop p block) len 1 l; Ok (l, out)
                   else Ok (l, out));
      ue_deliver_sdus c block rest (p + Z.to_nat len) l out
  end.

Definition ue_send_sdu (c : layer_ctxt) (sdu : list Z) (sdu_len : Z) (ue : UE_MAC_INST) (l : layer) :
    res (UE_MAC_INST * layer * list mac_call) :=
  s ← parse_header sdu sdu_len;
  r ← ue_control_elements sdu (rx_ces s) (parsed_ptr s) ue [];
  match r with
  | (None, ue, out) => Ok (ue, l, out)
  | (Some p, ue, out) => '(l, out) ← ue_deliver_sdus c sdu (rx_sdus s) p l out; Ok (ue, l, out)
  end.

Definition MCH_SCHDL_INFO : Z := 3.
Definition MCCH_LCHANID : Z := 0.
Definition MCCH : Z := 4.
Definition MTCH : Z := 1.

Fixpoint ue_deliver_mch (c : layer_ctxt) (block : list Z) (sdus : list (Z * Z)) (p : nat) (ue : UE_MAC_INST) (l : layer) (out : list mac_call) :
    res (UE_MAC_INST * layer * list mac_call) :=
  match sdus with
  | [] => Ok (ue, l, out)
  | (lcid, len) :: rest =>
      '(ue, l, out) ← (if lcid =? MCH_SCHDL_INFO then
                         Ok (if mcch_status ue =? 1 then ue <| msi_status := 1 |> else ue, l, out)
                       else if lcid =? MCCH_LCHANID then
                         sdu ← bytes_at block p len; Ok (ue, l, out ++ [Mac_rrc_data_ind MCCH sdu])
                       else if lcid =? MTCH then
                         if msi_status ue =? 1 then l ← mac_rlc_data_ind c true MTCH (drop p block) len 1 l; Ok (ue, l, out)
                         else Ok (ue, l, out)
                       else Ok (ue, l, out));
      ue_deliver_mch c block rest (p + Z.to_nat len) ue l out
  end.

Definition ue_send_mch_sdu (c : layer_ctxt) (sdu : list Z) (sdu_len : Z) (ue : UE_MAC_INST) (l : layer) :
    res (UE_MAC_INST * layer * list mac_call) :=
  s ← parse_mch_header sdu sdu_len;
  ue_deliver_mch c sdu (rx_sdus s) (parsed_ptr s) ue l [].

(** ** Buffer status *)

(** The binary search of [locate]; [value] is compared as an unsigned number. *)
Fixpoint locate_loop (fuel : nat) (table : list Z) (value : Z) (ascend : bool) (jl ju : Z) : res (Z * Z) :=
  match fuel with
  | 0%nat => Fault OutOfFuel
  | S fuel' =>
      if 1 <? ju - jl then
        let jm := u8 (Z.shiftr (ju + jl) 1) in
        v ← get table (Z.to_nat jm);
        if eqb (v <=? u32 value) ascend then locate_loop fuel' table value ascend jm ju
        else locate_loop fuel' table value ascend jl jm
      else Ok (jl, ju)
  end.

Definition locate (table : list Z) (size value : Z) : res Z :=
  _ ← assert_fatal ((0 <? size) && (size <=? 256));
  if value =? 0 then Ok 0
  else
    let ju := u8 (size - 1) in
    first ← get table 0; last ← get table (Z.to_nat ju);
    '(jl, _) ← locate_loop 257 table value (first <=? last) 0 ju;
    v ← get table (Z.to_nat jl);
    Ok (if u32 value =? v then jl else u8 (jl + 1)).

Definition set_at (l : list Z) (i : Z) (v : Z) : res (list Z) :=
  if 0 <=? i then put l (Z.to_nat i) v else Fault OutOfBounds.
Definition at_index (l : list Z) (i : Z) : res Z := if 0 <=? i then get l (Z.to_nat i) else Fault OutOfBounds.

Definition get_bsr_lcgid (ue : UE_MAC_INST) : Z :=
  let active := filter (fun i => 0 < default 0 (BSR (scheduling_info ue) !! Z.to_nat i)) [0; 1; 2; 3] in
  match active with [] => -1 | [i] => i | _ => MAX_NUM_LCGID end.

(** One turn of the loop of [get_bsr_len]: [bsr_len], [num_lcgid], [pdu]. *)
Definition bsr_len_step (buflen : Z) (s : Z * Z * Z) (bytes : Z) : Z * Z * Z :=
  let '(bsr_len, num_lcgid, pdu) := s in
  let pdu := if 0 <? bytes then pdu + (bytes + bsr_len + 2) else pdu in
  let pdu := if 128 <? bytes then pdu + 1 else pdu in
  if (buflen <? pdu) && (0 <? bytes) then (if 2 <=? num_lcgid + 1 then 4 else 1, num_lcgid + 1, pdu)
  else (bsr_len, num_lcgid, pdu).

Definition get_bsr_len (ue : UE_MAC_INST) (buflen : Z) : Z :=
  fst (fst (fold_left (bsr_len_step (u16 buflen)) (BSR_bytes (scheduling_info ue)) (0, 0, 0))).

Definition update_bsr (c : layer_ctxt) (lcid lcg_id : Z) (ue : UE_MAC_INST) (l : layer) : res (bool * UE_MAC_INST * layer) :=
  if MAX_NUM_LCGID <=? lcg_id then Ok (false, ue, l)
  else
    let s := scheduling_info ue in
    s ← (if (lcid =? DCCH) || (lcid =? DTCH) then
           b ← set_at (BSR s) lcg_id 0; n ← set_at (BSR_bytes s) lcg_id 0; Ok (s <| BSR := b |> <| BSR_bytes := n |>)
         else Ok s);
    g ← at_index (LCGID s) lcid;
    if g =? lcg_id then
      '(resp, l) ← mac_rlc_status_ind c false lcid 0 l;
      let n := bytes_in_buffer resp in
      if 0 <? n then
        st ← set_at (LCID_status s) lcid LCID_NOT_EMPTY;
        k ← locate BSR_TABLE 64 n;
        v ← at_index (BSR s) lcg_id; b ← set_at (BSR s) lcg_id (u8 (v + k));
        w ← at_index (BSR_bytes s) lcg_id; ns ← set_at (BSR_bytes s) lcg_id (u16 (w + n));
        Ok (true, ue <| scheduling_info := s <| LCID_status := st |> <| BSR := b |> <| BSR_bytes := ns |> |>, l)
      else
        st ← set_at (LCID_status s) lcid LCID_EMPTY;
        Ok (false, ue <| scheduling_info := s <| LCID_status := st |> |>, l)
    else Ok (false, ue <| scheduling_info := s |>, l).

(** ** Power headroom *)

Definition get_phr_mapping (phr : Z) : Z :=
  if phr <? -23 then 0 else if 40 <=? phr then 63 else u8 (u8 phr + PHR_MAPPING_OFFSET).

Definition get_sf_perioidicPHR_Timer (t : Z) : Z := (t + 1) * 10.
Definition get_sf_prohibitPHR_Timer (t : Z) : Z := t * 10.

Definition update_phr (ue : UE_MAC_INST) : UE_MAC_INST :=
  ue <| PHR_reporting_active := 0 |>
     <| scheduling_info ::= fun s => s
          <| periodicPHR_SF := s16 (get_sf_perioidicPHR_Timer (u8 (periodicPHR_Timer s))) |>
          <| prohibitPHR_SF := s16 (get_sf_prohibitPHR_Timer (u8 (prohibitPHR_Timer s))) |> |>.

(** ** Uplink: ue_get_sdu *)

(** What is fetched from RLC: the SDUs and their bytes in [ulsch_buff]. *)
Record mux : Type := mk_mux { mux_sdus : list (Z * Z); mux_bytes : list Z }.
Definition sdu_length_total (m : mux) : Z := Z.of_nat (length (mux_bytes m)).

(** [mac_rlc_status_ind] for what [room] allows, then [mac_rlc_data_req]. *)
Definition fetch_sdu (c : layer_ctxt) (garbage : list Z) (lcid room : Z) (m : mux) (l : layer) : res (mux * layer) :=
  '(_, l) ← mac_rlc_status_ind c false lcid room l;
  '(data, l) ← mac_rlc_data_req c false lcid garbage l;
  _ ← (if MAX_ULSCH_PAYLOAD_BYTES <? sdu_length_total m + Z.of_nat (length data) then Fault OutOfBounds else Ok tt);
  Ok (mk_mux (mux_sdus m ++ [(lcid, Z.of_nat (length data))]) (mux_bytes m ++ data), l).

Definition not_empty (ue : UE_MAC_INST) (lcid : Z) : res bool :=
  v ← at_index (LCID_status (scheduling_info ue)) lcid; Ok (v =? LCID_NOT_EMPTY).

(** DCCH, DCCH1 and DTCH in turn; [hs] are the three header lengths. *)
Definition get_dcch (c : layer_ctxt) (garbage : list Z) (buflen ctl : Z) (ue : UE_MAC_INST) (m : mux) (l : layer) :
    res (Z * UE_MAC_INST * mux * layer) :=
  b ← not_empty ue DCCH;
  if (b : bool) then
    '(m, l) ← fetch_sdu c garbage DCCH (buflen - 2 - ctl) m l;
    g ← at_index (LCGID (scheduling_info ue)) DCCH;
    '(_, ue, l) ← update_bsr c DCCH g ue l;
    Ok (2, ue, m, l)
  else Ok (0, ue, m, l).

Definition get_dcch1 (c : layer_ctxt) (garbage : list Z) (buflen ctl dcch_header_len : Z) (ue : UE_MAC_INST) (m : mux) (l : layer) :
    res (Z * mux * layer) :=
  b ← not_empty ue DCCH1;
  if (b : bool) then
    '(m, l) ← fetch_sdu c garbage DCCH1 (buflen - ctl - dcch_header_len - 2 - sdu_length_total m) m l;
    Ok (2, m, l)
  else Ok (0, m, l).

Definition get_dtch (c : layer_ctxt) (garbage : list Z) (buflen ctl dcch_header_len dcch1_header_len : Z) (ue : UE_MAC_INST) (m : mux) (l : layer) :
    res (Z * UE_MAC_INST * mux * layer) :=
  let dtch_header_len := if 128 <? buflen then 3 else 2 in
  let used := ctl + dcch_header_len + dcch1_header_len + dtch_header_len + sdu_length_total m in
  b ← not_empty ue DTCH;
  if b && (used <=? buflen) then
    let before := sdu_length_total m in
    '(m, l) ← fetch_sdu c garbage DTCH (buflen - used) m l;
    let dtch_header_len := if 128 <=? sdu_length_total m - before then 3 else 2 in
    g ← at_index (LCGID (scheduling_info ue)) DTCH;
    '(active, ue, l) ← update_bsr c DTCH g ue l;
    Ok (dtch_header_len, ue <| ul_active := Z.b2z active |>, m, l)
  else Ok (0, ue, m, l).

(** The BSR to send. A short report when more than one group has data reads
    [BSR] at [MAX_NUM_LCGID], outside the array. *)
Definition choose_bsr (ue : UE_MAC_INST) (bsr_ce_len : Z) : res bsr_arg :=
  let lcgid := get_bsr_lcgid ue in
  let bsr := BSR (scheduling_info ue) in
  if lcgid <? 0 then Ok No_bsr
  else if (lcgid =? MAX_NUM_LCGID) && (bsr_ce_len =? 4) then
    b0 ← at_index bsr 0; b1 ← at_index bsr 1; b2 ← at_index bsr 2; b3 ← at_index bsr 3;
    Ok (Long_bsr (Z.land b0 0x3f, Z.land b1 0x3f, Z.land b2 0x3f, Z.land b3 0x3f))
  else if bsr_ce_len =? 1 then
    v ← at_index bsr lcgid; Ok (Short_bsr (bsr_short_byte lcgid v))
  else Ok No_bsr.

(** [short_padding] and [post_padding]. *)
Definition paddings (buflen ctl h_dcch h_dcch1 h_dtch total : Z) : Z * Z :=
  let h_dcch' := if h_dtch =? 0 then (if 0 <? h_dcch then 1 else h_dcch) else h_dcch in
  let h_dtch' := if h_dtch =? 0 then h_dtch else 1 in
  let left := buflen - ctl - h_dcch' - h_dcch1 - h_dtch' - total in
  if left <=? 2 then (u8 left, 0)
  else (0, u16 (buflen - ctl - h_dcch - h_dcch1 - h_dtch - total - 1)).

(** [phr]: what the physical layer reports; [random]: what [taus] gives for
    the rest of the block. The result has the block and whether the access is
    cancelled. *)
Definition ue_get_sdu (c : layer_ctxt) (CC_id : Z) (garbage : list Z) (phr : Z) (random : nat -> Z) (ulsch_buffer : list Z) (buflen : Z)
    (ue : UE_MAC_INST) (l : layer) : res (list Z * bool * UE_MAC_INST * layer) :=
  _ ← assert_fatal (CC_id <=? 0);
  let phr_len := if PHR_reporting_active ue =? 1 then 2 else 0 in
  let bsr_ce_len := get_bsr_len ue (buflen - phr_len) in
  let bsr_len := if 0 <? bsr_ce_len then bsr_ce_len + 1 else 0 in
  let ctl := bsr_len + phr_len in
  '(h_dcch, ue, m, l) ← get_dcch c garbage buflen ctl ue (mk_mux [] []) l;
  '(h_dcch1, m, l) ← get_dcch1 c garbage buflen ctl h_dcch ue m l;
  '(h_dtch, ue, m, l) ← get_dtch c garbage buflen ctl h_dcch h_dcch1 ue m l;
  bsr ← choose_bsr ue bsr_ce_len;
  let '(phr_p, ue) := if 0 <? phr_len then (Some (Z.land (get_phr_mapping phr) 0x3f), update_phr ue) else (None, ue) in
  let total := sdu_length_total m in
  let '(short_padding, post_padding) := paddings buflen ctl h_dcch h_dcch1 h_dtch total in
  let cancelled := (0 <? post_padding) && (ctl + h_dcch + h_dcch1 + h_dtch + total =? 0) in
  '(payload_offset, buffer) ← generate_ulsch_header ulsch_buffer (mux_sdus m) short_padding phr_p None bsr post_padding;
  buffer ← put_bytes (mux_bytes m) buffer (Z.to_nat payload_offset);
  buffer ← put_bytes (random <$> seq 0 (Z.to_nat (buflen - total - payload_offset))) buffer (Z.to_nat (payload_offset + total));
  Ok (buffer, cancelled, ue <| scheduling_info ::= fun s => s <| SR_pending := 0 |> <| SR_COUNTER := 0 |> |>, l).

End Layer.
End MacUe.
