(* ===== verification/MacBsr.v ===== *)
(** * MAC: the level of a buffer status report

    [locate] on [BSR_TABLE]: a binary search. *)

From S2P Require Import Prelude HashTable Collection RlcUmEntity RlcLayer MacHeader MacUe.

Module MacBsr.
Import MacHeader MacUe.

(** The size of a level. *)
Definition level (k : Z) : Z := default 0 (BSR_TABLE !! Z.to_nat k).

Lemma level_at k : 0 <= k < 64 -> get BSR_TABLE (Z.to_nat k) = Ok (level k).
Proof.
  intros H. unfold get, level. destruct (lookup_lt_is_Some_2 BSR_TABLE (Z.to_nat k)) as [v ->]; [|done].
  change (length BSR_TABLE) with 64%nat. lia.
Qed.

Definition increasing_at (j : Z) : bool := level j <? level (j + 1).
Lemma increasing_table : forallb increasing_at (seqZ 0 63) = true.
Proof. vm_compute. reflexivity. Qed.

Lemma level_step j : 0 <= j < 63 -> level j < level (j + 1).
Proof.
  intros H. pose proof increasing_table as F. rewrite forallb_forall in F. apply Z.ltb_lt, F, list_elem_of_In, elem_of_seqZ. lia.
Qed.

Lemma level_mono j k : 0 <= j < k -> k < 64 -> level j < level k.
Proof.
  intros [Hj H] Hk. replace k with (j + 1 + Z.of_nat (Z.to_nat (k - j - 1))) in * by lia. set (n := Z.to_nat (k - j - 1)) in *. clearbody n.
  induction n as [|n IH]; [rewrite Z.add_0_r; apply level_step; lia|].
  etrans; [apply IH; lia|]. replace (j + 1 + Z.of_nat (S n)) with (j + 1 + Z.of_nat n + 1) by lia. apply level_step. lia.
Qed.

(** The search keeps [value] between the two bounds. *)
Lemma locate_loop_spec f value jl ju : 0 <= jl < ju -> ju < 64 -> ju - jl <= Z.of_nat f -> 0 <= value < 2 ^ 32 ->
  level jl <= value -> value < level ju \/ ju = 63 -> exists jl' ju',
    locate_loop f BSR_TABLE value true jl ju = Ok (jl', ju') /\ 0 <= jl' < 63 /\ ju' = jl' + 1 /\ level jl' <= value /\
    (value < level ju' \/ ju' = 63).
Proof.
  revert jl ju. induction f as [|f IH]; intros jl ju H1 H2 Hf Hv L U; [lia|]. cbn [locate_loop]. destruct (Z.ltb_spec 1 (ju - jl)) as [Hd|Hd].
  - rewrite Z.shiftr_div_pow2 by lia. change (2 ^ 1) with 2. set (jm := (ju + jl) / 2).
    assert (Hm : jl < jm < ju) by (unfold jm; pose proof (Z.div_mod (ju + jl) 2); pose proof (Z.mod_pos_bound (ju + jl) 2); lia).
    rewrite u8_small by lia. rewrite level_at by lia. step_ok. rewrite u32_small by lia. destruct (Z.leb_spec (level jm) value); cbn [eqb].
    + apply IH; lia.
    + apply IH; lia.
  - exists jl, ju. split; [done|]. split_and!; try done; try lia.
Qed.

(** C21. The level of a buffer status report is the one the standard asks for:
    for every amount of data, [locate] returns the first entry of [BSR_TABLE]
    that is not below it, or the last entry if all are. So what the receiver
    reads out of its table is never less than what the sender has, up to
    300000 bytes, and the next lower level would be. *)
Theorem bsr_level_correct value : 0 <= value < 2 ^ 31 -> exists k,
  locate BSR_TABLE 64 value = Ok k /\ 0 <= k < 64 /\ (forall j, 0 <= j < k -> level j < value) /\ (value <= level k \/ k = 63).
Proof.
  intros Hv. unfold locate. change ((0 <? 64) && (64 <=? 256)) with true. cbn [assert_fatal]. step_ok.
  destruct (Z.eqb_spec value 0) as [->|Hn].
  { exists 0. split; [done|]. split; [lia|]. split; [intros j Hj; lia|by left]. }
  cbv zeta. change (u8 (64 - 1)) with 63. change (get BSR_TABLE 0) with (Ok (level 0)). step_ok. rewrite (level_at 63) by lia. step_ok.
  change (level 0 <=? level 63) with true.
  destruct (locate_loop_spec 257 value 0 63) as (jl & ju & -> & H & -> & L & U); try lia.
  { change (level 0) with 0. lia. }
  step_ok. rewrite level_at by lia. step_ok. rewrite u32_small by lia. destruct (Z.eqb_spec value (level jl)) as [E|E].
  - exists jl. split; [done|]. split; [lia|]. split; [|left; lia]. intros j Hj. rewrite E. apply level_mono; lia.
  - exists (jl + 1). rewrite u8_small by lia. split; [done|]. split; [lia|]. split; [|destruct U; [left; lia|by right]].
    intros j Hj. destruct (decide (j = jl)) as [->|]; [lia|]. pose proof (level_mono j jl). lia.
Qed.

Lemma bsr_level_correct_witness : exists k, locate BSR_TABLE 64 1500 = Ok k /\ k = 33 /\ level 32 < 1500 <= level 33.
Proof.
  destruct (bsr_level_correct 1500 ltac:(lia)) as (k & E & H & L & U). exists k. split; [exact E|].
  assert (k = 33) as ->. { vm_compute in E. injection E as <-. reflexivity. }
  split; [reflexivity|]. split; [exact (L 32 ltac:(lia))|]. destruct U as [U|U]; [exact U|discriminate U].
Defined.

End MacBsr.
