(* ===== verification/MacDlsch.v ===== *)
(** * A downlink transport block, from the scheduler to the UE

    What [generate_dlsch_header] and the copies of the scheduler make of SDUs
    and control elements, [ue_send_sdu] takes apart. *)

From S2P Require Import Prelude HashTable Collection RlcUmEntity RlcLayer RlcLayerProofs MacHeader MacHeaderProofs MacUe.

Module MacDlsch.
Import Collection RlcLayer MacHeader MacHeaderProofs MacUe.

(** ** Blocks *)

(** SDUs with their bytes, as the arrays of the generators have them. *)
Definition lengths (sdus : list (Z * list Z)) : list (Z * Z) := (fun s => (fst s, Z.of_nat (length (snd s)))) <$> sdus.
Definition payload (sdus : list (Z * list Z)) : list Z := sdus ≫= snd.

(** The transport block: the header, the SDUs copied behind it, and the rest
    of the block. *)
Definition transport_block (r : Z * list Z) (sdus : list (Z * list Z)) (rest : list Z) : list Z :=
  take (Z.to_nat (fst r)) (snd r) ++ payload sdus ++ rest.

Lemma sdus_of_items fixed sdus : only_fixed fixed -> sdus_of (fixed ++ sdu_items (lengths sdus)) = lengths sdus.
Proof.
  intros F. rewrite sdus_of_app. assert (sdus_of fixed = []) as ->.
  { induction F as [|it fixed [l ->] _ IH]; [done|exact IH]. }
  unfold sdus_of, sdu_items. induction (lengths sdus) as [|[l n] s IH]; [done|]. cbn in *. by f_equal.
Qed.

Lemma ces_of_items fixed sdus : ces_of (fixed ++ sdu_items sdus) = ces_of fixed.
Proof.
  rewrite ces_of_app. assert (ces_of (sdu_items sdus) = []) as ->; [|by rewrite app_nil_r].
  induction sdus as [|s sdus IH]; [done|exact IH].
Qed.

Lemma sdus_size_payload sdus : sdus_size (lengths sdus) = Z.of_nat (length (payload sdus)).
Proof.
  induction sdus as [|[l d] sdus IH]; [done|]. unfold sdus_size, payload, lengths in *. rewrite bind_cons, length_app, Nat2Z.inj_add, <- IH. done.
Qed.

Lemma snoc_inv {A} (l : list A) : l <> [] -> exists xs x, l = xs ++ [x].
Proof. intros H. destruct (exists_last H) as (xs & x & E). eauto. Qed.

(** The header generated for [fixed] and the SDUs is read back from any block
    that starts with it: the control elements, and the SDUs with their
    lengths. The last SDU has no length when there is no padding behind it;
    then the block must end with it. *)
Lemma block_parsed limit ce_size size r header fixed sdus post ces :
  0 <= limit < 32 -> only_fixed fixed -> Forall (item_ok limit ce_size size) (fixed ++ sdu_items (lengths sdus)) -> sdus <> [] ->
  Z.of_nat (length sdus) <= NB_RB_MAX -> Z.of_nat (length (ces_of fixed)) <= MAX_NUM_CE ->
  ces_size size fixed < 2 ^ 16 ->
  (forall items it, fixed ++ sdu_items (lengths sdus) = items ++ [it] ->
     generates r header items it post ces /\ Z.of_nat (length (header_bytes items it post ++ ces)) < 72) ->
  exists n buf h, r = Ok (n, buf) /\ take (Z.to_nat n) buf = h ++ ces /\ 0 <= n < 72 /\ Z.to_nat n = length (h ++ ces) /\
    forall tail tb, 0 < post \/ tb = n - Z.of_nat (length ces) + ces_size size fixed + Z.of_nat (length (payload sdus)) ->
      parse limit ce_size (take (Z.to_nat n) buf ++ tail) tb = Ok (mk_parsed (length h) (ces_of fixed) (lengths sdus) (ces_size size fixed)).
Proof.
  intros Hlim F Hok Hne Hs Hce Hcs Hg.
  destruct (snoc_inv sdus Hne) as (sdus' & [lcid d] & E).
  assert (Ei : fixed ++ sdu_items (lengths sdus) = (fixed ++ sdu_items (lengths sdus')) ++ [I_sdu lcid (Z.of_nat (length d))]).
  { rewrite E. unfold sdu_items, lengths. rewrite !fmap_app. cbn. by rewrite app_assoc. }
  set (items := fixed ++ sdu_items (lengths sdus')) in *. set (it := I_sdu _ _) in *.
  destruct (Hg items it Ei) as [(rest & -> & Hl) Hn].
  set (h := header_bytes items it post) in *. rewrite u8_small by lia.
  exists (Z.of_nat (length (h ++ ces))), ((h ++ ces) ++ rest), h. rewrite Nat2Z.id, take_app_length.
  split_and!; [done|done|lia|lia|done|]. intros tail tb Hp. rewrite <- app_assoc.
  assert (Sz : ces_size size (items ++ [it]) = ces_size size fixed) by (unfold ces_size; by rewrite <- Ei, ces_of_items).
  pose proof (parse_header_bytes limit ce_size size Hlim items it post (ces ++ tail) tb) as P. cbv zeta in P.
  rewrite Sz in P. rewrite <- Ei, sdus_of_items, ces_of_items in P by done. apply P; try done.
  - unfold lengths. by rewrite length_fmap.
  - destruct Hp as [|Hp]; [by left|right]. split; [by eexists _, _|]. rewrite sdus_size_payload, Hp, length_app. fold h. lia.
Qed.

(** ** The SDUs *)

Section Layer.
Context {T : Type} `{O : CollectionOps T rlc_union_t}.
Notation layer := (rlc_layer T).

(** RLC takes the first bytes of the buffer it is given. *)
Lemma data_ind_prefix c m ch d more l :
  mac_rlc_data_ind c m ch (d ++ more) (Z.of_nat (length d)) 1 l = mac_rlc_data_ind c m ch d (Z.of_nat (length d)) 1 l.
Proof.
  unfold mac_rlc_data_ind, mac_rlc_deserialize_tb. change (Z.to_nat 1) with 1%nat. cbn [deserialize_loop].
  rewrite Nat2Z.id, take_app_length, firstn_all, length_app.
  rewrite (proj2 (orb_false_iff _ (Z.of_nat (length d) <? Z.of_nat (length d)))) by (rewrite !Z.ltb_ge; lia).
  rewrite (proj2 (orb_false_iff _ (Z.of_nat (length d + length more) <? Z.of_nat (length d)))) by (rewrite !Z.ltb_ge; lia). done.
Qed.

(** SDUs handed over in order: those of CCCH to RRC, those of DCCH, DCCH1 and
    DTCH to RLC, each as one block of its bytes; others are dropped. *)
Fixpoint hand_over (c : layer_ctxt) (sdus : list (Z * list Z)) (l : layer) (out : list mac_call) : res (layer * list mac_call) :=
  match sdus with
  | [] => Ok (l, out)
  | (lcid, d) :: rest =>
      if lcid =? CCCH then hand_over c rest l (out ++ [Mac_rrc_data_ind CCCH d])
      else if (lcid =? DCCH) || (lcid =? DCCH1) || (lcid =? DTCH) then
        l ← mac_rlc_data_ind c false lcid d (Z.of_nat (length d)) 1 l; hand_over c rest l out
      else hand_over c rest l out
  end.

Lemma bytes_at_prefix pre d more p : p = length pre -> bytes_at (pre ++ d ++ more) p (Z.of_nat (length d)) = Ok d.
Proof.
  intros ->. unfold bytes_at. rewrite (proj2 (orb_false_iff _ _)) by (rewrite !Z.ltb_ge, !length_app; lia).
  by rewrite Nat2Z.id, drop_app_length, take_app_length.
Qed.

Lemma deliver_hands_over c pre sdus rest l out :
  ue_deliver_sdus c (pre ++ payload sdus ++ rest) (lengths sdus) (length pre) l out = hand_over c sdus l out.
Proof.
  revert pre l out. induction sdus as [|[lcid d] sdus IH]; intros pre l out; [done|].
  cbn [lengths fmap list_fmap fst snd ue_deliver_sdus hand_over]. change (payload ((lcid, d) :: sdus)) with (d ++ payload sdus).
  rewrite Nat2Z.id, <- app_assoc.
  assert (N : forall l out, ue_deliver_sdus c (pre ++ d ++ payload sdus ++ rest) (lengths sdus) (length pre + length d) l out = hand_over c sdus l out).
  { intros l' out'. rewrite (app_assoc pre), <- length_app. apply IH. }
  destruct (lcid =? CCCH).
  { rewrite bytes_at_prefix by done. repeat step_ok. apply N. }
  destruct ((lcid =? DCCH) || (lcid =? DCCH1) || (lcid =? DTCH)).
  - rewrite drop_app_length, data_ind_prefix. destruct (mac_rlc_data_ind c false lcid d _ 1 l); [|done]. repeat step_ok. apply N.
  - step_ok. apply N.
Qed.

(** The results of a function on the layer, with the instance. *)
Definition with_ue (ue : UE_MAC_INST) (r : res (layer * list mac_call)) : res (UE_MAC_INST * layer * list mac_call) :=
  '(l, out) ← r; Ok (ue, l, out).

(** ** The block *)

Lemma ces_of_dlsch ta cr sp :
  ces_of (dlsch_fixed 255 ta cr sp) = (if ta =? 0 then [] else [TIMING_ADV_CMD]) ++ (if cr then [UE_CONT_RES] else []).
Proof.
  unfold dlsch_fixed. rewrite !ces_of_app. assert (ces_of (pad_items sp) = []) as -> by (unfold pad_items; repeat case_match; done).
  destruct (ta =? 0), cr; done.
Qed.

Definition dlsch_ce (l : Z) : Z := if l =? TIMING_ADV_CMD then 1 else if l =? UE_CONT_RES then 6 else 0.

Lemma dlsch_items_ok ta cr sp sdus : Forall (fun s => 0 <= fst s < UE_CONT_RES /\ Z.of_nat (length (snd s)) < 2 ^ 15) sdus ->
  Forall (item_ok UE_CONT_RES dlsch_ce_size dlsch_ce) (dlsch_fixed 255 ta cr sp ++ sdu_items (lengths sdus)).
Proof.
  intros H. assert (C : forall l, UE_CONT_RES <= l < 32 -> item_ok UE_CONT_RES dlsch_ce_size dlsch_ce (I_fixed l)).
  { intros l Hl. split; [done|]. intros _. split; [done|]. unfold dlsch_ce. by repeat case_match. }
  apply Forall_app. split.
  - unfold dlsch_fixed, pad_items, when_item. repeat (apply Forall_app; split); repeat case_match; repeat constructor; apply C; done.
  - unfold sdu_items, lengths. rewrite <- list_fmap_compose. apply Forall_fmap. eapply Forall_impl; [exact H|].
    intros [l d] [Hl Hd]. cbn [compose fst snd] in *. split; [done|]. lia.
Qed.

(** What the UE does with the control elements and SDUs: the timing advance
    goes to the physical layer; a contention resolution identity that is not
    the UE's ends the random access and drops the SDUs. *)
Definition take_block (c : layer_ctxt) (ta : Z) (cont_res_id : option (list Z)) (sdus : list (Z * list Z)) (ue : UE_MAC_INST) (l : layer) :
    res (UE_MAC_INST * layer * list mac_call) :=
  let out := if ta =? 0 then [] else [Process_timing_advance (Z.land (ta + 31) 0x3f)] in
  let done ue out := with_ue ue (hand_over c sdus l out) in
  match cont_res_id with
  | Some id =>
      if RA_active ue =? 1 then
        let ue := ue <| RA_active := 0 |> <| RA_contention_resolution_timer_active := 0 |> in
        if decide (take 6 (drop 3 (CCCH_pdu ue)) = id) then done ue (out ++ [Ra_succeeded]) else Ok (ue, l, out ++ [Ra_failed])
      else done ue out
  | None => done ue out
  end.

Definition id_ok (id : option (list Z)) : Prop := match id with Some b => length b = 6%nat | None => True end.

Lemma take_control_elements (c : layer_ctxt) h ta cr sdus rest ue (l : layer) : id_ok cr -> (9 <= length (CCCH_pdu ue))%nat ->
  let block := (h ++ dlsch_ces ta cr) ++ payload sdus ++ rest in
  (r ← ue_control_elements block ((if ta =? 0 then [] else [TIMING_ADV_CMD]) ++ (if cr then [UE_CONT_RES] else [])) (length h) ue [];
   match r with
   | (None, ue, out) => Ok (ue, l, out)
   | (Some p, ue, out) => with_ue ue (ue_deliver_sdus c block (lengths sdus) p l out)
   end) = take_block c ta cr sdus ue l.
Proof.
  intros Hid Hc block. unfold take_block.
  assert (M : forall ue0, CCCH_pdu ue0 = CCCH_pdu ue -> bytes_at (CCCH_pdu ue0) 3 6 = Ok (take 6 (drop 3 (CCCH_pdu ue)))).
  { intros ue0 ->. unfold bytes_at. rewrite (proj2 (orb_false_iff _ _)) by (rewrite !Z.ltb_ge; lia). done. }
  assert (D : forall ue0 out, with_ue ue0 (ue_deliver_sdus c block (lengths sdus) (length (h ++ dlsch_ces ta cr)) l out) =
                              with_ue ue0 (hand_over c sdus l out)).
  { intros. unfold block. by rewrite deliver_hands_over. }
  assert (C : forall p out, p = (length h + length (if (ta =? 0)%Z then [] else [Z.land (ta + 31) 63]))%nat ->
    (r ← ue_control_elements block (if cr then [UE_CONT_RES] else []) p ue out;
     match r with
     | (None, ue, out) => Ok (ue, l, out)
     | (Some p, ue, out) => with_ue ue (ue_deliver_sdus c block (lengths sdus) p l out)
     end) = match cr with
            | Some id =>
                if RA_active ue =? 1 then
                  let ue := ue <| RA_active := 0 |> <| RA_contention_resolution_timer_active := 0 |> in
                  if decide (take 6 (drop 3 (CCCH_pdu ue)) = id) then with_ue ue (hand_over c sdus l (out ++ [Ra_succeeded]))
                  else Ok (ue, l, out ++ [Ra_failed])
                else with_ue ue (hand_over c sdus l out)
            | None => with_ue ue (hand_over c sdus l out)
            end).
  { intros p out Hp. destruct cr as [id|].
    - cbn [ue_control_elements]. change (UE_CONT_RES =? UE_CONT_RES) with true. cbv iota.
      assert (Ep : (p + 6)%nat = length (h ++ dlsch_ces ta (Some id))).
      { unfold dlsch_ces. rewrite Hp, !length_app, length_take, Hid. destruct (ta =? 0); simpl; lia. }
      destruct (RA_active ue =? 1).
      + assert (bytes_at block p 6 = Ok id) as ->.
        { unfold block, dlsch_ces. rewrite firstn_all2 by (rewrite Hid; lia). rewrite <- !app_assoc, (app_assoc h).
          change 6 with (Z.of_nat 6). rewrite <- Hid. apply bytes_at_prefix. rewrite length_app, Hp. by destruct (ta =? 0). }
        step_ok. rewrite M by done. step_ok. rsimpl. case_decide; step_ok; [|done]. rewrite Ep. apply D.
      + step_ok. rewrite Ep. apply D.
    - cbn [ue_control_elements]. step_ok. rewrite <- D. do 2 f_equal. rewrite Hp. unfold dlsch_ces. rewrite length_app, app_nil_r. by destruct (ta =? 0). }
  destruct (Z.eqb_spec ta 0) as [->|Hta]; cbn [app].
  - rewrite C by (cbn; lia). done.
  - cbn [ue_control_elements]. change (TIMING_ADV_CMD =? UE_CONT_RES) with false. change (TIMING_ADV_CMD =? TIMING_ADV_CMD) with true. cbv iota.
    assert (get block (length h) = Ok (Z.land (ta + 31) 63)) as ->.
    { unfold block, dlsch_ces. rewrite (proj2 (Z.eqb_neq ta 0)) by done. cbn [negb]. rewrite <- !app_assoc. by apply get_at. }
    step_ok. rewrite C by (cbn; lia). done.
Qed.

End Layer.
End MacDlsch.
