(* ===== verification/MacUeList.v ===== *)
(** * MAC of the eNB: the list of UEs

    The [UE_list_t] of an eNB (defs.h of openair2/LAYER2/MAC): its
    initialisation (main.c), [find_UE_id], [add_new_ue], [rrc_mac_remove_ue],
    [prev] and [swap_UEs] (eNB_scheduler_primitives.c). The UEs are linked by
    index in the arrays [next] and [next_ul], one order for each direction;
    free entries are linked in [next] from [avail]. *)

From S2P Require Import Prelude.

Module MacUeList.

Definition NUMBER_OF_UE_MAX : Z := 16.
Definition NOT_A_RNTI : Z := 0.
Definition S_UL_NONE : Z := 0.
Definition S_UL_WAITING : Z := 1.
Definition S_DL_NONE : Z := 0.
Definition S_DL_WAITING : Z := 1.

(** *** Arrays, indexed by [int] *)

Definition elem {A} (l : list A) (i : Z) : res A := if 0 <=? i then of_option OutOfBounds (l !! Z.to_nat i) else Fault OutOfBounds.
Definition set_elem {A} (l : list A) (i : Z) (v : A) : res (list A) :=
  if (0 <=? i) && (Z.to_nat i <? length l)%nat then Ok (<[Z.to_nat i := v]> l) else Fault OutOfBounds.
Definition upd_elem {A} (l : list A) (i : Z) (f : A -> A) : res (list A) := v ← elem l i; set_elem l i (f v).
(** Of a two-dimensional array. *)
Definition elem2 {A} (l : list (list A)) (i j : Z) : res A := r ← elem l i; elem r j.
Definition upd_elem2 {A} (l : list (list A)) (i j : Z) (f : A -> A) : res (list (list A)) :=
  r ← elem l i; r ← upd_elem r j f; set_elem l i r.

(** *** The structures *)

Record UE_TEMPLATE : Type := mk_template {
  rnti : Z; configured : bool; ul_active : bool; ul_SR : Z; oldNDI : list Z; oldNDI_UL : list Z;
  bsr_info : list Z; lcgidmap : list Z; phr_info : Z; phr_info_configured : Z;
  ul_total_buffer : Z; ul_buffer_creation_time : list Z; ul_buffer_info : list Z
}.
#[export] Instance settable_template : Settable UE_TEMPLATE := fun t =>
  mk_template (rnti t) (configured t) (ul_active t) (ul_SR t) (oldNDI t) (oldNDI_UL t) (bsr_info t) (lcgidmap t)
    (phr_info t) (phr_info_configured t) (ul_total_buffer t) (ul_buffer_creation_time t) (ul_buffer_info t).

Record UE_sched_ctrl : Type := mk_ctrl {
  ul_inactivity_timer : Z; ul_failure_timer : Z; ul_scheduled : Z; ul_out_of_sync : Z; phr_received : Z
}.
#[export] Instance settable_ctrl : Settable UE_sched_ctrl := fun s =>
  mk_ctrl (ul_inactivity_timer s) (ul_failure_timer s) (ul_scheduled s) (ul_out_of_sync s) (phr_received s).

(** [ordered_CCids] and [ordered_ULCCids] are the rows of index 0;
    [eNB_ulsch_info] and [eNB_dlsch_info] (of this eNB) have the RNTI and the
    status. *)
Record UE_list_t : Type := mk_list {
  next : list Z; head : Z; next_ul : list Z; head_ul : Z; avail : Z; num_UEs : Z; active : list bool;
  pCC_id : list Z; numactiveCCs : list Z; numactiveULCCs : list Z; ordered_CCids : list Z; ordered_ULCCids : list Z;
  UE_template : list (list UE_TEMPLATE); sched_ctrl : list UE_sched_ctrl;
  eNB_ulsch_info : list (list (Z * Z)); eNB_dlsch_info : list (list (Z * Z))
}.
#[export] Instance settable_list : Settable UE_list_t := fun u =>
  mk_list (next u) (head u) (next_ul u) (head_ul u) (avail u) (num_UEs u) (active u) (pCC_id u) (numactiveCCs u) (numactiveULCCs u)
    (ordered_CCids u) (ordered_ULCCids u) (UE_template u) (sched_ctrl u) (eNB_ulsch_info u) (eNB_dlsch_info u).

Definition template_zero : UE_TEMPLATE := mk_template 0 false false 0 (replicate 8 0) (replicate 8 0) (replicate 4 0) (replicate 11 0) 0 0 0
  (replicate 4 0) (replicate 4 0).
Definition ctrl_zero : UE_sched_ctrl := mk_ctrl 0 0 0 0 0.

(** After [bzero] and the loop of [mac_top_init]; [ccs] is [MAX_NUM_CCs]. *)
Definition initial_list (ccs : nat) : UE_list_t :=
  let n := Z.to_nat NUMBER_OF_UE_MAX in
  let links := seqZ 1 (NUMBER_OF_UE_MAX - 1) ++ [-1] in
  mk_list links (-1) links (-1) 0 0 (replicate n false) (replicate n 0) (replicate n 0) (replicate n 0) (replicate n 0) (replicate n 0)
    (replicate ccs (replicate n template_zero)) (replicate n ctrl_zero) (replicate ccs (replicate n (0, 0))) (replicate ccs (replicate n (0, 0))).

(** ** Walks *)

(** [for (i = head; i >= 0; i = next[i])] until [stop i]; the result is the
    element where it stopped and the one before (the head for the head). A list
    without repetition has at most [NUMBER_OF_UE_MAX] elements. *)
Fixpoint walk (fuel : nat) (next : list Z) (stop : Z -> res bool) (prev i : Z) : res (option (Z * Z)) :=
  match fuel with
  | 0%nat => Fault OutOfFuel
  | S fuel' =>
      if i <? 0 then Ok None
      else
        b ← stop i;
        if (b : bool) then Ok (Some (prev, i)) else n ← elem next i; walk fuel' next stop i n
  end.

Definition walk_from (next : list Z) (head : Z) (stop : Z -> res bool) : res (option (Z * Z)) :=
  walk (S (length next)) next stop head head.

Definition UE_PCCID (u : UE_list_t) (ue_id : Z) : res Z := elem (pCC_id u) ue_id.

Definition template_of (u : UE_list_t) (ue_id : Z) : res UE_TEMPLATE := cc ← UE_PCCID u ue_id; elem2 (UE_template u) cc ue_id.

Definition find_UE_id (u : UE_list_t) (rntiP : Z) : res Z :=
  r ← walk_from (next u) (head u) (fun i => t ← template_of u i; Ok (rnti t =? rntiP));
  Ok (match r with Some (_, i) => i | None => -1 end).

Definition UE_RNTI (u : UE_list_t) (ue_id : Z) : res Z := t ← template_of u ue_id; Ok (if 0 <? rnti t then rnti t else NOT_A_RNTI).

(** ** Addition and removal *)

Definition add_new_ue (cc_idP rntiP harq_pidP : Z) (u : UE_list_t) : res (Z * UE_list_t) :=
  if 0 <=? avail u then
    let id := avail u in
    _ ← assert_fatal (id <? NUMBER_OF_UE_MAX);
    a ← elem (next u) id;
    nx ← set_elem (next u) id (head u);
    nu ← set_elem (next_ul u) id (head_ul u);
    t ← upd_elem2 (UE_template u) cc_idP id (fun t => t <| rnti := rntiP |> <| configured := false |>
           <| oldNDI := [1; 0; 0; 0; 0; 0; 0; 0] |>
           <| oldNDI_UL := (fun j => if j =? harq_pidP then 0 else 1) <$> [0; 1; 2; 3; 4; 5; 6; 7] |>);
    n1 ← set_elem (numactiveCCs u) id 1; n2 ← set_elem (numactiveULCCs u) id 1;
    p ← set_elem (pCC_id u) id cc_idP; o1 ← set_elem (ordered_CCids u) id cc_idP; o2 ← set_elem (ordered_ULCCids u) id cc_idP;
    act ← set_elem (active u) id true;
    sc ← set_elem (sched_ctrl u) id ctrl_zero;
    ui ← upd_elem2 (eNB_ulsch_info u) cc_idP id (fun x => (fst x, S_UL_WAITING));
    di ← upd_elem2 (eNB_dlsch_info u) cc_idP id (fun x => (fst x, S_DL_WAITING));
    Ok (id, mk_list nx id nu id a (num_UEs u + 1) act p n1 n2 o1 o2 t sc ui di)
  else Ok (-1, u).

(** The element [id] is taken out of the list: [Some] with the new array and
    head if it is found. *)
Definition unlink (next : list Z) (head id : Z) : res (option (list Z * Z)) :=
  r ← walk_from next head (fun i => Ok (i =? id));
  match r with
  | Some (prev, i) =>
      n ← elem next i;
      if i =? head then Ok (Some (next, n)) else nx ← set_elem next prev n; Ok (Some (nx, head))
  | None => Ok None
  end.

(** The primary component carrier is read before the UE is known to exist. *)
Definition rrc_mac_remove_ue (rntiP : Z) (u : UE_list_t) : res (Z * UE_list_t) :=
  id ← find_UE_id u rntiP;
  cc ← UE_PCCID u id;
  if id =? -1 then Ok (0, u)
  else
    t ← upd_elem2 (UE_template u) cc id (fun t => t <| bsr_info := [0; 0; 0; 0] |> <| ul_SR := 0 |> <| rnti := NOT_A_RNTI |> <| ul_active := false |>);
    ui ← upd_elem2 (eNB_ulsch_info u) cc id (fun _ => (NOT_A_RNTI, S_UL_NONE));
    di ← upd_elem2 (eNB_dlsch_info u) cc id (fun _ => (NOT_A_RNTI, S_DL_NONE));
    let u := u <| UE_template := t |> <| eNB_ulsch_info := ui |> <| eNB_dlsch_info := di |> in
    r ← unlink (next u) (head u) id;
    '(u, found) ← (match r with
                   | Some (nx, h) =>
                       nx ← set_elem nx id (avail u);
                       act ← set_elem (active u) id false;
                       Ok (u <| next := nx |> <| head := h |> <| avail := id |> <| active := act |> <| num_UEs ::= fun n => n - 1 |>, true)
                   | None => Ok (u, false)
                   end);
    r ← unlink (next_ul u) (head_ul u) id;
    '(u, found) ← (match r with
                   | Some (nx, h) =>
                       nx ← set_elem nx id (avail u);
                       Ok (u <| next_ul := nx |> <| head_ul := h |>, true)
                   | None => Ok (u, found)
                   end);
    _ ← assert_fatal found;
    Ok (0, u).

(** ** Order *)

(** The element before [node], [node] for the head, -1 for no element. *)
Definition prev (next : list Z) (head node : Z) : res Z :=
  if node =? head then Ok node
  else
    r ← walk_from next head (fun j => n ← elem next j; Ok (n =? node));
    Ok (match r with Some (_, j) => j | None => -1 end).

Definition swap (next : list Z) (head i j : Z) : res (list Z * Z) :=
  prev_i ← prev next head i;
  prev_j ← prev next head j;
  _ ← assert_fatal ((0 <=? prev_i) && (0 <=? prev_j));
  next_i ← elem next i;
  next_j ← elem next j;
  if next_i =? j then
    nx ← set_elem next i next_j; nx ← set_elem nx j i;
    if i =? head then Ok (nx, j) else nx ← set_elem nx prev_i j; Ok (nx, head)
  else if next_j =? i then
    nx ← set_elem next j next_i; nx ← set_elem nx i j;
    if j =? head then Ok (nx, i) else nx ← set_elem nx prev_j i; Ok (nx, head)
  else
    nx ← set_elem next j next_i; nx ← set_elem nx i next_j;
    if i =? head then nx ← set_elem nx prev_j i; Ok (nx, j)
    else if j =? head then nx ← set_elem nx prev_i j; Ok (nx, i)
    else nx ← set_elem nx prev_i j; nx ← set_elem nx prev_j i; Ok (nx, head).

Definition swap_UEs (i j : Z) (ul_flag : bool) (u : UE_list_t) : res UE_list_t :=
  if ul_flag then '(nx, h) ← swap (next_ul u) (head_ul u) i j; Ok (u <| next_ul := nx |> <| head_ul := h |>)
  else '(nx, h) ← swap (next u) (head u) i j; Ok (u <| next := nx |> <| head := h |>).

End MacUeList.
