(* ===== verification/MacUeListProofs.v ===== *)
(** * MAC of the eNB: the list of UEs, proofs

    [seg next h l m]: from [h], the links of [next] go through [l] to [m]. *)

From S2P Require Import Prelude MacUeList.

Module MacUeListProofs.
Import MacUeList.

(** ** Arrays *)

Lemma elem_nonneg {A} (l : list A) i v : elem l i = Ok v -> 0 <= i < Z.of_nat (length l).
Proof.
  unfold elem. destruct (Z.leb_spec 0 i); [|done]. intros E%of_option_Ok. apply lookup_lt_Some in E. lia.
Qed.

Lemma set_elem_ok {A} (l : list A) i v0 v : elem l i = Ok v0 ->
  exists l', set_elem l i v = Ok l' /\ length l' = length l /\ elem l' i = Ok v /\ (forall y, y <> i -> elem l' y = elem l y).
Proof.
  intros E. pose proof (elem_nonneg l i v0 E) as H. exists (<[Z.to_nat i := v]> l). unfold set_elem.
  rewrite (proj2 (andb_true_iff _ _)) by (rewrite Z.leb_le, Nat.ltb_lt; lia). rewrite length_insert.
  split_and!; [done|done| |].
  - unfold elem. rewrite (proj2 (Z.leb_le _ _)) by lia. by rewrite list_lookup_insert_eq by lia.
  - intros y Hy. unfold elem. destruct (Z.leb_spec 0 y); [|done]. by rewrite list_lookup_insert_ne by lia.
Qed.

Lemma elem_ok {A} (l : list A) i : 0 <= i < Z.of_nat (length l) -> exists v, elem l i = Ok v.
Proof.
  intros H. unfold elem. rewrite (proj2 (Z.leb_le _ _)) by lia.
  destruct (lookup_lt_is_Some_2 l (Z.to_nat i)) as [v ->]; [lia|]. by exists v.
Qed.

(** ** Segments *)

Fixpoint seg (next : list Z) (h : Z) (l : list Z) (m : Z) : Prop :=
  match l with
  | [] => h = m
  | x :: l => h = x /\ exists n, elem next x = Ok n /\ seg next n l m
  end.

Definition chain (next : list Z) (h : Z) (l : list Z) : Prop := seg next h l (-1).

Lemma seg_app nx h l1 l2 m : seg nx h (l1 ++ l2) m <-> exists k, seg nx h l1 k /\ seg nx k l2 m.
Proof.
  revert h. induction l1 as [|x l1 IH]; intros h; simpl.
  - split; [by exists h|]. by intros (k & -> & H).
  - split.
    + intros (-> & n & E & (k & H1 & H2)%IH). exists k. split; [|done]. split; [done|]. by exists n.
    + intros (k & (-> & n & E & H1) & H2). split; [done|]. exists n. split; [done|]. apply IH. by exists k.
Qed.

Lemma seg_elem nx h l m x : seg nx h l m -> x ∈ l -> exists n, elem nx x = Ok n.
Proof.
  revert h. induction l as [|y l IH]; intros h H Hx; [by apply not_elem_of_nil in Hx|].
  destruct H as (-> & n & E & H). apply elem_of_cons in Hx as [->|Hx]; [by exists n|by apply (IH n)].
Qed.

Lemma seg_nonneg nx h l m : seg nx h l m -> Forall (fun x => 0 <= x < Z.of_nat (length nx)) l.
Proof. intros H. apply Forall_forall. intros x Hx. destruct (seg_elem nx h l m x H Hx) as [n E]. by eapply elem_nonneg. Qed.

Lemma seg_ext nx nx' h l m : (forall y, y ∈ l -> elem nx' y = elem nx y) -> seg nx h l m -> seg nx' h l m.
Proof.
  revert h. induction l as [|x l IH]; intros h A H; [done|]. destruct H as (-> & n & E & H). split; [done|]. exists n.
  split; [by rewrite A by left|]. apply IH; [|done]. intros y Hy. apply A. by right.
Qed.

(** The last link of a segment is changed. *)
Lemma seg_relink nx nx' h l p m m' : (forall y, y <> p -> elem nx' y = elem nx y) -> elem nx' p = Ok m' -> p ∉ l ->
  seg nx h (l ++ [p]) m -> seg nx' h (l ++ [p]) m'.
Proof.
  intros A E N (k & H1 & H2)%seg_app. destruct H2 as (-> & n & _ & _). apply seg_app. exists p. split.
  - eapply seg_ext; [|exact H1]. intros y Hy. apply A. by intros ->.
  - split; [done|]. by exists m'.
Qed.

Lemma seg_length nx h l m : NoDup l -> seg nx h l m -> (length l <= length nx)%nat.
Proof.
  intros N H. assert (S : l ⊆ seqZ 0 (Z.of_nat (length nx))).
  { intros x Hx. apply elem_of_seqZ. pose proof (seg_nonneg nx h l m H) as F. rewrite Forall_forall in F. specialize (F x Hx). lia. }
  apply NoDup_submseteq in S; [|done]. apply submseteq_length in S. rewrite length_seqZ in S. lia.
Qed.

(** ** Walks *)

(** The element before [x] in [l1 ++ x :: l2]. *)
Definition before (l1 : list Z) (x : Z) : Z := default x (last l1).

Lemma before_snoc l p x : before (l ++ [p]) x = p.
Proof. unfold before. by rewrite last_snoc. Qed.

Lemma walk_skip nx stop h l m pv f : seg nx h l m -> (forall y, y ∈ l -> stop y = Ok false) ->
  walk (length l + f) nx stop pv h = walk f nx stop (before l pv) m.
Proof.
  revert h pv. induction l as [|x l IH]; intros h pv H S; [by simpl in H; subst|].
  pose proof (seg_nonneg _ _ _ _ H) as [Hx _]%Forall_cons. destruct H as (-> & n & E & H). cbn [length Nat.add walk].
  rewrite (proj2 (Z.ltb_ge _ _)) by lia. rewrite S by left. step_ok. rewrite E. step_ok. rewrite IH; [|done|intros; apply S; by right].
  f_equal. unfold before. rewrite last_cons. by destruct (last l).
Qed.

Lemma walk_found nx stop h l1 x l2 m : NoDup (l1 ++ x :: l2) -> seg nx h (l1 ++ x :: l2) m ->
  (forall y, y ∈ l1 -> stop y = Ok false) -> stop x = Ok true -> walk_from nx h stop = Ok (Some (before l1 x, x)).
Proof.
  intros N H S Sx. pose proof (seg_length _ _ _ _ N H) as L. pose proof (seg_nonneg _ _ _ _ H) as F.
  apply Forall_app in F as [_ [Hx _]%Forall_cons]. apply seg_app in H as (k & H1 & H2). pose proof H2 as (-> & _).
  unfold walk_from. rewrite length_app in L. cbn [length] in L.
  replace (Datatypes.S (length nx)) with (length l1 + Datatypes.S (length nx - length l1))%nat by lia.
  rewrite (walk_skip nx stop h l1 x) by done. cbn [walk]. rewrite (proj2 (Z.ltb_ge _ _)) by lia. rewrite Sx. step_ok.
  do 3 f_equal. destruct l1 as [|y l1]; [simpl in H1; by subst|]. unfold before. rewrite last_cons. by destruct (last l1).
Qed.

Lemma walk_end nx stop h l : NoDup l -> chain nx h l -> (forall y, y ∈ l -> stop y = Ok false) -> walk_from nx h stop = Ok None.
Proof.
  intros N H S. pose proof (seg_length _ _ _ _ N H) as L. unfold walk_from.
  replace (Datatypes.S (length nx)) with (length l + Datatypes.S (length nx - length l))%nat by lia.
  by rewrite (walk_skip nx stop h l (-1)).
Qed.

Lemma NoDup_middle l1 (x : Z) l2 : NoDup (l1 ++ x :: l2) -> x ∉ l1 /\ x ∉ l2 /\ NoDup (l1 ++ l2) /\ NoDup l1 /\ NoDup l2.
Proof.
  intros H. pose proof H as (N1 & D & (X & N2)%NoDup_cons)%NoDup_app. split_and!; try done.
  - intros Hx. exact (D x Hx ltac:(left)).
  - apply NoDup_app. split_and!; try done. intros y H1 H2. exact (D y H1 ltac:(by right)).
Qed.

(** ** Removal *)

Lemma unlink_spec nx h l1 x l2 : NoDup (l1 ++ x :: l2) -> chain nx h (l1 ++ x :: l2) ->
  exists nx' h', unlink nx h x = Ok (Some (nx', h')) /\ chain nx' h' (l1 ++ l2) /\ length nx' = length nx /\
    (forall y, y ∉ l1 -> elem nx' y = elem nx y).
Proof.
  intros N C. destruct (NoDup_middle l1 x l2 N) as (X1 & X2 & N' & N1 & N2). unfold unlink.
  rewrite (walk_found nx _ h l1 x l2 (-1)); [|done|done| |by rewrite Z.eqb_refl].
  2: { intros y Hy. f_equal. apply Z.eqb_neq. by intros ->. }
  step_ok. apply seg_app in C as (k & C1 & (-> & n & E & C2)). rewrite E. step_ok.
  destruct l1 as [|p l1 _] using rev_ind.
  - simpl in C1. subst h. rewrite Z.eqb_refl. exists nx, n. split_and!; try done.
  - assert (x <> h) as Hh.
    { intros ->. apply X1. destruct l1 as [|y l1]; simpl in C1; destruct C1 as [-> _]; left. }
    rewrite (proj2 (Z.eqb_neq _ _)) by done. rewrite before_snoc.
    destruct (seg_elem _ _ _ _ p C1) as [p' Ep]; [apply elem_of_app; right; left|].
    destruct (set_elem_ok nx p p' n Ep) as (nx' & -> & Ln & En & An). step_ok. exists nx', h. split; [done|]. apply NoDup_app in N1 as (N1 & D & _).
    split; [|split; [done|]].
    + apply seg_app. exists n. split.
      * eapply seg_relink; [exact An|exact En| |exact C1]. intros Hp. exact (D p Hp ltac:(left)).
      * eapply seg_ext; [|exact C2]. intros y Hy. apply An. intros ->. apply NoDup_app in N' as (_ & D' & _). apply (D' p); [apply elem_of_app; right; left|done].
    + intros y Hy. apply An. intros ->. apply Hy. apply elem_of_app. right. left.
Qed.

(** ** The element before *)

Lemma prev_spec nx h l1 x l2 : NoDup (l1 ++ x :: l2) -> chain nx h (l1 ++ x :: l2) -> prev nx h x = Ok (before l1 x).
Proof.
  intros N C. destruct (NoDup_middle l1 x l2 N) as (X1 & X2 & N' & N1 & N2). unfold prev.
  destruct l1 as [|p l1 _] using rev_ind.
  - simpl in C. destruct C as [-> _]. by rewrite Z.eqb_refl.
  - assert (x <> h) as Hh.
    { intros ->. apply X1. destruct l1 as [|y l1]; simpl in C; destruct C as [-> _]; left. }
    rewrite (proj2 (Z.eqb_neq _ _)) by done. rewrite <- app_assoc in N, C. cbn [app] in *.
    rewrite (walk_found nx _ h l1 p (x :: l2) (-1) N C).
    + step_ok. by rewrite before_snoc.
    + intros y Hy. destruct (seg_elem _ _ _ _ y C) as [n E]; [apply elem_of_app; by left|]. rewrite E. step_ok. f_equal. apply Z.eqb_neq. intros ->.
      apply list_elem_of_split in Hy as (a & b & ->). rewrite <- app_assoc in C. cbn [app] in C. apply seg_app in C as (k & _ & C).
      destruct C as (-> & n & E' & C). rewrite E in E'. injection E' as <-. apply X1. apply elem_of_app.
      destruct b as [|z b]; cbn [app] in C; destruct C as [-> _]; [right; left|left; apply elem_of_app; right; right; left].
    + apply seg_app in C as (k & _ & (-> & n & E & (-> & _))). rewrite E. step_ok. by rewrite Z.eqb_refl.
Qed.

(** ** Exchange of two elements *)

(** What the code makes of the links for [l1 ++ i :: l2 ++ j :: l3]. *)
Record exchanged (nx nx' : list Z) (l1 : list Z) (i : Z) (l2 : list Z) (j : Z) (ni nj : Z) : Prop := {
  ex_i : elem nx' i = Ok nj;
  ex_j : elem nx' j = Ok (match l2 with [] => i | _ => ni end);
  ex_p : forall p, last l1 = Some p -> elem nx' p = Ok j;
  ex_q : forall q, last l2 = Some q -> elem nx' q = Ok i;
  ex_other : forall y, y <> i -> y <> j -> last l1 <> Some y -> last l2 <> Some y -> elem nx' y = elem nx y;
  ex_length : length nx' = length nx
}.

Lemma last_in (l : list Z) x : last l = Some x -> x ∈ l.
Proof. intros (l' & ->)%last_Some. apply elem_of_app. right. left. Qed.

(** A segment whose last link is changed, wherever it starts. *)
Lemma seg_last nx nx' h l m m' : seg nx h l m -> NoDup l ->
  (forall y, y ∈ l -> last l <> Some y -> elem nx' y = elem nx y) -> (forall p, last l = Some p -> elem nx' p = Ok m') -> l <> [] ->
  seg nx' h l m'.
Proof.
  intros H N A P Hl. destruct l as [|p l _] using rev_ind; [done|]. apply seg_app in H as (k & H1 & (-> & n & _ & _)).
  apply NoDup_app in N as (N & D & _). apply seg_app. exists p. split.
  - eapply seg_ext; [|exact H1]. intros y Hy. apply A; [apply elem_of_app; by left|]. rewrite last_snoc. intros [= <-]. exact (D p Hy ltac:(left)).
  - split; [done|]. exists m'. split; [|done]. apply P. by rewrite last_snoc.
Qed.

Lemma exchanged_chain nx nx' h l1 i l2 j l3 ni nj : NoDup (l1 ++ i :: l2 ++ j :: l3) -> chain nx h (l1 ++ i :: l2 ++ j :: l3) ->
  elem nx i = Ok ni -> elem nx j = Ok nj -> exchanged nx nx' l1 i l2 j ni nj ->
  chain nx' (match l1 with [] => j | _ => h end) (l1 ++ j :: l2 ++ i :: l3).
Proof.
  intros N C Ei Ej X. apply seg_app in C as (k & C1 & (-> & n & E & C2)). rewrite Ei in E. injection E as <-.
  apply seg_app in C2 as (k2 & C2 & (-> & n & E & C3)). rewrite Ej in E. injection E as <-.
  pose proof N as (N1 & D1 & (Xi & (N2 & D2 & (Xj & N3)%NoDup_cons)%NoDup_app)%NoDup_cons)%NoDup_app.
  rewrite elem_of_app, elem_of_cons in Xi.
  assert (F : forall y (l : list Z), y ∈ l -> (forall z, z ∈ l -> z <> i /\ z <> j /\ z ∉ l1 /\ z ∉ l2) -> elem nx' y = elem nx y).
  { intros y l Hy H. destruct (H y Hy) as (H1 & H2 & H3 & H4). apply (ex_other _ _ _ _ _ _ _ _ X); try done; intros ?%last_in; done. }
  apply seg_app. exists j. split.
  - destruct l1 as [|a l1]; [done|]. eapply seg_last; [exact C1|done| |apply (ex_p _ _ _ _ _ _ _ _ X)|done].
    intros y Hy Hl. apply (ex_other _ _ _ _ _ _ _ _ X); try done.
    + intros ->. apply (D1 i Hy). left.
    + intros ->. apply (D1 j Hy). right. apply elem_of_app. right. left.
    + intros H%last_in. apply (D1 y Hy). right. apply elem_of_app. by left.
  - split; [done|]. exists (match l2 with [] => i | _ => ni end). split; [apply (ex_j _ _ _ _ _ _ _ _ X)|].
    apply seg_app. exists i. split.
    + destruct l2 as [|a l2]; [done|]. eapply seg_last; [exact C2|done| |apply (ex_q _ _ _ _ _ _ _ _ X)|done].
      intros y Hy Hl. apply (ex_other _ _ _ _ _ _ _ _ X); try done.
      * intros ->. apply Xi. by left.
      * intros ->. apply (D2 j Hy). left.
      * intros H%last_in. apply (D1 y H). right. apply elem_of_app. by left.
    + split; [done|]. exists nj. split; [apply (ex_i _ _ _ _ _ _ _ _ X)|]. eapply seg_ext; [|exact C3].
      intros y Hy. apply (F y l3 Hy). intros z Hz. split_and!.
      * intros ->. apply Xi. right. by right.
      * intros ->. done.
      * intros H. apply (D1 z H). right. apply elem_of_app. right. by right.
      * intros H. apply (D2 z H). by right.
Qed.

Lemma set_elem_in {A} (l : list A) i v : 0 <= i < Z.of_nat (length l) ->
  exists l', set_elem l i v = Ok l' /\ length l' = length l /\ elem l' i = Ok v /\ (forall y, y <> i -> elem l' y = elem l y).
Proof. intros H. destruct (elem_ok l i H) as [v0 E]. by eapply set_elem_ok. Qed.

(** The next assignment of an element. *)
Ltac set_step :=
  match goal with
  | |- context [set_elem ?l ?k ?v] =>
      let nx := fresh "nx" in let L := fresh "L" in let E := fresh "E" in let A := fresh "A" in
      destruct (set_elem_in l k v ltac:(lia)) as (nx & -> & L & E & A); step_ok
  end.

(** The value of an element, after assignments to it and to others. *)
Ltac elem_now :=
  repeat match goal with
  | E : elem ?l ?k = Ok _ |- elem ?l ?k = _ => exact E
  | A : forall y, y <> ?k -> elem ?l y = _ |- elem ?l ?z = _ => rewrite (A z) by congruence
  end; try done.

(** What the code looks at. *)
Lemma swap_facts nx h l1 i l2 j l3 : NoDup (l1 ++ i :: l2 ++ j :: l3) -> chain nx h (l1 ++ i :: l2 ++ j :: l3) -> exists ni nj,
  elem nx i = Ok ni /\ elem nx j = Ok nj /\ 0 <= i < Z.of_nat (length nx) /\ 0 <= j < Z.of_nat (length nx) /\
  prev nx h i = Ok (before l1 i) /\ prev nx h j = Ok (before l2 i) /\ i <> j /\ j <> h /\ nj <> i /\
  (l1 = [] -> i = h) /\ (l2 = [] -> ni = j) /\ (l2 <> [] -> ni <> j) /\
  (forall p, last l1 = Some p -> i <> h /\ p <> i /\ p <> j /\ last l2 <> Some p /\ 0 <= p < Z.of_nat (length nx)) /\
  (forall q, last l2 = Some q -> q <> i /\ q <> j /\ 0 <= q < Z.of_nat (length nx)).
Proof.
  intros N C. pose proof (seg_nonneg _ _ _ _ C) as F. rewrite Forall_forall in F.
  pose proof (prev_spec nx h l1 i (l2 ++ j :: l3) N C) as Pi.
  assert (Pj : prev nx h j = Ok (before l2 i)).
  { pose proof (prev_spec nx h (l1 ++ i :: l2) j l3) as Q. rewrite <- app_assoc in Q. rewrite (Q N C). f_equal.
    unfold before. rewrite last_app, last_cons. by destruct (last l2). }
  pose proof C as (k & C1 & (-> & ni & Ei & C2))%seg_app. apply seg_app in C2 as (k & C2 & (-> & nj & Ej & C3)).
  pose proof N as (N1 & D1 & (Xi & (N2 & D2 & (Xj & N3)%NoDup_cons)%NoDup_app)%NoDup_cons)%NoDup_app.
  rewrite elem_of_app, elem_of_cons in Xi.
  assert (H1 : forall a l, l1 = a :: l -> h = a) by (intros a l ->; by destruct C1 as [-> _]).
  assert (H2 : forall a l, l2 = a :: l -> ni = a) by (intros a l ->; by destruct C2 as [-> _]).
  assert (Ri : 0 <= i < Z.of_nat (length nx)) by (apply F, elem_of_app; right; left).
  assert (Rj : 0 <= j < Z.of_nat (length nx)) by (apply F, elem_of_app; right; right; apply elem_of_app; right; left).
  assert (Dij : i <> j) by (intros ->; apply Xi; right; by left).
  exists ni, nj. split_and!; try done; try lia.
  - intros Ejh. destruct l1 as [|a l].
    + simpl in C1. subst. apply Xi. right. by left.
    + apply (D1 j); [rewrite Ejh, (H1 a l eq_refl); left|]. right. apply elem_of_app. right. left.
  - intros Ejn. destruct l3 as [|a l]; simpl in C3; [lia|]. destruct C3 as [E _]. apply Xi. right. right. rewrite <- Ejn, E. left.
  - intros E. rewrite E in C1. by simpl in C1.
  - intros E. rewrite E in C2. by simpl in C2.
  - intros E Eq. destruct l2 as [|a l]; [done|]. rewrite (H2 a l eq_refl) in Eq. apply (D2 j); [rewrite Eq; left|left].
  - intros p Hp%last_in. assert (0 <= p < Z.of_nat (length nx)) by (apply F, elem_of_app; by left). split_and!; try lia.
    + destruct l1 as [|a l]; [by apply not_elem_of_nil in Hp|]. rewrite (H1 a l eq_refl). intros ->. apply (D1 a); left.
    + intros ->. apply (D1 i Hp). left.
    + intros ->. apply (D1 j Hp). right. apply elem_of_app. right. left.
    + intros Hq%last_in. apply (D1 p Hp). right. apply elem_of_app. by left.
  - intros q Hq%last_in. assert (0 <= q < Z.of_nat (length nx)) by (apply F, elem_of_app; right; right; apply elem_of_app; by left).
    split_and!; try lia.
    + intros ->. apply Xi. by left.
    + intros ->. apply (D2 j Hq). left.
Qed.

(** One order of the arguments: the assignments are executed and the links
    compared. *)
Ltac swap_case :=
  repeat step_ok;
  rewrite (proj2 (andb_true_iff _ _)) by (rewrite !Z.leb_le; lia); cbn [assert_fatal]; step_ok;
  repeat match goal with E : elem ?l ?k = Ok _ |- context [elem ?l ?k] => rewrite E; step_ok end;
  repeat (match goal with |- context [?a =? ?b] => destruct (Z.eqb_spec a b); try (exfalso; congruence) end);
  repeat set_step;
  eexists; (split; [reflexivity|]); split; intros;
  repeat match goal with
  | H : last ?l = Some ?y, H' : last ?l = Some ?x |- _ => rewrite H in H'; injection H' as ->
  end; elem_now; try congruence; try lia.

Lemma last_cons_some (a : Z) l : exists p, last (a :: l) = Some p.
Proof. rewrite last_cons. destruct (last l); by eexists. Qed.

Lemma swap_ok nx h l1 i l2 j l3 : NoDup (l1 ++ i :: l2 ++ j :: l3) -> chain nx h (l1 ++ i :: l2 ++ j :: l3) -> exists ni nj,
  elem nx i = Ok ni /\ elem nx j = Ok nj /\
  (exists nx', swap nx h i j = Ok (nx', match l1 with [] => j | _ => h end) /\ exchanged nx nx' l1 i l2 j ni nj) /\
  (exists nx', swap nx h j i = Ok (nx', match l1 with [] => j | _ => h end) /\ exchanged nx nx' l1 i l2 j ni nj).
Proof.
  intros N C. destruct (swap_facts nx h l1 i l2 j l3 N C) as (ni & nj & Ei & Ej & Bi & Bj & Pi & Pj & Dij & Djh & Dn & Hh & H0 & Hn & Hp & Hq).
  exists ni, nj. split; [done|]. split; [done|]. unfold swap. rewrite Pi, Pj. clear N C Pi Pj. unfold before.
  destruct l1 as [|a1 l1'], l2 as [|a2 l2'].
  - specialize (Hh eq_refl). specialize (H0 eq_refl). cbn [last default from_option id]. clear Hp Hq Hn. subst. split; swap_case.
  - specialize (Hh eq_refl). specialize (Hn ltac:(done)). destruct (last_cons_some a2 l2') as [q Eq]. rewrite Eq.
    destruct (Hq q Eq) as (Q1 & Q2 & Q3). cbn [last default from_option id]. clear Hp Hq H0. subst. split; swap_case.
  - specialize (H0 eq_refl). destruct (last_cons_some a1 l1') as [p Ep]. rewrite Ep.
    destruct (Hp p Ep) as (Q1 & Q2 & Q3 & Q4 & Q5). cbn [last default from_option id]. clear Hp Hq Hh Hn. subst. split; swap_case.
  - specialize (Hn ltac:(done)). destruct (last_cons_some a1 l1') as [p Ep]. destruct (last_cons_some a2 l2') as [q Eq]. rewrite Ep, Eq.
    destruct (Hp p Ep) as (Q1 & Q2 & Q3 & Q4 & Q5). destruct (Hq q Eq) as (R1 & R2 & R3). rewrite Eq in Q4. cbn [default from_option id]. clear Hp Hq Hh H0.
    split; swap_case.
Qed.

(** The sequence with [i] and [j] exchanged. *)
Definition exchange (i j : Z) (l : list Z) : list Z := (fun x => if x =? i then j else if x =? j then i else x) <$> l.

Lemma exchange_id i j l : i ∉ l -> j ∉ l -> exchange i j l = l.
Proof.
  unfold exchange. induction l as [|x l IH]; intros Hi Hj; [done|]. rewrite not_elem_of_cons in Hi, Hj. cbn.
  rewrite (proj2 (Z.eqb_neq x i)), (proj2 (Z.eqb_neq x j)) by (intros ->; tauto). f_equal. by apply IH; tauto.
Qed.

Lemma exchange_comm i j l : exchange i j l = exchange j i l.
Proof. unfold exchange. apply list_fmap_ext. intros _ x _. destruct (Z.eqb_spec x i), (Z.eqb_spec x j); congruence. Qed.

Lemma exchange_split l1 i l2 j l3 : NoDup (l1 ++ i :: l2 ++ j :: l3) ->
  exchange i j (l1 ++ i :: l2 ++ j :: l3) = l1 ++ j :: l2 ++ i :: l3.
Proof.
  intros (N1 & D1 & (Xi & (N2 & D2 & (Xj & N3)%NoDup_cons)%NoDup_app)%NoDup_cons)%NoDup_app.
  rewrite elem_of_app, elem_of_cons in Xi.
  assert (A : forall a b, exchange i j (a ++ b) = exchange i j a ++ exchange i j b) by (intros; apply fmap_app).
  assert (Ci : forall a, exchange i j (i :: a) = j :: exchange i j a) by (intros; unfold exchange; cbn; by rewrite Z.eqb_refl).
  assert (Cj : forall a, exchange i j (j :: a) = i :: exchange i j a).
  { intros. unfold exchange. cbn. rewrite Z.eqb_refl, (proj2 (Z.eqb_neq j i)) by (intros ->; tauto). done. }
  rewrite A, Ci, A, Cj, !exchange_id; try tauto.
  - intros H. apply (D2 j H). left.
  - intros H. apply (D1 i H). left.
  - intros H. apply (D1 j H). right. apply elem_of_app. right. left.
Qed.

Lemma exchange_perm i j l : NoDup l -> i ∈ l -> j ∈ l -> exchange i j l ≡ₚ l.
Proof.
  intros N Hi Hj.
  assert (P : forall l1 a l2 b l3, NoDup (l1 ++ a :: l2 ++ b :: l3) -> exchange a b (l1 ++ a :: l2 ++ b :: l3) ≡ₚ l1 ++ a :: l2 ++ b :: l3).
  { intros. rewrite exchange_split by done. solve_Permutation. }
  destruct (decide (i = j)) as [->|D].
  - assert (exchange j j l = l) as ->; [|done]. unfold exchange. rewrite <- (list_fmap_id l) at 2. apply list_fmap_ext.
    intros _ x _. by destruct (Z.eqb_spec x j) as [->|].
  - apply list_elem_of_split in Hi as (l1 & l2 & ->). apply elem_of_app in Hj as [Hj|[Hj|Hj]%elem_of_cons]; [|done|].
    + apply list_elem_of_split in Hj as (a & b & ->). rewrite <- app_assoc in *. rewrite exchange_comm. by apply P.
    + apply list_elem_of_split in Hj as (a & b & ->). by apply P.
Qed.

(** [swap_UEs] on one direction. *)
Lemma swap_spec nx h l i j : NoDup l -> chain nx h l -> i ∈ l -> j ∈ l -> i <> j -> exists nx' h',
  swap nx h i j = Ok (nx', h') /\ chain nx' h' (exchange i j l) /\ length nx' = length nx /\ (forall y, y ∉ l -> elem nx' y = elem nx y).
Proof.
  intros N C Hi Hj D.
  assert (W : forall l1 a l2 b l3 nx' ni nj, l = l1 ++ a :: l2 ++ b :: l3 -> elem nx a = Ok ni -> elem nx b = Ok nj ->
    exchanged nx nx' l1 a l2 b ni nj ->
    chain nx' (match l1 with [] => b | _ => h end) (exchange a b l) /\ length nx' = length nx /\ (forall y, y ∉ l -> elem nx' y = elem nx y)).
  { intros l1 a l2 b l3 nx' ni nj -> Ea Eb X. rewrite exchange_split by done. split_and!.
    - by eapply exchanged_chain.
    - apply (ex_length _ _ _ _ _ _ _ _ X).
    - intros y Hy. rewrite !elem_of_app, !elem_of_cons, elem_of_app, elem_of_cons in Hy.
      apply (ex_other _ _ _ _ _ _ _ _ X); first [intros ?%last_in; tauto|tauto]. }
  apply list_elem_of_split in Hi as (l1 & l2 & E). rewrite E, elem_of_app, elem_of_cons in Hj. destruct Hj as [Hj|[Hj|Hj]]; [|done|].
  - apply list_elem_of_split in Hj as (a & b & ->). rewrite <- app_assoc in E. cbn [app] in E. rewrite E in N, C.
    destruct (swap_ok nx h a j b i l2 N C) as (ni & nj & Ei & Ej & _ & (nx' & S & X)). exists nx', (match a with [] => i | _ => h end).
    split; [done|]. rewrite exchange_comm. by eapply W.
  - apply list_elem_of_split in Hj as (a & b & ->). rewrite E in N, C.
    destruct (swap_ok nx h l1 i a j b N C) as (ni & nj & Ei & Ej & (nx' & S & X) & _). exists nx', (match l1 with [] => j | _ => h end).
    split; [done|]. by eapply W.
Qed.

End MacUeListProofs.
