(* ===== verification/MacUeListSpec.v ===== *)
(** * MAC of the eNB: the list of UEs, refinement

    An abstract list of UEs: the two orders, the free entries and the RNTIs.
    The operations of [MacUeList] refine those on it, from [initial_list]. *)

From stdpp Require Import functions.
From S2P Require Import Prelude MacUeList MacUeListProofs.

Module MacUeListSpec.
Import MacUeList MacUeListProofs.

(** ** The abstract list *)

Record ue_spec : Type := mk_ues { s_dl : list Z; s_ul : list Z; s_free : list Z; s_rnti : Z -> option Z }.

(** The calls of the random access, of RRC and of the scheduler. *)
Inductive ue_op : Type :=
| Add_ue (cc rnti harq : Z)
| Remove_ue (rnti : Z)
| Swap_ues (i j : Z) (ul : bool).

Definition initial_spec : ue_spec := mk_ues [] [] (seqZ 0 NUMBER_OF_UE_MAX) (fun _ => None).

Definition has_rnti (s : ue_spec) (r id : Z) : bool := bool_decide (s_rnti s id = Some r).

(** The first UE, in the order of the downlink, that has the RNTI. *)
Definition spec_find (s : ue_spec) (r : Z) : option Z := List.find (has_rnti s r) (s_dl s).

Definition without (x : Z) (l : list Z) : list Z := filter (fun y => y <> x) l.

(** [None]: a carrier that does not exist, a UE that is not there, a UE
    exchanged with itself. *)
Definition spec_step (ccs : nat) (op : ue_op) (s : ue_spec) : option (Z * ue_spec) :=
  match op with
  | Add_ue cc r _ =>
      if (0 <=? cc) && (cc <? Z.of_nat ccs) then
        match s_free s with
        | id :: free => Some (id, mk_ues (id :: s_dl s) (id :: s_ul s) free (<[id := Some r]> (s_rnti s)))
        | [] => Some (-1, s)
        end
      else None
  | Remove_ue r =>
      id ← spec_find s r;
      Some (0, mk_ues (without id (s_dl s)) (without id (s_ul s)) (id :: s_free s) (<[id := None]> (s_rnti s)))
  | Swap_ues i j ul =>
      if decide (i ∈ s_dl s /\ j ∈ s_dl s /\ i <> j) then
        Some (0, if ul then mk_ues (s_dl s) (exchange i j (s_ul s)) (s_free s) (s_rnti s)
                 else mk_ues (exchange i j (s_dl s)) (s_ul s) (s_free s) (s_rnti s))
      else None
  end.

Definition ue_step (op : ue_op) (u : UE_list_t) : res (Z * UE_list_t) :=
  match op with
  | Add_ue cc r harq => add_new_ue cc r harq u
  | Remove_ue r => rrc_mac_remove_ue r u
  | Swap_ues i j ul => u ← swap_UEs i j ul u; Ok (0, u)
  end.

Fixpoint spec_run (ccs : nat) (ops : list ue_op) (s : ue_spec) : option (list Z * ue_spec) :=
  match ops with
  | [] => Some ([], s)
  | op :: ops => '(r, s) ← spec_step ccs op s; '(rs, s) ← spec_run ccs ops s; Some (r :: rs, s)
  end.

Fixpoint ue_run (ops : list ue_op) (u : UE_list_t) : res (list Z * UE_list_t) :=
  match ops with
  | [] => Ok ([], u)
  | op :: ops => '(r, u) ← ue_step op u; '(rs, u) ← ue_run ops u; Ok (r :: rs, u)
  end.

(** ** Lemmas on the sequences *)

Lemma find_split (f : Z -> bool) l x : List.find f l = Some x ->
  exists l1 l2, l = l1 ++ x :: l2 /\ f x = true /\ forall y, y ∈ l1 -> f y = false.
Proof.
  induction l as [|y l IH]; [done|]. cbn. destruct (f y) eqn:E.
  - intros [= ->]. exists [], l. split; [done|]. split; [done|]. intros z Hz. by apply not_elem_of_nil in Hz.
  - intros (l1 & l2 & -> & Hx & H)%IH. exists (y :: l1), l2. split; [done|]. split; [done|]. intros z [->|Hz]%elem_of_cons; auto.
Qed.

Lemma without_notin x l : x ∉ l -> without x l = l.
Proof.
  unfold without. induction l as [|y l IH]; [done|]. rewrite not_elem_of_cons. intros [H1 H2].
  rewrite filter_cons_True by congruence. by rewrite IH.
Qed.

Lemma without_split x l1 l2 : NoDup (l1 ++ x :: l2) -> without x (l1 ++ x :: l2) = l1 ++ l2.
Proof.
  intros N. destruct (NoDup_middle l1 x l2 N) as (X1 & X2 & _). unfold without. rewrite filter_app, filter_cons_False by tauto.
  fold (without x l1) (without x l2). by rewrite !without_notin.
Qed.

Lemma without_perm x l : NoDup l -> x ∈ l -> x :: without x l ≡ₚ l.
Proof.
  intros N (l1 & l2 & ->)%list_elem_of_split. rewrite without_split by done. solve_Permutation.
Qed.

(** ** Two-dimensional arrays *)

Definition rows {A} (l : list (list A)) (n m : nat) : Prop := length l = n /\ Forall (fun r => length r = m) l.

Lemma elem_rows {A} (l : list (list A)) n m i r : rows l n m -> elem l i = Ok r -> length r = m.
Proof.
  intros [_ F]. unfold elem. destruct (0 <=? i); [|done]. intros H%of_option_Ok. rewrite Forall_forall in F. apply F.
  by eapply list_elem_of_lookup_2.
Qed.

Lemma upd_elem_ok {A} (l : list A) i v f : elem l i = Ok v ->
  exists l', upd_elem l i f = Ok l' /\ length l' = length l /\ elem l' i = Ok (f v) /\ (forall y, y <> i -> elem l' y = elem l y).
Proof. intros E. unfold upd_elem. rewrite E. step_ok. by eapply set_elem_ok. Qed.

Lemma set_rows {A} (l : list (list A)) n m i r l' : rows l n m -> length r = m -> set_elem l i r = Ok l' -> rows l' n m.
Proof.
  intros [L F] Hr. unfold set_elem. case_match; [|done]. intros [= <-]. split; [by rewrite length_insert|].
  by apply Forall_insert.
Qed.

Lemma upd_elem2_ok {A} (l : list (list A)) n m i j f : rows l n m -> 0 <= i < Z.of_nat n -> 0 <= j < Z.of_nat m ->
  exists l' v, upd_elem2 l i j f = Ok l' /\ rows l' n m /\ elem2 l i j = Ok v /\ elem2 l' i j = Ok (f v) /\
    (forall i' j', j' <> j -> elem2 l' i' j' = elem2 l i' j').
Proof.
  intros R Hi Hj. destruct (elem_ok l i) as [r Er]; [destruct R; lia|]. pose proof (elem_rows _ _ _ _ _ R Er) as Lr.
  destruct (elem_ok r j) as [v Ev]; [lia|]. destruct (upd_elem_ok r j v f Ev) as (r' & Er' & Lr' & Ev' & A').
  destruct (set_elem_ok l i r r' Er) as (l' & El & Ll & E' & A2). exists l', v. unfold upd_elem2, elem2. rewrite Er. step_ok. rewrite Er'. step_ok.
  split_and!; try done.
  - eapply set_rows; [exact R| |exact El]. lia.
  - rewrite E'. by step_ok.
  - intros i' j' Hj'. destruct (decide (i' = i)) as [->|Hi'].
    + rewrite E', Er. step_ok. step_ok. by apply A'.
    + by rewrite A2.
Qed.

(** ** Representation *)

Definition N : nat := Z.to_nat NUMBER_OF_UE_MAX.

Record shape (ccs : nat) (u : UE_list_t) : Prop := {
  sh_next : length (next u) = N; sh_next_ul : length (next_ul u) = N; sh_active : length (active u) = N;
  sh_pCC : length (pCC_id u) = N; sh_n1 : length (numactiveCCs u) = N; sh_n2 : length (numactiveULCCs u) = N;
  sh_o1 : length (ordered_CCids u) = N; sh_o2 : length (ordered_ULCCids u) = N; sh_ctrl : length (sched_ctrl u) = N;
  sh_template : rows (UE_template u) ccs N; sh_ul : rows (eNB_ulsch_info u) ccs N; sh_dl : rows (eNB_dlsch_info u) ccs N
}.

(** The template of a UE, on its primary carrier, has its RNTI. *)
Definition known (ccs : nat) (u : UE_list_t) (id r : Z) : Prop :=
  exists cc t, elem (pCC_id u) id = Ok cc /\ 0 <= cc < Z.of_nat ccs /\ elem2 (UE_template u) cc id = Ok t /\ rnti t = r.

Record represents (ccs : nat) (u : UE_list_t) (s : ue_spec) : Prop := {
  re_dl : chain (next u) (head u) (s_dl s);
  re_ul : chain (next_ul u) (head_ul u) (s_ul s);
  re_free : chain (next u) (avail u) (s_free s);
  re_all : s_dl s ++ s_free s ≡ₚ seqZ 0 NUMBER_OF_UE_MAX;
  re_same : s_ul s ≡ₚ s_dl s;
  re_count : num_UEs u = Z.of_nat (length (s_dl s));
  re_rnti : forall id, id ∈ s_dl s -> exists r, s_rnti s id = Some r /\ known ccs u id r;
  re_active : forall id, 0 <= id < NUMBER_OF_UE_MAX -> elem (active u) id = Ok (bool_decide (id ∈ s_dl s));
  re_shape : shape ccs u
}.

Section Step.
#[local] Set Default Proof Using "All".
Variables (ccs : nat) (u : UE_list_t) (s : ue_spec).
Hypothesis R : represents ccs u s.

Lemma re_nodup : NoDup (s_dl s ++ s_free s).
Proof. rewrite (re_all _ _ _ R). apply NoDup_seqZ. Qed.

Lemma re_nodup_dl : NoDup (s_dl s).
Proof. pose proof re_nodup as H. by apply NoDup_app in H as (H & _). Qed.

Lemma re_nodup_ul : NoDup (s_ul s).
Proof. rewrite (re_same _ _ _ R). apply re_nodup_dl. Qed.

Lemma re_range id : id ∈ s_dl s \/ id ∈ s_free s -> 0 <= id < NUMBER_OF_UE_MAX.
Proof. rewrite <- elem_of_app, (re_all _ _ _ R), elem_of_seqZ. lia. Qed.

Lemma re_disjoint id : id ∈ s_dl s -> id ∈ s_free s -> False.
Proof. pose proof re_nodup as H. apply NoDup_app in H as (_ & H & _). intros H1 H2. exact (H id H1 H2). Qed.

Lemma in_ul id : id ∈ s_ul s <-> id ∈ s_dl s.
Proof. by rewrite (re_same _ _ _ R). Qed.

(** [find_UE_id] looks for the RNTI among those of the list. *)
Lemma find_UE_id_spec r : find_UE_id u r = Ok (default (-1) (spec_find s r)).
Proof.
  unfold find_UE_id. set (stop := fun i => t ← template_of u i; Ok (rnti t =? r)).
  assert (St : forall id, id ∈ s_dl s -> stop id = Ok (has_rnti s r id)).
  { intros id Hid. destruct (re_rnti _ _ _ R id Hid) as (r' & Er & cc & t & Ec & _ & Et & <-). unfold stop, template_of, UE_PCCID. rewrite Ec. step_ok.
    rewrite Et. step_ok. f_equal. unfold has_rnti. rewrite Er. destruct (Z.eqb_spec (rnti t) r) as [->|D]; symmetry; [by apply bool_decide_true|].
    apply bool_decide_false. congruence. }
  unfold spec_find. destruct (List.find (has_rnti s r) (s_dl s)) as [id|] eqn:E.
  - apply find_split in E as (l1 & l2 & E & Hid & H). pose proof re_nodup_dl as N. pose proof (re_dl _ _ _ R) as C. rewrite E in N, C.
    rewrite (walk_found (next u) stop (head u) l1 id l2 (-1) N C); [by step_ok| |].
    + intros y Hy. rewrite St; [by rewrite H|]. rewrite E. apply elem_of_app. by left.
    + rewrite St; [by rewrite Hid|]. rewrite E. apply elem_of_app. right. left.
  - rewrite (walk_end (next u) stop (head u) (s_dl s) re_nodup_dl (re_dl _ _ _ R)); [by step_ok|].
    intros y Hy. rewrite St by done. f_equal. by apply (List.find_none _ _ E), list_elem_of_In.
Qed.

(** The primary carrier of UE -1 is read when no UE has the RNTI. *)
Lemma remove_unknown_faults r : spec_find s r = None -> rrc_mac_remove_ue r u = Fault OutOfBounds.
Proof. intros E. unfold rrc_mac_remove_ue. by rewrite find_UE_id_spec, E. Qed.

(** ** The operations *)

Lemma chain_cons nx nx' h id l : elem nx' id = Ok h -> (forall y, y <> id -> elem nx' y = elem nx y) -> id ∉ l -> chain nx h l -> chain nx' id (id :: l).
Proof using Type.
  intros E A N C. split; [done|]. exists h. split; [done|]. eapply seg_ext; [|exact C]. intros y Hy. apply A. by intros ->.
Qed.

Lemma add_refines cc r harq x s' : spec_step ccs (Add_ue cc r harq) s = Some (x, s') ->
  exists u', add_new_ue cc r harq u = Ok (x, u') /\ represents ccs u' s'.
Proof.
  intros H. unfold spec_step in H. destruct ((0 <=? cc) && (cc <? Z.of_nat ccs)) eqn:Hc; [|done].
  apply andb_true_iff in Hc as [Hc1%Z.leb_le Hc2%Z.ltb_lt].
  pose proof (re_free _ _ _ R) as Cf. pose proof (re_shape _ _ _ R) as Sh. unfold add_new_ue. destruct (s_free s) as [|id free] eqn:Ef.
  { injection H as <- <-. unfold chain in Cf. cbn in Cf. rewrite Cf. exists u. done. }
  injection H as <- <-. destruct Cf as (Ea & a & Ena & Cf). rewrite Ea.
  assert (Hid : id ∈ s_dl s \/ id ∈ s_free s) by (right; rewrite Ef; left). pose proof (re_range id Hid) as Ri.
  assert (Nd : id ∉ s_dl s) by (intros ?; apply (re_disjoint id); [done|rewrite Ef; left]).
  assert (Nf : id ∉ free) by (pose proof re_nodup as X; rewrite Ef in X; apply NoDup_middle in X; tauto).
  assert (Nu : id ∉ s_ul s) by (by rewrite in_ul).
  assert (HN : NUMBER_OF_UE_MAX = Z.of_nat N) by done.
  rewrite (proj2 (Z.leb_le 0 id)), (proj2 (Z.ltb_lt id NUMBER_OF_UE_MAX)) by lia. cbn [assert_fatal]. step_ok. rewrite Ena. step_ok.
  destruct Sh.
  destruct (set_elem_in (next u) id (head u) ltac:(lia)) as (nx & -> & Lnx & Enx & Anx). step_ok.
  destruct (set_elem_in (next_ul u) id (head_ul u) ltac:(lia)) as (nu & -> & Lnu & Enu & Anu). step_ok.
  match goal with |- context [upd_elem2 (UE_template u) cc id ?f] =>
    destruct (upd_elem2_ok (UE_template u) ccs N cc id f sh_template0 ltac:(lia) ltac:(lia)) as (t & v & -> & Rt & Ev & Et & At) end. step_ok.
  destruct (set_elem_in (numactiveCCs u) id 1 ltac:(lia)) as (n1 & -> & Ln1 & _). step_ok.
  destruct (set_elem_in (numactiveULCCs u) id 1 ltac:(lia)) as (n2 & -> & Ln2 & _). step_ok.
  destruct (set_elem_in (pCC_id u) id cc ltac:(lia)) as (p & -> & Lp & Ep & Ap). step_ok.
  destruct (set_elem_in (ordered_CCids u) id cc ltac:(lia)) as (o1 & -> & Lo1 & _). step_ok.
  destruct (set_elem_in (ordered_ULCCids u) id cc ltac:(lia)) as (o2 & -> & Lo2 & _). step_ok.
  destruct (set_elem_in (active u) id true ltac:(lia)) as (act & -> & Lact & Eact & Aact). step_ok.
  destruct (set_elem_in (sched_ctrl u) id ctrl_zero ltac:(lia)) as (sc & -> & Lsc & _). step_ok.
  match goal with |- context [upd_elem2 (eNB_ulsch_info u) cc id ?f] =>
    destruct (upd_elem2_ok (eNB_ulsch_info u) ccs N cc id f sh_ul0 ltac:(lia) ltac:(lia)) as (ui & ? & -> & Rui & _) end. step_ok.
  match goal with |- context [upd_elem2 (eNB_dlsch_info u) cc id ?f] =>
    destruct (upd_elem2_ok (eNB_dlsch_info u) ccs N cc id f sh_dl0 ltac:(lia) ltac:(lia)) as (di & ? & -> & Rdi & _) end. step_ok.
  eexists. split; [reflexivity|]. split; cbn.
  - eapply chain_cons; [exact Enx|exact Anx|done|apply (re_dl _ _ _ R)].
  - eapply chain_cons; [exact Enu|exact Anu|done|apply (re_ul _ _ _ R)].
  - eapply seg_ext; [|exact Cf]. intros y Hy. apply Anx. by intros ->.
  - rewrite <- (re_all _ _ _ R), Ef. solve_Permutation.
  - by rewrite (re_same _ _ _ R).
  - rewrite (re_count _ _ _ R). lia.
  - intros y [->|Hy]%elem_of_cons.
    + exists r. rewrite fn_lookup_insert. split; [done|]. exists cc. eexists. split; [exact Ep|]. split; [lia|]. split; [exact Et|]. by destruct v.
    + assert (y <> id) by (by intros ->). destruct (re_rnti _ _ _ R y Hy) as (r' & Er & cc' & t' & E1 & E2 & E3 & E4).
      exists r'. rewrite fn_lookup_insert_ne by done. split; [done|]. exists cc', t'. rewrite Ap, At by done. done.
  - intros y Hy. destruct (decide (y = id)) as [->|D].
    + rewrite Eact. f_equal. symmetry. apply bool_decide_true. left.
    + rewrite Aact, (re_active _ _ _ R) by done. f_equal. apply bool_decide_ext. rewrite elem_of_cons. tauto.
  - split; cbn; try done; lia.
Qed.

Lemma swap_refines i j ul x s' : spec_step ccs (Swap_ues i j ul) s = Some (x, s') ->
  exists u', ue_step (Swap_ues i j ul) u = Ok (x, u') /\ represents ccs u' s'.
Proof.
  cbn [spec_step ue_step]. case_decide as D; [|done]. destruct D as (Hi & Hj & D). intros [= <- <-]. unfold swap_UEs. pose proof (re_shape _ _ _ R) as Sh. destruct Sh.
  destruct ul.
  - destruct (swap_spec (next_ul u) (head_ul u) (s_ul s) i j re_nodup_ul (re_ul _ _ _ R)) as (nx & h & E & C & L & A); try done; try by apply in_ul.
    rewrite E. repeat step_ok. eexists. split; [reflexivity|]. destruct R. split; cbn; try done.
    + etrans; [|done]. apply exchange_perm; [apply re_nodup_ul|by apply in_ul|by apply in_ul].
    + split; cbn; try done; lia.
  - destruct (swap_spec (next u) (head u) (s_dl s) i j re_nodup_dl (re_dl _ _ _ R)) as (nx & h & E & C & L & A); try done.
    rewrite E. repeat step_ok. assert (P : exchange i j (s_dl s) ≡ₚ s_dl s) by (apply exchange_perm; [apply re_nodup_dl|done|done]).
    eexists. split; [reflexivity|]. destruct R. split; cbn; try done.
    + eapply seg_ext; [|exact re_free0]. intros y Hy. apply A. intros Hy'. by apply (re_disjoint y).
    + by rewrite P.
    + by rewrite P.
    + rewrite re_count0. by rewrite P.
    + intros y Hy. apply re_rnti0. by rewrite <- P.
    + intros y Hy. rewrite re_active0 by done. f_equal. apply bool_decide_ext. by rewrite P.
    + split; cbn; try done; lia.
Qed.

(** An element is taken out of one of the orders. *)
Lemma unlink_without nx h id l : NoDup l -> chain nx h l -> id ∈ l -> exists nx' h',
  unlink nx h id = Ok (Some (nx', h')) /\ chain nx' h' (without id l) /\ length nx' = length nx /\ (forall y, y ∉ l -> elem nx' y = elem nx y).
Proof using Type.
  intros N C (l1 & l2 & ->)%list_elem_of_split. destruct (unlink_spec nx h l1 id l2 N C) as (nx' & h' & E & C' & L & A).
  exists nx', h'. rewrite without_split by done. split_and!; try done. intros y Hy. apply A. intros ?. apply Hy, elem_of_app. by left.
Qed.

Lemma in_without y id l : y ∈ without id l <-> y <> id /\ y ∈ l.
Proof using Type. unfold without. by rewrite list_elem_of_filter. Qed.

Lemma remove_refines r x s' : spec_step ccs (Remove_ue r) s = Some (x, s') ->
  exists u', rrc_mac_remove_ue r u = Ok (x, u') /\ represents ccs u' s'.
Proof.
  intros H. unfold spec_step in H. destruct (spec_find s r) as [id|] eqn:Ef; [|done]. injection H as <- <-. unfold rrc_mac_remove_ue.
  rewrite find_UE_id_spec, Ef. step_ok. cbn [default from_option Datatypes.id]. unfold spec_find in Ef. apply find_split in Ef as (l1 & l2 & El & _ & _).
  assert (Hid : id ∈ s_dl s) by (rewrite El; apply elem_of_app; right; left). clear l1 l2 El.
  pose proof (re_range id (or_introl Hid)) as Ri. assert (HN : NUMBER_OF_UE_MAX = Z.of_nat N) by done.
  destruct (re_rnti _ _ _ R id Hid) as (r0 & _ & cc & t0 & Ec & Hc & _ & _). unfold UE_PCCID. rewrite Ec. step_ok.
  rewrite (proj2 (Z.eqb_neq id (-1))) by lia. pose proof (re_shape _ _ _ R) as Sh. destruct Sh.
  match goal with |- context [upd_elem2 (UE_template u) cc id ?f] =>
    destruct (upd_elem2_ok (UE_template u) ccs N cc id f sh_template0 ltac:(lia) ltac:(lia)) as (t & v & -> & Rt & Ev & Et & At) end. step_ok.
  match goal with |- context [upd_elem2 (eNB_ulsch_info u) cc id ?f] =>
    destruct (upd_elem2_ok (eNB_ulsch_info u) ccs N cc id f sh_ul0 ltac:(lia) ltac:(lia)) as (ui & ? & -> & Rui & _) end. step_ok.
  match goal with |- context [upd_elem2 (eNB_dlsch_info u) cc id ?f] =>
    destruct (upd_elem2_ok (eNB_dlsch_info u) ccs N cc id f sh_dl0 ltac:(lia) ltac:(lia)) as (di & ? & -> & Rdi & _) end. step_ok.
  rsimpl. destruct (unlink_without (next u) (head u) id (s_dl s) re_nodup_dl (re_dl _ _ _ R) Hid) as (nx & h & -> & C & L & A). step_ok.
  destruct (set_elem_in nx id (avail u) ltac:(lia)) as (nx2 & -> & L2 & E2 & A2). step_ok.
  destruct (set_elem_in (active u) id false ltac:(lia)) as (act & -> & Lact & Eact & Aact). repeat step_ok. rsimpl.
  destruct (unlink_without (next_ul u) (head_ul u) id (s_ul s) re_nodup_ul (re_ul _ _ _ R) (proj2 (in_ul id) Hid)) as (nu & hu & -> & Cu & Lu & Au). step_ok.
  destruct (set_elem_in nu id id ltac:(lia)) as (nu2 & -> & Lu2 & Eu2 & Au2). repeat step_ok. cbn [assert_fatal]. step_ok.
  eexists. split; [reflexivity|]. pose proof (without_perm id (s_dl s) re_nodup_dl Hid) as P.
  assert (O : forall y, y ∈ without id (s_dl s) -> y <> id /\ y ∈ s_dl s) by (intros y; apply in_without).
  split; rsimpl; cbn [s_dl s_ul s_free s_rnti].
  - eapply seg_ext; [|exact C]. intros y [Hy _]%O. by apply A2.
  - eapply seg_ext; [|exact Cu]. intros y [Hy _]%in_without. by apply Au2.
  - eapply (chain_cons nx); [exact E2|exact A2| |].
    + intros ?. by apply (re_disjoint id).
    + eapply seg_ext; [|apply (re_free _ _ _ R)]. intros y Hy. apply A. intros ?. by apply (re_disjoint y).
  - trans ((id :: without id (s_dl s)) ++ s_free s); [solve_Permutation|]. rewrite P. apply (re_all _ _ _ R).
  - apply (Permutation.Permutation_cons_inv (a := id)). rewrite P, without_perm; [apply (re_same _ _ _ R)|apply re_nodup_ul|by apply in_ul].
  - rewrite (re_count _ _ _ R), <- (Permutation.Permutation_length P). cbn [length]. lia.
  - intros y [Hy Hd]%O. destruct (re_rnti _ _ _ R y Hd) as (r' & Er & cc' & t' & E1' & E2' & E3' & E4').
    exists r'. rewrite fn_lookup_insert_ne by done. split; [done|]. exists cc', t'. rsimpl. by rewrite At.
  - intros y Hy. destruct (decide (y = id)) as [->|D].
    + rewrite Eact. f_equal. symmetry. apply bool_decide_false. by intros [? _]%O.
    + rewrite Aact, (re_active _ _ _ R) by done. f_equal. apply bool_decide_ext. rewrite in_without. tauto.
  - split; rsimpl; try done; lia.
Qed.

Lemma step_refines op x s' : spec_step ccs op s = Some (x, s') -> exists u', ue_step op u = Ok (x, u') /\ represents ccs u' s'.
Proof. destruct op; [apply add_refines|apply remove_refines|apply swap_refines]. Qed.

End Step.

Lemma run_refines ccs ops u s xs s' : represents ccs u s -> spec_run ccs ops s = Some (xs, s') ->
  exists u', ue_run ops u = Ok (xs, u') /\ represents ccs u' s'.
Proof.
  revert u s xs s'. induction ops as [|op ops IH]; intros u s xs s' R; cbn.
  - intros [= <- <-]. by exists u.
  - destruct (spec_step ccs op s) as [[x s1]|] eqn:E1; [|done]. cbn. destruct (spec_run ccs ops s1) as [[ys s2]|] eqn:E2; [|done]. cbn.
    intros [= <- <-]. destruct (step_refines ccs u s R op x s1 E1) as (u1 & -> & R1). step_ok.
    destruct (IH u1 s1 ys s2 R1 E2) as (u2 & -> & R2). step_ok. by exists u2.
Qed.

Lemma initial_represents ccs : represents ccs (initial_list ccs) initial_spec.
Proof.
  assert (Rr : forall A (v : A), rows (replicate ccs (replicate N v)) ccs N).
  { intros. split; [apply length_replicate|]. apply Forall_replicate. apply length_replicate. }
  split; try done.
  - unfold chain. cbn. repeat (split; [done|]; eexists; split; [reflexivity|]). done.
  - intros id Hid. by apply not_elem_of_nil in Hid.
  - intros id Hid. unfold initial_list, elem. cbn [active]. rewrite (proj2 (Z.leb_le _ _)) by lia. rewrite lookup_replicate_2 by lia. done.
  - split; try done; apply Rr.
Qed.

(** ** Claims *)

(** C13. The list of UEs of the eNB is a list of UEs. For every history of
    additions, removals of UEs that are there and exchanges of two UEs, from
    the initialisation, the linked arrays hold the abstract orders: nothing
    faults, the results are those of the abstract operations (an addition
    takes the first free entry, or returns -1 if all 16 are in use), an
    exchange of two UEs changes only their places in one of the orders, both
    directions have the same UEs, each of the 16 entries is in use or free and
    never both, [num_UEs] counts those in use, and [find_UE_id] finds the
    first UE with an RNTI. *)
Theorem ue_list_refines ccs ops xs s : spec_run ccs ops initial_spec = Some (xs, s) -> exists u,
  ue_run ops (initial_list ccs) = Ok (xs, u) /\
  chain (next u) (head u) (s_dl s) /\ chain (next_ul u) (head_ul u) (s_ul s) /\ chain (next u) (avail u) (s_free s) /\
  s_ul s ≡ₚ s_dl s /\ s_dl s ++ s_free s ≡ₚ seqZ 0 NUMBER_OF_UE_MAX /\ num_UEs u = Z.of_nat (length (s_dl s)) /\
  (forall r, find_UE_id u r = Ok (default (-1) (spec_find s r))).
Proof.
  intros H. destruct (run_refines ccs ops _ _ _ _ (initial_represents ccs) H) as (u & E & R). exists u.
  split_and!; try apply R; [done|]. intros r. by eapply find_UE_id_spec.
Qed.

(** The head exchanged with itself is its own successor: the list ends no
    more. *)
Lemma swap_self_cycle : exists u, ue_run [Add_ue 0 5 0; Add_ue 0 6 0; Swap_ues 1 1 false] (initial_list 1) = Ok ([0; 1; 0], u) /\
  head u = 1 /\ elem (next u) 1 = Ok 1 /\ find_UE_id u 7 = Fault OutOfFuel.
Proof. eexists. split; [reflexivity|]. split_and!; vm_compute; reflexivity. Qed.

(** Four UEs, two exchanges, the removal of a UE and its successor. *)
Definition sample_history : list ue_op :=
  [Add_ue 0 0x1234 0; Add_ue 1 0x1235 3; Add_ue 0 0x1236 1; Add_ue 0 0x1237 0; Swap_ues 0 3 false; Swap_ues 2 1 true;
   Remove_ue 0x1235; Add_ue 1 0x2345 2].

Lemma ue_list_refines_witness : exists u,
  ue_run sample_history (initial_list 2) = Ok ([0; 1; 2; 3; 0; 0; 0; 1], u) /\ chain (next u) (head u) [1; 0; 2; 3] /\
  chain (next_ul u) (head_ul u) [1; 3; 2; 0] /\ find_UE_id u 0x2345 = Ok 1.
Proof.
  destruct (spec_run 2 sample_history initial_spec) as [[xs s]|] eqn:E; [|vm_compute in E; discriminate].
  assert (Exs : fst <$> spec_run 2 sample_history initial_spec = Some [0; 1; 2; 3; 0; 0; 0; 1]) by (vm_compute; reflexivity).
  assert (Edl : (fun x => s_dl (snd x)) <$> spec_run 2 sample_history initial_spec = Some [1; 0; 2; 3]) by (vm_compute; reflexivity).
  assert (Eul : (fun x => s_ul (snd x)) <$> spec_run 2 sample_history initial_spec = Some [1; 3; 2; 0]) by (vm_compute; reflexivity).
  assert (Ef : (fun x => spec_find (snd x) 0x2345) <$> spec_run 2 sample_history initial_spec = Some (Some 1)) by (vm_compute; reflexivity).
  destruct (ue_list_refines 2 sample_history xs s E) as (u & Eu & D & U & _ & _ & _ & _ & F).
  rewrite E in Exs, Edl, Eul, Ef. cbn in Exs, Edl, Eul, Ef. injection Exs as Exs. injection Edl as Edl. injection Eul as Eul. injection Ef as Ef.
  exists u. specialize (F 0x2345). rewrite Exs in Eu. rewrite Edl in D. rewrite Eul in U. rewrite Ef in F. split_and!; [exact Eu|exact D|exact U|exact F].
Defined.

End MacUeListSpec.
