(* ===== verification/MacRxSdu.v ===== *)
(** * MAC of the eNB: uplink transport blocks

    [rx_sdu] (eNB_scheduler_ulsch.c of openair2/LAYER2/MAC), over the list of
    UEs of [MacUeList] and the RLC layer of [RlcLayer]. Calls of RRC and of the
    physical layer are listed; what is only logged is left out. *)

From S2P Require Import Prelude HashTable Collection RlcUmEntity RlcLayer MacHeader MacUeList.

Module MacRxSdu.
Import Collection MacHeader MacUeList.

Definition NB_RA_PROC_MAX : Z := 4.
Definition CCCH_PAYLOAD_SIZE_MAX : Z := 128.
Definition SCH_PAYLOAD_SIZE_MAX : Z := 4096.
Definition PHR_MAPPING_OFFSET : Z := 23.

(** *** State *)

Record RA_TEMPLATE : Type := mk_ra { RA_active : bool; ra_rnti : Z; cont_res_id : list Z; generate_Msg4 : Z; wait_ack_Msg4 : Z }.
#[export] Instance settable_ra : Settable RA_TEMPLATE := fun r =>
  mk_ra (RA_active r) (ra_rnti r) (cont_res_id r) (generate_Msg4 r) (wait_ack_Msg4 r).

Record eNB_UE_STATS : Type := mk_stats {
  num_pdu_rx : list Z; num_bytes_rx : list Z; num_errors_rx : Z; pdu_bytes_rx : Z; total_pdu_bytes_rx : Z;
  total_num_pdus_rx : Z; total_num_errors_rx : Z
}.
#[export] Instance settable_stats : Settable eNB_UE_STATS := fun s =>
  mk_stats (num_pdu_rx s) (num_bytes_rx s) (num_errors_rx s) (pdu_bytes_rx s) (total_pdu_bytes_rx s)
    (total_num_pdus_rx s) (total_num_errors_rx s).

(** [eNB_STATS]: [ulsch_bytes_rx] and the two totals. *)
Record eNB_MAC_INST : Type := mk_enb {
  UE_list : UE_list_t; RA_template : list (list RA_TEMPLATE); eNB_UE_stats : list (list eNB_UE_STATS); eNB_stats : list (Z * Z * Z)
}.
#[export] Instance settable_enb : Settable eNB_MAC_INST := fun e =>
  mk_enb (UE_list e) (RA_template e) (eNB_UE_stats e) (eNB_stats e).

Inductive enb_call : Type :=
| Ul_in_sync (rnti : Z)
| Pusch_stats_bsr (UE_id bsr : Z)
| Enb_rrc_data_ind (rnti : Z) (sdu : list Z).

Section Layer.
Context {T : Type} `{O : CollectionOps T RlcLayer.rlc_union_t}.
Notation layer := (RlcLayer.rlc_layer T).

(** What the function changes: [UE_id], the instance, [*msg3_flagP], RLC. *)
Record rx : Type := mk_rx { UE_id : Z; inst : eNB_MAC_INST; msg3_flag : option Z; rlc : layer; calls : list enb_call }.
#[export] Instance settable_rx : Settable rx := fun s => mk_rx (UE_id s) (inst s) (msg3_flag s) (rlc s) (calls s).

Definition emit (e : enb_call) (s : rx) : rx := s <| calls ::= fun l => l ++ [e] |>.
Definition set_list (u : UE_list_t) (s : rx) : rx := s <| inst ::= fun e => e <| UE_list := u |> |>.
Definition ues (s : rx) : UE_list_t := UE_list (inst s).

Definition on_template (cc id : Z) (f : UE_TEMPLATE -> res UE_TEMPLATE) (s : rx) : res rx :=
  r ← elem (UE_template (ues s)) cc; t ← elem r id; t ← f t; r ← set_elem r id t; rs ← set_elem (UE_template (ues s)) cc r;
  Ok (set_list ((ues s) <| UE_template := rs |>) s).
Definition on_ctrl (id : Z) (f : UE_sched_ctrl -> UE_sched_ctrl) (s : rx) : res rx :=
  c ← upd_elem (sched_ctrl (ues s)) id f; Ok (set_list ((ues s) <| sched_ctrl := c |>) s).
Definition on_stats (cc id : Z) (f : eNB_UE_STATS -> res eNB_UE_STATS) (s : rx) : res rx :=
  r ← elem (eNB_UE_stats (inst s)) cc; t ← elem r id; t ← f t; r ← set_elem r id t; rs ← set_elem (eNB_UE_stats (inst s)) cc r;
  Ok (s <| inst ::= fun e => e <| eNB_UE_stats := rs |> |>).

(** The UE was heard: [name] is the RNTI given to RRC. *)
Definition heard (name : UE_list_t -> res Z) (s : rx) : res rx :=
  let id := UE_id s in
  s ← on_ctrl id (fun c => c <| ul_inactivity_timer := 0 |> <| ul_failure_timer := 0 |>) s;
  c ← elem (sched_ctrl (ues s)) id;
  if 0 <? ul_out_of_sync c then
    s ← on_ctrl id (fun c => c <| ul_out_of_sync := 0 |>) s;
    r ← name (ues s);
    Ok (emit (Ul_in_sync r) s)
  else Ok s.

Definition clear_scheduled (harq_pidP : Z) (c : UE_sched_ctrl) : UE_sched_ctrl :=
  c <| ul_scheduled ::= fun v => Z.land v (Z.lnot (Z.shiftl 1 harq_pidP)) |>.

(** ** Control elements *)

Definition set_short_bsr (frame lcgid size : Z) (t : UE_TEMPLATE) : res UE_TEMPLATE :=
  b ← set_elem (bsr_info t) lcgid size;
  n ← elem BSR_TABLE size;
  i ← set_elem (ul_buffer_info t) lcgid n;
  c ← upd_elem (ul_buffer_creation_time t) lcgid (fun v => if v =? 0 then frame else v);
  Ok (t <| bsr_info := b |> <| ul_buffer_info := i |> <| ul_total_buffer := n |> <| ul_buffer_creation_time := c |>).

(** One group of a long report: the buffer of the group and the total. *)
Definition update_group (t : UE_TEMPLATE) (lcgid : Z) : res UE_TEMPLATE :=
  old ← elem (ul_buffer_info t) lcgid;
  size ← elem (bsr_info t) lcgid;
  n ← elem BSR_TABLE size;
  i ← set_elem (ul_buffer_info t) lcgid n;
  let total := u32 (ul_total_buffer t + n) in
  Ok (t <| ul_buffer_info := i |> <| ul_total_buffer := if old <=? total then total - old else 0 |>).

Definition update_creation (frame : Z) (t : UE_TEMPLATE) (lcgid : Z) : res UE_TEMPLATE :=
  size ← elem (bsr_info t) lcgid;
  c ← upd_elem (ul_buffer_creation_time t) lcgid (fun v => if size =? 0 then 0 else if v =? 0 then frame else v);
  Ok (t <| ul_buffer_creation_time := c |>).

Fixpoint each_group (f : UE_TEMPLATE -> Z -> res UE_TEMPLATE) (groups : list Z) (t : UE_TEMPLATE) : res UE_TEMPLATE :=
  match groups with
  | [] => Ok t
  | g :: groups => t ← f t g; each_group f groups t
  end.

Definition set_long_bsr (frame p0 p1 p2 : Z) (t : UE_TEMPLATE) : res UE_TEMPLATE :=
  let t := t <| bsr_info := [Z.shiftr (Z.land p0 0xfc) 2;
                             Z.lor (Z.shiftl (Z.land p0 0x03) 4) (Z.shiftr (Z.land p1 0xf0) 4);
                             Z.lor (Z.shiftl (Z.land p1 0x0f) 2) (Z.shiftr (Z.land p2 0xc0) 6);
                             Z.land p2 0x3f] |> in
  t ← each_group update_group [0; 1; 2; 3] t;
  each_group (update_creation frame) [0; 1; 2; 3] t.

(** One turn of the loop over [rx_ces], with [payload_ptr] at [p]. *)
Definition rx_control_element (cc frame : Z) (block : list Z) (p : nat) (ce : Z) (s : rx) : res rx :=
  if ce =? POWER_HEADROOM then
    s ← (if UE_id s =? -1 then Ok s
         else
           b ← get block p;
           on_template cc (UE_id s) (fun t => Ok (t <| phr_info := Z.land b 0x3f - PHR_MAPPING_OFFSET |> <| phr_info_configured := 1 |>)) s);
    on_ctrl (UE_id s) (fun c => c <| phr_received := 1 |>) s
  else if ce =? CRNTI then
    b0 ← get block p; b1 ← get block (p + 1);
    let r := Z.shiftl b0 8 + b1 in
    id ← find_UE_id (ues s) r;
    let s := s <| UE_id := id |> in
    s ← (if id =? -1 then Ok s else heard (fun _ => Ok r) s);
    Ok (s <| msg3_flag ::= fun o => match o with Some _ => Some 0 | None => None end |>)
  else if (ce =? TRUNCATED_BSR) || (ce =? SHORT_BSR) then
    b ← get block p;
    if UE_id s =? -1 then Ok s
    else
      s ← on_template cc (UE_id s) (set_short_bsr frame (Z.shiftr b 6) (Z.land b 0x3f)) s;
      Ok (emit (Pusch_stats_bsr (UE_id s) (Z.land b 0x3f)) s)
  else if ce =? LONG_BSR then
    if UE_id s =? -1 then Ok s
    else
      p0 ← get block p; p1 ← get block (p + 1); p2 ← get block (p + 2);
      on_template cc (UE_id s) (set_long_bsr frame p0 p1 p2) s
  else Ok s.

(** By which [payload_ptr] is advanced. *)
Definition rx_ce_size (ce : Z) : nat :=
  if (ce =? POWER_HEADROOM) || (ce =? TRUNCATED_BSR) || (ce =? SHORT_BSR) then 1
  else if ce =? CRNTI then 2 else if ce =? LONG_BSR then 3 else 0.

Fixpoint rx_control_elements (cc frame : Z) (block : list Z) (p : nat) (ces : list Z) (s : rx) : res (nat * rx) :=
  match ces with
  | [] => Ok (p, s)
  | ce :: ces => s ← rx_control_element cc frame block p ce s; rx_control_elements cc frame block (p + rx_ce_size ce) ces s
  end.

(** ** SDUs *)

(** The loop over the random access processes, for an SDU of CCCH at [p]. *)
Fixpoint rx_ccch (cc rntiP harq_pidP : Z) (rrc_registered : bool) (block : list Z) (p : nat) (len : Z) (procs : list Z) (s : rx) : res rx :=
  match procs with
  | [] => Ok s
  | ii :: procs =>
      ra ← elem2 (RA_template (inst s)) cc ii;
      s ← (if (ra_rnti ra =? rntiP) && RA_active ra then
             s ← (if UE_id s <? 0 then
                    id6 ← bytes_at block p 6;
                    ras ← upd_elem2 (RA_template (inst s)) cc ii (fun ra => ra <| cont_res_id := id6 |>);
                    '(id, u) ← add_new_ue cc (ra_rnti ra) harq_pidP (ues s);
                    _ ← assert_fatal (negb (id =? -1));
                    Ok ((set_list u s) <| inst ::= fun e => e <| RA_template := ras |> |> <| UE_id := id |>)
                  else Ok s);
             s ← (if rrc_registered then sdu ← bytes_at block p len; Ok (emit (Enb_rrc_data_ind rntiP sdu) s) else Ok s);
             ras ← upd_elem2 (RA_template (inst s)) cc ii (fun ra => ra <| generate_Msg4 := 1 |> <| wait_ack_Msg4 := 0 |>);
             Ok (s <| inst ::= fun e => e <| RA_template := ras |> |>)
           else Ok s);
      rx_ccch cc rntiP harq_pidP rrc_registered block p len procs s
  end.

(** The data is no longer in the buffer of the UE. *)
Definition adjust_buffer (lcid len : Z) (t : UE_TEMPLATE) : res UE_TEMPLATE :=
  g ← elem (lcgidmap t) lcid;
  i ← upd_elem (ul_buffer_info t) g (fun v => if len <=? v then v - len else 0);
  Ok (t <| ul_buffer_info := i |>).

Definition count_pdu (lcid len : Z) (st : eNB_UE_STATS) : res eNB_UE_STATS :=
  n ← upd_elem (num_pdu_rx st) lcid (fun v => u32 (v + 1));
  b ← upd_elem (num_bytes_rx st) lcid (fun v => u32 (v + len));
  Ok (st <| num_pdu_rx := n |> <| num_bytes_rx := b |>).

(** [c]: the context of the call of RLC, with the RNTI of the grant. *)
Definition rx_to_rlc (c : RlcLayer.layer_ctxt) (cc lcid : Z) (block : list Z) (p : nat) (len : Z) (s : rx) : res rx :=
  l ← RlcLayer.mac_rlc_data_ind c false lcid (drop p block) len 1 (rlc s);
  on_stats cc (UE_id s) (count_pdu lcid len) (s <| rlc := l |>).

Definition rx_one_sdu (c : RlcLayer.layer_ctxt) (cc harq_pidP : Z) (rrc_registered : bool) (block : list Z) (p : nat) (lcid len : Z) (s : rx) : res rx :=
  if lcid =? CCCH then
    if CCCH_PAYLOAD_SIZE_MAX <? len then Ok s
    else rx_ccch cc (RlcLayer.rnti c) harq_pidP rrc_registered block p len (seqZ 0 NB_RA_PROC_MAX) s
  else if (lcid =? DCCH) || (lcid =? DCCH1) then
    if UE_id s =? -1 then Ok s
    else s ← on_template cc (UE_id s) (adjust_buffer lcid len) s; rx_to_rlc c cc lcid block p len s
  else if lcid =? DTCH then
    if UE_id s =? -1 then Ok s
    else
      s ← on_template cc (UE_id s) (adjust_buffer lcid len) s;
      if (len <? SCH_PAYLOAD_SIZE_MAX) && (0 <? len) then rx_to_rlc c cc DTCH block p len s else Ok s
  else if UE_id s =? -1 then Ok s
  else on_stats cc (UE_id s) (fun st => Ok (st <| num_errors_rx ::= fun n => u32 (n + 1) |>)) s.

Fixpoint rx_sdus_loop (c : RlcLayer.layer_ctxt) (cc harq_pidP : Z) (rrc_registered : bool) (block : list Z) (p : nat) (sdus : list (Z * Z)) (s : rx) : res rx :=
  match sdus with
  | [] => Ok s
  | (lcid, len) :: sdus =>
      s ← rx_one_sdu c cc harq_pidP rrc_registered block p lcid len s;
      rx_sdus_loop c cc harq_pidP rrc_registered block (p + Z.to_nat len) sdus s
  end.

(** ** The function *)

Definition rx_known_ue (harq_pidP : Z) (s : rx) : res rx :=
  if UE_id s =? -1 then Ok s
  else s ← on_ctrl (UE_id s) (clear_scheduled harq_pidP) s; heard (fun u => UE_RNTI u (UE_id s)) s.

Definition count_block (sdu_lenP : Z) (x : Z * Z * Z) : Z * Z * Z :=
  let '(_, bytes, pdus) := x in (sdu_lenP, u32 (bytes + sdu_lenP), u32 (pdus + 1)).

Definition rx_end (cc sdu_lenP : Z) (empty : bool) (s : rx) : res rx :=
  if empty then
    s ← (if UE_id s =? -1 then Ok s else on_stats cc (UE_id s) (fun st => Ok (st <| total_num_errors_rx ::= fun n => u32 (n + 1) |>)) s);
    Ok (s <| msg3_flag ::= fun o => match o with Some v => Some (if v =? 1 then 0 else v) | None => None end |>)
  else if UE_id s =? -1 then Ok s
  else
    on_stats cc (UE_id s) (fun st => Ok (st <| pdu_bytes_rx := sdu_lenP |> <| total_pdu_bytes_rx ::= fun n => u64 (n + sdu_lenP) |>
      <| total_num_pdus_rx ::= fun n => u32 (n + 1) |>)) s.

(** [sduP] is [None] when the physical layer has given up. The RNTI of the
    grant is in [c]. *)
Definition rx_sdu (c : RlcLayer.layer_ctxt) (cc frame harq_pidP : Z) (rrc_registered : bool) (sduP : option (list Z)) (sdu_lenP : Z) (msg3 : option Z)
    (e : eNB_MAC_INST) (l : layer) : res rx :=
  id ← find_UE_id (UE_list e) (RlcLayer.rnti c);
  let s := mk_rx id e msg3 l [] in
  match sduP with
  | None => on_ctrl id (clear_scheduled harq_pidP) s
  | Some block =>
      s ← rx_known_ue harq_pidP s;
      h ← parse_ulsch_header block sdu_lenP;
      st ← upd_elem (eNB_stats (inst s)) cc (count_block sdu_lenP);
      let s := s <| inst ::= fun e => e <| eNB_stats := st |> |> in
      '(p, s) ← rx_control_elements cc frame block (parsed_ptr h) (rx_ces h) s;
      s ← rx_sdus_loop c cc harq_pidP rrc_registered block p (rx_sdus h) s;
      rx_end cc sdu_lenP (bool_decide (rx_sdus h = [] /\ rx_ces h = [])) s
  end.

End Layer.
End MacRxSdu.
