(* ===== verification/MacUlsch.v ===== *)
(** * An uplink transport block, from the UE to the eNB

    What [generate_ulsch_header] and [ue_get_sdu] make of SDUs and control
    elements, [rx_sdu] takes apart: it does with each what it would do with its
    bytes alone. *)

From S2P Require Import Prelude HashTable Collection RlcUmEntity RlcLayer RlcLayerProofs MacHeader MacHeaderProofs MacUe MacDlsch MacUeList MacRxSdu.

Module MacUlsch.
Import Collection MacHeader MacHeaderProofs MacDlsch MacUeList MacRxSdu.

(** ** Control elements with their bytes *)

Definition ul_bsr (bsr : bsr_arg) : list (Z * list Z) :=
  match bsr with
  | No_bsr => []
  | Truncated_bsr b => [(TRUNCATED_BSR, [b])]
  | Short_bsr b => [(SHORT_BSR, [b])]
  | Long_bsr sizes => [(LONG_BSR, take 3 (bsr_long_bytes sizes))]
  end.

Definition ul_ces (phr crnti : option Z) (bsr : bsr_arg) : list (Z * list Z) :=
  match phr with Some b => [(POWER_HEADROOM, [b])] | None => [] end ++
  match crnti with Some r => [(CRNTI, [Z.land r 0xff; Z.land (Z.shiftr r 8) 0xff])] | None => [] end ++ ul_bsr bsr.

(** The byte of a long report that no reader counts. *)
Definition uncounted (bsr : bsr_arg) : list Z := match bsr with Long_bsr _ => [0] | _ => [] end.

Definition ce_payload (ces : list (Z * list Z)) : list Z := ces ≫= snd.

Lemma ulsch_ces_payload phr crnti bsr : ulsch_ces phr crnti bsr = ce_payload (ul_ces phr crnti bsr) ++ uncounted bsr.
Proof. by destruct phr, crnti, bsr as [| | |[[[? ?] ?] ?]]. Qed.

Lemma ces_of_ulsch phr crnti bsr sp : ces_of (ulsch_fixed phr crnti bsr sp) = fst <$> ul_ces phr crnti bsr.
Proof.
  unfold ulsch_fixed. rewrite !ces_of_app. assert (ces_of (pad_items sp) = []) as -> by (unfold pad_items; repeat case_match; done).
  by destruct phr, crnti, bsr as [| | |[[[? ?] ?] ?]].
Qed.

Definition ulsch_ce (l : Z) : Z :=
  if l =? LONG_BSR then 3 else if l =? CRNTI then 2
  else if (l =? POWER_HEADROOM) || (l =? TRUNCATED_BSR) || (l =? SHORT_BSR) then 1 else 0.

Lemma ul_ces_sized phr crnti bsr : Forall (fun x => length (snd x) = rx_ce_size (fst x)) (ul_ces phr crnti bsr).
Proof. destruct phr, crnti, bsr as [| | |[[[? ?] ?] ?]]; repeat constructor. Qed.

Lemma ces_size_ulsch phr crnti bsr sp :
  ces_size ulsch_ce (ulsch_fixed phr crnti bsr sp) = Z.of_nat (length (ce_payload (ul_ces phr crnti bsr))).
Proof. unfold ces_size. rewrite ces_of_ulsch. by destruct phr, crnti, bsr as [| | |[[[? ?] ?] ?]]. Qed.

(** ** SDUs cut from bytes *)

Fixpoint cut (lens : list (Z * Z)) (bytes : list Z) : list (Z * list Z) :=
  match lens with
  | [] => []
  | (lcid, n) :: lens => (lcid, take (Z.to_nat n) bytes) :: cut lens (drop (Z.to_nat n) bytes)
  end.

Lemma cut_payload sdus rest : cut (lengths sdus) (payload sdus ++ rest) = sdus.
Proof.
  induction sdus as [|[l d] sdus IH]; [done|]. cbn [lengths fmap list_fmap cut fst snd]. change (payload ((l, d) :: sdus)) with (d ++ payload sdus).
  rewrite Nat2Z.id, <- app_assoc, take_app_length, drop_app_length. f_equal. exact IH.
Qed.

Lemma cut_spec sdus bytes : (length (payload sdus) <= length bytes)%nat -> exists rest,
  bytes = payload (cut (lengths sdus) bytes) ++ rest /\ lengths (cut (lengths sdus) bytes) = lengths sdus.
Proof.
  revert bytes. induction sdus as [|[l d] sdus IH]; intros bytes H; cbn [lengths fmap list_fmap cut fst snd].
  { by exists bytes. }
  change (payload ((l, d) :: sdus)) with (d ++ payload sdus) in H. rewrite length_app in H. rewrite Nat2Z.id.
  destruct (IH (drop (length d) bytes)) as (rest & E & L); [rewrite length_drop; lia|]. exists rest. split.
  - fold (lengths sdus). set (x := cut (lengths sdus) _) in *. change (payload ((l, take (length d) bytes) :: x)) with (take (length d) bytes ++ payload x).
    by rewrite <- app_assoc, <- E, take_drop.
  - cbn [fst snd]. f_equal; [|exact L]. by rewrite length_take, Nat.min_l by lia.
Qed.

(** An SDU of CCCH has the identity for the contention resolution. *)
Definition ccch_long (s : Z * list Z) : Prop := fst s = CCCH -> (6 <= length (snd s))%nat.

Lemma ccch_long_lengths sdus sdus' : lengths sdus' = lengths sdus -> Forall ccch_long sdus -> Forall ccch_long sdus'.
Proof.
  revert sdus'. induction sdus as [|[l d] sdus IH]; intros [|[l' d'] sdus'] E F; try done. injection E as -> E' E.
  apply Forall_cons in F as [H F]. constructor; [|by apply IH]. intros Hl. specialize (H Hl). cbn in *. lia.
Qed.

Section Layer.
Context {T : Type} `{O : CollectionOps T RlcLayer.rlc_union_t}.
Notation layer := (RlcLayer.rlc_layer T).
Notation rx := (MacRxSdu.rx (T := T)).

(** ** A handler sees only its own bytes *)

Lemma get_within pre bytes rest k : (k < length bytes)%nat -> get (pre ++ bytes ++ rest) (length pre + k) = get bytes k.
Proof. intros H. unfold get. rewrite lookup_app_r by lia. rewrite (Nat.add_comm (length pre)), Nat.add_sub. by rewrite lookup_app_l. Qed.

Lemma ce_local cc frame pre bytes rest ce (s : rx) : length bytes = rx_ce_size ce ->
  rx_control_element cc frame (pre ++ bytes ++ rest) (length pre) ce s = rx_control_element cc frame bytes 0 ce s.
Proof.
  intros L. unfold rx_ce_size in L.
  assert (G : forall k, (k < length bytes)%nat -> get (pre ++ bytes ++ rest) (length pre + k) = get bytes k) by (intros; by apply get_within).
  pose proof (G 0%nat) as G0. rewrite Nat.add_0_r in G0. unfold rx_control_element. rewrite !Nat.add_0_l.
  destruct (ce =? POWER_HEADROOM).
  { cbn [orb] in L. by rewrite G0 by lia. }
  destruct (Z.eqb_spec ce CRNTI) as [->|].
  { cbn in L. by rewrite G0, G by lia. }
  cbn [orb] in L. destruct ((ce =? TRUNCATED_BSR) || (ce =? SHORT_BSR)); [by rewrite G0 by lia|].
  destruct (ce =? LONG_BSR); [by rewrite G0, !G by lia|done].
Qed.

Fixpoint take_ces (cc frame : Z) (ces : list (Z * list Z)) (s : rx) : res rx :=
  match ces with
  | [] => Ok s
  | (ce, bytes) :: ces => s ← rx_control_element cc frame bytes 0 ce s; take_ces cc frame ces s
  end.

Lemma ces_local cc frame pre ces rest (s : rx) : Forall (fun x => length (snd x) = rx_ce_size (fst x)) ces ->
  rx_control_elements cc frame (pre ++ ce_payload ces ++ rest) (length pre) (fst <$> ces) s =
  (s ← take_ces cc frame ces s; Ok (length (pre ++ ce_payload ces), s)).
Proof.
  revert pre s. induction ces as [|[ce bytes] ces IH]; intros pre s F.
  { cbn. by rewrite app_nil_r. }
  apply Forall_cons in F as [L F]. cbn [fst snd] in L. cbn [fmap list_fmap fst rx_control_elements take_ces].
  change (ce_payload ((ce, bytes) :: ces)) with (bytes ++ ce_payload ces). rewrite <- app_assoc, ce_local by done.
  destruct (rx_control_element cc frame bytes 0 ce s) as [s1|]; [|done]. repeat step_ok.
  rewrite <- L, <- length_app, (app_assoc pre bytes (ce_payload ces ++ rest)), IH by done. by rewrite <- app_assoc.
Qed.

Lemma bytes_within pre bytes rest n : 0 <= n <= Z.of_nat (length bytes) -> bytes_at (pre ++ bytes ++ rest) (length pre) n = bytes_at bytes 0 n.
Proof.
  intros H. unfold bytes_at. rewrite (proj2 (orb_false_iff _ (_ <? _))) by (rewrite !Z.ltb_ge, !length_app; lia).
  rewrite (proj2 (orb_false_iff _ (_ <? _))) by (rewrite !Z.ltb_ge; lia).
  rewrite drop_app_length, drop_0, take_app_le by lia. done.
Qed.

Lemma ccch_local cc r harq reg pre d rest procs (s : rx) : (6 <= length d)%nat ->
  rx_ccch cc r harq reg (pre ++ d ++ rest) (length pre) (Z.of_nat (length d)) procs s = rx_ccch cc r harq reg d 0 (Z.of_nat (length d)) procs s.
Proof.
  intros H. revert s. induction procs as [|ii procs IH]; intros s; [done|]. cbn [rx_ccch]. rewrite !bytes_within by lia.
  destruct (elem2 _ cc ii) as [ra|]; [|done]. step_ok. step_ok.
  match goal with |- ?m ≫= _ = _ => destruct m as [s1|]; [|done] end. repeat step_ok. apply IH.
Qed.

Lemma one_sdu_local c cc harq reg pre d rest lcid (s : rx) : (lcid = CCCH -> (6 <= length d)%nat) ->
  rx_one_sdu c cc harq reg (pre ++ d ++ rest) (length pre) lcid (Z.of_nat (length d)) s =
  rx_one_sdu c cc harq reg d 0 lcid (Z.of_nat (length d)) s.
Proof.
  intros H. unfold rx_one_sdu.
  assert (D : forall ch s, rx_to_rlc c cc ch (pre ++ d ++ rest) (length pre) (Z.of_nat (length d)) s = rx_to_rlc c cc ch d 0 (Z.of_nat (length d)) s).
  { intros ch s1. unfold rx_to_rlc. by rewrite drop_app_length, drop_0, data_ind_prefix. }
  destruct (Z.eqb_spec lcid CCCH) as [->|]; [by rewrite ccch_local by auto|].
  destruct ((lcid =? DCCH) || (lcid =? DCCH1)); [|destruct (lcid =? DTCH)]; (destruct (UE_id s =? -1); [done|]); try done;
    (destruct (on_template _ _ _ s) as [s1|]; [|done]); repeat step_ok; by rewrite D.
Qed.

Fixpoint take_sdus (c : RlcLayer.layer_ctxt) (cc harq : Z) (reg : bool) (sdus : list (Z * list Z)) (s : rx) : res rx :=
  match sdus with
  | [] => Ok s
  | (lcid, d) :: sdus => s ← rx_one_sdu c cc harq reg d 0 lcid (Z.of_nat (length d)) s; take_sdus c cc harq reg sdus s
  end.

Lemma sdus_local c cc harq reg pre sdus rest (s : rx) : Forall ccch_long sdus ->
  rx_sdus_loop c cc harq reg (pre ++ payload sdus ++ rest) (length pre) (lengths sdus) s = take_sdus c cc harq reg sdus s.
Proof.
  revert pre s. induction sdus as [|[lcid d] sdus IH]; intros pre s F; [done|]. apply Forall_cons in F as [H F].
  cbn [lengths fmap list_fmap fst snd rx_sdus_loop take_sdus]. change (payload ((lcid, d) :: sdus)) with (d ++ payload sdus).
  rewrite <- app_assoc, one_sdu_local by done. destruct (rx_one_sdu c cc harq reg d 0 lcid _ s) as [s1|]; [|done]. repeat step_ok.
  rewrite Nat2Z.id, <- length_app, (app_assoc pre d). by apply IH.
Qed.

(** ** The block *)

(** What the eNB does with the control elements and the SDUs of a block. *)
Definition take_ul_block (c : RlcLayer.layer_ctxt) (cc frame harq : Z) (reg : bool) (ces sdus : list (Z * list Z)) (tb : Z) (msg3 : option Z)
    (e : eNB_MAC_INST) (l : layer) : res rx :=
  id ← find_UE_id (UE_list e) (RlcLayer.rnti c);
  s ← rx_known_ue harq (mk_rx id e msg3 l []);
  st ← upd_elem (eNB_stats (inst s)) cc (count_block tb);
  s ← take_ces cc frame ces (s <| inst ::= fun e => e <| eNB_stats := st |> |>);
  s ← take_sdus c cc harq reg sdus s;
  rx_end cc tb false s.

Lemma ulsch_items_ok phr crnti bsr sp sdus :
  Forall (fun s => 0 <= fst s < EXTENDED_POWER_HEADROOM /\ Z.of_nat (length (snd s)) < 2 ^ 15) sdus ->
  Forall (item_ok EXTENDED_POWER_HEADROOM ulsch_ce_size ulsch_ce) (ulsch_fixed phr crnti bsr sp ++ sdu_items (lengths sdus)).
Proof.
  intros H.
  assert (C : forall l, In l [POWER_HEADROOM; CRNTI; TRUNCATED_BSR; SHORT_BSR; LONG_BSR; SHORT_PADDING] ->
    item_ok EXTENDED_POWER_HEADROOM ulsch_ce_size ulsch_ce (I_fixed l)).
  { intros l Hl. repeat destruct Hl as [<-|Hl]; try done; (split; [done|]); intros N; try done. }
  apply Forall_app. split.
  - unfold ulsch_fixed, pad_items, when_item, bsr_item. repeat (apply Forall_app; split); repeat case_match; repeat constructor; apply C; simpl; tauto.
  - unfold sdu_items, lengths. rewrite <- list_fmap_compose. apply Forall_fmap. eapply Forall_impl; [exact H|].
    intros [l d] [Hl Hd]. cbn [compose fst snd] in *. split; [done|]. lia.
Qed.

End Layer.
End MacUlsch.
