(* ===== verification/MacClaims.v ===== *)
(** * MAC: theorems on transport blocks *)

From S2P Require Import Prelude HashTable Collection RlcUmEntity RlcLayer RlcLayerProofs MacHeader MacHeaderProofs MacUe MacDlsch MacUeList MacRxSdu MacUlsch.

Module MacClaims.
Import Collection RlcLayer RlcLayerProofs MacHeader MacHeaderProofs MacUe MacDlsch MacUeList MacRxSdu MacUlsch.

Lemma length_item it : (1 <= length (item_bytes it) <= 3)%nat.
Proof. destruct it; simpl; [lia|]. case_match; simpl; lia. Qed.

Lemma length_flat items : (length (flat items) <= 3 * length items)%nat.
Proof.
  induction items as [|it items IH]; [done|]. unfold flat in *. rewrite bind_cons, length_app, length_marked.
  pose proof (length_item it). cbn [length]. lia.
Qed.

Lemma length_header items it post : (length (header_bytes items it post) <= 3 * length (items ++ [it]) + 1)%nat.
Proof.
  unfold header_bytes. pose proof (length_flat (items ++ [it])) as L. pose proof (length_item it).
  case_match; rewrite flat_snoc, !length_app, ?length_take in *; cbn [length] in *; lia.
Qed.

Lemma length_pads sp : (length (pad_items sp) <= 2)%nat.
Proof. unfold pad_items. repeat case_match; simpl; lia. Qed.

Lemma length_sdu_items sdus : length (sdu_items (lengths sdus)) = length sdus.
Proof. unfold sdu_items, lengths. by rewrite !length_fmap. Qed.

(** With at most 5 subheaders before 14 SDUs and 7 bytes of control elements
    the header stays far below the 256 that the result can say. *)
Lemma small_header fixed sdus items it post ces : (length fixed <= 5)%nat -> (length sdus <= 14)%nat -> (length ces <= 7)%nat ->
  fixed ++ sdu_items (lengths sdus) = items ++ [it] ->
  (length (flat (items ++ [it])) + 4 + length ces < 72)%nat /\ Z.of_nat (length (header_bytes items it post ++ ces)) < 72.
Proof.
  intros Hf Hs Hc E. assert (L : (length (items ++ [it]) <= 19)%nat) by (rewrite <- E, length_app, length_sdu_items; lia).
  pose proof (length_flat (items ++ [it])). pose proof (length_header items it post). rewrite (length_app (header_bytes _ _ _)). lia.
Qed.

Section Downlink.
Context {T : Type} `{O : CollectionOps T rlc_union_t}.

(** C14. A downlink transport block is taken apart as it was put together. Let
    the eNB write the header for one to 14 SDUs below 32 KiB, with or without
    timing advance, contention resolution identity and padding, and copy the
    SDUs behind it: the header takes less than 72 bytes, and whatever follows
    in the block, if the padding is announced or the block ends with the last
    SDU, the UE passes on the timing advance, decides the contention as it
    should and hands each SDU, with its bytes, to RRC or to RLC, in order. *)
Theorem dlsch_block_delivered (c : layer_ctxt) header sdus ta cr sp post ue (l : rlc_layer T) :
  (72 <= length header)%nat -> sdus <> [] -> (length sdus <= 14)%nat ->
  Forall (fun s => 0 <= fst s < UE_CONT_RES /\ Z.of_nat (length (snd s)) < 2 ^ 15) sdus ->
  id_ok cr -> (9 <= length (CCCH_pdu ue))%nat ->
  exists n buf, generate_dlsch_header header (lengths sdus) 255 ta cr sp post = Ok (n, buf) /\ 0 <= n < 72 /\
    forall rest tb, 0 < post \/ tb = n + Z.of_nat (length (payload sdus)) ->
      ue_send_sdu c (transport_block (n, buf) sdus rest) tb ue l = take_block c ta cr sdus ue l.
Proof.
  intros Hh Hne Hs F Hid Hc. set (fixed := dlsch_fixed 255 ta cr sp).
  assert (Of : only_fixed fixed) by (unfold fixed, dlsch_fixed; repeat (apply Forall_app; split); first [apply only_fixed_pads|apply only_fixed_when]).
  assert (Lf : (length fixed <= 5)%nat).
  { unfold fixed, dlsch_fixed. rewrite !length_app. pose proof (length_pads sp).
    destruct (ta =? 0), (bool_decide (is_Some cr)); cbn; lia. }
  assert (Lc : (length (dlsch_ces ta cr) <= 7)%nat).
  { unfold dlsch_ces. rewrite length_app. destruct cr; rewrite ?length_take; destruct (ta =? 0); cbn [length negb]; lia. }
  assert (Cs : ces_size dlsch_ce fixed = Z.of_nat (length (dlsch_ces ta cr))).
  { unfold ces_size, fixed. rewrite ces_of_dlsch. unfold dlsch_ces. rewrite length_app.
    destruct cr as [id|]; rewrite ?length_take; [rewrite Hid|]; by destruct (ta =? 0). }
  destruct (block_parsed UE_CONT_RES dlsch_ce_size dlsch_ce (generate_dlsch_header header (lengths sdus) 255 ta cr sp post) header fixed sdus post
    (dlsch_ces ta cr)) as (n & buf & h & E & Et & Hn & Hl & P); try done.
  { by apply dlsch_items_ok. }
  { unfold NB_RB_MAX. lia. }
  { unfold fixed. rewrite ces_of_dlsch. by destruct (ta =? 0), cr. }
  { rewrite Cs. lia. }
  { intros items it Ei. destruct (small_header fixed sdus items it post (dlsch_ces ta cr) Lf Hs Lc Ei) as [S1 S2].
    split; [apply generate_dlsch_spec; [done|lia]|done]. }
  exists n, buf. split; [done|]. split; [done|]. intros rest tb Hp. unfold ue_send_sdu, parse_header, transport_block. cbn [fst snd].
  rewrite P by (rewrite Cs; destruct Hp as [|Hp]; [by left|right; lia]). step_ok. cbn [rx_ces parsed_ptr rx_sdus].
  unfold fixed. rewrite ces_of_dlsch, Et. by apply take_control_elements.
Qed.

End Downlink.

Section Uplink.
Context {T : Type} `{O : CollectionOps T rlc_union_t}.

(** What the eNB takes from a block, whatever the report. *)
Lemma ul_block header sdus phr crnti bsr sp post :
  (72 <= length header)%nat -> sdus <> [] -> (length sdus <= 14)%nat ->
  Forall (fun s => 0 <= fst s < EXTENDED_POWER_HEADROOM /\ Z.of_nat (length (snd s)) < 2 ^ 15) sdus -> Forall ccch_long sdus ->
  exists n buf, generate_ulsch_header header (lengths sdus) sp phr crnti bsr post = Ok (n, buf) /\ 0 <= n < 72 /\
    forall c cc frame harq reg rest tb msg3 e (l : rlc_layer T),
      0 < post \/ (uncounted bsr = [] /\ tb = n + Z.of_nat (length (payload sdus))) ->
      rx_sdu c cc frame harq reg (Some (transport_block (n, buf) sdus rest)) tb msg3 e l =
      take_ul_block c cc frame harq reg (ul_ces phr crnti bsr) (cut (lengths sdus) (uncounted bsr ++ payload sdus)) tb msg3 e l.
Proof.
  intros Hh Hne Hs F Fc. set (fixed := ulsch_fixed phr crnti bsr sp).
  assert (Of : only_fixed fixed).
  { unfold fixed, ulsch_fixed. repeat (apply Forall_app; split); try apply only_fixed_pads; try apply only_fixed_when.
    destruct bsr; repeat constructor; by eexists. }
  assert (Lf : (length fixed <= 5)%nat).
  { unfold fixed, ulsch_fixed. rewrite !length_app. pose proof (length_pads sp). destruct phr, crnti, bsr; cbn; lia. }
  assert (Lc : (length (ulsch_ces phr crnti bsr) <= 7)%nat) by (destruct phr, crnti, bsr as [| | |[[[? ?] ?] ?]]; cbn; lia).
  pose proof (ces_size_ulsch phr crnti bsr sp) as Cs. fold fixed in Cs.
  destruct (block_parsed EXTENDED_POWER_HEADROOM ulsch_ce_size ulsch_ce (generate_ulsch_header header (lengths sdus) sp phr crnti bsr post) header
    fixed sdus post (ulsch_ces phr crnti bsr)) as (n & buf & h & E & Et & Hn & Hl & P); try done.
  { by apply ulsch_items_ok. }
  { unfold NB_RB_MAX. lia. }
  { unfold fixed. rewrite ces_of_ulsch. by destruct phr, crnti, bsr. }
  { rewrite Cs. by destruct phr, crnti, bsr as [| | |[[[? ?] ?] ?]]. }
  { intros items it Ei. destruct (small_header fixed sdus items it post (ulsch_ces phr crnti bsr) Lf Hs Lc Ei) as [S1 S2].
    split; [apply generate_ulsch_spec; [done|lia]|done]. }
  exists n, buf. split; [done|]. split; [done|]. intros c cc frame harq reg rest tb msg3 e l Hp.
  unfold rx_sdu, take_ul_block, parse_ulsch_header, transport_block. cbn [fst snd].
  rewrite P.
  2: { destruct Hp as [|[Hu Hp]]; [by left|right]. rewrite Cs, Hp, ulsch_ces_payload, Hu, app_nil_r. lia. }
  destruct (find_UE_id (MacRxSdu.UE_list e) (RlcLayer.rnti c)) as [id|]; [|done]. step_ok. step_ok.
  destruct (rx_known_ue harq _) as [s|]; [|done]. do 3 step_ok. destruct (upd_elem _ cc _) as [st|]; [|done]. do 2 step_ok.
  cbn [parsed_ptr MacHeader.rx_ces MacHeader.rx_sdus]. assert (Ef : ces_of fixed = fst <$> ul_ces phr crnti bsr) by apply ces_of_ulsch.
  rewrite Ef, Et, ulsch_ces_payload.
  destruct (cut_spec sdus (uncounted bsr ++ payload sdus)) as (r & Ec & El); [rewrite length_app; lia|].
  set (sdus' := cut (lengths sdus) (uncounted bsr ++ payload sdus)) in *.
  replace ((h ++ ce_payload (ul_ces phr crnti bsr) ++ uncounted bsr) ++ payload sdus ++ rest)
    with (h ++ ce_payload (ul_ces phr crnti bsr) ++ payload sdus' ++ (r ++ rest))
    by (rewrite (app_assoc (payload sdus')), <- Ec, <- !app_assoc; done).
  rewrite ces_local by apply ul_ces_sized. destruct (take_ces cc frame _ _) as [s2|]; [|done]. do 3 step_ok.
  rewrite (app_assoc h), <- El, sdus_local by (by eapply ccch_long_lengths).
  destruct (take_sdus c cc harq reg sdus' s2) as [s3|]; [|done]. do 2 step_ok.
  rewrite bool_decide_false; [done|]. intros [H _]. rewrite El in H. destruct sdus; done.
Qed.

(** A power headroom report of a UE that is not known is noted before the
    array. *)
Lemma phr_unknown_faults cc frame block p e msg3 (l : rlc_layer T) out :
  rx_control_element cc frame block p POWER_HEADROOM (mk_rx (-1) e msg3 l out) = Fault OutOfBounds.
Proof. done. Qed.

(** The bytes of a C-RNTI are read in the other order than they are written. *)
Lemma crnti_read_swapped cc frame r (s : rx (T := T)) : 0 <= r < 2 ^ 16 ->
  rx_control_element cc frame [Z.land r 0xff; Z.land (Z.shiftr r 8) 0xff] 0 CRNTI s =
  (let r' := (r mod 256) * 256 + r / 256 in
   id ← find_UE_id (ues s) r';
   let s := s <| UE_id := id |> in
   s ← (if id =? -1 then Ok s else heard (fun _ => Ok r') s);
   Ok (s <| msg3_flag ::= fun o => match o with Some _ => Some 0 | None => None end |>)).
Proof.
  intros H. unfold rx_control_element. change (CRNTI =? POWER_HEADROOM) with false. change (CRNTI =? CRNTI) with true. cbv iota.
  unfold get. cbn [lookup list_lookup Nat.add of_option]. do 2 step_ok. cbv zeta.
  change 0xff with (Z.ones 8). rewrite !Z.land_ones by lia. rewrite Z.shiftl_mul_pow2, Z.shiftr_div_pow2 by lia. change (2 ^ 8) with 256.
  rewrite (Z.mod_small (r / 256)); [done|]. split; [apply Z.div_pos; lia|apply Z.div_lt_upper_bound; lia].
Qed.

(** C15. An uplink transport block is taken apart as it was put together. Let
    the UE write the header for one to 14 SDUs below 32 KiB, with or without
    power headroom, C-RNTI, truncated or short buffer status report and
    padding, and copy the SDUs behind it: whatever follows in the block, if
    padding is announced or the block ends with the last SDU, the eNB does with
    each control element and each SDU, in order, exactly what it does with the
    bytes of that element or SDU alone. *)
Theorem ulsch_block_delivered header sdus phr crnti bsr sp post :
  (72 <= length header)%nat -> sdus <> [] -> (length sdus <= 14)%nat ->
  Forall (fun s => 0 <= fst s < EXTENDED_POWER_HEADROOM /\ Z.of_nat (length (snd s)) < 2 ^ 15) sdus -> Forall ccch_long sdus ->
  (forall sizes, bsr <> Long_bsr sizes) ->
  exists n buf, generate_ulsch_header header (lengths sdus) sp phr crnti bsr post = Ok (n, buf) /\ 0 <= n < 72 /\
    forall c cc frame harq reg rest tb msg3 e (l : rlc_layer T), 0 < post \/ tb = n + Z.of_nat (length (payload sdus)) ->
      rx_sdu c cc frame harq reg (Some (transport_block (n, buf) sdus rest)) tb msg3 e l =
      take_ul_block c cc frame harq reg (ul_ces phr crnti bsr) sdus tb msg3 e l.
Proof.
  intros Hh Hne Hs F Fc Hb. destruct (ul_block header sdus phr crnti bsr sp post Hh Hne Hs F Fc) as (n & buf & E & Hn & H).
  assert (U : uncounted bsr = []) by (destruct bsr; [done..|by exfalso; eapply Hb]). rewrite U in H. cbn [app] in H.
  exists n, buf. split; [done|]. split; [done|]. intros c cc frame harq reg rest tb msg3 e l Hp.
  rewrite H by (destruct Hp; [by left|by right]). rewrite <- (app_nil_r (payload sdus)), cut_payload. done.
Qed.

(** C35. A long buffer status report shifts the data. The UE writes four bytes
    for it, the size of a structure with a byte of padding, and the eNB counts
    three: of a block with a long report and padding the eNB takes SDUs of the
    right lengths, but cut out of the data one byte too early, with a zero byte
    that nobody sent in front and the last byte left over. *)
Theorem long_bsr_shifts_sdus header sdus phr crnti sizes sp post :
  (72 <= length header)%nat -> sdus <> [] -> (length sdus <= 14)%nat ->
  Forall (fun s => 0 <= fst s < EXTENDED_POWER_HEADROOM /\ Z.of_nat (length (snd s)) < 2 ^ 15) sdus -> Forall ccch_long sdus -> 0 < post ->
  exists n buf shifted, generate_ulsch_header header (lengths sdus) sp phr crnti (Long_bsr sizes) post = Ok (n, buf) /\
    lengths shifted = lengths sdus /\ (exists v, payload shifted ++ [v] = 0 :: payload sdus) /\
    forall c cc frame harq reg rest tb msg3 e (l : rlc_layer T),
      rx_sdu c cc frame harq reg (Some (transport_block (n, buf) sdus rest)) tb msg3 e l =
      take_ul_block c cc frame harq reg (ul_ces phr crnti (Long_bsr sizes)) shifted tb msg3 e l.
Proof.
  intros Hh Hne Hs F Fc Hp. destruct (ul_block header sdus phr crnti (Long_bsr sizes) sp post Hh Hne Hs F Fc) as (n & buf & E & Hn & H).
  destruct (cut_spec sdus (0 :: payload sdus)) as (r & Er & El); [simpl; lia|].
  exists n, buf, (cut (lengths sdus) (0 :: payload sdus)). split; [done|]. split; [done|]. split.
  - assert (Lp : length (payload (cut (lengths sdus) (0 :: payload sdus))) = length (payload sdus)).
    { apply Nat2Z.inj. by rewrite <- !sdus_size_payload, El. }
    pose proof (f_equal length Er) as L. rewrite length_app, Lp in L. cbn [length] in L.
    destruct r as [|v [|? ?]]; cbn [length] in L; try lia. by exists v.
  - intros. apply H. by left.
Qed.

End Uplink.

(** ** Concrete blocks *)

(** The layers on the hash table, with DRB 1 of UE 0x1234 of eNB 0 in UM, which
    is DTCH. *)
Notation hlayer := (rlc_layer (objects rlc_union_t)).
Definition drb1 : option (list DRB_ToAddMod_t) := Some [mk_drb 1 (Some (RLC_Config_PR_um_Bi_Directional 1 (1, 7)))].
Definition configured_layer (c : layer_ctxt) : hlayer :=
  match rrc_rlc_config_asn1_req c None drb1 None None rlc_module_init with Ok (_, l) => l | Fault _ => rlc_module_init end.
Definition dtch_ue : layer_ctxt := mk_lctxt 0 0x1234 (RlcUm.mk_ctxt 0 0 false true true).
Definition dtch_enb : layer_ctxt := mk_lctxt 0 0x1234 (RlcUm.mk_ctxt 0 0 true true true).

(** What the layer has handed to PDCP for the bearer. *)
Definition delivered (c : layer_ctxt) (l : hlayer) : option (list up_call) := indications <$> (entities l !! key_of c 1 false).

Definition sample_ue : UE_MAC_INST :=
  mk_ue 1 1 [0; 0; 0; 1; 2; 3; 4; 5; 6] 0 0 0 0 (mk_sched [0; 0; 0; 0] [0; 0; 0; 0] [0; 0; 0; 0] [0; 0; 0; 0] 0 0 0 0 0 0).
Definition sample_dl : list (Z * list Z) := [(CCCH, [9; 8; 7]); (DTCH, [0; 0; 1; 2; 3])].

Lemma dl_taken_value r : r = take_block dtch_ue 40 (Some [1; 2; 3; 4; 5; 6]) sample_dl sample_ue (configured_layer dtch_ue) -> match r with
  | Ok (_, l, out) => out = [Process_timing_advance 7; Ra_succeeded; Mac_rrc_data_ind CCCH [9; 8; 7]] /\
                      delivered dtch_ue l = Some [PdcpDataInd false false 1 [1; 2; 3]]
  | Fault _ => False
  end.
Proof. intros ->. vm_compute. split; reflexivity. Qed.

Lemma dlsch_block_delivered_witness : exists n buf ue l,
  generate_dlsch_header (replicate 80 0) (lengths sample_dl) 255 40 (Some [1; 2; 3; 4; 5; 6]) 0 0 = Ok (n, buf) /\
  ue_send_sdu dtch_ue (transport_block (n, buf) sample_dl []) (n + 8) sample_ue (configured_layer dtch_ue) =
    Ok (ue, l, [Process_timing_advance 7; Ra_succeeded; Mac_rrc_data_ind CCCH [9; 8; 7]]) /\
  delivered dtch_ue l = Some [PdcpDataInd false false 1 [1; 2; 3]].
Proof.
  destruct (dlsch_block_delivered dtch_ue (replicate 80 0) sample_dl 40 (Some [1; 2; 3; 4; 5; 6]) 0 0 sample_ue (configured_layer dtch_ue))
    as (n & buf & E & _ & H).
  - rewrite length_replicate. lia.
  - discriminate.
  - simpl. lia.
  - apply (bool_decide_unpack _). vm_compute. exact I.
  - reflexivity.
  - simpl. lia.
  - pose proof (H [] (n + 8) (or_intror eq_refl)) as V. apply dl_taken_value in V. exists n, buf. destruct (ue_send_sdu _ _ _ _ _) as [[[ue l] out]|]; [|contradiction].
    destruct V as [-> V]. exists ue, l. split; [exact E|]. split; [reflexivity|exact V].
Defined.

(** An eNB with one carrier that knows the UE. *)
Definition stats_zero : eNB_UE_STATS := mk_stats (replicate 14 0) (replicate 14 0) 0 0 0 0 0.
Definition sample_enb : eNB_MAC_INST :=
  mk_enb (match add_new_ue 0 0x1234 0 (initial_list 1) with Ok (_, u) => u | Fault _ => initial_list 1 end)
    [replicate 4 (mk_ra false 0 [] 0 0)] [replicate 16 stats_zero] [(0, 0, 0)].
Definition sample_ul : list (Z * list Z) := [(DTCH, [0; 0; 1; 2; 3])].

(** The report of group 1, the SDU, what the eNB notes. *)
Definition template0 (s : rx (T := objects rlc_union_t)) : option UE_TEMPLATE :=
  match elem2 (UE_template (MacRxSdu.UE_list (inst s))) 0 0 with Ok t => Some t | Fault _ => None end.
Lemma ul_taken_value r : r = take_ul_block dtch_enb 0 5 0 true (ul_ces (Some 30) None (Short_bsr (bsr_short_byte 1 9))) sample_ul 20 None sample_enb (configured_layer dtch_enb) ->
  match r with
  | Ok s => delivered dtch_enb (rlc s) = Some [PdcpDataInd false false 1 [1; 2; 3]] /\
            (fun t => (bsr_info t, phr_info t, ul_total_buffer t)) <$> template0 s = Some ([0; 9; 0; 0], 7, 36)
  | Fault _ => False
  end.
Proof. intros ->. vm_compute. split; reflexivity. Qed.

Lemma ulsch_block_delivered_witness : exists n buf s,
  generate_ulsch_header (replicate 80 0) (lengths sample_ul) 0 (Some 30) None (Short_bsr (bsr_short_byte 1 9)) 3 = Ok (n, buf) /\
  rx_sdu dtch_enb 0 5 0 true (Some (transport_block (n, buf) sample_ul [0; 0; 0])) 20 None sample_enb (configured_layer dtch_enb) = Ok s /\
  delivered dtch_enb (rlc s) = Some [PdcpDataInd false false 1 [1; 2; 3]] /\
  (fun t => (bsr_info t, phr_info t, ul_total_buffer t)) <$> template0 s = Some ([0; 9; 0; 0], 7, 36).
Proof.
  destruct (ulsch_block_delivered (T := objects rlc_union_t) (replicate 80 0) sample_ul (Some 30) None (Short_bsr (bsr_short_byte 1 9)) 0 3)
    as (n & buf & E & _ & H).
  - rewrite length_replicate. lia.
  - discriminate.
  - simpl. lia.
  - apply (bool_decide_unpack _). vm_compute. exact I.
  - apply Forall_singleton. discriminate.
  - discriminate.
  - pose proof (H dtch_enb 0 5 0 true [0; 0; 0] 20 None sample_enb (configured_layer dtch_enb) (or_introl eq_refl)) as V.
    apply ul_taken_value in V. exists n, buf.
    destruct (rx_sdu _ _ _ _ _ _ _ _ _ _) as [s|]; [|contradiction]. exists s. split; [exact E|]. split; [reflexivity|exact V].
Defined.

(** With a long report RLC gets the PDU one byte late, and throws it away or
    delivers other bytes. *)
Lemma ul_long_value r : r = take_ul_block dtch_enb 0 5 0 true (ul_ces (Some 30) None (Long_bsr (1, 2, 3, 4))) [(DTCH, [0; 0; 0; 1; 2])] 20 None sample_enb (configured_layer dtch_enb) ->
  match r with
  | Ok s => delivered dtch_enb (rlc s) = Some [PdcpDataInd false false 1 [0; 1; 2]]
  | Fault _ => False
  end.
Proof. intros ->. vm_compute. reflexivity. Qed.

Lemma long_bsr_shifts_sdus_witness : exists n buf s,
  generate_ulsch_header (replicate 80 0) (lengths sample_ul) 0 (Some 30) None (Long_bsr (1, 2, 3, 4)) 3 = Ok (n, buf) /\
  rx_sdu dtch_enb 0 5 0 true (Some (transport_block (n, buf) sample_ul [0; 0; 0])) 20 None sample_enb (configured_layer dtch_enb) = Ok s /\
  delivered dtch_enb (rlc s) = Some [PdcpDataInd false false 1 [0; 1; 2]].
Proof.
  destruct (long_bsr_shifts_sdus (T := objects rlc_union_t) (replicate 80 0) sample_ul (Some 30) None (1, 2, 3, 4) 0 3)
    as (n & buf & shifted & E & L & (v & P) & H).
  - rewrite length_replicate. lia.
  - discriminate.
  - simpl. lia.
  - apply (bool_decide_unpack _). vm_compute. exact I.
  - apply Forall_singleton. discriminate.
  - lia.
  - assert (shifted = [(DTCH, [0; 0; 0; 1; 2])]) as ->.
    { destruct shifted as [|[lcid d] [|? ?]]; try discriminate L. injection L as -> Ld. unfold payload in P. cbn in P.
      rewrite app_nil_r in P. apply (Nat2Z.inj _ 5%nat) in Ld. destruct d as [|d0 [|d1 [|d2 [|d3 [|d4 [|? ?]]]]]]; try discriminate Ld.
      injection P as E0 E1 E2 E3 E4 _. by subst. }
    pose proof (H dtch_enb 0 5 0 true [0; 0; 0] 20 None sample_enb (configured_layer dtch_enb)) as V.
    apply ul_long_value in V. exists n, buf.
    destruct (rx_sdu _ _ _ _ _ _ _ _ _ _) as [s|]; [|contradiction]. exists s. split; [exact E|]. split; [reflexivity|exact V].
Defined.

End MacClaims.
